(* ===== verification/_CoqProject ===== *)
-Q . S2P
Prelude.v
CString.v
Blocks.v
Bio.v
Log.v
Crash.v
Spinlock.v
Kalloc.v
Pipe.v
Proc.v
Fs.v
FsBlock.v
FsFile.v
FsWrite.v
FsDir.v
FsSample.v
Mkfs.v
User.v
Printf.v
Tools.v
Cmds.v
Grep.v
Sh.v
ShParse.v
ShRun.v
Vm.v
VmMap.v
Console.v
Kbd.v
Syscall.v
Umalloc.v
File.v
Exec.v
ExecVm.v
Sysfile.v
Refs.v
KernelSample.v
Mp.v
Irq.v
Ide.v
Trap.v
Boot.v
Seg.v
Smp.v
Philosophers.v
Tanenbaum.v
Frolf.v
Dance.v
