(* ===== verification/Prelude.v ===== *)
(** * A verification of xv6 (cs450-spring2016)

    The program is the teaching kernel xv6 for the x86, written in C, with the
    changes of a course: accounting of CPU bursts (a scheduler that uses them is
    commented out), threads and mutexes, and inodes with two singly-indirect blocks
    and a doubly-indirect one.  The repository (src/) has the kernel, the user programs,
    the boot loader and the program that builds the disk image, and in mp3/ three
    programs in Python about synchronization.  This library translates the code into
    functions and proves what makes it correct.

    ** Parts and files

    The disk.  bio.c caches disk blocks, log.c makes groups of block writes atomic,
    fs.c builds inodes, files, directories and paths on it, file.c and pipe.c the
    open files, sysfile.c the system calls on them.
    - Blocks.v: the interface between the cache and its clients ([BufOps], the
      operations, and [BufCache], their laws); the layout of blocks (fs.h).
    - Bio.v: bio.c on the memory disk of memide.c; an instance of [BufCache].
    - Log.v, Crash.v: log.c, and power failures at any disk write.
    - Fs.v: the code of fs.c; FsBlock.v, FsFile.v, FsWrite.v, FsDir.v: its theorems
      (bitmap, file contents, writes and inodes on disk, directories and the inode
      cache); FsSample.v: a small file system they are applied to.
    - Mkfs.v: mkfs.c, and that fs.c reads what it builds.
    - Ide.v: the driver of the hardware disk, ide.c, with an ATA disk behind its ports.
    - Pipe.v, File.v, Sysfile.v: pipe.c, file.c, sysfile.c; Refs.v: the reference
      counts of open files in the whole kernel; KernelSample.v: a small kernel the
      theorems about the whole kernel are applied to.

    Memory.  kalloc.c hands out pages, vm.c builds page tables from them.
    - CString.v: string.c, on a memory of bytes.
    - Kalloc.v, Vm.v, VmMap.v: kalloc.c, the code of vm.c, and what page tables map.
    - Seg.v: segment descriptors, the task state and the change of address spaces
      (the rest of vm.c, and the descriptors of mmu.h).

    Processes.  proc.c has the process table and the scheduler, exec.c replaces the
    image of a process, syscall.c and sysproc.c are the system calls, trap.c what
    leads to them, spinlock.c the locks.
    - Spinlock.v, Proc.v, Exec.v, Syscall.v, Trap.v; ExecVm.v: exec.c on the page tables
      of Vm.v, which implement the class [Machine].

    Devices and start-up.
    - Console.v, Kbd.v: console.c, uart.c, kbd.c; Irq.v: picirq.c, ioapic.c, lapic.c,
      timer.c; Mp.v: mp.c; Smp.v: the start of the other processors (main.c, lapic.c);
      Boot.v: the boot loader bootmain.c.

    User programs.
    - User.v, Printf.v, Umalloc.v: ulib.c, printf.c, umalloc.c; Tools.v: cat.c, wc.c,
      echo.c; Cmds.v: ls.c, rm.c, mkdir.c, ln.c, kill.c, zombie.c, init.c; Grep.v: grep.c;
      Sh.v, ShParse.v, ShRun.v: sh.c.

    Synchronization (mp3/).
    - Philosophers.v, Tanenbaum.v: the three solutions of 3_philosophers.py; Frolf.v:
      1_disc_golf_range.py; Dance.v: 2_dance_mixer.py.  Their threads are step functions
      that interleave one operation on a lock, semaphore or variable at a time.

    ** How code is modelled

    A routine is a function of the monad [M S A] below: it takes the state [S] of its
    component, a record with the fields of the C structure, to an [outcome]: [Ok] with a
    result, [Panic] for a call of panic, [Fault] for an access that C leaves undefined
    or a processor exception, [Sleep] where the process gives up the CPU, and [NoFuel].
    A component reaches the state of another one through [zoom], or through a class
    that names the operations it uses ([BufOps], [Services] of Proc.v, [Pages] of File.v,
    [Machine] of Exec.v, [FileCalls] of Syscall.v, [Sys] of User.v, [Ports] of Mp.v); a
    second class states the laws where a proof needs them ([BufCache], [Awake] of
    Exec.v, [PicPair] of Irq.v, [IdeDisk] of Ide.v, [PollDisk] of Boot.v).  The instances in the files show
    that the laws can hold, and for the buffer cache that the code keeps them.

    - Integers are in Z, with the wrap-around of their C type written out ([w8], [w16],
      [w32], [s32]).  Pointers into arrays of structures are indices; pointers to bytes
      are 32-bit addresses into a memory, or lists where the code only walks a string.
    - A spinlock is a boolean in the state, with [acquire] and [release] at the places
      of the code; acquiring a lock the CPU already holds panics.  Between them a routine is
      atomic.  What interleaves is the segments between two sleeps, or between the
      accesses to memory in Spinlock.v: step relations whose reachable states carry
      the invariants.  A routine that sleeps is split there into two definitions.
      The timer does not preempt the kernel inside of a segment.
    - [wp m Q s] says that [m] started in [s] returns, and that the result and the
      state satisfy [Q]; it excludes panics, faults and lack of fuel.  [wlp] says it
      only of runs that return, and is used where the code may panic or sleep;
      [ends] of Exec.v says it of runs that return and of those that sleep.
    - Loops that are not structural take fuel.  It is a bound the code gives (the length
      of the buffer cache's list, the size of a string), for which termination is part
      of the theorem, or a parameter with a hypothesis that says how much is needed (a
      device that answers after a number of polls).

    ** What the theorems show

    - Bio, Log, Crash: the list walks of the cache are the least-recently-used policy; a
      read returns the last write; a commit is atomic under crashes, also across boots.
    - Fs*, Mkfs: allocation finds the lowest free block, [bmap], [readi] and [writei]
      implement files as sequences of bytes without disturbing others, lookups find
      the first entry with the name, mkfs and the kernel agree on the disk format.
    - Spinlock, Kalloc, Proc, Refs: mutual exclusion without panics; pages are owned by one
      user; the invariant of the process table; reference counts are the number of
      descriptors, also while calls sleep, but for what [exit] has counted down.
    - Pipe, Console, Ide: they refine a bounded queue, a line editor and a server with a
      queue; no wakeup is lost in pipes and in wait.
    - Vm, Seg, Exec, Syscall, Trap: page tables map what was asked for, or memory runs out and
      is given back; the switch between processes; the stack of a new program as it sees
      it; [exec] replaces an image and destroys the right address space, or fails without
      a trace; arguments of system calls are checked; a killed process does not get back
      to user mode; what a clock tick does.
    - Sh, Grep, Umalloc: the parser inverts printing, commands run and wait with the
      descriptors they should and no others, the matcher decides its regular expressions, blocks do not overlap.
    - Mp, Kbd, Smp, Boot: decoding of the firmware's tables, of scan codes, the
      start of processors and of the kernel.
    - Philosophers, Tanenbaum, Frolf, Dance: mutual exclusion, absence of deadlock and the
      end of every schedule; conservation of discs; one couple at a time.
    Some theorems show behaviour that is not meant: a file with indirect blocks cannot
    be truncated ([itrunc_reads_past_buffer]), kill(0) dooms the next process, the 101st
    burst overwrites its own index, a schedule of the dance mixer raises an exception.

    ** Bounds

    The largest file is MAXFILE blocks (10 direct, 256 singly- and 16384
    doubly-indirect).  A write must fit into the transaction (LOGSIZE blocks), and its
    new blocks must be described by the first block of the bitmap that has a free one;
    the theorems say how many blocks that are.  mkfs writes only one indirect
    block, so its theorem is for files of at most 138 blocks.  The arguments of [exec] are
    shorter than a page in the theorem about the stack; the firmware's table has at most
    NCPU processors.

    ** Not modelled

    - Assembly (bootasm.S, entry.S, entryother.S, initcode.S, swtch.S, trapasm.S, usys.S,
      vectors.S): [swtch] is the place where routines are split; of entryother.S Smp.v has
      what it takes from memory.
    - [main] of main.c and [mpenter], which call the initialization routines modelled in
      the components.  The endless loop of the scheduler is the step relation of Proc.v.
    - Timing, caches, reordering of memory accesses; the effect of the cache of page table
      entries (TLB).
    - The test programs (usertests.c, forktest.c, bigtest.c, stressfs.c, schedtest.c,
      getcount.c, the testmp2 programs), which exercise the system calls.
    - Declarations (defs.h, types.h, asm.h), build scripts, and printing, sleeping and time
      measurement in the Python programs. *)

From stdpp Require Import base numbers list strings.
From Stdlib Require Import ZArith Lia.

#[local] Open Scope Z_scope.

(** ** Outcomes of kernel code

    A kernel routine either returns a value, calls [panic] (console.c), makes
    an access the C standard leaves undefined, or goes to sleep on a channel
    (proc.c [sleep]).  [Sleep c s] carries the state in which the process is
    parked: the spinlock passed to [sleep] has been released.  [NoFuel] is the
    result of a pointer traversal whose fuel ran out; theorems that claim a
    result prove that it is not reached. *)

(** Wait channels: the kernel sleeps on the address of an object. *)
Inductive chan :=
  | ChBuf (b : nat)
  | ChInode (i : nat)
  | ChLog
  | ChTicks
  | ChInput
  | ChProc (p : nat)
  | ChPipeRead (p : nat)
  | ChPipeWrite (p : nat).

#[export] Instance chan_eq_dec : EqDecision chan.
Proof. solve_decision. Defined.

Inductive outcome (S A : Type) :=
  | Ok (a : A) (s : S)
  | Panic (msg : string)
  | Fault (msg : string)
  | Sleep (c : chan) (s : S)
  | NoFuel.
Arguments Ok {S A} a s.
Arguments Panic {S A} msg.
Arguments Fault {S A} msg.
Arguments Sleep {S A} c s.
Arguments NoFuel {S A}.

Definition M (S A : Type) : Type := S → outcome S A.

#[export] Instance M_ret {S} : MRet (M S) := λ A a s, Ok a s.
#[export] Instance M_bind {S} : MBind (M S) := λ A B f m s,
  match m s with
  | Ok a s' => f a s'
  | Panic msg => Panic msg
  | Fault msg => Fault msg
  | Sleep c s' => Sleep c s'
  | NoFuel => NoFuel
  end.

Definition get {S} : M S S := λ s, Ok s s.
Definition gets {S A} (f : S → A) : M S A := λ s, Ok (f s) s.
Definition modify {S} (f : S → S) : M S unit := λ s, Ok tt (f s).
Definition panic {S A} (msg : string) : M S A := λ _, Panic msg.
Definition fault {S A} (msg : string) : M S A := λ _, Fault msg.
Definition nofuel {S A} : M S A := λ _, NoFuel.

(** [park c f]: go to sleep on [c]; [f] is what [sleep] does to the state on
    the way (it releases the lock it was given). *)
Definition park {S A} (c : chan) (f : S → S) : M S A := λ s, Sleep c (f s).

(** A spinlock as the code that takes it sees it: [true] while this CPU holds
    it.  [acquire] of a lock this CPU already holds and [release] of one it does
    not hold panic (spinlock.c); the locks' mutual exclusion between CPUs is
    the subject of Spinlock.v. *)
Definition acquire {S} (rd : S → bool) (wr : bool → S → S) : M S unit := λ s,
  if rd s then Panic "acquire" else Ok tt (wr true s).
Definition release {S} (rd : S → bool) (wr : bool → S → S) : M S unit := λ s,
  if rd s then Ok tt (wr false s) else Panic "release".

(** Run a routine of a component on the part of the state it owns. *)
Definition zoom {S T A} (rd : S → T) (wr : T → S → S) (m : M T A) : M S A := λ s,
  match m (rd s) with
  | Ok a t => Ok a (wr t s)
  | Panic msg => Panic msg
  | Fault msg => Fault msg
  | Sleep c t => Sleep c (wr t s)
  | NoFuel => NoFuel
  end.

(** [for(i = ...)] over the given indices. *)
Fixpoint for_each {S A} (l : list A) (f : A → M S unit) : M S unit :=
  match l with
  | [] => mret tt
  | x :: l => f x;; for_each l f
  end.

(** ** Total-correctness triples

    [wp m Q s]: started in [s], [m] returns (no panic, no undefined access, no
    sleep, no lack of fuel) and the result satisfies [Q]. *)
Definition wp {S A} (m : M S A) (Q : A → S → Prop) (s : S) : Prop :=
  match m s with Ok a s' => Q a s' | _ => False end.

Section wp_rules.
Context {S A B : Type}.
Implicit Types (s : S).

Lemma wp_ok (m : M S A) Q s : wp m Q s ↔ ∃ a s', m s = Ok a s' ∧ Q a s'.
Proof. unfold wp. split; [destruct (m s); naive_solver|]. by intros (a & s' & -> & HQ). Qed.

Lemma wp_mono (m : M S A) (Q R : A → S → Prop) s :
  wp m Q s → (∀ a s', Q a s' → R a s') → wp m R s.
Proof. unfold wp. destruct (m s); naive_solver. Qed.

Lemma wp_ret (a : A) (Q : A → S → Prop) s : Q a s → wp (mret a) Q s.
Proof. done. Qed.

Lemma wp_bind (m : M S A) (f : A → M S B) (Q : B → S → Prop) s :
  wp m (λ a s', wp (f a) Q s') s → wp (m ≫= f) Q s.
Proof. unfold wp, mbind, M_bind. by destruct (m s). Qed.

Lemma wp_gets (f : S → A) (Q : A → S → Prop) s : Q (f s) s → wp (gets f) Q s.
Proof. done. Qed.

Lemma wp_modify (f : S → S) (Q : unit → S → Prop) s : Q tt (f s) → wp (modify f) Q s.
Proof. done. Qed.

Lemma wp_if (b : bool) (m1 m2 : M S A) Q s :
  (b = true → wp m1 Q s) → (b = false → wp m2 Q s) →
  wp (if b then m1 else m2) Q s.
Proof. destruct b; auto. Qed.

Lemma wp_conj (m : M S A) (Q R : A → S → Prop) s :
  wp m Q s → wp m R s → wp m (λ a s', Q a s' ∧ R a s') s.
Proof. unfold wp. destruct (m s); naive_solver. Qed.
End wp_rules.

Lemma wp_get {S} (Q : S → S → Prop) s : Q s s → wp get Q s.
Proof. done. Qed.

Lemma wp_zoom {S T A} (rd : S → T) (wr : T → S → S) (m : M T A) (Q : A → S → Prop) s :
  wp m (λ a t, Q a (wr t s)) (rd s) → wp (zoom rd wr m) Q s.
Proof. unfold wp, zoom. by destruct (m (rd s)). Qed.

Lemma wp_acquire {S} (rd : S → bool) wr (Q : unit → S → Prop) s :
  rd s = false → Q tt (wr true s) → wp (acquire rd wr) Q s.
Proof. unfold wp, acquire. by intros ->. Qed.

Lemma wp_release {S} (rd : S → bool) wr (Q : unit → S → Prop) s :
  rd s = true → Q tt (wr false s) → wp (release rd wr) Q s.
Proof. unfold wp, release. by intros ->. Qed.

Lemma bind_ok {S A B} (m : M S A) (f : A → M S B) s a s' :
  m s = Ok a s' → (m ≫= f) s = f a s'.
Proof. unfold mbind, M_bind. by intros ->. Qed.

(** A loop with an invariant on what is done and what is left. *)
Lemma wp_for_each {S A} (l : list A) (f : A → M S unit) (I : list A → S → Prop)
    (Q : unit → S → Prop) s :
  I l s →
  (∀ x l' s', I (x :: l') s' → wp (f x) (λ _ s'', I l' s'') s') →
  (∀ s', I [] s' → Q tt s') →
  wp (for_each l f) Q s.
Proof.
  intros HI Hstep Hend. revert s HI. induction l as [|x l IH]; intros s HI; simpl.
  - apply wp_ret. by apply Hend.
  - apply wp_bind. eapply wp_mono; [by apply Hstep|]. intros [] s' HI'. by apply IH.
Qed.

(** Use a triple, keeping what it proves. *)
Ltac wp_use H := eapply wp_mono; [eapply H|cbn beta].

(** One step of symbolic execution of a monadic body. *)
Ltac wp_step :=
  lazymatch goal with
  | |- wp (mbind _ _) _ _ => apply wp_bind
  | |- wp (mret _) _ _ => apply wp_ret
  | |- wp get _ _ => apply wp_get
  | |- wp (gets _) _ _ => apply wp_gets
  | |- wp (modify _) _ _ => apply wp_modify
  | |- wp (zoom _ _ _) _ _ => apply wp_zoom
  end.
Ltac wp_run := repeat (wp_step; cbn beta).

(** The state a program leaves, for examples that run it. *)
Definition after {S A} (m : M S A) (s : S) : S :=
  match m s with Ok _ s' => s' | _ => s end.

Lemma after_ok {S A} (m : M S A) s a :
  match m s with Ok b _ => b = a | _ => False end → m s = Ok a (after m s).
Proof. unfold after. destruct (m s) as [b s'|?|?|?|]; [by intros ->|done..]. Qed.

Lemma wp_after {S A} (m : M S A) Q s : wp m Q s → ∃ a, Q a (after m s).
Proof. unfold wp, after. destruct (m s) as [b s'|?|?|?|]; [by exists b|done..]. Qed.

(** ** Partial-correctness triples

    [wlp m Q s]: if [m] returns, the result satisfies [Q]; for invariants of
    code whose callees may panic. *)
Definition wlp {S A} (m : M S A) (Q : A → S → Prop) (s : S) : Prop :=
  match m s with Ok a s' => Q a s' | _ => True end.

Section wlp_rules.
Context {S A B : Type}.
Implicit Types (s : S).

Lemma wlp_ok (m : M S A) (Q : A → S → Prop) s a s' : wlp m Q s → m s = Ok a s' → Q a s'.
Proof. unfold wlp. intros H E. by rewrite E in H. Qed.

Lemma wlp_mono (m : M S A) (Q P : A → S → Prop) s :
  wlp m Q s → (∀ a s', Q a s' → P a s') → wlp m P s.
Proof. unfold wlp. destruct (m s); auto. Qed.

Lemma wlp_ret (a : A) (Q : A → S → Prop) s : Q a s → wlp (mret a) Q s.
Proof. done. Qed.

Lemma wlp_bind (m : M S A) (f : A → M S B) (Q : B → S → Prop) s :
  wlp m (λ a s', wlp (f a) Q s') s → wlp (m ≫= f) Q s.
Proof. unfold wlp, mbind, M_bind. by destruct (m s). Qed.

Lemma wlp_gets (f : S → A) (Q : A → S → Prop) s : Q (f s) s → wlp (gets f) Q s.
Proof. done. Qed.

Lemma wlp_modify (f : S → S) (Q : unit → S → Prop) s : Q tt (f s) → wlp (modify f) Q s.
Proof. done. Qed.

Lemma wlp_if (b : bool) (m1 m2 : M S A) Q s :
  (b = true → wlp m1 Q s) → (b = false → wlp m2 Q s) → wlp (if b then m1 else m2) Q s.
Proof. destruct b; auto. Qed.

Lemma wlp_panic msg (Q : A → S → Prop) s : wlp (panic msg) Q s.
Proof. done. Qed.

Lemma wlp_fault msg (Q : A → S → Prop) s : wlp (fault msg) Q s.
Proof. done. Qed.
End wlp_rules.

Lemma wlp_zoom {S T A} (rd : S → T) (wr : T → S → S) (m : M T A) (Q : A → S → Prop) s :
  (∀ a t, Q a (wr t s)) → wlp (zoom rd wr m) Q s.
Proof. unfold wlp, zoom. destruct (m (rd s)); auto. Qed.

Lemma wlp_acquire {S} (rd : S → bool) wr (Q : unit → S → Prop) s :
  Q tt (wr true s) → wlp (acquire rd wr) Q s.
Proof. unfold wlp, acquire. by destruct (rd s). Qed.

Lemma wlp_release {S} (rd : S → bool) wr (Q : unit → S → Prop) s :
  Q tt (wr false s) → wlp (release rd wr) Q s.
Proof. unfold wlp, release. by destruct (rd s). Qed.

Lemma wlp_for_each {S A} (l : list A) (f : A → M S unit) (I : list A → S → Prop)
    (Q : unit → S → Prop) s :
  I l s →
  (∀ x l' s', I (x :: l') s' → wlp (f x) (λ _ s'', I l' s'') s') →
  (∀ s', I [] s' → Q tt s') →
  wlp (for_each l f) Q s.
Proof.
  intros HI Hstep Hend. revert s HI. induction l as [|x l IH]; intros s HI; simpl.
  - apply wlp_ret. by apply Hend.
  - apply wlp_bind. eapply wlp_mono; [by apply Hstep|]. intros [] s' HI'. by apply IH.
Qed.

(** ** Machine integers *)

Definition w8 (z : Z) : Z := z `mod` 2^8.
Definition w16 (z : Z) : Z := z `mod` 2^16.
Definition w32 (z : Z) : Z := z `mod` 2^32.

(** The [int] with the same bits. *)
Definition s32 (z : Z) : Z := if w32 z <? 2^31 then w32 z else w32 z - 2^32.
Definition s16 (z : Z) : Z := if w16 z <? 2^15 then w16 z else w16 z - 2^16.

Lemma geb_false n m : n < m → (n >=? m) = false.
Proof. intros. rewrite Z.geb_leb. by apply Z.leb_gt. Qed.

Lemma w32_small z : 0 ≤ z < 2^32 → w32 z = z.
Proof. apply Z.mod_small. Qed.

(** A counter that wraps around indexes a ring whose size divides 2^32. *)
Lemma w32_mod a k : 0 < k → (k | 2^32) → w32 a `mod` k = a `mod` k.
Proof. intros Hk Hd. unfold w32. by apply Z.mod_mod_divide. Qed.

Lemma mod_inj k a i j : 0 ≤ i < k → 0 ≤ j < k → (a + i) `mod` k = (a + j) `mod` k → i = j.
Proof.
  intros Hi Hj E. pose proof (Z.div_mod (a + i) k ltac:(lia)). pose proof (Z.div_mod (a + j) k ltac:(lia)).
  assert (Ed : i - j = k * ((a + i) / k - (a + j) / k)) by lia.
  destruct (Z.eq_dec ((a + i) / k - (a + j) / k) 0) as [E0|E0]; [rewrite E0 in Ed; lia|].
  exfalso. assert (k ≤ Z.abs (i - j)) by nia. lia.
Qed.

(** Different counts below 2^32 apart do not coincide modulo 2^32. *)
Lemma w32_inj a i j : 0 ≤ i < 2^32 → 0 ≤ j < 2^32 → w32 (a + i) = w32 (a + j) → i = j.
Proof. apply mod_inj. Qed.

Lemma w32_bound z : 0 ≤ w32 z < 2^32.
Proof. by apply Z.mod_pos_bound. Qed.

Lemma w32_idemp z : w32 (w32 z) = w32 z.
Proof. apply Z.mod_mod. lia. Qed.

Lemma w32_add_l a b : w32 (w32 a + b) = w32 (a + b).
Proof. apply Zplus_mod_idemp_l. Qed.

Lemma w32_add_r a b : w32 (a + w32 b) = w32 (a + b).
Proof. apply Zplus_mod_idemp_r. Qed.

Lemma w32_sub_l a b : w32 (w32 a - b) = w32 (a - b).
Proof. apply Zminus_mod_idemp_l. Qed.

Lemma w32_sub_r a b : w32 (a - w32 b) = w32 (a - b).
Proof. apply Zminus_mod_idemp_r. Qed.

Lemma s32_bound z : -2^31 ≤ s32 z < 2^31.
Proof. unfold s32. pose proof (w32_bound z). case_match; lia. Qed.

Lemma s32_small z : -2^31 ≤ z < 2^31 → s32 z = z.
Proof.
  intros. unfold s32, w32. destruct (decide (0 ≤ z)).
  - rewrite Z.mod_small by lia. case_match; lia.
  - rewrite <- (Z.mod_add z 1 (2^32)) by lia. rewrite Z.mod_small by lia. case_match; lia.
Qed.

(** Clearing the low [k] bits of a word. *)
Lemma land_high v k :
  0 ≤ v < 2^32 → 0 ≤ k → Z.land v (Z.ldiff (Z.ones 32) (Z.ones k)) = v / 2^k * 2^k.
Proof.
  intros Hv Hk.
  assert (E : Z.land v (Z.ldiff (Z.ones 32) (Z.ones k)) = Z.ldiff (Z.land v (Z.ones 32)) (Z.ones k)).
  { apply Z.bits_inj'. intros n Hn. rewrite !Z.land_spec, !Z.ldiff_spec, Z.land_spec. by rewrite andb_assoc. }
  rewrite E, Z.land_ones, Z.mod_small, Z.ldiff_ones_r by lia.
  by rewrite Z.shiftr_div_pow2, Z.shiftl_mul_pow2 by lia.
Qed.

Create HintDb word32.
Create Rewrite HintDb word32_rw.
#[export] Hint Rewrite w32_idemp w32_add_l w32_add_r w32_sub_l w32_sub_r : word32_rw.
#[export] Hint Resolve w32_bound s32_bound : word32.

Lemma byte_pair hi lo : 0 ≤ lo < 256 → Z.lor (Z.shiftl hi 8) lo = hi * 256 + lo.
Proof.
  intros Hlo. rewrite Z.shiftl_mul_pow2 by lia. change (2 ^ 8) with 256. rewrite <- Z.add_lor_land.
  replace (Z.land (hi * 256) lo) with 0; [lia|]. symmetry. apply Z.bits_inj'. intros n Hn.
  rewrite Z.land_spec, Z.bits_0. change 256 with (2 ^ 8).
  destruct (Z.lt_ge_cases n 8); [by rewrite Z.mul_pow2_bits_low|].
  rewrite (Z.bits_above_log2 lo n), ?andb_false_r; [done|lia|].
  destruct (Z.eq_dec lo 0) as [->|]; [simpl; lia|]. apply Z.log2_lt_pow2; [lia|].
  apply Z.lt_le_trans with (2 ^ 8); [lia|]. apply Z.pow_le_mono_r; lia.
Qed.

(** ** Byte sequences *)

Definition is_byte (b : Z) : Prop := 0 ≤ b < 256.
#[export] Instance is_byte_dec b : Decision (is_byte b).
Proof. unfold is_byte. apply _. Defined.

(** Little-endian encoding in [n] bytes, and decoding. *)
Fixpoint le_bytes (n : nat) (z : Z) : list Z :=
  match n with
  | O => []
  | S n => z `mod` 256 :: le_bytes n (z / 256)
  end.

Fixpoint le_val (l : list Z) : Z :=
  match l with
  | [] => 0
  | b :: l => b + 256 * le_val l
  end.

Lemma length_le_bytes n z : length (le_bytes n z) = n.
Proof. revert z; induction n; simpl; auto. Qed.

Lemma le_bytes_byte n z : Forall is_byte (le_bytes n z).
Proof.
  revert z; induction n; simpl; intros; constructor; auto.
  unfold is_byte. apply Z.mod_pos_bound. lia.
Qed.

Lemma le_val_bytes n z : le_val (le_bytes n z) = z `mod` 256 ^ Z.of_nat n.
Proof.
  revert z; induction n as [|n IH]; intros z.
  - by rewrite Z.mod_1_r.
  - simpl le_bytes. simpl le_val. rewrite IH.
    rewrite Nat2Z.inj_succ, Z.pow_succ_r by lia.
    rewrite Z.rem_mul_r by lia. lia.
Qed.

Lemma le_bytes_val l : Forall is_byte l → le_bytes (length l) (le_val l) = l.
Proof.
  induction 1 as [|b l Hb _ IH]; simpl; [done|]. unfold is_byte in Hb.
  replace (b + 256 * le_val l) with (b + le_val l * 256) by lia.
  rewrite Z.mod_add, Z.div_add by lia.
  rewrite Z.mod_small, Z.div_small, Z.add_0_l by lia. by rewrite IH.
Qed.

Lemma le_val_bound l : Forall is_byte l → 0 ≤ le_val l < 256 ^ Z.of_nat (length l).
Proof.
  induction 1 as [|b l Hb _ IH]; [simpl; lia|]. unfold is_byte in Hb.
  simpl le_val. rewrite length_cons, Nat2Z.inj_succ, Z.pow_succ_r by lia. lia.
Qed.

(** [slice off n l]: the [n] bytes at [off]; [splice off bs l]: overwrite the
    bytes at [off] with [bs]. *)
Definition slice {A} (off n : nat) (l : list A) : list A := take n (drop off l).
Definition splice {A} (off : nat) (bs l : list A) : list A :=
  take off l ++ bs ++ drop (off + length bs) l.

Section slices.
Context {A : Type}.
Implicit Types (l bs : list A).

Lemma length_slice off n l : (off + n ≤ length l)%nat → length (slice off n l) = n.
Proof. intros. unfold slice. rewrite length_take, length_drop. lia. Qed.

Lemma length_splice off bs l :
  (off + length bs ≤ length l)%nat → length (splice off bs l) = length l.
Proof. intros. unfold splice. rewrite !length_app, length_take, length_drop. lia. Qed.

Lemma lookup_slice off n l i :
  slice off n l !! i = if decide (i < n)%nat then l !! (off + i)%nat else None.
Proof.
  unfold slice. case_decide.
  - by rewrite lookup_take_lt, lookup_drop.
  - by rewrite lookup_take_ge by lia.
Qed.

Lemma lookup_splice off bs l i :
  (off + length bs ≤ length l)%nat →
  splice off bs l !! i =
    if decide (off ≤ i < off + length bs)%nat then bs !! (i - off)%nat else l !! i.
Proof.
  intros. unfold splice. case_decide as Hd.
  - rewrite lookup_app_r; rewrite length_take; [|lia].
    rewrite Nat.min_l by lia. by rewrite lookup_app_l by lia.
  - destruct (decide (i < off)%nat).
    + rewrite lookup_app_l by (rewrite length_take; lia). by rewrite lookup_take_lt.
    + rewrite lookup_app_r; rewrite length_take; [|lia]. rewrite Nat.min_l by lia.
      rewrite lookup_app_r by lia. rewrite lookup_drop. f_equal. lia.
Qed.

Lemma slice_splice_same off bs l :
  (off + length bs ≤ length l)%nat → slice off (length bs) (splice off bs l) = bs.
Proof.
  intros. apply list_eq. intros i. rewrite lookup_slice.
  case_decide.
  - rewrite lookup_splice by done. rewrite decide_True by lia. f_equal. lia.
  - symmetry. apply lookup_ge_None. lia.
Qed.

Lemma slice_splice_other off bs off' n l :
  (off + length bs ≤ length l)%nat →
  (off' + n ≤ off ∨ off + length bs ≤ off')%nat →
  slice off' n (splice off bs l) = slice off' n l.
Proof.
  intros. apply list_eq. intros i. rewrite !lookup_slice.
  case_decide; [|done]. rewrite lookup_splice by done. by rewrite decide_False by lia.
Qed.

Lemma splice_id off n l :
  (off + n ≤ length l)%nat → splice off (slice off n l) l = l.
Proof.
  intros. apply list_eq. intros i. rewrite lookup_splice; rewrite length_slice by done; [|done].
  case_decide; [|done]. rewrite lookup_slice, decide_True by lia. f_equal. lia.
Qed.
End slices.

(** 16- and 32-bit fields of a byte array, as the x86 stores them. *)
Definition get_u32 (off : nat) (l : list Z) : Z := le_val (slice off 4 l).
Definition put_u32 (off : nat) (v : Z) (l : list Z) : list Z := splice off (le_bytes 4 v) l.
Definition get_u16 (off : nat) (l : list Z) : Z := le_val (slice off 2 l).
Definition put_u16 (off : nat) (v : Z) (l : list Z) : list Z := splice off (le_bytes 2 v) l.

Lemma length_put_u32 off v l : (off + 4 ≤ length l)%nat → length (put_u32 off v l) = length l.
Proof. intros. apply length_splice. by rewrite length_le_bytes. Qed.

Lemma get_put_u32_same off v l : (off + 4 ≤ length l)%nat → get_u32 off (put_u32 off v l) = w32 v.
Proof.
  intros. unfold get_u32, put_u32.
  rewrite <- (length_le_bytes 4 v) at 1. rewrite slice_splice_same.
  - rewrite le_val_bytes. done.
  - by rewrite length_le_bytes.
Qed.

Lemma get_put_u32_other off off' v l :
  (off + 4 ≤ length l)%nat → (off' + 4 ≤ off ∨ off + 4 ≤ off')%nat →
  get_u32 off' (put_u32 off v l) = get_u32 off' l.
Proof.
  intros. unfold get_u32, put_u32. rewrite slice_splice_other; [done|..];
  rewrite length_le_bytes; lia.
Qed.

(** A list of 32-bit words in memory. *)
Lemma slice_app_l {A} off n (a b : list A) : (off + n ≤ length a)%nat → slice off n (a ++ b) = slice off n a.
Proof.
  intros H. unfold slice. rewrite skipn_app, firstn_app. rewrite length_drop.
  replace (n - (length a - off))%nat with 0%nat by lia. by rewrite firstn_O, app_nil_r.
Qed.

Lemma slice_app_r {A} off n (a b : list A) : (length a ≤ off)%nat → slice off n (a ++ b) = slice (off - length a) n b.
Proof.
  intros H. unfold slice. rewrite skipn_app. by rewrite (skipn_all2 a) by lia.
Qed.

Lemma slice_all {A} n (a : list A) : length a = n → slice 0 n a = a.
Proof. intros <-. unfold slice. by rewrite drop_0, take_ge. Qed.

Lemma slice_words (l : list Z) j a :
  l !! j = Some a → slice (4 * j) 4 (l ≫= le_bytes 4) = le_bytes 4 a.
Proof.
  revert j. induction l as [|b l IH]; intros j; [done|]. cbn [mbind list_bind]. destruct j as [|j]; intros E.
  - injection E as ->. rewrite slice_app_l by (rewrite length_le_bytes; lia). by apply slice_all, length_le_bytes.
  - rewrite slice_app_r by (rewrite length_le_bytes; lia). rewrite length_le_bytes.
    replace (4 * Datatypes.S j - 4)%nat with (4 * j)%nat by lia. by apply IH.
Qed.

Lemma length_words (l : list Z) : length (l ≫= le_bytes 4) = (4 * length l)%nat.
Proof.
  induction l as [|a l IH]; [done|]. cbn [mbind list_bind length]. rewrite length_app, length_le_bytes.
  etrans; [apply f_equal, IH|]. lia.
Qed.

(** A 512-byte disk block. *)
Abbreviation block := (list Z) (only parsing).
Definition BSIZE : nat := 512.
Definition is_block (b : block) : Prop := length b = BSIZE.
#[export] Instance is_block_dec b : Decision (is_block b).
Proof. unfold is_block. apply _. Defined.
Definition zero_block : block := replicate BSIZE 0.

Lemma zero_block_ok : is_block zero_block.
Proof. apply length_replicate. Qed.

Lemma put_u32_block off v b : (off + 4 ≤ BSIZE)%nat → is_block b → is_block (put_u32 off v b).
Proof. unfold is_block. intros ? Hb. by rewrite length_put_u32 by (rewrite Hb; done). Qed.

#[export] Hint Resolve zero_block_ok : core.

Lemma find_append {A} (f : A → bool) l k :
  List.find f (l ++ k) = match List.find f l with Some x => Some x | None => List.find f k end.
Proof. induction l as [|x l IH]; [done|]. simpl. by destruct (f x). Qed.

Lemma find_first {A} (f : A → bool) l x :
  List.find f l = Some x ↔ ∃ k, l !! k = Some x ∧ f x = true ∧ ∀ j q, (j < k)%nat → l !! j = Some q → f q = false.
Proof.
  induction l as [|y l IH]; simpl; [split; [done|]; intros (k & Hk & _); by rewrite lookup_nil in Hk|].
  destruct (f y) eqn:Ey.
  - split.
    + intros [= ->]. exists 0%nat. split_and!; [done|done|]. intros; lia.
    + intros ([|k] & Hk & Hx & Hfirst); [by injection Hk as ->|]. by rewrite (Hfirst 0%nat y) in Ey by (done || lia).
  - rewrite IH. split; intros (k & Hk & Hx & Hfirst).
    + exists (S k). split_and!; [done|done|]. intros [|j] q Hj Hq; [by injection Hq as ->|]. eapply Hfirst; [|exact Hq]. lia.
    + destruct k as [|k]; [injection Hk as ->; congruence|]. exists k. split_and!; [done|done|].
      intros j q Hj Hq. apply (Hfirst (S j) q); [lia|done].
Qed.

Lemma find_pointwise {A} (f g : A → bool) l :
  (∀ x, f x = g x) → List.find f l = List.find g l.
Proof. intros E. induction l as [|x l IH]; simpl; [done|]. by rewrite E, IH. Qed.

Lemma filter_ne_notin {A} `{EqDecision A} (x : A) (l : list A) : x ∉ l → filter (λ y, y ≠ x) l = l.
Proof.
  induction l as [|y l IH]; [done|]. intros [Hy Hl]%not_elem_of_cons.
  rewrite filter_cons_True by done. by rewrite IH.
Qed.
