(* ===== verification/CString.v ===== *)
(** * String and memory routines (string.c)

    The routines work on a byte-addressed memory [mem]; pointers are 32-bit
    addresses and pointer increments wrap as they do on the machine.  Loops
    that count down a [uint] recurse on that count. *)

From stdpp Require Import base numbers list strings.
From Stdlib Require Import ZArith Lia.
From S2P Require Import Prelude.

#[local] Open Scope Z_scope.

(** A memory maps an address to the byte stored there. *)
Definition mem := Z → Z.
Definition upd (m : mem) (a v : Z) : mem := λ x, if x =? a then v else m x.

(** [rep stosb]: store the low byte of [data], [cnt] times -- src/x86.h:43-50 *)
Fixpoint stosb (m : mem) (addr data : Z) (cnt : nat) : mem :=
  match cnt with
  | O => m
  | S cnt => stosb (upd m addr (w8 data)) (w32 (addr + 1)) data cnt
  end.

(** A 32-bit little-endian store. *)
Definition store32 (m : mem) (a v : Z) : mem :=
  upd (upd (upd (upd m a (w8 v)) (w32 (a + 1)) (w8 (Z.shiftr v 8)))
    (w32 (a + 2)) (w8 (Z.shiftr v 16))) (w32 (a + 3)) (w8 (Z.shiftr v 24)).

(** [rep stosl]: store [data] as a 32-bit word, [cnt] times -- src/x86.h:52-59 *)
Fixpoint stosl (m : mem) (addr data : Z) (cnt : nat) : mem :=
  match cnt with
  | O => m
  | S cnt => stosl (store32 m addr data) (w32 (addr + 4)) data cnt
  end.

(** The word loop when both the address and the count are multiples of four,
    the byte loop otherwise -- src/string.c:4-13 *)
Definition memset (m : mem) (dst c n : Z) : mem :=
  if (Z.rem (s32 dst) 4 =? 0) && (n `mod` 4 =? 0) then
    let c := Z.land c 0xFF in
    stosl m dst (w32 (Z.lor (Z.lor (Z.lor (Z.shiftl c 24) (Z.shiftl c 16)) (Z.shiftl c 8)) c))
      (Z.to_nat (n / 4))
  else stosb m dst c (Z.to_nat n).

(** [while(n-- > 0)] over two cursors. *)
Fixpoint memcmp_loop (m : mem) (s1 s2 : Z) (n : nat) : Z :=
  match n with
  | O => 0
  | S n => if negb (m s1 =? m s2) then m s1 - m s2
           else memcmp_loop m (w32 (s1 + 1)) (w32 (s2 + 1)) n
  end.

(** src/string.c:15-29 *)
Definition memcmp (m : mem) (v1 v2 n : Z) : Z := memcmp_loop m v1 v2 (Z.to_nat n).

(** [while(n-- > 0) *d++ = *s++] -- src/string.c:44-46 *)
Fixpoint copy_up (m : mem) (d s : Z) (n : nat) : mem :=
  match n with
  | O => m
  | S n => copy_up (upd m d (m s)) (w32 (d + 1)) (w32 (s + 1)) n
  end.

(** [while(n-- > 0) *--d = *--s] -- src/string.c:40-43 *)
Fixpoint copy_down (m : mem) (d s : Z) (n : nat) : mem :=
  match n with
  | O => m
  | S n => let d := w32 (d - 1) in let s := w32 (s - 1) in
           copy_down (upd m d (m s)) d s n
  end.

(** Copies downwards when the source starts below the destination and reaches
    into it -- src/string.c:31-49 *)
Definition memmove (m : mem) (dst src n : Z) : mem :=
  let s := src in
  let d := dst in
  if (s <? d) && (w32 (s + n) >? d) then
    copy_down m (w32 (d + n)) (w32 (s + n)) (Z.to_nat n)
  else copy_up m d s (Z.to_nat n).

(** src/string.c:51-56 *)
Definition memcpy (m : mem) (dst src n : Z) : mem := memmove m dst src n.

(** src/string.c:58-66 *)
Fixpoint strncmp (m : mem) (p q : Z) (n : nat) : Z :=
  match n with
  | O => 0
  | S n => if negb (m p =? 0) && (m p =? m q) then strncmp m (w32 (p + 1)) (w32 (q + 1)) n
           else m p - m q
  end.

(** [while(n-- > 0) *s++ = 0] -- src/string.c:76-77 *)
Fixpoint strncpy_pad (m : mem) (s : Z) (n : nat) : mem :=
  match n with
  | O => m
  | S n => strncpy_pad (upd m s 0) (w32 (s + 1)) n
  end.

(** Copy up to and including the NUL, then the padding loop -- src/string.c:74-77 *)
Fixpoint strncpy_copy (m : mem) (s t : Z) (n : nat) : mem :=
  match n with
  | O => m
  | S n => let c := m t in
           let m := upd m s c in
           if c =? 0 then strncpy_pad m (w32 (s + 1)) n
           else strncpy_copy m (w32 (s + 1)) (w32 (t + 1)) n
  end.

(** src/string.c:68-79 *)
Definition strncpy (m : mem) (s t n : Z) : mem := strncpy_copy m s t (Z.to_nat n).

(** Copy while room is left for the NUL; the argument is [n - 1] -- src/string.c:90-92 *)
Fixpoint safestrcpy_copy (m : mem) (s t : Z) (n : nat) : mem :=
  match n with
  | O => upd m s 0
  | S n => let c := m t in
           let m := upd m s c in
           if c =? 0 then upd m (w32 (s + 1)) 0
           else safestrcpy_copy m (w32 (s + 1)) (w32 (t + 1)) n
  end.

(** src/string.c:81-94 *)
Definition safestrcpy (m : mem) (s t n : Z) : mem :=
  if n <=? 0 then m else safestrcpy_copy m s t (Z.to_nat (n - 1)).

(** The scan for the terminating NUL; [fuel] bounds the search. *)
Fixpoint strlen_loop (m : mem) (s n : Z) (fuel : nat) : option Z :=
  match fuel with
  | O => None
  | S fuel => if m (w32 (s + n)) =? 0 then Some n else strlen_loop m s (n + 1) fuel
  end.

(** src/string.c:96-104 *)
Definition strlen (m : mem) (s : Z) (fuel : nat) : option Z := strlen_loop m s 0 fuel.

(** ** Reference definitions

    The bytes of a memory range, the C string a range holds (the bytes before
    the first NUL) and NUL padding. *)
Fixpoint bytes_at (m : mem) (a : Z) (n : nat) : list Z :=
  match n with
  | O => []
  | S n => m a :: bytes_at m (a + 1) n
  end.

Fixpoint until_nul (l : list Z) : list Z :=
  match l with
  | [] => []
  | c :: l => if c =? 0 then [] else c :: until_nul l
  end.

Definition cstr (m : mem) (a : Z) (n : nat) : list Z := until_nul (bytes_at m a n).
Definition nul_pad (n : nat) (l : list Z) : list Z := l ++ replicate (n - length l) 0.

(** ** The copying loops *)

Lemma copy_up_spec m d s n a :
  0 ≤ d → d + Z.of_nat n < 2^32 → 0 ≤ s → s + Z.of_nat n < 2^32 →
  d ≤ s ∨ s + Z.of_nat n ≤ d →
  copy_up m d s n a =
    if decide (d ≤ a < d + Z.of_nat n) then m (s + (a - d)) else m a.
Proof.
  revert m d s. induction n as [|n IH]; intros m d s Hd Hdn Hs Hsn Hdis; simpl.
  { by rewrite decide_False by lia. }
  rewrite !w32_small by lia. rewrite IH by lia. unfold upd.
  repeat case_decide; repeat case_match; try lia; f_equal; try lia.
Qed.

Lemma copy_down_spec m d s n a :
  0 ≤ s → s < d → d + Z.of_nat n < 2^32 →
  copy_down m (d + Z.of_nat n) (s + Z.of_nat n) n a =
    if decide (d ≤ a < d + Z.of_nat n) then m (s + (a - d)) else m a.
Proof.
  revert m. induction n as [|n IH]; intros m Hs Hsd Hdn; simpl copy_down.
  { by rewrite decide_False by lia. }
  replace (d + Z.of_nat (S n) - 1) with (d + Z.of_nat n) by lia.
  replace (s + Z.of_nat (S n) - 1) with (s + Z.of_nat n) by lia.
  rewrite !w32_small by lia. rewrite IH by lia. unfold upd.
  repeat case_decide; repeat case_match; try lia; f_equal; lia.
Qed.

Lemma copy_ranges_cases d s n :
  0 ≤ n → 0 ≤ s → s + n < 2^32 →
  (s <? d) && (w32 (s + n) >? d) = true ∧ s < d ∨
  (s <? d) && (w32 (s + n) >? d) = false ∧ (d ≤ s ∨ s + n ≤ d).
Proof.
  intros. rewrite w32_small by lia.
  destruct (Z.ltb_spec s d), (Z.gtb_spec (s + n) d); simpl; lia.
Qed.

(** [memmove] copies as if through a temporary buffer: after the call the
    [n] bytes at [dst] are the bytes [src] held before it, also when the two
    ranges overlap, and every other byte is unchanged. *)
Theorem memmove_spec (m : mem) (dst src n a : Z) :
  0 ≤ n → 0 ≤ dst → dst + n < 2^32 → 0 ≤ src → src + n < 2^32 →
  memmove m dst src n a =
    if decide (dst ≤ a < dst + n) then m (src + (a - dst)) else m a.
Proof.
  intros. unfold memmove.
  destruct (copy_ranges_cases dst src n) as [[-> ?]|[-> ?]]; [lia..| |].
  - rewrite !w32_small by lia. rewrite <- (Z2Nat.id n) at 1 2 by lia.
    rewrite copy_down_spec by lia. by rewrite Z2Nat.id by lia.
  - rewrite copy_up_spec by lia. by rewrite Z2Nat.id by lia.
Qed.

(** An overlapping move by one byte in each direction. *)
Lemma memmove_spec_witness :
  memmove (λ x, x) 11 10 4 14 = 13 ∧ memmove (λ x, x) 10 11 4 10 = 11.
Proof.
  split.
  - rewrite (memmove_spec (λ x, x) 11 10 4 14) by lia. reflexivity.
  - rewrite (memmove_spec (λ x, x) 10 11 4 10) by lia. reflexivity.
Defined.

(** ** Filling *)

Lemma stosb_spec m d c n a :
  0 ≤ d → d + Z.of_nat n < 2^32 →
  stosb m d c n a = if decide (d ≤ a < d + Z.of_nat n) then w8 c else m a.
Proof.
  revert m d. induction n as [|n IH]; intros m d Hd Hn; simpl.
  { by rewrite decide_False by lia. }
  rewrite w32_small by lia. rewrite IH by lia. unfold upd.
  repeat case_decide; repeat case_match; lia.
Qed.

(** The word [memset] builds from a byte repeats that byte. *)
Definition repeats (c : Z) : bool :=
  let w := w32 (Z.lor (Z.lor (Z.lor (Z.shiftl c 24) (Z.shiftl c 16)) (Z.shiftl c 8)) c) in
  (w8 w =? c) && (w8 (Z.shiftr w 8) =? c) && (w8 (Z.shiftr w 16) =? c) && (w8 (Z.shiftr w 24) =? c).

Lemma repeats_byte c : is_byte c → repeats c = true.
Proof.
  intros Hc. assert (H : forallb repeats (seqZ 0 256) = true) by (vm_compute; reflexivity).
  rewrite forallb_forall in H. apply H. apply list_elem_of_In, elem_of_seqZ.
  unfold is_byte in Hc. lia.
Qed.

Lemma stosl_spec m d w c n a :
  w8 w = c → w8 (Z.shiftr w 8) = c → w8 (Z.shiftr w 16) = c → w8 (Z.shiftr w 24) = c →
  0 ≤ d → d + 4 * Z.of_nat n < 2^32 →
  stosl m d w n a = if decide (d ≤ a < d + 4 * Z.of_nat n) then c else m a.
Proof.
  intros H0 H1 H2 H3. revert m d. induction n as [|n IH]; intros m d Hd Hn; simpl.
  { by rewrite decide_False by lia. }
  rewrite w32_small by lia. rewrite IH by lia. unfold store32, upd.
  rewrite !w32_small, H0, H1, H2, H3 by lia.
  repeat case_decide; repeat case_match; lia.
Qed.

(** [memset] stores the low byte of [c] in the [n] bytes at [dst] and
    nowhere else, whichever of its two loops runs. *)
Lemma memset_spec (m : mem) (dst c n a : Z) :
  0 ≤ n → 0 ≤ dst → dst + n < 2^32 →
  memset m dst c n a = if decide (dst ≤ a < dst + n) then w8 c else m a.
Proof.
  intros. unfold memset. destruct (_ && _) eqn:E.
  - apply andb_true_iff in E as [_ E%Z.eqb_eq].
    pose proof (Z.div_mod n 4 ltac:(lia)). pose proof (Z.div_pos n 4 ltac:(lia) ltac:(lia)).
    assert (Hc : Z.land c 0xFF = w8 c) by apply (Z.land_ones c 8 ltac:(lia)).
    assert (Hb : is_byte (Z.land c 0xFF)) by (rewrite Hc; by apply Z.mod_pos_bound).
    pose proof (repeats_byte _ Hb) as R. unfold repeats in R.
    rewrite !andb_true_iff, !Z.eqb_eq in R. destruct R as [[[R0 R1] R2] R3].
    rewrite (stosl_spec _ _ _ _ _ _ R0 R1 R2 R3) by lia.
    rewrite Hc. replace (4 * Z.of_nat (Z.to_nat (n / 4))) with n by lia. done.
  - rewrite stosb_spec by lia. by rewrite Z2Nat.id by lia.
Qed.

(** ** Strings *)

Lemma length_bytes_at m a n : length (bytes_at m a n) = n.
Proof. revert a; induction n; simpl; auto. Qed.

Lemma bytes_at_ext m m' a n :
  (∀ x, a ≤ x < a + Z.of_nat n → m x = m' x) → bytes_at m a n = bytes_at m' a n.
Proof.
  revert a. induction n as [|n IH]; intros a H; simpl; [done|].
  f_equal; [apply H; lia|]. apply IH. intros; apply H; lia.
Qed.

Lemma strncpy_pad_spec m s n a :
  0 ≤ s → s + Z.of_nat n < 2^32 →
  strncpy_pad m s n a = if decide (s ≤ a < s + Z.of_nat n) then 0 else m a.
Proof.
  revert m s. induction n as [|n IH]; intros m s Hs Hn; simpl.
  { by rewrite decide_False by lia. }
  rewrite w32_small by lia. rewrite IH by lia. unfold upd.
  repeat case_decide; repeat case_match; lia.
Qed.

Lemma strncpy_copy_frame m s t n a :
  0 ≤ s → s + Z.of_nat n < 2^32 → 0 ≤ t → t + Z.of_nat n < 2^32 →
  ¬ (s ≤ a < s + Z.of_nat n) → strncpy_copy m s t n a = m a.
Proof.
  revert m s t. induction n as [|n IH]; intros m s t ?????; simpl; [done|].
  rewrite !w32_small by lia. case_match.
  - rewrite strncpy_pad_spec, decide_False by lia. unfold upd. case_match; lia.
  - rewrite IH by lia. unfold upd. case_match; lia.
Qed.

Lemma bytes_at_zero m a n :
  (∀ x, a ≤ x < a + Z.of_nat n → m x = 0) → bytes_at m a n = replicate n 0.
Proof.
  revert a. induction n as [|n IH]; intros a H; simpl; [done|].
  f_equal; [apply H; lia|]. apply IH. intros; apply H; lia.
Qed.

Lemma strncpy_copy_bytes m s t n :
  0 ≤ s → s + Z.of_nat n < 2^32 → 0 ≤ t → t + Z.of_nat n < 2^32 →
  s + Z.of_nat n ≤ t ∨ t + Z.of_nat n ≤ s →
  bytes_at (strncpy_copy m s t n) s n = nul_pad n (cstr m t n).
Proof.
  unfold cstr. revert m s t. induction n as [|n IH]; intros m s t ?????; [done|]. simpl.
  rewrite !w32_small by lia. destruct (Z.eqb_spec (m t) 0) as [E|E].
  - unfold nul_pad; simpl. f_equal.
    + rewrite strncpy_pad_spec, decide_False by lia. unfold upd. by rewrite Z.eqb_refl.
    + apply bytes_at_zero. intros x ?. by rewrite strncpy_pad_spec, decide_True by lia.
  - unfold nul_pad; simpl. f_equal.
    + rewrite strncpy_copy_frame by lia. unfold upd. by rewrite Z.eqb_refl.
    + rewrite IH by lia. unfold nul_pad.
      rewrite (bytes_at_ext (upd m s (m t)) m); [done|].
      intros x ?. unfold upd. case_match; lia.
Qed.

(** [strncpy] leaves at [s] the C string at [t], cut to [n] bytes and
    padded with NULs to exactly [n] bytes (the format of a directory entry's
    name field), and changes no other byte. *)
Theorem strncpy_spec (m : mem) (s t n : Z) :
  0 ≤ n → 0 ≤ s → s + n < 2^32 → 0 ≤ t → t + n < 2^32 → s + n ≤ t ∨ t + n ≤ s →
  bytes_at (strncpy m s t n) s (Z.to_nat n) = nul_pad (Z.to_nat n) (cstr m t (Z.to_nat n)) ∧
  ∀ a, ¬ (s ≤ a < s + n) → strncpy m s t n a = m a.
Proof.
  intros. unfold strncpy. split.
  - apply strncpy_copy_bytes; lia.
  - intros a ?. apply strncpy_copy_frame; lia.
Qed.

Lemma strncpy_spec_witness :
  let m := λ x, if x =? 102 then 0 else 97 in
  bytes_at (strncpy m 200 100 4) 200 4 = [97; 97; 0; 0].
Proof.
  intros m. destruct (strncpy_spec m 200 100 4) as [H _]; [lia..|]. exact H.
Defined.

Lemma until_nul_app_nonzero l k : Forall (λ c, c ≠ 0) l → until_nul (l ++ k) = l ++ until_nul k.
Proof. induction 1; simpl; [done|]. rewrite (proj2 (Z.eqb_neq _ _)) by done. by f_equal. Qed.

Lemma until_nul_nonzero l : Forall (λ c, c ≠ 0) (until_nul l).
Proof. induction l as [|c l IH]; simpl; [done|]. destruct (Z.eqb_spec c 0); auto. Qed.

(** [strncmp] compares as the C standard says: it returns 0 exactly when the two
    strings agree up to the first NUL or the first [n] bytes. *)
Lemma strncmp_zero (m : mem) (p q : Z) (n : nat) :
  0 ≤ p → p + Z.of_nat n < 2^32 → 0 ≤ q → q + Z.of_nat n < 2^32 →
  strncmp m p q n = 0 ↔ cstr m p n = cstr m q n.
Proof.
  unfold cstr. revert p q. induction n as [|n IH]; intros p q ????; [done|]. simpl.
  rewrite !w32_small by lia.
  destruct (Z.eqb_spec (m p) 0), (Z.eqb_spec (m p) (m q)), (Z.eqb_spec (m q) 0); simpl;
    try (split; [intros; lia|intros [=]; lia]); try (split; intros; (lia || done)).
  rewrite IH by lia. split; [by intros ->; f_equal|by intros [=]].
Qed.

Lemma safestrcpy_copy_spec m s t n :
  0 ≤ s → s + Z.of_nat n + 1 < 2^32 → 0 ≤ t → t + Z.of_nat n < 2^32 →
  s + Z.of_nat n + 1 ≤ t ∨ t + Z.of_nat n ≤ s →
  cstr (safestrcpy_copy m s t n) s (S n) = cstr m t n ∧
  (∃ i, 0 ≤ i ≤ Z.of_nat n ∧ safestrcpy_copy m s t n (s + i) = 0) ∧
  ∀ a, ¬ (s ≤ a < s + Z.of_nat n + 1) → safestrcpy_copy m s t n a = m a.
Proof.
  unfold cstr. revert m s t. induction n as [|n IH]; intros m s t ?????.
  { simpl. unfold upd at 1. rewrite Z.eqb_refl. split; [done|]. split.
    - exists 0. rewrite Z.add_0_r. unfold upd. rewrite Z.eqb_refl. lia.
    - intros a ?. unfold upd. case_match; lia. }
  cbn [safestrcpy_copy]. rewrite !w32_small by lia. destruct (Z.eqb_spec (m t) 0) as [E|E].
  - split; [|split].
    + cbn [bytes_at until_nul]. unfold upd at 1 2.
      rewrite (proj2 (Z.eqb_neq s (s + 1))), Z.eqb_refl, E by lia. done.
    + exists 1. unfold upd. rewrite Z.eqb_refl. lia.
    + intros a ?. unfold upd. repeat case_match; lia.
  - destruct (IH (upd m s (m t)) (s + 1) (t + 1)) as (IH1 & (i & Hi & IH2) & IH3); [lia..|].
    split; [|split].
    + rewrite (bytes_at_ext (upd m s (m t)) m) in IH1.
      2: { intros x ?. unfold upd. case_match; lia. }
      cbn [bytes_at until_nul] in IH1 |- *.
      rewrite (IH3 s) by lia. unfold upd at 1 2. rewrite Z.eqb_refl.
      rewrite (proj2 (Z.eqb_neq _ _) E). f_equal. exact IH1.
    + exists (i + 1). replace (s + (i + 1)) with (s + 1 + i) by lia. lia.
    + intros a ?. rewrite IH3 by lia. unfold upd. case_match; lia.
Qed.

(** [safestrcpy] always leaves a NUL-terminated string within the [n]
    bytes of its destination, the source string cut to [n - 1] bytes, and
    writes nothing outside them. *)
Lemma safestrcpy_spec (m : mem) (s t n : Z) :
  0 < n → 0 ≤ s → s + n < 2^32 → 0 ≤ t → t + n < 2^32 → s + n ≤ t ∨ t + n ≤ s →
  cstr (safestrcpy m s t n) s (Z.to_nat n) = cstr m t (Z.to_nat (n - 1)) ∧
  (∃ i, 0 ≤ i < n ∧ safestrcpy m s t n (s + i) = 0) ∧
  ∀ a, ¬ (s ≤ a < s + n) → safestrcpy m s t n a = m a.
Proof.
  intros. unfold safestrcpy. rewrite (proj2 (Z.leb_gt n 0)) by lia.
  destruct (safestrcpy_copy_spec m s t (Z.to_nat (n - 1))) as (Hc & (i & Hi & Hz) & Hf); [lia..|].
  replace (S (Z.to_nat (n - 1))) with (Z.to_nat n) in Hc by lia.
  split; [done|]. split.
  - exists i. split; [lia|done].
  - intros a ?. apply Hf. lia.
Qed.

(** [strlen] finds the first NUL, given enough fuel to reach it. *)
Lemma strlen_spec m s n fuel :
  0 ≤ s → s + Z.of_nat n < 2^32 → (n < fuel)%nat →
  m (s + Z.of_nat n) = 0 → (∀ i, 0 ≤ i < Z.of_nat n → m (s + i) ≠ 0) →
  strlen m s fuel = Some (Z.of_nat n).
Proof.
  intros Hs Hsn Hf Hz Hnz. unfold strlen.
  assert (G : ∀ k, (k ≤ n)%nat → strlen_loop m s (Z.of_nat (n - k)) (fuel - (n - k)) = Some (Z.of_nat n)).
  { induction k as [|k IH]; intros Hk.
    - replace (fuel - (n - 0))%nat with (S (fuel - n - 1)) by lia. simpl.
      rewrite w32_small by lia. rewrite Nat.sub_0_r, Hz. done.
    - replace (fuel - (n - S k))%nat with (S (fuel - (n - k))) by lia. simpl.
      rewrite w32_small by lia.
      rewrite (proj2 (Z.eqb_neq _ _)) by (apply Hnz; lia).
      replace (Z.of_nat (n - S k) + 1) with (Z.of_nat (n - k)) by lia. apply IH. lia. }
  specialize (G n). rewrite Nat.sub_diag, Nat.sub_0_r in G. by apply G.
Qed.

