(* ===== verification/Blocks.v ===== *)
(** * The block layer as its clients see it

    log.c and fs.c reach the disk only through the buffer cache (bio.c):
    [bread], [bwrite] and [brelse], and stores to the fields of a buffer they
    hold.  [BufOps] names those operations; [BufCache] states what the cache
    promises about them, in terms of

    - [b_disk s x]: what sector [x] of the disk holds;
    - [b_view s x]: what a reader of block [x] sees (the cached copy if there is
      one, else the disk);
    - [b_writes s]: the sector writes made so far, oldest first;
    - [b_held s]: the buffers handed out by [bread] and not yet released, with
      their sectors;
    - [b_dirty s]: the sectors whose cached copy must not be evicted.

    Bio.v proves that bio.c over the memory disk of memide.c keeps these
    promises; Log.v is proved against them alone. *)

From stdpp Require Import base numbers list strings gmap.
From Stdlib Require Import ZArith Lia.
From S2P Require Import Prelude.

#[local] Open Scope Z_scope.

(** src/param.h:6-6 *)
Definition NBUF : nat := 10.
(** src/param.h:9-9 *)
Definition ROOTDEV : Z := 1.
(** src/param.h:11-11 *)
Definition LOGSIZE : nat := 10.

(** src/buf.h:10-10 *)
Definition B_BUSY : Z := 0x1.
(** src/buf.h:11-11 *)
Definition B_VALID : Z := 0x2.
(** src/buf.h:12-12 *)
Definition B_DIRTY : Z := 0x4.

(** A disk image after a sequence of sector writes, oldest first. *)
Definition disk_upd (d : Z → block) (x : Z) (v : block) : Z → block :=
  λ y, if y =? x then v else d y.

Fixpoint apply_writes (d : Z → block) (ws : list (Z * block)) : Z → block :=
  match ws with
  | [] => d
  | (x, v) :: ws => apply_writes (disk_upd d x v) ws
  end.

Class BufOps (S : Type) := {
  bread : Z → Z → M S nat;
  bwrite : nat → M S unit;
  brelse : nat → M S unit;
  buf_sector : nat → M S Z;
  buf_dev : nat → M S Z;
  buf_data : nat → M S block;
  buf_set_data : nat → block → M S unit;
  buf_set_dirty : nat → M S unit;
}.

(** The buffers that cannot be recycled: held ones and dirty ones. *)
Definition pins_of (held : gmap nat Z) (dirty : gset Z) : gset Z :=
  list_to_set (map_to_list held).*2 ∪ dirty.

Class BufCache (S : Type) `{BufOps S} := {
  b_inv : S → Prop;
  b_size : S → Z;
  b_disk : S → Z → block;
  b_view : S → Z → block;
  b_writes : S → list (Z * block);
  b_held : S → gmap nat Z;
  b_dirty : S → gset Z;

  b_disk_block s x : b_inv s → is_block (b_disk s x);
  b_view_block s x : b_inv s → is_block (b_view s x);
  b_view_clean s x :
    b_inv s → x ∉ b_dirty s → x ∉ pins_of (b_held s) ∅ → b_view s x = b_disk s x;

  bread_spec s x :
    b_inv s → 0 ≤ x < b_size s → x ∉ pins_of (b_held s) ∅ →
    x ∈ b_dirty s ∨ (size (pins_of (b_held s) (b_dirty s)) < NBUF)%nat →
    wp (bread ROOTDEV x) (λ b s',
      b_inv s' ∧ b_size s' = b_size s ∧
      (∀ y, b_view s' y = b_view s y) ∧ (∀ y, b_disk s' y = b_disk s y) ∧
      b_writes s' = b_writes s ∧ b_dirty s' = b_dirty s ∧
      b_held s !! b = None ∧ b_held s' = <[b := x]> (b_held s)) s;

  bwrite_spec s b x :
    b_inv s → b_held s !! b = Some x →
    wp (bwrite b) (λ _ s',
      b_inv s' ∧ b_size s' = b_size s ∧
      (∀ y, b_view s' y = b_view s y) ∧
      (∀ y, b_disk s' y = disk_upd (b_disk s) x (b_view s x) y) ∧
      b_writes s' = b_writes s ++ [(x, b_view s x)] ∧
      b_dirty s' = b_dirty s ∖ {[x]} ∧ b_held s' = b_held s) s;

  brelse_spec s b x :
    b_inv s → b_held s !! b = Some x →
    x ∈ b_dirty s ∨ b_view s x = b_disk s x →
    wp (brelse b) (λ _ s',
      b_inv s' ∧ b_size s' = b_size s ∧
      (∀ y, b_view s' y = b_view s y) ∧ (∀ y, b_disk s' y = b_disk s y) ∧
      b_writes s' = b_writes s ∧ b_dirty s' = b_dirty s ∧
      b_held s' = delete b (b_held s)) s;

  buf_sector_spec s b x :
    b_inv s → b_held s !! b = Some x → buf_sector b s = Ok x s;
  buf_dev_spec s b x :
    b_inv s → b_held s !! b = Some x → buf_dev b s = Ok ROOTDEV s;
  buf_data_spec s b x :
    b_inv s → b_held s !! b = Some x → buf_data b s = Ok (b_view s x) s;
  buf_set_data_spec s b x v :
    b_inv s → b_held s !! b = Some x → is_block v →
    wp (buf_set_data b v) (λ _ s',
      b_inv s' ∧ b_size s' = b_size s ∧
      (∀ y, b_view s' y = disk_upd (b_view s) x v y) ∧ (∀ y, b_disk s' y = b_disk s y) ∧
      b_writes s' = b_writes s ∧ b_dirty s' = b_dirty s ∧ b_held s' = b_held s) s;
  buf_set_dirty_spec s b x :
    b_inv s → b_held s !! b = Some x →
    wp (buf_set_dirty b) (λ _ s',
      b_inv s' ∧ b_size s' = b_size s ∧
      (∀ y, b_view s' y = b_view s y) ∧ (∀ y, b_disk s' y = b_disk s y) ∧
      b_writes s' = b_writes s ∧ b_dirty s' = {[x]} ∪ b_dirty s ∧ b_held s' = b_held s) s;
}.

(** ** The superblock *)

(** src/fs.h:14-20 *)
Record superblock := mkSb {
  sb_size : Z;
  sb_nblocks : Z;
  sb_ninodes : Z;
  sb_nlog : Z;
}.

(** The bytes of block 1, as the struct -- src/fs.h:14-20 *)
Definition sb_of (d : block) : superblock :=
  mkSb (get_u32 0 d) (get_u32 4 d) (get_u32 8 d) (get_u32 12 d).

(** src/fs.c:26-35 *)
Definition readsb {S} `{BufOps S} (dev : Z) : M S superblock :=
  bp ← bread dev 1;
  d ← buf_data bp;
  brelse bp;;
  mret (sb_of d).

(** ** Finite tables built from an array *)

Fixpoint tab {A} (n : nat) (f : nat → option A) : gmap nat A :=
  match n with
  | O => ∅
  | S k => match f k with Some a => <[k := a]> (tab k f) | None => tab k f end
  end.

Fixpoint tabset (n : nat) (f : nat → option Z) : gset Z :=
  match n with
  | O => ∅
  | S k => match f k with Some a => {[a]} ∪ tabset k f | None => tabset k f end
  end.

Lemma lookup_tab {A} n (f : nat → option A) i :
  tab n f !! i = if decide (i < n)%nat then f i else None.
Proof.
  induction n as [|n IH]; simpl; [done|].
  destruct (decide (i = n)) as [->|Hne].
  - rewrite decide_True by lia. destruct (f n) eqn:E.
    + by rewrite lookup_insert_eq.
    + by rewrite IH, decide_False by lia.
  - assert (Hd : (if decide (i < S n)%nat then f i else None) = tab n f !! i).
    { rewrite IH. repeat case_decide; (done || lia). }
    rewrite Hd. destruct (f n); [|done]. by rewrite lookup_insert_ne by done.
Qed.

Lemma elem_of_tabset n f x : x ∈ tabset n f ↔ ∃ i, (i < n)%nat ∧ f i = Some x.
Proof.
  induction n as [|n IH]; simpl; [set_solver by lia|].
  destruct (f n) as [a|] eqn:E; rewrite ?elem_of_union, ?elem_of_singleton, IH; split.
  - intros [->|(i & ? & ?)]; eauto with lia.
  - intros (i & ? & ?). destruct (decide (i = n)) as [->|]; [left; congruence|right].
    exists i. split; [lia|done].
  - intros (i & ? & ?). eauto with lia.
  - intros (i & ? & ?). destruct (decide (i = n)) as [->|]; [congruence|].
    exists i. split; [lia|done].
Qed.

Lemma tab_ext {A} n (f g : nat → option A) :
  (∀ i, (i < n)%nat → f i = g i) → tab n f = tab n g.
Proof. intros H. apply map_eq. intros i. rewrite !lookup_tab. case_decide; auto. Qed.

Lemma tabset_ext n (f g : nat → option Z) :
  (∀ i, (i < n)%nat → f i = g i) → tabset n f = tabset n g.
Proof.
  intros H. apply set_eq. intros x. rewrite !elem_of_tabset.
  split; intros (i & Hi & E); exists i; (split; [done|]); rewrite <- E, H; done.
Qed.

(** An injective table of a set has at most as many entries as the set. *)
Lemma tab_inj_size n (f : nat → Z) (X : gset Z) :
  (∀ i j, (i < n)%nat → (j < n)%nat → f i = f j → i = j) →
  (∀ i, (i < n)%nat → f i ∈ X) → (n ≤ size X)%nat.
Proof.
  intros Hinj HX.
  assert (Hnd : NoDup (f <$> seq 0 n)).
  { apply NoDup_fmap_2_strong; [|apply NoDup_seq].
    intros i j Hi%elem_of_seq Hj%elem_of_seq. apply Hinj; lia. }
  assert (E : size (list_to_set (f <$> seq 0 n) : gset Z) = n).
  { rewrite size_list_to_set by done. by rewrite length_fmap, length_seq. }
  rewrite <- E. apply subseteq_size. intros x.
  rewrite elem_of_list_to_set, list_elem_of_fmap.
  intros (i & -> & Hi%elem_of_seq). apply HX. lia.
Qed.

(** ** Facts about write sequences *)

Lemma apply_writes_app d ws ws' : apply_writes d (ws ++ ws') = apply_writes (apply_writes d ws) ws'.
Proof. revert d. induction ws as [|[x v] ws IH]; intros d; simpl; auto. Qed.

Lemma apply_writes_ext d d' ws x :
  (∀ y, d y = d' y) → apply_writes d ws x = apply_writes d' ws x.
Proof.
  revert d d'. induction ws as [|[y v] ws IH]; intros d d' H; simpl; [done|].
  apply IH. intros z. unfold disk_upd. by rewrite H.
Qed.

Lemma apply_writes_at d d' ws x : d x = d' x → apply_writes d ws x = apply_writes d' ws x.
Proof.
  revert d d'. induction ws as [|[y v] ws IH]; intros d d' H; simpl; [done|].
  apply IH. unfold disk_upd. by rewrite H.
Qed.

Lemma apply_writes_other d ws x :
  Forall (λ w, w.1 ≠ x) ws → apply_writes d ws x = d x.
Proof.
  revert d. induction ws as [|[y v] ws IH]; intros d; [done|].
  intros [Hy Hws]%Forall_cons. simpl in *. rewrite IH by done. unfold disk_upd.
  by rewrite (proj2 (Z.eqb_neq _ _)) by done.
Qed.

Lemma disk_upd_eq d x v : disk_upd d x v x = v.
Proof. unfold disk_upd. by rewrite Z.eqb_refl. Qed.

Lemma disk_upd_ne d x v y : y ≠ x → disk_upd d x v y = d y.
Proof. intros. unfold disk_upd. by rewrite (proj2 (Z.eqb_neq _ _)). Qed.

Lemma elem_of_pins held dirty x :
  x ∈ pins_of held dirty ↔ (∃ b, held !! b = Some x) ∨ x ∈ dirty.
Proof.
  unfold pins_of. rewrite elem_of_union, elem_of_list_to_set.
  rewrite list_elem_of_fmap. split.
  - intros [([b y] & -> & Hb%elem_of_map_to_list)|]; eauto.
  - intros [[b Hb]|]; [left|by right]. exists (b, x). split; [done|].
    by apply elem_of_map_to_list.
Qed.

Lemma elem_of_pins_held held x : x ∉ pins_of held ∅ ↔ ∀ b, held !! b ≠ Some x.
Proof. rewrite elem_of_pins. set_solver. Qed.

Lemma list_to_set_size (l : list Z) : (size (list_to_set l : gset Z) ≤ length l)%nat.
Proof.
  induction l as [|z l IH]; simpl; [done|]. rewrite size_union_alt, size_singleton.
  assert (size (list_to_set l ∖ {[z]} : gset Z) ≤ size (list_to_set l : gset Z))%nat
    by (apply subseteq_size; set_solver). lia.
Qed.

Lemma pins_size held dirty : (size (pins_of held dirty) ≤ size held + size dirty)%nat.
Proof.
  unfold pins_of. rewrite size_union_alt. pose proof (list_to_set_size (map_to_list held).*2) as Hs.
  rewrite length_fmap, length_map_to_list in Hs.
  assert (size (dirty ∖ list_to_set (map_to_list held).*2) ≤ size dirty)%nat
    by (apply subseteq_size; set_solver). lia.
Qed.

(** ** The cache as an abstract state

    [blk s n v d ws D H]: the cache is in a good state whose size, view, disk,
    writes, dirty set and held buffers are the given ones.  The rules below
    are the promises of [BufCache] as steps on that abstract state. *)
Section abstract.
Context {S : Type} {BO : BufOps S} {BC : BufCache S}.

Definition blk (s : S) (n : Z) (v d : Z → block) (ws : list (Z * block))
    (D : gset Z) (H : gmap nat Z) : Prop :=
  b_inv s ∧ b_size s = n ∧ (∀ y, b_view s y = v y) ∧ (∀ y, b_disk s y = d y) ∧
  b_writes s = ws ∧ b_dirty s = D ∧ b_held s = H.

Implicit Types (s : S).

Lemma blk_intro s :
  b_inv s → blk s (b_size s) (b_view s) (b_disk s) (b_writes s) (b_dirty s) (b_held s).
Proof. intros. repeat split; auto. Qed.

Lemma blk_ext s n v v' d d' ws D H :
  blk s n v d ws D H → (∀ y, v y = v' y) → (∀ y, d y = d' y) → blk s n v' d' ws D H.
Proof. intros (?&?&Hv&Hd&?&?&?) Ev Ed. repeat split; auto; intros; rewrite ?Hv, ?Hd; auto. Qed.

Lemma blk_view_block s n v d ws D H y : blk s n v d ws D H → is_block (v y).
Proof. intros (?&?&<-&?). by apply b_view_block. Qed.

Lemma blk_disk_block s n v d ws D H y : blk s n v d ws D H → is_block (d y).
Proof. intros (?&?&?&<-&?). by apply b_disk_block. Qed.

Lemma blk_clean s n v d ws D H y :
  blk s n v d ws D H → y ∉ D → (∀ b, H !! b ≠ Some y) → v y = d y.
Proof.
  intros (?&?&<-&<-&?&<-&<-) HD HH. apply b_view_clean; [done..|]. by apply elem_of_pins_held.
Qed.

Lemma blk_bread s n v d ws D H x (Q : nat → S → Prop) :
  blk s n v d ws D H → 0 ≤ x < n → (∀ b, H !! b ≠ Some x) →
  x ∈ D ∨ (size H + size D < NBUF)%nat →
  (∀ b s', H !! b = None → blk s' n v d ws D (<[b := x]> H) → Q b s') →
  wp (bread ROOTDEV x) Q s.
Proof.
  intros (?&<-&Hv&Hd&<-&<-&<-) Hx HH Hroom HQ. eapply wp_mono.
  - apply (bread_spec s x); [done|done|by apply elem_of_pins_held|].
    destruct Hroom as [|Hr]; [by left|right]. eapply Nat.le_lt_trans; [apply pins_size|done].
  - intros b s' (?&?&Hv'&Hd'&?&?&?&?). apply HQ; [done|].
    repeat split; auto; intros; rewrite ?Hv', ?Hd'; auto.
Qed.

Lemma blk_bwrite s n v d ws D H b x (Q : unit → S → Prop) :
  blk s n v d ws D H → H !! b = Some x →
  (∀ s', blk s' n v (disk_upd d x (v x)) (ws ++ [(x, v x)]) (D ∖ {[x]}) H → Q tt s') →
  wp (bwrite b) Q s.
Proof.
  intros (?&<-&Hv&Hd&<-&<-&<-) Hb HQ. eapply wp_mono; [by apply (bwrite_spec s b x)|].
  intros [] s' (?&?&Hv'&Hd'&Hw&?&?). apply HQ. rewrite <- (Hv x).
  repeat split; auto; intros; rewrite ?Hv', ?Hd'; auto. unfold disk_upd. by case_match.
Qed.

Lemma blk_brelse s n v d ws D H b x (Q : unit → S → Prop) :
  blk s n v d ws D H → H !! b = Some x → x ∈ D ∨ v x = d x →
  (∀ s', blk s' n v d ws D (delete b H) → Q tt s') →
  wp (brelse b) Q s.
Proof.
  intros (?&<-&Hv&Hd&<-&<-&<-) Hb Hcl HQ. eapply wp_mono.
  - apply (brelse_spec s b x); [done..|]. by rewrite Hv, Hd.
  - intros [] s' (?&?&Hv'&Hd'&?&?&?). apply HQ.
    repeat split; auto; intros; rewrite ?Hv', ?Hd'; auto; congruence.
Qed.

Lemma blk_data s n v d ws D H b x (Q : block → S → Prop) :
  blk s n v d ws D H → H !! b = Some x → Q (v x) s → wp (buf_data b) Q s.
Proof.
  intros (?&<-&Hv&Hd&<-&<-&<-) Hb HQ. unfold wp.
  rewrite (buf_data_spec s b x) by done. by rewrite Hv.
Qed.

Lemma blk_sector s n v d ws D H b x (Q : Z → S → Prop) :
  blk s n v d ws D H → H !! b = Some x → Q x s → wp (buf_sector b) Q s.
Proof.
  intros (?&<-&Hv&Hd&<-&<-&<-) Hb HQ. unfold wp. by rewrite (buf_sector_spec s b x) by done.
Qed.

Lemma blk_dev s n v d ws D H b x (Q : Z → S → Prop) :
  blk s n v d ws D H → H !! b = Some x → Q ROOTDEV s → wp (buf_dev b) Q s.
Proof.
  intros (?&<-&Hv&Hd&<-&<-&<-) Hb HQ. unfold wp. by rewrite (buf_dev_spec s b x) by done.
Qed.

Lemma blk_set_data s n v d ws D H b x u (Q : unit → S → Prop) :
  blk s n v d ws D H → H !! b = Some x → is_block u →
  (∀ s', blk s' n (disk_upd v x u) d ws D H → Q tt s') →
  wp (buf_set_data b u) Q s.
Proof.
  intros (?&<-&Hv&Hd&<-&<-&<-) Hb Hu HQ.
  eapply wp_mono; [by apply (buf_set_data_spec s b x)|].
  intros [] s' (?&?&Hv'&Hd'&?&?&?). apply HQ.
  repeat split; auto; intros; rewrite ?Hv', ?Hd'; auto. unfold disk_upd. by case_match.
Qed.

Lemma blk_set_dirty s n v d ws D H b x (Q : unit → S → Prop) :
  blk s n v d ws D H → H !! b = Some x →
  (∀ s', blk s' n v d ws ({[x]} ∪ D) H → Q tt s') →
  wp (buf_set_dirty b) Q s.
Proof.
  intros (?&<-&Hv&Hd&<-&<-&<-) Hb HQ.
  eapply wp_mono; [by apply (buf_set_dirty_spec s b x)|].
  intros [] s' (?&?&Hv'&Hd'&?&?&?). apply HQ.
  repeat split; auto; intros; rewrite ?Hv', ?Hd'; auto.
Qed.
End abstract.
