(* ===== verification/Bio.v ===== *)
(** * The buffer cache (bio.c) over the memory disk (memide.c)

    The cache is the array [bcache.buf] and the list head [bcache.head], tied
    into a circular doubly linked list through [prev]/[next].  A buffer is
    named by its index; the head has index [NBUF].  The disk is the in-memory
    image of memide.c, by sector, with the sequence of writes made to it. *)

From stdpp Require Import base numbers list strings gmap.
From Stdlib Require Import ZArith Lia.
From S2P Require Import Prelude Blocks.

#[local] Open Scope Z_scope.

(** src/buf.h:1-9 *)
Record buf := mkBuf {
  b_flags : Z;
  b_dev : Z;
  b_sector : Z;
  b_prev : nat;
  b_next : nat;
  b_bytes : block;
}.

(** [memdisk] and [disksize], with the writes made so far -- src/memide.c:16-17 *)
Record disk := mkDisk {
  d_size : Z;
  d_img : Z → block;
  d_log : list (Z * block);
}.

(** [bcache] -- src/bio.c:29-36 *)
Record bio := mkBio {
  c_lock : bool;
  c_buf : nat → buf;
  c_disk : disk;
  c_woken : list chan;
}.

Definition HEAD : nat := NBUF.

(** ** Field updates *)

Definition set_lock (v : bool) (s : bio) : bio := mkBio v (c_buf s) (c_disk s) (c_woken s).
Definition on_buf (i : nat) (f : buf → buf) (s : bio) : bio :=
  mkBio (c_lock s) (λ j, if (j =? i)%nat then f (c_buf s j) else c_buf s j) (c_disk s) (c_woken s).
Definition set_disk (d : disk) (s : bio) : bio := mkBio (c_lock s) (c_buf s) d (c_woken s).
Definition add_woken (c : chan) (s : bio) : bio :=
  mkBio (c_lock s) (c_buf s) (c_disk s) (c_woken s ++ [c]).

Definition with_flags (v : Z) (b : buf) : buf :=
  mkBuf v (b_dev b) (b_sector b) (b_prev b) (b_next b) (b_bytes b).
Definition with_prev (v : nat) (b : buf) : buf :=
  mkBuf (b_flags b) (b_dev b) (b_sector b) v (b_next b) (b_bytes b).
Definition with_next (v : nat) (b : buf) : buf :=
  mkBuf (b_flags b) (b_dev b) (b_sector b) (b_prev b) v (b_bytes b).
Definition with_bytes (v : block) (b : buf) : buf :=
  mkBuf (b_flags b) (b_dev b) (b_sector b) (b_prev b) (b_next b) v.
Definition with_id (dev sector flags : Z) (b : buf) : buf :=
  mkBuf flags dev sector (b_prev b) (b_next b) (b_bytes b).

Definition has (mask flags : Z) : bool := negb (Z.land flags mask =? 0).
Definition or_flags (mask : Z) (b : buf) : buf := with_flags (Z.lor (b_flags b) mask) b.
Definition clr_flags (mask : Z) (b : buf) : buf :=
  with_flags (Z.land (b_flags b) (Z.lnot mask)) b.

Definition lock_acquire : M bio unit := acquire c_lock set_lock.
Definition lock_release : M bio unit := release c_lock set_lock.
Definition the_buf (i : nat) : M bio buf := gets (λ s, c_buf s i).
Definition update (i : nat) (f : buf → buf) : M bio unit := modify (on_buf i f).
(** [wakeup] of proc.c, recorded. *)
Definition wakeup (c : chan) : M bio unit := modify (add_woken c).

(** ** memide.c *)

(** src/memide.c:33-58 *)
Definition iderw (i : nat) : M bio unit :=
  b ← the_buf i;
  if negb (has B_BUSY (b_flags b)) then panic "iderw: buf not busy" else
  if Z.land (b_flags b) (Z.lor B_VALID B_DIRTY) =? B_VALID then panic "iderw: nothing to do" else
  if negb (b_dev b =? 1) then panic "iderw: request not for disk 1" else
  d ← gets c_disk;
  if b_sector b >=? d_size d then panic "iderw: sector out of range" else
  (if has B_DIRTY (b_flags b) then
     update i (clr_flags B_DIRTY);;
     modify (set_disk (mkDisk (d_size d)
       (disk_upd (d_img d) (b_sector b) (b_bytes b))
       (d_log d ++ [(b_sector b, b_bytes b)])))
   else update i (with_bytes (d_img d (b_sector b))));;
  update i (or_flags B_VALID).

(** ** bio.c *)

(** One pass of the loop of [binit]: link buffer [b] in after the head -- src/bio.c:49-55 *)
Definition binit_link (b : nat) : M bio unit :=
  h ← the_buf HEAD;
  update b (with_next (b_next h));;
  update b (with_prev HEAD);;
  update b (λ x, with_id (w32 (-1)) (b_sector x) (b_flags x) x);;
  h ← the_buf HEAD;
  update (b_next h) (with_prev b);;
  update HEAD (with_next b).

Fixpoint binit_loop (bs : list nat) : M bio unit :=
  match bs with
  | [] => mret tt
  | b :: bs => binit_link b;; binit_loop bs
  end.

(** src/bio.c:38-56 *)
Definition binit : M bio unit :=
  modify (set_lock false);;
  update HEAD (with_prev HEAD);;
  update HEAD (with_next HEAD);;
  binit_loop (seq 0 NBUF).

(** [for(b = bcache.head.next; b != &bcache.head; b = b->next)]: the buffer that
    caches the sector, if any -- src/bio.c:69-80 *)
Fixpoint bget_cached (fuel : nat) (dev sector : Z) (b : nat) : M bio (option nat) :=
  match fuel with
  | O => nofuel
  | S fuel =>
      if (b =? HEAD)%nat then mret None else
      x ← the_buf b;
      if (b_dev x =? dev) && (b_sector x =? sector) then mret (Some b)
      else bget_cached fuel dev sector (b_next x)
  end.

(** [for(b = bcache.head.prev; b != &bcache.head; b = b->prev)]: the first buffer
    from the tail that is neither busy nor dirty -- src/bio.c:82-91 *)
Fixpoint bget_victim (fuel : nat) (b : nat) : M bio (option nat) :=
  match fuel with
  | O => nofuel
  | S fuel =>
      if (b =? HEAD)%nat then mret None else
      x ← the_buf b;
      if (Z.land (b_flags x) B_BUSY =? 0) && (Z.land (b_flags x) B_DIRTY =? 0) then mret (Some b)
      else bget_victim fuel (b_prev x)
  end.

(** Going to sleep on a busy buffer restarts the search when woken, so the
    parked call is this call again -- src/bio.c:58-93 *)
Definition bget (dev sector : Z) : M bio nat :=
  lock_acquire;;
  h ← the_buf HEAD;
  r ← bget_cached (S NBUF) dev sector (b_next h);
  match r with
  | Some b =>
      x ← the_buf b;
      if negb (has B_BUSY (b_flags x)) then
        update b (or_flags B_BUSY);;
        lock_release;;
        mret b
      else park (ChBuf b) (set_lock false)
  | None =>
      v ← bget_victim (S NBUF) (b_prev h);
      match v with
      | Some b =>
          update b (with_id dev sector B_BUSY);;
          lock_release;;
          mret b
      | None => panic "bget: no buffers"
      end
  end.

(** src/bio.c:95-105 *)
Definition bread (dev sector : Z) : M bio nat :=
  b ← bget dev sector;
  x ← the_buf b;
  (if negb (has B_VALID (b_flags x)) then iderw b else mret tt);;
  mret b.

(** src/bio.c:107-115 *)
Definition bwrite (b : nat) : M bio unit :=
  x ← the_buf b;
  if Z.land (b_flags x) B_BUSY =? 0 then panic "bwrite" else
  update b (or_flags B_DIRTY);;
  iderw b.

(** Take [b] out of the list -- src/bio.c:127-128 *)
Definition unlink (b : nat) : M bio unit :=
  x ← the_buf b;
  update (b_next x) (with_prev (b_prev x));;
  x ← the_buf b;
  update (b_prev x) (with_next (b_next x)).

(** Put [b] right after the head -- src/bio.c:129-132 *)
Definition link_front (b : nat) : M bio unit :=
  h ← the_buf HEAD;
  update b (with_next (b_next h));;
  update b (with_prev HEAD);;
  h ← the_buf HEAD;
  update (b_next h) (with_prev b);;
  update HEAD (with_next b).

(** src/bio.c:117-138 *)
Definition brelse (b : nat) : M bio unit :=
  x ← the_buf b;
  if Z.land (b_flags x) B_BUSY =? 0 then panic "brelse" else
  lock_acquire;;
  unlink b;;
  link_front b;;
  update b (clr_flags B_BUSY);;
  wakeup (ChBuf b);;
  lock_release.

(** The state of static storage before [binit], with a given disk. *)
Definition bss_buf : buf := mkBuf 0 0 0 0 0 zero_block.
Definition boot_bio (d : disk) : bio := mkBio false (λ _, bss_buf) d [].

#[export] Instance bio_ops : BufOps bio := {
  Blocks.bread := bread;
  Blocks.bwrite := bwrite;
  Blocks.brelse := brelse;
  buf_sector i := gets (λ s, b_sector (c_buf s i));
  buf_dev i := gets (λ s, b_dev (c_buf s i));
  buf_data i := gets (λ s, b_bytes (c_buf s i));
  buf_set_data i v := update i (with_bytes v);
  buf_set_dirty i := update i (or_flags B_DIRTY);
}.

(** ** The linked list

    [seg nx pv a l b]: following [nx] from [a] visits exactly [l] and then [b],
    and [pv] leads back. *)
Fixpoint seg (nx pv : nat → nat) (a : nat) (l : list nat) (b : nat) : Prop :=
  match l with
  | [] => nx a = b ∧ pv b = a
  | x :: l => nx a = x ∧ pv x = a ∧ seg nx pv x l b
  end.

Definition nxt (s : bio) (i : nat) : nat := b_next (c_buf s i).
Definition prv (s : bio) (i : nat) : nat := b_prev (c_buf s i).
Definition fupd {A} (f : nat → A) (i : nat) (v : A) (j : nat) : A :=
  if (j =? i)%nat then v else f j.

(** The list of buffers from most to least recently used. *)
Definition dll (s : bio) (l : list nat) : Prop :=
  seg (nxt s) (prv s) HEAD l HEAD ∧ l ≡ₚ seq 0 NBUF.

Lemma fupd_eq {A} (f : nat → A) i v : fupd f i v i = v.
Proof. unfold fupd. by rewrite Nat.eqb_refl. Qed.
Lemma fupd_ne {A} (f : nat → A) i j v : j ≠ i → fupd f i v j = f j.
Proof. intros. unfold fupd. by rewrite (proj2 (Nat.eqb_neq _ _)). Qed.

Lemma seg_app nx pv a l1 x l2 b :
  seg nx pv a (l1 ++ x :: l2) b ↔ seg nx pv a l1 x ∧ seg nx pv x l2 b.
Proof. revert a. induction l1 as [|y l1 IH]; intros a; simpl; [tauto|]. rewrite IH. tauto. Qed.

Lemma seg_frame nx pv nx' pv' a l b :
  (∀ y, y ∈ a :: l → nx' y = nx y) → (∀ y, y ∈ l ++ [b] → pv' y = pv y) →
  seg nx pv a l b → seg nx' pv' a l b.
Proof.
  revert a. induction l as [|x l IH]; intros a Hn Hp; simpl.
  - intros [? ?]. rewrite Hn, Hp by set_solver. done.
  - intros (? & ? & ?). rewrite Hn, Hp by set_solver. split_and!; [done..|].
    apply IH; [|by intros; apply Hp; set_solver|done].
    intros; apply Hn; set_solver.
Qed.

(** Inserting [b] after the head. *)
Lemma seg_push nx pv h m b :
  b ∉ h :: m → NoDup (h :: m) → seg nx pv h m h →
  seg (fupd (fupd nx b (nx h)) h b) (fupd (fupd pv b h) (nx h) b) h (b :: m) h.
Proof.
  intros Hb Hnd Hs. apply not_elem_of_cons in Hb as [Hbh Hbm].
  destruct m as [|x m].
  - destruct Hs as [Hn Hp]. simpl. rewrite Hn.
    rewrite !fupd_eq. rewrite (fupd_ne _ h b), fupd_eq by done.
    rewrite (fupd_ne _ h b), fupd_eq by done. done.
  - destruct Hs as (Hn & Hp & Hs). apply not_elem_of_cons in Hbm as [Hbx Hbm].
    apply NoDup_cons in Hnd as [Hh [Hx Hm]%NoDup_cons].
    cbn [seg]. rewrite Hn. rewrite !fupd_eq.
    rewrite (fupd_ne _ x b), fupd_eq by done. rewrite (fupd_ne _ h b), fupd_eq by done.
    split_and!; [done..|].
    eapply seg_frame; [..|exact Hs]; intros y Hy.
    + rewrite !fupd_ne; [done|set_solver|set_solver].
    + rewrite !fupd_ne; [done|set_solver|set_solver].
Qed.

(** Taking [b] out: its neighbours are joined. *)
Lemma seg_unlink nx pv h l1 b l2 :
  NoDup (h :: l1 ++ b :: l2) → seg nx pv h (l1 ++ b :: l2) h →
  seg (fupd nx (pv b) (nx b)) (fupd pv (nx b) (pv b)) h (l1 ++ l2) h.
Proof.
  intros Hnd [H1 H2]%seg_app.
  assert (Hb : b ≠ h ∧ b ∉ l1 ∧ b ∉ l2 ∧ h ∉ l1 ∧ h ∉ l2 ∧ NoDup l1 ∧ NoDup l2 ∧
    ∀ y, y ∈ l1 → y ∉ l2).
  { apply NoDup_cons in Hnd as [Hh (? & Hd & [? ?]%NoDup_cons)%NoDup_app]. set_solver. }
  destruct Hb as (Hbh & Hb1 & Hb2 & Hh1 & Hh2 & Hn1 & Hn2 & Hdis).
  destruct l1 as [|x l1 _] using rev_ind; destruct l2 as [|y l2].
  - destruct H1 as [Ha Hb], H2 as [Hc Hd]. simpl. rewrite Hb, Hc. by rewrite !fupd_eq.
  - destruct H1 as [Ha Hb], H2 as (Hc & Hd & H2). rewrite Hb, Hc. simpl.
    rewrite !fupd_eq. split_and!; [done..|]. apply NoDup_cons in Hn2 as [Hy2 ?].
    eapply seg_frame; [..|exact H2]; intros z Hz; rewrite fupd_ne; try done; set_solver.
  - apply seg_app in H1 as [H1 [Ha Hb]]. destruct H2 as [Hc Hd]. rewrite Hb, Hc, app_nil_r.
    apply seg_app. split; [|simpl; by rewrite !fupd_eq].
    eapply seg_frame; [..|exact H1]; intros z Hz; rewrite fupd_ne; try done.
    + apply NoDup_app in Hn1 as (? & Hn1 & _). intros ->. set_solver.
    + intros ->. set_solver.
  - apply seg_app in H1 as [H1 [Ha Hb]]. destruct H2 as (Hc & Hd & H2). rewrite Hb, Hc.
    rewrite <- app_assoc. simpl. apply seg_app. apply NoDup_app in Hn1 as (? & Hn1 & _).
    apply NoDup_cons in Hn2 as [Hy2 ?]. split.
    + eapply seg_frame; [..|exact H1]; intros z Hz; rewrite fupd_ne; try done.
      * intros ->. set_solver.
      * intros ->. set_solver.
    + simpl. rewrite !fupd_eq. split_and!; [done..|].
      eapply seg_frame; [..|exact H2]; intros z Hz; rewrite fupd_ne; try done.
      * intros ->. set_solver.
      * intros ->. set_solver.
Qed.

Lemma nxt_on_prev i v s j : nxt (on_buf i (with_prev v) s) j = nxt s j.
Proof. unfold nxt, on_buf. simpl. by case_match. Qed.
Lemma prv_on_next i v s j : prv (on_buf i (with_next v) s) j = prv s j.
Proof. unfold prv, on_buf. simpl. by case_match. Qed.
Lemma nxt_on_next i v s j : nxt (on_buf i (with_next v) s) j = fupd (nxt s) i v j.
Proof. unfold nxt, on_buf, fupd. simpl. by case_match. Qed.
Lemma prv_on_prev i v s j : prv (on_buf i (with_prev v) s) j = fupd (prv s) i v j.
Proof. unfold prv, on_buf, fupd. simpl. by case_match. Qed.

Lemma fupd_ext {A} (f g : nat → A) i v j : (∀ k, f k = g k) → fupd f i v j = fupd g i v j.
Proof. intros H. unfold fupd. by rewrite H. Qed.

(** ** The searches of [bget] *)

Definition caches (s : bio) (dev sector : Z) (b : nat) : bool :=
  (b_dev (c_buf s b) =? dev) && (b_sector (c_buf s b) =? sector).
Definition recyclable (s : bio) (b : nat) : bool :=
  (Z.land (b_flags (c_buf s b)) B_BUSY =? 0) && (Z.land (b_flags (c_buf s b)) B_DIRTY =? 0).

Lemma bget_cached_find s dev sector a l fuel :
  seg (nxt s) (prv s) a l HEAD → HEAD ∉ l → (length l < fuel)%nat →
  bget_cached fuel dev sector (nxt s a) s = Ok (List.find (caches s dev sector) l) s.
Proof.
  revert a fuel. induction l as [|x l IH]; intros a fuel Hs Hh Hf;
    (destruct fuel as [|fuel]; [lia|]); simpl in Hf.
  - destruct Hs as [-> _]. done.
  - destruct Hs as (-> & _ & Hs). apply not_elem_of_cons in Hh as [Hx Hl].
    simpl. rewrite (proj2 (Nat.eqb_neq _ _)) by done. unfold mbind, M_bind, the_buf, gets.
    unfold caches at 1. case_match; [done|]. apply IH; [done..|lia].
Qed.

Lemma bget_victim_find s b l fuel :
  seg (nxt s) (prv s) HEAD l b → HEAD ∉ l → (length l < fuel)%nat →
  bget_victim fuel (prv s b) s = Ok (List.find (recyclable s) (rev l)) s.
Proof.
  revert b fuel. induction l as [|x l IH] using rev_ind; intros b fuel Hs Hh Hf;
    (destruct fuel as [|fuel]; [lia|]).
  - destruct Hs as [_ ->]. done.
  - apply seg_app in Hs as [Hs [_ ->]]. rewrite length_app in Hf; simpl in Hf.
    rewrite rev_app_distr. simpl. rewrite (proj2 (Nat.eqb_neq _ _)) by set_solver.
    unfold mbind, M_bind, the_buf, gets. unfold recyclable at 1.
    case_match; [done|]. apply IH; [done|set_solver|lia].
Qed.

Lemma dll_head_notin s l : dll s l → HEAD ∉ l ∧ length l = NBUF ∧ NoDup (HEAD :: l).
Proof.
  intros [_ Hp]. assert (Hh : HEAD ∉ l).
  { rewrite Hp, elem_of_seq. unfold HEAD. lia. }
  split; [done|]. split; [by rewrite Hp, length_seq|].
  apply NoDup_cons. split; [done|]. rewrite Hp. apply NoDup_seq.
Qed.

Lemma dll_elem s l b : dll s l → b ∈ l ↔ (b < NBUF)%nat.
Proof. intros [_ Hp]. rewrite Hp, elem_of_seq. lia. Qed.

(** What the linked list does not touch: identity, flags and contents. *)
Definition core (s : bio) (i : nat) : Z * Z * Z * block :=
  (b_flags (c_buf s i), b_dev (c_buf s i), b_sector (c_buf s i), b_bytes (c_buf s i)).

Lemma core_on i f s j :
  core (on_buf i f s) j =
    if (j =? i)%nat then (b_flags (f (c_buf s j)), b_dev (f (c_buf s j)),
      b_sector (f (c_buf s j)), b_bytes (f (c_buf s j))) else core s j.
Proof. unfold core, on_buf. simpl. by case_match. Qed.

Lemma core_on_prev i v s j : core (on_buf i (with_prev v) s) j = core s j.
Proof. rewrite core_on. by case_match. Qed.
Lemma core_on_next i v s j : core (on_buf i (with_next v) s) j = core s j.
Proof. rewrite core_on. by case_match. Qed.

Lemma seg_ext nx pv nx' pv' a l b :
  (∀ y, nx' y = nx y) → (∀ y, pv' y = pv y) → seg nx pv a l b → seg nx' pv' a l b.
Proof. intros ??. apply seg_frame; auto. Qed.

Lemma unlink_run s b (Q : unit → bio → Prop) :
  b ≠ nxt s b →
  (∀ s', (∀ j, nxt s' j = fupd (nxt s) (prv s b) (nxt s b) j) →
     (∀ j, prv s' j = fupd (prv s) (nxt s b) (prv s b) j) →
     (∀ j, core s' j = core s j) → c_lock s' = c_lock s → c_disk s' = c_disk s →
     c_woken s' = c_woken s → Q tt s') →
  wp (unlink b) Q s.
Proof.
  intros Hb HQ. unfold unlink, the_buf, update. wp_run.
  fold (nxt s b) (prv s b). set (s1 := on_buf (nxt s b) (with_prev (prv s b)) s).
  fold (nxt s1 b) (prv s1 b).
  assert (E1 : nxt s1 b = nxt s b) by apply nxt_on_prev.
  assert (E2 : prv s1 b = prv s b).
  { unfold s1. rewrite prv_on_prev. by apply fupd_ne. }
  rewrite E1, E2. apply HQ; try done.
  - intros j. rewrite nxt_on_next. apply fupd_ext. intros k. apply nxt_on_prev.
  - intros j. rewrite prv_on_next. apply prv_on_prev.
  - intros j. rewrite core_on_next. apply core_on_prev.
Qed.

Lemma link_front_run s b (Q : unit → bio → Prop) :
  b ≠ HEAD →
  (∀ s', (∀ j, nxt s' j = fupd (fupd (nxt s) b (nxt s HEAD)) HEAD b j) →
     (∀ j, prv s' j = fupd (fupd (prv s) b HEAD) (nxt s HEAD) b j) →
     (∀ j, core s' j = core s j) → c_lock s' = c_lock s → c_disk s' = c_disk s →
     c_woken s' = c_woken s → Q tt s') →
  wp (link_front b) Q s.
Proof.
  intros Hb HQ. unfold link_front, the_buf, update. wp_run.
  fold (nxt s HEAD). set (s1 := on_buf b (with_next (nxt s HEAD)) s).
  set (s2 := on_buf b (with_prev HEAD) s1). fold (nxt s2 HEAD).
  assert (E1 : nxt s2 HEAD = nxt s HEAD).
  { unfold s2, s1. rewrite nxt_on_prev, nxt_on_next. apply fupd_ne. done. }
  rewrite E1. apply HQ; try done.
  - intros j. rewrite nxt_on_next. apply fupd_ext. intros k.
    unfold s2, s1. by rewrite !nxt_on_prev, nxt_on_next.
  - intros j. rewrite prv_on_next, prv_on_prev. apply fupd_ext. intros k.
    unfold s2, s1. rewrite prv_on_prev. apply fupd_ext. intros. apply prv_on_next.
  - intros j. unfold s2, s1. by rewrite core_on_next, core_on_prev, core_on_prev, core_on_next.
Qed.

(** A buffer linked in at the front of a well-formed list. *)
Lemma link_front_dll s b m (Q : unit → bio → Prop) :
  seg (nxt s) (prv s) HEAD m HEAD → NoDup (HEAD :: m) → b ∉ HEAD :: m →
  (∀ s', seg (nxt s') (prv s') HEAD (b :: m) HEAD →
     (∀ j, core s' j = core s j) → c_lock s' = c_lock s → c_disk s' = c_disk s →
     c_woken s' = c_woken s → Q tt s') →
  wp (link_front b) Q s.
Proof.
  intros Hs Hnd Hb HQ. apply link_front_run; [set_solver|].
  intros s' Hn Hp ????. apply HQ; try done.
  eapply seg_ext; [exact Hn|exact Hp|]. by apply seg_push.
Qed.

Lemma core_inv s s' j :
  core s' j = core s j →
  b_flags (c_buf s' j) = b_flags (c_buf s j) ∧ b_dev (c_buf s' j) = b_dev (c_buf s j) ∧
  b_sector (c_buf s' j) = b_sector (c_buf s j) ∧ b_bytes (c_buf s' j) = b_bytes (c_buf s j).
Proof. unfold core. intros [=]. done. Qed.

(** [brelse] moves the buffer to the front of the list, clears its busy flag
    and touches nothing else. *)
Lemma brelse_run s l1 b l2 (Q : unit → bio → Prop) :
  dll s (l1 ++ b :: l2) → c_lock s = false → has B_BUSY (b_flags (c_buf s b)) = true →
  (∀ s', dll s' (b :: l1 ++ l2) → c_lock s' = false → c_disk s' = c_disk s →
     c_woken s' = c_woken s ++ [ChBuf b] →
     (∀ j, core s' j = if (j =? b)%nat
       then (Z.land (b_flags (c_buf s b)) (Z.lnot B_BUSY), b_dev (c_buf s b),
             b_sector (c_buf s b), b_bytes (c_buf s b)) else core s j) → Q tt s') →
  wp (brelse b) Q s.
Proof.
  intros Hd Hlk Hb HQ. pose proof (dll_head_notin _ _ Hd) as (Hh & Hlen & Hnd).
  destruct Hd as [Hs Hp]. unfold has in Hb. apply negb_true_iff in Hb.
  unfold brelse, the_buf, update, wakeup, lock_acquire, lock_release.
  wp_run. rewrite Hb. wp_run. apply wp_acquire; [done|]. wp_run.
  assert (Hnb : b ≠ nxt s b).
  { apply seg_app in Hs as [_ Hs]. destruct l2 as [|y l2]; simpl in Hs.
    - destruct Hs as [-> _]. set_solver.
    - destruct Hs as (-> & _). apply NoDup_cons in Hnd as [_ (_ & _ & Hnd)%NoDup_app].
      apply NoDup_cons in Hnd as [Hnd _]. set_solver. }
  apply unlink_run; [done|]. intros s1 Hn1 Hp1 Hc1 Hl1 Hd1 Hw1. wp_run.
  apply (link_front_dll _ _ (l1 ++ l2)).
  - eapply seg_ext; [exact Hn1|exact Hp1|]. by apply seg_unlink.
  - rewrite <- Permutation_middle, Permutation_swap in Hnd. by apply NoDup_cons in Hnd as [_ ?].
  - apply NoDup_cons in Hnd as [_ (_ & Hx & [? ?]%NoDup_cons)%NoDup_app]. set_solver.
  - intros s2 Hs2 Hc2 Hl2 Hd2 Hw2. wp_run. apply wp_release; [simpl; by rewrite Hl2, Hl1|].
    apply HQ; simpl; rewrite ?Hl2, ?Hd2, ?Hw2, ?Hd1, ?Hw1; try done.
    + split.
      * eapply seg_ext; [..|exact Hs2]; intros y; unfold nxt, prv, on_buf; simpl; by case_match.
      * rewrite <- Hp. by rewrite Permutation_middle.
    + intros j. change (core (on_buf b (clr_flags B_BUSY) s2) j = 
        if (j =? b)%nat then (Z.land (b_flags (c_buf s b)) (Z.lnot B_BUSY), b_dev (c_buf s b),
             b_sector (c_buf s b), b_bytes (c_buf s b)) else core s j).
      rewrite core_on. destruct (Nat.eqb_spec j b) as [->|].
      * pose proof (core_inv _ _ _ (Hc2 b)) as (Hf2 & Hv2 & Hsec2 & Hbt2).
        pose proof (core_inv _ _ _ (Hc1 b)) as (Hf & Hv & Hsec & Hbt).
        simpl. by rewrite Hf2, Hv2, Hsec2, Hbt2, Hf, Hv, Hsec, Hbt.
      * rewrite Hc2, Hc1. done.
Qed.

(** ** The cache invariant and its abstraction *)

Definition busy (s : bio) (i : nat) : bool := has B_BUSY (b_flags (c_buf s i)).
Definition valid (s : bio) (i : nat) : bool := has B_VALID (b_flags (c_buf s i)).
Definition dirty (s : bio) (i : nat) : bool := has B_DIRTY (b_flags (c_buf s i)).

(** A buffer that has an identity caches one sector of the disk, no two buffers
    cache the same sector, and a buffer that is neither held nor dirty agrees
    with the disk. *)
Record good (s : bio) : Prop := {
  g_dev i : (i < NBUF)%nat →
    b_dev (c_buf s i) = 1 ∨ b_dev (c_buf s i) = w32 (-1) ∧ b_flags (c_buf s i) = 0;
  g_flags i : (i < NBUF)%nat → 0 ≤ b_flags (c_buf s i) < 8;
  g_uniq i j : (i < NBUF)%nat → (j < NBUF)%nat →
    b_dev (c_buf s i) = 1 → b_dev (c_buf s j) = 1 →
    b_sector (c_buf s i) = b_sector (c_buf s j) → i = j;
  g_valid i : (i < NBUF)%nat → b_dev (c_buf s i) = 1 → valid s i = true;
  g_clean i : (i < NBUF)%nat → b_dev (c_buf s i) = 1 → busy s i = false → dirty s i = false →
    b_bytes (c_buf s i) = d_img (c_disk s) (b_sector (c_buf s i));
  g_len i : (i < NBUF)%nat → b_dev (c_buf s i) = 1 → is_block (b_bytes (c_buf s i));
  g_sec i : (i < NBUF)%nat → b_dev (c_buf s i) = 1 →
    0 ≤ b_sector (c_buf s i) < d_size (c_disk s);
  g_img x : is_block (d_img (c_disk s) x);
}.

Definition bio_inv (s : bio) : Prop :=
  c_lock s = false ∧ (∃ l, dll s l) ∧ good s.

Definition bio_view (s : bio) (x : Z) : block :=
  match List.find (caches s 1 x) (seq 0 NBUF) with
  | Some i => b_bytes (c_buf s i)
  | None => d_img (c_disk s) x
  end.
Definition bio_held (s : bio) : gmap nat Z :=
  tab NBUF (λ i, if busy s i then Some (b_sector (c_buf s i)) else None).
Definition bio_dirty (s : bio) : gset Z :=
  tabset NBUF (λ i, if dirty s i then Some (b_sector (c_buf s i)) else None).

Ltac flag_cases f :=
  let H := fresh in
  assert (H : f = 0 ∨ f = 1 ∨ f = 2 ∨ f = 3 ∨ f = 4 ∨ f = 5 ∨ f = 6 ∨ f = 7) by lia;
  destruct_or! H; rewrite H in *.

Lemma caches_true s dev x i :
  caches s dev x i = true ↔ b_dev (c_buf s i) = dev ∧ b_sector (c_buf s i) = x.
Proof. unfold caches. by rewrite andb_true_iff, !Z.eqb_eq. Qed.

Lemma recyclable_true s i : recyclable s i = true ↔ busy s i = false ∧ dirty s i = false.
Proof.
  unfold recyclable, busy, dirty, has. rewrite andb_true_iff, !negb_false_iff. done.
Qed.

Lemma find_seq_some (P : nat → bool) n i : List.find P (seq 0 n) = Some i → (i < n)%nat ∧ P i = true.
Proof. intros [Hi HP]%find_some. apply in_seq in Hi. split; [lia|done]. Qed.

Lemma find_seq_none (P : nat → bool) n i : List.find P (seq 0 n) = None → (i < n)%nat → P i = false.
Proof. intros H Hi. apply (find_none _ _ H). apply in_seq. lia. Qed.

Lemma view_hit s i :
  good s → (i < NBUF)%nat → b_dev (c_buf s i) = 1 →
  bio_view s (b_sector (c_buf s i)) = b_bytes (c_buf s i).
Proof.
  intros Hg Hi Hd. unfold bio_view. destruct (List.find _ _) as [j|] eqn:E.
  - apply find_seq_some in E as [Hj [Hdj Hsj]%caches_true].
    by rewrite (g_uniq s Hg j i Hj Hi Hdj Hd Hsj).
  - pose proof (find_seq_none _ _ _ E Hi) as Hn. exfalso. apply not_true_iff_false in Hn.
    apply Hn. by apply caches_true.
Qed.

Lemma view_miss s x :
  (∀ i, (i < NBUF)%nat → b_dev (c_buf s i) = 1 → b_sector (c_buf s i) ≠ x) →
  bio_view s x = d_img (c_disk s) x.
Proof.
  intros H. unfold bio_view. destruct (List.find _ _) as [j|] eqn:E; [|done].
  apply find_seq_some in E as [Hj [Hdj Hsj]%caches_true]. by destruct (H j).
Qed.

(** Either some buffer caches [x] or none does. *)
Lemma cached_or_not s x :
  (∃ i, (i < NBUF)%nat ∧ b_dev (c_buf s i) = 1 ∧ b_sector (c_buf s i) = x) ∨
  (∀ i, (i < NBUF)%nat → b_dev (c_buf s i) = 1 → b_sector (c_buf s i) ≠ x).
Proof.
  destruct (List.find (caches s 1 x) (seq 0 NBUF)) as [j|] eqn:E.
  - left. apply find_seq_some in E as [Hj [Hdj Hsj]%caches_true]. eauto.
  - right. intros i Hi Hd Hs. pose proof (find_seq_none _ _ _ E Hi) as Hn.
    apply not_true_iff_false in Hn. apply Hn. by apply caches_true.
Qed.

Lemma lookup_held s b :
  bio_held s !! b = if decide (b < NBUF)%nat then
    (if busy s b then Some (b_sector (c_buf s b)) else None) else None.
Proof. apply lookup_tab. Qed.

Lemma held_some s b x :
  good s → bio_held s !! b = Some x →
  (b < NBUF)%nat ∧ busy s b = true ∧ b_dev (c_buf s b) = 1 ∧ b_sector (c_buf s b) = x.
Proof.
  intros Hg. rewrite lookup_held. case_decide as Hb; [|done].
  destruct (busy s b) eqn:E; [|done]. intros [= <-]. split_and!; try done.
  destruct (g_dev s Hg b Hb) as [?|[_ Hf]]; [done|]. unfold busy in E. by rewrite Hf in E.
Qed.

Lemma elem_of_dirty s x :
  x ∈ bio_dirty s ↔ ∃ i, (i < NBUF)%nat ∧ dirty s i = true ∧ b_sector (c_buf s i) = x.
Proof.
  unfold bio_dirty. rewrite elem_of_tabset. split; intros (i & Hi & H).
  - destruct (dirty s i) eqn:E; [|done]. naive_solver.
  - destruct H as [Hd <-]. exists i. by rewrite Hd.
Qed.

Lemma dirty_dev s i : good s → (i < NBUF)%nat → dirty s i = true → b_dev (c_buf s i) = 1.
Proof.
  intros Hg Hi Hd. destruct (g_dev s Hg i Hi) as [?|[_ Hf]]; [done|].
  unfold dirty in Hd. by rewrite Hf in Hd.
Qed.

(** A change of one buffer: afterwards buffer [b] caches sector [x] with
    contents [v] and flags [f]; it did so before, or it was free to be recycled
    and no buffer cached [x].  The disk may have changed at [x]. *)
Section one_buffer.
Context (s s' : bio) (b : nat) (f x : Z) (v : block).
Hypothesis Hg : good s.
Hypothesis Hb : (b < NBUF)%nat.
Hypothesis Hcore : ∀ j, core s' j = if (j =? b)%nat then (f, 1, x, v) else core s j.
Hypothesis Hsize : d_size (c_disk s') = d_size (c_disk s).
Hypothesis Himg : ∀ y, y ≠ x → d_img (c_disk s') y = d_img (c_disk s) y.
Hypothesis Hx : 0 ≤ x < d_size (c_disk s).
Hypothesis Hf : 0 ≤ f < 8.
Hypothesis Hfv : has B_VALID f = true.
Hypothesis Hv : is_block v.
Hypothesis Hix : is_block (d_img (c_disk s') x).
Hypothesis Hclean : has B_BUSY f = false → has B_DIRTY f = false → v = d_img (c_disk s') x.
Hypothesis Hold : (b_dev (c_buf s b) = 1 ∧ b_sector (c_buf s b) = x) ∨
  (recyclable s b = true ∧ ∀ i, (i < NBUF)%nat → b_dev (c_buf s i) = 1 → b_sector (c_buf s i) ≠ x).

Lemma one_core_b :
  b_flags (c_buf s' b) = f ∧ b_dev (c_buf s' b) = 1 ∧ b_sector (c_buf s' b) = x ∧
  b_bytes (c_buf s' b) = v.
Proof.
  pose proof (Hcore b) as H. rewrite Nat.eqb_refl in H. unfold core in H. by injection H.
Qed.

Lemma one_core_ne j :
  j ≠ b →
  b_flags (c_buf s' j) = b_flags (c_buf s j) ∧ b_dev (c_buf s' j) = b_dev (c_buf s j) ∧
  b_sector (c_buf s' j) = b_sector (c_buf s j) ∧ b_bytes (c_buf s' j) = b_bytes (c_buf s j).
Proof.
  intros Hj. pose proof (Hcore j) as H. rewrite (proj2 (Nat.eqb_neq _ _)) in H by done.
  by apply core_inv.
Qed.

(** No other buffer caches [x]. *)
Lemma one_other j : (j < NBUF)%nat → j ≠ b → b_dev (c_buf s j) = 1 → b_sector (c_buf s j) ≠ x.
Proof.
  intros Hj Hne Hd Hs. destruct Hold as [[? ?]|[_ Hn]]; [|by apply (Hn j)].
  apply Hne. by apply (g_uniq s Hg); [..|congruence].
Qed.

Ltac at_buf j :=
  let Ef := fresh "Ef" in let Ed := fresh "Ed" in
  let Es := fresh "Es" in let Ev := fresh "Ev" in
  destruct (decide (j = b)) as [->|?];
  [ destruct one_core_b as (Ef & Ed & Es & Ev)
  | destruct (one_core_ne j) as (Ef & Ed & Es & Ev); [done|] ];
  unfold valid, busy, dirty in *; rewrite ?Ef, ?Ed, ?Es, ?Ev in *.

Lemma one_good : good s'.
Proof.
  constructor.
  - intros i Hi. at_buf i; [by left|by apply (g_dev s Hg)].
  - intros i Hi. at_buf i; [done|by apply (g_flags s Hg)].
  - intros i j Hi Hj Hdi Hdj Heq. at_buf i; at_buf j; try done.
    + symmetry in Heq. by destruct (one_other j).
    + by destruct (one_other i).
    + by apply (g_uniq s Hg).
  - intros i Hi Hd. at_buf i; [done|by apply (g_valid s Hg)].
  - intros i Hi Hd Hbz Hdt. at_buf i; [by apply Hclean|].
    rewrite Himg by (by apply one_other). by apply (g_clean s Hg).
  - intros i Hi Hd. at_buf i; [done|by apply (g_len s Hg)].
  - intros i Hi Hd. rewrite Hsize. at_buf i; [done|by apply (g_sec s Hg)].
  - intros y. destruct (decide (y = x)) as [->|]; [done|].
    rewrite Himg by done. apply (g_img s Hg).
Qed.

(** The old sector of a recycled buffer was clean. *)
Lemma one_recycled y :
  b_dev (c_buf s b) = 1 → b_sector (c_buf s b) = y → y ≠ x →
  bio_view s y = d_img (c_disk s) y.
Proof.
  intros Hd <- Hy. rewrite view_hit by done. destruct Hold as [[? ?]|[Hr _]]; [done|].
  apply recyclable_true in Hr as [? ?]. by apply (g_clean s Hg).
Qed.

Lemma one_view y : bio_view s' y = disk_upd (bio_view s) x v y.
Proof.
  destruct (decide (y = x)) as [->|Hy].
  - rewrite disk_upd_eq. destruct one_core_b as (_ & Ed & Es & Ev).
    rewrite <- Ev, <- Es at 1. by apply view_hit; [apply one_good|..].
  - rewrite disk_upd_ne by done. destruct (cached_or_not s' y) as [(i & Hi & Hd & <-)|Hn].
    + rewrite view_hit by (done || apply one_good). at_buf i; [done|].
      symmetry. by apply view_hit.
    + rewrite (view_miss s' y) by done. rewrite Himg by done. symmetry.
      destruct (decide (b_dev (c_buf s b) = 1 ∧ b_sector (c_buf s b) = y)) as [[? ?]|Hnb].
      { by apply one_recycled. }
      apply view_miss. intros i Hi Hd Hs. destruct (decide (i = b)) as [->|Hib]; [by apply Hnb|].
      destruct (one_core_ne i Hib) as (_ & Ed & Es & _). apply (Hn i); congruence.
Qed.

Lemma one_held :
  bio_held s' = if has B_BUSY f then <[b := x]> (bio_held s) else delete b (bio_held s).
Proof.
  apply map_eq. intros i. rewrite lookup_held.
  destruct (decide (i = b)) as [->|Hi].
  - destruct one_core_b as (Ef & _ & Es & _). unfold busy. rewrite Ef, Es, decide_True by done.
    destruct (has B_BUSY f); by rewrite ?lookup_insert_eq, ?lookup_delete_eq.
  - destruct (one_core_ne i Hi) as (Ef & _ & Es & _). unfold busy. rewrite Ef, Es.
    destruct (has B_BUSY f); rewrite ?lookup_insert_ne, ?lookup_delete_ne, lookup_held by done; done.
Qed.

Lemma one_dirty :
  bio_dirty s' = if has B_DIRTY f then {[x]} ∪ bio_dirty s else bio_dirty s ∖ {[x]}.
Proof.
  assert (Hoth : ∀ y, y ≠ x → y ∈ bio_dirty s' ↔ y ∈ bio_dirty s).
  { intros y Hy. rewrite !elem_of_dirty. split; intros (i & Hi & Hd & Hs).
    - at_buf i; [done|]. exists i. done.
    - exists i. destruct (decide (i = b)) as [->|Hib].
      + exfalso. pose proof (dirty_dev s b Hg Hb Hd) as Hdev.
        destruct Hold as [[_ ?]|[[_ Hr]%recyclable_true _]]; congruence.
      + at_buf i; done. }
  assert (Hself : x ∈ bio_dirty s' ↔ has B_DIRTY f = true).
  { rewrite elem_of_dirty. destruct one_core_b as (Ef & _ & Es & _). split.
    - intros (i & Hi & Hd & Hs). destruct (decide (i = b)) as [->|Hib].
      + unfold dirty in Hd. by rewrite Ef in Hd.
      + exfalso. pose proof (dirty_dev s' i one_good Hi Hd) as Hdev.
        destruct (one_core_ne i Hib) as (_ & Ed' & Es' & _).
        apply (one_other i Hi Hib); congruence.
    - intros Hd. exists b. unfold dirty. by rewrite Ef. }
  apply set_eq. intros y. destruct (decide (y = x)) as [->|Hy].
  - rewrite Hself. destruct (has B_DIRTY f); set_solver.
  - rewrite Hoth by done. destruct (has B_DIRTY f); set_solver.
Qed.
Lemma one_all :
  good s' ∧ (∀ y, bio_view s' y = disk_upd (bio_view s) x v y) ∧
  bio_held s' = (if has B_BUSY f then <[b := x]> (bio_held s) else delete b (bio_held s)) ∧
  bio_dirty s' = (if has B_DIRTY f then {[x]} ∪ bio_dirty s else bio_dirty s ∖ {[x]}).
Proof. split_and!; [apply one_good|apply one_view|apply one_held|apply one_dirty]. Qed.
End one_buffer.

(** ** The operations keep the promises of [BufCache] *)

Lemma dll_on s i f l :
  (∀ z, b_prev (f z) = b_prev z ∧ b_next (f z) = b_next z) → dll s l → dll (on_buf i f s) l.
Proof.
  intros Hf [Hs Hp]. split; [|done].
  eapply seg_ext; [..|exact Hs]; intros y; unfold nxt, prv, on_buf; simpl;
    destruct (Hf (c_buf s y)); by case_match.
Qed.

(** Writing a dirty buffer, and reading into an invalid one. *)
Lemma iderw_write s b (Q : unit → bio → Prop) :
  busy s b = true → dirty s b = true → b_dev (c_buf s b) = 1 →
  b_sector (c_buf s b) < d_size (c_disk s) →
  Q tt (on_buf b (or_flags B_VALID) (set_disk (mkDisk (d_size (c_disk s))
       (disk_upd (d_img (c_disk s)) (b_sector (c_buf s b)) (b_bytes (c_buf s b)))
       (d_log (c_disk s) ++ [(b_sector (c_buf s b), b_bytes (c_buf s b))]))
       (on_buf b (clr_flags B_DIRTY) s))) →
  wp (iderw b) Q s.
Proof.
  intros Hbz Hdt Hd Hx HQ. unfold iderw, the_buf, update. wp_run.
  unfold busy, dirty in *. rewrite Hbz. cbn [negb].
  rewrite (proj2 (Z.eqb_neq (Z.land _ (Z.lor B_VALID B_DIRTY)) _)).
  2: { intros E. unfold has in Hdt. apply negb_true_iff, Z.eqb_neq in Hdt. apply Hdt.
       replace B_DIRTY with (Z.land (Z.lor B_VALID B_DIRTY) B_DIRTY) by done.
       rewrite Z.land_assoc, E. done. }
  rewrite Hd, Z.eqb_refl. cbn [negb]. wp_run.
  assert (Hn : (b_sector (c_buf s b) >=? d_size (c_disk s)) = false) by (by apply geb_false).
  rewrite Hn, Hdt. wp_run. exact HQ.
Qed.

Lemma iderw_read s b (Q : unit → bio → Prop) :
  b_flags (c_buf s b) = B_BUSY → b_dev (c_buf s b) = 1 →
  b_sector (c_buf s b) < d_size (c_disk s) →
  Q tt (on_buf b (or_flags B_VALID)
          (on_buf b (with_bytes (d_img (c_disk s) (b_sector (c_buf s b)))) s)) →
  wp (iderw b) Q s.
Proof.
  intros Hf Hd Hx HQ. unfold iderw, the_buf, update. wp_run.
  rewrite Hf, Hd, Z.eqb_refl. change (has B_BUSY B_BUSY) with true.
  change (Z.land B_BUSY (Z.lor B_VALID B_DIRTY) =? B_VALID) with false. cbn [negb]. wp_run.
  assert (Hn : (b_sector (c_buf s b) >=? d_size (c_disk s)) = false) by (by apply geb_false).
  rewrite Hn. wp_run. exact HQ.
Qed.

(** The buffer a search of [bget] ends on. *)
Lemma find_list_some (P : nat → bool) l i : List.find P l = Some i → i ∈ l ∧ P i = true.
Proof. intros [Hi HP]%find_some. split; [by apply list_elem_of_In|done]. Qed.
Lemma find_list_none (P : nat → bool) l i : List.find P l = None → i ∈ l → P i = false.
Proof. intros H Hi. apply (find_none _ _ H). by apply list_elem_of_In. Qed.

(** If no buffer can be recycled, [NBUF] sectors are pinned. *)
Lemma no_victim s :
  good s → (∀ i, (i < NBUF)%nat → recyclable s i = false) →
  (NBUF ≤ size (pins_of (bio_held s) (bio_dirty s)))%nat.
Proof.
  intros Hg Hn.
  assert (H : ∀ i, (i < NBUF)%nat → b_dev (c_buf s i) = 1 ∧ (busy s i = true ∨ dirty s i = true)).
  { intros i Hi. pose proof (Hn i Hi) as Hr. apply not_true_iff_false in Hr.
    rewrite recyclable_true in Hr. split.
    - destruct (g_dev s Hg i Hi) as [?|[_ Hf]]; [done|]. exfalso. apply Hr.
      unfold busy, dirty. by rewrite Hf.
    - destruct (busy s i), (dirty s i); naive_solver. }
  apply (tab_inj_size NBUF (λ i, b_sector (c_buf s i))).
  - intros i j Hi Hj Heq. apply (g_uniq s Hg); try done; by apply H.
  - intros i Hi. apply elem_of_pins. destruct (H i Hi) as [_ [Hb|Hd]].
    + left. exists i. by rewrite lookup_held, decide_True, Hb by done.
    + right. apply elem_of_dirty. eauto.
Qed.

Lemma not_held_not_busy s x i :
  x ∉ pins_of (bio_held s) ∅ → (i < NBUF)%nat → b_sector (c_buf s i) = x → busy s i = false.
Proof.
  intros Hp Hi Hs. apply not_true_iff_false. intros Hb. apply Hp. apply elem_of_pins. left.
  exists i. by rewrite lookup_held, decide_True, Hb, Hs by done.
Qed.

Lemma bread_hit s x b l (Q : nat → bio → Prop) :
  good s → c_lock s = false → dll s l → (b < NBUF)%nat →
  List.find (caches s 1 x) l = Some b → busy s b = false →
  Q b (set_lock false (on_buf b (or_flags B_BUSY) (set_lock true s))) →
  wp (bread 1 x) Q s.
Proof.
  intros Hg Hlk Hd Hb Hf Hbz HQ.
  pose proof (dll_head_notin _ _ Hd) as (Hh & Hlen & _). destruct Hd as [Hs Hp].
  unfold bread, bget, lock_acquire, lock_release, the_buf, update.
  wp_run. apply wp_acquire; [done|]. wp_run.
  unfold wp at 1. change (b_next (c_buf (set_lock true s) HEAD)) with (nxt (set_lock true s) HEAD).
  rewrite (bget_cached_find _ 1 x HEAD l) by (try done; lia).
  change (caches (set_lock true s) 1 x) with (caches s 1 x). rewrite Hf. cbn beta iota. wp_run.
  change (has B_BUSY (b_flags (c_buf (set_lock true s) b))) with (busy s b). rewrite Hbz.
  cbn [negb]. wp_run. apply wp_release; [done|]. wp_run.
  apply find_list_some in Hf as [_ [Hdev _]%caches_true].
  assert (Hv : has B_VALID (b_flags (c_buf (set_lock false (on_buf b (or_flags B_BUSY) (set_lock true s))) b)) = true).
  { simpl. rewrite Nat.eqb_refl. simpl. pose proof (g_flags s Hg b Hb) as Hfl.
    pose proof (g_valid s Hg b Hb Hdev) as Hva. unfold valid in Hva.
    flag_cases (b_flags (c_buf s b)); done. }
  rewrite Hv. cbn [negb]. wp_run. exact HQ.
Qed.

Lemma bread_miss s x b l (Q : nat → bio → Prop) :
  c_lock s = false → dll s l → x < d_size (c_disk s) →
  List.find (caches s 1 x) l = None → List.find (recyclable s) (rev l) = Some b →
  Q b (on_buf b (or_flags B_VALID) (on_buf b (with_bytes (d_img (c_disk s) x))
    (set_lock false (on_buf b (with_id 1 x B_BUSY) (set_lock true s))))) →
  wp (bread 1 x) Q s.
Proof.
  intros Hlk Hd Hx Hn Hf HQ.
  pose proof (dll_head_notin _ _ Hd) as (Hh & Hlen & _). destruct Hd as [Hs Hp].
  unfold bread, bget, lock_acquire, lock_release, the_buf, update.
  wp_run. apply wp_acquire; [done|]. wp_run.
  unfold wp at 1. change (b_next (c_buf (set_lock true s) HEAD)) with (nxt (set_lock true s) HEAD).
  rewrite (bget_cached_find _ 1 x HEAD l) by (try done; lia).
  change (caches (set_lock true s) 1 x) with (caches s 1 x). rewrite Hn. cbn beta iota. wp_run.
  unfold wp at 1. change (b_prev (c_buf (set_lock true s) HEAD)) with (prv (set_lock true s) HEAD).
  rewrite (bget_victim_find _ HEAD l) by (try done; lia).
  change (recyclable (set_lock true s)) with (recyclable s). rewrite Hf. cbn beta iota.
  wp_run. apply wp_release; [done|]. wp_run.
  set (s1 := set_lock false _).
  assert (Hf1 : b_flags (c_buf s1 b) = B_BUSY) by (simpl; by rewrite Nat.eqb_refl).
  assert (Hd1 : b_dev (c_buf s1 b) = 1) by (simpl; by rewrite Nat.eqb_refl).
  assert (Hs1 : b_sector (c_buf s1 b) = x) by (simpl; by rewrite Nat.eqb_refl).
  rewrite Hf1. change (has B_VALID B_BUSY) with false. cbn [negb].
  apply iderw_read; [done..|by rewrite Hs1|]. rewrite Hs1. wp_run. exact HQ.
Qed.

Lemma core_lock v s j : core (set_lock v s) j = core s j.
Proof. done. Qed.

(** The view after storing a value equal to the one already seen. *)
Lemma disk_upd_same (g : Z → block) x v y : g x = v → disk_upd g x v y = g y.
Proof. intros <-. unfold disk_upd. destruct (Z.eqb_spec y x) as [->|]; done. Qed.

(** The result of [bread] of sector [x]: buffer [b] is newly held, nothing
    else the clients see has changed. *)
Definition bread_post (s : bio) (x : Z) (b : nat) (s' : bio) : Prop :=
  bio_inv s' ∧ d_size (c_disk s') = d_size (c_disk s) ∧
  (∀ y, bio_view s' y = bio_view s y) ∧ (∀ y, d_img (c_disk s') y = d_img (c_disk s) y) ∧
  d_log (c_disk s') = d_log (c_disk s) ∧ bio_dirty s' = bio_dirty s ∧
  bio_held s !! b = None ∧ bio_held s' = <[b := x]> (bio_held s).

Lemma dirty_one s b x :
  good s → (b < NBUF)%nat → b_dev (c_buf s b) = 1 → b_sector (c_buf s b) = x →
  x ∈ bio_dirty s ↔ dirty s b = true.
Proof.
  intros Hg Hb Hdev Hsec. rewrite elem_of_dirty. split; [|eauto].
  intros (i & Hi & Hdi & Hsi). rewrite <- Hdi. f_equal. symmetry.
  apply (g_uniq s Hg); [done..|by apply dirty_dev|done|congruence].
Qed.

Lemma bread_cached s x l b :
  c_lock s = false → dll s l → good s → 0 ≤ x < d_size (c_disk s) →
  x ∉ pins_of (bio_held s) ∅ → List.find (caches s 1 x) l = Some b →
  wp (bread ROOTDEV x) (bread_post s x) s.
Proof.
  intros Hlk Hd Hg Hx Hp Hf.
  pose proof Hf as [Hin [Hdev Hsec]%caches_true]%find_list_some.
  assert (Hb : (b < NBUF)%nat) by (by apply (dll_elem s l)).
  pose proof (not_held_not_busy s x b Hp Hb Hsec) as Hbz.
  pose proof (g_flags s Hg b Hb) as Hfl. pose proof (g_valid s Hg b Hb Hdev) as Hva.
  apply (bread_hit s x b l); try done. set (s' := set_lock false _).
  set (f := Z.lor (b_flags (c_buf s b)) B_BUSY).
  assert (Hf8 : 0 ≤ f < 8 ∧ has B_VALID f = true ∧ has B_BUSY f = true ∧ has B_DIRTY f = dirty s b).
  { unfold f, dirty, valid in *. by flag_cases (b_flags (c_buf s b)). }
  destruct Hf8 as (Hf8 & Hfv & Hfb & Hfd).
  destruct (one_all s s' b f x (b_bytes (c_buf s b))) as (Hg' & Hview & Hheld & Hdirty);
    try done; [|by apply g_len|apply (g_img s Hg)|by rewrite Hfb|by left|].
  { intros j. unfold s'. rewrite core_lock, core_on.
    destruct (Nat.eqb_spec j b) as [->|]; [simpl|done]. by rewrite Hdev, Hsec. }
  rewrite Hfb in Hheld. pose proof (dirty_one s b x Hg Hb Hdev Hsec) as Hdx.
  split_and!; try done.
  - split_and!; [done| |done]. exists l. by apply (dll_on _ b (or_flags B_BUSY)).
  - intros y. rewrite Hview. apply disk_upd_same. rewrite <- Hsec. by apply view_hit.
  - rewrite Hdirty, Hfd. destruct (dirty s b); set_solver.
  - by rewrite lookup_held, decide_True, Hbz.
Qed.

Lemma bread_uncached s x l :
  c_lock s = false → dll s l → good s → 0 ≤ x < d_size (c_disk s) →
  x ∈ bio_dirty s ∨ (size (pins_of (bio_held s) (bio_dirty s)) < NBUF)%nat →
  List.find (caches s 1 x) l = None →
  wp (bread ROOTDEV x) (bread_post s x) s.
Proof.
  intros Hlk Hd Hg Hx Hroom Hf.
  assert (Hnc : ∀ i, (i < NBUF)%nat → b_dev (c_buf s i) = 1 → b_sector (c_buf s i) ≠ x).
  { intros i Hi Hdi Hsi. pose proof (find_list_none _ _ i Hf) as Hc.
    rewrite (dll_elem s l) in Hc by done. apply not_true_iff_false in Hc; [|done].
    apply Hc. by apply caches_true. }
  assert (Hnd : x ∉ bio_dirty s).
  { intros (i & Hi & Hdi & Hsi)%elem_of_dirty. apply (Hnc i); try done. by apply dirty_dev. }
  destruct Hroom as [?|Hroom]; [done|].
  assert (Hrev : ∀ i, i ∈ rev l ↔ (i < NBUF)%nat).
  { intros i. rewrite list_elem_of_In, <- in_rev, <- list_elem_of_In. by apply (dll_elem s). }
  destruct (List.find (recyclable s) (rev l)) as [b|] eqn:Hv.
  2: { exfalso. apply Nat.lt_nge in Hroom. apply Hroom, (no_victim s Hg).
       intros i Hi. apply (find_list_none _ _ _ Hv). by apply Hrev. }
  pose proof Hv as [Hb%Hrev Hrec]%find_list_some.
  apply (bread_miss s x b l); try done; [lia|]. set (s' := on_buf b (or_flags B_VALID) _).
  destruct (one_all s s' b 3 x (d_img (c_disk s) x)) as (Hg' & Hview & Hheld & Hdirty);
    try done; [|apply (g_img s Hg)..|by right|].
  { intros j. unfold s'. rewrite !core_on, core_lock, core_on.
    destruct (Nat.eqb_spec j b) as [->|]; [|done]. simpl. by rewrite Nat.eqb_refl. }
  change (has B_BUSY 3) with true in Hheld. change (has B_DIRTY 3) with false in Hdirty.
  split_and!; try done.
  - split_and!; [done| |done]. exists l. do 2 (apply dll_on; [done|]).
    by apply (dll_on (set_lock true s) b (with_id 1 x B_BUSY)).
  - intros y. rewrite Hview. apply disk_upd_same. by apply view_miss.
  - rewrite Hdirty. set_solver.
  - apply recyclable_true in Hrec as [Hbz _]. by rewrite lookup_held, decide_True, Hbz.
Qed.

Lemma bio_bread_spec s x :
  bio_inv s → 0 ≤ x < d_size (c_disk s) → x ∉ pins_of (bio_held s) ∅ →
  x ∈ bio_dirty s ∨ (size (pins_of (bio_held s) (bio_dirty s)) < NBUF)%nat →
  wp (bread ROOTDEV x) (bread_post s x) s.
Proof.
  intros (Hlk & (l & Hd) & Hg) Hx Hp Hroom.
  destruct (List.find (caches s 1 x) l) as [b|] eqn:Hf.
  - by apply (bread_cached s x l b).
  - by apply (bread_uncached s x l).
Qed.

(** Changes of a held buffer that keep its identity. *)
Lemma held_change s s' b x f v :
  bio_inv s → bio_held s !! b = Some x →
  (∀ j, core s' j = if (j =? b)%nat then (f, 1, x, v) else core s j) →
  c_lock s' = false → (∃ l, dll s' l) → d_size (c_disk s') = d_size (c_disk s) →
  (∀ y, y ≠ x → d_img (c_disk s') y = d_img (c_disk s) y) →
  0 ≤ f < 8 → has B_VALID f = true → is_block v → is_block (d_img (c_disk s') x) →
  (has B_BUSY f = false → has B_DIRTY f = false → v = d_img (c_disk s') x) →
  bio_inv s' ∧ (∀ y, bio_view s' y = disk_upd (bio_view s) x v y) ∧
  bio_held s' = (if has B_BUSY f then <[b := x]> (bio_held s) else delete b (bio_held s)) ∧
  bio_dirty s' = (if has B_DIRTY f then {[x]} ∪ bio_dirty s else bio_dirty s ∖ {[x]}).
Proof.
  intros (Hlk & _ & Hg) Hh Hcore Hlk' Hdll Hsz Himg Hf Hfv Hv Hix Hcl.
  destruct (held_some s b x Hg Hh) as (Hb & Hbz & Hdev & Hsec).
  destruct (one_all s s' b f x v) as (Hg' & Hview & Hheld & Hdirty); try done.
  - rewrite <- Hsec. by apply (g_sec s Hg).
  - by left.
Qed.

Lemma held_facts s b x :
  bio_inv s → bio_held s !! b = Some x →
  (b < NBUF)%nat ∧ b_dev (c_buf s b) = 1 ∧ b_sector (c_buf s b) = x ∧ busy s b = true ∧
  valid s b = true ∧ 0 ≤ b_flags (c_buf s b) < 8 ∧ bio_view s x = b_bytes (c_buf s b) ∧
  is_block (b_bytes (c_buf s b)) ∧ 0 ≤ x < d_size (c_disk s) ∧
  (x ∈ bio_dirty s ↔ dirty s b = true).
Proof.
  intros (_ & _ & Hg) Hh. destruct (held_some s b x Hg Hh) as (Hb & Hbz & Hdev & Hsec).
  pose proof (g_sec s Hg b Hb Hdev) as Hs. rewrite Hsec in Hs.
  pose proof (view_hit s b Hg Hb Hdev) as Hview. rewrite Hsec in Hview.
  split_and!; try done; try (by apply g_valid); try (by apply g_flags); try (by apply g_len);
    try lia; by apply dirty_one.
Qed.

Lemma bio_bwrite_spec s b x :
  bio_inv s → bio_held s !! b = Some x →
  wp (bwrite b) (λ _ s',
    bio_inv s' ∧ d_size (c_disk s') = d_size (c_disk s) ∧
    (∀ y, bio_view s' y = bio_view s y) ∧
    (∀ y, d_img (c_disk s') y = disk_upd (d_img (c_disk s)) x (bio_view s x) y) ∧
    d_log (c_disk s') = d_log (c_disk s) ++ [(x, bio_view s x)] ∧
    bio_dirty s' = bio_dirty s ∖ {[x]} ∧ bio_held s' = bio_held s) s.
Proof.
  intros Hinv Hh.
  destruct (held_facts s b x Hinv Hh) as (Hb & Hdev & Hsec & Hbz & Hva & Hfl & Hvw & Hbl & Hx & _).
  unfold bwrite, the_buf, update. wp_run.
  unfold busy, has in Hbz. apply negb_true_iff in Hbz. rewrite Hbz. wp_run.
  set (s1 := on_buf b (or_flags B_DIRTY) s).
  assert (Hs1 : c_buf s1 b = or_flags B_DIRTY (c_buf s b)) by (simpl; by rewrite Nat.eqb_refl).
  apply iderw_write; unfold busy, dirty; rewrite ?Hs1; simpl.
  { unfold has. rewrite Z.land_lor_distr_l. apply Z.eqb_neq in Hbz.
    apply negb_true_iff, Z.eqb_neq. by flag_cases (b_flags (c_buf s b)). }
  { by flag_cases (b_flags (c_buf s b)). }
  { done. } { lia. }
  rewrite Hsec. set (s' := on_buf b (or_flags B_VALID) _).
  destruct (held_change s s' b x 3 (b_bytes (c_buf s b))) as (Hi' & Hview & Hheld & Hdirty); try done.
  - intros j. unfold s'. rewrite core_on. destruct (Nat.eqb_spec j b) as [->|].
    + simpl. rewrite !Nat.eqb_refl. simpl. rewrite Hdev, Hsec. repeat f_equal.
      apply Z.eqb_neq in Hbz. unfold valid in Hva. by flag_cases (b_flags (c_buf s b)).
    + unfold core. simpl. by rewrite !(proj2 (Nat.eqb_neq j b)).
  - by destruct Hinv.
  - destruct Hinv as (_ & (l & Hl) & _). exists l. apply dll_on; [done|].
    apply (dll_on _ b (clr_flags B_DIRTY)); [done|]. by apply (dll_on s b (or_flags B_DIRTY)).
  - intros y Hy. simpl. by rewrite disk_upd_ne.
  - simpl. by rewrite disk_upd_eq.
  - split_and!; try done.
    + intros y. rewrite Hview. by apply disk_upd_same.
    + intros y. simpl. by rewrite Hvw.
    + simpl. by rewrite Hvw.
    + rewrite Hheld. by apply insert_id.
Qed.

Lemma bio_brelse_spec s b x :
  bio_inv s → bio_held s !! b = Some x →
  x ∈ bio_dirty s ∨ bio_view s x = d_img (c_disk s) x →
  wp (brelse b) (λ _ s',
    bio_inv s' ∧ d_size (c_disk s') = d_size (c_disk s) ∧
    (∀ y, bio_view s' y = bio_view s y) ∧ (∀ y, d_img (c_disk s') y = d_img (c_disk s) y) ∧
    d_log (c_disk s') = d_log (c_disk s) ∧ bio_dirty s' = bio_dirty s ∧
    bio_held s' = delete b (bio_held s)) s.
Proof.
  intros Hinv Hh Hcl.
  destruct (held_facts s b x Hinv Hh) as (Hb & Hdev & Hsec & Hbz & Hva & Hfl & Hvw & Hbl & Hx & Hdx).
  pose proof Hinv as (Hlk & (l & Hl) & Hg).
  assert (Hin : b ∈ l) by (by apply (dll_elem s l)).
  apply list_elem_of_split in Hin as (l1 & l2 & ->).
  apply (brelse_run s l1 b l2); [done..|]. intros s' Hd' Hlk' Hdisk _ Hcore.
  set (f := Z.land (b_flags (c_buf s b)) (Z.lnot B_BUSY)).
  assert (Hf : 0 ≤ f < 8 ∧ has B_VALID f = true ∧ has B_BUSY f = false ∧ has B_DIRTY f = dirty s b).
  { unfold f, valid, dirty in *. by flag_cases (b_flags (c_buf s b)). }
  destruct Hf as (Hf8 & Hfv & Hfb & Hfd).
  destruct (held_change s s' b x f (b_bytes (c_buf s b))) as (Hi' & Hview & Hheld & Hdirty);
    rewrite ?Hdisk; try done.
  - intros j. rewrite Hcore, Hdev, Hsec. done.
  - eauto.
  - apply (g_img s Hg).
  - intros _ Hnd. rewrite <- Hvw. destruct Hcl as [Hin|]; [|done].
    apply Hdx in Hin. congruence.
  - split_and!; try done.
    + intros y. rewrite Hview. by apply disk_upd_same.
    + rewrite Hdirty, Hfd. destruct (dirty s b); set_solver.
    + by rewrite Hheld, Hfb.
Qed.

Lemma bio_set_data_spec s b x v :
  bio_inv s → bio_held s !! b = Some x → is_block v →
  wp (buf_set_data b v) (λ _ s',
    bio_inv s' ∧ d_size (c_disk s') = d_size (c_disk s) ∧
    (∀ y, bio_view s' y = disk_upd (bio_view s) x v y) ∧
    (∀ y, d_img (c_disk s') y = d_img (c_disk s) y) ∧
    d_log (c_disk s') = d_log (c_disk s) ∧ bio_dirty s' = bio_dirty s ∧ bio_held s' = bio_held s) s.
Proof.
  intros Hinv Hh Hv.
  destruct (held_facts s b x Hinv Hh) as (Hb & Hdev & Hsec & Hbz & Hva & Hfl & Hvw & Hbl & Hx & Hdx).
  pose proof Hinv as (Hlk & (l & Hl) & Hg). simpl. unfold update. wp_run.
  destruct (held_change s (on_buf b (with_bytes v) s) b x (b_flags (c_buf s b)) v)
    as (Hi' & Hview & Hheld & Hdirty); try done.
  - intros j. rewrite core_on. destruct (Nat.eqb_spec j b) as [->|]; [|done]. simpl. by rewrite Hdev, Hsec.
  - exists l. by apply dll_on.
  - apply (g_img s Hg).
  - unfold busy in Hbz. by rewrite Hbz.
  - split_and!; try done.
    + rewrite Hdirty. fold (dirty s b). destruct (dirty s b); set_solver.
    + rewrite Hheld. unfold busy in Hbz. rewrite Hbz. by apply insert_id.
Qed.

Lemma bio_set_dirty_spec s b x :
  bio_inv s → bio_held s !! b = Some x →
  wp (buf_set_dirty b) (λ _ s',
    bio_inv s' ∧ d_size (c_disk s') = d_size (c_disk s) ∧
    (∀ y, bio_view s' y = bio_view s y) ∧ (∀ y, d_img (c_disk s') y = d_img (c_disk s) y) ∧
    d_log (c_disk s') = d_log (c_disk s) ∧ bio_dirty s' = {[x]} ∪ bio_dirty s ∧
    bio_held s' = bio_held s) s.
Proof.
  intros Hinv Hh.
  destruct (held_facts s b x Hinv Hh) as (Hb & Hdev & Hsec & Hbz & Hva & Hfl & Hvw & Hbl & Hx & Hdx).
  pose proof Hinv as (Hlk & (l & Hl) & Hg). simpl. unfold update. wp_run.
  set (f := Z.lor (b_flags (c_buf s b)) B_DIRTY).
  assert (Hf : 0 ≤ f < 8 ∧ has B_VALID f = true ∧ has B_BUSY f = true ∧ has B_DIRTY f = true).
  { unfold f, valid, busy in *. by flag_cases (b_flags (c_buf s b)). }
  destruct Hf as (Hf8 & Hfv & Hfb & Hfd).
  destruct (held_change s (on_buf b (or_flags B_DIRTY) s) b x f (b_bytes (c_buf s b)))
    as (Hi' & Hview & Hheld & Hdirty); try done.
  - intros j. rewrite core_on. destruct (Nat.eqb_spec j b) as [->|]; [|done]. simpl. by rewrite Hdev, Hsec.
  - exists l. by apply dll_on.
  - apply (g_img s Hg).
  - by rewrite Hfb.
  - split_and!; try done.
    + intros y. rewrite Hview. by apply disk_upd_same.
    + by rewrite Hdirty, Hfd.
    + rewrite Hheld, Hfb. by apply insert_id.
Qed.

Lemma bio_view_block s x : bio_inv s → is_block (bio_view s x).
Proof.
  intros (_ & _ & Hg). destruct (cached_or_not s x) as [(i & Hi & Hd & <-)|Hn].
  - rewrite view_hit by done. by apply g_len.
  - rewrite view_miss by done. apply (g_img s Hg).
Qed.

Lemma bio_view_clean s x :
  bio_inv s → x ∉ bio_dirty s → x ∉ pins_of (bio_held s) ∅ → bio_view s x = d_img (c_disk s) x.
Proof.
  intros (_ & _ & Hg) Hnd Hnp. destruct (cached_or_not s x) as [(i & Hi & Hd & Hs)|Hn].
  - rewrite <- Hs, view_hit by done. apply (g_clean s Hg); [done..| |].
    + by apply (not_held_not_busy s x).
    + apply not_true_iff_false. intros Hdi. apply Hnd. by apply (dirty_one s i x).
  - by apply view_miss.
Qed.

Lemma bio_disk_block s x : bio_inv s → is_block (d_img (c_disk s) x).
Proof. intros (_ & _ & Hg). apply (g_img s Hg). Qed.

Lemma bio_sector_spec s b x : bio_inv s → bio_held s !! b = Some x → buf_sector b s = Ok x s.
Proof. intros Hi Hh. destruct (held_facts s b x Hi Hh) as (_ & _ & <- & _). done. Qed.

Lemma bio_dev_spec s b x : bio_inv s → bio_held s !! b = Some x → buf_dev b s = Ok ROOTDEV s.
Proof. intros Hi Hh. destruct (held_facts s b x Hi Hh) as (_ & Hd & _). simpl. unfold gets. by rewrite Hd. Qed.

Lemma bio_data_spec s b x :
  bio_inv s → bio_held s !! b = Some x → buf_data b s = Ok (bio_view s x) s.
Proof.
  intros Hi Hh. destruct (held_facts s b x Hi Hh) as (_ & _ & _ & _ & _ & _ & Hv & _).
  simpl. unfold gets. by rewrite Hv.
Qed.

#[export] Instance bio_cache : BufCache bio := {
  b_inv := bio_inv;
  b_size s := d_size (c_disk s);
  b_disk s := d_img (c_disk s);
  b_view := bio_view;
  b_writes s := d_log (c_disk s);
  b_held := bio_held;
  b_dirty := bio_dirty;
  b_disk_block := bio_disk_block;
  b_view_block := bio_view_block;
  b_view_clean := bio_view_clean;
  bread_spec := bio_bread_spec;
  bwrite_spec := bio_bwrite_spec;
  brelse_spec := bio_brelse_spec;
  buf_sector_spec := bio_sector_spec;
  buf_dev_spec := bio_dev_spec;
  buf_data_spec := bio_data_spec;
  buf_set_data_spec := bio_set_data_spec;
  buf_set_dirty_spec := bio_set_dirty_spec;
}.

(** ** Initialisation *)

Lemma binit_link_run s b m (Q : unit → bio → Prop) :
  seg (nxt s) (prv s) HEAD m HEAD → NoDup (HEAD :: m) → b ∉ HEAD :: m →
  (∀ s', seg (nxt s') (prv s') HEAD (b :: m) HEAD →
     (∀ j, core s' j = if (j =? b)%nat then (b_flags (c_buf s b), w32 (-1), b_sector (c_buf s b),
         b_bytes (c_buf s b)) else core s j) →
     c_lock s' = c_lock s → c_disk s' = c_disk s → Q tt s') →
  wp (binit_link b) Q s.
Proof.
  intros Hs Hnd Hb HQ. assert (Hbh : b ≠ HEAD) by set_solver.
  unfold binit_link, the_buf, update. wp_run. fold (nxt s HEAD).
  set (s1 := on_buf b (with_next (nxt s HEAD)) s). set (s2 := on_buf b (with_prev HEAD) s1).
  set (s3 := on_buf b _ s2). fold (nxt s3 HEAD).
  assert (E1 : ∀ j, nxt s3 j = fupd (nxt s) b (nxt s HEAD) j).
  { intros j. unfold s3, s2, s1, nxt, on_buf, fupd. simpl. by case_match. }
  assert (E2 : ∀ j, prv s3 j = fupd (prv s) b HEAD j).
  { intros j. unfold s3, s2, s1, prv, on_buf, fupd. simpl. by case_match. }
  assert (E3 : nxt s3 HEAD = nxt s HEAD) by (rewrite E1; by apply fupd_ne).
  rewrite E3. apply HQ; try done.
  - eapply seg_ext; [..|exact (seg_push _ _ _ _ b Hb Hnd Hs)]; intros y.
    + rewrite nxt_on_next. apply fupd_ext. intros k. by rewrite nxt_on_prev.
    + rewrite prv_on_next, prv_on_prev. by apply fupd_ext.
  - intros j. rewrite core_on_next, core_on_prev. unfold s3. rewrite core_on.
    unfold s2, s1. rewrite core_on_prev, core_on_next.
    destruct (Nat.eqb_spec j b) as [->|]; [|done]. simpl. by rewrite Nat.eqb_refl.
Qed.

Lemma binit_loop_run bs s m (Q : unit → bio → Prop) :
  seg (nxt s) (prv s) HEAD m HEAD → NoDup (HEAD :: bs ++ m) →
  (∀ s', seg (nxt s') (prv s') HEAD (rev bs ++ m) HEAD →
     (∀ j, core s' j = if decide (j ∈ bs) then (b_flags (c_buf s j), w32 (-1), b_sector (c_buf s j),
         b_bytes (c_buf s j)) else core s j) →
     c_lock s' = c_lock s → c_disk s' = c_disk s → Q tt s') →
  wp (binit_loop bs) Q s.
Proof.
  revert s m. induction bs as [|b bs IH]; intros s m Hs Hnd HQ; simpl.
  { apply wp_ret. apply HQ; try done. }
  wp_step. assert (Hnd' : NoDup (HEAD :: m) ∧ b ∉ HEAD :: m ∧ b ∉ bs ∧ NoDup (HEAD :: bs ++ b :: m)).
  { split_and!.
    - apply NoDup_cons in Hnd as [Hh Hnd]. apply NoDup_cons in Hnd as [_ Hnd].
      apply NoDup_app in Hnd as (_ & _ & Hnd). apply NoDup_cons. set_solver.
    - apply NoDup_cons in Hnd as [Hh Hnd]. apply NoDup_cons in Hnd as [Hb _]. set_solver.
    - apply NoDup_cons in Hnd as [Hh Hnd]. apply NoDup_cons in Hnd as [Hb _]. set_solver.
    - by rewrite <- Permutation_middle. }
  destruct Hnd' as (Hm & Hbm & Hbb & Hnd').
  apply (binit_link_run _ _ m); [done..|]. intros s1 Hs1 Hc1 Hl1 Hd1.
  apply (IH _ (b :: m)); [done..|]. intros s2 Hs2 Hc2 Hl2 Hd2. apply HQ.
  - simpl rev. by rewrite <- app_assoc.
  - intros j. rewrite Hc2. pose proof (Hc1 j) as Hj.
    destruct (Nat.eqb_spec j b) as [Hjb|Hjb].
    + subst j. rewrite decide_False by done. rewrite decide_True by set_solver. done.
    + apply core_inv in Hj as (Ef & Ed & Es & Ev). destruct (decide (j ∈ bs)).
      * rewrite decide_True by set_solver. by rewrite Ef, Es, Ev.
      * rewrite decide_False by set_solver. unfold core. by rewrite Ef, Ed, Es, Ev.
  - congruence.
  - congruence.
Qed.

(** [binit] ties the buffers into a well-formed circular list, last buffer
    first, and leaves an empty cache: the invariant holds, no buffer is held or
    dirty, and readers see the disk. *)
Lemma binit_ok (d : disk) :
  (∀ x, is_block (d_img d x)) →
  wp binit (λ _ s, bio_inv s ∧ dll s (rev (seq 0 NBUF)) ∧ c_disk s = d ∧
    bio_held s = ∅ ∧ bio_dirty s = ∅ ∧ ∀ x, bio_view s x = d_img d x) (boot_bio d).
Proof.
  intros Himg. unfold binit, update. wp_run.
  apply (binit_loop_run _ _ []); [done| |].
  { apply NoDup_cons. rewrite app_nil_r. split; [|apply NoDup_seq].
    rewrite elem_of_seq. unfold HEAD. lia. }
  intros s' Hs' Hc Hl Hd. rewrite app_nil_r in Hs'.
  assert (Hdll : dll s' (rev (seq 0 NBUF))) by (split; [done|symmetry; apply Permutation_rev]).
  assert (Hb : ∀ i, (i < NBUF)%nat → b_dev (c_buf s' i) = w32 (-1) ∧ b_flags (c_buf s' i) = 0).
  { intros i Hi. pose proof (Hc i) as Hci. rewrite decide_True in Hci by (rewrite elem_of_seq; lia).
    unfold core in Hci. injection Hci as Ef Ed Es Ev. rewrite Ed, Ef. simpl.
    by rewrite !(proj2 (Nat.eqb_neq i HEAD)) by (unfold HEAD; lia). }
  assert (Hd1 : ∀ i, (i < NBUF)%nat → b_dev (c_buf s' i) ≠ 1).
  { intros i Hi. by rewrite (proj1 (Hb i Hi)). }
  assert (Hg : good s').
  { constructor; try (intros i Hi Hdev; exfalso; by apply (Hd1 i)).
    - intros i Hi. right. by apply Hb.
    - intros i Hi. rewrite (proj2 (Hb i Hi)). lia.
    - intros i j Hi Hj Hdev. exfalso. by apply (Hd1 i).
    - intros x. rewrite Hd. apply Himg. }
  split_and!; try done.
  - split_and!; [by rewrite Hl|by eauto|done].
  - apply map_eq. intros i. rewrite lookup_held, lookup_empty. case_decide as Hi; [|done].
    unfold busy. by rewrite (proj2 (Hb i Hi)).
  - apply set_eq. intros x. rewrite elem_of_dirty. split; [|set_solver].
    intros (i & Hi & Hdi & _). unfold dirty in Hdi. by rewrite (proj2 (Hb i Hi)) in Hdi.
  - intros x. rewrite view_miss; [by rewrite Hd|]. intros i Hi Hdev. exfalso. by apply (Hd1 i).
Qed.

(** ** The cache as an LRU list *)

(** [bget] on the list [l] of buffers, most recently used first: the cached
    buffer if it is free, else wait for it; else recycle the least recently
    used buffer that is neither held nor dirty. *)
Definition lru_get (l : list nat) (dev sector : Z) (s : bio) : outcome bio nat :=
  match List.find (caches s dev sector) l with
  | Some b => if busy s b then Sleep (ChBuf b) s else Ok b (on_buf b (or_flags B_BUSY) s)
  | None =>
      match List.find (recyclable s) (rev l) with
      | Some b => Ok b (on_buf b (with_id dev sector B_BUSY) s)
      | None => Panic "bget: no buffers"
      end
  end.

(** C3: The searches of [bget] along the linked list terminate and implement the
    least-recently-used policy: on every well-formed list the routine is equal
    to its description on the list of buffers, in all four outcomes (hit, hit
    on a busy buffer, miss with a victim, miss with none). *)
Theorem bget_lru s l dev sector :
  dll s l → c_lock s = false → bget dev sector s = lru_get l dev sector s.
Proof.
  intros Hd Hlk. pose proof (dll_head_notin _ _ Hd) as (Hh & Hlen & _). destruct Hd as [Hs _].
  destruct s as [lk bf dk wk]. simpl in Hlk. subst lk. set (s := mkBio false bf dk wk) in *.
  set (s1 := set_lock true s).
  assert (E1 := bget_cached_find s1 dev sector HEAD l (S NBUF) Hs Hh ltac:(lia)).
  assert (E2 := bget_victim_find s1 HEAD l (S NBUF) Hs Hh ltac:(lia)).
  unfold bget, lock_acquire, lock_release. rewrite (bind_ok _ _ s tt s1) by done.
  unfold the_buf at 1. rewrite (bind_ok _ _ s1 (bf HEAD) s1) by done.
  change (b_next (bf HEAD)) with (nxt s1 HEAD). rewrite (bind_ok _ _ _ _ _ E1).
  unfold lru_get. change (caches s1 dev sector) with (caches s dev sector).
  destruct (List.find (caches s dev sector) l) as [b|].
  - unfold the_buf. rewrite (bind_ok _ _ s1 (bf b) s1) by done.
    change (has B_BUSY (b_flags (bf b))) with (busy s b). by destruct (busy s b).
  - change (b_prev (bf HEAD)) with (prv s1 HEAD). rewrite (bind_ok _ _ _ _ _ E2).
    change (recyclable s1) with (recyclable s). by destruct (List.find (recyclable s) (rev l)).
Qed.

(** [brelse] of a held buffer makes it the most recently used one: the
    doubly linked list stays well formed, the buffer moves to its front and the
    others keep their order; the buffer is no longer busy, its waiters are
    woken, and no other buffer, nor the disk, changes. *)
Theorem brelse_mru s l b :
  dll s l → c_lock s = false → (b < NBUF)%nat → busy s b = true →
  wp (brelse b) (λ _ s', dll s' (b :: filter (λ j, j ≠ b) l) ∧ c_lock s' = false ∧
    busy s' b = false ∧ c_disk s' = c_disk s ∧ c_woken s' = c_woken s ++ [ChBuf b] ∧
    ∀ j, j ≠ b → core s' j = core s j) s.
Proof.
  intros Hd Hlk Hb Hbz. assert (Hin : b ∈ l) by by apply (dll_elem s l).
  destruct (dll_head_notin _ _ Hd) as (_ & _ & [_ Hnd]%NoDup_cons).
  apply list_elem_of_split in Hin as (l1 & l2 & ->).
  assert (E : filter (λ j, j ≠ b) (l1 ++ b :: l2) = l1 ++ l2).
  { apply NoDup_app in Hnd as (_ & H1 & [H2 _]%NoDup_cons).
    rewrite filter_app, filter_cons_False by naive_solver. f_equal; apply filter_ne_notin; set_solver. }
  rewrite E. apply (brelse_run s l1 b l2); [done..|]. intros s' Hd' Hlk' Hdk Hw Hc.
  split_and!; try done.
  - pose proof (Hc b) as Hcb. rewrite Nat.eqb_refl in Hcb. unfold busy.
    unfold core in Hcb. injection Hcb as -> _ _ _. unfold has.
    rewrite <- Z.land_assoc, (Z.land_comm (Z.lnot _)), Z.land_lnot_diag. by rewrite Z.land_0_r.
  - intros j Hj. rewrite Hc. by rewrite (proj2 (Nat.eqb_neq _ _)).
Qed.

(** C4: The cache is coherent.  Whenever a sector is free to be read and fewer
    than NBUF sectors are pinned (or the sector is one of them), [bread] returns
    a buffer that the caller now holds, with the contents that were last stored
    to that sector through the cache or the disk; what any other sector reads as,
    the disk, and the pinned sectors stay as they are. *)
Theorem bread_coherent s x :
  bio_inv s → 0 ≤ x < d_size (c_disk s) → x ∉ pins_of (bio_held s) ∅ →
  x ∈ bio_dirty s ∨ (size (pins_of (bio_held s) (bio_dirty s)) < NBUF)%nat →
  wp (bread ROOTDEV x) (λ b s', bio_inv s' ∧ b_bytes (c_buf s' b) = bio_view s x ∧
    b_sector (c_buf s' b) = x ∧ bio_held s !! b = None ∧
    bio_held s' = <[b := x]> (bio_held s) ∧ bio_dirty s' = bio_dirty s ∧
    (∀ y, bio_view s' y = bio_view s y) ∧ (∀ y, d_img (c_disk s') y = d_img (c_disk s) y) ∧
    d_log (c_disk s') = d_log (c_disk s)) s.
Proof.
  intros Hi Hx Hp Hroom. eapply wp_mono; [by apply bio_bread_spec|].
  intros b s' (Hi' & _ & Hv & Hd & Hl & Hdi & Hn & Hh).
  assert (Hb : bio_held s' !! b = Some x) by (by rewrite Hh, lookup_insert_eq).
  destruct (held_facts s' b x Hi' Hb) as (_ & _ & Hsec & _ & _ & _ & Hvw & _).
  split_and!; try done. by rewrite <- Hvw, Hv.
Qed.

(** ** A sample cache *)

Definition blank_disk : disk := mkDisk 100 (λ _, zero_block) [].
Definition fresh_bio : bio := after binit (boot_bio blank_disk).

Lemma fresh_bio_ok :
  bio_inv fresh_bio ∧ dll fresh_bio (rev (seq 0 NBUF)) ∧ c_disk fresh_bio = blank_disk ∧
  bio_held fresh_bio = ∅ ∧ bio_dirty fresh_bio = ∅.
Proof.
  destruct (wp_after _ _ _ (binit_ok blank_disk (λ _, zero_block_ok))) as [_ H].
  destruct H as (H1 & H2 & H3 & H4 & H5 & _). exact (conj H1 (conj H2 (conj H3 (conj H4 H5)))).
Qed.

Lemma fresh_bio_room x :
  0 ≤ x < 100 → 0 ≤ x < d_size (c_disk fresh_bio) ∧ x ∉ pins_of (bio_held fresh_bio) ∅ ∧
  (x ∈ bio_dirty fresh_bio ∨ (size (pins_of (bio_held fresh_bio) (bio_dirty fresh_bio)) < NBUF)%nat).
Proof.
  intros Hx. destruct fresh_bio_ok as (_ & _ & Hd & Hh & Hdi). rewrite Hd, Hh, Hdi.
  split_and!; [simpl; lia..| |].
  - rewrite elem_of_pins. intros [[b Hb]|Hb]; [by rewrite lookup_empty in Hb|by apply elem_of_empty in Hb].
  - right. vm_compute. lia.
Qed.

Lemma bread_coherent_witness :
  wp (bread ROOTDEV 7) (λ b s', bio_inv s' ∧ b_bytes (c_buf s' b) = bio_view fresh_bio 7 ∧
    b_sector (c_buf s' b) = 7 ∧ bio_held fresh_bio !! b = None ∧
    bio_held s' = <[b := 7]> (bio_held fresh_bio) ∧ bio_dirty s' = bio_dirty fresh_bio ∧
    (∀ y, bio_view s' y = bio_view fresh_bio y) ∧
    (∀ y, d_img (c_disk s') y = d_img (c_disk fresh_bio) y) ∧
    d_log (c_disk s') = d_log (c_disk fresh_bio)) fresh_bio.
Proof.
  destruct (fresh_bio_room 7 ltac:(lia)) as (H1 & H2 & H3).
  exact (bread_coherent fresh_bio 7 (proj1 fresh_bio_ok) H1 H2 H3).
Defined.

Lemma bget_lru_witness :
  bget ROOTDEV 7 fresh_bio = lru_get (rev (seq 0 NBUF)) ROOTDEV 7 fresh_bio.
Proof.
  destruct fresh_bio_ok as ((Hl & _) & Hd & _).
  exact (bget_lru fresh_bio (rev (seq 0 NBUF)) ROOTDEV 7 Hd Hl).
Defined.

Lemma brelse_mru_witness : ∃ s l b, busy s b = true ∧
  wp (brelse b) (λ _ s', dll s' (b :: filter (λ j, j ≠ b) l) ∧ c_lock s' = false ∧
    busy s' b = false ∧ c_disk s' = c_disk s ∧ c_woken s' = c_woken s ++ [ChBuf b] ∧
    ∀ j, j ≠ b → core s' j = core s j) s.
Proof.
  destruct (fresh_bio_room 7 ltac:(lia)) as (H1 & H2 & H3).
  pose proof (bio_bread_spec fresh_bio 7 (proj1 fresh_bio_ok) H1 H2 H3) as H.
  destruct (proj1 (wp_ok _ _ _) H) as (b & s & _ & Hi & _ & _ & _ & _ & _ & _ & Hh).
  assert (Hb : bio_held s !! b = Some 7) by (rewrite Hh; apply lookup_insert_eq).
  destruct (held_facts s b 7 Hi Hb) as (Hlt & _ & _ & Hbz & _).
  destruct Hi as (Hl & (l & Hd) & _). exists s, l, b. split; [exact Hbz|].
  exact (brelse_mru s l b Hd Hl Hlt Hbz).
Defined.
