(* ===== verification/Log.v ===== *)
(** * The write-ahead log (log.c)

    One transaction at a time: [begin_trans] takes the log, [log_write] copies
    a modified block to the log area of the disk and pins it in the cache,
    [commit_trans] writes the header (the commit point), installs the blocks
    at their home sectors and clears the header.  [recover_from_log] replays a
    committed header after a crash.

    The log is a client of the buffer cache through [BufOps]; its theorems use
    the promises of [BufCache] only. *)

From stdpp Require Import base numbers list strings gmap.
From Stdlib Require Import ZArith Lia.
From S2P Require Import Prelude Blocks.

#[local] Open Scope Z_scope.

(** [struct log] with its [struct logheader]; [l_woken] records the wakeups
    -- src/log.c:36-49 *)
Record log := mkLog {
  l_lock : bool;
  l_start : Z;
  l_size : Z;
  l_busy : Z;
  l_dev : Z;
  l_n : Z;
  l_sector : list Z;
  l_woken : list chan;
}.

(** The log together with the cache it writes through. *)
Record lst (S : Type) := mkLst { ls_bio : S; ls_log : log }.
Arguments mkLst {S} _ _.
Arguments ls_bio {S} _.
Arguments ls_log {S} _.

Definition set_llock (v : bool) (l : log) : log :=
  mkLog v (l_start l) (l_size l) (l_busy l) (l_dev l) (l_n l) (l_sector l) (l_woken l).
Definition set_busy (v : Z) (l : log) : log :=
  mkLog (l_lock l) (l_start l) (l_size l) v (l_dev l) (l_n l) (l_sector l) (l_woken l).
Definition set_n (v : Z) (l : log) : log :=
  mkLog (l_lock l) (l_start l) (l_size l) (l_busy l) (l_dev l) v (l_sector l) (l_woken l).
Definition set_sector (v : list Z) (l : log) : log :=
  mkLog (l_lock l) (l_start l) (l_size l) (l_busy l) (l_dev l) (l_n l) v (l_woken l).
Definition set_geometry (start size dev : Z) (l : log) : log :=
  mkLog (l_lock l) start size (l_busy l) dev (l_n l) (l_sector l) (l_woken l).
Definition add_lwoken (c : chan) (l : log) : log :=
  mkLog (l_lock l) (l_start l) (l_size l) (l_busy l) (l_dev l) (l_n l) (l_sector l) (l_woken l ++ [c]).

(** Static storage before [initlog]. *)
Definition bss_log : log := mkLog false 0 0 0 0 0 (replicate LOGSIZE 0) [].

Section code.
Context {S : Type} {BO : BufOps S}.

Definition lift {A} (m : M S A) : M (lst S) A :=
  zoom ls_bio (λ b s, mkLst b (ls_log s)) m.
Definition lget {A} (f : log → A) : M (lst S) A := gets (λ s, f (ls_log s)).
Definition lmod (f : log → log) : M (lst S) unit := modify (λ s, mkLst (ls_bio s) (f (ls_log s))).
Definition log_acquire : M (lst S) unit :=
  acquire (λ s, l_lock (ls_log s)) (λ v s, mkLst (ls_bio s) (set_llock v (ls_log s))).
Definition log_release : M (lst S) unit :=
  release (λ s, l_lock (ls_log s)) (λ v s, mkLst (ls_bio s) (set_llock v (ls_log s))).

(** [log.lh.sector[i]], an array of [LOGSIZE] entries -- src/log.c:38-38 *)
Definition lh_get (i : nat) : M (lst S) Z :=
  o ← lget (λ l, l_sector l !! i);
  match o with Some v => mret v | None => fault "log.lh.sector: index out of bounds" end.
Definition lh_set (i : nat) (v : Z) : M (lst S) unit :=
  n ← lget (λ l, length (l_sector l));
  if (i <? n)%nat then lmod (λ l, set_sector (<[i := v]> (l_sector l)) l)
  else fault "log.lh.sector: index out of bounds".

(** Copy committed blocks from the log to their home location -- src/log.c:68-82 *)
Definition install_trans : M (lst S) unit :=
  n ← lget l_n;
  for_each (seq 0 (Z.to_nat n)) (λ tail,
    dev ← lget l_dev;
    start ← lget l_start;
    lbuf ← lift (bread dev (start + Z.of_nat tail + 1));
    x ← lh_get tail;
    dbuf ← lift (bread dev x);
    d ← lift (buf_data lbuf);
    lift (buf_set_data dbuf d);;
    lift (bwrite dbuf);;
    lift (brelse lbuf);;
    lift (brelse dbuf)).

(** [lh->n] and [lh->sector[i]] of a header block -- src/log.c:36-39 *)
Definition hdr_n (d : block) : Z := s32 (get_u32 0 d).
Definition hdr_sector (i : nat) (d : block) : Z := get_u32 (4 + 4 * i) d.

(** src/log.c:84-96 *)
Definition read_head : M (lst S) unit :=
  dev ← lget l_dev;
  start ← lget l_start;
  buf ← lift (bread dev start);
  d ← lift (buf_data buf);
  lmod (set_n (hdr_n d));;
  n ← lget l_n;
  for_each (seq 0 (Z.to_nat n)) (λ i, lh_set i (hdr_sector i d));;
  lift (brelse buf).

(** src/log.c:98-113 *)
Definition write_head : M (lst S) unit :=
  dev ← lget l_dev;
  start ← lget l_start;
  buf ← lift (bread dev start);
  n ← lget l_n;
  d ← lift (buf_data buf);
  lift (buf_set_data buf (put_u32 0 n d));;
  for_each (seq 0 (Z.to_nat n)) (λ i,
    x ← lh_get i;
    d ← lift (buf_data buf);
    lift (buf_set_data buf (put_u32 (4 + 4 * i) x d)));;
  lift (bwrite buf);;
  lift (brelse buf).

(** src/log.c:115-122 *)
Definition recover_from_log : M (lst S) unit :=
  read_head;;
  install_trans;;
  lmod (set_n 0);;
  write_head.

(** The size of [struct logheader] is [4 + 4 * LOGSIZE] -- src/log.c:53-66 *)
Definition initlog : M (lst S) unit :=
  if (BSIZE <=? 4 + 4 * LOGSIZE)%nat then panic "initlog: too big logheader" else
  lmod (set_llock false);;
  sb ← lift (readsb ROOTDEV);
  lmod (set_geometry (s32 (sb_size sb - sb_nlog sb)) (s32 (sb_nlog sb)) ROOTDEV);;
  recover_from_log.

(** A process that finds the log busy sleeps and tries again when woken
    -- src/log.c:124-133 *)
Definition begin_trans : M (lst S) unit :=
  log_acquire;;
  busy ← lget l_busy;
  if negb (busy =? 0) then park ChLog (λ s, mkLst (ls_bio s) (set_llock false (ls_log s)))
  else lmod (set_busy 1);; log_release.

(** src/log.c:135-149 *)
Definition commit_trans : M (lst S) unit :=
  n ← lget l_n;
  (if n >? 0 then
     write_head;;
     install_trans;;
     lmod (set_n 0);;
     write_head
   else mret tt);;
  log_acquire;;
  lmod (set_busy 0);;
  lmod (add_lwoken ChLog);;
  log_release.

(** [for (i = 0; i < log.lh.n; i++) if (log.lh.sector[i] == b->sector) break;]
    -- src/log.c:169-172 *)
Fixpoint find_slot (k i : nat) (x : Z) : M (lst S) nat :=
  match k with
  | O => mret i
  | Datatypes.S k =>
      y ← lh_get i;
      if y =? x then mret i else find_slot k (Datatypes.S i) x
  end.

(** src/log.c:151-181 *)
Definition log_write (b : nat) : M (lst S) unit :=
  n ← lget l_n;
  size ← lget l_size;
  if (n >=? Z.of_nat LOGSIZE) || (n >=? size - 1) then panic "too big a transaction" else
  busy ← lget l_busy;
  if busy =? 0 then panic "write outside of trans" else
  x ← lift (buf_sector b);
  i ← find_slot (Z.to_nat n) 0 x;
  lh_set i x;;
  dev ← lift (buf_dev b);
  start ← lget l_start;
  lbuf ← lift (bread dev (start + Z.of_nat i + 1));
  d ← lift (buf_data b);
  lift (buf_set_data lbuf d);;
  lift (bwrite lbuf);;
  lift (brelse lbuf);;
  (if Z.of_nat i =? n then lmod (set_n (n + 1)) else mret tt);;
  lift (buf_set_dirty b).

(** The documented use of the log by one block update, and a whole transaction
    of such updates. *)
Definition update_block (x : Z) (v : block) : M (lst S) unit :=
  b ← lift (bread ROOTDEV x);
  lift (buf_set_data b v);;
  log_write b;;
  lift (brelse b).

Definition transaction (ups : list (Z * block)) : M (lst S) unit :=
  begin_trans;;
  for_each ups (λ '(x, v), update_block x v);;
  commit_trans.
End code.

(** ** What the disk means: the committed log replayed *)

Definition hdr_list (d : block) : list Z :=
  (λ i, hdr_sector i d) <$> seq 0 (Z.to_nat (hdr_n d)).

(** The header block records exactly the sectors [L]. *)
Definition hdr_is (hb : block) (L : list Z) : Prop :=
  hdr_n hb = Z.of_nat (length L) ∧ hdr_list hb = L.

(** A header that recovery can act on: its blocks are in the log area, their
    sectors outside it. *)
Definition hdr_valid (start size : Z) (hb : block) : Prop :=
  0 ≤ hdr_n hb ≤ Z.of_nat LOGSIZE ∧ hdr_n hb < size ∧ Forall (λ x, 0 ≤ x < start) (hdr_list hb).

(** The installs that a header with sectors [L] asks for. *)
Definition installs (start : Z) (L : list Z) (d : Z → block) : list (Z * block) :=
  imap (λ i x, (x, d (start + Z.of_nat i + 1))) L.

(** The disk as recovery will see it. *)
Definition replay (start : Z) (d : Z → block) : Z → block :=
  apply_writes d (installs start (hdr_list (d start)) d).

Lemma installs_app start L x d :
  installs start (L ++ [x]) d = installs start L d ++ [(x, d (start + Z.of_nat (length L) + 1))].
Proof. unfold installs. rewrite imap_app. simpl. by rewrite Nat.add_0_r. Qed.

Lemma installs_keys start L d : (installs start L d).*1 = L.
Proof.
  apply list_eq. intros i. unfold installs. rewrite list_lookup_fmap, list_lookup_imap.
  by destruct (L !! i).
Qed.

Lemma installs_ext start L d d' :
  (∀ i, (i < length L)%nat → d (start + Z.of_nat i + 1) = d' (start + Z.of_nat i + 1)) →
  installs start L d = installs start L d'.
Proof.
  intros Hd. apply imap_ext. intros i x Hi. simpl. rewrite Hd; [done|].
  by apply lookup_lt_Some in Hi.
Qed.

Lemma keys_other (ws : list (Z * block)) y : y ∉ ws.*1 → Forall (λ w, w.1 ≠ y) ws.
Proof.
  intros Hy. apply Forall_forall. intros w Hw <-. apply Hy. by apply list_elem_of_fmap_2.
Qed.

(** Writes are overwritten by later ones to the same sectors. *)
Lemma apply_writes_absorb d ws ws' y :
  (∀ x, x ∈ ws.*1 → x ∈ ws'.*1) →
  apply_writes (apply_writes d ws) ws' y = apply_writes d ws' y.
Proof.
  intros Hsub. destruct (decide (y ∈ ws'.*1)) as [Hin|Hni].
  - clear Hsub. generalize (apply_writes d ws). intros d'. revert d d'.
    induction ws' as [|[x u] ws' IH]; intros d d'; [by apply elem_of_nil in Hin|]. simpl.
    destruct (decide (y ∈ ws'.*1)) as [Hin'|Hni']; [by apply IH|].
    rewrite !apply_writes_other by by apply keys_other.
    apply elem_of_cons in Hin as [->|]; [|done]. simpl. by rewrite !disk_upd_eq.
  - rewrite !(apply_writes_other _ ws') by by apply keys_other.
    apply apply_writes_other, keys_other. set_solver.
Qed.

(** The installs set their sectors to the log's copies. *)
Lemma apply_installs start L d f i x :
  NoDup L → L !! i = Some x →
  apply_writes d (installs start L f) x = f (start + Z.of_nat i + 1).
Proof.
  intros Hnd Hi. destruct (list_elem_of_split_length _ _ _ Hi) as (L1 & L2 & -> & ->).
  apply NoDup_app in Hnd as (_ & Hd & Hnd). apply NoDup_cons in Hnd as [Hx _].
  unfold installs. rewrite imap_app. simpl. rewrite apply_writes_app. simpl.
  rewrite Nat.add_0_r, apply_writes_other, disk_upd_eq; [done|].
  apply keys_other. rewrite fmap_imap. intros Hc.
  apply elem_of_lookup_imap in Hc as (j & y & -> & Hy). simpl in *.
  by apply list_elem_of_lookup_2 in Hy.
Qed.

Lemma apply_installs_other start L d f y :
  y ∉ L → apply_writes d (installs start L f) y = d y.
Proof. intros Hy. apply apply_writes_other, keys_other. by rewrite installs_keys. Qed.

(** ** Crash points

    [agree start d d']: the same file system, below the log area. *)
Definition agree (start : Z) (d d' : Z → block) : Prop := ∀ y, y < start → d y = d' y.

(** The disk is one that recovery brings to [old] or to [new]. *)
Definition crash_ok (start size : Z) (d old new : Z → block) : Prop :=
  hdr_valid start size (d start) ∧
  (agree start (replay start d) old ∨ agree start (replay start d) new).

Lemma hdr_is_valid start size hb L :
  hdr_is hb L → (length L ≤ LOGSIZE)%nat → Z.of_nat (length L) < size →
  Forall (λ x, 0 ≤ x < start) L → hdr_valid start size hb.
Proof. intros [Hn HL] ???. unfold hdr_valid. rewrite HL, Hn. split_and!; [lia..|done]. Qed.

Lemma replay_empty start d : hdr_list (d start) = [] → replay start d = d.
Proof. intros E. unfold replay. by rewrite E. Qed.

(** Installing part of a committed log does not change what it replays to. *)
Lemma replay_partial start d L k :
  hdr_list (d start) = L → Forall (λ x, x < start) L →
  replay start (apply_writes d (take k (installs start L d))) =
    apply_writes (apply_writes d (take k (installs start L d))) (installs start L d) ∧
  ∀ y, replay start (apply_writes d (take k (installs start L d))) y = replay start d y.
Proof.
  intros HL Hlt.
  assert (Hk : ∀ x, x ∈ (take k (installs start L d)).*1 → x ∈ L).
  { intros x. rewrite <- (installs_keys start L d) at 2. rewrite fmap_take.
    intros (i & Hi & _)%elem_of_take. apply list_elem_of_lookup. eauto. }
  assert (Hhi : ∀ y, start ≤ y → apply_writes d (take k (installs start L d)) y = d y).
  { intros y Hy. apply apply_writes_other, keys_other. intros Hin%Hk.
    rewrite Forall_forall in Hlt. apply Hlt in Hin. lia. }
  assert (E : replay start (apply_writes d (take k (installs start L d))) =
    apply_writes (apply_writes d (take k (installs start L d))) (installs start L d)).
  { unfold replay. rewrite Hhi, HL by lia. f_equal. apply installs_ext.
    intros i _. apply Hhi. lia. }
  split; [done|]. intros y. rewrite E. unfold replay. rewrite HL.
  apply apply_writes_absorb. intros x Hx. rewrite installs_keys. by apply Hk.
Qed.

Lemma replay_installed start d L hb0 :
  hdr_list (d start) = L → hdr_list hb0 = [] → Forall (λ x, x < start) L →
  agree start (replay start (disk_upd (apply_writes d (installs start L d)) start hb0))
    (replay start d).
Proof.
  intros HL H0 Hlt y Hy. rewrite replay_empty by by rewrite disk_upd_eq.
  rewrite disk_upd_ne by lia. unfold replay. by rewrite HL.
Qed.

(** The writes of [commit_trans] leave, at every crash point, a disk that
    replays to the old or to the new file system. *)
Lemma commit_writes_atomic start size d L hb hb0 k :
  hdr_is (d start) [] → hdr_is hb L → hdr_is hb0 [] →
  (length L ≤ LOGSIZE)%nat → Z.of_nat (length L) < size → Forall (λ x, 0 ≤ x < start) L →
  let iw := installs start L d in
  let cs := (start, hb) :: iw ++ [(start, hb0)] in
  crash_ok start size (apply_writes d (take k cs)) d (apply_writes d iw).
Proof.
  intros Hd Hhb Hhb0 Hlen Hsz HL iw cs. destruct k as [|k]; simpl.
  { split; [eapply hdr_is_valid; [done|simpl; lia..|done]|]. left. intros y _.
    by rewrite replay_empty by apply Hd. }
  set (d1 := disk_upd d start hb).
  assert (Hlt : Forall (λ x, x < start) L) by (eapply Forall_impl; [exact HL|simpl; lia]).
  assert (Hd1 : hdr_list (d1 start) = L) by (unfold d1; rewrite disk_upd_eq; apply Hhb).
  assert (Eiw : iw = installs start L d1).
  { apply installs_ext. intros i _. unfold d1. rewrite disk_upd_ne by lia. done. }
  assert (Hnew : agree start (replay start d1) (apply_writes d iw)).
  { intros y Hy. unfold replay. rewrite Hd1, <- Eiw. apply apply_writes_at.
    unfold d1. apply disk_upd_ne. lia. }
  unfold crash_ok. rewrite take_app, apply_writes_app.
  destruct (decide (k ≤ length iw)%nat).
  - replace (k - length iw)%nat with 0%nat by lia. simpl. split.
    + rewrite apply_writes_other; [unfold d1; rewrite disk_upd_eq; by eapply hdr_is_valid|].
      apply Forall_take, keys_other. unfold iw. rewrite installs_keys.
      rewrite Forall_forall in Hlt. intros ?%Hlt. lia.
    + right. intros y Hy. rewrite <- Hnew by done. rewrite Eiw.
      by apply (proj2 (replay_partial start d1 L k Hd1 Hlt)).
  - rewrite (take_ge iw), (take_ge [_]) by (simpl; lia). simpl. split.
    + rewrite disk_upd_eq. eapply hdr_is_valid; [done|simpl; lia..|done].
    + right. intros y Hy. rewrite <- Hnew by done. rewrite Eiw.
      apply replay_installed; [done|apply Hhb0|done..].
Qed.

(** The installs bring the logged blocks to what their writers saw. *)
Lemma installs_view start L (d v : Z → block) :
  NoDup L → (∀ i x, L !! i = Some x → d (start + Z.of_nat i + 1) = v x) →
  (∀ y, y < start → y ∉ L → d y = v y) →
  agree start (apply_writes d (installs start L d)) v.
Proof.
  intros Hnd Hlog Hcl y Hy. destruct (decide (y ∈ L)) as [(i & Hi)%list_elem_of_lookup|Hni].
  - rewrite (apply_installs _ _ _ _ i) by done. by apply Hlog.
  - rewrite apply_installs_other by done. by apply Hcl.
Qed.

(** ** Header blocks *)

Lemma hdr_list_intro d L :
  (length L ≤ LOGSIZE)%nat → get_u32 0 d = Z.of_nat (length L) →
  (∀ i x, L !! i = Some x → get_u32 (4 + 4 * i) d = x) → hdr_list d = L.
Proof.
  intros Hlen Hn Hx. unfold hdr_list, hdr_n. rewrite Hn, s32_small by (unfold LOGSIZE in *; lia).
  rewrite Nat2Z.id. apply list_eq_same_length with (n := length L); [done|by rewrite length_fmap, length_seq|].
  intros i x y Hi H1 H2. rewrite list_lookup_fmap, lookup_seq_lt in H1 by done.
  simplify_eq/=. by apply Hx.
Qed.

Section specs.
Context {S : Type} {BO : BufOps S} {BC : BufCache S}.
Implicit Types (B : S) (l : log).

Lemma wp_lift {A} (m : M S A) (Q : A → lst S → Prop) B l :
  wp m (λ a B', Q a (mkLst B' l)) B → wp (lift m) Q (mkLst B l).
Proof. intros Hm. by apply wp_zoom. Qed.

Lemma wp_lget {A} (f : log → A) (Q : A → lst S → Prop) B l :
  Q (f l) (mkLst B l) → wp (lget f) Q (mkLst B l).
Proof. done. Qed.

Lemma wp_lmod (f : log → log) (Q : unit → lst S → Prop) B l :
  Q tt (mkLst B (f l)) → wp (lmod f) Q (mkLst B l).
Proof. done. Qed.

Lemma wp_lh_get i x (Q : Z → lst S → Prop) B l :
  l_sector l !! i = Some x → Q x (mkLst B l) → wp (lh_get i) Q (mkLst B l).
Proof. intros Hi HQ. unfold lh_get. apply wp_bind, wp_lget. rewrite Hi. by apply wp_ret. Qed.

Lemma wp_lh_set i x (Q : unit → lst S → Prop) B l :
  (i < length (l_sector l))%nat →
  Q tt (mkLst B (set_sector (<[i := x]> (l_sector l)) l)) → wp (lh_set i x) Q (mkLst B l).
Proof.
  intros Hi HQ. unfold lh_set. apply wp_bind, wp_lget.
  rewrite (proj2 (Nat.ltb_lt _ _)) by done. by apply wp_lmod.
Qed.

#[local] Ltac step :=
  repeat (lazymatch goal with
    | |- wp (mbind _ _) _ _ => apply wp_bind
    | |- wp (mret _) _ _ => apply wp_ret
    | |- wp (lget _) _ _ => apply wp_lget
    | |- wp (lmod _) _ _ => apply wp_lmod
    | |- wp (lift _) _ _ => apply wp_lift
    end; cbn beta).

(** The log is at [start] with [size] blocks and nobody is inside its lock. *)
Definition log_geom (l : log) (start size : Z) : Prop :=
  l_lock l = false ∧ l_start l = start ∧ l_size l = size ∧ l_dev l = ROOTDEV ∧
  length (l_sector l) = LOGSIZE.

(** Moreover [log.lh] holds the sectors [L]. *)
Definition log_at (l : log) (start size : Z) (L : list Z) : Prop :=
  log_geom l start size ∧ l_n l = Z.of_nat (length L) ∧
  (length L ≤ LOGSIZE)%nat ∧ take (length L) (l_sector l) = L.

Lemma log_at_sector l start size L i x :
  log_at l start size L → L !! i = Some x → l_sector l !! i = Some x.
Proof.
  intros (_&_&_&HL) Hi. rewrite <- HL in Hi.
  by apply lookup_take_Some in Hi as [? _].
Qed.

(** The header block with its count and the first [k] of the sectors in place. *)
Definition hdr_prefix (L : list Z) (k : nat) (hb : block) : Prop :=
  is_block hb ∧ get_u32 0 hb = Z.of_nat (length L) ∧
  ∀ i x, (i < k)%nat → L !! i = Some x → get_u32 (4 + 4 * i) hb = x.

Lemma hdr_prefix_0 L b :
  is_block b → (length L ≤ LOGSIZE)%nat →
  hdr_prefix L 0 (put_u32 0 (Z.of_nat (length L)) b).
Proof.
  intros Hb Hlen. split_and!; [|rewrite get_put_u32_same|lia].
  - apply put_u32_block; [unfold BSIZE; lia|done].
  - apply w32_small. unfold LOGSIZE in *. lia.
  - rewrite Hb. unfold BSIZE. lia.
Qed.

Lemma hdr_prefix_step L k x b :
  hdr_prefix L k b → L !! k = Some x → (length L ≤ LOGSIZE)%nat → 0 ≤ x < 2^32 →
  hdr_prefix L (Datatypes.S k) (put_u32 (4 + 4 * k) x b).
Proof.
  intros (Hb & Hn & Hpre) Hx Hlen Hr. pose proof (lookup_lt_Some _ _ _ Hx).
  assert (Hoff : (4 + 4 * k + 4 ≤ BSIZE)%nat) by (unfold LOGSIZE, BSIZE in *; lia).
  assert (Hlb : length b = BSIZE) by done.
  split_and!; [by apply put_u32_block|by rewrite get_put_u32_other by lia|].
  intros j y Hj Hy. destruct (decide (j = k)) as [->|].
  - rewrite get_put_u32_same by lia. simplify_eq. by apply w32_small.
  - rewrite get_put_u32_other by lia. apply Hpre; [lia|done].
Qed.

Lemma hdr_prefix_full L b :
  hdr_prefix L (length L) b → (length L ≤ LOGSIZE)%nat → hdr_is b L.
Proof.
  intros (_ & Hn & Hpre) Hlen. split.
  { unfold hdr_n. rewrite Hn. apply s32_small. unfold LOGSIZE in *. lia. }
  apply hdr_list_intro; [done..|].
  intros i x Hi. apply Hpre; [by apply lookup_lt_Some in Hi|done].
Qed.

Lemma write_head_run B l n v d ws D start size L (Q : unit → lst S → Prop) :
  blk B n v d ws D ∅ → log_at l start size L → Forall (λ x, 0 ≤ x < 2^32) L →
  0 ≤ start < n → start ∉ D → (base.size D < NBUF)%nat →
  (∀ B' hb, is_block hb → hdr_is hb L →
     blk B' n (disk_upd v start hb) (disk_upd d start hb) (ws ++ [(start, hb)]) D ∅ →
     Q tt (mkLst B' l)) →
  wp write_head Q (mkLst B l).
Proof.
  intros HB Hl HL Hstart HD Hroom HQ. pose proof Hl as ((_&Es&_&Ed&_)&En&Hlen&_).
  unfold write_head. step. rewrite Es, Ed.
  eapply blk_bread; [done|done|by intros; rewrite lookup_empty|right; rewrite map_size_empty; lia|].
  intros b B1 _ HB1. step. eapply blk_data; [done|apply lookup_insert_eq|]. step.
  pose proof (hdr_prefix_0 L (v start) (blk_view_block _ _ _ _ _ _ _ _ HB) Hlen) as Hp0.
  rewrite En, Nat2Z.id.
  eapply blk_set_data; [done|apply lookup_insert_eq|apply Hp0|]. intros B2 HB2. step.
  eapply wp_for_each with (I := λ todo s', ∃ B' k hb,
    s' = mkLst B' l ∧ todo = seq k (length L - k) ∧ (k ≤ length L)%nat ∧
    hdr_prefix L k hb ∧ blk B' n (disk_upd v start hb) d ws D (<[b:=start]> ∅)).
  - eexists B2, 0%nat, _. split_and!; [done|by rewrite Nat.sub_0_r|lia|done..].
  - intros i todo s' (B' & k & hb & -> & Hseq & Hk & Hhb & HB').
    destruct (length L - k)%nat as [|m] eqn:Em; simplify_eq/=.
    destruct (lookup_lt_is_Some_2 L k ltac:(lia)) as [x HLk].
    apply wp_bind. eapply wp_lh_get; [by eapply log_at_sector|]. step.
    eapply blk_data; [done|apply lookup_insert_eq|]. step. rewrite disk_upd_eq.
    pose proof (hdr_prefix_step _ _ _ _ Hhb HLk Hlen (Forall_lookup_1 _ _ _ _ HL HLk)) as Hp.
    eapply blk_set_data; [done|apply lookup_insert_eq|apply Hp|].
    intros B3 HB3. eexists B3, (Datatypes.S k), _.
    split_and!; [done|f_equal; lia|lia|done|].
    eapply blk_ext; [done| |done]. intros y. unfold disk_upd. by case_match.
  - intros s' (B' & k & hb & -> & Hseq & Hk & Hhb & HB'). step.
    destruct (length L - k)%nat as [|m] eqn:Em; [|done].
    replace k with (length L) in Hhb by lia.
    eapply blk_bwrite; [done|apply lookup_insert_eq|]. intros B3 HB3. step.
    eapply blk_brelse; [done|apply lookup_insert_eq|right; by rewrite !disk_upd_eq|].
    intros B4 HB4. apply (HQ B4 hb); [apply Hhb|by apply hdr_prefix_full|].
    rewrite !disk_upd_eq in HB4.
    by rewrite delete_insert_id, difference_disjoint_L in HB4 by set_solver.
Qed.
Lemma apply_writes_snoc d ws x u y :
  apply_writes d (ws ++ [(x, u)]) y = disk_upd (apply_writes d ws) x u y.
Proof. by rewrite apply_writes_app. Qed.

Lemma installs_take start L d k x :
  L !! k = Some x →
  installs start (take (Datatypes.S k) L) d =
    installs start (take k L) d ++ [(x, d (start + Z.of_nat k + 1))].
Proof.
  intros Hk. pose proof (lookup_lt_Some _ _ _ Hk).
  rewrite (take_S_r _ _ _ Hk), installs_app, length_take_le by lia. done.
Qed.

(** What the dirty set may be when the log is installed: empty in recovery,
    the logged blocks in a commit. *)
Definition installable (L : list Z) (D : gset Z) : Prop :=
  D = ∅ ∨ (D = list_to_set L ∧ NoDup L ∧ (length L < NBUF)%nat).

Lemma installable_sub L D x : installable L D → x ∈ D → x ∈ L.
Proof. intros [->|(-> & _)]; set_solver. Qed.

Lemma installable_size L D : installable L D → (base.size D < NBUF)%nat.
Proof.
  intros [->|(-> & ? & ?)]; [rewrite size_empty; unfold NBUF; lia|].
  by rewrite size_list_to_set.
Qed.

(** One round of [install_trans]: block [k] of the log goes to its sector. *)
Lemma install_step B l n v d ws D start size L k x (Q : unit → lst S → Prop) :
  blk B n v d ws D ∅ → log_at l start size L → L !! k = Some x → 0 ≤ x < start →
  start + Z.of_nat k + 1 < n → start + Z.of_nat k + 1 ∉ D → (base.size D < NBUF)%nat →
  x ∈ D ∨ (Datatypes.S (base.size D) < NBUF)%nat →
  (∀ B', let u := d (start + Z.of_nat k + 1) in
     blk B' n (disk_upd v x u) (disk_upd d x u) (ws ++ [(x, u)]) (D ∖ {[x]}) ∅ →
     Q tt (mkLst B' l)) →
  wp (dev ← lget l_dev; start ← lget l_start;
      lbuf ← lift (bread dev (start + Z.of_nat k + 1));
      x ← lh_get k; dbuf ← lift (bread dev x); d ← lift (buf_data lbuf);
      lift (buf_set_data dbuf d);; lift (bwrite dbuf);; lift (brelse lbuf);;
      lift (brelse dbuf)) Q (mkLst B l).
Proof.
  intros HB Hl Hk Hx Hn Hlog Hsz Hroom HQ. pose proof Hl as ((_&Es&_&Ed&_)&_).
  step. rewrite Es, Ed. set (p := start + Z.of_nat k + 1) in *.
  eapply blk_bread; [done|lia|by intros; rewrite lookup_empty|right; rewrite map_size_empty; lia|].
  intros lb B1 _ HB1. apply wp_bind. eapply wp_lh_get; [by eapply log_at_sector|]. step.
  eapply blk_bread; [done|lia| | |].
  { intros b. rewrite lookup_insert_Some, lookup_empty. intros [[_ ?]|[_ ?]]; [lia|done]. }
  { destruct Hroom; [by left|right]. rewrite map_size_insert_None, map_size_empty by done. lia. }
  intros db B2 Hdb HB2. apply lookup_insert_None in Hdb as [_ Hne]. step.
  assert (Hlb : (<[db:=x]> (<[lb:=p]> (∅ : gmap nat Z))) !! lb = Some p).
  { by rewrite lookup_insert_ne, lookup_insert_eq. }
  eapply blk_data; [done|exact Hlb|]. step.
  assert (Hp : v p = d p).
  { eapply blk_clean; [exact HB|done|]. intros b. by rewrite lookup_empty. }
  rewrite Hp. eapply blk_set_data; [done|apply lookup_insert_eq|by eapply blk_disk_block|].
  intros B3 HB3. step. eapply blk_bwrite; [done|apply lookup_insert_eq|].
  intros B4 HB4. step. rewrite !disk_upd_eq in HB4. eapply blk_brelse; [done|exact Hlb| |].
  { right. by rewrite !disk_upd_ne by lia. }
  intros B5 HB5. step. eapply blk_brelse; [done| | |].
  { rewrite lookup_delete_ne by done. apply lookup_insert_eq. }
  { right. by rewrite !disk_upd_eq. }
  intros B6 HB6. apply HQ. simpl.
  by rewrite delete_insert_ne, !delete_insert_eq, !delete_empty in HB6 by done.
Qed.

(** After [k] rounds. *)
Definition installed B n v d ws (D : gset Z) start L k : Prop :=
  let iw := installs start (take k L) d in
  blk B n (apply_writes v iw) (apply_writes d iw) (ws ++ iw) (D ∖ list_to_set (take k L)) ∅.

Lemma installed_room B n v d ws D start L k x :
  installed B n v d ws D start L k → installable L D → L !! k = Some x →
  let D' := D ∖ list_to_set (take k L) in
  (base.size D' < NBUF)%nat ∧ (x ∈ D' ∨ (Datatypes.S (base.size D') < NBUF)%nat).
Proof.
  intros _ HD HLk. split.
  { eapply Nat.le_lt_trans; [|by apply (installable_size L D)]. apply subseteq_size. set_solver. }
  destruct HD as [->|(-> & Hnd & _)].
  - right. replace (∅ ∖ _) with (∅ : gset Z) by set_solver. rewrite size_empty. unfold NBUF. lia.
  - left. apply elem_of_difference. rewrite !elem_of_list_to_set. split.
    { by eapply list_elem_of_lookup_2. }
    intros (j & Hj & Hlt)%elem_of_take.
    pose proof (NoDup_lookup _ _ _ _ Hnd HLk Hj). lia.
Qed.

Lemma installed_next B n v d ws D start L k x :
  L !! k = Some x → start + Z.of_nat k + 1 ∉ L →
  (let iw := installs start (take k L) d in
   let u := apply_writes d iw (start + Z.of_nat k + 1) in
   blk B n (disk_upd (apply_writes v iw) x u) (disk_upd (apply_writes d iw) x u)
     ((ws ++ iw) ++ [(x, u)]) (D ∖ list_to_set (take k L) ∖ {[x]}) ∅) →
  installed B n v d ws D start L (Datatypes.S k).
Proof.
  intros HLk Hout. unfold installed. cbn zeta.
  rewrite (apply_installs_other _ _ d); [|by intros (i & Hi & _)%elem_of_take; apply Hout, list_elem_of_lookup; eauto].
  rewrite (installs_take _ _ _ _ _ HLk), app_assoc, (take_S_r _ _ _ HLk).
  replace (D ∖ list_to_set (take k L ++ [x])) with (D ∖ list_to_set (take k L) ∖ {[x]}) by set_solver.
  intros HB. eapply blk_ext; [exact HB| |]; intros y; by rewrite apply_writes_snoc.
Qed.

Lemma install_trans_run B l n v d ws D start size L (Q : unit → lst S → Prop) :
  blk B n v d ws D ∅ → log_at l start size L → Forall (λ x, 0 ≤ x < start) L →
  installable L D → start + Z.of_nat (length L) < n →
  (∀ B', let iw := installs start L d in
     blk B' n (apply_writes v iw) (apply_writes d iw) (ws ++ iw) ∅ ∅ → Q tt (mkLst B' l)) →
  wp install_trans Q (mkLst B l).
Proof.
  intros HB Hl HL HD Hn HQ. pose proof Hl as (_&En&_).
  assert (Hout : ∀ y, start ≤ y → y ∉ L).
  { intros y Hy Hin. rewrite Forall_forall in HL. apply HL in Hin. lia. }
  unfold install_trans. step. rewrite En, Nat2Z.id.
  eapply wp_for_each with (I := λ todo s', ∃ B' k,
    s' = mkLst B' l ∧ todo = seq k (length L - k) ∧ (k ≤ length L)%nat ∧
    installed B' n v d ws D start L k).
  - exists B, 0%nat. split_and!; [done|by rewrite Nat.sub_0_r|lia|].
    unfold installed. rewrite take_0. cbn. by rewrite app_nil_r, difference_empty_L.
  - intros i todo s' (B' & k & -> & Hseq & Hk & HB').
    destruct (length L - k)%nat as [|m] eqn:Em; simplify_eq/=.
    destruct (lookup_lt_is_Some_2 L k ltac:(lia)) as [x HLk].
    destruct (installed_room _ _ _ _ _ _ _ _ _ _ HB' HD HLk) as [Hr1 Hr2].
    eapply (install_step B' l n _ _ _ _ start size L k x);
      [exact HB'|done|done|exact (Forall_lookup_1 _ _ _ _ HL HLk)|lia| |done|done|].
    + rewrite elem_of_difference. intros [Hin _]. eapply Hout; [|by eapply installable_sub]. lia.
    + intros B2 HB2. exists B2, (Datatypes.S k). split_and!; [done|f_equal; lia|lia|].
      eapply installed_next; [done|apply Hout; lia|done].
  - intros s' (B' & k & -> & Hseq & Hk & HB').
    destruct (length L - k)%nat as [|m] eqn:Em; [|done]. replace k with (length L) in HB' by lia.
    apply HQ. unfold installed in HB'. rewrite firstn_all in HB'. simpl.
    replace (D ∖ list_to_set L) with (∅ : gset Z) in HB'; [done|].
    apply set_eq. intros y. pose proof (installable_sub L D y HD). set_solver.
Qed.
Lemma hdr_list_len d : length (hdr_list d) = Z.to_nat (hdr_n d).
Proof. unfold hdr_list. by rewrite length_fmap, length_seq. Qed.

Lemma hdr_list_lookup d i : (i < Z.to_nat (hdr_n d))%nat → hdr_list d !! i = Some (hdr_sector i d).
Proof. intros Hi. unfold hdr_list. by rewrite list_lookup_fmap, lookup_seq_lt. Qed.

Lemma take_insert_next {A} (l l' : list A) k x :
  take k l = take k l' → (k < length l)%nat → l' !! k = Some x →
  take (Datatypes.S k) (<[k := x]> l) = take (Datatypes.S k) l'.
Proof.
  intros Ht Hk Hx. rewrite (take_S_r l' k x) by done.
  rewrite (take_S_r _ k x) by by rewrite list_lookup_insert_eq.
  by rewrite take_insert_ge, Ht.
Qed.

Lemma read_head_run B l n v d ws start size (Q : unit → lst S → Prop) :
  blk B n v d ws ∅ ∅ → log_geom l start size → 0 ≤ start < n →
  0 ≤ hdr_n (d start) ≤ Z.of_nat LOGSIZE →
  (∀ B' l', blk B' n v d ws ∅ ∅ → log_at l' start size (hdr_list (d start)) →
     l_busy l' = l_busy l → Q tt (mkLst B' l')) →
  wp read_head Q (mkLst B l).
Proof.
  intros HB (Hlk&Es&Esz&Ed&Elen) Hstart Hh HQ. unfold read_head. step. rewrite Es, Ed.
  eapply blk_bread; [done|done|by intros; rewrite lookup_empty|by right; vm_compute; lia|].
  intros b B1 _ HB1. step. eapply blk_data; [done|apply lookup_insert_eq|]. step.
  assert (Ev : v start = d start).
  { eapply blk_clean; [exact HB|set_solver|]. intros ?. by rewrite lookup_empty. }
  rewrite Ev. simpl. pose proof (hdr_list_len (d start)) as Hlen.
  eapply wp_for_each with (I := λ todo s', ∃ k sec,
    s' = mkLst B1 (set_sector sec (set_n (hdr_n (d start)) l)) ∧
    todo = seq k (length (hdr_list (d start)) - k) ∧ (k ≤ length (hdr_list (d start)))%nat ∧
    length sec = LOGSIZE ∧ take k sec = take k (hdr_list (d start))).
  - exists 0%nat, (l_sector l). rewrite Hlen, Nat.sub_0_r. split_and!; [done|done|lia|done|done].
  - intros i todo s' (k & sec & -> & Hseq & Hk & Hsec & Ht). rewrite Hlen in *.
    destruct (Z.to_nat (hdr_n (d start)) - k)%nat as [|m] eqn:Em; [done|].
    injection Hseq as -> ->. apply wp_lh_set; [cbn [set_sector l_sector]; lia|]. exists (Datatypes.S k), (<[k := hdr_sector k (d start)]> sec). split_and!; [done|f_equal; lia|lia| |].
    + by rewrite length_insert.
    + apply take_insert_next; [done|lia|]. apply hdr_list_lookup. lia.
  - intros s' (k & sec & -> & Hseq & Hk & Hsec & Ht). step.
    destruct (length (hdr_list (d start)) - k)%nat as [|m] eqn:Em; [|done].
    replace k with (length (hdr_list (d start))) in Ht by lia. rewrite firstn_all in Ht.
    eapply blk_brelse; [done|apply lookup_insert_eq|by right|].
    intros B2 HB2. rewrite delete_insert_id in HB2 by done. apply HQ; [done| |done].
    split; [done|]. cbn [set_sector set_n l_n l_sector]. split_and!; [lia|unfold LOGSIZE in *; lia|done].
Qed.

Lemma find_slot_run B l start size L k i x (Q : nat → lst S → Prop) :
  log_at l start size L → (k + i = length L)%nat → (∀ j, (j < i)%nat → L !! j ≠ Some x) →
  (∀ j, (j ≤ length L)%nat → (∀ j', (j' < j)%nat → L !! j' ≠ Some x) →
     j = length L ∨ L !! j = Some x → Q j (mkLst B l)) →
  wp (find_slot k i x) Q (mkLst B l).
Proof.
  intros Hl. revert i. induction k as [|k IH]; intros i Hki Hni HQ; simpl.
  - apply wp_ret, HQ; [lia|done|left; lia].
  - destruct (lookup_lt_is_Some_2 L i ltac:(lia)) as [y Hy].
    apply wp_bind. eapply wp_lh_get; [by eapply log_at_sector|]. apply wp_if; intros E.
    + apply Z.eqb_eq in E as ->. apply wp_ret, HQ; [lia|done|by right].
    + apply Z.eqb_neq in E. apply IH; [lia| |done].
      intros j Hj. destruct (decide (j = i)) as [->|]; [congruence|apply Hni; lia].
Qed.
(** The sectors of the transaction after a write to [x]. *)
Definition log_add (x : Z) (L : list Z) : list Z := if bool_decide (x ∈ L) then L else L ++ [x].

(** The header in memory after [log_write] has used slot [i] for [x]. *)
Definition log_slot (i : nat) (x : Z) (l : log) : log :=
  let l := set_sector (<[i := x]> (l_sector l)) l in
  if Z.of_nat i =? l_n l then set_n (l_n l + 1) l else l.

Lemma log_slot_at l start size L i x :
  log_at l start size L → (length L < LOGSIZE)%nat →
  (∀ j, (j < i)%nat → L !! j ≠ Some x) → i = length L ∨ L !! i = Some x →
  log_at (log_slot i x l) start size (log_add x L) ∧ log_add x L !! i = Some x ∧
  l_busy (log_slot i x l) = l_busy l.
Proof.
  intros (Hg & En & Hlen & HL) Hlt Hno Hi. pose proof Hg as (?&?&?&?&Elen).
  unfold log_slot, log_add. simpl. rewrite En.
  destruct (decide (L !! i = Some x)) as [Hix|Hix].
  - pose proof (lookup_lt_Some _ _ _ Hix). rewrite (proj2 (Z.eqb_neq _ _)) by lia.
    rewrite bool_decide_true by (apply list_elem_of_lookup; eauto). split_and!; [|done..].
    assert (Hs : l_sector l !! i = Some x).
    { rewrite <- HL in Hix. by apply lookup_take_Some in Hix as [? _]. }
    rewrite list_insert_id by done. by destruct l.
  - destruct Hi as [->|]; [|done]. rewrite Z.eqb_refl.
    rewrite bool_decide_false.
    2: { intros (j & Hj)%list_elem_of_lookup. apply (Hno j); [by apply lookup_lt_Some in Hj|done]. }
    split_and!; [|by rewrite lookup_app_r, Nat.sub_diag by lia|done].
    unfold log_at, log_geom. simpl. rewrite length_insert, length_app. simpl.
    split_and!; auto; [lia|lia|]. rewrite Nat.add_comm. simpl.
    rewrite (take_S_r _ _ x) by (rewrite list_lookup_insert_eq by lia; done).
    by rewrite take_insert_ge, HL by lia.
Qed.

Lemma log_write_run B l n v d ws H start size L b x (Q : unit → lst S → Prop) :
  blk B n v d ws (list_to_set L) H → log_at l start size L → l_busy l ≠ 0 →
  H !! b = Some x → (∀ b' y, H !! b' = Some y → 0 ≤ y < start) →
  (length L < LOGSIZE)%nat → Z.of_nat (length L) < size - 1 → start + size ≤ n →
  Forall (λ y, 0 ≤ y < start) L → (base.size H + length L < NBUF)%nat →
  (∀ B' l' i, let p := start + Z.of_nat i + 1 in
     blk B' n (disk_upd v p (v x)) (disk_upd d p (v x)) (ws ++ [(p, v x)])
       (list_to_set (log_add x L)) H →
     log_at l' start size (log_add x L) → log_add x L !! i = Some x →
     l_busy l' = l_busy l → Q tt (mkLst B' l')) →
  wp (log_write b) Q (mkLst B l).
Proof.
  intros HB Hl Hbusy Hb HH Hlt Hsz Hn HL Hroom HQ. pose proof Hl as ((_&Es&Esz&_&Elen)&En&_&_).
  pose proof (HH _ _ Hb) as Hx.
  unfold log_write. step. rewrite Esz, En. rewrite !geb_false by lia. cbn [orb]. step.
  rewrite (proj2 (Z.eqb_neq _ _)) by done. step.
  eapply blk_sector; [done|done|]. step. rewrite Nat2Z.id.
  eapply find_slot_run; [done|lia|lia|]. intros i Hi Hno Hor. step.
  apply wp_lh_set; [lia|]. step. eapply blk_dev; [done|done|]. step.
  cbn [set_sector l_start]. rewrite Es. set (p := start + Z.of_nat i + 1).
  pose proof (list_to_set_size L) as HsL.
  eapply blk_bread; [done|lia| |right; lia|].
  { intros b' Hb'. apply HH in Hb'. lia. }
  intros lb B1 Hlb HB1. step. assert (Hne : lb ≠ b) by congruence.
  eapply blk_data; [done|by rewrite lookup_insert_ne|]. step.
  eapply blk_set_data; [done|apply lookup_insert_eq|by eapply blk_view_block|].
  intros B2 HB2. step. eapply blk_bwrite; [done|apply lookup_insert_eq|].
  intros B3 HB3. step. rewrite !disk_upd_eq in HB3.
  eapply blk_brelse; [done|apply lookup_insert_eq|right; by rewrite !disk_upd_eq|].
  intros B4 HB4. step. rewrite delete_insert_id in HB4 by done.
  destruct (log_slot_at l start size L i x Hl Hlt Hno Hor) as (Hl' & Hix & Hbusy').
  apply wp_mono with (Q := λ _ s', s' = mkLst B4 (log_slot i x l)).
  { unfold log_slot. cbn [set_sector l_n]. rewrite En. by case_match. }
  intros [] s' ->. step. eapply blk_set_dirty; [done|done|].
  intros B5 HB5. apply (HQ B5 _ i); [|done..].
  replace (list_to_set (log_add x L)) with ({[x]} ∪ (list_to_set L ∖ {[p]}) : gset Z); [done|].
  assert (p ∉ L). { rewrite Forall_forall in HL. intros ?%HL. lia. }
  unfold log_add. apply set_eq. intros y. case_bool_decide; set_solver.
Qed.
(** The cache is clean and nobody holds a buffer. *)
Definition quiet B n d ws : Prop := blk B n d d ws ∅ ∅.

Lemma quiet_intro B n v d ws : blk B n v d ws ∅ ∅ → quiet B n d ws.
Proof.
  intros HB. eapply blk_ext; [done| |done]. intros y.
  eapply blk_clean; [done|set_solver|]. intros b. by rewrite lookup_empty.
Qed.

Lemma log_at_nil l start size L : log_at l start size L → log_at (set_n 0 l) start size [].
Proof. intros (Hg & _). repeat split; [apply Hg..|simpl; unfold LOGSIZE; lia]. Qed.

Lemma Forall_u32 start n L :
  start < n → n ≤ 2^32 → Forall (λ x, 0 ≤ x < start) L → Forall (λ x, 0 ≤ x < 2^32) L.
Proof. intros Hs Hn HL. eapply Forall_impl; [done|]. simpl. lia. Qed.

Lemma recover_run B l n d ws start size (Q : unit → lst S → Prop) :
  quiet B n d ws → log_geom l start size → 0 ≤ start → start + size ≤ n →
  hdr_valid start size (d start) →
  (∀ B' l' hb0, let cs := installs start (hdr_list (d start)) d ++ [(start, hb0)] in
     quiet B' n (apply_writes d cs) (ws ++ cs) → log_at l' start size [] →
     hdr_is hb0 [] → is_block hb0 → l_busy l' = l_busy l → Q tt (mkLst B' l')) →
  wp recover_from_log Q (mkLst B l).
Proof.
  intros HB Hg Hs Hn (Hh & Hsz & HL) HQ. unfold recover_from_log. apply wp_bind.
  assert (Hlen : (length (hdr_list (d start)) ≤ LOGSIZE)%nat) by (rewrite hdr_list_len; lia).
  eapply read_head_run; [exact HB|done|lia|done|]. intros B1 l1 HB1 Hl1 Hb1. apply wp_bind.
  eapply install_trans_run; [exact HB1|done|done|by left|rewrite hdr_list_len; lia|]. simpl. intros B2 HB2. step.
  apply quiet_intro in HB2.
  eapply write_head_run; [exact HB2|by eapply log_at_nil|done|lia|done|by vm_compute; lia|].
  intros B3 hb0 Hbb H0 HB3. apply (HQ B3 _ hb0); [|by eapply log_at_nil|done..].
  rewrite apply_writes_app, app_assoc. exact HB3.
Qed.

(** A write of a block to the log area or to one of the sectors [L]. *)
Definition log_or (start : Z) (L : list Z) (w : Z * block) : Prop :=
  (start ≤ w.1 ∨ w.1 ∈ L) ∧ is_block w.2.

Lemma installs_log_or start L d :
  (∀ x, is_block (d x)) → Forall (log_or start L) (installs start L d).
Proof.
  intros Hd. apply Forall_forall. intros w Hw. split.
  - right. rewrite <- (installs_keys start L d). by apply list_elem_of_fmap_2.
  - apply elem_of_lookup_imap in Hw as (i & x & -> & _). apply Hd.
Qed.

(** The writes [cs], to the log area and to the sectors [L], take the file
    system from [d] to [v] and clear the header; stopped anywhere, they leave
    a disk that replays to one of the two. *)
Definition atomic_writes (start size : Z) (d v : Z → block) (L : list Z)
    (cs : list (Z * block)) : Prop :=
  hdr_is (apply_writes d cs start) [] ∧ agree start (apply_writes d cs) v ∧
  (∀ k, crash_ok start size (apply_writes d (take k cs)) d v) ∧
  Forall (log_or start L) cs.

Lemma atomic_nil start size d v :
  0 < size → hdr_is (d start) [] → agree start d v → atomic_writes start size d v [] [].
Proof.
  intros Hsz Hh Ha. split_and!; [done..| |done]. intros k. rewrite take_nil. simpl.
  split; [eapply hdr_is_valid; [done|simpl; lia..|done]|left].
  by rewrite replay_empty by apply Hh.
Qed.

Lemma atomic_commit start size d v L hb hb0 :
  hdr_is (d start) [] → hdr_is hb L → hdr_is hb0 [] →
  (length L ≤ LOGSIZE)%nat → Z.of_nat (length L) < size → Forall (λ x, 0 ≤ x < start) L →
  agree start (apply_writes d (installs start L d)) v →
  (∀ x, is_block (d x)) → is_block hb → is_block hb0 →
  atomic_writes start size d v L ((start, hb) :: installs start L d ++ [(start, hb0)]).
Proof.
  intros Hd Hhb Hhb0 Hlen Hsz HL Hv Hdb Hb Hb0. unfold atomic_writes. split_and!.
  - simpl. rewrite apply_writes_app. simpl. by rewrite disk_upd_eq.
  - intros y Hy. simpl. rewrite apply_writes_app. simpl. rewrite disk_upd_ne by lia.
    rewrite (apply_writes_at _ d) by (apply disk_upd_ne; lia). by apply Hv.
  - intros k. destruct (commit_writes_atomic start size d L hb hb0 k) as [Hval [Ha|Ha]];
      [done..|split; [done|by left]|split; [done|right]].
    intros y Hy. rewrite Ha by done. by apply Hv.
  - apply Forall_cons. split; [by split; [left|]|]. apply Forall_app.
    split; [by apply installs_log_or|]. by apply Forall_singleton; split; [left|].
Qed.

Lemma end_trans_run B l start size L (Q : unit → lst S → Prop) :
  log_at l start size L →
  (∀ l', log_at l' start size L → l_busy l' = 0 → l_woken l' = l_woken l ++ [ChLog] →
     Q tt (mkLst B l')) →
  wp log_acquire (λ _, wp (lmod (set_busy 0);; lmod (add_lwoken ChLog);; log_release) Q) (mkLst B l).
Proof.
  intros Hl HQ. pose proof Hl as ((Hlk & _) & _). apply wp_acquire; [done|]. step.
  apply wp_release; [done|]. apply HQ; [|done..].
  unfold log_at, log_geom in *. simpl. tauto.
Qed.

Lemma commit_run B l n v d ws start size L (Q : unit → lst S → Prop) :
  blk B n v d ws (list_to_set L) ∅ → log_at l start size L → 0 ≤ start →
  Z.of_nat (length L) < size → start + size ≤ n → n ≤ 2^32 →
  Forall (λ x, 0 ≤ x < start) L → NoDup L → (length L < NBUF)%nat → hdr_is (d start) [] →
  (∀ i x, L !! i = Some x → d (start + Z.of_nat i + 1) = v x) →
  (∀ B' l' cs, quiet B' n (apply_writes d cs) (ws ++ cs) → log_at l' start size [] →
     l_busy l' = 0 → l_woken l' = l_woken l ++ [ChLog] → atomic_writes start size d v L cs →
     Q tt (mkLst B' l')) →
  wp commit_trans Q (mkLst B l).
Proof.
  intros HB Hl Hs Hsz Hn Hn32 HL Hnd Hlen Hd Hlog HQ. pose proof Hl as (_&En&Hlen'&_).
  assert (Hlt : Forall (λ x, x < start) L) by (eapply Forall_impl; [exact HL|simpl; lia]).
  assert (HsL : start ∉ L) by (rewrite Forall_forall in Hlt; intros ?%Hlt; lia).
  assert (Hv : agree start (apply_writes d (installs start L d)) v).
  { apply installs_view; [done..|]. intros y _ Hy. symmetry.
    eapply blk_clean; [exact HB|set_solver|]. intros b. by rewrite lookup_empty. }
  unfold commit_trans. step. rewrite En. destruct L as [|x0 L0] eqn:EL.
  - simpl. step. rewrite <- (app_nil_r ws) in HB.
    eapply end_trans_run; [exact Hl|]. intros l' Hl' Hb' Hw'.
    apply (HQ B l' []); [by eapply quiet_intro|done..|by apply atomic_nil].
  - rewrite <- EL in *. rewrite (proj2 (Z.gtb_lt _ _)) by (subst; simpl; lia). step.
    eapply write_head_run; [exact HB|done|by eapply (Forall_u32 start n); [lia|..]|lia|set_solver| |].
    { eapply Nat.le_lt_trans; [apply list_to_set_size|done]. }
    intros B1 hb Hbb Hhb HB1. step.
    eapply install_trans_run; [exact HB1|done|done|right; done|lia|]. simpl. intros B2 HB2. step.
    rewrite (installs_ext _ _ (disk_upd d start hb) d) in HB2
      by (intros; apply disk_upd_ne; lia).
    eapply write_head_run; [exact HB2|by eapply log_at_nil|done|lia|done|by vm_compute; lia|].
    intros B3 hb0 Hbb0 Hhb0 HB3. step. apply quiet_intro in HB3.
    eapply end_trans_run; [by eapply log_at_nil|]. intros l' Hl' Hb' Hw'.
    apply (HQ B3 l' ((start, hb) :: installs start L d ++ [(start, hb0)]));
      [|done..|apply atomic_commit; try done].
    2: { intros x. by eapply blk_disk_block. }
    simpl. rewrite apply_writes_app. simpl. rewrite <- !app_assoc in HB3. exact HB3.
Qed.
(** ** Transactions as their clients see them

    [idle s d]: no transaction is active, the disk is [d] and it says so.
    [in_tx s d0 v L H E]: a transaction that began on disk [d0] is active; its
    client sees the blocks [v] and holds [H]; it has logged the sectors [L],
    and the held blocks [E] have been changed since they were last logged. *)
Record geom := mkGeom { g_blocks : Z; g_start : Z; g_size : Z }.

Definition geom_ok (g : geom) : Prop :=
  0 ≤ g_start g ∧ 1 ≤ g_size g ∧ g_start g + g_size g ≤ g_blocks g ∧ g_blocks g ≤ 2^32.

Definition idle (g : geom) (s : lst S) (d : Z → block) (ws : list (Z * block)) : Prop :=
  quiet (ls_bio s) (g_blocks g) d ws ∧ log_at (ls_log s) (g_start g) (g_size g) [] ∧
  l_busy (ls_log s) = 0 ∧ hdr_is (d (g_start g)) [].

Definition in_tx (g : geom) (s : lst S) (d0 : Z → block) (ws0 : list (Z * block))
    (v : Z → block) (L : list Z) (H : gmap nat Z) (E : gset Z) : Prop :=
  log_at (ls_log s) (g_start g) (g_size g) L ∧ l_busy (ls_log s) ≠ 0 ∧
  NoDup L ∧ Forall (λ x, 0 ≤ x < g_start g) L ∧ hdr_is (d0 (g_start g)) [] ∧
  Z.of_nat (length L) < g_size g ∧
  (∀ b y, H !! b = Some y → 0 ≤ y < g_start g) ∧
  ∃ w cs, let d := apply_writes d0 cs in
    blk (ls_bio s) (g_blocks g) w d (ws0 ++ cs) (list_to_set L) H ∧ agree (g_start g) w v ∧
    Forall (λ c, g_start g < c.1 ∧ is_block c.2) cs ∧
    ∀ i x, L !! i = Some x → x ∉ E → d (g_start g + Z.of_nat i + 1) = v x.

Lemma log_writes_below start cs d y :
  Forall (λ c, start < c.1 ∧ is_block c.2) cs → y ≤ start → apply_writes d cs y = d y.
Proof.
  intros Hcs Hy. apply apply_writes_other. eapply Forall_impl; [done|]. simpl. lia.
Qed.

(** Writes to the log area before the commit do not matter. *)
Lemma atomic_prefix start size d v L cs cs' :
  0 < size → hdr_is (d start) [] → Forall (λ c, start < c.1 ∧ is_block c.2) cs →
  atomic_writes start size (apply_writes d cs) v L cs' →
  atomic_writes start size d v L (cs ++ cs').
Proof.
  intros Hsz Hh Hcs (H1 & H2 & H3 & H4). unfold atomic_writes. rewrite apply_writes_app.
  split_and!; [done..| |].
  2: { apply Forall_app. split; [|done]. eapply Forall_impl; [done|]. unfold log_or. simpl.
       intros w [? ?]. split; [left; lia|done]. }
  intros k. rewrite take_app, apply_writes_app.
  destruct (decide (k ≤ length cs)%nat).
  - replace (k - length cs)%nat with 0%nat by lia. simpl.
    assert (Ht : Forall (λ c, start < c.1 ∧ is_block c.2) (take k cs)) by by apply Forall_take.
    assert (Hh' : hdr_is (apply_writes d (take k cs) start) []).
    { by rewrite (log_writes_below start (take k cs) d start Ht) by lia. }
    split; [eapply hdr_is_valid; [done|simpl; lia..|done]|left]. intros y Hy.
    rewrite replay_empty by apply Hh'. apply (log_writes_below start); [done|lia].
  - rewrite (take_ge cs) by lia. destruct (H3 (k - length cs)%nat) as [Hval [Ha|Ha]];
      (split; [done|]); [left|by right].
    intros y Hy. rewrite Ha by done. apply (log_writes_below start); [done|lia].
Qed.

Lemma begin_trans_run g s d ws (Q : unit → lst S → Prop) :
  geom_ok g → idle g s d ws → (∀ s', in_tx g s' d ws d [] ∅ ∅ → Q tt s') → wp begin_trans Q s.
Proof.
  intros Hg (HB & Hl & Hb & Hh) HQ. unfold geom_ok in Hg. destruct s as [B l]; simpl in *.
  pose proof Hl as ((Hlk & _) & _). unfold begin_trans, log_acquire, log_release.
  apply wp_bind, wp_acquire; [done|]. step. simpl. rewrite Hb. simpl. step.
  apply wp_release; [done|]. apply HQ. split; simpl.
  { unfold log_at, log_geom in *. simpl. tauto. }
  split_and!; [done|constructor|constructor|done|lia|by intros ??; rewrite lookup_empty|].
  exists d, []. split_and!; [by rewrite app_nil_r|done|done|done].
Qed.

Lemma tx_bread g s d0 ws0 v L H E x (Q : nat → lst S → Prop) :
  geom_ok g → in_tx g s d0 ws0 v L H E → 0 ≤ x < g_start g → (∀ b, H !! b ≠ Some x) →
  x ∈ L ∨ (base.size H + length L < NBUF)%nat →
  (∀ b s', H !! b = None → in_tx g s' d0 ws0 v L (<[b := x]> H) E → Q b s') →
  wp (lift (bread ROOTDEV x)) Q s.
Proof.
  intros Hg (Hl & Hb & Hnd & HL & Hh & Hlsz & HH & w & cs & HB & Hw & Hcs & Hlog) Hx Hfr Hroom HQ.
  unfold geom_ok in Hg. destruct s as [B l]; simpl in *. apply wp_lift.
  pose proof (list_to_set_size L).
  eapply blk_bread; [done|lia|done| |].
  { destruct Hroom; [left; set_solver|right; lia]. }
  intros b B' Hnone HB'. apply HQ; [done|]. split_and!; try done.
  - intros b' y. rewrite lookup_insert_Some. intros [[_ <-]|[_ Hy]]; [done|by eapply HH].
  - by exists w, cs.
Qed.

Lemma tx_data g s d0 ws0 v L H E b x (Q : block → lst S → Prop) :
  in_tx g s d0 ws0 v L H E → H !! b = Some x → (is_block (v x) → Q (v x) s) →
  wp (lift (buf_data b)) Q s.
Proof.
  intros (Hl & _ & _ & _ & _ & _ & HH & w & cs & HB & Hw & _) Hx HQ.
  destruct s as [B l]; simpl in *. apply wp_lift. eapply blk_data; [done|done|].
  pose proof (blk_view_block _ _ _ _ _ _ _ x HB).
  rewrite Hw in * by by eapply HH. by apply HQ.
Qed.

Lemma agree_upd start d d' x u : agree start d d' → agree start (disk_upd d x u) (disk_upd d' x u).
Proof. intros Ha y Hy. unfold disk_upd. case_match; [done|by apply Ha]. Qed.

Lemma tx_set_data g s d0 ws0 v L H E b x u (Q : unit → lst S → Prop) :
  in_tx g s d0 ws0 v L H E → H !! b = Some x → is_block u →
  (∀ s', in_tx g s' d0 ws0 (disk_upd v x u) L H ({[x]} ∪ E) → Q tt s') →
  wp (lift (buf_set_data b u)) Q s.
Proof.
  intros (Hl & Hb & Hnd & HL & Hh & Hlsz & HH & w & cs & HB & Hw & Hcs & Hlog) Hx Hu HQ.
  destruct s as [B l]; simpl in *. apply wp_lift. eapply blk_set_data; [done|done|done|].
  intros B' HB'. apply HQ. split_and!; try done. exists (disk_upd w x u), cs.
  split_and!; [done|by apply agree_upd|done|]. intros i y Hi Hy.
  rewrite disk_upd_ne by set_solver. apply Hlog; [done|set_solver].
Qed.

Lemma tx_log_write g s d0 ws0 v L H E b x (Q : unit → lst S → Prop) :
  geom_ok g → in_tx g s d0 ws0 v L H E → H !! b = Some x →
  (length L < LOGSIZE)%nat → Z.of_nat (length L) < g_size g - 1 →
  (base.size H + length L < NBUF)%nat →
  (∀ s', in_tx g s' d0 ws0 v (log_add x L) H (E ∖ {[x]}) → Q tt s') →
  wp (log_write b) Q s.
Proof.
  intros Hg (Hl & Hb & Hnd & HL & Hh & Hlsz & HH & w & cs & HB & Hw & Hcs & Hlog) Hx Hlt Hsz Hroom HQ.
  unfold geom_ok in Hg. destruct s as [B l]; simpl in *. pose proof (HH _ _ Hx) as Hxs.
  eapply log_write_run; [done|done|done|done|done|done|done|lia|done|done|].
  simpl. intros B' l' i HB' Hl' Hi Hb'. apply HQ.
  assert (Hadd : NoDup (log_add x L) ∧ Forall (λ y, 0 ≤ y < g_start g) (log_add x L)).
  { unfold log_add. case_bool_decide; [done|]. rewrite NoDup_app, Forall_app. set_solver by eauto using NoDup_singleton. }
  assert (Hlen : (length (log_add x L) ≤ Datatypes.S (length L))%nat).
  { unfold log_add. case_bool_decide; [lia|]. rewrite length_app. simpl. lia. }
  split_and!; simpl; try done; [congruence|apply Hadd|apply Hadd|lia|].
  exists (disk_upd w (g_start g + Z.of_nat i + 1) (w x)), (cs ++ [(g_start g + Z.of_nat i + 1, v x)]).
  rewrite apply_writes_app, app_assoc. simpl. rewrite Hw in HB' by lia. rewrite Hw by lia.
  split_and!; [done| | |].
  - intros y Hy. rewrite disk_upd_ne by lia. by apply Hw.
  - apply Forall_app. split; [done|]. apply Forall_singleton. simpl. split; [lia|].
    rewrite <- Hw by lia. by eapply blk_view_block.
  - intros j y Hj Hy. destruct (decide (j = i)) as [->|Hji].
    + rewrite disk_upd_eq. congruence.
    + rewrite disk_upd_ne by lia.
      assert (Hyx : y ≠ x). { intros ->. apply Hji. exact (NoDup_lookup _ _ _ _ (proj1 Hadd) Hj Hi). }
      apply Hlog; [|set_solver]. revert Hj. unfold log_add. case_bool_decide; [done|].
      intros [?|[? Hj%list_lookup_singleton_Some]]%lookup_app_Some; [done|]. naive_solver.
Qed.
Lemma tx_brelse g s d0 ws0 v L H E b x (Q : unit → lst S → Prop) :
  in_tx g s d0 ws0 v L H E → H !! b = Some x → x ∈ L ∨ v x = d0 x →
  (∀ s', in_tx g s' d0 ws0 v L (delete b H) E → Q tt s') →
  wp (lift (brelse b)) Q s.
Proof.
  intros (Hl & Hb & Hnd & HL & Hh & Hlsz & HH & w & cs & HB & Hw & Hcs & Hlog) Hx Hcl HQ.
  destruct s as [B l]; simpl in *. pose proof (HH _ _ Hx). apply wp_lift.
  eapply blk_brelse; [done|done| |].
  { destruct Hcl as [|Hcl]; [left; set_solver|right].
    rewrite Hw, Hcl by lia. symmetry. apply (log_writes_below (g_start g)); [done|lia]. }
  intros B' HB'. apply HQ. split_and!; try done; [|by exists w, cs].
  intros b' y [_ Hy]%lookup_delete_Some. by eapply HH.
Qed.

Lemma tx_commit g s d0 ws0 v L (Q : unit → lst S → Prop) :
  geom_ok g → in_tx g s d0 ws0 v L ∅ ∅ → (length L < NBUF)%nat →
  (∀ s' cs, idle g s' (apply_writes d0 cs) (ws0 ++ cs) →
     atomic_writes (g_start g) (g_size g) d0 v L cs → Q tt s') →
  wp commit_trans Q s.
Proof.
  intros (?&?&?&?) (Hl & Hb & Hnd & HL & Hh & Hlsz & HH & w & cs & HB & Hw & Hcs & Hlog) Hlen HQ.
  destruct s as [B l]; simpl in *.
  eapply commit_run; [exact HB|done|done|done|done|done|done|done|done| | |].
  - by rewrite (log_writes_below (g_start g)) by (done || lia).
  - intros i x Hi. rewrite (Hlog i x) by set_solver. symmetry. apply Hw.
    pose proof (Forall_lookup_1 _ _ _ _ HL Hi). simpl in *. lia.
  - intros B' l' cs' Hq Hl' Hb' _ (A1 & A2 & A3 & A4). rewrite <- apply_writes_app, <- app_assoc in Hq.
    apply (HQ _ (cs ++ cs')).
    + split_and!; [done..|]. by rewrite apply_writes_app.
    + apply atomic_prefix; [lia|done..|]. split_and!; [done| | |done].
      * intros y Hy. by rewrite A2, Hw.
      * intros k. destruct (A3 k) as [? [Ha|Ha]]; (split; [done|]); [by left|right].
        intros y Hy. by rewrite Ha, Hw.
Qed.

Lemma log_add_length x L : (length (log_add x L) ≤ Datatypes.S (length L))%nat.
Proof. unfold log_add. case_bool_decide; [lia|]. rewrite length_app. simpl. lia. Qed.

Lemma elem_of_log_add x y L : y ∈ log_add x L ↔ y = x ∨ y ∈ L.
Proof. unfold log_add. case_bool_decide; set_solver. Qed.

Lemma log_add_in x L : x ∈ log_add x L.
Proof. unfold log_add. case_bool_decide; set_solver. Qed.

Lemma update_block_run g s d0 ws0 v L x u (Q : unit → lst S → Prop) :
  geom_ok g → in_tx g s d0 ws0 v L ∅ ∅ → 0 ≤ x < g_start g → is_block u →
  (Datatypes.S (length L) < NBUF)%nat → Z.of_nat (length L) < g_size g - 1 →
  (∀ s', in_tx g s' d0 ws0 (disk_upd v x u) (log_add x L) ∅ ∅ → Q tt s') →
  wp (update_block x u) Q s.
Proof.
  intros Hg Hs Hx Hu Hlen Hsz HQ. unfold update_block. unfold NBUF in Hlen.
  apply wp_bind. eapply tx_bread; [done|done|done|by intros; rewrite lookup_empty| |].
  { right. rewrite map_size_empty. unfold NBUF. lia. }
  intros b s1 _ H1. apply wp_bind.
  eapply tx_set_data; [done|apply lookup_insert_eq|done|]. intros s2 H2. apply wp_bind.
  eapply tx_log_write; [done|done|apply lookup_insert_eq|unfold LOGSIZE; lia|done| |].
  { rewrite map_size_insert_None, map_size_empty by done. unfold NBUF. lia. }
  intros s3 H3. eapply tx_brelse; [done|apply lookup_insert_eq|left; apply log_add_in|].
  intros s4 H4. apply HQ. rewrite delete_insert_id in H4 by done.
  by replace (({[x]} ∪ ∅) ∖ {[x]}) with (∅ : gset Z) in H4 by set_solver.
Qed.

Lemma updates_run g d0 ws0 ups s v L (Q : unit → lst S → Prop) :
  geom_ok g → in_tx g s d0 ws0 v L ∅ ∅ →
  Forall (λ u, 0 ≤ u.1 < g_start g ∧ is_block u.2) ups →
  (length L + length ups < NBUF)%nat → Z.of_nat (length L + length ups) < g_size g →
  (∀ s' L', in_tx g s' d0 ws0 (apply_writes v ups) L' ∅ ∅ → (length L' < NBUF)%nat →
     (∀ x, x ∈ L' → x ∈ L ∨ x ∈ ups.*1) → Q tt s') →
  wp (for_each ups (λ '(x, v), update_block x v)) Q s.
Proof.
  intros Hg. revert s v L. induction ups as [|[x u] ups IH]; intros s v L Hs Hups Hlen Hsz HQ; simpl.
  - apply wp_ret. eapply HQ; [done| |by left]. simpl in *. lia.
  - apply Forall_cons in Hups as [[Hx Hu] Hups]. simpl in *. apply wp_bind.
    eapply update_block_run; [done..|lia|lia|]. intros s' Hs'.
    pose proof (log_add_length x L). eapply IH; [done|done|lia|lia|].
    intros s2 L' Hs2 HL' Hsub. eapply HQ; [done|done|]. intros y [Hy|Hy]%Hsub; [|set_solver].
    apply elem_of_log_add in Hy. set_solver.
Qed.

(** C2: [commit_trans] is the atomic step of a transaction.  Whatever the
    client did in between, if it holds no buffer and has logged its changes, the
    commit returns with the client's view of every block on the disk, the log
    free and empty, and the sleepers on the log woken; and at every point at
    which a crash can cut the writes of the transaction, the disk has a header
    that recovery accepts and replays to the file system before the
    transaction or to the client's view, never to a mixture. *)
Theorem commit_trans_atomic g s d0 ws0 v L :
  geom_ok g → in_tx g s d0 ws0 v L ∅ ∅ → (length L < NBUF)%nat →
  wp commit_trans (λ _ s', ∃ cs, idle g s' (apply_writes d0 cs) (ws0 ++ cs) ∧
    agree (g_start g) (apply_writes d0 cs) v ∧
    (∀ k, crash_ok (g_start g) (g_size g) (apply_writes d0 (take k cs)) d0 v) ∧
    Forall (log_or (g_start g) L) cs) s.
Proof.
  intros Hg Hs HL. eapply tx_commit; [done..|]. intros s' cs Hs' (_ & ? & ? & ?). by exists cs.
Qed.

(** A whole transaction: it returns, and its writes are atomic. *)
Lemma transaction_run g s d ws ups :
  geom_ok g → idle g s d ws →
  Forall (λ u, 0 ≤ u.1 < g_start g ∧ is_block u.2) ups →
  (length ups < NBUF)%nat → Z.of_nat (length ups) < g_size g →
  wp (transaction ups) (λ _ s', ∃ cs, idle g s' (apply_writes d cs) (ws ++ cs) ∧
    agree (g_start g) (apply_writes d cs) (apply_writes d ups) ∧
    (∀ k, crash_ok (g_start g) (g_size g) (apply_writes d (take k cs)) d (apply_writes d ups)) ∧
    Forall (log_or (g_start g) ups.*1) cs) s.
Proof.
  intros Hg Hs Hups Hlen Hsz. unfold transaction. apply wp_bind.
  eapply begin_trans_run; [done..|]. intros s1 H1. apply wp_bind.
  eapply updates_run; [done..|]. intros s2 L H2 HL Hsub.
  eapply tx_commit; [done..|]. intros s3 cs H3 (_ & ? & ? & Hw). exists cs. split_and!; try done.
  eapply Forall_impl; [exact Hw|]. intros w [[?|Hin%Hsub] ?]; (split; [|done]); [by left|right]. set_solver.
Qed.

(** Recovery installs the committed log, and can itself be cut short. *)
Lemma recover_idle g s d ws :
  geom_ok g → quiet (ls_bio s) (g_blocks g) d ws →
  log_geom (ls_log s) (g_start g) (g_size g) → l_busy (ls_log s) = 0 →
  hdr_valid (g_start g) (g_size g) (d (g_start g)) →
  wp recover_from_log (λ _ s', ∃ cs, idle g s' (apply_writes d cs) (ws ++ cs) ∧
    agree (g_start g) (apply_writes d cs) (replay (g_start g) d) ∧
    (∀ k, let c := apply_writes d (take k cs) in
      hdr_valid (g_start g) (g_size g) (c (g_start g)) ∧
      agree (g_start g) (replay (g_start g) c) (replay (g_start g) d)) ∧
    Forall (log_or (g_start g) (hdr_list (d (g_start g)))) cs) s.
Proof.
  intros (?&?&?&?) HB Hl Hb Hh. destruct s as [B l]; simpl in *.
  pose proof Hh as (_ & _ & HL). set (L := hdr_list (d (g_start g))) in *.
  assert (Hlt : Forall (λ x, x < g_start g) L) by (eapply Forall_impl; [exact HL|simpl; lia]).
  eapply recover_run; [done..|]. intros B' l' hb0 cs Hq Hl' Hz Hbb Hb'. fold L in cs.
  exists cs. split_and!; [split_and!; try done; [simpl; congruence|]| | |].
  - subst cs. rewrite apply_writes_app. simpl. by rewrite disk_upd_eq.
  - intros y Hy. subst cs. rewrite apply_writes_app. simpl. rewrite disk_upd_ne by lia. done.
  - intros k. subst cs. cbn zeta. rewrite take_app, apply_writes_app.
    set (iw := installs (g_start g) L d). destruct (decide (k ≤ length iw)%nat).
    + replace (k - length iw)%nat with 0%nat by lia. simpl. split.
      * rewrite apply_writes_other; [done|]. apply Forall_take, keys_other.
        unfold iw. rewrite installs_keys. rewrite Forall_forall in Hlt. intros ?%Hlt. lia.
      * intros y Hy. by apply (proj2 (replay_partial (g_start g) d L k eq_refl Hlt)).
    + rewrite (take_ge iw), (take_ge [_]) by (simpl; lia). simpl. split.
      * rewrite disk_upd_eq. eapply hdr_is_valid; [done|simpl; lia..|done].
      * apply replay_installed; [done|apply Hz|done].
  - apply Forall_app. split; [apply installs_log_or|by apply Forall_singleton; split; [left|]].
    intros x. by eapply blk_disk_block.
Qed.
(** [initlog] finds the log and recovers. *)
Lemma initlog_run g s d ws :
  geom_ok g → quiet (ls_bio s) (g_blocks g) d ws → 1 < g_blocks g →
  s32 (sb_size (sb_of (d 1)) - sb_nlog (sb_of (d 1))) = g_start g →
  s32 (sb_nlog (sb_of (d 1))) = g_size g →
  l_busy (ls_log s) = 0 → length (l_sector (ls_log s)) = LOGSIZE →
  hdr_valid (g_start g) (g_size g) (d (g_start g)) →
  wp initlog (λ _ s', ∃ cs, idle g s' (apply_writes d cs) (ws ++ cs) ∧
    agree (g_start g) (apply_writes d cs) (replay (g_start g) d) ∧
    (∀ k, let c := apply_writes d (take k cs) in
      hdr_valid (g_start g) (g_size g) (c (g_start g)) ∧
      agree (g_start g) (replay (g_start g) c) (replay (g_start g) d)) ∧
    Forall (log_or (g_start g) (hdr_list (d (g_start g)))) cs) s.
Proof.
  intros Hg HB Hn Hst Hsz Hb Hlen Hh. destruct s as [B l]; simpl in *.
  unfold initlog. replace (BSIZE <=? 4 + 4 * LOGSIZE)%nat with false by done. step.
  unfold readsb. apply wp_bind.
  eapply blk_bread; [exact HB|lia|by intros; rewrite lookup_empty|by right; vm_compute; lia|].
  intros b B1 _ HB1. apply wp_bind. eapply blk_data; [done|apply lookup_insert_eq|].
  apply wp_bind. eapply blk_brelse; [done|apply lookup_insert_eq|by right|].
  intros B2 HB2. step. rewrite delete_insert_id in HB2 by done.
  apply recover_idle; simpl; try done.
Qed.
End specs.
