(* ===== verification/Crash.v ===== *)
(** * Power failure

    The log of log.c on the buffer cache of bio.c on the memory disk of
    memide.c, from start-up ([binit], then [initlog]) through a transaction, a
    crash at an arbitrary disk write, and the next start-up. *)

From stdpp Require Import base numbers list strings gmap.
From Stdlib Require Import ZArith Lia.
From S2P Require Import Prelude Blocks Bio Log.

#[local] Open Scope Z_scope.

(** A machine whose disk has [n] sectors holding [d]. *)
Definition machine (n : Z) (d : Z → block) : lst bio :=
  mkLst (boot_bio (mkDisk n d [])) bss_log.

(** What start-up does to the disk: [main] calls [binit] (src/main.c:31) and the
    first process calls [initlog] (src/proc.c, [forkret]). *)
Definition boot : M (lst bio) unit := lift binit;; initlog.

(** The superblock on [d] puts the log where [g] says. *)
Definition formatted (g : geom) (d : Z → block) : Prop :=
  geom_ok g ∧ 1 < g_start g ∧
  s32 (sb_size (sb_of (d 1)) - sb_nlog (sb_of (d 1))) = g_start g ∧
  s32 (sb_nlog (sb_of (d 1))) = g_size g ∧
  hdr_valid (g_start g) (g_size g) (d (g_start g)) ∧ ∀ x, is_block (d x).

Lemma formatted_ext g d d' :
  formatted g d → d' 1 = d 1 → hdr_valid (g_start g) (g_size g) (d' (g_start g)) →
  (∀ x, is_block (d' x)) → formatted g d'.
Proof. intros (?&?&?&?&?&?) E ??. unfold formatted. rewrite E. by split_and!. Qed.

Lemma boot_run g d (Q : unit → lst bio → Prop) :
  formatted g d →
  (∀ s cs, idle g s (apply_writes d cs) cs →
     agree (g_start g) (apply_writes d cs) (replay (g_start g) d) →
     (∀ k, let c := apply_writes d (take k cs) in
        hdr_valid (g_start g) (g_size g) (c (g_start g)) ∧
        agree (g_start g) (replay (g_start g) c) (replay (g_start g) d)) →
     Forall (log_or (g_start g) (hdr_list (d (g_start g)))) cs → Q tt s) →
  wp boot Q (machine (g_blocks g) d).
Proof.
  intros (Hg & H1 & Hst & Hsz & Hh & Hblk) HQ. unfold boot, machine.
  apply wp_bind, wp_lift. eapply wp_mono; [by apply binit_ok|].
  intros [] B (Hinv & _ & Hd & Hheld & Hdirty & Hview). pose proof Hg as (?&?&?&?).
  assert (Hq : quiet B (g_blocks g) d []).
  { unfold quiet, blk. simpl. rewrite Hd. by split_and!. }
  eapply wp_mono.
  - apply (initlog_run g (mkLst B bss_log) d []); simpl; (done || lia).
  - intros [] s (cs & Hs & Ha & Hk & Hw). by apply (HQ s cs).
Qed.

Lemma apply_writes_block d ws x :
  (∀ y, is_block (d y)) → Forall (λ w, is_block w.2) ws → is_block (apply_writes d ws x).
Proof.
  revert d. induction ws as [|[z u] ws IH]; intros d Hd Hws; simpl; [done|].
  apply Forall_cons in Hws as [Hu Hws]. apply IH; [|done].
  intros y. unfold disk_upd. by case_match.
Qed.

(** A crash during such writes leaves the superblock where it was. *)
Lemma formatted_crash g d ws L k :
  formatted g d → Forall (log_or (g_start g) L) ws → 1 ∉ L →
  hdr_valid (g_start g) (g_size g) (apply_writes d (take k ws) (g_start g)) →
  formatted g (apply_writes d (take k ws)).
Proof.
  intros Hf Hws HL Hh. assert (Hk : Forall (log_or (g_start g) L) (take k ws)) by by apply Forall_take.
  pose proof Hf as (_ & H1 & _ & _ & _ & Hb).
  apply (formatted_ext g d); [done| |done|].
  - apply apply_writes_other. eapply Forall_impl; [exact Hk|].
    intros w [[Hw|Hw] _] E; rewrite E in Hw; [lia|done].
  - intros x. apply apply_writes_block; [done|]. eapply Forall_impl; [exact Hk|]. by intros w [_ ?].
Qed.

Lemma idle_disk g s d ws y : idle g s d ws → d_img (c_disk (ls_bio s)) y = d y.
Proof. intros ((_ & _ & _ & Hd & _) & _). apply Hd. Qed.

(** Booting on a disk that a crash left brings one of the two file systems up. *)
Lemma reboot_run g c old new :
  formatted g c →
  agree (g_start g) (replay (g_start g) c) old ∨ agree (g_start g) (replay (g_start g) c) new →
  wp boot (λ _ s, agree (g_start g) (d_img (c_disk (ls_bio s))) old ∨
                  agree (g_start g) (d_img (c_disk (ls_bio s))) new) (machine (g_blocks g) c).
Proof.
  intros Hf Hc. apply boot_run; [done|]. intros s cs Hs Ha _ _.
  destruct Hc as [Hc|Hc]; [left|right]; intros y Hy;
    by rewrite (idle_disk _ _ _ _ _ Hs), Ha, Hc.
Qed.

(** C1: The file system survives power failure.  Boot a machine on a formatted
    disk (whose log may hold a committed transaction), run a transaction of at
    most NBUF - 1 block updates, and let the power fail after any number [k] of
    the disk writes made since boot: the machine that boots on what the disk
    then holds comes up with all of the updates or with none of them.  Without
    a failure the transaction returns with all of them on the disk. *)
Theorem power_failure g d ups :
  formatted g d → 1 ∉ hdr_list (d (g_start g)) →
  Forall (λ u, 0 ≤ u.1 < g_start g ∧ u.1 ≠ 1 ∧ is_block u.2) ups →
  (length ups < NBUF)%nat → Z.of_nat (length ups) < g_size g →
  let old := replay (g_start g) d in
  let new := apply_writes old ups in
  wp (boot;; transaction ups) (λ _ s,
    agree (g_start g) (d_img (c_disk (ls_bio s))) new ∧
    ∀ k, wp boot (λ _ s', agree (g_start g) (d_img (c_disk (ls_bio s'))) old ∨
                          agree (g_start g) (d_img (c_disk (ls_bio s'))) new)
      (machine (g_blocks g) (apply_writes d (take k (d_log (c_disk (ls_bio s)))))))
    (machine (g_blocks g) d).
Proof.
  intros Hf H1 Hups Hlen Hsz old new. pose proof Hf as (Hg & _).
  apply wp_bind. eapply boot_run; [done|]. intros s0 cs0 Hs0 Ha0 Hk0 Hw0.
  set (d1 := apply_writes d cs0) in *.
  assert (Hnew : agree (g_start g) (apply_writes d1 ups) new).
  { intros y Hy. apply apply_writes_at. by apply Ha0. }
  eapply wp_mono; [apply (transaction_run g s0 d1 cs0 ups); try done|].
  { eapply Forall_impl; [exact Hups|]. naive_solver. }
  intros [] s (cs & Hs & Ha & Hk & Hw). split.
  { intros y Hy. rewrite (idle_disk _ _ _ _ _ Hs), Ha by done. by apply Hnew. }
  intros k. destruct Hs as ((_ & _ & _ & _ & Hlog & _) & _). simpl in Hlog. rewrite Hlog.
  rewrite take_app, apply_writes_app. destruct (decide (k ≤ length cs0)%nat).
  - replace (k - length cs0)%nat with 0%nat by lia. rewrite take_0. simpl.
    destruct (Hk0 k) as [Hv Hr]. apply reboot_run; [by eapply formatted_crash|by left].
  - rewrite (take_ge cs0) by lia. fold d1. destruct (Hk (k - length cs0)%nat) as [Hv Hr].
    apply reboot_run.
    + eapply (formatted_crash g d1); [|exact Hw| |done].
      * unfold d1. rewrite <- (firstn_all cs0). eapply formatted_crash; [done..|].
        exact (proj1 (Hk0 (length cs0))).
      * intros (u & E & Hu)%list_elem_of_fmap. rewrite Forall_forall in Hups.
        by apply Hups in Hu as (_ & ? & _).
    + destruct Hr as [Hr|Hr]; [left|right]; intros y Hy; rewrite Hr by done;
        [by apply Ha0|by apply Hnew].
Qed.

(** A disk of 40 sectors, the last 12 of the file system's 32 being the log. *)
Definition sample_geom : geom := mkGeom 40 20 12.
Definition sample_disk : Z → block :=
  disk_upd (λ _, zero_block) 1 (put_u32 12 12 (put_u32 0 32 zero_block)).

Lemma sample_formatted : formatted sample_geom sample_disk.
Proof.
  unfold formatted, geom_ok, hdr_valid. split_and!; try (vm_compute; congruence).
  - vm_compute. constructor.
  - intros x. unfold sample_disk, disk_upd. case_match; done.
Qed.

(** Two updates of one block and one of another. *)
Definition sample_ups : list (Z * block) :=
  [(5, put_u32 0 7 zero_block); (6, zero_block); (5, zero_block)].

Lemma power_failure_witness :
  let g := sample_geom in
  let ups := sample_ups in
  let old := replay (g_start g) sample_disk in
  let new := apply_writes old ups in
  wp (boot;; transaction ups) (λ _ s,
    agree (g_start g) (d_img (c_disk (ls_bio s))) new ∧
    ∀ k, wp boot (λ _ s', agree (g_start g) (d_img (c_disk (ls_bio s'))) old ∨
                          agree (g_start g) (d_img (c_disk (ls_bio s'))) new)
      (machine (g_blocks g) (apply_writes sample_disk (take k (d_log (c_disk (ls_bio s)))))))
    (machine (g_blocks g) sample_disk).
Proof.
  refine (power_failure sample_geom sample_disk sample_ups sample_formatted _ _ _ _).
  - replace (hdr_list _) with ([] : list Z) by (vm_compute; reflexivity). apply not_elem_of_nil.
  - assert (H1 : is_block (put_u32 0 7 zero_block)) by reflexivity.
    assert (H2 : is_block zero_block) by reflexivity.
    unfold sample_ups. repeat (apply Forall_cons; split; [split_and!; [..|assumption]; cbn [fst g_start sample_geom]; lia|]).
    apply Forall_nil_2.
  - unfold NBUF, sample_ups. cbn [length]. lia.
  - unfold sample_ups. cbn [length g_size sample_geom]. lia.
Defined.

(** The same sample started up: an idle log on it. *)
Lemma sample_idle : ∃ s cs, idle (S := bio) sample_geom s (apply_writes sample_disk cs) cs.
Proof.
  assert (H : wp boot (λ _ s, ∃ cs, idle sample_geom s (apply_writes sample_disk cs) cs)
    (machine (g_blocks sample_geom) sample_disk)).
  { apply (boot_run sample_geom sample_disk); [exact sample_formatted|].
    intros s cs Hs _ _ _. exists cs. exact Hs. }
  destruct (proj1 (wp_ok _ _ _) H) as (u & s & _ & cs & Hs). exists s, cs. exact Hs.
Qed.

(** A transaction with no updates, then one that has logged two. *)
Lemma commit_trans_atomic_witness :
  ∃ (s : lst bio) d0 ws0 v L, L = [5; 6] ∧
  wp commit_trans (λ _ s', ∃ cs, idle sample_geom s' (apply_writes d0 cs) (ws0 ++ cs) ∧
    agree 20 (apply_writes d0 cs) v ∧
    (∀ k, crash_ok 20 12 (apply_writes d0 (take k cs)) d0 v) ∧
    Forall (log_or 20 L) cs) s.
Proof.
  destruct sample_idle as (s & ws & Hs).
  assert (Hg : geom_ok sample_geom) by (unfold geom_ok; simpl; lia).
  assert (H : wp (begin_trans;; (update_block 5 zero_block;; update_block 6 zero_block))
    (λ _ s', ∃ v, in_tx sample_geom s' (apply_writes sample_disk ws) ws v [5; 6] ∅ ∅) s).
  { apply wp_bind. eapply begin_trans_run; [exact Hg|exact Hs|]. intros s1 H1. apply wp_bind.
    eapply update_block_run; [exact Hg|exact H1|simpl; lia|exact zero_block_ok|simpl; unfold NBUF; lia|simpl; lia|].
    intros s2 H2. replace (log_add 5 []) with [5] in H2 by (vm_compute; reflexivity).
    eapply update_block_run; [exact Hg|exact H2|simpl; lia|exact zero_block_ok|simpl; unfold NBUF; lia|simpl; lia|].
    intros s3 H3. replace (log_add 6 [5]) with [5; 6] in H3 by (vm_compute; reflexivity).
    eexists. exact H3. }
  destruct (proj1 (wp_ok _ _ _) H) as (u & s3 & _ & v & H3).
  exists s3, (apply_writes sample_disk ws), ws, v, [5; 6]. split; [done|].
  refine (commit_trans_atomic sample_geom _ _ _ _ _ Hg H3 _). unfold NBUF. cbn [length]. lia.
Defined.
