(* ===== verification/Spinlock.v ===== *)
(** * Spinlocks (spinlock.c)

    [pushcli] and [popcli] on one CPU, and [acquire] and [release] as programs
    of any number of CPUs whose accesses to the lock interleave: one step is
    one access to shared memory, as the source makes them. *)

From stdpp Require Import base numbers list strings.
From Stdlib Require Import ZArith Lia.
From S2P Require Import Prelude.

#[local] Open Scope Z_scope.

(** ** Interrupt nesting *)

(** [ncli] and [intena] of [struct cpu], with the interrupt flag of [eflags]
    -- src/proc.h:12-13 *)
Record cpu := mkCpu {
  ncli : Z;
  intena : bool;
  iflag : bool;
}.

(** src/spinlock.c:96-105 *)
Definition pushcli : M cpu unit :=
  eflags ← gets iflag;
  modify (λ c, mkCpu (ncli c) (intena c) false);;
  n ← gets ncli;
  modify (λ c, mkCpu (n + 1) (intena c) (iflag c));;
  if n =? 0 then modify (λ c, mkCpu (ncli c) eflags (iflag c)) else mret tt.

(** src/spinlock.c:107-116 *)
Definition popcli : M cpu unit :=
  f ← gets iflag;
  if (f : bool) then panic "popcli - interruptible" else
  modify (λ c, mkCpu (ncli c - 1) (intena c) (iflag c));;
  n ← gets ncli;
  if n <? 0 then panic "popcli" else
  e ← gets intena;
  if (n =? 0) && e then modify (λ c, mkCpu (ncli c) (intena c) true) else mret tt.

(** Nesting depth is not negative, and interrupts are off inside. *)
Definition cpu_ok (c : cpu) : Prop := 0 ≤ ncli c ∧ (0 < ncli c → iflag c = false).

(** A bracket of [n] [pushcli]s, a body, and [n] [popcli]s. *)
Fixpoint repeat_m {S} (n : nat) (m : M S unit) : M S unit :=
  match n with O => mret tt | Datatypes.S n => m;; repeat_m n m end.

(** ** The lock and the CPUs that use it *)

(** [locked] and [cpu]; the saved call stack is only for debugging
    -- src/spinlock.h:2-10 *)
Record spinlock := mkLock {
  locked : Z;
  lk_cpu : option nat;
  pcs0 : Z;
}.

(** src/spinlock.c:12-18 *)
Definition initlock : spinlock := mkLock 0 None 0.

(** Where a CPU is in [acquire] or [release]: the next access it makes. *)
Inductive pc :=
  | Idle                       (** outside, not holding the lock *)
  | AcqPush                    (** [pushcli()] *)
  | AcqHoldLocked              (** [holding]: read [lk->locked] *)
  | AcqHoldCpu                 (** [holding]: read [lk->cpu] *)
  | AcqXchg                    (** [xchg(&lk->locked, 1)] *)
  | AcqSetCpu                  (** [lk->cpu = cpu] *)
  | AcqPcs                     (** [getcallerpcs(&lk, lk->pcs)] *)
  | Crit                       (** returned from [acquire] *)
  | RelHoldLocked | RelHoldCpu (** [holding] in [release] *)
  | RelPcs                     (** [lk->pcs[0] = 0] *)
  | RelClrCpu                  (** [lk->cpu = 0] *)
  | RelXchg                    (** [xchg(&lk->locked, 0)] *)
  | RelPop                     (** [popcli()] *)
  | Panicked (msg : string).

#[export] Instance pc_eq_dec : EqDecision pc.
Proof. solve_decision. Defined.

Record sys := mkSys {
  lock : spinlock;
  cpus : nat → cpu;
  at_pc : nat → pc;
}.

Definition upd {A} (f : nat → A) (i : nat) (v : A) (j : nat) : A := if (j =? i)%nat then v else f j.

Definition goto (c : nat) (p : pc) (s : sys) : sys := mkSys (lock s) (cpus s) (upd (at_pc s) c p).
Definition set_lk (l : spinlock) (s : sys) : sys := mkSys l (cpus s) (at_pc s).

(** Run a routine of CPU [c] alone and go on, or stop if it panics. *)
Definition on_cpu (c : nat) (m : M cpu unit) (next : pc) (s : sys) : sys :=
  match m (cpus s c) with
  | Ok _ k => goto c next (mkSys (lock s) (upd (cpus s) c k) (at_pc s))
  | Panic msg => goto c (Panicked msg) s
  | _ => s
  end.

Definition lk_locked (v : Z) (l : spinlock) : spinlock := mkLock v (lk_cpu l) (pcs0 l).
Definition lk_owner (v : option nat) (l : spinlock) : spinlock := mkLock (locked l) v (pcs0 l).
Definition lk_pcs (v : Z) (l : spinlock) : spinlock := mkLock (locked l) (lk_cpu l) v.

(** One access of CPU [c] inside [acquire]; [eip] is what [getcallerpcs]
    records -- src/spinlock.c:24-40 *)
Definition acquire_step (eip : Z) (c : nat) (s : sys) : sys :=
  match at_pc s c with
  | AcqPush => on_cpu c pushcli AcqHoldLocked s
  | AcqHoldLocked => goto c (if locked (lock s) =? 0 then AcqXchg else AcqHoldCpu) s
  | AcqHoldCpu =>
      goto c (if bool_decide (lk_cpu (lock s) = Some c) then Panicked "acquire" else AcqXchg) s
  | AcqXchg =>
      goto c (if locked (lock s) =? 0 then AcqSetCpu else AcqXchg) (set_lk (lk_locked 1 (lock s)) s)
  | AcqSetCpu => goto c AcqPcs (set_lk (lk_owner (Some c) (lock s)) s)
  | AcqPcs => goto c Crit (set_lk (lk_pcs eip (lock s)) s)
  | _ => s
  end.

(** One access of CPU [c] inside [release] -- src/spinlock.c:42-64 *)
Definition release_step (c : nat) (s : sys) : sys :=
  match at_pc s c with
  | RelHoldLocked => goto c (if locked (lock s) =? 0 then Panicked "release" else RelHoldCpu) s
  | RelHoldCpu =>
      goto c (if bool_decide (lk_cpu (lock s) = Some c) then RelPcs else Panicked "release") s
  | RelPcs => goto c RelClrCpu (set_lk (lk_pcs 0 (lock s)) s)
  | RelClrCpu => goto c RelXchg (set_lk (lk_owner None (lock s)) s)
  | RelXchg => goto c RelPop (set_lk (lk_locked 0 (lock s)) s)
  | RelPop => on_cpu c popcli Idle s
  | _ => s
  end.

(** [holding], when it is not interleaved with anything -- src/spinlock.c:84-89 *)
Definition holding (c : nat) (l : spinlock) : bool :=
  negb (locked l =? 0) && bool_decide (lk_cpu l = Some c).

(** The system: CPUs call [acquire] when they do not hold the lock and
    [release] when they do; their accesses interleave in any order. *)
Inductive step : sys → sys → Prop :=
  | step_call_acquire c s : at_pc s c = Idle → step s (goto c AcqPush s)
  | step_call_release c s : at_pc s c = Crit → step s (goto c RelHoldLocked s)
  | step_acquire eip c s : step s (acquire_step eip c s)
  | step_release c s : step s (release_step c s).

Inductive reachable : sys → Prop :=
  | reach_init k : (∀ c, cpu_ok (k c)) → reachable (mkSys initlock k (λ _, Idle))
  | reach_step s s' : reachable s → step s s' → reachable s'.

(** [getcallerpcs] walks the saved frame pointers of kernel stacks, at most ten;
    [mem] is the kernel's memory in 32-bit words.  The first loop
    -- src/spinlock.c:66-79 *)
Fixpoint frames (mem : Z → Z) (n : nat) (ebp : Z) : list Z :=
  match n with
  | O => []
  | Datatypes.S n =>
      if (ebp =? 0) || (ebp <? 0x80000000) || (ebp =? 0xffffffff) then []
      else mem (w32 (ebp + 4)) :: frames mem n (mem ebp)
  end.

(** [v] is the address of the caller's first argument; the second loop fills up
    with zeros -- src/spinlock.c:66-82 *)
Definition getcallerpcs (mem : Z → Z) (v : Z) : list Z :=
  let pcs := frames mem 10 (w32 (v - 8)) in
  pcs ++ replicate (10 - length pcs) 0.

(** ** Theorems *)

Lemma pushcli_run c :
  pushcli c = Ok tt (mkCpu (ncli c + 1) (if ncli c =? 0 then iflag c else intena c) false).
Proof.
  destruct c as [n e f]. unfold pushcli, mbind, M_bind, gets, modify. simpl.
  by destruct (n =? 0).
Qed.

Lemma pushcli_ok c : cpu_ok c → ∀ k, pushcli c = Ok tt k → cpu_ok k ∧ 0 < ncli k ∧ iflag k = false.
Proof.
  intros [Hn Hi] k. rewrite pushcli_run. intros [= <-]. unfold cpu_ok. simpl. split_and!; auto; lia.
Qed.

Lemma popcli_run c :
  cpu_ok c → 0 < ncli c →
  popcli c = Ok tt (mkCpu (ncli c - 1) (intena c) ((ncli c =? 1) && intena c)).
Proof.
  destruct c as [n e f]. intros [Hn Hi] Hpos. simpl in *. specialize (Hi Hpos). subst f.
  unfold popcli, mbind, M_bind, gets, modify, mret, M_ret. simpl.
  rewrite (proj2 (Z.ltb_ge _ _)) by lia.
  destruct (Z.eqb_spec n 1) as [->|]; simpl; [by destruct e|].
  rewrite (proj2 (Z.eqb_neq (n - 1) 0)) by lia. done.
Qed.

Lemma popcli_ok c : cpu_ok c → 0 < ncli c → ∃ k, popcli c = Ok tt k ∧ cpu_ok k.
Proof.
  intros Hc Hp. eexists. split; [by apply popcli_run|]. unfold cpu_ok. simpl.
  split; [lia|]. intros ?. rewrite (proj2 (Z.eqb_neq _ _)) by lia. done.
Qed.

(** Depth [n] inside a bracket entered from [c]. *)
Definition nested (c : cpu) (n : nat) : cpu :=
  match n with
  | O => c
  | _ => mkCpu (ncli c + Z.of_nat n) (if ncli c =? 0 then iflag c else intena c) false
  end.

Lemma pushes_run c n : cpu_ok c → repeat_m n pushcli c = Ok tt (nested c n).
Proof.
  intros Hc. assert (H : ∀ m, repeat_m n pushcli (nested c m) = Ok tt (nested c (m + n))).
  { induction n as [|n IH]; intros m; simpl; [by rewrite Nat.add_0_r|].
    rewrite (bind_ok _ _ _ tt (nested c (Datatypes.S m))).
    - rewrite IH. f_equal. f_equal. lia.
    - rewrite pushcli_run. destruct m as [|m]; [done|]. destruct Hc as [Hn _].
      unfold nested. cbn [ncli intena]. rewrite (proj2 (Z.eqb_neq (ncli c + Z.of_nat (Datatypes.S m)) 0)) by lia.
      do 2 f_equal. lia. }
  apply (H 0%nat).
Qed.

Lemma pop_nested c n :
  cpu_ok c → popcli (nested c (Datatypes.S n)) = Ok tt (mkCpu (ncli (nested c n)) 
    (if ncli c =? 0 then iflag c else intena c) (iflag (nested c n))).
Proof.
  intros [Hn Hi]. rewrite popcli_run; [|unfold cpu_ok; simpl; split; [lia|done]|simpl; lia].
  unfold nested. cbn [ncli intena]. destruct n as [|n].
  - replace (ncli c + Z.of_nat 1 - 1) with (ncli c) by lia. do 2 f_equal.
    destruct (Z.eqb_spec (ncli c) 0) as [E|E].
    + rewrite E. done.
    + rewrite (proj2 (Z.eqb_neq (ncli c + Z.of_nat 1) 1)) by lia. symmetry. apply Hi. lia.
  - cbn [ncli iflag]. rewrite (proj2 (Z.eqb_neq (ncli c + Z.of_nat (Datatypes.S (Datatypes.S n))) 1)) by lia.
    do 2 f_equal. lia.
Qed.

(** [pushcli] and [popcli] are matched.  From any CPU state the kernel can be
    in, any number of [pushcli]s followed by as many [popcli]s returns without
    panic, leaves the nesting depth as it was, and leaves interrupts exactly as
    they were: on only if they were on before; in between they are off. *)
Theorem pushcli_popcli c n :
  cpu_ok c →
  wp (repeat_m n pushcli) (λ _ k, (0 < n)%nat → iflag k = false) c ∧
  wp (repeat_m n pushcli;; repeat_m n popcli)
    (λ _ k, ncli k = ncli c ∧ iflag k = iflag c) c.
Proof.
  intros Hc. split; [unfold wp; rewrite pushes_run by done; destruct n; simpl; [lia|done]|].
  apply wp_bind. unfold wp at 1. rewrite pushes_run by done.
  assert (H : ∀ m k, ncli k = ncli (nested c m) → iflag k = iflag (nested c m) →
    ((0 < m)%nat → intena k = intena (nested c m)) →
    wp (repeat_m m popcli) (λ _ k, ncli k = ncli c ∧ iflag k = iflag c) k).
  { induction m as [|m IH]; intros k H1 H2 H3; simpl; [by apply wp_ret|].
    assert (Ek : k = nested c (Datatypes.S m)).
    { destruct k; simpl in *; subst; rewrite H3 by lia; done. }
    rewrite Ek. apply wp_bind. unfold wp at 1. rewrite pop_nested by done.
    apply IH; [done|done|]. simpl. intros Hm. destruct m; [lia|done]. }
  by apply H.
Qed.

(** ** Mutual exclusion *)

(** From the winning [xchg] to the releasing one. *)
Definition owns (p : pc) : bool :=
  match p with
  | AcqSetCpu | AcqPcs | Crit | RelHoldLocked | RelHoldCpu | RelPcs | RelClrCpu | RelXchg => true
  | _ => false
  end.

(** While [lk->cpu] names the CPU. *)
Definition named (p : pc) : bool :=
  match p with
  | AcqPcs | Crit | RelHoldLocked | RelHoldCpu | RelPcs | RelClrCpu => true
  | _ => false
  end.

(** Between [pushcli] and [popcli]. *)
Definition inside (p : pc) : bool :=
  match p with Idle | AcqPush => false | _ => true end.

Definition panicked (p : pc) : bool := match p with Panicked _ => true | _ => false end.

Record inv (s : sys) : Prop := {
  i_free : locked (lock s) = 0 → ∀ c, owns (at_pc s c) = false;
  i_held : locked (lock s) ≠ 0 → ∃ c, owns (at_pc s c) = true;
  i_one c c' : owns (at_pc s c) = true → owns (at_pc s c') = true → c = c';
  i_named c : named (at_pc s c) = true ↔ lk_cpu (lock s) = Some c;
  i_cpu c : cpu_ok (cpus s c);
  i_in c : inside (at_pc s c) = true → 0 < ncli (cpus s c);
  i_safe c : panicked (at_pc s c) = false;
}.

Lemma upd_eq {A} (f : nat → A) i v : upd f i v i = v.
Proof. unfold upd. by rewrite Nat.eqb_refl. Qed.
Lemma upd_ne {A} (f : nat → A) i v j : j ≠ i → upd f i v j = f j.
Proof. intros. unfold upd. by rewrite (proj2 (Nat.eqb_neq _ _)). Qed.

(** A step of CPU [c] to [p'] that changes the lock to [l'] and the CPU to [k']
    keeps the invariant if its own part of it does. *)
Lemma inv_move s s' c p' l' k' :
  lock s' = l' → (∀ j, cpus s' j = upd (cpus s) c k' j) → (∀ j, at_pc s' j = upd (at_pc s) c p' j) →
  inv s → cpu_ok k' → (inside p' = true → 0 < ncli k') → panicked p' = false →
  (locked l' = 0 → owns p' = false ∧ ∀ c', c' ≠ c → owns (at_pc s c') = false) →
  (locked l' ≠ 0 → owns p' = true ∨ ∃ c', c' ≠ c ∧ owns (at_pc s c') = true) →
  (owns p' = true → ∀ c', c' ≠ c → owns (at_pc s c') = false) →
  (∀ c', lk_cpu l' = Some c' ↔ (c' = c ∧ named p' = true) ∨ (c' ≠ c ∧ named (at_pc s c') = true)) →
  inv s'.
Proof.
  intros <- Ecpu Epc Hs Hk Hin Hp Hfree Hheld Hone Hname.
  constructor; try setoid_rewrite Epc; try setoid_rewrite Ecpu.
  - intros H0 c'. destruct (Hfree H0). destruct (decide (c' = c)) as [->|Hne];
      rewrite ?upd_eq, ?upd_ne by done; auto.
  - intros H0. destruct (Hheld H0) as [Ho|(c' & Hne & Ho)].
    + exists c. by rewrite upd_eq.
    + exists c'. by rewrite upd_ne.
  - intros c1 c2. destruct (decide (c1 = c)) as [->|H1], (decide (c2 = c)) as [->|H2];
      rewrite ?upd_eq, ?upd_ne by done; [done| | |by apply (i_one s)].
    + intros Ho. rewrite Hone by done. done.
    + intros Ho1 Ho. rewrite Hone in Ho1 by done. done.
  - intros c'. rewrite Hname. destruct (decide (c' = c)) as [->|Hne];
      rewrite ?upd_eq, ?upd_ne by done; naive_solver.
  - intros c'. destruct (decide (c' = c)) as [->|Hne];
      rewrite ?upd_eq, ?upd_ne by done; [done|apply (i_cpu s Hs)].
  - intros c'. destruct (decide (c' = c)) as [->|Hne];
      rewrite ?upd_eq, ?upd_ne by done; [done|apply (i_in s Hs)].
  - intros c'. destruct (decide (c' = c)) as [->|Hne];
      rewrite ?upd_eq, ?upd_ne by done; [done|apply (i_safe s Hs)].
Qed.

(** Nobody else owns the lock while [c] does. *)
Lemma inv_others s c c' : inv s → owns (at_pc s c) = true → c' ≠ c → owns (at_pc s c') = false.
Proof.
  intros Hs Ho Hne. apply not_true_is_false. intros Ho'. apply Hne. by apply (i_one s Hs).
Qed.

(** A move that changes neither ownership nor the lock's two fields. *)
Lemma inv_local s s' c p' k' :
  (∀ j, cpus s' j = upd (cpus s) c k' j) → (∀ j, at_pc s' j = upd (at_pc s) c p' j) →
  inv s → locked (lock s') = locked (lock s) → lk_cpu (lock s') = lk_cpu (lock s) →
  owns p' = owns (at_pc s c) → named p' = named (at_pc s c) → panicked p' = false →
  cpu_ok k' → (inside p' = true → 0 < ncli k') → inv s'.
Proof.
  intros Ecpu Epc Hs El Ec Eo En Hp Hk Hin.
  apply (inv_move s s' c p' (lock s') k'); auto; rewrite ?El, ?Ec, ?Eo, ?En.
  - intros H0. split; [|intros c' _]; by apply (i_free s Hs).
  - intros H0. destruct (i_held s Hs H0) as [c' Ho].
    destruct (decide (c' = c)) as [->|]; [by left|right; eauto].
  - intros Ho c' Hne. by apply (inv_others s c).
  - intros c'. rewrite <- (i_named s Hs c'). destruct (decide (c' = c)) as [->|]; naive_solver.
Qed.


Lemma upd_self {A} (f : nat → A) c j : f j = upd f c (f c) j.
Proof. unfold upd. by destruct (Nat.eqb_spec j c) as [->|]. Qed.

(** [goto] within the same part of the protocol. *)
Lemma inv_goto s c p' :
  inv s → owns p' = owns (at_pc s c) → named p' = named (at_pc s c) → panicked p' = false →
  (inside p' = true → 0 < ncli (cpus s c)) → inv (goto c p' s).
Proof.
  intros Hs Eo En Hp Hin.
  apply (inv_local s _ c p' (cpus s c)); auto; [intros j; apply upd_self|apply (i_cpu s Hs)].
Qed.

(** Facts about a CPU from where it is. *)
Lemma inv_at s c :
  inv s → (inside (at_pc s c) = true → 0 < ncli (cpus s c)) ∧
  (owns (at_pc s c) = true → locked (lock s) ≠ 0) ∧
  (named (at_pc s c) = true → lk_cpu (lock s) = Some c) ∧
  (named (at_pc s c) = false → lk_cpu (lock s) ≠ Some c).
Proof.
  intros Hs. split_and!.
  - apply (i_in s Hs).
  - intros Ho H0. by rewrite (i_free s Hs H0) in Ho.
  - apply (i_named s Hs).
  - intros Hn E. apply (i_named s Hs) in E. congruence.
Qed.

#[local] Ltac moved Hs :=
  simpl; try done; try (intros; apply upd_self); try apply (i_cpu _ Hs); auto.

Lemma inv_acquire_step eip c s : inv s → inv (acquire_step eip c s).
Proof.
  intros Hs. destruct (inv_at s c Hs) as (Hin & Hown & Hnm & Hnn). unfold acquire_step.
  destruct (at_pc s c) eqn:Epc; try done; simpl in *.
  - unfold on_cpu. rewrite pushcli_run.
    destruct (pushcli_ok _ (i_cpu s Hs c) _ (pushcli_run _)) as (Hk & Hpos & _).
    eapply (inv_local s _ c AcqHoldLocked); rewrite ?Epc; try done.
  - destruct (locked (lock s) =? 0); apply inv_goto; rewrite ?Epc; auto.
  - rewrite bool_decide_false by auto. apply inv_goto; rewrite ?Epc; auto.
  - destruct (Z.eqb_spec (locked (lock s)) 0) as [H0|H0].
    + eapply (inv_move s _ c AcqSetCpu _ (cpus s c)); moved Hs.
      * intros _ c' _. by apply (i_free s Hs).
      * intros c'. rewrite <- (i_named s Hs c'). destruct (decide (c' = c)) as [->|]; [|naive_solver].
        rewrite Epc. naive_solver.
    + eapply (inv_move s _ c AcqXchg _ (cpus s c)); moved Hs.
      * intros _. destruct (i_held s Hs H0) as [c' Ho]. right. exists c'. split; [|done].
        intros ->. by rewrite Epc in Ho.
      * intros c'. rewrite <- (i_named s Hs c'). destruct (decide (c' = c)) as [->|]; [|naive_solver].
        rewrite Epc. naive_solver.
  - assert (Ho : owns (at_pc s c) = true) by by rewrite Epc.
    eapply (inv_move s _ c AcqPcs _ (cpus s c)); moved Hs.
    + intros H0. by destruct (Hown eq_refl).
    + intros _ c' Hne. by apply (inv_others s c).
    + intros c'. split; [naive_solver|]. intros [[-> _]|[Hne Hn]]; [done|].
      assert (owns (at_pc s c') = true) by (by destruct (at_pc s c')).
      rewrite (inv_others s c c') in * by done. done.
  - eapply (inv_local s _ c Crit (cpus s c)); rewrite ?Epc; moved Hs.
Qed.

Lemma inv_release_step c s : inv s → inv (release_step c s).
Proof.
  intros Hs. destruct (inv_at s c Hs) as (Hin & Hown & Hnm & Hnn). unfold release_step.
  destruct (at_pc s c) eqn:Epc; try done; simpl in *.
  - rewrite (proj2 (Z.eqb_neq _ _)) by auto. apply inv_goto; rewrite ?Epc; auto.
  - rewrite bool_decide_true by auto. apply inv_goto; rewrite ?Epc; auto.
  - eapply (inv_local s _ c RelClrCpu (cpus s c)); rewrite ?Epc; moved Hs.
  - assert (Ho : owns (at_pc s c) = true) by by rewrite Epc.
    eapply (inv_move s _ c RelXchg _ (cpus s c)); moved Hs.
    + intros H0. by destruct (Hown eq_refl).
    + intros _ c' Hne. by apply (inv_others s c).
    + intros c'. split; [done|]. intros [[_ ?]|[Hne Hn]]; [done|].
      apply (i_named s Hs) in Hn. rewrite Hnm in Hn by done. naive_solver.
  - assert (Ho : owns (at_pc s c) = true) by by rewrite Epc.
    eapply (inv_move s _ c RelPop _ (cpus s c)); moved Hs.
    + intros _. split; [done|]. intros c' Hne. by apply (inv_others s c).
    + intros c'. rewrite <- (i_named s Hs c'). destruct (decide (c' = c)) as [->|]; [|naive_solver].
      rewrite Epc. naive_solver.
  - unfold on_cpu. destruct (popcli_ok _ (i_cpu s Hs c) (Hin eq_refl)) as (k & -> & Hk).
    eapply (inv_local s _ c Idle k); rewrite ?Epc; moved Hs.
Qed.

Lemma reachable_inv s : reachable s → inv s.
Proof.
  induction 1 as [k Hk|s s' _ Hs Hst].
  - constructor; simpl; done.
  - destruct Hst as [c s Epc|c s Epc|eip c s|c s].
    + apply inv_goto; rewrite ?Epc; try done.
    + apply inv_goto; rewrite ?Epc; try done. intros _. apply (i_in s Hs). by rewrite Epc.
    + by apply inv_acquire_step.
    + by apply inv_release_step.
Qed.

(** The access a CPU that is at a known place makes. *)
#[local] Ltac run_release c :=
  match goal with
  | |- context [release_step c (goto c ?p ?s)] =>
      let E := fresh in
      eassert (E : release_step c (goto c p s) = _) by (unfold release_step; simpl at_pc; rewrite upd_eq; reflexivity);
      rewrite E; clear E
  end.

(** What [release] leaves when its six accesses run: the CPU is outside, the
    lock is free and names nobody, and the nesting is one less. *)
Lemma release_run s c :
  inv s → at_pc s c = Crit →
  let s' := Nat.iter 6 (release_step c) (goto c RelHoldLocked s) in
  at_pc s' c = Idle ∧ lock s' = initlock ∧ ncli (cpus s' c) = ncli (cpus s c) - 1 ∧
  iflag (cpus s' c) = (ncli (cpus s c) =? 1) && intena (cpus s c).
Proof.
  intros Hs Ec. destruct (inv_at s c Hs) as (Hin & Hown & Hnm & _). rewrite Ec in *. simpl in Hin, Hown, Hnm.
  cbn zeta. cbn [Nat.iter nat_rect].
  assert (E1 : release_step c (goto c RelHoldLocked s) = goto c RelHoldCpu (goto c RelHoldLocked s)).
  { unfold release_step. simpl. by rewrite upd_eq, (proj2 (Z.eqb_neq _ _)) by auto. }
  rewrite E1. set (s1 := goto c RelHoldCpu _).
  assert (E2 : release_step c s1 = goto c RelPcs s1).
  { unfold release_step. simpl. by rewrite upd_eq, bool_decide_true by auto. }
  rewrite E2. do 4 run_release c. unfold on_cpu. simpl.
  rewrite popcli_run by (first [apply (i_cpu s Hs)|auto]). simpl. by rewrite !upd_eq.
Qed.

(** C5: Spinlocks exclude, and correct use of them never panics.  However the
    memory accesses of [acquire] and [release] on any number of CPUs interleave,
    no CPU is ever stopped by a panic of [acquire], [release] or [popcli],
    whether or not anybody holds the lock.  When a CPU is between a returned
    [acquire] and its [release], no other CPU is; it is the one [lk->cpu] names,
    so its [holding] is true and everybody else's is false; its interrupts are
    off; and when its six accesses of [release] run, it is outside with the lock
    as [initlock] made it and its interrupt nesting one less.  A CPU that is
    outside does not hold the lock, and the lock reads 0 exactly when no CPU is
    between the winning [xchg] and the releasing one. *)
Theorem spinlock_mutual_exclusion s :
  reachable s →
  (∀ c msg, at_pc s c ≠ Panicked msg) ∧
  (∀ c, at_pc s c = Crit →
    (∀ c', at_pc s c' = Crit → c' = c) ∧ lk_cpu (lock s) = Some c ∧
    (∀ c', holding c' (lock s) = bool_decide (c' = c)) ∧ iflag (cpus s c) = false ∧
    let s' := Nat.iter 6 (release_step c) (goto c RelHoldLocked s) in
    at_pc s' c = Idle ∧ lock s' = initlock ∧ ncli (cpus s' c) = ncli (cpus s c) - 1 ∧
    iflag (cpus s' c) = (ncli (cpus s c) =? 1) && intena (cpus s c)) ∧
  (∀ c, at_pc s c = Idle → holding c (lock s) = false) ∧
  (locked (lock s) = 0 ↔ ∀ c, owns (at_pc s c) = false).
Proof.
  intros Hs%reachable_inv. split_and!.
  - intros c msg E. pose proof (i_safe s Hs c) as H. by rewrite E in H.
  - intros c Ec. destruct (inv_at s c Hs) as (Hin & Hown & Hnm & _). rewrite Ec in Hin, Hown, Hnm.
    simpl in Hin, Hown, Hnm. split; [|split; [|split; [|split; [|by apply release_run]]]].
    + intros c' Ec'. apply (i_one s Hs); by rewrite ?Ec, ?Ec'.
    + by apply Hnm.
    + intros c'. unfold holding. rewrite (proj2 (Z.eqb_neq _ _)) by auto. simpl.
      rewrite Hnm by done. apply bool_decide_ext. naive_solver.
    + apply (i_cpu s Hs). by apply Hin.
  - intros c Ec. destruct (inv_at s c Hs) as (_ & _ & _ & Hnn). rewrite Ec in Hnn.
    unfold holding. rewrite bool_decide_false by auto. apply andb_false_r.
  - split; [apply (i_free s Hs)|]. intros Hno. destruct (decide (locked (lock s) = 0)) as [|Hl]; [done|].
    destruct (i_held s Hs Hl) as [c Ho]. by rewrite Hno in Ho.
Qed.

(** The lock is never lost.  In every reachable state, either the lock is
    free and any CPU spinning in [acquire] gets it with its next access, or some
    CPU is on its way through the critical section; and a CPU that already
    holds the lock and calls [acquire] again is stopped by the panic before it
    can spin on itself. *)
Theorem spinlock_progress s :
  reachable s →
  (locked (lock s) = 0 → ∀ eip c, at_pc s c = AcqXchg →
     at_pc (acquire_step eip c s) c = AcqSetCpu ∧ locked (lock (acquire_step eip c s)) = 1) ∧
  (locked (lock s) ≠ 0 → ∃ c, owns (at_pc s c) = true) ∧
  (∀ eip c, at_pc s c = Crit →
     let again := acquire_step eip c (acquire_step eip c (acquire_step eip c (goto c AcqPush s))) in
     at_pc again c = Panicked "acquire").
Proof.
  intros Hs%reachable_inv. split_and!.
  - intros H0 eip c Epc. unfold acquire_step. rewrite Epc, H0. simpl. by rewrite upd_eq.
  - apply (i_held s Hs).
  - intros eip c Epc. cbn zeta.
    destruct (inv_at s c Hs) as (_ & Hown & Hnm & _). rewrite Epc in *. simpl in *.
    assert (E1 : acquire_step eip c (goto c AcqPush s) = on_cpu c pushcli AcqHoldLocked (goto c AcqPush s)).
    { unfold acquire_step at 1. simpl. by rewrite upd_eq. }
    rewrite E1. unfold on_cpu. rewrite pushcli_run. set (s1 := goto c AcqHoldLocked _).
    assert (E2 : acquire_step eip c s1 = goto c AcqHoldCpu s1).
    { unfold acquire_step. simpl. rewrite upd_eq, (proj2 (Z.eqb_neq _ _)) by auto. done. }
    rewrite E2. unfold acquire_step. simpl. rewrite upd_eq.
    rewrite bool_decide_true by auto. simpl. by rewrite upd_eq.
Qed.

(** ** A sample run: CPU 1 acquires while CPU 0 has started to *)

Definition boot_cpu : cpu := mkCpu 0 false true.
Definition boot_sys : sys := mkSys initlock (λ _, boot_cpu) (λ _, Idle).
Definition two_cpus : sys :=
  let s := acquire_step 16 0 (goto 0 AcqPush boot_sys) in
  Nat.iter 6 (acquire_step 20 1) (goto 1 AcqPush s).

Lemma two_cpus_reachable : reachable two_cpus.
Proof.
  unfold two_cpus. repeat (eapply reach_step; [|eapply step_acquire]).
  eapply reach_step; [|by apply step_call_acquire].
  eapply reach_step; [|eapply step_acquire].
  eapply reach_step; [|by apply step_call_acquire].
  apply reach_init. intros _. unfold cpu_ok. simpl. lia.
Qed.

Lemma pushcli_popcli_witness :
  wp (repeat_m 2 pushcli) (λ _ k, (0 < 2)%nat → iflag k = false) boot_cpu ∧
  wp (repeat_m 2 pushcli;; repeat_m 2 popcli)
    (λ _ k, ncli k = ncli boot_cpu ∧ iflag k = iflag boot_cpu) boot_cpu.
Proof. apply (pushcli_popcli boot_cpu 2). split; simpl; lia. Defined.

Lemma spinlock_mutual_exclusion_witness :
  at_pc two_cpus 1 = Crit ∧ at_pc two_cpus 0 = AcqHoldLocked ∧
  (∀ c msg, at_pc two_cpus c ≠ Panicked msg) ∧
  (∀ c', holding c' (lock two_cpus) = bool_decide (c' = 1%nat)).
Proof.
  destruct (spinlock_mutual_exclusion two_cpus two_cpus_reachable) as (Hp & Hc & _).
  destruct (Hc 1%nat eq_refl) as (_ & _ & Hh & _). auto.
Defined.

Lemma spinlock_progress_witness :
  (locked (lock two_cpus) = 0 → ∀ eip c, at_pc two_cpus c = AcqXchg →
     at_pc (acquire_step eip c two_cpus) c = AcqSetCpu ∧
     locked (lock (acquire_step eip c two_cpus)) = 1) ∧
  (locked (lock two_cpus) ≠ 0 → ∃ c, owns (at_pc two_cpus c) = true) ∧
  (∀ eip c, at_pc two_cpus c = Crit →
     let again := acquire_step eip c (acquire_step eip c (acquire_step eip c (goto c AcqPush two_cpus))) in
     at_pc again c = Panicked "acquire").
Proof. exact (spinlock_progress two_cpus two_cpus_reachable). Defined.
