(* ===== verification/Kalloc.v ===== *)
(** * The physical page allocator (kalloc.c)

    Free pages are chained through their first word.  The model keeps the
    memory itself: [kfree] fills the page and stores the link, [kalloc] follows
    it.  The theorems relate the chain in memory to the list of free pages, and
    show that pages in use are disjoint from each other and from the free ones,
    whatever the users of the pages store in them. *)

From stdpp Require Import base numbers list strings sets relations.
From Stdlib Require Import ZArith Lia.
From S2P Require Import Prelude CString.

#[local] Open Scope Z_scope.

(** src/mmu.h:123-123 *)
Definition PGSIZE : Z := 4096.
(** src/mmu.h:129-129 *)
Definition PGROUNDUP (sz : Z) : Z := Z.land (w32 (sz + PGSIZE - 1)) (w32 (Z.lnot (PGSIZE - 1))).
(** src/mmu.h:130-130 *)
Definition PGROUNDDOWN (a : Z) : Z := Z.land a (w32 (Z.lnot (PGSIZE - 1))).
(** src/memlayout.h:4-4 *)
Definition PHYSTOP : Z := 0xE000000.
(** src/memlayout.h:8-8 *)
Definition KERNBASE : Z := 0x80000000.
(** src/memlayout.h:13-13 *)
Definition v2p (a : Z) : Z := w32 (a - KERNBASE).
(** src/memlayout.h:14-14 *)
Definition p2v (a : Z) : Z := w32 (a + KERNBASE).

(** A 32-bit load. *)
Definition load32 (m : mem) (a : Z) : Z :=
  m a + 256 * (m (w32 (a + 1)) + 256 * (m (w32 (a + 2)) + 256 * m (w32 (a + 3)))).

(** [kmem], with the memory its list runs through -- src/kalloc.c:19-23 *)
Record kmem := mkKmem {
  k_lock : bool;
  use_lock : bool;
  freelist : Z;
  k_mem : mem;
}.

Definition set_klock (v : bool) (k : kmem) : kmem := mkKmem v (use_lock k) (freelist k) (k_mem k).
Definition set_use (v : bool) (k : kmem) : kmem := mkKmem (k_lock k) v (freelist k) (k_mem k).
Definition set_free (v : Z) (k : kmem) : kmem := mkKmem (k_lock k) (use_lock k) v (k_mem k).
Definition set_mem (m : mem) (k : kmem) : kmem := mkKmem (k_lock k) (use_lock k) (freelist k) m.

Definition k_acquire : M kmem unit := acquire k_lock set_klock.
Definition k_release : M kmem unit := release k_lock set_klock.

Section code.
(** [end], the first address after the kernel, set by the linker. *)
Context (kend : Z).

(** src/kalloc.c:59-77 *)
Definition kfree (v : Z) : M kmem unit :=
  if negb (v `mod` PGSIZE =? 0) || (v <? kend) || (v2p v >=? PHYSTOP) then panic "kfree" else
  modify (λ k, set_mem (memset (k_mem k) v 1 PGSIZE) k);;
  u ← gets use_lock;
  (if (u : bool) then k_acquire else mret tt);;
  modify (λ k, set_mem (store32 (k_mem k) v (freelist k)) k);;
  modify (set_free v);;
  u ← gets use_lock;
  if (u : bool) then k_release else mret tt.

(** src/kalloc.c:82-95 *)
Definition kalloc : M kmem Z :=
  u ← gets use_lock;
  (if (u : bool) then k_acquire else mret tt);;
  r ← gets freelist;
  (if negb (r =? 0) then modify (λ k, set_free (load32 (k_mem k) r) k) else mret tt);;
  u ← gets use_lock;
  (if (u : bool) then k_release else mret tt);;
  mret r.

(** [for(; p + PGSIZE <= vend; p += PGSIZE)] -- src/kalloc.c:50-51 *)
Fixpoint freerange_loop (fuel : nat) (p vend : Z) : M kmem unit :=
  match fuel with
  | O => nofuel
  | S fuel =>
      if w32 (p + PGSIZE) <=? vend
      then kfree p;; freerange_loop fuel (w32 (p + PGSIZE)) vend
      else mret tt
  end.

(** The loop runs at most once per page of the address space
    -- src/kalloc.c:45-52 *)
Definition freerange (vstart vend : Z) : M kmem unit :=
  freerange_loop (S (Z.to_nat (2^32 / PGSIZE))) (PGROUNDUP vstart) vend.

(** src/kalloc.c:30-36 *)
Definition kinit1 (vstart vend : Z) : M kmem unit :=
  modify (set_klock false);;
  modify (set_use false);;
  freerange vstart vend.

(** src/kalloc.c:38-43 *)
Definition kinit2 (vstart vend : Z) : M kmem unit :=
  freerange vstart vend;;
  modify (set_use true).
End code.

(** ** The free list in memory *)

Fixpoint chain (m : mem) (p : Z) (l : list Z) : Prop :=
  match l with
  | [] => p = 0
  | x :: l => p = x ∧ chain m (load32 m x) l
  end.

Lemma shiftr_bytes v n : 0 ≤ n → w8 (Z.shiftr v n) = (v / 2^n) `mod` 256.
Proof. intros. by rewrite Z.shiftr_div_pow2. Qed.

Lemma load32_store32 m a v :
  0 ≤ a → a + 4 ≤ 2^32 → 0 ≤ v < 2^32 → load32 (store32 m a v) a = v.
Proof.
  intros. unfold load32, store32, upd. rewrite !w32_small by lia.
  repeat (rewrite ?Z.eqb_refl; rewrite ?(proj2 (Z.eqb_neq _ _)) by lia).
  rewrite !shiftr_bytes by lia. unfold w8.
  change (2 ^ 8) with 256. change (2 ^ 16) with (256 * 256). change (2 ^ 24) with (256 * 256 * 256).
  rewrite <- !Z.div_div by lia.
  pose proof (Z.div_mod v 256). pose proof (Z.div_mod (v / 256) 256).
  pose proof (Z.div_mod (v / 256 / 256) 256).
  rewrite (Z.mod_small (v / 256 / 256 / 256)); [lia|].
  rewrite !Z.div_div by lia. split; [apply Z.div_pos; lia|apply Z.div_lt_upper_bound; lia].
Qed.

Lemma load32_ext m m' a :
  0 ≤ a → a + 4 ≤ 2^32 → (∀ x, a ≤ x < a + 4 → m x = m' x) → load32 m a = load32 m' a.
Proof. intros Ha Hb H. unfold load32. rewrite !w32_small by lia. by rewrite !H by lia. Qed.

Lemma store32_other m a v x :
  0 ≤ a → a + 4 ≤ 2^32 → ¬ (a ≤ x < a + 4) → store32 m a v x = m x.
Proof.
  intros. unfold store32, upd. rewrite !w32_small by lia. repeat case_match; lia.
Qed.

Section proofs.
Context (kend : Z) (Hend : KERNBASE < kend ≤ KERNBASE + PHYSTOP).

(** The pages the allocator may hold. *)
Definition is_page (p : Z) : Prop := p `mod` PGSIZE = 0 ∧ kend ≤ p < KERNBASE + PHYSTOP.

Lemma page_top p : is_page p → p + PGSIZE ≤ KERNBASE + PHYSTOP.
Proof.
  unfold is_page, PGSIZE, KERNBASE, PHYSTOP. intros [Hm Hp].
  pose proof (Z.div_mod p 4096 ltac:(lia)). lia.
Qed.

Lemma page_apart p q : is_page p → is_page q → p ≠ q → p + PGSIZE ≤ q ∨ q + PGSIZE ≤ p.
Proof.
  unfold is_page, PGSIZE. intros [Hp _] [Hq _] Hne.
  pose proof (Z.div_mod p 4096 ltac:(lia)). pose proof (Z.div_mod q 4096 ltac:(lia)).
  destruct (Z.lt_trichotomy (p / 4096) (q / 4096)) as [|[|]]; lia.
Qed.

Lemma chain_ext m m' p l :
  Forall is_page l → (∀ q a, q ∈ l → q ≤ a < q + 4 → m a = m' a) → chain m p l → chain m' p l.
Proof.
  revert p. induction l as [|x l IH]; intros p Hl Hm; [done|].
  apply Forall_cons in Hl as [Hx Hl]. intros [-> Hc]. split; [done|].
  pose proof (page_top x Hx). destruct Hx as [_ Hx]. unfold KERNBASE, PHYSTOP, PGSIZE in *.
  rewrite <- (load32_ext m m') by (lia || (intros; apply (Hm x); [set_solver|lia])).
  apply IH; [done| |done]. intros q a Hq. apply Hm. set_solver.
Qed.

(** The allocator is quiet and its free list is [l]. *)
Definition kmem_ok (k : kmem) (l : list Z) : Prop :=
  k_lock k = false ∧ chain (k_mem k) (freelist k) l ∧ Forall is_page l ∧ NoDup l.

Lemma freelist_bound k l : kmem_ok k l → 0 ≤ freelist k < 2^32 ∧ (freelist k = 0 ↔ l = []).
Proof.
  intros (_ & Hc & Hl & _). destruct l as [|x l]; simpl in Hc.
  - rewrite Hc. split; [lia|naive_solver].
  - destruct Hc as [-> _]. apply Forall_cons in Hl as [[_ Hx] _].
    unfold KERNBASE, PHYSTOP in *. split; [lia|]. split; [lia|naive_solver].
Qed.

Lemma kfree_run k l v (Q : unit → kmem → Prop) :
  kmem_ok k l → is_page v → v ∉ l →
  (∀ k', kmem_ok k' (v :: l) → use_lock k' = use_lock k →
     (∀ a, v + 4 ≤ a < v + PGSIZE → k_mem k' a = 1) →
     (∀ a, ¬ (v ≤ a < v + PGSIZE) → k_mem k' a = k_mem k a) → Q tt k') →
  wp (kfree kend v) Q k.
Proof.
  intros Hk Hv Hn HQ. pose proof (freelist_bound _ _ Hk) as [Hfb _].
  destruct Hk as (Hlk & Hc & Hl & Hnd). pose proof (page_top v Hv) as Htop.
  pose proof Hv as [Hmod Hrange]. unfold kfree, k_acquire, k_release, v2p.
  unfold KERNBASE, PHYSTOP, PGSIZE in *.
  rewrite Hmod, (proj2 (Z.ltb_ge _ _)), w32_small, geb_false by lia. cbn [negb orb Z.eqb].
  set (m' := store32 (memset (k_mem k) v 1 4096) v (freelist k)).
  assert (Hin : ∀ a, v + 4 ≤ a < v + 4096 → m' a = 1).
  { intros a Ha. unfold m'. rewrite store32_other, memset_spec by lia. by rewrite decide_True by lia. }
  assert (Hout : ∀ a, ¬ (v ≤ a < v + 4096) → m' a = k_mem k a).
  { intros a Ha. unfold m'. rewrite store32_other, memset_spec by lia. by rewrite decide_False by lia. }
  assert (Hch : chain m' v (v :: l)).
  { split; [done|]. unfold m' at 2. rewrite load32_store32 by lia.
    eapply chain_ext; [done| |exact Hc]. intros q a Hq Ha. symmetry. apply Hout.
    rewrite Forall_forall in Hl. destruct (page_apart q v (Hl q Hq) Hv); [set_solver|..];
      unfold PGSIZE in *; lia. }
  assert (Hok : ∀ lk, lk = false → kmem_ok (mkKmem lk (use_lock k) v m') (v :: l)).
  { intros lk ->. split_and!; [done|exact Hch|by constructor|by constructor]. }
  wp_run. cbn [use_lock set_mem]. destruct (use_lock k) eqn:Eu; wp_run.
  - apply wp_acquire; [done|]. wp_run. cbn. rewrite Eu. apply wp_release; [done|].
    apply HQ; [by apply Hok|done|done|done].
  - cbn. rewrite Eu. apply wp_ret. apply HQ; [by apply Hok|done|done|done].
Qed.

Lemma kalloc_run k l (Q : Z → kmem → Prop) :
  kmem_ok k l →
  (∀ k', kmem_ok k' (tail l) → use_lock k' = use_lock k → k_mem k' = k_mem k →
     Q (default 0 (head l)) k') →
  wp kalloc Q k.
Proof.
  intros Hk HQ. pose proof (freelist_bound _ _ Hk) as [_ Hz].
  destruct Hk as (Hlk & Hc & Hl & Hnd). destruct k as [lk u f m]. simpl in *. subst lk.
  assert (Hok : ∀ f, chain m f (tail l) → kmem_ok (mkKmem false u f m) (tail l)).
  { intros f' Hf. split_and!; [done|exact Hf|by destruct l; [|apply Forall_cons in Hl as [_ ?]]|].
    by destruct l; [|apply NoDup_cons in Hnd as [_ ?]]. }
  unfold wp, kalloc, k_acquire, k_release, acquire, release, modify, gets, mbind, M_bind, mret, M_ret.
  destruct l as [|x l]; simpl in *.
  - subst f. destruct u; simpl; (apply HQ; [by apply Hok|done|done]).
  - destruct Hc as [-> Hc]. assert (Hx : x ≠ 0) by naive_solver.
    destruct x; [done|..]; destruct u; simpl; (apply HQ; [by apply Hok|done|done]).
Qed.

(** The pages of a range, lowest last, as they end up on the free list. *)
Fixpoint pages (n : nat) (p : Z) (l : list Z) : list Z :=
  match n with O => l | S n => pages n (p + PGSIZE) (p :: l) end.

Lemma freerange_loop_run fuel n p vend k l (Q : unit → kmem → Prop) :
  kmem_ok k l → kend ≤ p → p `mod` PGSIZE = 0 →
  n = O ∨ p + Z.of_nat n * PGSIZE ≤ vend → vend < p + (Z.of_nat n + 1) * PGSIZE →
  vend ≤ KERNBASE + PHYSTOP → p ≤ KERNBASE + PHYSTOP + PGSIZE → (n < fuel)%nat → Forall (λ q, ¬ (p ≤ q < vend)) l →
  (∀ k', kmem_ok k' (pages n p l) → use_lock k' = use_lock k → Q tt k') →
  wp (freerange_loop kend fuel p vend) Q k.
Proof.
  revert p k l fuel. unfold KERNBASE, PHYSTOP, PGSIZE in *.
  induction n as [|n IH]; intros p k l fuel Hk Hp Hmod Hv1 Hv2 Htop Hpt Hf Hl HQ;
    (destruct fuel as [|fuel]; [lia|]); cbn [freerange_loop]; unfold PGSIZE;
    rewrite w32_small by lia.
  - rewrite (proj2 (Z.leb_gt _ _)) by lia. apply wp_ret. by apply HQ.
  - rewrite (proj2 (Z.leb_le _ _)) by lia. apply wp_bind.
    apply (kfree_run k l p); [done| | |].
    + unfold is_page, KERNBASE, PHYSTOP, PGSIZE. split; [done|lia].
    + intros Hin. rewrite Forall_forall in Hl. apply (Hl p Hin). lia.
    + intros k1 Hk1 Hu1 _ _. eapply (IH _ _ (p :: l)); [done|lia| |lia|lia|lia|lia|lia| |].
      * rewrite <- Hmod. replace (p + 4096) with (p + 1 * 4096) by lia. by rewrite Z.mod_add by lia.
      * constructor; [lia|]. eapply Forall_impl; [done|]. simpl. lia.
      * intros k2 Hk2 Hu2. apply HQ; [done|congruence].
Qed.

Lemma PGROUNDUP_spec v : 0 ≤ v → v + PGSIZE ≤ 2^32 → PGROUNDUP v = (v + PGSIZE - 1) / PGSIZE * PGSIZE.
Proof.
  intros Hv Ht. unfold PGROUNDUP, PGSIZE in *. rewrite w32_small by lia.
  change (w32 (Z.lnot (4096 - 1))) with (Z.ldiff (Z.ones 32) (Z.ones 12)). by apply land_high; lia.
Qed.

Lemma freerange_run vstart vend k l (Q : unit → kmem → Prop) :
  kmem_ok k l → kend ≤ vstart ≤ vend → vend ≤ KERNBASE + PHYSTOP →
  Forall (λ q, ¬ (vstart ≤ q < vend)) l →
  (∀ k', let p := PGROUNDUP vstart in
     kmem_ok k' (pages (Z.to_nat ((vend - p) / PGSIZE)) p l) →
     use_lock k' = use_lock k → Q tt k') →
  wp (freerange kend vstart vend) Q k.
Proof.
  intros Hk Hvs Htop Hl HQ. unfold KERNBASE, PHYSTOP in *.
  pose proof (PGROUNDUP_spec vstart ltac:(lia) ltac:(unfold PGSIZE; lia)) as Ep.
  set (p := PGROUNDUP vstart) in *. unfold PGSIZE in *.
  pose proof (Z.div_mod (vstart + 4096 - 1) 4096 ltac:(lia)).
  pose proof (Z.mod_pos_bound (vstart + 4096 - 1) 4096 ltac:(lia)).
  pose proof (Z.div_mod (vend - p) 4096 ltac:(lia)).
  pose proof (Z.mod_pos_bound (vend - p) 4096 ltac:(lia)).
  unfold freerange. fold p.
  eapply (freerange_loop_run _ (Z.to_nat ((vend - p) / 4096)) p vend k l);
    unfold KERNBASE, PHYSTOP, PGSIZE; [done|lia|rewrite Ep; by apply Z.mod_mul|lia|lia|lia|lia| | |done].
  - assert ((vend - p) / 4096 ≤ 2^32 / 4096) by (apply Z.div_le_mono; lia). lia.
  - eapply Forall_impl; [done|]. simpl. lia.
Qed.

(** ** Pages in use

    The allocator with the pages its users hold.  A user may store anything in
    the pages it holds. *)
Inductive kstep : kmem * list Z → kmem * list Z → Prop :=
  | k_alloc k k' used p : kalloc k = Ok p k' → p ≠ 0 → kstep (k, used) (k', p :: used)
  | k_full k k' used : kalloc k = Ok 0 k' → kstep (k, used) (k', used)
  | k_free k k' used1 p used2 : kfree kend p k = Ok tt k' →
      kstep (k, used1 ++ p :: used2) (k', used1 ++ used2)
  | k_store k used p a b : p ∈ used → p ≤ a < p + PGSIZE →
      kstep (k, used) (set_mem (upd (k_mem k) a b) k, used).

Definition kinv (s : kmem * list Z) : Prop :=
  ∃ l, kmem_ok s.1 l ∧ Forall is_page s.2 ∧ NoDup (l ++ s.2).

Lemma kinv_step s s' : kinv s → kstep s s' → kinv s'.
Proof.
  intros (l & Hk & Hu & Hnd) Hst. destruct Hst as [k k' used p E Hp|k k' used E|k k' u1 p u2 E|k used p a b Hp Ha];
    simpl in *.
  - assert (H : wp kalloc (λ r k', ∃ l', l = r :: l' ∧ kmem_ok k' l' ∨ r = 0) k).
    { apply (kalloc_run k l); [done|]. intros k1 Hk1 _ _. destruct l as [|x l]; simpl in *; [by exists []; right|].
      exists l. by left. }
    unfold wp in H. rewrite E in H. destruct H as (l' & [[-> Hk']|?]); [|done].
    exists l'. destruct Hk as (_ & _ & Hl & _). apply Forall_cons in Hl as [Hx Hl].
    split_and!; [done|by constructor|]. simpl. rewrite <- Permutation_middle. done.
  - assert (H : wp kalloc (λ r k', r = 0 → kmem_ok k' l) k).
    { apply (kalloc_run k l); [done|]. intros k1 Hk1 _ _ E0. destruct l as [|x l]; simpl in *; [done|].
      destruct Hk as (_ & _ & [[_ Hx] _]%Forall_cons & _). unfold KERNBASE in *. lia. }
    unfold wp in H. rewrite E in H. exists l. by split; [apply H|].
  - apply Forall_app in Hu as [Hu1 [Hp Hu2]%Forall_cons].
    assert (H : wp (kfree kend p) (λ _ k', kmem_ok k' (p :: l)) k).
    { apply (kfree_run k l); [done|done| |by intros k1 Hk1 _ _ _].
      rewrite NoDup_app in Hnd. set_solver. }
    unfold wp in H. rewrite E in H. exists (p :: l). split_and!; [done|by apply Forall_app|].
    simpl. by rewrite <- (Permutation_middle u1 u2 p), <- Permutation_middle in Hnd.
  - exists l. split_and!; [|done|done]. destruct Hk as (Hlk & Hc & Hl & Hn). split_and!; [done| |done|done].
    simpl. eapply chain_ext; [done| |exact Hc]. intros q x Hq Hx. unfold upd.
    rewrite Forall_forall in Hu, Hl. rewrite (proj2 (Z.eqb_neq _ _)); [done|].
    assert (q ≠ p) by (rewrite NoDup_app in Hnd; set_solver).
    destruct (page_apart q p) as [Hap|Hap]; [by apply Hl|by apply Hu|done|..]; unfold PGSIZE in *; lia.
Qed.

(** C6: Pages are owned.  Whatever sequence of [kalloc]s, [kfree]s of pages in use
    and stores into pages in use follows, no page is handed out while it is in
    use or on the free list twice, pages in use lie between the kernel's end and
    the top of physical memory, and the next [kalloc] and the next [kfree] of a
    page in use return (they neither panic nor run into a damaged list). *)
Theorem page_ownership s s' :
  kinv s → rtc kstep s s' →
  NoDup s'.2 ∧ Forall is_page s'.2 ∧
  wp kalloc (λ p _, p = 0 ∨ is_page p ∧ p ∉ s'.2) s'.1 ∧
  ∀ p, p ∈ s'.2 → wp (kfree kend p) (λ _ k, freelist k = p) s'.1.
Proof.
  intros Hs Hr. assert (Hs' : kinv s').
  { clear -Hend Hs Hr. induction Hr; [done|]. eauto using kinv_step. }
  destruct Hs' as (l & Hk & Hu & Hnd). split_and!; [by apply NoDup_app in Hnd as (_ & _ & ?)|done| |].
  - apply (kalloc_run _ l); [done|]. intros k _ _ _. destruct l as [|x l]; [by left|right]. simpl.
    destruct Hk as (_ & _ & [Hx _]%Forall_cons & _). split; [done|].
    apply NoDup_app in Hnd as (_ & H & _). set_solver.
  - intros p Hp. apply (kfree_run _ l); [done|by rewrite Forall_forall in Hu; apply Hu| |].
    + apply NoDup_app in Hnd as (_ & H & _). set_solver.
    + intros k (_ & [Hf _] & _) _ _ _. done.
Qed.

(** [kinit1] and [kinit2] put every whole page of their range on the free
    list, and [kalloc] hands them out last in, first out: after [kinit1] on a
    range within physical memory the allocator is consistent, and its free
    list, followed through memory, is the pages from the highest to the
    lowest. *)
Theorem kinit1_free m vstart vend :
  kend ≤ vstart ≤ vend → vend ≤ KERNBASE + PHYSTOP →
  wp (kinit1 kend vstart vend) (λ _ k,
    let p := PGROUNDUP vstart in
    let l := pages (Z.to_nat ((vend - p) / PGSIZE)) p [] in
    kinv (k, []) ∧ chain (k_mem k) (freelist k) l ∧ use_lock k = false ∧
    wp kalloc (λ r k', r = default 0 (head l) ∧ chain (k_mem k') (freelist k') (tail l)) k)
    (mkKmem false false 0 m).
Proof.
  intros Hvs Htop. unfold kinit1. wp_run.
  apply (freerange_run _ _ _ []); [|done|done|done|].
  { by split_and!; [| |constructor|constructor]. }
  intros k p Hk Hu. split_and!; [|apply Hk|done|].
  - eexists. split_and!; [exact Hk|constructor|]. rewrite app_nil_r. apply Hk.
  - eapply kalloc_run; [exact Hk|]. intros k' Hk' _ _. split; [done|apply Hk'].
Qed.
End proofs.

(** ** A sample machine: two pages above a kernel that ends in the middle of one *)

Definition sample_end : Z := KERNBASE + 0x10a00.
Definition sample_page : Z := KERNBASE + 0x11000.
Definition empty_kmem : kmem := mkKmem false false 0 (λ _, 0).

Lemma sample_end_ok : KERNBASE < sample_end ≤ KERNBASE + PHYSTOP.
Proof. unfold sample_end, KERNBASE, PHYSTOP. lia. Qed.

Lemma kinit1_free_witness :
  wp (kinit1 sample_end sample_end (KERNBASE + 0x13000)) (λ _ k,
    let p := PGROUNDUP sample_end in
    let l := pages (Z.to_nat ((KERNBASE + 0x13000 - p) / PGSIZE)) p [] in
    kinv sample_end (k, []) ∧ chain (k_mem k) (freelist k) l ∧ use_lock k = false ∧
    wp kalloc (λ r k', r = default 0 (head l) ∧ chain (k_mem k') (freelist k') (tail l)) k)
    (mkKmem false false 0 (λ _, 0)).
Proof.
  apply (kinit1_free sample_end sample_end_ok (λ _, 0) sample_end (KERNBASE + 0x13000));
    unfold sample_end, KERNBASE, PHYSTOP; lia.
Defined.

(** One page in use, with something stored in it. *)
Lemma page_ownership_witness :
  let s' := (set_mem (upd (k_mem empty_kmem) (sample_page + 5) 42) empty_kmem, [sample_page]) in
  NoDup s'.2 ∧ Forall (is_page sample_end) s'.2 ∧
  wp kalloc (λ p _, p = 0 ∨ is_page sample_end p ∧ p ∉ s'.2) s'.1 ∧
  ∀ p, p ∈ s'.2 → wp (kfree sample_end p) (λ _ k, freelist k = p) s'.1.
Proof.
  apply (page_ownership sample_end sample_end_ok (empty_kmem, [sample_page])).
  - exists []. split_and!; [by split_and!; [| |constructor|constructor]| |apply NoDup_singleton].
    apply Forall_singleton. split; [reflexivity|].
    unfold sample_end, sample_page, KERNBASE, PHYSTOP; simpl; lia.
  - apply rtc_once. apply (k_store _ _ _ sample_page); [set_solver|]. unfold PGSIZE. lia.
Defined.
