(* ===== verification/Pipe.v ===== *)
(** * Pipes (pipe.c)

    [pipewrite] and [piperead] run under the pipe's lock except while they
    sleep, so a call is a sequence of atomic segments that end when it returns
    or goes to sleep.  The data is a ring of PIPESIZE bytes indexed by the
    free-running 32-bit counters [nread] and [nwrite]; the theorems relate it to
    a bounded queue, and the interleaved calls of many readers and writers to
    one byte stream. *)

From stdpp Require Import base numbers list strings sets relations.
From Stdlib Require Import ZArith Lia.
From S2P Require Import Prelude.

#[local] Open Scope Z_scope.

(** src/pipe.c:10-10 *)
Definition PIPESIZE : Z := 512.

(** The two channels of a pipe, the addresses of its counters. *)
Inductive pchan := NRead | NWrite.

#[export] Instance pchan_eq_dec : EqDecision pchan.
Proof. solve_decision. Defined.

(** [struct pipe], with the wakeups it has issued -- src/pipe.c:12-19 *)
Record pipe := mkPipe {
  p_data : list Z;
  nread : Z;
  nwrite : Z;
  readopen : bool;
  writeopen : bool;
  p_woken : list pchan;
}.

Definition pwake (c : pchan) (p : pipe) : pipe :=
  mkPipe (p_data p) (nread p) (nwrite p) (readopen p) (writeopen p) (p_woken p ++ [c]).

(** The fields [pipealloc] sets; the data bytes are whatever the page held
    -- src/pipe.c:32-36 *)
Definition pipe_init (junk : list Z) : pipe := mkPipe junk 0 0 true true [].

(** [p->data[p->nwrite++ % PIPESIZE] = b] -- src/pipe.c:92-92 *)
Definition put_byte (b : Z) (p : pipe) : pipe :=
  mkPipe (<[Z.to_nat (nwrite p `mod` PIPESIZE) := b]> (p_data p)) (nread p) (w32 (nwrite p + 1))
    (readopen p) (writeopen p) (p_woken p).

(** [p->data[p->nread++ % PIPESIZE]] -- src/pipe.c:115-115 *)
Definition get_byte (p : pipe) : Z * pipe :=
  (nth (Z.to_nat (nread p `mod` PIPESIZE)) (p_data p) 0,
   mkPipe (p_data p) (w32 (nread p + 1)) (nwrite p) (readopen p) (writeopen p) (p_woken p)).

(** How a segment of [pipewrite] ends: with [n] bytes written, with -1, or
    asleep on [nwrite] with the bytes [rest] still to write. *)
Inductive wres := WDone | WFail | WSleep (rest : list Z).

(** [pipewrite] from the point where the bytes [bs] are left, to its return or
    its next sleep -- src/pipe.c:77-97 *)
Fixpoint pipewrite (killed : bool) (bs : list Z) (p : pipe) : wres * pipe :=
  match bs with
  | [] => (WDone, pwake NRead p)
  | b :: bs' =>
      if nwrite p =? w32 (nread p + PIPESIZE) then
        if negb (readopen p) || killed then (WFail, p)
        else (WSleep bs, pwake NRead p)
      else pipewrite killed bs' (put_byte b p)
  end.

Inductive rres := RGot (bs : list Z) | RFail | RSleep.

(** The copy loop of [piperead] -- src/pipe.c:112-116 *)
Fixpoint read_loop (n : nat) (p : pipe) : list Z * pipe :=
  match n with
  | O => ([], p)
  | S n =>
      if nread p =? nwrite p then ([], p)
      else let '(b, p) := get_byte p in let '(bs, p) := read_loop n p in (b :: bs, p)
  end.

(** [piperead] of at most [n] bytes; woken, it looks again
    -- src/pipe.c:99-120 *)
Definition piperead (killed : bool) (n : nat) (p : pipe) : rres * pipe :=
  if (nread p =? nwrite p) && writeopen p then
    if killed then (RFail, p) else (RSleep, p)
  else let '(bs, p) := read_loop n p in (RGot bs, pwake NWrite p).

(** [pipeclose]; the boolean result says that the page was given back
    -- src/pipe.c:58-74 *)
Definition pipeclose (writable : bool) (p : pipe) : bool * pipe :=
  let p := if writable
    then pwake NRead (mkPipe (p_data p) (nread p) (nwrite p) (readopen p) false (p_woken p))
    else pwake NWrite (mkPipe (p_data p) (nread p) (nwrite p) false (writeopen p) (p_woken p)) in
  (negb (readopen p) && negb (writeopen p), p).

(** ** The ring as a queue *)

(** The queue [q] in the ring: [q] starts at [nread] and [nwrite] is its end. *)
Definition holds (p : pipe) (q : list Z) : Prop :=
  length (p_data p) = 512%nat ∧ 0 ≤ nread p < 2^32 ∧ nwrite p = w32 (nread p + Z.of_nat (length q)) ∧
  (length q ≤ 512)%nat ∧
  ∀ i b, q !! i = Some b → p_data p !! Z.to_nat ((nread p + Z.of_nat i) `mod` 512) = Some b.

Lemma w32_mod512 a : w32 a `mod` 512 = a `mod` 512.
Proof. apply w32_mod; [lia|]. by exists 8388608. Qed.

Lemma mod512_inj a i j : 0 ≤ i < 512 → 0 ≤ j < 512 → (a + i) `mod` 512 = (a + j) `mod` 512 → i = j.
Proof. apply mod_inj. Qed.

Lemma holds_full p q : holds p q → (nwrite p =? w32 (nread p + PIPESIZE)) = bool_decide (length q = 512%nat).
Proof.
  intros (_ & _ & -> & Hle & _). unfold PIPESIZE. case_bool_decide as E.
  - rewrite E. apply Z.eqb_refl.
  - apply Z.eqb_neq. intros H%w32_inj; lia.
Qed.

Lemma holds_empty p q : holds p q → (nread p =? nwrite p) = bool_decide (q = []).
Proof.
  intros (_ & Hr & -> & Hle & _). case_bool_decide as E.
  - subst q. simpl. rewrite Z.add_0_r, w32_small by lia. apply Z.eqb_refl.
  - apply Z.eqb_neq. intros H. assert (0 = Z.of_nat (length q)).
    { apply (w32_inj (nread p)); [lia|lia|]. rewrite Z.add_0_r, (w32_small (nread p)) by lia. done. }
    destruct q; [done|]. simpl in *. lia.
Qed.

Lemma holds_put p q b : holds p q → (length q < 512)%nat → holds (put_byte b p) (q ++ [b]).
Proof.
  intros (Hd & Hr & Hw & Hle & Hq) Hlt. unfold put_byte, PIPESIZE.
  assert (Ei : (nwrite p `mod` 512) = (nread p + Z.of_nat (length q)) `mod` 512) by (by rewrite Hw, w32_mod512).
  split_and!; simpl; [by rewrite length_insert|lia|lia|..].
  - rewrite length_app, Hw. simpl. autorewrite with word32_rw. f_equal. lia.
  - rewrite length_app. simpl. lia.
  - intros i c Hi. rewrite Ei. apply lookup_app_Some in Hi as [Hi|[Hge Hi]].
    + pose proof (lookup_lt_Some _ _ _ Hi).
      pose proof (Z.mod_pos_bound (nread p + Z.of_nat i) 512 ltac:(lia)).
      pose proof (Z.mod_pos_bound (nread p + Z.of_nat (length q)) 512 ltac:(lia)).
      rewrite list_lookup_insert_ne; [by apply Hq|]. intros E%Z2Nat.inj; [|lia..].
      apply mod512_inj in E; lia.
    + apply list_lookup_singleton_Some in Hi as [E ->]. replace i with (length q) by lia.
      apply list_lookup_insert_eq. rewrite Hd.
      pose proof (Z.mod_pos_bound (nread p + Z.of_nat (length q)) 512 ltac:(lia)). lia.
Qed.

Lemma holds_get p b q : holds p (b :: q) → ∃ p', get_byte p = (b, p') ∧ holds p' q ∧
  readopen p' = readopen p ∧ writeopen p' = writeopen p ∧ p_woken p' = p_woken p.
Proof.
  intros (Hd & Hr & Hw & Hle & Hq). unfold get_byte. eexists. split; [f_equal|split; [split_and!; simpl; [done|apply w32_bound|apply w32_bound|..]|done]].
  - pose proof (Hq 0%nat b eq_refl) as H0. rewrite Z.add_0_r in H0. unfold PIPESIZE.
    by apply nth_lookup_Some.
  - rewrite Hw. autorewrite with word32_rw. f_equal. simpl. lia.
  - simpl in Hle. lia.
  - intros i c Hi. rewrite <- (Hq (S i) c Hi). f_equal. f_equal.
    rewrite Zplus_mod, w32_mod512, <- Zplus_mod. f_equal. lia.
Qed.

(** ** The calls as operations of a bounded queue *)

Definition q_write (killed ropen : bool) (bs q : list Z) : wres * list Z :=
  let room := (512 - length q)%nat in
  if (length bs <=? room)%nat then (WDone, q ++ bs)
  else (if negb ropen || killed then WFail else WSleep (drop room bs), q ++ take room bs).

Definition q_read (killed wopen : bool) (n : nat) (q : list Z) : rres * list Z :=
  if bool_decide (q = []) && wopen then (if killed then RFail else RSleep, q)
  else (RGot (take n q), drop n q).

Definition w_wakes (r : wres) : list pchan := match r with WFail => [] | _ => [NRead] end.
Definition r_wakes (r : rres) : list pchan := match r with RGot _ => [NWrite] | _ => [] end.

Definition same_ends (p p' : pipe) : Prop := readopen p' = readopen p ∧ writeopen p' = writeopen p.

Lemma holds_wake c p q : holds p q → holds (pwake c p) q.
Proof. done. Qed.

Lemma pipewrite_queue killed bs p q :
  holds p q →
  let '(r, p') := pipewrite killed bs p in
  r = (q_write killed (readopen p) bs q).1 ∧ holds p' (q_write killed (readopen p) bs q).2 ∧
  same_ends p p' ∧ p_woken p' = p_woken p ++ w_wakes r.
Proof.
  revert p q. induction bs as [|b bs IH]; intros p q Hp.
  - simpl. unfold q_write. cbn [length Nat.leb]. by rewrite app_nil_r.
  - cbn [pipewrite]. rewrite (holds_full p q) by done. pose proof Hp as (_ & _ & _ & Hle & _).
    case_bool_decide as E.
    + unfold q_write. rewrite E. cbn [length Nat.sub Nat.leb drop take].
      destruct (negb (readopen p) || killed); simpl; rewrite ?app_nil_r; done.
    + specialize (IH (put_byte b p) (q ++ [b]) (holds_put _ _ _ Hp ltac:(lia))).
      destruct (pipewrite killed bs (put_byte b p)) as [r p'].
      assert (Eq : q_write killed (readopen p) (b :: bs) q =
        q_write killed (readopen p) bs (q ++ [b])).
      { unfold q_write. rewrite length_app. simpl length.
        replace (512 - length q)%nat with (S (512 - (length q + 1)))%nat by lia. cbn [Nat.leb drop take].
        by rewrite <- !app_assoc. }
      by rewrite Eq.
Qed.

Lemma read_loop_queue n p q :
  holds p q → ∃ p', read_loop n p = (take n q, p') ∧ holds p' (drop n q) ∧ same_ends p p' ∧
    p_woken p' = p_woken p.
Proof.
  revert p q. induction n as [|n IH]; intros p q Hp; cbn [read_loop].
  { exists p. by rewrite take_0, drop_0. }
  rewrite (holds_empty p q) by done. destruct q as [|b q].
  - rewrite bool_decide_true by done. by exists p.
  - rewrite bool_decide_false by done. destruct (holds_get p b q Hp) as (p1 & -> & H1 & Er & Ew & Ek).
    destruct (IH p1 q H1) as (p2 & -> & H2 & [Er2 Ew2] & Ek2). exists p2.
    unfold same_ends. simpl. split_and!; congruence || done.
Qed.

Lemma piperead_queue killed n p q :
  holds p q →
  let '(r, p') := piperead killed n p in
  r = (q_read killed (writeopen p) n q).1 ∧ holds p' (q_read killed (writeopen p) n q).2 ∧
  same_ends p p' ∧ p_woken p' = p_woken p ++ r_wakes r.
Proof.
  intros Hp. unfold piperead, q_read. rewrite (holds_empty p q) by done.
  destruct (bool_decide (q = []) && writeopen p).
  - destruct killed; simpl; by rewrite app_nil_r.
  - destruct (read_loop_queue n p q Hp) as (p' & -> & H' & He & Ek). simpl. by rewrite Ek.
Qed.

(** The ring buffer implements a bounded byte queue, also when the 32-bit
    counters wrap around: each atomic segment of [pipewrite] appends what fits
    in PIPESIZE bytes and ends as the queue says (done, failed, or asleep with
    exactly the rest), and [piperead] takes bytes from the front; they wake the
    other side except when they fail or have nothing to tell. *)
Theorem pipe_refines_queue killed bs n p q :
  holds p q →
  (let '(r, p') := pipewrite killed bs p in
   r = (q_write killed (readopen p) bs q).1 ∧ holds p' (q_write killed (readopen p) bs q).2 ∧
   same_ends p p' ∧ p_woken p' = p_woken p ++ w_wakes r) ∧
  (let '(r, p') := piperead killed n p in
   r = (q_read killed (writeopen p) n q).1 ∧ holds p' (q_read killed (writeopen p) n q).2 ∧
   same_ends p p' ∧ p_woken p' = p_woken p ++ r_wakes r).
Proof. intros Hp. split; [by apply pipewrite_queue|by apply piperead_queue]. Qed.

(** ** Many readers and writers

    Calls in progress are ready to run or asleep; [sent] and [rcvd] are the
    bytes stored into and taken out of the pipe so far.  A step runs one ready
    call to its next sleep or its return and delivers the wakeups it made. *)
Record psys := mkPsys {
  ps_pipe : pipe;
  sent : list Z;
  rcvd : list Z;
  w_ready : list (list Z);
  w_asleep : list (list Z);
  r_ready : list nat;
  r_asleep : list nat;
}.

(** Deliver the wakeups. *)
Definition deliver (s : psys) : psys :=
  let p := ps_pipe s in
  let wr := bool_decide (NRead ∈ p_woken p) in
  let ww := bool_decide (NWrite ∈ p_woken p) in
  mkPsys (mkPipe (p_data p) (nread p) (nwrite p) (readopen p) (writeopen p) [])
    (sent s) (rcvd s)
    (w_ready s ++ if ww then w_asleep s else []) (if ww then [] else w_asleep s)
    (r_ready s ++ if wr then r_asleep s else []) (if wr then [] else r_asleep s).

(** [killed_writers] says whether writers may run after having been killed. *)
Inductive pstep (killed_writers : bool) : psys → psys → Prop :=
  | p_call_write s bs :
      writeopen (ps_pipe s) = true →
      pstep killed_writers s
        (mkPsys (ps_pipe s) (sent s) (rcvd s) (bs :: w_ready s) (w_asleep s) (r_ready s) (r_asleep s))
  | p_call_read s n :
      readopen (ps_pipe s) = true →
      pstep killed_writers s
        (mkPsys (ps_pipe s) (sent s) (rcvd s) (w_ready s) (w_asleep s) (n :: r_ready s) (r_asleep s))
  | p_run_write s killed l1 bs l2 r p' :
      w_ready s = l1 ++ bs :: l2 → (killed = true → killed_writers = true) →
      pipewrite killed bs (ps_pipe s) = (r, p') →
      let k := Z.to_nat (w32 (nwrite p' - nwrite (ps_pipe s))) in
      pstep killed_writers s (deliver
        (mkPsys p' (sent s ++ take k bs) (rcvd s) (l1 ++ l2)
          (match r with WSleep rest => rest :: w_asleep s | _ => w_asleep s end) (r_ready s) (r_asleep s)))
  | p_run_read s killed l1 n l2 r p' :
      r_ready s = l1 ++ n :: l2 → piperead killed n (ps_pipe s) = (r, p') →
      pstep killed_writers s (deliver
        (mkPsys p' (sent s) (rcvd s ++ match r with RGot bs => bs | _ => [] end) (w_ready s) (w_asleep s)
          (l1 ++ l2) (match r with RSleep => n :: r_asleep s | _ => r_asleep s end)))
  | p_kill_writer s l1 bs l2 :
      w_asleep s = l1 ++ bs :: l2 → killed_writers = true →
      pstep killed_writers s
        (mkPsys (ps_pipe s) (sent s) (rcvd s) (bs :: w_ready s) (l1 ++ l2) (r_ready s) (r_asleep s))
  | p_kill_reader s l1 n l2 :
      r_asleep s = l1 ++ n :: l2 →
      pstep killed_writers s
        (mkPsys (ps_pipe s) (sent s) (rcvd s) (w_ready s) (w_asleep s) (n :: r_ready s) (l1 ++ l2))
  | p_close_write s :
      w_ready s = [] → w_asleep s = [] →
      pstep killed_writers s (deliver
        (mkPsys (pipeclose true (ps_pipe s)).2 (sent s) (rcvd s) [] [] (r_ready s) (r_asleep s)))
  | p_close_read s :
      r_ready s = [] → r_asleep s = [] →
      pstep killed_writers s (deliver
        (mkPsys (pipeclose false (ps_pipe s)).2 (sent s) (rcvd s) (w_ready s) (w_asleep s) [] [])).

Definition psys_init (junk : list Z) : psys := mkPsys (pipe_init junk) [] [] [] [] [] [].

Lemma pipewrite_nread killed bs p : nread (pipewrite killed bs p).2 = nread p.
Proof.
  revert p. induction bs as [|b bs IH]; intros p; simpl; [done|].
  repeat case_match; try done. by rewrite IH.
Qed.

(** What a segment stored, by the counters. *)
Lemma pipewrite_stored killed bs p q r p' :
  holds p q → pipewrite killed bs p = (r, p') →
  (q_write killed (readopen p) bs q).2 = q ++ take (Z.to_nat (w32 (nwrite p' - nwrite p))) bs.
Proof.
  intros Hp E. pose proof (pipewrite_queue killed bs p q Hp) as H.
  pose proof (pipewrite_nread killed bs p) as En. rewrite E in H, En. simpl in En.
  destruct H as (_ & (_ & _ & Hw' & _) & _). destruct Hp as (_ & _ & Hw & Hle & _).
  rewrite Hw', Hw, En. unfold q_write. destruct (Nat.leb_spec (length bs) (512 - length q)); simpl.
  - autorewrite with word32_rw. rewrite length_app.
    replace (nread p + _ - _) with (Z.of_nat (length bs)) by lia.
    by rewrite w32_small, Nat2Z.id, firstn_all by lia.
  - autorewrite with word32_rw. rewrite length_app, length_take_le by lia.
    replace (nread p + _ - _) with (Z.of_nat (512 - length q)) by lia.
    by rewrite w32_small, Nat2Z.id by lia.
Qed.

(** The invariant: one byte stream, and nobody sleeps while there is something
    to do for it. *)
Record pinv (kw : bool) (s : psys) (q : list Z) : Prop := {
  pi_holds : holds (ps_pipe s) q;
  pi_stream : sent s = rcvd s ++ q;
  pi_woken : p_woken (ps_pipe s) = [];
  pi_readers : r_ready s ≠ [] ∨ r_asleep s ≠ [] → readopen (ps_pipe s) = true;
  pi_writers : w_ready s ≠ [] ∨ w_asleep s ≠ [] → writeopen (ps_pipe s) = true;
  pi_wsleep : w_asleep s ≠ [] → length q = 512%nat ∧ readopen (ps_pipe s) = true;
  pi_rsleep : kw = false → r_asleep s ≠ [] → q = [] ∧ writeopen (ps_pipe s) = true;
}.

Lemma app_mid_ne {A} (l1 l2 : list A) x : l1 ++ x :: l2 ≠ [].
Proof. by destruct l1. Qed.

(** Delivering wakeups: only who was not woken still sleeps. *)
Lemma pinv_deliver kw s q :
  holds (ps_pipe s) q → sent s = rcvd s ++ q →
  (r_ready s ≠ [] ∨ r_asleep s ≠ [] → readopen (ps_pipe s) = true) →
  (w_ready s ≠ [] ∨ w_asleep s ≠ [] → writeopen (ps_pipe s) = true) →
  (NWrite ∉ p_woken (ps_pipe s) → w_asleep s ≠ [] →
     length q = 512%nat ∧ readopen (ps_pipe s) = true) →
  (NRead ∉ p_woken (ps_pipe s) → kw = false → r_asleep s ≠ [] →
     q = [] ∧ writeopen (ps_pipe s) = true) →
  pinv kw (deliver s) q.
Proof.
  assert (Happ : ∀ A (l l' : list A), l ++ l' ≠ [] → l ≠ [] ∨ l' ≠ []).
  { intros A [|] l'; simpl; auto. }
  intros Hh Hs Hr Hw Hws Hrs. split; simpl; try done.
  - intros H. apply Hr. case_bool_decide; destruct H as [H|H]; try apply Happ in H; naive_solver.
  - intros H. apply Hw. case_bool_decide; destruct H as [H|H]; try apply Happ in H; naive_solver.
  - case_bool_decide; naive_solver.
  - intros ?. case_bool_decide; naive_solver.
Qed.

(** [pipewrite] of a call that is in progress. *)
Lemma pinv_run_write kw s q killed l1 bs l2 r p' :
  pinv kw s q → w_ready s = l1 ++ bs :: l2 → (killed = true → kw = true) →
  pipewrite killed bs (ps_pipe s) = (r, p') →
  let k := Z.to_nat (w32 (nwrite p' - nwrite (ps_pipe s))) in
  ∃ q', pinv kw (deliver (mkPsys p' (sent s ++ take k bs) (rcvd s) (l1 ++ l2)
    (match r with WSleep rest => rest :: w_asleep s | _ => w_asleep s end) (r_ready s) (r_asleep s))) q'.
Proof.
  intros [Hh Hs Hk Hr Hw Hws Hrs] El Hkill E k.
  pose proof (pipewrite_stored _ _ _ _ _ _ Hh E) as Eq. fold k in Eq.
  pose proof (pipewrite_queue killed bs _ q Hh) as H. rewrite E in H.
  destruct H as (Er & Hh' & [Ero Ewo] & Ek). rewrite Hk in Ek. simpl in Ek.
  assert (Hwo : writeopen (ps_pipe s) = true) by (apply Hw; left; rewrite El; apply app_mid_ne).
  assert (Hq : w_asleep s ≠ [] → r = WDone → (q_write killed (readopen (ps_pipe s)) bs q).2 = q).
  { intros Hne Hd. destruct (Hws Hne) as [Hf _]. revert Er. rewrite Hd. unfold q_write. rewrite Hf.
    destruct bs; simpl; [by rewrite app_nil_r|]. by case_match. }
  assert (Hfull : r ≠ WDone → length (q_write killed (readopen (ps_pipe s)) bs q).2 = 512%nat).
  { destruct Hh as (_ & _ & _ & Hle & _). intros Hd. revert Er. unfold q_write.
    destruct (Nat.leb_spec (length bs) (512 - length q)); simpl; [congruence|]. intros _.
    rewrite length_app, length_take_le by lia. lia. }
  rewrite Eq in *. exists (q ++ take k bs).
  apply pinv_deliver; simpl; rewrite ?Ero, ?Ewo, ?Ek; try done.
  - rewrite Hs. by rewrite app_assoc.
  - intros _ Hne. destruct r as [| |rest].
    + destruct (Hws Hne). by rewrite Hq.
    + destruct (Hws Hne). split; [by apply Hfull|done].
    + split; [by apply Hfull|]. revert Er. unfold q_write.
      destruct (length bs <=? 512 - length q)%nat; simpl; [done|]. by destruct (readopen (ps_pipe s)).
  - intros Hno Ekw Hne. destruct r as [| |rest]; simpl in Hno; [set_solver|exfalso|set_solver].
    assert (killed = false) by (destruct killed; [by rewrite Hkill in Ekw|done]). subst killed.
    revert Er. unfold q_write. destruct (length bs <=? 512 - length q)%nat; simpl; [done|].
    by rewrite Hr by auto.
Qed.

Lemma pinv_run_read kw s q killed l1 n l2 r p' :
  pinv kw s q → r_ready s = l1 ++ n :: l2 → piperead killed n (ps_pipe s) = (r, p') →
  ∃ q', pinv kw (deliver (mkPsys p' (sent s)
    (rcvd s ++ match r with RGot bs => bs | _ => [] end) (w_ready s) (w_asleep s)
    (l1 ++ l2) (match r with RSleep => n :: r_asleep s | _ => r_asleep s end))) q'.
Proof.
  intros [Hh Hs Hk Hr Hw Hws Hrs] El E.
  pose proof (piperead_queue killed n _ q Hh) as H. rewrite E in H.
  destruct H as (Er & Hh' & [Ero Ewo] & Ek). rewrite Hk in Ek. simpl in Ek.
  assert (Hro : readopen (ps_pipe s) = true) by (apply Hr; left; rewrite El; apply app_mid_ne).
  exists (q_read killed (writeopen (ps_pipe s)) n q).2.
  apply pinv_deliver; simpl; rewrite ?Ero, ?Ewo, ?Ek; try done.
  - rewrite Hs, Er, <- app_assoc. f_equal. unfold q_read.
    destruct (bool_decide (q = []) && writeopen (ps_pipe s)); simpl; [by destruct killed|].
    by rewrite take_drop.
  - intros Hno Hne. destruct (Hws Hne). revert Er Hno. unfold q_read.
    destruct (bool_decide (q = []) && writeopen (ps_pipe s)) eqn:Eb; simpl.
    + apply andb_true_iff in Eb as [->%bool_decide_eq_true _]. done.
    + intros ->. simpl. set_solver.
  - intros _ Ekw Hne. revert Er Hne. unfold q_read.
    destruct (bool_decide (q = []) && writeopen (ps_pipe s)) eqn:Eb; simpl.
    + apply andb_true_iff in Eb as [Eq%bool_decide_eq_true ?]. done.
    + intros -> Hne. destruct (Hrs Ekw Hne) as [-> Hwo]. by rewrite bool_decide_true, Hwo in Eb.
Qed.

Lemma pinv_step kw s s' q : pinv kw s q → pstep kw s s' → ∃ q', pinv kw s' q'.
Proof.
  intros Hi Hst. pose proof Hi as [Hh Hs Hk Hr Hw Hws Hrs].
  destruct Hst as [s bs Ho|s n Ho|s killed l1 bs l2 r p' El Hkl E|s killed l1 n l2 r p' El E
    |s l1 bs l2 El Hkl|s l1 n l2 El|s E1 E2|s E1 E2]; cbn zeta.
  - exists q. by split.
  - exists q. by split.
  - by eapply pinv_run_write.
  - by eapply pinv_run_read.
  - exists q. assert (Hne : w_asleep s ≠ []) by (rewrite El; apply app_mid_ne). split; auto.
  - exists q. assert (Hne : r_asleep s ≠ []) by (rewrite El; apply app_mid_ne). split; auto.
  - exists q. apply pinv_deliver; simpl; rewrite ?Hk; try done; [by intros [?|?]|].
    intros Hno. exfalso. apply Hno. apply list_elem_of_here.
  - exists q. apply pinv_deliver; simpl; rewrite ?Hk; try done; [by intros [?|?]|].
    intros Hno. exfalso. apply Hno. apply list_elem_of_here.
Qed.

Lemma pinv_init kw junk : length junk = 512%nat → pinv kw (psys_init junk) [].
Proof. intros Hj. split; simpl; try done; try naive_solver. split_and!; simpl; done || lia. Qed.

Lemma pinv_reach kw junk s :
  length junk = 512%nat → rtc (pstep kw) (psys_init junk) s → ∃ q, pinv kw s q.
Proof.
  intros Hj Hr. assert (H : ∃ q, pinv kw (psys_init junk) q) by (eexists; by apply pinv_init).
  revert H. induction Hr; [done|]. intros [q Hq]. eauto using pinv_step.
Qed.

(** C19: A pipe is one first-in first-out byte stream.  However many readers and
    writers use it, are put to sleep, killed and woken, in any order, the bytes
    read so far followed by the bytes in the ring are the bytes written so far:
    none is lost, repeated or reordered; and at most PIPESIZE are in the ring. *)
Theorem pipe_fifo junk s :
  length junk = 512%nat → rtc (pstep true) (psys_init junk) s →
  ∃ q, holds (ps_pipe s) q ∧ sent s = rcvd s ++ q ∧ (length q ≤ 512)%nat.
Proof.
  intros Hj Hr. destruct (pinv_reach true junk s Hj Hr) as (q & [Hh Hs _ _ _ _ _]).
  exists q. split_and!; [done..|apply Hh].
Qed.

(** C20: No wakeup is lost, as long as no writer is killed: a reader that sleeps
    finds the pipe empty with its write end open, and a writer that sleeps finds
    it full with its read end open; so nobody sleeps while it could go on. *)
Theorem pipe_no_lost_wakeup junk s :
  length junk = 512%nat → rtc (pstep false) (psys_init junk) s →
  (r_asleep s ≠ [] → nread (ps_pipe s) = nwrite (ps_pipe s) ∧ writeopen (ps_pipe s) = true) ∧
  (w_asleep s ≠ [] → nwrite (ps_pipe s) = w32 (nread (ps_pipe s) + PIPESIZE) ∧
     readopen (ps_pipe s) = true) ∧
  (r_asleep s = [] ∨ w_asleep s = []).
Proof.
  intros Hj Hr. destruct (pinv_reach false junk s Hj Hr) as (q & [Hh _ _ _ _ Hws Hrs]).
  pose proof (holds_empty _ _ Hh) as He. pose proof (holds_full _ _ Hh) as Hf. split_and!.
  - intros Hne. destruct (Hrs eq_refl Hne) as [-> ?]. split; [|done]. by apply Z.eqb_eq.
  - intros Hne. destruct (Hws Hne) as [E ?]. split; [|done]. rewrite bool_decide_true in Hf by done.
    by apply Z.eqb_eq.
  - destruct (r_asleep s) as [|n l] eqn:Er; [by left|]. destruct (w_asleep s) as [|bs l'] eqn:Ew; [by right|].
    destruct Hrs as [-> _]; [done..|]. by destruct Hws.
Qed.

(** ** Sample runs *)

Definition junk512 : list Z := replicate 512 0.

(** A reader waits on the empty pipe. *)
Definition reader_waits : psys :=
  deliver (mkPsys (piperead false 1 (pipe_init junk512)).2 [] [] [] [] [] [1%nat]).

Lemma reader_waits_reach kw : rtc (pstep kw) (psys_init junk512) reader_waits.
Proof.
  eapply rtc_l; [by apply (p_call_read kw _ 1)|]. apply rtc_once.
  exact (p_run_read kw (mkPsys (pipe_init junk512) [] [] [] [] [1%nat] []) false [] 1%nat [] RSleep
    (pipe_init junk512) eq_refl eq_refl).
Qed.

(** A writer that has been killed fills the ring and gives up. *)
Definition killed_writer_gave_up : psys :=
  let p := (pipewrite true (replicate 513 7) (ps_pipe reader_waits)).2 in
  deliver (mkPsys p (take 512 (replicate 513 7)) [] [] [] [] [1%nat]).

(** A killed writer can lose a wakeup: [pipewrite] returns -1 without waking
    the readers it has stored bytes for.  From a reader asleep on the empty
    pipe, a killed writer of 513 bytes leads to a state in which the ring is
    full, the write end is open, no wakeup is pending, and the reader still
    sleeps. *)
Theorem pipe_killed_writer_loses_wakeup :
  ∃ s, rtc (pstep true) (psys_init junk512) s ∧ r_asleep s = [1%nat] ∧
    w_ready s = [] ∧ w_asleep s = [] ∧ writeopen (ps_pipe s) = true ∧ p_woken (ps_pipe s) = [] ∧
    nwrite (ps_pipe s) = w32 (nread (ps_pipe s) + PIPESIZE).
Proof.
  exists killed_writer_gave_up. split_and!; try (vm_compute; reflexivity).
  etrans; [apply reader_waits_reach|].
  eapply rtc_l; [by apply (p_call_write true _ (replicate 513 7))|]. apply rtc_once.
  refine (eq_rect _ (λ s, pstep true _ s) (p_run_write true
    (mkPsys (ps_pipe reader_waits) [] [] [replicate 513 7] [] [] [1%nat]) true [] (replicate 513 7) []
    WFail (pipewrite true (replicate 513 7) (ps_pipe reader_waits)).2 eq_refl (λ _, eq_refl) _) _ _);
    vm_compute; reflexivity.
Qed.

Lemma pipe_refines_queue_witness :
  (let '(r, p') := pipewrite false [1; 2; 3] (pipe_init junk512) in
   r = (q_write false true [1; 2; 3] []).1 ∧ holds p' (q_write false true [1; 2; 3] []).2 ∧
   same_ends (pipe_init junk512) p' ∧ p_woken p' = [] ++ w_wakes r) ∧
  (let '(r, p') := piperead false 2 (pipe_init junk512) in
   r = (q_read false true 2 []).1 ∧ holds p' (q_read false true 2 []).2 ∧
   same_ends (pipe_init junk512) p' ∧ p_woken p' = [] ++ r_wakes r).
Proof.
  apply (pipe_refines_queue false [1; 2; 3] 2 (pipe_init junk512) []).
  exact (pi_holds _ _ _ (pinv_init true junk512 eq_refl)).
Defined.

Lemma pipe_fifo_witness :
  ∃ q, holds (ps_pipe reader_waits) q ∧ sent reader_waits = rcvd reader_waits ++ q ∧ (length q ≤ 512)%nat.
Proof. exact (pipe_fifo junk512 reader_waits eq_refl (reader_waits_reach true)). Defined.

Lemma pipe_no_lost_wakeup_witness :
  (r_asleep reader_waits ≠ [] → nread (ps_pipe reader_waits) = nwrite (ps_pipe reader_waits) ∧
     writeopen (ps_pipe reader_waits) = true) ∧
  (w_asleep reader_waits ≠ [] →
     nwrite (ps_pipe reader_waits) = w32 (nread (ps_pipe reader_waits) + PIPESIZE) ∧
     readopen (ps_pipe reader_waits) = true) ∧
  (r_asleep reader_waits = [] ∨ w_asleep reader_waits = []).
Proof. exact (pipe_no_lost_wakeup junk512 reader_waits eq_refl (reader_waits_reach false)). Defined.
