(* ===== verification/Proc.v ===== *)
(** * Processes and threads (proc.c)

    The process table and every routine of proc.c that works on it: creation
    ([allocproc], [userinit], [fork], [thread_create]), termination and reaping
    ([exit], [wait], [thread_join]), scheduling ([scheduler], [sched], [yield],
    [forkret]), and blocking ([sleep], [wakeup], [kill]).

    A routine that reaches [swtch] is split there: what it does before giving up
    the CPU and what it does when it runs again are two definitions, and the
    step relation at the end interleaves such segments of all processes.  What
    proc.c asks of other components (pages, page tables, files, inodes, the
    clock) goes through the class [Services]; the theorems about the table hold
    for every implementation of it. *)

From stdpp Require Import base numbers list strings sets relations.
From Stdlib Require Import ZArith Lia.
From S2P Require Import Prelude Spinlock.

#[local] Open Scope Z_scope.

(** src/param.h:1-1 *)
Definition NPROC : nat := 64.
(** src/param.h:2-2 *)
Definition KSTACKSIZE : Z := 4096.
(** src/param.h:4-4 *)
Definition NOFILE : nat := 16.
(** src/proc.h:3-3 *)
Definition MAX_NUM_BURSTS : nat := 100.

(** src/proc.h:53-53 *)
Inductive procstate := UNUSED | EMBRYO | SLEEPING | RUNNABLE | RUNNING | ZOMBIE.

#[export] Instance procstate_eq_dec : EqDecision procstate.
Proof. solve_decision. Defined.

(** The registers of a trap frame -- src/x86.h:150-183 *)
Record trapframe := mkTf {
  tf_edi : Z;
  tf_esi : Z;
  tf_ebp : Z;
  tf_oesp : Z;
  tf_ebx : Z;
  tf_edx : Z;
  tf_ecx : Z;
  tf_eax : Z;
  tf_gs : Z;
  tf_fs : Z;
  tf_es : Z;
  tf_ds : Z;
  tf_trapno : Z;
  tf_err : Z;
  tf_eip : Z;
  tf_cs : Z;
  tf_eflags : Z;
  tf_esp : Z;
  tf_ss : Z;
}.

Definition zero_tf : trapframe := mkTf 0 0 0 0 0 0 0 0 0 0 0 0 0 0 0 0 0 0 0.

(** src/proc.h:45-51 *)
Record kcontext := mkContext {
  c_edi : Z;
  c_esi : Z;
  c_ebx : Z;
  c_ebp : Z;
  c_eip : Z;
}.

(** [struct proc]; null pointers of [ofile] and [cwd] are 0 -- src/proc.h:60-83 *)
Record proc := mkProc {
  sz : Z;
  pgdir : Z;
  kstack : Z;
  state : procstate;
  pid : Z;
  parent : option nat;
  tf : trapframe;
  context : kcontext;
  p_chan : option chan;
  killed : bool;
  ofile : list Z;
  cwd : Z;
  name : list Z;
  burstarr : list Z;
  burst_idx : Z;
  sburst : Z;
  initial_burst : Z;
  turnaround : Z;
  thread_stack_top : Z;
}.

Definition set_tf_eax (v : Z) (x : trapframe) : trapframe :=
  mkTf (tf_edi x) (tf_esi x) (tf_ebp x) (tf_oesp x) (tf_ebx x) (tf_edx x) (tf_ecx x) v (tf_gs x)
    (tf_fs x) (tf_es x) (tf_ds x) (tf_trapno x) (tf_err x) (tf_eip x) (tf_cs x) (tf_eflags x)
    (tf_esp x) (tf_ss x).
Definition set_tf_es (v : Z) (x : trapframe) : trapframe :=
  mkTf (tf_edi x) (tf_esi x) (tf_ebp x) (tf_oesp x) (tf_ebx x) (tf_edx x) (tf_ecx x) (tf_eax x)
    (tf_gs x) (tf_fs x) v (tf_ds x) (tf_trapno x) (tf_err x) (tf_eip x) (tf_cs x) (tf_eflags x)
    (tf_esp x) (tf_ss x).
Definition set_tf_ds (v : Z) (x : trapframe) : trapframe :=
  mkTf (tf_edi x) (tf_esi x) (tf_ebp x) (tf_oesp x) (tf_ebx x) (tf_edx x) (tf_ecx x) (tf_eax x)
    (tf_gs x) (tf_fs x) (tf_es x) v (tf_trapno x) (tf_err x) (tf_eip x) (tf_cs x) (tf_eflags x)
    (tf_esp x) (tf_ss x).
Definition set_tf_eip (v : Z) (x : trapframe) : trapframe :=
  mkTf (tf_edi x) (tf_esi x) (tf_ebp x) (tf_oesp x) (tf_ebx x) (tf_edx x) (tf_ecx x) (tf_eax x)
    (tf_gs x) (tf_fs x) (tf_es x) (tf_ds x) (tf_trapno x) (tf_err x) v (tf_cs x) (tf_eflags x)
    (tf_esp x) (tf_ss x).
Definition set_tf_cs (v : Z) (x : trapframe) : trapframe :=
  mkTf (tf_edi x) (tf_esi x) (tf_ebp x) (tf_oesp x) (tf_ebx x) (tf_edx x) (tf_ecx x) (tf_eax x)
    (tf_gs x) (tf_fs x) (tf_es x) (tf_ds x) (tf_trapno x) (tf_err x) (tf_eip x) v (tf_eflags x)
    (tf_esp x) (tf_ss x).
Definition set_tf_eflags (v : Z) (x : trapframe) : trapframe :=
  mkTf (tf_edi x) (tf_esi x) (tf_ebp x) (tf_oesp x) (tf_ebx x) (tf_edx x) (tf_ecx x) (tf_eax x)
    (tf_gs x) (tf_fs x) (tf_es x) (tf_ds x) (tf_trapno x) (tf_err x) (tf_eip x)
    (tf_cs x) v (tf_esp x) (tf_ss x).
Definition set_tf_esp (v : Z) (x : trapframe) : trapframe :=
  mkTf (tf_edi x) (tf_esi x) (tf_ebp x) (tf_oesp x) (tf_ebx x) (tf_edx x) (tf_ecx x) (tf_eax x)
    (tf_gs x) (tf_fs x) (tf_es x) (tf_ds x) (tf_trapno x) (tf_err x) (tf_eip x) (tf_cs x)
    (tf_eflags x) v (tf_ss x).
Definition set_tf_ss (v : Z) (x : trapframe) : trapframe :=
  mkTf (tf_edi x) (tf_esi x) (tf_ebp x) (tf_oesp x) (tf_ebx x) (tf_edx x) (tf_ecx x) (tf_eax x)
    (tf_gs x) (tf_fs x) (tf_es x) (tf_ds x) (tf_trapno x) (tf_err x) (tf_eip x) (tf_cs x)
    (tf_eflags x) (tf_esp x) v.

Definition set_sz (v : Z) (x : proc) : proc :=
  mkProc v (pgdir x) (kstack x) (state x) (pid x) (parent x) (tf x) (context x) (p_chan x)
    (killed x) (ofile x) (cwd x) (name x) (burstarr x) (burst_idx x) (sburst x)
    (initial_burst x) (turnaround x) (thread_stack_top x).
Definition set_pgdir (v : Z) (x : proc) : proc :=
  mkProc (sz x) v (kstack x) (state x) (pid x) (parent x) (tf x) (context x) (p_chan x)
    (killed x) (ofile x) (cwd x) (name x) (burstarr x) (burst_idx x) (sburst x)
    (initial_burst x) (turnaround x) (thread_stack_top x).
Definition set_kstack (v : Z) (x : proc) : proc :=
  mkProc (sz x) (pgdir x) v (state x) (pid x) (parent x) (tf x) (context x) (p_chan x)
    (killed x) (ofile x) (cwd x) (name x) (burstarr x) (burst_idx x) (sburst x)
    (initial_burst x) (turnaround x) (thread_stack_top x).
Definition set_state (v : procstate) (x : proc) : proc :=
  mkProc (sz x) (pgdir x) (kstack x) v (pid x) (parent x) (tf x) (context x) (p_chan x)
    (killed x) (ofile x) (cwd x) (name x) (burstarr x) (burst_idx x) (sburst x)
    (initial_burst x) (turnaround x) (thread_stack_top x).
Definition set_pid (v : Z) (x : proc) : proc :=
  mkProc (sz x) (pgdir x) (kstack x) (state x) v (parent x) (tf x) (context x) (p_chan x)
    (killed x) (ofile x) (cwd x) (name x) (burstarr x) (burst_idx x) (sburst x)
    (initial_burst x) (turnaround x) (thread_stack_top x).
Definition set_parent (v : option nat) (x : proc) : proc :=
  mkProc (sz x) (pgdir x) (kstack x) (state x) (pid x) v (tf x) (context x) (p_chan x)
    (killed x) (ofile x) (cwd x) (name x) (burstarr x) (burst_idx x) (sburst x)
    (initial_burst x) (turnaround x) (thread_stack_top x).
Definition set_tf (v : trapframe) (x : proc) : proc :=
  mkProc (sz x) (pgdir x) (kstack x) (state x) (pid x) (parent x) v (context x) (p_chan x)
    (killed x) (ofile x) (cwd x) (name x) (burstarr x) (burst_idx x) (sburst x)
    (initial_burst x) (turnaround x) (thread_stack_top x).
Definition set_context (v : kcontext) (x : proc) : proc :=
  mkProc (sz x) (pgdir x) (kstack x) (state x) (pid x) (parent x) (tf x) v (p_chan x) (killed x)
    (ofile x) (cwd x) (name x) (burstarr x) (burst_idx x) (sburst x) (initial_burst x)
    (turnaround x) (thread_stack_top x).
Definition set_p_chan (v : option chan) (x : proc) : proc :=
  mkProc (sz x) (pgdir x) (kstack x) (state x) (pid x) (parent x) (tf x)
    (context x) v (killed x) (ofile x) (cwd x) (name x) (burstarr x) (burst_idx x) (sburst x)
    (initial_burst x) (turnaround x) (thread_stack_top x).
Definition set_killed (v : bool) (x : proc) : proc :=
  mkProc (sz x) (pgdir x) (kstack x) (state x) (pid x) (parent x) (tf x) (context x)
    (p_chan x) v (ofile x) (cwd x) (name x) (burstarr x) (burst_idx x) (sburst x)
    (initial_burst x) (turnaround x) (thread_stack_top x).
Definition set_ofile (v : list Z) (x : proc) : proc :=
  mkProc (sz x) (pgdir x) (kstack x) (state x) (pid x) (parent x) (tf x) (context x) (p_chan x)
    (killed x) v (cwd x) (name x) (burstarr x) (burst_idx x) (sburst x) (initial_burst x)
    (turnaround x) (thread_stack_top x).
Definition set_cwd (v : Z) (x : proc) : proc :=
  mkProc (sz x) (pgdir x) (kstack x) (state x) (pid x) (parent x) (tf x) (context x) (p_chan x)
    (killed x) (ofile x) v (name x) (burstarr x) (burst_idx x) (sburst x) (initial_burst x)
    (turnaround x) (thread_stack_top x).
Definition set_name (v : list Z) (x : proc) : proc :=
  mkProc (sz x) (pgdir x) (kstack x) (state x) (pid x) (parent x) (tf x) (context x) (p_chan x)
    (killed x) (ofile x) (cwd x) v (burstarr x) (burst_idx x) (sburst x) (initial_burst x)
    (turnaround x) (thread_stack_top x).
Definition set_burstarr (v : list Z) (x : proc) : proc :=
  mkProc (sz x) (pgdir x) (kstack x) (state x) (pid x) (parent x) (tf x) (context x) (p_chan x)
    (killed x) (ofile x) (cwd x) (name x) v (burst_idx x) (sburst x) (initial_burst x)
    (turnaround x) (thread_stack_top x).
Definition set_burst_idx (v : Z) (x : proc) : proc :=
  mkProc (sz x) (pgdir x) (kstack x) (state x) (pid x) (parent x) (tf x) (context x) (p_chan x)
    (killed x) (ofile x) (cwd x) (name x) (burstarr x) v (sburst x) (initial_burst x)
    (turnaround x) (thread_stack_top x).
Definition set_sburst (v : Z) (x : proc) : proc :=
  mkProc (sz x) (pgdir x) (kstack x) (state x) (pid x) (parent x) (tf x) (context x) (p_chan x)
    (killed x) (ofile x) (cwd x) (name x) (burstarr x) (burst_idx x) v (initial_burst x)
    (turnaround x) (thread_stack_top x).
Definition set_initial_burst (v : Z) (x : proc) : proc :=
  mkProc (sz x) (pgdir x) (kstack x) (state x) (pid x) (parent x) (tf x) (context x) (p_chan x)
    (killed x) (ofile x) (cwd x) (name x) (burstarr x) (burst_idx x) (sburst x) v (turnaround x)
    (thread_stack_top x).
Definition set_turnaround (v : Z) (x : proc) : proc :=
  mkProc (sz x) (pgdir x) (kstack x) (state x) (pid x) (parent x) (tf x) (context x) (p_chan x)
    (killed x) (ofile x) (cwd x) (name x) (burstarr x) (burst_idx x) (sburst x)
    (initial_burst x) v (thread_stack_top x).
Definition set_thread_stack_top (v : Z) (x : proc) : proc :=
  mkProc (sz x) (pgdir x) (kstack x) (state x) (pid x) (parent x) (tf x) (context x) (p_chan x)
    (killed x) (ofile x) (cwd x) (name x) (burstarr x) (burst_idx x) (sburst x)
    (initial_burst x) (turnaround x) v.

(** A slot of [ptable] in static storage. *)
Definition bss_proc : proc :=
  mkProc 0 0 0 UNUSED 0 None zero_tf (mkContext 0 0 0 0 0) None false (replicate NOFILE 0) 0
    (replicate 16 0) (replicate MAX_NUM_BURSTS 0) 0 0 0 0 0.

(** ** What proc.c calls in other components *)

Class Services (R : Type) := {
  sv_kalloc : M R Z;
  sv_kfree : Z → M R unit;
  sv_store : Z → Z → M R unit;               (** a 32-bit store through a pointer *)
  sv_load : Z → nat → M R (list Z);          (** bytes read through a pointer *)
  sv_setupkvm : M R Z;
  sv_inituvm : Z → M R unit;                 (** of the linked-in initcode *)
  sv_copyuvm : Z → Z → M R Z;
  sv_freevm : Z → M R unit;
  sv_allocuvm : Z → Z → Z → M R Z;
  sv_deallocuvm : Z → Z → Z → M R Z;
  sv_switchuvm : Z → M R unit;               (** given the page directory *)
  sv_switchkvm : M R unit;
  sv_copyout : Z → Z → list Z → M R Z;
  sv_filedup : Z → M R Z;
  sv_fileclose : Z → M R unit;
  sv_idup : Z → M R Z;
  sv_iput : Z → M R unit;
  sv_namei_root : M R Z;                     (** [namei("/")] *)
  sv_uptime : M R Z;
  sv_initlog : M R unit;
  sv_trapret : Z;
  sv_forkret : Z;
}.

(** The process table and what goes with it; [curproc] is the per-CPU variable
    [proc], [p_cpu] the CPU that executes -- src/proc.c:18-28 *)
Record pst (R : Type) := mkPst {
  p_lock : bool;
  p_cpu : cpu;
  curproc : option nat;
  procs : nat → proc;
  nextpid : Z;
  initproc : option nat;
  first : bool;
  p_res : R;
}.
Arguments mkPst {R} _ _ _ _ _ _ _ _.
Arguments p_lock {R} _.
Arguments p_cpu {R} _.
Arguments curproc {R} _.
Arguments procs {R} _.
Arguments nextpid {R} _.
Arguments initproc {R} _.
Arguments first {R} _.
Arguments p_res {R} _.

Section code.
Context {R : Type} {SV : Services R}.
Implicit Types (s : pst R).

Definition put_lock (v : bool) s := mkPst v (p_cpu s) (curproc s) (procs s) (nextpid s) (initproc s) (first s) (p_res s).
Definition put_cpu (v : cpu) s := mkPst (p_lock s) v (curproc s) (procs s) (nextpid s) (initproc s) (first s) (p_res s).
Definition put_cur (v : option nat) s := mkPst (p_lock s) (p_cpu s) v (procs s) (nextpid s) (initproc s) (first s) (p_res s).
Definition put_procs (v : nat → proc) s := mkPst (p_lock s) (p_cpu s) (curproc s) v (nextpid s) (initproc s) (first s) (p_res s).
Definition put_nextpid (v : Z) s := mkPst (p_lock s) (p_cpu s) (curproc s) (procs s) v (initproc s) (first s) (p_res s).
Definition put_init (v : option nat) s := mkPst (p_lock s) (p_cpu s) (curproc s) (procs s) (nextpid s) v (first s) (p_res s).
Definition put_first (v : bool) s := mkPst (p_lock s) (p_cpu s) (curproc s) (procs s) (nextpid s) (initproc s) v (p_res s).
Definition put_res (v : R) s := mkPst (p_lock s) (p_cpu s) (curproc s) (procs s) (nextpid s) (initproc s) (first s) v.

Definition res {A} (m : M R A) : M (pst R) A := zoom p_res put_res m.
Definition the_proc (i : nat) : M (pst R) proc := gets (λ s, procs s i).
Definition upd_proc (i : nat) (f : proc → proc) : M (pst R) unit :=
  modify (λ s, put_procs (upd (procs s) i (f (procs s i))) s).

(** The variable [proc], dereferenced. *)
Definition cur : M (pst R) nat :=
  o ← gets curproc;
  match o with Some i => mret i | None => fault "null proc" end.

(** [acquire(&ptable.lock)] and [release(&ptable.lock)]. *)
Definition pt_acquire : M (pst R) unit :=
  zoom p_cpu put_cpu pushcli;; acquire p_lock put_lock.
Definition pt_release : M (pst R) unit :=
  release p_lock put_lock;; zoom p_cpu put_cpu popcli.

(** [for(p = ptable.proc; p < &ptable.proc[NPROC]; p++)]. *)
Definition table : list nat := seq 0 NPROC.

(** src/proc.c:34-38 *)
Definition pinit : M (pst R) unit := modify (put_lock false).

Definition no_bursts : list Z := replicate MAX_NUM_BURSTS 0.

(** The size of the trap frame is 76 bytes, of a context 20 -- src/proc.c:45-91 *)
Definition allocproc : M (pst R) (option nat) :=
  pt_acquire;;
  ps ← gets procs;
  match List.find (λ i, bool_decide (state (ps i) = UNUSED)) table with
  | None => pt_release;; mret None
  | Some i =>
      upd_proc i (set_state EMBRYO);;
      n ← gets nextpid;
      upd_proc i (set_pid n);;
      modify (put_nextpid (s32 (n + 1)));;
      pt_release;;
      k ← res sv_kalloc;
      upd_proc i (set_kstack k);;
      if k =? 0 then upd_proc i (set_state UNUSED);; mret None else
      let sp := w32 (w32 (k + KSTACKSIZE - 76) - 4) in
      res (sv_store sp sv_trapret);;
      upd_proc i (set_context (mkContext 0 0 0 0 sv_forkret));;
      t ← res sv_uptime;
      upd_proc i (set_initial_burst t);;
      upd_proc i (set_sburst t);;
      upd_proc i (set_burst_idx 0);;
      upd_proc i (set_burstarr no_bursts);;
      mret (Some i)
  end.

(** "initcode" with its NUL, padded to 16 bytes by what was there. *)
Definition initcode_name : list Z := [105; 110; 105; 116; 99; 111; 100; 101; 0].

(** [safestrcpy(p->name, s, sizeof(p->name))] of a string with its NUL. *)
Definition copy_name (src dst : list Z) : list Z :=
  let s := take 15 src in
  let fix cut (l : list Z) : list Z := match l with [] => [] | c :: l => if c =? 0 then [] else c :: cut l end in
  let c := cut s ++ [0] in
  c ++ drop (length c) dst.

(** The selectors are (SEG_UCODE << 3) | DPL_USER and (SEG_UDATA << 3) | DPL_USER
    -- src/proc.c:95-120 *)
Definition userinit : M (pst R) unit :=
  o ← allocproc;
  modify (put_init o);;
  match o with
  | None => fault "null proc"
  | Some p =>
      d ← res sv_setupkvm;
      upd_proc p (set_pgdir d);;
      if d =? 0 then panic "userinit: out of memory?" else
      res (sv_inituvm d);;
      upd_proc p (set_sz 4096);;
      let u := Z.lor (Z.shiftl 5 3) 3 in
      let t := set_tf_eip 0 (set_tf_esp 4096 (set_tf_eflags 0x200 (set_tf_ss u (set_tf_es u
                 (set_tf_ds u (set_tf_cs (Z.lor (Z.shiftl 4 3) 3) zero_tf)))))) in
      upd_proc p (set_tf t);;
      upd_proc p (λ x, set_name (copy_name initcode_name (name x)) x);;
      c ← res sv_namei_root;
      upd_proc p (set_cwd c);;
      upd_proc p (set_state RUNNABLE)
  end.

(** src/proc.c:124-140 *)
Definition growproc (n : Z) : M (pst R) Z :=
  me ← cur;
  p ← the_proc me;
  r ← (if n >? 0 then res (sv_allocuvm (pgdir p) (sz p) (w32 (sz p + n)))
       else if n <? 0 then res (sv_deallocuvm (pgdir p) (sz p) (w32 (sz p + n)))
       else mret (sz p));
  if negb (n =? 0) && (r =? 0) then mret (-1) else
  upd_proc me (set_sz r);;
  res (sv_switchuvm (pgdir p));;
  mret 0.

(** The loop over the open files of the parent -- src/proc.c:170-172 *)
Definition dup_files (me np : nat) : M (pst R) unit :=
  for_each (seq 0 NOFILE) (λ i,
    p ← the_proc me;
    let f := nth i (ofile p) 0 in
    if negb (f =? 0) then
      g ← res (sv_filedup f);
      upd_proc np (λ x, set_ofile (<[i := g]> (ofile x)) x)
    else mret tt).

(** src/proc.c:145-179 *)
Definition fork : M (pst R) Z :=
  me ← cur;
  o ← allocproc;
  match o with
  | None => mret (-1)
  | Some np =>
      p ← the_proc me;
      d ← res (sv_copyuvm (pgdir p) (sz p));
      upd_proc np (set_pgdir d);;
      if d =? 0 then
        q ← the_proc np;
        res (sv_kfree (kstack q));;
        upd_proc np (set_kstack 0);;
        upd_proc np (set_state UNUSED);;
        mret (-1)
      else
      p ← the_proc me;
      upd_proc np (set_sz (sz p));;
      upd_proc np (set_parent (Some me));;
      upd_proc np (set_tf (tf p));;
      upd_proc np (λ x, set_tf (set_tf_eax 0 (tf x)) x);;
      dup_files me np;;
      p ← the_proc me;
      c ← res (sv_idup (cwd p));
      upd_proc np (set_cwd c);;
      q ← the_proc np;
      upd_proc np (set_state RUNNABLE);;
      upd_proc np (λ x, set_name (copy_name (name p) (name x)) x);;
      mret (pid q)
  end.

(** src/proc.c:479-487 *)
Definition wakeup1 (c : option chan) : M (pst R) unit :=
  for_each table (λ i,
    p ← the_proc i;
    if bool_decide (state p = SLEEPING) && bool_decide (p_chan p = c)
    then upd_proc i (set_state RUNNABLE) else mret tt).

(** src/proc.c:490-496 *)
Definition wakeup (c : option chan) : M (pst R) unit :=
  pt_acquire;; wakeup1 c;; pt_release.

(** [sched] up to [swtch]; the result is the local [intena]
    -- src/proc.c:391-405 *)
Definition sched_enter : M (pst R) bool :=
  me ← cur;
  l ← gets p_lock;
  if negb l then panic "sched ptable.lock" else
  c ← gets p_cpu;
  if negb (ncli c =? 1) then panic "sched locks" else
  p ← the_proc me;
  if bool_decide (state p = RUNNING) then panic "sched running" else
  if iflag c then panic "sched interruptible" else
  mret (intena c).

(** What [sched] does when [swtch] returns -- src/proc.c:406-407 *)
Definition sched_exit (e : bool) : M (pst R) unit :=
  modify (λ s, put_cpu (mkCpu (ncli (p_cpu s)) e (iflag (p_cpu s))) s).

(** src/proc.c:411-415 *)
Definition yield_enter : M (pst R) bool :=
  pt_acquire;;
  me ← cur;
  upd_proc me (set_state RUNNABLE);;
  sched_enter.

(** src/proc.c:415-417 *)
Definition yield_exit (e : bool) : M (pst R) unit :=
  sched_exit e;; pt_release.

(** src/proc.c:421-437 *)
Definition forkret : M (pst R) unit :=
  pt_release;;
  f ← gets first;
  if (f : bool) then modify (put_first false);; res sv_initlog else mret tt.

(** One pass of the scheduler's loop from index [i]: the next runnable process,
    switched to, or the end of the pass -- src/proc.c:292-309 *)
Definition sched_pick (i : nat) : M (pst R) (option nat) :=
  ps ← gets procs;
  match List.find (λ i, bool_decide (state (ps i) = RUNNABLE)) (drop i table) with
  | Some p =>
      modify (put_cur (Some p));;
      res (sv_switchuvm (pgdir (ps p)));;
      upd_proc p (set_state RUNNING);;
      mret (Some p)
  | None => pt_release;; mret None
  end.

(** The start of a pass -- src/proc.c:286-292 *)
Definition scheduler_enter : M (pst R) (option nat) :=
  modify (λ s, put_cpu (mkCpu (ncli (p_cpu s)) (intena (p_cpu s)) true) s);;
  pt_acquire;;
  sched_pick 0.

(** A process at index [i] has switched back -- src/proc.c:303-308 *)
Definition scheduler_back (i : nat) : M (pst R) (option nat) :=
  res sv_switchkvm;;
  modify (put_cur None);;
  sched_pick (S i).

(** [sleep] up to [swtch]: [lk] is the caller's lock, [None] if that is
    [ptable.lock] itself -- src/proc.c:441-464 *)
Definition sleep_enter (c : option chan) (rel_lk : option (M (pst R) unit)) : M (pst R) bool :=
  o ← gets curproc;
  match o with
  | None => panic "sleep"
  | Some me =>
      match rel_lk with
      | Some rel => pt_acquire;; rel
      | None => mret tt
      end;;
      upd_proc me (set_p_chan c);;
      upd_proc me (set_state SLEEPING);;
      sched_enter
  end.

(** [sleep] when it runs again -- src/proc.c:464-474 *)
Definition sleep_exit (e : bool) (acq_lk : option (M (pst R) unit)) : M (pst R) unit :=
  sched_exit e;;
  me ← cur;
  upd_proc me (set_p_chan None);;
  match acq_lk with
  | Some acq => pt_release;; acq
  | None => mret tt
  end.

(** [wakeup1(p)] of a process pointer. *)
Definition proc_chan (o : option nat) : option chan := ChProc <$> o.

(** Close the open files -- src/proc.c:194-199 *)
Definition close_files (me : nat) : M (pst R) unit :=
  for_each (seq 0 NOFILE) (λ fd,
    p ← the_proc me;
    let f := nth fd (ofile p) 0 in
    if negb (f =? 0) then
      res (sv_fileclose f);;
      upd_proc me (λ x, set_ofile (<[fd := 0]> (ofile x)) x)
    else mret tt).

(** Pass abandoned children to init -- src/proc.c:210-216 *)
Definition reparent (me : nat) : M (pst R) unit :=
  for_each table (λ i,
    p ← the_proc i;
    if bool_decide (parent p = Some me) then
      o ← gets initproc;
      upd_proc i (set_parent o);;
      p ← the_proc i;
      if bool_decide (state p = ZOMBIE) then wakeup1 (proc_chan o) else mret tt
    else mret tt).

(** [exit] up to [swtch]; it is never switched back to -- src/proc.c:184-222 *)
Definition exit : M (pst R) bool :=
  me ← cur;
  o ← gets initproc;
  if bool_decide (o = Some me) then panic "init exiting" else
  close_files me;;
  p ← the_proc me;
  res (sv_iput (cwd p));;
  upd_proc me (set_cwd 0);;
  pt_acquire;;
  p ← the_proc me;
  wakeup1 (proc_chan (parent p));;
  reparent me;;
  upd_proc me (set_state ZOMBIE);;
  sched_enter.

(** What a reaped slot is reset to -- src/proc.c:246-254 *)
Definition reset_slot (x : proc) : proc :=
  set_burstarr no_bursts (set_sburst 0 (set_burst_idx 0 (set_killed false
    (set_name (<[0%nat := 0]> (name x)) (set_parent None (set_pid 0 (set_state UNUSED x))))))).

(** [wait] from its scan on: it returns the result, or [None] if it went to
    sleep, to scan again when it is woken -- src/proc.c:233-269 *)
Definition wait_scan : M (pst R) (option Z) :=
  me ← cur;
  ps ← gets procs;
  let mine i := bool_decide (parent (ps i) = Some me) in
  match List.find (λ i, mine i && bool_decide (state (ps i) = ZOMBIE)) table with
  | Some i =>
      let pd := pid (ps i) in
      res (sv_kfree (kstack (ps i)));;
      upd_proc i (set_kstack 0);;
      res (sv_freevm (pgdir (ps i)));;
      upd_proc i reset_slot;;
      pt_release;;
      mret (Some pd)
  | None =>
      if negb (existsb mine table) || killed (ps me) then pt_release;; mret (Some (-1))
      else sleep_enter (Some (ChProc me)) None;; mret None
  end.

(** src/proc.c:226-270 *)
Definition wait : M (pst R) (option Z) := pt_acquire;; wait_scan.

(** [wait] woken up: the end of [sleep], and the next round. *)
Definition wait_resume (e : bool) : M (pst R) (option Z) := sleep_exit e None;; wait_scan.

(** src/proc.c:501-519 *)
Definition kill (pd : Z) : M (pst R) Z :=
  pt_acquire;;
  ps ← gets procs;
  match List.find (λ i, pid (ps i) =? pd) table with
  | Some i =>
      upd_proc i (set_killed true);;
      (if bool_decide (state (ps i) = SLEEPING) then upd_proc i (set_state RUNNABLE) else mret tt);;
      pt_release;;
      mret 0
  | None => pt_release;; mret (-1)
  end.

(** src/proc.c:528-535 *)
Definition state_name (st : procstate) : string :=
  match st with
  | UNUSED => "unused" | EMBRYO => "embryo" | SLEEPING => "sleep "
  | RUNNABLE => "runble" | RUNNING => "run   " | ZOMBIE => "zombie"
  end.

(** The listing: pid, state, name and, for a sleeping process, the program
    counters of its stack, found by [getcallerpcs] from its saved frame pointer
    in the kernel's memory [mem] -- src/proc.c:525-556 *)
Definition procdump (mem : Z → Z) (s : pst R) : list (Z * string * list Z * list Z) :=
  let fix until_zero (l : list Z) : list Z :=
    match l with [] => [] | c :: l => if c =? 0 then [] else c :: until_zero l end in
  omap (λ i, let p := procs s i in
    match state p with
    | UNUSED => None
    | st => Some (pid p, state_name st, name p,
        match st with
        | SLEEPING => until_zero (getcallerpcs mem (w32 (c_ebp (context p) + 8)))
        | _ => []
        end)
    end) table.

(** The initial stack of a thread: the argument's value, and a frame with a
    false return address, the argument's address and 0 -- src/proc.c:576-603 *)
Definition thread_stack_init (stack args : Z) : M (pst R) Z :=
  me ← cur;
  p ← the_proc me;
  let sp := Z.land (w32 (stack - 4)) (w32 (Z.lnot 3)) in
  bs ← res (sv_load args 4);
  res (sv_copyout (pgdir p) sp bs);;
  let frame := le_bytes 4 0xFFFFFFFF ++ le_bytes 4 sp ++ le_bytes 4 0 in
  let sp' := w32 (sp - 12) in
  res (sv_copyout (pgdir p) sp' frame);;
  mret sp'.

(** src/proc.c:606-645 *)
Definition thread_create (tmain stack arg : Z) : M (pst R) Z :=
  me ← cur;
  o ← allocproc;
  match o with
  | None => mret (-1)
  | Some np =>
      p ← the_proc me;
      upd_proc np (set_pgdir (pgdir p));;
      upd_proc np (set_sz (sz p));;
      upd_proc np (set_parent (Some me));;
      upd_proc np (set_tf (tf p));;
      upd_proc np (set_thread_stack_top stack);;
      sp ← thread_stack_init stack arg;
      upd_proc np (λ x, set_tf (set_tf_eax 0 (set_tf_eip tmain (set_tf_esp sp (tf x)))) x);;
      dup_files me np;;
      p ← the_proc me;
      c ← res (sv_idup (cwd p));
      upd_proc np (set_cwd c);;
      q ← the_proc np;
      upd_proc np (set_state RUNNABLE);;
      upd_proc np (λ x, set_name (copy_name (name p) (name x)) x);;
      mret (pid q)
  end.

(** [thread_join] from its scan on; [stack] is where the caller wants the
    thread's stack to be stored -- src/proc.c:656-694 *)
Definition join_scan (stack : Z) : M (pst R) (option Z) :=
  me ← cur;
  ps ← gets procs;
  let mine i := bool_decide (parent (ps i) = Some me) && (pgdir (ps i) =? pgdir (ps me)) in
  match List.find (λ i, mine i && bool_decide (state (ps i) = ZOMBIE)) table with
  | Some i =>
      let tid := pid (ps i) in
      res (sv_kfree (kstack (ps i)));;
      upd_proc i (set_kstack 0);;
      upd_proc i reset_slot;;
      res (sv_store stack (thread_stack_top (ps i)));;
      pt_release;;
      mret (Some tid)
  | None =>
      if negb (existsb mine table) || killed (ps me) then pt_release;; mret (Some (-1))
      else sleep_enter (Some (ChProc me)) None;; mret None
  end.

(** src/proc.c:648-696 *)
Definition thread_join (stack : Z) : M (pst R) (option Z) := pt_acquire;; join_scan stack.
Definition join_resume (e : bool) (stack : Z) : M (pst R) (option Z) :=
  sleep_exit e None;; join_scan stack.
End code.

(** ** The table seen through the fields the invariant is about *)

Record core := mkCore {
  k_state : procstate;
  k_pid : Z;
  k_parent : option nat;
  k_chan : option chan;
  k_pgdir : Z;
}.

Definition core_of (p : proc) : core := mkCore (state p) (pid p) (parent p) (p_chan p) (pgdir p).

Definition with_state (v : procstate) (c : core) : core :=
  mkCore v (k_pid c) (k_parent c) (k_chan c) (k_pgdir c).

(** The table of [s] is [C]. *)
Definition shows {R} (s : pst R) (C : nat → core) (np : Z) (ini cu : option nat) : Prop :=
  (∀ j, core_of (procs s j) = C j) ∧ nextpid s = np ∧ initproc s = ini ∧ curproc s = cu.

Section wlp_table.
Context {R : Type} {SV : Services R}.
Implicit Types (s : pst R) (C : nat → core).

Lemma shows_intro s :
  shows s (λ j, core_of (procs s j)) (nextpid s) (initproc s) (curproc s).
Proof. by split_and!. Qed.

Lemma wlp_res {A} (m : M R A) (Q : A → pst R → Prop) s C np ini cu :
  shows s C np ini cu → (∀ a s', shows s' C np ini cu → Q a s') → wlp (res m) Q s.
Proof. intros Hs HQ. apply wlp_zoom. intros a t. apply HQ. exact Hs. Qed.

Lemma wlp_pt_acquire (Q : unit → pst R → Prop) s C np ini cu :
  shows s C np ini cu → (∀ s', shows s' C np ini cu → Q tt s') → wlp pt_acquire Q s.
Proof.
  intros Hs HQ. apply wlp_bind, wlp_zoom. intros _ k. apply wlp_acquire, HQ. exact Hs.
Qed.

Lemma wlp_pt_release (Q : unit → pst R → Prop) s C np ini cu :
  shows s C np ini cu → (∀ s', shows s' C np ini cu → Q tt s') → wlp pt_release Q s.
Proof.
  intros Hs HQ. apply wlp_bind, wlp_release, wlp_zoom. intros [] k. apply HQ. exact Hs.
Qed.

Lemma wlp_upd_proc i f (Q : unit → pst R → Prop) s C C' np ini cu :
  shows s C np ini cu →
  (∀ j, C' j = if (j =? i)%nat then core_of (f (procs s i)) else C j) →
  (∀ s', shows s' C' np ini cu → Q tt s') → wlp (upd_proc i f) Q s.
Proof.
  intros (HC & ?) Hf HQ. apply wlp_modify, HQ. split; [|done]. intros j. rewrite Hf. simpl.
  unfold upd. case_match; [done|apply HC].
Qed.

(** An update of fields outside the core. *)
Lemma wlp_upd_same i f (Q : unit → pst R → Prop) s C np ini cu :
  shows s C np ini cu → (∀ x, core_of (f x) = core_of x) →
  (∀ s', shows s' C np ini cu → Q tt s') → wlp (upd_proc i f) Q s.
Proof.
  intros Hs Hf HQ. eapply wlp_upd_proc; [done| |done]. intros j. rewrite Hf.
  case_match eqn:E; [|done]. apply Nat.eqb_eq in E as ->. symmetry. apply Hs.
Qed.

Lemma wlp_cur (Q : nat → pst R → Prop) s C np ini cu :
  shows s C np ini cu → (∀ me, cu = Some me → Q me s) → wlp cur Q s.
Proof.
  intros (_ & _ & _ & Hc) HQ. unfold cur. apply wlp_bind, wlp_gets. rewrite Hc.
  destruct cu; [by apply wlp_ret, HQ|done].
Qed.

Lemma wlp_the_proc i (Q : proc → pst R → Prop) s C np ini cu :
  shows s C np ini cu → (∀ p, core_of p = C i → Q p s) → wlp (the_proc i) Q s.
Proof. intros [HC _] HQ. apply wlp_gets, HQ, HC. Qed.
End wlp_table.

(** ** The invariant of the table *)

(** Which call a process that sleeps on itself is in. *)
Inductive call := InWait | InJoin.

Definition live (st : procstate) : bool :=
  match st with SLEEPING | RUNNABLE | RUNNING => true | _ => false end.

Record tinv (C : nat → core) (np : Z) (ini : nat) (mode : nat → option call) : Prop := {
  t_np : 0 < np;
  t_init : (ini < NPROC)%nat ∧ live (k_state (C ini)) = true;
  t_unused i : (i < NPROC)%nat → k_state (C i) = UNUSED → k_parent (C i) = None;
  t_embryo i : (i < NPROC)%nat → k_state (C i) ≠ EMBRYO;
  t_pid i : (i < NPROC)%nat → k_state (C i) ≠ UNUSED → 0 < k_pid (C i) < np;
  t_pid_inj i j : (i < NPROC)%nat → (j < NPROC)%nat → k_state (C i) ≠ UNUSED →
    k_state (C j) ≠ UNUSED → k_pid (C i) = k_pid (C j) → i = j;
  t_parent i : (i < NPROC)%nat → k_state (C i) ≠ UNUSED → i ≠ ini →
    ∃ q, k_parent (C i) = Some q ∧ (q < NPROC)%nat ∧ q ≠ i ∧ live (k_state (C q)) = true;
  t_chan i m : (i < NPROC)%nat → k_state (C i) = SLEEPING → mode i = Some m →
    k_chan (C i) = Some (ChProc i);
  t_wait i j m : (i < NPROC)%nat → (j < NPROC)%nat → k_state (C i) = SLEEPING → mode i = Some m →
    k_parent (C j) = Some i → k_state (C j) = ZOMBIE →
    m = InJoin ∧ k_pgdir (C j) ≠ k_pgdir (C i);
}.

Lemma tinv_ext C C' np ini mode :
  (∀ j, (j < NPROC)%nat → C' j = C j) → tinv C np ini mode → tinv C' np ini mode.
Proof.
  intros E H. split; intros; rewrite ?E in * by (done || apply H); try by eapply H.
  destruct (t_parent _ _ _ _ H i) as (q & Hq & Hlt & Hqi & Hl); auto. exists q. by rewrite (E q).
Qed.

Lemma tinv_mode C np ini mode mode' :
  (∀ j, mode j = mode' j) → tinv C np ini mode → tinv C np ini mode'.
Proof. intros E H. split; intros; rewrite <- ?E in *; try by eapply H. Qed.

(** Slots that stay free may change their identifier. *)
Definition touch_free (C C' : nat → core) : Prop :=
  ∀ j, C' j = C j ∨
    (k_state (C j) = UNUSED ∧ k_state (C' j) = UNUSED ∧ k_parent (C' j) = k_parent (C j)).

Lemma touch_free_used C C' j : touch_free C C' → k_state (C' j) ≠ UNUSED ∨ k_state (C j) ≠ UNUSED → C' j = C j.
Proof. intros H Hu. destruct (H j) as [|(?&?&?)]; [done|]. naive_solver. Qed.

Lemma live_used st : live st = true → st ≠ UNUSED.
Proof. by destruct st. Qed.

Lemma tinv_touch C C' np np' ini mode :
  touch_free C C' → np ≤ np' → tinv C np ini mode → tinv C' np' ini mode.
Proof.
  intros Ht Hnp H.
  assert (Hs : ∀ j, k_state (C' j) = k_state (C j)).
  { intros j. destruct (Ht j) as [->|(E1&E2&_)]; congruence. }
  assert (Hp : ∀ j, k_parent (C' j) = k_parent (C j)).
  { intros j. destruct (Ht j) as [->|(_&_&E)]; congruence. }
  assert (Hu : ∀ j, k_state (C j) ≠ UNUSED → C' j = C j).
  { intros j Hj. apply (touch_free_used C C'); auto. }
  split; [pose proof (t_np _ _ _ _ H); lia|..].
  - rewrite Hs. apply H.
  - intros i. rewrite Hs, Hp. apply H.
  - intros i. rewrite Hs. apply H.
  - intros i Hi. rewrite Hs. intros Hui. rewrite Hu by done. pose proof (t_pid _ _ _ _ H i Hi Hui). lia.
  - intros i j Hi Hj. rewrite !Hs. intros Hui Huj. rewrite !Hu by done. by apply H.
  - intros i Hi. rewrite Hs, Hp. intros Hui Hne.
    destruct (t_parent _ _ _ _ H i Hi Hui Hne) as (q & Hq & Hlt & Hqi & Hl). exists q. by rewrite Hs.
  - intros i m Hi. rewrite Hs. intros Hsl. rewrite Hu by congruence. by apply H.
  - intros i j m Hi Hj. rewrite !Hs, Hp. intros Hsi Hm Hpar Hz. rewrite !Hu by congruence.
    by eapply (t_wait _ _ _ _ H).
Qed.

(** A new process in a free slot. *)
Lemma tinv_new C C' np ini mode i me ch pg :
  tinv C np ini mode → (i < NPROC)%nat → (me < NPROC)%nat → k_state (C i) = UNUSED →
  live (k_state (C me)) = true →
  (∀ j, C' j = if (j =? i)%nat then mkCore RUNNABLE np (Some me) ch pg else C j) →
  tinv C' (np + 1) ini mode.
Proof.
  intros H Hi Hme Hui Hl E. pose proof (t_np _ _ _ _ H).
  assert (Ei : C' i = mkCore RUNNABLE np (Some me) ch pg) by by rewrite E, Nat.eqb_refl.
  assert (Eo : ∀ j, j ≠ i → C' j = C j) by (intros j Hj; by rewrite E, (proj2 (Nat.eqb_neq _ _))).
  assert (Hlive : ∀ q, live (k_state (C q)) = true → live (k_state (C' q)) = true).
  { intros q Hq. destruct (decide (q = i)) as [->|]; [by rewrite Ei|by rewrite Eo]. }
  split; [lia|..].
  - split; [apply H|apply Hlive, H].
  - intros j Hj. destruct (decide (j = i)) as [->|]; [by rewrite Ei|rewrite Eo by done; by apply H].
  - intros j Hj. destruct (decide (j = i)) as [->|]; [by rewrite Ei|rewrite Eo by done; by apply H].
  - intros j Hj. destruct (decide (j = i)) as [->|]; [rewrite Ei; simpl; lia|rewrite Eo by done].
    intros Hu. pose proof (t_pid _ _ _ _ H j Hj Hu). lia.
  - intros j1 j2 H1 H2. destruct (decide (j1 = i)) as [->|N1], (decide (j2 = i)) as [->|N2];
      rewrite ?Ei, ?Eo by done; simpl; [done| | |by apply H].
    + intros _ Hu ->. pose proof (t_pid _ _ _ _ H j2 H2 Hu). lia.
    + intros Hu _ <-. pose proof (t_pid _ _ _ _ H j1 H1 Hu). lia.
  - intros j Hj. destruct (decide (j = i)) as [->|]; [rewrite Ei; intros; exists me; split_and!; auto; by intros ->; rewrite Hui in Hl|].
    rewrite Eo by done. intros Hu Hne. destruct (t_parent _ _ _ _ H j Hj Hu Hne) as (q & ? & ? & ? & ?).
    exists q. auto.
  - intros j m Hj. destruct (decide (j = i)) as [->|]; [by rewrite Ei|rewrite Eo by done; by apply H].
  - intros j1 j2 m H1 H2. destruct (decide (j1 = i)) as [->|N1]; [by rewrite Ei|].
    rewrite (Eo j1) by done. destruct (decide (j2 = i)) as [->|N2]; [by rewrite Ei|].
    rewrite Eo by done. by apply H.
Qed.

(** A live process changes its state or channel. *)
Lemma tinv_self C C' np ini mode me st ch m :
  tinv C np ini mode → (me < NPROC)%nat → live (k_state (C me)) = true → live st = true →
  (∀ j, C' j = if (j =? me)%nat then mkCore st (k_pid (C me)) (k_parent (C me)) ch (k_pgdir (C me)) else C j) →
  (∀ c, st = SLEEPING → m = Some c → ch = Some (ChProc me) ∧
     ∀ j, (j < NPROC)%nat → k_parent (C j) = Some me → k_state (C j) = ZOMBIE →
       c = InJoin ∧ k_pgdir (C j) ≠ k_pgdir (C me)) →
  tinv C' np ini (upd mode me m).
Proof.
  intros H Hme Hl Hst E Hm.
  assert (Ei : C' me = mkCore st (k_pid (C me)) (k_parent (C me)) ch (k_pgdir (C me))) by by rewrite E, Nat.eqb_refl.
  assert (Eo : ∀ j, j ≠ me → C' j = C j) by (intros j Hj; by rewrite E, (proj2 (Nat.eqb_neq _ _))).
  assert (Ep : ∀ j, k_pid (C' j) = k_pid (C j) ∧ k_parent (C' j) = k_parent (C j) ∧ k_pgdir (C' j) = k_pgdir (C j) ∧
    (k_state (C' j) = UNUSED ↔ k_state (C j) = UNUSED) ∧ live (k_state (C' j)) = live (k_state (C j)) ∧
    (k_state (C' j) = EMBRYO ↔ k_state (C j) = EMBRYO) ∧ (k_state (C' j) = ZOMBIE ↔ k_state (C j) = ZOMBIE)).
  { intros j. destruct (decide (j = me)) as [->|]; [|by rewrite Eo]. rewrite Ei. simpl.
    destruct st, (k_state (C me)); done. }
  split; [apply H|..].
  - destruct (Ep ini) as (_&_&_&_&->&_). apply H.
  - intros i Hi. destruct (Ep i) as (_&->&_&->&_). by apply H.
  - intros i Hi. destruct (Ep i) as (_&_&_&_&_&->&_). by apply H.
  - intros i Hi. destruct (Ep i) as (->&_&_&->&_). by apply H.
  - intros i j Hi Hj. destruct (Ep i) as (->&_&_&->&_), (Ep j) as (->&_&_&->&_). by apply H.
  - intros i Hi. destruct (Ep i) as (_&->&_&->&_). intros Hu Hne.
    destruct (t_parent _ _ _ _ H i Hi Hu Hne) as (q & ? & ? & ? & ?). exists q.
    destruct (Ep q) as (_&_&_&_&->&_). done.
  - intros i c Hi. destruct (decide (i = me)) as [->|Hne].
    + rewrite Ei, upd_eq. simpl. intros Hs Hc. by apply (Hm c).
    + rewrite Eo, upd_ne by done. by apply H.
  - intros i j c Hi Hj Hs Hc. destruct (Ep j) as (_&->&->&_&_&_&->). intros Hpar Hz.
    destruct (decide (i = me)) as [->|Hne].
    + rewrite Ei in *. rewrite upd_eq in Hc. simpl in *. by apply (Hm c).
    + rewrite Eo in * by done. rewrite upd_ne in Hc by done. by apply (t_wait _ _ _ _ H i j c).
Qed.

(** Some sleepers are woken. *)
Definition wakes (C C' : nat → core) : Prop :=
  ∀ j, C' j = C j ∨ (k_state (C j) = SLEEPING ∧ C' j = with_state RUNNABLE (C j)).

Lemma wakes_same C C' j : wakes C C' →
  k_pid (C' j) = k_pid (C j) ∧ k_parent (C' j) = k_parent (C j) ∧ k_pgdir (C' j) = k_pgdir (C j) ∧
  k_chan (C' j) = k_chan (C j) ∧
  (k_state (C' j) = UNUSED ↔ k_state (C j) = UNUSED) ∧ live (k_state (C' j)) = live (k_state (C j)) ∧
  (k_state (C' j) = EMBRYO ↔ k_state (C j) = EMBRYO) ∧ (k_state (C' j) = ZOMBIE ↔ k_state (C j) = ZOMBIE) ∧
  (k_state (C' j) = SLEEPING → k_state (C j) = SLEEPING).
Proof. intros H. destruct (H j) as [->|[E ->]]; [naive_solver|]. simpl. rewrite E. naive_solver. Qed.

Lemma tinv_wakes C C' np ini mode : wakes C C' → tinv C np ini mode → tinv C' np ini mode.
Proof.
  intros Hw H. pose proof (λ j, wakes_same C C' j Hw) as Ep. split; [apply H|..].
  - destruct (Ep ini) as (_&_&_&_&_&->&_). apply H.
  - intros i Hi. destruct (Ep i) as (_&->&_&_&->&_). by apply H.
  - intros i Hi. destruct (Ep i) as (_&_&_&_&_&_&->&_). by apply H.
  - intros i Hi. destruct (Ep i) as (->&_&_&_&->&_). by apply H.
  - intros i j Hi Hj. destruct (Ep i) as (->&_&_&_&->&_), (Ep j) as (->&_&_&_&->&_). by apply H.
  - intros i Hi. destruct (Ep i) as (_&->&_&_&->&_). intros Hu Hne.
    destruct (t_parent _ _ _ _ H i Hi Hu Hne) as (q & ? & ? & ? & ?). exists q.
    destruct (Ep q) as (_&_&_&_&_&->&_). done.
  - intros i m Hi. destruct (Ep i) as (_&_&_&->&_&_&_&_&Hs). intros ?%Hs. by apply H.
  - intros i j m Hi Hj. destruct (Ep i) as (_&_&->&_&_&_&_&_&Hs).
    destruct (Ep j) as (_&->&->&_&_&_&_&->&_). intros ?%Hs. by apply H.
Qed.

(** A zombie is reaped. *)
Lemma tinv_reap C C' np ini mode i pd ch pg :
  tinv C np ini mode → (i < NPROC)%nat → k_state (C i) = ZOMBIE →
  (∀ j, C' j = if (j =? i)%nat then mkCore UNUSED pd None ch pg else C j) →
  tinv C' np ini mode.
Proof.
  intros H Hi Hz E.
  assert (Ei : C' i = mkCore UNUSED pd None ch pg) by by rewrite E, Nat.eqb_refl.
  assert (Eo : ∀ j, j ≠ i → C' j = C j) by (intros j Hj; by rewrite E, (proj2 (Nat.eqb_neq _ _))).
  assert (Hlive : ∀ q, live (k_state (C q)) = true → live (k_state (C' q)) = true).
  { intros q Hq. destruct (decide (q = i)) as [->|]; [by rewrite Hz in Hq|by rewrite Eo]. }
  split; [apply H|..].
  - split; [apply H|apply Hlive, H].
  - intros j Hj. destruct (decide (j = i)) as [->|]; [by rewrite Ei|rewrite Eo by done; by apply H].
  - intros j Hj. destruct (decide (j = i)) as [->|]; [by rewrite Ei|rewrite Eo by done; by apply H].
  - intros j Hj. destruct (decide (j = i)) as [->|]; [by rewrite Ei|rewrite Eo by done; by apply H].
  - intros j1 j2 H1 H2. destruct (decide (j1 = i)) as [->|N1]; [by rewrite Ei|].
    destruct (decide (j2 = i)) as [->|N2]; [by rewrite Ei|]. rewrite !Eo by done. by apply H.
  - intros j Hj. destruct (decide (j = i)) as [->|]; [by rewrite Ei|].
    rewrite Eo by done. intros Hu Hne. destruct (t_parent _ _ _ _ H j Hj Hu Hne) as (q & ? & ? & ? & ?).
    exists q. auto.
  - intros j m Hj. destruct (decide (j = i)) as [->|]; [by rewrite Ei|rewrite Eo by done; by apply H].
  - intros j1 j2 m H1 H2. destruct (decide (j1 = i)) as [->|N1]; [by rewrite Ei|].
    rewrite (Eo j1) by done. destruct (decide (j2 = i)) as [->|N2]; [by rewrite Ei|].
    rewrite Eo by done. by apply H.
Qed.

(** A process exits: its children go to init, and whoever waits for the new or
    the inherited zombies is awake. *)
Lemma tinv_exit C C' np ini mode me :
  tinv C np ini mode → (me < NPROC)%nat → me ≠ ini → live (k_state (C me)) = true →
  (∀ j, k_pid (C' j) = k_pid (C j) ∧ k_chan (C' j) = k_chan (C j) ∧ k_pgdir (C' j) = k_pgdir (C j)) →
  (∀ j, (j < NPROC)%nat → k_parent (C' j) = if decide (k_parent (C j) = Some me) then Some ini else k_parent (C j)) →
  (∀ j, j ≠ me → k_state (C' j) = k_state (C j) ∨ (k_state (C j) = SLEEPING ∧ k_state (C' j) = RUNNABLE)) →
  k_state (C' me) = ZOMBIE →
  (∀ q, k_parent (C me) = Some q → ¬ (k_state (C' q) = SLEEPING ∧ k_chan (C q) = Some (ChProc q))) →
  (∀ j, (j < NPROC)%nat → k_parent (C j) = Some me → k_state (C j) = ZOMBIE →
     ¬ (k_state (C' ini) = SLEEPING ∧ k_chan (C ini) = Some (ChProc ini))) →
  tinv C' np ini mode.
Proof.
  intros H Hme Hni Hl Hid Hpar Hst Hz Hq Hi.
  assert (Hu : ∀ j, k_state (C' j) = UNUSED ↔ k_state (C j) = UNUSED).
  { intros j. destruct (decide (j = me)) as [->|Hne].
    - rewrite Hz. split; [done|]. intros E. by rewrite E in Hl.
    - destruct (Hst j Hne) as [->|[-> ->]]; done. }
  assert (Hlv : ∀ q, q ≠ me → live (k_state (C q)) = true → live (k_state (C' q)) = true).
  { intros q Hne. destruct (Hst q Hne) as [->|[-> ->]]; done. }
  split; [apply H|..].
  - split; [apply H|]. apply Hlv; [done|apply H].
  - intros i Hi' Hui. apply Hu in Hui. rewrite Hpar, (t_unused _ _ _ _ H i Hi' Hui) by done.
    by rewrite decide_False.
  - intros i Hi' E. destruct (decide (i = me)) as [->|Hne]; [congruence|].
    destruct (Hst i Hne) as [E'|[_ E']]; [|congruence]. rewrite E' in E. by apply (t_embryo _ _ _ _ H i).
  - intros i Hi'. rewrite Hu. destruct (Hid i) as (->&_). by apply H.
  - intros i j H1 H2. rewrite !Hu. destruct (Hid i) as (->&_), (Hid j) as (->&_). by apply H.
  - intros i Hi'. rewrite Hu. intros Hui Hne. rewrite Hpar by done.
    destruct (t_parent _ _ _ _ H i Hi' Hui Hne) as (q & Eq & Hlt & Hqi & Hlq). rewrite Eq.
    destruct (decide (Some q = Some me)) as [[= ->]|Hqm].
    + exists ini. split_and!; [done|apply H|done|]. apply Hlv; [done|apply H].
    + exists q. split_and!; [done..|]. apply Hlv; [congruence|done].
  - intros i m Hi' Hs. destruct (Hid i) as (_&->&_). apply (t_chan _ _ _ _ H i m Hi').
    destruct (decide (i = me)) as [->|Hne]; [congruence|]. destruct (Hst i Hne) as [E|[E _]]; congruence.
  - intros i j m H1 H2 Hs Hm Hp Hzj.
    assert (Hni' : i ≠ me) by congruence.
    assert (Hso : k_state (C i) = SLEEPING) by (destruct (Hst i Hni') as [E|[E _]]; congruence).
    pose proof (t_chan _ _ _ _ H i m H1 Hso Hm) as Hch.
    destruct (Hid i) as (_&_&->). destruct (Hid j) as (_&_&->). rewrite Hpar in Hp by done.
    destruct (decide (j = me)) as [->|Hjm].
    { exfalso. case_decide as Hd.
      - destruct (t_parent _ _ _ _ H me Hme) as (q & Eq & _ & Hqi & _); [by apply live_used|done|].
        congruence.
      - by apply (Hq i Hp). }
    assert (Hzo : k_state (C j) = ZOMBIE) by (destruct (Hst j Hjm) as [E|[_ E]]; congruence).
    case_decide as Hd.
    + injection Hp as <-. exfalso. by apply (Hi j H2 Hd Hzo).
    + by apply (t_wait _ _ _ _ H i j m).
Qed.

(** ** What the routines do to the table *)

Section effects.
Context {R : Type} {SV : Services R}.
Implicit Types (s : pst R) (C : nat → core).

(** One step of a routine, with [Hs] the current table. *)
#[local] Ltac t_step Hs :=
  lazymatch goal with
  | |- wlp (mbind _ _) _ _ => apply wlp_bind
  | |- wlp (mret _) _ _ => apply wlp_ret
  | |- wlp (panic _) _ _ => exact I
  | |- wlp (fault _) _ _ => exact I
  | |- wlp pt_acquire _ _ => eapply wlp_pt_acquire; [exact Hs|]; clear Hs; intros ? Hs
  | |- wlp pt_release _ _ => eapply wlp_pt_release; [exact Hs|]; clear Hs; intros ? Hs
  | |- wlp (res _) _ _ => eapply wlp_res; [exact Hs|]; clear Hs; intros ? ? Hs
  | |- wlp (the_proc _) _ _ => eapply wlp_the_proc; [exact Hs|]; intros ? ?
  | |- wlp (gets _) _ _ => apply wlp_gets
  | |- wlp (upd_proc _ _) _ _ =>
      eapply wlp_upd_same; [exact Hs|intros ?; reflexivity|]; clear Hs; intros ? Hs
  | |- wlp (modify (put_cpu _)) _ _ => apply wlp_modify
  end.
#[local] Ltac t_run Hs := repeat (t_step Hs; cbn beta).

Lemma table_elem i : i ∈ table ↔ (i < NPROC)%nat.
Proof. unfold table. rewrite elem_of_seq. lia. Qed.

Lemma find_table (f : nat → bool) i : List.find f table = Some i → (i < NPROC)%nat ∧ f i = true.
Proof. intros H%find_some. destruct H as [H ?]. by rewrite <- list_elem_of_In, table_elem in H. Qed.

Lemma find_table_none (f : nat → bool) i : List.find f table = None → (i < NPROC)%nat → f i = false.
Proof. intros H Hi. apply (find_none _ _ H). by apply list_elem_of_In, table_elem. Qed.

(** The state field of slot [i], and nothing else of the core. *)
Lemma wlp_set_state i st (Q : unit → pst R → Prop) s C np ini cu :
  shows s C np ini cu →
  (∀ s', shows s' (upd C i (with_state st (C i))) np ini cu → Q tt s') →
  wlp (upd_proc i (set_state st)) Q s.
Proof.
  intros Hs HQ. eapply wlp_upd_proc; [exact Hs| |exact HQ]. intros j. unfold upd.
  case_match; [|done]. destruct Hs as [HC _]. rewrite <- HC. done.
Qed.

Definition alloc_post C np (o : option nat) C' np' : Prop :=
  match o with
  | None => touch_free C C' ∧ (np' = np ∨ np' = s32 (np + 1))
  | Some i => (i < NPROC)%nat ∧ k_state (C i) = UNUSED ∧ np' = s32 (np + 1) ∧
      ∀ j, C' j = if (j =? i)%nat then mkCore EMBRYO np (k_parent (C i)) (k_chan (C i)) (k_pgdir (C i)) else C j
  end.

Lemma allocproc_wlp (Q : option nat → pst R → Prop) s C np ini cu :
  shows s C np ini cu →
  (∀ o s' C' np', shows s' C' np' ini cu → alloc_post C np o C' np' → Q o s') →
  wlp allocproc Q s.
Proof.
  intros Hs HQ. unfold allocproc. t_run Hs.
  match goal with |- wlp (match List.find ?f table with _ => _ end) _ ?s1 =>
    destruct (List.find f table) as [i|] eqn:Ef end.
  2: { t_run Hs. eapply HQ; [exact Hs|]. split; [by left|by left]. }
  destruct (find_table _ _ Ef) as [Hi Hu%bool_decide_eq_true].
  pose proof Hs as (HC & Hnp & _). assert (Hui : k_state (C i) = UNUSED) by (rewrite <- HC; done).
  apply wlp_bind. eapply wlp_set_state; [exact Hs|]. clear Hs. intros s2 Hs. t_run Hs.
  assert (Hn2 : nextpid s2 = np) by apply Hs. rewrite Hn2.
  eapply (wlp_upd_proc i _ _ _ _ (upd C i (mkCore EMBRYO np (k_parent (C i)) (k_chan (C i)) (k_pgdir (C i)))));
    [exact Hs| |].
  { intros j. unfold upd. destruct Hs as [HC2 _]. pose proof (HC2 i) as E. unfold upd in E.
    rewrite Nat.eqb_refl in E. unfold core_of, with_state in *. injection E as E1 E2 E3 E4 E5.
    case_match; [|done]. simpl. by rewrite E1, E3, E4, E5. }
  clear Hs. intros s3 Hs. apply wlp_bind, wlp_modify.
  assert (Hs4 : shows (put_nextpid (s32 (np + 1)) s3) (upd C i (mkCore EMBRYO np (k_parent (C i)) (k_chan (C i)) (k_pgdir (C i))))
    (s32 (np + 1)) ini cu) by (destruct Hs as (?&?&?&?); by split_and!).
  clear Hs. rename Hs4 into Hs. t_run Hs. apply wlp_if; intros Ek.
  - apply wlp_bind. eapply wlp_set_state; [exact Hs|]. clear Hs. intros s5 Hs. t_run Hs.
    eapply HQ; [exact Hs|]. split; [|by right]. intros j. unfold upd. destruct (Nat.eqb_spec j i) as [->|]; [|by left].
    right. rewrite Nat.eqb_refl. done.
  - t_run Hs. eapply HQ; [exact Hs|]. split_and!; [done|done|done|]. intros j. by unfold upd.
Qed.

(** Loops over the files touch no core. *)
Lemma dup_files_wlp me np (Q : unit → pst R → Prop) s C n ini cu :
  shows s C n ini cu → (∀ s', shows s' C n ini cu → Q tt s') → wlp (dup_files me np) Q s.
Proof.
  intros Hs HQ. apply (wlp_for_each _ _ (λ _ s', shows s' C n ini cu)); [done| |done].
  intros i l s' Hs'. t_run Hs'. apply wlp_if; intros _; t_run Hs'; done.
Qed.

Lemma close_files_wlp me (Q : unit → pst R → Prop) s C n ini cu :
  shows s C n ini cu → (∀ s', shows s' C n ini cu → Q tt s') → wlp (close_files me) Q s.
Proof.
  intros Hs HQ. apply (wlp_for_each _ _ (λ _ s', shows s' C n ini cu)); [done| |done].
  intros i l s' Hs'. t_run Hs'. apply wlp_if; intros _; t_run Hs'; done.
Qed.

(** [wakeup1] makes runnable exactly the sleepers on the channel. *)
Lemma wakeup1_wlp c (Q : unit → pst R → Prop) s C n ini cu :
  shows s C n ini cu →
  (∀ s' C', shows s' C' n ini cu → wakes C C' →
     (∀ j, (j < NPROC)%nat → ¬ (k_state (C' j) = SLEEPING ∧ k_chan (C' j) = c)) → Q tt s') →
  wlp (wakeup1 c) Q s.
Proof.
  intros Hs HQ. apply (wlp_for_each _ _ (λ l s', ∃ C', shows s' C' n ini cu ∧ wakes C C' ∧
    ∀ j, (j < NPROC)%nat → j ∈ l ∨ ¬ (k_state (C' j) = SLEEPING ∧ k_chan (C' j) = c))).
  - exists C. split_and!; [done|by left|]. intros j Hj. left. by apply table_elem.
  - intros i l s' (C' & Hs' & Hw & Hl). t_run Hs'.
    match goal with H : core_of ?p = C' i |- _ => rename H into Ep end.
    apply wlp_if; intros E; t_run Hs'.
    + apply andb_true_iff in E as [E1%bool_decide_eq_true E2%bool_decide_eq_true].
      eapply wlp_set_state; [exact Hs'|]. intros s2 Hs2. eexists. split_and!; [exact Hs2| |].
      * intros j. unfold upd. destruct (Nat.eqb_spec j i) as [->|]; [|by apply Hw]. right.
        assert (Est : k_state (C' i) = SLEEPING) by (rewrite <- Ep; exact E1).
        destruct (Hw i) as [Ew|[Ew1 Ew2]]; [by rewrite Ew in *|by rewrite Ew2 in Est].
      * intros j Hj. unfold upd. destruct (Nat.eqb_spec j i) as [->|Hne]; [right; by intros [? _]|].
        destruct (Hl j Hj) as [Hin|]; [|by right]. apply elem_of_cons in Hin as [->|]; [done|by left].
    + exists C'. split_and!; [done|done|]. intros j Hj. destruct (Hl j Hj) as [Hin|]; [|by right].
      apply elem_of_cons in Hin as [->|]; [right|by left]. intros [E1 E2]. rewrite <- Ep in *. simpl in *.
      apply andb_false_iff in E as [E%bool_decide_eq_false|E%bool_decide_eq_false]; done.
  - intros s' (C' & Hs' & Hw & Hl). apply (HQ s' C'); [done|done|]. intros j Hj.
    destruct (Hl j Hj) as [H|]; [by apply elem_of_nil in H|done].
Qed.

(** The result of a routine that keeps the invariant. *)
Definition keeps ini cu (mode : nat → option call) s : Prop :=
  ∃ C np, shows s C np (Some ini) cu ∧ tinv C np ini mode.

Lemma keeps_intro ini cu mode s C np :
  shows s C np (Some ini) cu → tinv C np ini mode → keeps ini cu mode s.
Proof. intros. by exists C, np. Qed.

Lemma np_succ np : 0 < np < 2^31 - 1 → s32 (np + 1) = np + 1.
Proof. intros. apply s32_small. lia. Qed.

(** A failed allocation leaves the table as it was but for free slots. *)
Lemma alloc_none C np C' np' ini mode :
  tinv C np ini mode → np < 2^31 - 1 → alloc_post C np None C' np' → tinv C' np' ini mode.
Proof.
  intros H Hlt [Ht Hnp]. pose proof (t_np _ _ _ _ H) as Hp.
  rewrite (np_succ np (conj Hp Hlt)) in Hnp.
  eapply (tinv_touch C C' np np'); [exact Ht|destruct Hnp; lia|exact H].
Qed.

(** The embryo becomes a child of [me]. *)
Lemma alloc_child C np C1 np' C' i me d ini mode :
  tinv C np ini mode → np < 2^31 - 1 → alloc_post C np (Some i) C1 np' →
  (me < NPROC)%nat → live (k_state (C me)) = true →
  (∀ j, C' j = if (j =? i)%nat then mkCore RUNNABLE (k_pid (C1 i)) (Some me) (k_chan (C1 i)) d else C1 j) →
  tinv C' np' ini mode.
Proof.
  intros H Hlt (Hi & Hu & -> & E) Hme Hl E'. pose proof (t_np _ _ _ _ H). rewrite np_succ by lia.
  eapply (tinv_new C C' np ini mode i me (k_chan (C i)) d); [done..|].
  intros j. rewrite E', (E i), Nat.eqb_refl. simpl. case_match; [done|]. rewrite E. by rewrite H1.
Qed.

(** Dropping an embryo again. *)
Lemma alloc_drop C np C1 np' C' i pg ini mode :
  tinv C np ini mode → np < 2^31 - 1 → alloc_post C np (Some i) C1 np' →
  (∀ j, C' j = if (j =? i)%nat then mkCore UNUSED (k_pid (C1 i)) (k_parent (C1 i)) (k_chan (C1 i)) pg else C1 j) →
  tinv C' np' ini mode.
Proof.
  intros H Hlt (Hi & Hu & -> & E) E'. pose proof (t_np _ _ _ _ H). rewrite np_succ by lia.
  eapply (tinv_touch C C' np); [|lia|exact H]. intros j. rewrite E', (E i), (E j), Nat.eqb_refl.
  destruct (Nat.eqb_spec j i) as [->|]; [right|by left]. done.
Qed.

(** Changing only [pgdir] or [parent] of slot [i]. *)
Lemma wlp_set_pgdir i d (Q : unit → pst R → Prop) s C np ini cu :
  shows s C np ini cu →
  (∀ s', shows s' (upd C i (mkCore (k_state (C i)) (k_pid (C i)) (k_parent (C i)) (k_chan (C i)) d)) np ini cu → Q tt s') →
  wlp (upd_proc i (set_pgdir d)) Q s.
Proof.
  intros Hs HQ. eapply wlp_upd_proc; [exact Hs| |exact HQ]. intros j. unfold upd.
  case_match; [|done]. destruct Hs as [HC _]. rewrite <- HC. done.
Qed.
Lemma wlp_set_parent i o (Q : unit → pst R → Prop) s C np ini cu :
  shows s C np ini cu →
  (∀ s', shows s' (upd C i (mkCore (k_state (C i)) (k_pid (C i)) o (k_chan (C i)) (k_pgdir (C i)))) np ini cu → Q tt s') →
  wlp (upd_proc i (set_parent o)) Q s.
Proof.
  intros Hs HQ. eapply wlp_upd_proc; [exact Hs| |exact HQ]. intros j. unfold upd.
  case_match; [|done]. destruct Hs as [HC _]. rewrite <- HC. done.
Qed.

Lemma fork_keeps s C np ini me mode :
  shows s C np (Some ini) (Some me) → tinv C np ini mode → np < 2^31 - 1 →
  (me < NPROC)%nat → live (k_state (C me)) = true →
  wlp fork (λ _ s', keeps ini (Some me) mode s') s.
Proof.
  intros Hs H Hlt Hme Hl. unfold fork. apply wlp_bind. eapply wlp_cur; [exact Hs|]. intros ? [= <-].
  apply wlp_bind. eapply allocproc_wlp; [exact Hs|]. clear Hs. intros [i|] s1 C1 np1 Hs Hal.
  2: { t_run Hs. eapply keeps_intro; [exact Hs|]. by eapply alloc_none. }
  t_run Hs. eapply wlp_set_pgdir; [exact Hs|]. clear Hs. intros s2 Hs. apply wlp_if; intros Ed.
  - t_run Hs. eapply wlp_set_state; [exact Hs|]. clear Hs. intros s3 Hs. t_run Hs.
    eapply keeps_intro; [exact Hs|]. eapply alloc_drop; [exact H|done|exact Hal|].
    intros j. unfold upd. rewrite Nat.eqb_refl. by case_match.
  - t_run Hs. eapply wlp_set_parent; [exact Hs|]. clear Hs. intros s3 Hs. t_run Hs.
    eapply dup_files_wlp; [exact Hs|]. clear Hs. intros s4 Hs. t_run Hs.
    eapply wlp_set_state; [exact Hs|]. clear Hs. intros s5 Hs. t_run Hs.
    eapply keeps_intro; [exact Hs|]. eapply alloc_child; [exact H|done|exact Hal|done|done|].
    intros j. unfold upd. rewrite !Nat.eqb_refl. simpl. by case_match.
Qed.

Lemma thread_create_keeps s C np ini me mode tm st arg :
  shows s C np (Some ini) (Some me) → tinv C np ini mode → np < 2^31 - 1 →
  (me < NPROC)%nat → live (k_state (C me)) = true →
  wlp (thread_create tm st arg) (λ _ s', keeps ini (Some me) mode s') s.
Proof.
  intros Hs H Hlt Hme Hl. unfold thread_create, thread_stack_init. apply wlp_bind.
  eapply wlp_cur; [exact Hs|]. intros ? [= <-].
  apply wlp_bind. eapply allocproc_wlp; [exact Hs|]. clear Hs. intros [i|] s1 C1 np1 Hs Hal.
  2: { t_run Hs. eapply keeps_intro; [exact Hs|]. by eapply alloc_none. }
  t_run Hs. eapply wlp_set_pgdir; [exact Hs|]. clear Hs. intros s2 Hs. t_run Hs.
  eapply wlp_set_parent; [exact Hs|]. clear Hs. intros s3 Hs. t_run Hs.
  eapply wlp_cur; [exact Hs|]. intros ? [= <-]. t_run Hs.
  eapply dup_files_wlp; [exact Hs|]. clear Hs. intros s4 Hs. t_run Hs.
  eapply wlp_set_state; [exact Hs|]. clear Hs. intros s5 Hs. t_run Hs.
  eapply keeps_intro; [exact Hs|]. eapply alloc_child; [exact H|done|exact Hal|done|done|].
  intros j. unfold upd. rewrite !Nat.eqb_refl. simpl. by case_match.
Qed.

Lemma sched_enter_wlp (Q : bool → pst R → Prop) s C np ini cu :
  shows s C np ini cu → (∀ e, Q e s) → wlp sched_enter Q s.
Proof.
  intros Hs HQ. unfold sched_enter. apply wlp_bind. eapply wlp_cur; [exact Hs|]. intros me _. t_run Hs.
  apply wlp_if; intros _; [done|]. t_run Hs. apply wlp_if; intros _; [done|]. t_run Hs.
  apply wlp_if; intros _; [done|]. apply wlp_if; intros _; [done|]. t_run Hs. apply HQ.
Qed.

Lemma growproc_keeps s C np ini cu mode n :
  shows s C np (Some ini) cu → tinv C np ini mode →
  wlp (growproc n) (λ _ s', keeps ini cu mode s') s.
Proof.
  intros Hs H. unfold growproc. apply wlp_bind. eapply wlp_cur; [exact Hs|]. intros me Hme. t_run Hs.
  apply wlp_mono with (Q := λ _ s', shows s' C np (Some ini) cu).
  { apply wlp_if; intros _; [by t_run Hs|]. apply wlp_if; intros _; by t_run Hs. }
  clear Hs. intros r sz Hs. apply wlp_if; intros _; t_run Hs; by eapply keeps_intro.
Qed.

Lemma wakeup_keeps s C np ini cu mode c :
  shows s C np (Some ini) cu → tinv C np ini mode →
  wlp (wakeup c) (λ _ s', keeps ini cu mode s') s.
Proof.
  intros Hs H. unfold wakeup. t_run Hs. eapply wakeup1_wlp; [exact Hs|]. clear Hs.
  intros sz C' Hs Hw _. t_run Hs. eapply keeps_intro; [exact Hs|]. by eapply tinv_wakes.
Qed.

Lemma kill_keeps s C np ini cu mode pd :
  shows s C np (Some ini) cu → tinv C np ini mode →
  wlp (kill pd) (λ _ s', keeps ini cu mode s') s.
Proof.
  intros Hs H. unfold kill. t_run Hs.
  match goal with |- wlp (match List.find ?f table with _ => _ end) _ ?s1 =>
    destruct (List.find f table) as [i|] eqn:Ef end.
  - pose proof Hs as (HC & _). t_run Hs. apply wlp_if; intros E.
    + apply bool_decide_eq_true in E. eapply wlp_set_state; [exact Hs|]. clear Hs. intros sz Hs. t_run Hs.
      eapply keeps_intro; [exact Hs|]. eapply tinv_wakes; [|exact H]. intros j. unfold upd.
      destruct (Nat.eqb_spec j i) as [->|]; [right|by left]. split; [|done]. rewrite <- HC. exact E.
    + t_run Hs. by eapply keeps_intro.
  - t_run Hs. by eapply keeps_intro.
Qed.

(** A running process gives up the CPU without waiting. *)
Lemma yield_keeps s C np ini me mode :
  shows s C np (Some ini) (Some me) → tinv C np ini mode → (me < NPROC)%nat →
  live (k_state (C me)) = true →
  wlp yield_enter (λ _ s', keeps ini (Some me) (upd mode me None) s') s.
Proof.
  intros Hs H Hme Hl. unfold yield_enter. t_run Hs. eapply wlp_cur; [exact Hs|]. intros ? [= <-].
  apply wlp_bind. eapply wlp_set_state; [exact Hs|]. clear Hs. intros sz Hs. eapply sched_enter_wlp; [exact Hs|].
  intros e. eapply keeps_intro; [exact Hs|].
  eapply (tinv_self C _ _ _ _ me RUNNABLE (k_chan (C me)) None); [done..|]. by intros j.
Qed.

Lemma wlp_set_chan i c (Q : unit → pst R → Prop) s C np ini cu :
  shows s C np ini cu →
  (∀ s', shows s' (upd C i (mkCore (k_state (C i)) (k_pid (C i)) (k_parent (C i)) c (k_pgdir (C i)))) np ini cu → Q tt s') →
  wlp (upd_proc i (set_p_chan c)) Q s.
Proof.
  intros Hs HQ. eapply wlp_upd_proc; [exact Hs| |exact HQ]. intros j. unfold upd.
  case_match; [|done]. destruct Hs as [HC _]. rewrite <- HC. done.
Qed.

(** [sleep] puts the caller to sleep on the channel. *)
Lemma sleep_enter_wlp c rel (Q : bool → pst R → Prop) s C np ini me :
  shows s C np ini (Some me) →
  (∀ m, rel = Some m → ∃ m', m = res m') →
  (∀ e s' C', shows s' C' np ini (Some me) →
     (∀ j, C' j = if (j =? me)%nat then mkCore SLEEPING (k_pid (C me)) (k_parent (C me)) c (k_pgdir (C me)) else C j) →
     Q e s') →
  wlp (sleep_enter c rel) Q s.
Proof.
  intros Hs Hrel HQ. unfold sleep_enter. t_run Hs. pose proof Hs as (_&_&_&->). apply wlp_bind.
  apply wlp_mono with (Q := λ _ s', shows s' C np ini (Some me)).
  { destruct rel as [m|]; [|by t_run Hs]. destruct (Hrel m eq_refl) as [m' ->]. by t_run Hs. }
  clear Hs. intros _ s1 Hs. apply wlp_bind. eapply wlp_set_chan; [exact Hs|]. clear Hs. intros s2 Hs.
  apply wlp_bind. eapply wlp_set_state; [exact Hs|]. clear Hs. intros s3 Hs.
  eapply sched_enter_wlp; [exact Hs|]. intros e. eapply HQ; [exact Hs|].
  intros j. unfold upd. rewrite Nat.eqb_refl. by case_match.
Qed.

Lemma sleep_keeps s C np ini me mode c m :
  shows s C np (Some ini) (Some me) → tinv C np ini mode → (me < NPROC)%nat →
  live (k_state (C me)) = true →
  wlp (sleep_enter c (Some (res m))) (λ _ s', keeps ini (Some me) (upd mode me None) s') s.
Proof.
  intros Hs H Hme Hl. eapply sleep_enter_wlp; [exact Hs|intros ? [= <-]; eauto|].
  intros e s' C' Hs' E. eapply keeps_intro; [exact Hs'|]. by eapply (tinv_self C C' _ _ _ me SLEEPING c None).
Qed.

(** The end of [sleep]. *)
Lemma sleep_exit_wlp e acq (Q : unit → pst R → Prop) s C np ini me :
  shows s C np ini (Some me) →
  (∀ m, acq = Some m → ∃ m', m = res m') →
  (∀ s' C', shows s' C' np ini (Some me) →
     (∀ j, C' j = if (j =? me)%nat then mkCore (k_state (C me)) (k_pid (C me)) (k_parent (C me)) None (k_pgdir (C me)) else C j) →
     Q tt s') →
  wlp (sleep_exit e acq) Q s.
Proof.
  intros Hs Hacq HQ. unfold sleep_exit, sched_exit. apply wlp_bind, wlp_modify. apply wlp_bind.
  match goal with |- wlp _ _ ?s0 => assert (Hs0 : shows s0 C np ini (Some me)) by exact Hs end.
  eapply wlp_cur; [exact Hs0|]. intros ? [= <-]. apply wlp_bind. eapply wlp_set_chan; [exact Hs0|].
  clear Hs Hs0. intros s2 Hs. destruct acq as [m|].
  - destruct (Hacq m eq_refl) as [m' ->]. t_run Hs. destruct a. eapply HQ; [exact Hs|]. by intros j.
  - t_run Hs. eapply HQ; [exact Hs|]. by intros j.
Qed.

Lemma sleep_exit_keeps s C np ini me mode e m :
  shows s C np (Some ini) (Some me) → tinv C np ini mode → (me < NPROC)%nat →
  k_state (C me) = RUNNING →
  wlp (sleep_exit e (Some (res m))) (λ _ s', keeps ini (Some me) (upd mode me None) s') s.
Proof.
  intros Hs H Hme Hl. eapply sleep_exit_wlp; [exact Hs|intros ? [= <-]; eauto|].
  intros s' C' Hs' E. eapply keeps_intro; [exact Hs'|].
  eapply (tinv_self C C' _ _ _ me (k_state (C me)) None None); rewrite ?Hl; try done.
  intros j. by rewrite E, Hl.
Qed.

(** [wait] and [thread_join] share this shape: reap a zombie child that
    qualifies, give up without children, or sleep. *)
Lemma scan_sleep_keeps s C np ini me mode c :
  shows s C np (Some ini) (Some me) → tinv C np ini mode → (me < NPROC)%nat →
  live (k_state (C me)) = true →
  (∀ j, (j < NPROC)%nat → k_parent (C j) = Some me → k_state (C j) = ZOMBIE →
     c = InJoin ∧ k_pgdir (C j) ≠ k_pgdir (C me)) →
  wlp (sleep_enter (Some (ChProc me)) None) (λ _ s', keeps ini (Some me) (upd mode me (Some c)) s') s.
Proof.
  intros Hs H Hme Hl Hz. eapply sleep_enter_wlp; [exact Hs|done|].
  intros e s' C' Hs' E. eapply keeps_intro; [exact Hs'|].
  eapply (tinv_self C C' _ _ _ me SLEEPING (Some (ChProc me)) (Some c)); try done.
  intros c' _ [= <-]. done.
Qed.

Lemma tinv_awake C np ini mode me :
  tinv C np ini mode → (me < NPROC)%nat → k_state (C me) = RUNNING → tinv C np ini (upd mode me None).
Proof.
  intros H Hme Hr. eapply (tinv_self C C _ _ _ me RUNNING (k_chan (C me)) None); rewrite ?Hr; try done.
  intros j. destruct (Nat.eqb_spec j me) as [->|]; [|done]. rewrite <- Hr. by destruct (C me).
Qed.

Lemma wlp_reset_slot i (Q : unit → pst R → Prop) s C np ini cu :
  shows s C np ini cu →
  (∀ s', shows s' (upd C i (mkCore UNUSED 0 None (k_chan (C i)) (k_pgdir (C i)))) np ini cu → Q tt s') →
  wlp (upd_proc i reset_slot) Q s.
Proof.
  intros Hs HQ. eapply wlp_upd_proc; [exact Hs| |exact HQ]. intros j. unfold upd.
  case_match; [|done]. destruct Hs as [HC _]. rewrite <- HC. done.
Qed.

Definition after_call (c : call) (r : option Z) : option call :=
  match r with None => Some c | Some _ => None end.

Lemma wait_scan_keeps s C np ini me mode :
  shows s C np (Some ini) (Some me) → tinv C np ini mode → (me < NPROC)%nat →
  k_state (C me) = RUNNING →
  wlp wait_scan (λ r s', keeps ini (Some me) (upd mode me (after_call InWait r)) s') s.
Proof.
  intros Hs H Hme Hr. unfold wait_scan. apply wlp_bind. eapply wlp_cur; [exact Hs|]. intros ? [= <-].
  t_run Hs. pose proof Hs as (HC & _).
  match goal with |- wlp (match List.find ?f table with _ => _ end) _ ?s1 =>
    destruct (List.find f table) as [i|] eqn:Ef end.
  - destruct (find_table _ _ Ef) as [Hi Hz]. apply andb_true_iff in Hz as [_ Hz%bool_decide_eq_true].
    assert (Hzi : k_state (C i) = ZOMBIE) by (rewrite <- HC; exact Hz).
    t_run Hs. eapply wlp_reset_slot; [exact Hs|]. clear Hs. intros s2 Hs. t_run Hs.
    eapply keeps_intro; [exact Hs|]. eapply (tinv_reap C); [by apply tinv_awake|done|done|]. by intros j.
  - apply wlp_if; intros _.
    + t_run Hs. eapply keeps_intro; [exact Hs|]. by apply tinv_awake.
    + apply wlp_bind. eapply wlp_mono; [eapply (scan_sleep_keeps _ C np ini me mode InWait); try done|].
      * by rewrite Hr.
      * intros j Hj Hp Hz. exfalso. pose proof (find_table_none _ j Ef Hj) as Hf.
        rewrite <- HC in Hp, Hz. simpl in *. by rewrite !bool_decide_true in Hf.
      * intros e s' Hk. by apply wlp_ret.
Qed.

Lemma join_scan_keeps s C np ini me mode st :
  shows s C np (Some ini) (Some me) → tinv C np ini mode → (me < NPROC)%nat →
  k_state (C me) = RUNNING →
  wlp (join_scan st) (λ r s', keeps ini (Some me) (upd mode me (after_call InJoin r)) s') s.
Proof.
  intros Hs H Hme Hr. unfold join_scan. apply wlp_bind. eapply wlp_cur; [exact Hs|]. intros ? [= <-].
  t_run Hs. pose proof Hs as (HC & _).
  match goal with |- wlp (match List.find ?f table with _ => _ end) _ ?s1 =>
    destruct (List.find f table) as [i|] eqn:Ef end.
  - destruct (find_table _ _ Ef) as [Hi Hz]. apply andb_true_iff in Hz as [_ Hz%bool_decide_eq_true].
    assert (Hzi : k_state (C i) = ZOMBIE) by (rewrite <- HC; exact Hz).
    t_run Hs. eapply wlp_reset_slot; [exact Hs|]. clear Hs. intros s2 Hs. t_run Hs.
    eapply keeps_intro; [exact Hs|]. eapply (tinv_reap C); [by apply tinv_awake|done|done|]. by intros j.
  - apply wlp_if; intros _.
    + t_run Hs. eapply keeps_intro; [exact Hs|]. by apply tinv_awake.
    + apply wlp_bind. eapply wlp_mono; [eapply (scan_sleep_keeps _ C np ini me mode InJoin); try done|].
      * by rewrite Hr.
      * intros j Hj Hp Hz. split; [done|]. intros Hpg. pose proof (find_table_none _ j Ef Hj) as Hf.
        rewrite <- (HC j) in Hp, Hz, Hpg. rewrite <- (HC me) in Hpg. simpl in *.
        rewrite !bool_decide_true in Hf by done. apply Z.eqb_eq in Hpg. by rewrite Hpg in Hf.
      * intros e s' Hk. by apply wlp_ret.
Qed.

(** The table while [exit] hands the children of [me] over; [todo] are the slots
    the loop has not come to. *)
Record handed C C' ini me (todo : list nat) : Prop := {
  h_id j : k_pid (C' j) = k_pid (C j) ∧ k_chan (C' j) = k_chan (C j) ∧ k_pgdir (C' j) = k_pgdir (C j);
  h_parent j : (j < NPROC)%nat →
    k_parent (C' j) = if decide (j ∉ todo ∧ k_parent (C j) = Some me) then Some ini else k_parent (C j);
  h_state j : k_state (C' j) = k_state (C j) ∨ (k_state (C j) = SLEEPING ∧ k_state (C' j) = RUNNABLE);
  h_init j : (j < NPROC)%nat → j ∉ todo → k_parent (C j) = Some me → k_state (C j) = ZOMBIE →
    ¬ (k_state (C' ini) = SLEEPING ∧ k_chan (C ini) = Some (ChProc ini));
}.

Lemma handed_wakes C C' C'' ini me todo :
  handed C C' ini me todo → wakes C' C'' → handed C C'' ini me todo.
Proof.
  intros H Hw. pose proof (λ j, wakes_same C' C'' j Hw) as E. split.
  - intros j. destruct (E j) as (->&_&->&->&_). apply H.
  - intros j Hj. destruct (E j) as (_&->&_). by apply H.
  - intros j. destruct (h_state _ _ _ _ _ H j) as [<-|[E1 E2]], (Hw j) as [->|[E3 ->]]; simpl; auto.
  - intros j Hj Hn Hp Hz [H1 H2]. destruct (E ini) as (_&_&_&_&_&_&_&_&Hs).
    by apply (h_init _ _ _ _ _ H j Hj Hn Hp Hz); auto.
Qed.

Lemma handed_skip C C' ini me i todo :
  handed C C' ini me (i :: todo) → k_parent (C' i) ≠ Some me → i ∉ todo → (i < NPROC)%nat →
  handed C C' ini me todo.
Proof.
  intros H Hi Hn Hlt.
  assert (Hpi : k_parent (C i) ≠ Some me).
  { rewrite (h_parent _ _ _ _ _ H i Hlt) in Hi. rewrite decide_False in Hi by set_solver. done. }
  split; [apply H| |apply H|].
  - intros j Hj. rewrite (h_parent _ _ _ _ _ H j Hj). destruct (decide (j = i)) as [->|]; repeat case_decide; set_solver.
  - intros j Hj Hjn Hp Hz. apply (h_init _ _ _ _ _ H j); [done| |done|done]. set_solver.
Qed.

(** Slot [i] is handed over, and init is woken if it is a zombie. *)
Lemma handed_step C C' C'' ini me i todo c :
  handed C C' ini me (i :: todo) → k_parent (C' i) = Some me → i ∉ todo → (i < NPROC)%nat →
  c = mkCore (k_state (C' i)) (k_pid (C' i)) (Some ini) (k_chan (C' i)) (k_pgdir (C' i)) →
  wakes (upd C' i c) C'' →
  (k_state (C i) = ZOMBIE → ¬ (k_state (C'' ini) = SLEEPING ∧ k_chan (C ini) = Some (ChProc ini))) →
  handed C C'' ini me todo.
Proof.
  intros H Hp Hn Hi -> Hw Hz. pose proof (λ j, wakes_same _ _ j Hw) as E.
  assert (Hpar : k_parent (C i) = Some me).
  { rewrite (h_parent _ _ _ _ _ H i Hi), decide_False in Hp by set_solver. done. }
  split.
  - intros j. destruct (E j) as (->&_&->&->&_). destruct (h_id _ _ _ _ _ H j) as (<-&<-&<-).
    unfold upd. destruct (Nat.eqb_spec j i) as [->|]; done.
  - intros j Hj. destruct (E j) as (_&->&_). unfold upd. destruct (Nat.eqb_spec j i) as [->|Hne].
    + simpl. by rewrite decide_True.
    + rewrite (h_parent _ _ _ _ _ H j Hj). repeat case_decide; set_solver.
  - intros j. destruct (h_state _ _ _ _ _ H j) as [<-|[E1 E2]], (Hw j) as [->|[E3 ->]]; revert E3 || idtac;
      unfold upd; destruct (Nat.eqb_spec j i) as [->|]; simpl; auto.
  - intros j Hj Hjn Hpj Hzj. destruct (decide (j = i)) as [->|Hne]; [by apply Hz|].
    intros [H1 H2]. destruct (E ini) as (_&_&_&_&_&_&_&_&Hs). apply Hs in H1.
    assert (Hj' : j ∉ i :: todo) by set_solver.
    apply (h_init _ _ _ _ _ H j Hj Hj' Hpj Hzj). split; [|done].
    revert H1. unfold upd. by destruct (Nat.eqb_spec ini i) as [->|].
Qed.

Lemma reparent_wlp me (Q : unit → pst R → Prop) s C np ini cu :
  shows s C np (Some ini) cu → (ini < NPROC)%nat →
  (∀ s' C', shows s' C' np (Some ini) cu → handed C C' ini me [] → Q tt s') →
  wlp (reparent me) Q s.
Proof.
  intros Hs Hini HQ. apply (wlp_for_each _ _ (λ l s', ∃ C', shows s' C' np (Some ini) cu ∧
    handed C C' ini me l ∧ NoDup l ∧ ∀ i, i ∈ l → (i < NPROC)%nat)).
  - exists C. split_and!; [done| |apply NoDup_seq|by intros i ?%table_elem]. split; auto.
    + intros j Hj. rewrite decide_False; [done|]. intros [Hn _]. by apply Hn, table_elem.
    + intros j Hj Hn. exfalso. by apply Hn, table_elem.
  - intros i l s' (C' & Hs' & H & Hnd & Hl). apply NoDup_cons in Hnd as [Hni Hnd].
    assert (Hi : (i < NPROC)%nat) by (apply Hl; set_solver).
    assert (Hl' : ∀ j, j ∈ l → (j < NPROC)%nat) by set_solver. t_run Hs'.
    match goal with E : core_of ?p = C' i |- _ => rename E into Ep end.
    apply wlp_if; intros Hp.
    2: { t_run Hs'. apply bool_decide_eq_false in Hp. exists C'. split_and!; [done| |done|done].
         eapply handed_skip; [exact H|by rewrite <- Ep|done|done]. }
    apply bool_decide_eq_true in Hp. t_run Hs'. pose proof Hs' as (_&_&->&_).
    eapply wlp_set_parent; [exact Hs'|]. clear Hs'. intros s2 Hs2. t_run Hs2.
    match goal with E : core_of ?p = upd _ _ _ i |- _ => rename E into Ep2; set (p2 := p) in * end.
    assert (Hst : state p2 = k_state (C' i)) by (unfold upd in Ep2; rewrite Nat.eqb_refl in Ep2; by injection Ep2).
    assert (Hpar : k_parent (C' i) = Some me) by (rewrite <- Ep; exact Hp).
    assert (Hzz : k_state (C i) = ZOMBIE → k_state (C' i) = ZOMBIE).
    { intros E. destruct (h_state _ _ _ _ _ H i) as [->|[E' _]]; congruence. }
    apply wlp_if; intros Ez.
    + apply bool_decide_eq_true in Ez. eapply wakeup1_wlp; [exact Hs2|]. intros s3 C3 Hs3 Hw Hno.
      exists C3. split_and!; [done| |done|done]. eapply handed_step; [exact H|done|done|done|reflexivity|exact Hw|].
      intros _ [H1 H2]. apply (Hno ini Hini). split; [done|].
      destruct (wakes_same _ _ ini Hw) as (_&_&_&->&_). destruct (h_id _ _ _ _ _ H ini) as (_&<-&_) in H2.
      unfold upd. by destruct (Nat.eqb_spec ini i) as [->|].
    + apply bool_decide_eq_false in Ez. t_run Hs2. eexists. split_and!; [exact Hs2| |done|done].
      eapply handed_step; [exact H|done|done|done|reflexivity|intros j; by left|].
      intros E. exfalso. apply Ez. rewrite Hst. auto.
  - intros s' (C' & Hs' & H & _). by eapply HQ.
Qed.

Lemma exit_keeps s C np ini me mode :
  shows s C np (Some ini) (Some me) → tinv C np ini mode → (me < NPROC)%nat →
  live (k_state (C me)) = true →
  wlp exit (λ _ s', keeps ini (Some me) mode s') s.
Proof.
  intros Hs H Hme Hl. unfold exit. apply wlp_bind. eapply wlp_cur; [exact Hs|]. intros ? [= <-]. t_run Hs.
  apply wlp_if; intros Hi; [done|]. apply bool_decide_eq_false in Hi. pose proof Hs as (_&_&Ei&_). rewrite Ei in Hi.
  apply wlp_bind. eapply close_files_wlp; [exact Hs|]. clear Hs Ei. intros s1 Hs. t_run Hs.
  match goal with E : core_of ?p = C me |- wlp (wakeup1 (proc_chan (parent ?q))) _ _ => assert (Eq : parent q = k_parent (C me)) end.
  { match goal with E : core_of p0 = C me |- _ => by rewrite <- E end. }
  rewrite Eq. eapply wakeup1_wlp; [exact Hs|]. clear Hs. intros s2 C1 Hs Hw Hno. apply wlp_bind.
  pose proof (tinv_wakes _ _ _ _ _ Hw H) as Hc1. destruct (t_init _ _ _ _ H) as [Hini _].
  eapply reparent_wlp; [exact Hs|done|]. clear Hs. intros s3 C2 Hs Hh. apply wlp_bind.
  eapply wlp_set_state; [exact Hs|]. clear Hs. intros s4 Hs. eapply sched_enter_wlp; [exact Hs|]. intros e.
  eapply keeps_intro; [exact Hs|]. destruct (wakes_same _ _ me Hw) as (_&Ep&_&_&_&El&_).
  eapply (tinv_exit C1 _ _ _ _ me Hc1 Hme).
  - intros ->. by apply Hi.
  - by rewrite El.
  - intros j. destruct (h_id _ _ _ _ _ Hh j) as (<-&<-&<-). unfold upd. by destruct (Nat.eqb_spec j me) as [->|].
  - intros j Hj. transitivity (k_parent (C2 j)); [unfold upd; by destruct (Nat.eqb_spec j me) as [->|]|].
    rewrite (h_parent _ _ _ _ _ Hh j Hj). repeat case_decide; set_solver.
  - intros j Hne. unfold upd. destruct (Nat.eqb_spec j me); [done|]. apply Hh.
  - by rewrite upd_eq.
  - intros q Hq. rewrite Ep in Hq. destruct (decide (q = me)) as [->|Hne]; [rewrite upd_eq; by intros []|].
    rewrite upd_ne by done. intros [H2 H3].
    destruct (t_parent _ _ _ _ H me) as (q' & Hq' & Hlt & _); [done|by intros E; rewrite E in Hl|by intros ->; apply Hi|].
    assert (q' = q) as -> by congruence. apply (Hno q Hlt). split; [|by rewrite H3, Hq].
    by destruct (h_state _ _ _ _ _ Hh q) as [<-|[? ?]].
  - intros j Hj Hp Hz. destruct (decide (ini = me)) as [->|Hne]; [by destruct Hi|].
    rewrite upd_ne by done. eapply (h_init _ _ _ _ _ Hh j); [done|apply not_elem_of_nil|done|done].
Qed.

Lemma sched_pick_keeps s C np ini cu mode i :
  shows s C np (Some ini) cu → tinv C np ini mode →
  wlp (sched_pick i) (λ _ s', ∃ cu', keeps ini cu' mode s') s.
Proof.
  intros Hs H. unfold sched_pick. t_run Hs. pose proof Hs as (HC & Hnp & Hi & _).
  match goal with |- wlp (match List.find ?f ?l with _ => _ end) _ ?s1 =>
    destruct (List.find f l) as [p|] eqn:Ef end.
  2: { t_run Hs. eexists. by eapply keeps_intro. }
  apply find_some in Ef as [Hin Hr%bool_decide_eq_true].
  assert (Hp : (p < NPROC)%nat).
  { apply table_elem. rewrite <- (take_drop i table). apply elem_of_app. right. by apply list_elem_of_In. }
  assert (Hrc : k_state (C p) = RUNNABLE) by (rewrite <- HC; done).
  apply wlp_bind, wlp_modify.
  assert (Hs2 : shows (put_cur (Some p) s) C np (Some ini) (Some p)) by done.
  clear Hs. t_run Hs2. eapply wlp_set_state; [exact Hs2|]. clear Hs2. intros sz Hs. t_run Hs.
  exists (Some p). eapply keeps_intro; [exact Hs|].
  apply tinv_mode with (upd mode p (mode p)).
  { intros j. unfold upd. by destruct (Nat.eqb_spec j p) as [->|]. }
  eapply (tinv_self C _ _ _ mode p RUNNING (k_chan (C p)) (mode p) H Hp); [by rewrite Hrc|done|by intros j|done].
Qed.

(** Woken in [wait] or [thread_join], the process is ready for another scan. *)
Lemma resume_wlp e (Q : unit → pst R → Prop) s C np ini me mode :
  shows s C np (Some ini) (Some me) → tinv C np ini mode → (me < NPROC)%nat →
  k_state (C me) = RUNNING →
  (∀ s' C', shows s' C' np (Some ini) (Some me) → tinv C' np ini mode → k_state (C' me) = RUNNING → Q tt s') →
  wlp (sleep_exit e None) Q s.
Proof.
  intros Hs H Hme Hr HQ. eapply sleep_exit_wlp; [exact Hs|done|]. intros s' C' Hs' E.
  apply (HQ s' C'); [done| |by rewrite E, Nat.eqb_refl].
  apply tinv_mode with (upd mode me (mode me)).
  { intros j. unfold upd. by destruct (Nat.eqb_spec j me) as [->|]. }
  eapply (tinv_self C C' _ _ _ me RUNNING None (mode me)); rewrite ?Hr; try done. intros j. by rewrite E, Hr.
Qed.

(** The first process, from a table in static storage. *)
Lemma userinit_keeps s :
  (∀ j, procs s j = bss_proc) → nextpid s = 1 →
  wlp userinit (λ _ s', ∃ ini cu, keeps ini cu (λ _, None) s') s.
Proof.
  intros Hb Hn. pose proof (shows_intro s) as Hs. rewrite Hn in Hs. unfold userinit. apply wlp_bind.
  eapply allocproc_wlp; [exact Hs|]. clear Hs. intros o s1 C1 np1 Hs Hal. apply wlp_bind, wlp_modify.
  destruct o as [i|]; [|done]. destruct Hal as (Hi & _ & -> & E).
  assert (Hs2 : shows (put_init (Some i) s1) C1 (s32 (1 + 1)) (Some i) (curproc s))
    by (destruct Hs as (?&?&?&?); by split_and!).
  clear Hs. t_run Hs2. eapply wlp_set_pgdir; [exact Hs2|]. clear Hs2. intros s2 Hs. apply wlp_if; intros _; [done|].
  t_run Hs. eapply wlp_set_state; [exact Hs|]. clear Hs. intros sz Hs. exists i, (curproc s).
  eapply keeps_intro; [exact Hs|].
  assert (Ei : C1 i = mkCore EMBRYO 1 None None 0) by (rewrite E, Nat.eqb_refl, Hb; done).
  assert (Eo : ∀ j, j ≠ i → C1 j = core_of bss_proc)
    by (intros j Hj; rewrite E, (proj2 (Nat.eqb_neq _ _) Hj), Hb; done).
  split; unfold upd; [done|..].
  - by rewrite !Nat.eqb_refl.
  - intros j _. destruct (Nat.eqb_spec j i); [done|]. by rewrite Eo.
  - intros j _. destruct (Nat.eqb_spec j i); [done|]. by rewrite Eo.
  - intros j _. destruct (Nat.eqb_spec j i); [|by rewrite Eo]. subst. rewrite !Nat.eqb_refl. simpl. by rewrite Ei.
  - intros j k _ _. destruct (Nat.eqb_spec j i) as [->|Hj].
    + destruct (Nat.eqb_spec k i) as [->|Hk]; [done|]. rewrite (Eo k Hk). intros _ Hu. by destruct Hu.
    + rewrite (Eo j Hj). intros Hu. by destruct Hu.
  - intros j _. destruct (Nat.eqb_spec j i); [done|]. by rewrite Eo.
  - done.
  - done.
Qed.

End effects.

(** ** The process system *)

Section system.
Context {R : Type} {SV : Services R}.
Implicit Types (s : pst R) (mode : nat → option call).

(** The CPU executes process [me] in the kernel. *)
Definition running s (me : nat) : Prop :=
  curproc s = Some me ∧ (me < NPROC)%nat ∧ state (procs s me) = RUNNING.

(** The process table under the calls of proc.c, each run to its end or to its
    switch to the scheduler.  [mode] remembers which processes are inside [wait]
    or [thread_join].  Between calls another CPU may take over, with its own
    [proc] and interrupt state, and the rest of the kernel may move. *)
Inductive kstep : pst R * (nat → option call) → pst R * (nat → option call) → Prop :=
  | ks_other s mode c o r :
      (∀ me, o = Some me → (me < NPROC)%nat ∧ state (procs s me) = RUNNING) →
      kstep (s, mode) (put_res r (put_cpu c (put_cur o s)), mode)
  | ks_fork s s' mode me r :
      running s me → nextpid s < 2^31 - 1 → fork s = Ok r s' → kstep (s, mode) (s', mode)
  | ks_thread s s' mode me tm st arg r :
      running s me → nextpid s < 2^31 - 1 → thread_create tm st arg s = Ok r s' → kstep (s, mode) (s', mode)
  | ks_grow s s' mode n r : growproc n s = Ok r s' → kstep (s, mode) (s', mode)
  | ks_exit s s' mode me e : running s me → exit s = Ok e s' → kstep (s, mode) (s', mode)
  | ks_wait s s' mode me r :
      running s me → wait s = Ok r s' → kstep (s, mode) (s', upd mode me (after_call InWait r))
  | ks_wait_resume s s' mode me e r :
      running s me → wait_resume e s = Ok r s' → kstep (s, mode) (s', upd mode me (after_call InWait r))
  | ks_join s s' mode me st r :
      running s me → thread_join st s = Ok r s' → kstep (s, mode) (s', upd mode me (after_call InJoin r))
  | ks_join_resume s s' mode me e st r :
      running s me → join_resume e st s = Ok r s' → kstep (s, mode) (s', upd mode me (after_call InJoin r))
  | ks_sleep s s' mode me c m e :
      running s me → sleep_enter c (Some (res m)) s = Ok e s' → kstep (s, mode) (s', upd mode me None)
  | ks_sleep_exit s s' mode me e m :
      running s me → sleep_exit e (Some (res m)) s = Ok tt s' → kstep (s, mode) (s', upd mode me None)
  | ks_yield s s' mode me e :
      running s me → yield_enter s = Ok e s' → kstep (s, mode) (s', upd mode me None)
  | ks_yield_exit s s' mode e : yield_exit e s = Ok tt s' → kstep (s, mode) (s', mode)
  | ks_forkret s s' mode : forkret s = Ok tt s' → kstep (s, mode) (s', mode)
  | ks_wakeup s s' mode c : wakeup c s = Ok tt s' → kstep (s, mode) (s', mode)
  | ks_kill s s' mode pd r : kill pd s = Ok r s' → kstep (s, mode) (s', mode)
  | ks_sched s s' mode r : scheduler_enter s = Ok r s' → kstep (s, mode) (s', mode)
  | ks_sched_back s s' mode i r : scheduler_back i s = Ok r s' → kstep (s, mode) (s', mode).

(** The machine has booted: [userinit] ran on the table in static storage. *)
Definition booted s : Prop :=
  ∃ s0, (∀ j, procs s0 j = bss_proc) ∧ nextpid s0 = 1 ∧ userinit s0 = Ok tt s.

Definition reachable s mode : Prop := ∃ s0, booted s0 ∧ rtc kstep (s0, λ _, None) (s, mode).

Definition tgood (c : pst R * (nat → option call)) : Prop := ∃ ini cu, keeps ini cu c.2 c.1.

Lemma good_by {A} (m : M (pst R) A) (Q : A → nat → option call) ini cu s a s' :
  wlp m (λ a s', keeps ini cu (Q a) s') s → m s = Ok a s' → tgood (s', Q a).
Proof. intros H E. exists ini, cu. exact (wlp_ok _ _ _ _ _ H E). Qed.

Lemma good_by_const {A} (m : M (pst R) A) mode ini cu s a s' :
  wlp m (λ _ s', keeps ini cu mode s') s → m s = Ok a s' → tgood (s', mode).
Proof. exact (good_by m (λ _, mode) ini cu s a s'). Qed.

Lemma kstep_good c c' : kstep c c' → tgood c → tgood c'.
Proof.
  intros Hst (ini & cu & C & np & Hs & H). cbn [fst snd] in *.
  assert (Hrun : ∀ me, running c.1 me → cu = Some me ∧ (me < NPROC)%nat ∧ k_state (C me) = RUNNING ∧ live (k_state (C me)) = true).
  { intros me (Hc & Hlt & Hr). destruct Hs as (HC & _ & _ & <-). rewrite <- HC. simpl. by rewrite Hr. }
  assert (Hnp : nextpid c.1 = np) by apply Hs.
  destruct Hst; cbn [fst snd] in *;
    try match goal with Hr : running _ _ |- _ => destruct (Hrun _ Hr) as (-> & Hlt & Hst' & Hlive); clear Hrun end;
    rewrite ?Hnp in *; try match goal with E : _ = Ok _ _ |- _ => rename E into Hok end.
  - exists ini, o, C, np. split; [|done]. by destruct Hs as (?&?&?&?).
  - eapply good_by_const; [by eapply fork_keeps|exact Hok].
  - eapply good_by_const; [by eapply thread_create_keeps|exact Hok].
  - eapply good_by_const; [by eapply growproc_keeps|exact Hok].
  - eapply good_by_const; [by eapply exit_keeps|exact Hok].
  - eapply (good_by wait (λ r, upd mode me (after_call InWait r))); [|exact Hok].
    apply wlp_bind. eapply wlp_pt_acquire; [exact Hs|]. clear Hs. intros sz Hs. by eapply wait_scan_keeps.
  - eapply (good_by (wait_resume e) (λ r, upd mode me (after_call InWait r))); [|exact Hok].
    apply wlp_bind. eapply resume_wlp; [done..|]. intros sz C' Hz H' Hr. by eapply wait_scan_keeps.
  - eapply (good_by (thread_join st) (λ r, upd mode me (after_call InJoin r))); [|exact Hok].
    apply wlp_bind. eapply wlp_pt_acquire; [exact Hs|]. clear Hs. intros sz Hs. by eapply join_scan_keeps.
  - eapply (good_by (join_resume e st) (λ r, upd mode me (after_call InJoin r))); [|exact Hok].
    apply wlp_bind. eapply resume_wlp; [done..|]. intros sz C' Hz H' Hr. by eapply join_scan_keeps.
  - eapply good_by_const; [by eapply sleep_keeps|exact Hok].
  - eapply good_by_const; [by eapply sleep_exit_keeps|exact Hok].
  - eapply good_by_const; [by eapply yield_keeps|exact Hok].
  - eapply good_by_const; [|exact Hok]. apply wlp_bind, wlp_modify.
    eapply (wlp_pt_release (λ _ s', keeps ini cu mode s')); [exact Hs|]. intros sz Hz. by eapply keeps_intro.
  - eapply good_by_const; [|exact Hok]. apply wlp_bind.
    eapply (wlp_pt_release (λ _ s0, wlp _ (λ _ s', keeps ini cu mode s') s0)); [exact Hs|]. clear Hs. intros sz Hs.
    apply wlp_bind, wlp_gets, wlp_if; intros _; [|apply wlp_ret; by eapply keeps_intro].
    apply wlp_bind, wlp_modify. eapply wlp_res; [exact Hs|]. intros. by eapply keeps_intro.
  - eapply good_by_const; [by eapply wakeup_keeps|exact Hok].
  - eapply good_by_const; [by eapply kill_keeps|exact Hok].
  - assert (Hw : wlp scheduler_enter (λ _ s', ∃ cu', keeps ini cu' mode s') s).
    { apply wlp_bind, wlp_modify, wlp_bind.
      eapply wlp_pt_acquire; [exact Hs|]. clear Hs. intros sz Hs. by eapply sched_pick_keeps. }
    destruct (wlp_ok _ _ _ _ _ Hw Hok) as [cu' ?]. by exists ini, cu'.
  - assert (Hw : wlp (scheduler_back i) (λ _ s', ∃ cu', keeps ini cu' mode s') s).
    { apply wlp_bind. eapply wlp_res; [exact Hs|]. clear Hs. intros _ sz (?&?&?&?). apply wlp_bind, wlp_modify.
      eapply (sched_pick_keeps (put_cur None sz) C np ini None); [by split_and!|done]. }
    destruct (wlp_ok _ _ _ _ _ Hw Hok) as [cu' ?]. by exists ini, cu'.
Qed.

Lemma reachable_good s mode : reachable s mode → tgood (s, mode).
Proof.
  intros (s0 & (sb & Hb & Hn & Hok) & Hrtc).
  assert (H0 : tgood (s0, λ _, None)).
  { destruct (wlp_ok _ _ _ _ _ (userinit_keeps sb Hb Hn) Hok) as (ini & cu & H). by exists ini, cu. }
  remember (s0, λ _ : nat, @None call) as c0. remember (s, mode) as c. clear Heqc Heqc0.
  induction Hrtc; [done|]. by eapply IHHrtc, kstep_good.
Qed.
End system.

(** ** What the calls return *)

Section results.
Context {R : Type} {SV : Services R}.
Implicit Types (s : pst R).

Lemma pt_acquire_run (Q : unit → pst R → Prop) s :
  p_lock s = false →
  Q tt (put_lock true (put_cpu (mkCpu (ncli (p_cpu s) + 1)
    (if ncli (p_cpu s) =? 0 then iflag (p_cpu s) else intena (p_cpu s)) false) s)) →
  wp pt_acquire Q s.
Proof.
  intros Hl HQ. apply wp_bind, wp_zoom. unfold wp at 1. rewrite pushcli_run. by apply wp_acquire.
Qed.

Lemma pt_release_run (Q : unit → pst R → Prop) s :
  p_lock s = true → cpu_ok (p_cpu s) → 0 < ncli (p_cpu s) →
  Q tt (put_cpu (mkCpu (ncli (p_cpu s) - 1) (intena (p_cpu s)) ((ncli (p_cpu s) =? 1) && intena (p_cpu s)))
         (put_lock false s)) →
  wp pt_release Q s.
Proof.
  intros Hl Hc Hn HQ. apply wp_bind, wp_release; [done|]. apply wp_zoom. unfold wp. cbn [p_cpu put_lock].
  by rewrite popcli_run.
Qed.

(** [kill] of the pid in the first slot that has it. *)
Lemma kill_run pd i s :
  p_lock s = false → cpu_ok (p_cpu s) →
  List.find (λ i, pid (procs s i) =? pd) table = Some i →
  wp (kill pd) (λ r s', r = 0 ∧ killed (procs s' i) = true ∧
    (∀ j, state (procs s j) ≠ SLEEPING → state (procs s' j) = state (procs s j)) ∧
    ∀ j, j ≠ i → procs s' j = procs s j) s.
Proof.
  intros Hl Hc Hf. unfold kill. apply wp_bind, pt_acquire_run; [done|]. wp_run. cbn [procs put_lock put_cpu].
  rewrite Hf. apply wp_bind, wp_modify, wp_bind. set (s1 := put_procs _ _).
  assert (Hend : ∀ s2, p_lock s2 = true → p_cpu s2 = p_cpu s1 → killed (procs s2 i) = true →
    (∀ j, state (procs s j) ≠ SLEEPING → state (procs s2 j) = state (procs s j)) →
    (∀ j, j ≠ i → procs s2 j = procs s j) →
    wp (pt_release;; mret 0) (λ r s', r = 0 ∧ killed (procs s' i) = true ∧
      (∀ j, state (procs s j) ≠ SLEEPING → state (procs s' j) = state (procs s j)) ∧
      ∀ j, j ≠ i → procs s' j = procs s j) s2).
  { intros s2 Hl2 Hc2 Hk Hst Ho. destruct (pushcli_ok _ Hc _ (pushcli_run _)) as (Hok & Hpos & _).
    apply wp_bind, pt_release_run; [done|by rewrite Hc2..|]. by apply wp_ret. }
  apply wp_if; intros E; [apply wp_modify|apply wp_ret]; (apply Hend; [done|done|..]); simpl; rewrite ?upd_eq; try done;
    intros j Hj; unfold upd; destruct (Nat.eqb_spec j i) as [->|]; try done.
  by apply bool_decide_eq_true in E.
Qed.

#[local] Ltac k_run :=
  repeat (lazymatch goal with
  | |- wlp (mbind _ _) _ _ => apply wlp_bind
  | |- wlp (mret _) _ _ => apply wlp_ret
  | |- wlp (gets _) _ _ => apply wlp_gets
  | |- wlp (modify _) _ _ => apply wlp_modify
  | |- wlp (acquire _ _) _ _ => apply wlp_acquire
  | |- wlp (release _ _) _ _ => apply wlp_release
  | |- wlp (zoom _ _ _) _ _ => apply wlp_zoom; intros ? ?
  end; cbn beta).

(** [allocproc] does not touch [killed]. *)
Lemma allocproc_killed s :
  wlp allocproc (λ o s', ∀ i, o = Some i →
    List.find (λ i, bool_decide (state (procs s i) = UNUSED)) table = Some i ∧
    killed (procs s' i) = killed (procs s i)) s.
Proof.
  unfold allocproc, pt_acquire, pt_release, res, upd_proc. k_run. cbn [procs put_lock put_cpu].
  match goal with |- wlp (match List.find ?f table with _ => _ end) _ _ =>
    destruct (List.find f table) as [i|] end; k_run; [|done].
  apply wlp_if; intros _; k_run; [done|]. intros ? [= <-]. split; [done|]. simpl. by rewrite !upd_eq.
Qed.
(** [wait] with a zombie child: the slot is reset, the page directory freed. *)
Lemma wait_reaps s me i r1 r2 :
  curproc s = Some me → p_lock s = false → cpu_ok (p_cpu s) →
  List.find (λ i, bool_decide (parent (procs s i) = Some me) && bool_decide (state (procs s i) = ZOMBIE))
    table = Some i →
  sv_kfree (kstack (procs s i)) (p_res s) = Ok tt r1 → sv_freevm (pgdir (procs s i)) r1 = Ok tt r2 →
  wp wait (λ r s', r = Some (pid (procs s i)) ∧ p_res s' = r2 ∧ p_lock s' = false ∧
    procs s' i = reset_slot (set_kstack 0 (procs s i)) ∧ ∀ j, j ≠ i → procs s' j = procs s j) s.
Proof.
  intros Hc Hl Hk Hf H1 H2. unfold wait, wait_scan, cur. apply wp_bind, pt_acquire_run; [done|].
  destruct (pushcli_ok _ Hk _ (pushcli_run _)) as (Hok & Hpos & _).
  wp_run. cbn [curproc put_lock put_cpu]. rewrite Hc. wp_run. cbn [procs put_lock put_cpu]. rewrite Hf.
  apply wp_bind, wp_zoom. cbn [p_res put_lock put_cpu]. unfold wp at 1. rewrite H1. apply wp_bind, wp_modify.
  apply wp_bind, wp_zoom. cbn [p_res put_lock put_cpu put_procs put_res]. unfold wp at 1. rewrite H2.
  apply wp_bind, wp_modify, wp_bind, pt_release_run; [done..|]. apply wp_ret. simpl. rewrite !upd_eq.
  split_and!; try done. intros j Hj. by rewrite !upd_ne.
Qed.
End results.

(** A resource for examples: the next free page, and the page directories
    freed so far. *)
#[local] Instance toy : Services (Z * list Z) := {|
  sv_kalloc := λ r, Ok r.1 (r.1 + 4096, r.2);
  sv_kfree := λ _ r, Ok tt r;
  sv_store := λ _ _ r, Ok tt r;
  sv_load := λ _ n r, Ok (replicate n 0) r;
  sv_setupkvm := λ r, Ok r.1 (r.1 + 4096, r.2);
  sv_inituvm := λ _ r, Ok tt r;
  sv_copyuvm := λ _ _ r, Ok r.1 (r.1 + 4096, r.2);
  sv_freevm := λ d r, Ok tt (r.1, d :: r.2);
  sv_allocuvm := λ _ _ n r, Ok n r;
  sv_deallocuvm := λ _ _ n r, Ok n r;
  sv_switchuvm := λ _ r, Ok tt r;
  sv_switchkvm := λ r, Ok tt r;
  sv_copyout := λ _ _ _ r, Ok 0 r;
  sv_filedup := λ f r, Ok f r;
  sv_fileclose := λ _ r, Ok tt r;
  sv_idup := λ i r, Ok i r;
  sv_iput := λ _ r, Ok tt r;
  sv_namei_root := λ r, Ok 1 r;
  sv_uptime := λ r, Ok 0 r;
  sv_initlog := λ r, Ok tt r;
  sv_trapret := 0x80100000;
  sv_forkret := 0x80101000;
|}.

Definition cold : pst (Z * list Z) :=
  mkPst false (mkCpu 0 false false) None (λ _, bss_proc) 1 None true (0x80400000, []).
Definition first_proc := after userinit cold.
Definition dispatched := after scheduler_enter first_proc.
Definition in_init := after forkret dispatched.
Definition forked := after fork in_init.
Definition waiting := after wait forked.

#[local] Ltac runs := vm_compute; reflexivity.

Lemma first_proc_run : userinit cold = Ok tt first_proc.
Proof. refine (after_ok userinit cold tt _). runs. Qed.
Lemma dispatched_run : scheduler_enter first_proc = Ok (Some 0%nat) dispatched.
Proof. refine (after_ok scheduler_enter first_proc (Some 0%nat) _). runs. Qed.
Lemma in_init_run : forkret dispatched = Ok tt in_init.
Proof. refine (after_ok forkret dispatched tt _). runs. Qed.
Lemma forked_run : fork in_init = Ok 2 forked.
Proof. refine (after_ok fork in_init 2 _). runs. Qed.
Lemma waiting_run : wait forked = Ok None waiting.
Proof. refine (after_ok wait forked None _). runs. Qed.

Lemma runs_as {R} (s : pst R) me :
  curproc s = Some me → (me <? NPROC)%nat = true → state (procs s me) = RUNNING → running s me.
Proof. intros ? ?%Nat.ltb_lt ?. by split_and!. Qed.

Lemma in_init_reachable : reachable in_init (λ _, None).
Proof.
  exists first_proc. split; [exists cold; split_and!; [done|done|exact first_proc_run]|].
  eapply rtc_l; [exact (ks_sched first_proc dispatched _ (Some 0%nat) dispatched_run)|].
  exact (rtc_once _ _ (ks_forkret dispatched in_init _ in_init_run)).
Qed.

Lemma in_init_running : running in_init 0.
Proof. apply runs_as; runs. Qed.

Lemma waiting_reachable : reachable waiting (upd (λ _, None) 0%nat (Some InWait)).
Proof.
  destruct in_init_reachable as (s0 & Hb & H). exists s0. split; [exact Hb|]. etrans; [exact H|].
  eapply rtc_l; [refine (ks_fork in_init forked _ 0 2 in_init_running _ forked_run); runs|].
  refine (rtc_once _ _ (ks_wait forked waiting _ 0 None _ waiting_run)). apply runs_as; runs.
Qed.

(** init creates a thread and yields; the thread runs and exits; init runs again. *)
Definition with_thread := after (thread_create 0x100 0x4000 0x2000) in_init.
Definition yielded := after yield_enter with_thread.
Definition in_thread := after forkret (after (scheduler_back 0) yielded).
Definition thread_gone := after exit in_thread.
Definition back_in_init := after (yield_exit true) (after scheduler_enter (after (scheduler_back 1) thread_gone)).

Section claims.
Context {R : Type} {SV : Services R}.
Implicit Types (s : pst R).

(** C7: The process table stays well formed, whatever sequence of fork,
    thread_create, exit, wait, thread_join, sleep, wakeup, kill, yield and
    scheduling the kernel goes through after boot: the pids of the slots in use
    are positive, below [nextpid] and pairwise different, no slot is left half
    allocated, init is alive, and every other slot in use has a parent that is
    another, living process, so that every zombie has somebody to reap it. *)
Theorem process_table_invariant s mode :
  reachable s mode →
  (∀ i, (i < NPROC)%nat → state (procs s i) ≠ UNUSED → 0 < pid (procs s i) < nextpid s) ∧
  (∀ i j, (i < NPROC)%nat → (j < NPROC)%nat → state (procs s i) ≠ UNUSED → state (procs s j) ≠ UNUSED →
     pid (procs s i) = pid (procs s j) → i = j) ∧
  (∀ i, (i < NPROC)%nat → state (procs s i) ≠ EMBRYO) ∧
  ∃ ini, initproc s = Some ini ∧ (ini < NPROC)%nat ∧ live (state (procs s ini)) = true ∧
    ∀ i, (i < NPROC)%nat → state (procs s i) ≠ UNUSED → i ≠ ini →
      ∃ q, parent (procs s i) = Some q ∧ (q < NPROC)%nat ∧ q ≠ i ∧ live (state (procs s q)) = true.
Proof.
  intros (ini & cu & C & np & (HC & Hn & Hi & _) & H)%reachable_good. cbn [fst snd] in *.
  assert (E : ∀ j, state (procs s j) = k_state (C j) ∧ pid (procs s j) = k_pid (C j) ∧ parent (procs s j) = k_parent (C j))
    by (intros j; by rewrite <- HC).
  rewrite Hn. split_and!.
  - intros i. destruct (E i) as (->&->&_). apply H.
  - intros i j. destruct (E i) as (->&->&_), (E j) as (->&->&_). apply H.
  - intros i. destruct (E i) as (->&_&_). apply H.
  - exists ini. destruct (E ini) as (->&_&_). destruct (t_init _ _ _ _ H). split_and!; [done..|].
    intros i. destruct (E i) as (->&_&->). intros Hlt Hu Hne.
    destruct (t_parent _ _ _ _ H i Hlt Hu Hne) as (q & ?). exists q. by destruct (E q) as (->&_&_).
Qed.

(** C9: No wakeup is lost between [exit] and [wait] or [thread_join]: while a
    process sleeps inside [wait], none of its children is a zombie, and while it
    sleeps inside [thread_join], none of its children that share its address
    space is.  And it sleeps on the channel that [exit] wakes. *)
Theorem wait_no_lost_wakeup s mode i m :
  reachable s mode → (i < NPROC)%nat → state (procs s i) = SLEEPING → mode i = Some m →
  p_chan (procs s i) = proc_chan (Some i) ∧
  ∀ j, (j < NPROC)%nat → parent (procs s j) = Some i → state (procs s j) = ZOMBIE →
    m = InJoin ∧ pgdir (procs s j) ≠ pgdir (procs s i).
Proof.
  intros (ini & cu & C & np & (HC & Hn & Hi & _) & H)%reachable_good. cbn [fst snd] in *. intros Hlt Hsl Hm.
  assert (Hs' : k_state (C i) = SLEEPING) by (rewrite <- HC; done). split.
  - pose proof (t_chan _ _ _ _ H i m Hlt Hs' Hm) as E. by rewrite <- HC in E.
  - intros j Hj Hp Hz. pose proof (t_wait _ _ _ _ H i j m Hlt Hj Hs' Hm) as Hw. rewrite <- !HC in Hw. by apply Hw.
Qed.

(** C10: [kill(0)] succeeds and dooms a process that does not exist yet: pid 0 is
    the pid of a free slot, [kill] does not look at the state, and [allocproc]
    does not clear [killed].  If the first slot whose pid is 0 is the first free
    slot, the next process allocated is born killed. *)
Theorem kill_zero_dooms_next_process s i :
  p_lock s = false → cpu_ok (p_cpu s) →
  List.find (λ i, pid (procs s i) =? 0) table = Some i →
  List.find (λ i, bool_decide (state (procs s i) = UNUSED)) table = Some i →
  ∃ s', kill 0 s = Ok 0 s' ∧
    wlp allocproc (λ o s'', ∀ j, o = Some j → j = i ∧ killed (procs s'' j) = true) s'.
Proof.
  intros Hl Hc Hf Hu. destruct (proj1 (wp_ok _ _ _) (kill_run 0 i s Hl Hc Hf)) as (r & s' & E & -> & Hk & Hst & Ho).
  exists s'. split; [exact E|]. eapply wlp_mono; [apply allocproc_killed|]. cbn beta. intros o s'' H j ->.
  destruct (H j eq_refl) as [Hj Hkj]. enough (j = i) as -> by (by rewrite Hkj).
  apply (inj Some). rewrite <- Hj, <- Hu. apply find_pointwise. intros x.
  assert (Hi : state (procs s i) = UNUSED) by (by apply find_some in Hu as [_ ?%bool_decide_eq_true]).
  enough (state (procs s' x) = state (procs s x)) as -> by done.
  destruct (decide (x = i)) as [->|Hne]; [by apply Hst; rewrite Hi|by rewrite Ho].
Qed.

(** [wait] does not tell threads from processes: a zombie thread is reaped
    like a child process, and [freevm] is called on the page directory that the
    caller itself is running on. *)
Theorem wait_frees_shared_pgdir s me i r1 r2 :
  running s me → p_lock s = false → cpu_ok (p_cpu s) →
  List.find (λ i, bool_decide (parent (procs s i) = Some me) && bool_decide (state (procs s i) = ZOMBIE))
    table = Some i →
  pgdir (procs s i) = pgdir (procs s me) →
  sv_kfree (kstack (procs s i)) (p_res s) = Ok tt r1 → sv_freevm (pgdir (procs s me)) r1 = Ok tt r2 →
  ∃ s', wait s = Ok (Some (pid (procs s i))) s' ∧ p_res s' = r2 ∧ procs s' me = procs s me.
Proof.
  intros (Hc & _ & Hr) Hl Hk Hf Hd H1 H2. rewrite <- Hd in H2.
  destruct (proj1 (wp_ok _ _ _) (wait_reaps s me i r1 r2 Hc Hl Hk Hf H1 H2)) as (r & s' & E & -> & Hres & _ & _ & Ho).
  exists s'. split_and!; [done|done|]. apply Ho. intros <-.
  apply find_some in Hf as [_ [_ Hz%bool_decide_eq_true]%andb_true_iff]. congruence.
Qed.
End claims.

Lemma process_table_invariant_witness :
  reachable waiting (upd (λ _, None) 0%nat (Some InWait)) ∧ pid (procs waiting 1) < nextpid waiting.
Proof.
  split; [exact waiting_reachable|].
  destruct (process_table_invariant waiting _ waiting_reachable) as (H & _).
  refine (proj2 (H 1%nat _ _)); [apply Nat.ltb_lt; reflexivity|vm_compute; discriminate].
Defined.

Lemma wait_no_lost_wakeup_witness :
  p_chan (procs waiting 0) = proc_chan (Some 0%nat) ∧
  ∀ j, (j < NPROC)%nat → parent (procs waiting j) = Some 0%nat → state (procs waiting j) = ZOMBIE →
    InWait = InJoin ∧ pgdir (procs waiting j) ≠ pgdir (procs waiting 0).
Proof.
  refine (wait_no_lost_wakeup waiting _ 0 InWait waiting_reachable _ _ _);
    [apply Nat.ltb_lt; reflexivity|runs|runs].
Defined.

Lemma kill_zero_dooms_next_process_witness :
  ∃ s', kill 0 in_init = Ok 0 s' ∧
    wlp allocproc (λ o s'', ∀ j, o = Some j → j = 1%nat ∧ killed (procs s'' j) = true) s'.
Proof.
  refine (kill_zero_dooms_next_process in_init 1 _ _ _ _); [runs| |runs|runs].
  split; [apply Z.leb_le; reflexivity|intros E; vm_compute in E; discriminate].
Defined.

Lemma wait_frees_shared_pgdir_witness :
  ∃ s', wait back_in_init = Ok (Some 2) s' ∧ p_res s' = ((p_res back_in_init).1, [pgdir (procs back_in_init 0)]) ∧
    procs s' 0 = procs back_in_init 0.
Proof.
  refine (wait_frees_shared_pgdir back_in_init 0 1 (p_res back_in_init) _ _ _ _ _ _ _ _);
    [apply runs_as; runs|runs| |runs|runs|reflexivity|reflexivity].
  split; [apply Z.leb_le; reflexivity|intros E; vm_compute in E; discriminate].
Defined.
