(* ===== verification/Fs.v ===== *)
(** * The file system (fs.c): blocks, inodes, directories and path names

    [balloc] and [bfree] on the free-block bitmap, the inode cache ([iget],
    [idup], [ilock], [iunlock], [iput]) and the on-disk inodes ([ialloc],
    [iupdate], [itrunc]), file contents ([bmap], [readi], [writei]),
    directories ([dirlookup], [dirlink]) and paths ([skipelem], [namex]).

    The state is the log and buffer cache below, and the inode cache.  A pointer
    to a cached inode is its index in [icache.inode]; the null pointer is [None]
    where the code tests for it.  Bytes copied to or from memory are the list
    argument or result of the operation.  The functions of a device in [devsw]
    are arguments of the operations that call them. *)

From stdpp Require Import base numbers list strings gmap.
From Stdlib Require Import ZArith Lia.
From S2P Require Import Prelude CString Blocks Log Spinlock.

#[local] Open Scope Z_scope.

(** src/fs.h:11-11 *)
Definition ROOTINO : Z := 1.
(** src/param.h:7-7 *)
Definition NINODE : nat := 50.
(** src/param.h:8-8 *)
Definition NDEV : Z := 10.
(** src/fs.h:27-27 *)
Definition NDIRECT : nat := 10.
(** src/fs.h:28-28 *)
Definition NUM_INDIRECT : nat := 2.
(** src/fs.h:29-29 *)
Definition NUM_DOUBLE_INDIRECT : nat := 1.
(** src/fs.h:31-31 *)
Definition PTRS_PER_BLOCK : Z := 512 / 4.
(** src/fs.h:34-34 *)
Definition NINDIRECT : Z := Z.of_nat NUM_INDIRECT * PTRS_PER_BLOCK.
(** src/fs.h:36-36 *)
Definition NDOUBLE : Z := Z.of_nat NUM_DOUBLE_INDIRECT * PTRS_PER_BLOCK * PTRS_PER_BLOCK.
(** src/fs.h:38-38 *)
Definition MAXFILE : Z := Z.of_nat NDIRECT + NINDIRECT + NDOUBLE.
Definition NADDRS : nat := NDIRECT + NUM_INDIRECT + NUM_DOUBLE_INDIRECT.
(** The size of [struct dinode] is 12 bytes and the 13 addresses -- src/fs.h:52-52 *)
Definition IPB : Z := 512 / 64.
(** src/fs.h:55-55 *)
Definition IBLOCK (i : Z) : Z := i / IPB + 2.
(** src/fs.h:58-58 *)
Definition BPB : Z := 512 * 8.
(** src/fs.h:61-61 *)
Definition BBLOCK (b ninodes : Z) : Z := b / BPB + ninodes / IPB + 3.
(** src/fs.h:64-64 *)
Definition DIRSIZ : nat := 14.
(** src/stat.h:1-1 *)
Definition T_DIR : Z := 1.
(** src/stat.h:2-2 *)
Definition T_FILE : Z := 2.
(** src/stat.h:3-3 *)
Definition T_DEV : Z := 3.
(** src/file.h:27-27 *)
Definition I_BUSY : Z := 0x1.
(** src/file.h:28-28 *)
Definition I_VALID : Z := 0x2.

(** src/fs.h:41-49 *)
Record dinode := mkDinode {
  di_type : Z;
  di_major : Z;
  di_minor : Z;
  di_nlink : Z;
  di_size : Z;
  di_addrs : list Z;
}.

(** src/file.h:13-26 *)
Record inode := mkInode {
  i_dev : Z;
  i_inum : Z;
  i_ref : Z;
  i_flags : Z;
  i_type : Z;
  i_major : Z;
  i_minor : Z;
  i_nlink : Z;
  i_size : Z;
  i_addrs : list Z;
}.
Definition set_i_dev (v : Z) (x : inode) : inode :=
  mkInode v (i_inum x) (i_ref x) (i_flags x) (i_type x) (i_major x) (i_minor x) (i_nlink x)
    (i_size x) (i_addrs x).
Definition set_i_inum (v : Z) (x : inode) : inode :=
  mkInode (i_dev x) v (i_ref x) (i_flags x) (i_type x) (i_major x) (i_minor x) (i_nlink x)
    (i_size x) (i_addrs x).
Definition set_i_ref (v : Z) (x : inode) : inode :=
  mkInode (i_dev x) (i_inum x) v (i_flags x) (i_type x) (i_major x) (i_minor x) (i_nlink x)
    (i_size x) (i_addrs x).
Definition set_i_flags (v : Z) (x : inode) : inode :=
  mkInode (i_dev x) (i_inum x) (i_ref x) v (i_type x) (i_major x) (i_minor x) (i_nlink x)
    (i_size x) (i_addrs x).
Definition set_i_type (v : Z) (x : inode) : inode :=
  mkInode (i_dev x) (i_inum x) (i_ref x) (i_flags x) v (i_major x) (i_minor x) (i_nlink x)
    (i_size x) (i_addrs x).
Definition set_i_major (v : Z) (x : inode) : inode :=
  mkInode (i_dev x) (i_inum x) (i_ref x) (i_flags x) (i_type x) v (i_minor x) (i_nlink x)
    (i_size x) (i_addrs x).
Definition set_i_minor (v : Z) (x : inode) : inode :=
  mkInode (i_dev x) (i_inum x) (i_ref x) (i_flags x) (i_type x) (i_major x) v (i_nlink x)
    (i_size x) (i_addrs x).
Definition set_i_nlink (v : Z) (x : inode) : inode :=
  mkInode (i_dev x) (i_inum x) (i_ref x) (i_flags x) (i_type x) (i_major x)
    (i_minor x) v (i_size x) (i_addrs x).
Definition set_i_size (v : Z) (x : inode) : inode :=
  mkInode (i_dev x) (i_inum x) (i_ref x) (i_flags x) (i_type x) (i_major x) (i_minor x)
    (i_nlink x) v (i_addrs x).
Definition set_i_addrs (v : list Z) (x : inode) : inode :=
  mkInode (i_dev x) (i_inum x) (i_ref x) (i_flags x) (i_type x) (i_major x) (i_minor x)
    (i_nlink x) (i_size x) v.

(** A slot of [icache] in static storage. *)
Definition bss_inode : inode := mkInode 0 0 0 0 0 0 0 0 0 (replicate NADDRS 0).

(** ** On-disk inodes *)

(** The [k]-th [struct dinode] of a block -- src/fs.h:41-49 *)
Definition get_dinode (k : nat) (d : block) : dinode :=
  let o := (64 * k)%nat in
  mkDinode (s16 (get_u16 o d)) (s16 (get_u16 (o + 2) d)) (s16 (get_u16 (o + 4) d))
    (s16 (get_u16 (o + 6) d)) (get_u32 (o + 8) d)
    ((λ j, get_u32 (o + 12 + 4 * j) d) <$> seq 0 NADDRS).

(** Its bytes -- src/fs.h:41-49 *)
Definition dinode_bytes (di : dinode) : list Z :=
  le_bytes 2 (di_type di) ++ le_bytes 2 (di_major di) ++ le_bytes 2 (di_minor di) ++
  le_bytes 2 (di_nlink di) ++ le_bytes 4 (di_size di) ++ (di_addrs di ≫= le_bytes 4).

Definition put_dinode (k : nat) (di : dinode) (d : block) : block := splice (64 * k) (dinode_bytes di) d.

(** [inum % IPB]. *)
Definition islot (inum : Z) : nat := Z.to_nat (inum `mod` IPB).

(** The state of the file system: the log over the buffer cache, and [icache]
    -- src/fs.c:159-162 *)
Record fs (S : Type) := mkFs {
  fs_log : lst S;
  ic_lock : bool;
  icache : nat → inode;
  ic_woken : list chan;
}.
Arguments mkFs {S} _ _ _ _.
Arguments fs_log {S} _.
Arguments ic_lock {S} _.
Arguments icache {S} _.
Arguments ic_woken {S} _.

Section blocks.
Context {S : Type} {BO : BufOps S}.

(** src/fs.c:38-47 *)
Definition bzero (dev bno : Z) : M (lst S) unit :=
  bp ← lift (bread dev bno);
  lift (buf_set_data bp zero_block);;
  log_write bp;;
  lift (brelse bp).

(** Bit [bi] of a bitmap block. *)
Definition bit_set (d : block) (bi : Z) : bool :=
  negb (Z.land (nth (Z.to_nat (bi / 8)) d 0) (Z.shiftl 1 (bi `mod` 8)) =? 0).

(** [for(bi = 0; bi < BPB && b + bi < sb.size; bi++)] up to the first free bit;
    [k] is what is left of [BPB] -- src/fs.c:63-65 *)
Fixpoint find_free (k : nat) (d : block) (b size bi : Z) : option Z :=
  match k with
  | O => None
  | Datatypes.S k =>
      if b + bi <? size then
        if bit_set d bi then find_free k d b size (bi + 1) else Some bi
      else None
  end.

(** [bp->data[bi/8] |= m] -- src/fs.c:64-66 *)
Definition mark_bit (d : block) (bi : Z) : block :=
  let i := Z.to_nat (bi / 8) in
  <[i := w8 (Z.lor (nth i d 0) (Z.shiftl 1 (bi `mod` 8)))]> d.

(** [bp->data[bi/8] &= ~m] -- src/fs.c:88-92 *)
Definition clear_bit (d : block) (bi : Z) : block :=
  let i := Z.to_nat (bi / 8) in
  <[i := w8 (Z.land (nth i d 0) (Z.lnot (Z.shiftl 1 (bi `mod` 8))))]> d.

(** The loop over the bitmap blocks -- src/fs.c:61-75 *)
Fixpoint balloc_loop (k : nat) (dev : Z) (sb : superblock) (b : Z) : M (lst S) Z :=
  match k with
  | O => nofuel
  | Datatypes.S k =>
      if b <? sb_size sb then
        bp ← lift (bread dev (BBLOCK b (sb_ninodes sb)));
        d ← lift (buf_data bp);
        match find_free (Z.to_nat BPB) d b (sb_size sb) 0 with
        | Some bi =>
            lift (buf_set_data bp (mark_bit d bi));;
            log_write bp;;
            lift (brelse bp);;
            bzero dev (b + bi);;
            mret (b + bi)
        | None =>
            lift (brelse bp);;
            balloc_loop k dev sb (b + BPB)
        end
      else panic "balloc: out of blocks"
  end.

(** One round more than there are bitmap blocks is enough fuel
    -- src/fs.c:52-76 *)
Definition balloc (dev : Z) : M (lst S) Z :=
  sb ← lift (readsb dev);
  balloc_loop (Datatypes.S (Z.to_nat (sb_size sb / BPB + 1))) dev sb 0.

(** src/fs.c:79-95 *)
Definition bfree (dev b : Z) : M (lst S) unit :=
  sb ← lift (readsb dev);
  bp ← lift (bread dev (BBLOCK b (sb_ninodes sb)));
  let bi := b `mod` BPB in
  d ← lift (buf_data bp);
  if negb (bit_set d bi) then panic "freeing free block" else
  lift (buf_set_data bp (clear_bit d bi));;
  log_write bp;;
  lift (brelse bp).
End blocks.

Section code.
Context {S : Type} {BO : BufOps S}.
(** [devsw[major].read] and [.write]. *)
Context (dev_read : Z → option (nat → Z → M (fs S) (Z * list Z))).
Context (dev_write : Z → option (nat → list Z → M (fs S) Z)).

Definition below {A} (m : M (lst S) A) : M (fs S) A :=
  zoom fs_log (λ l s, mkFs l (ic_lock s) (icache s) (ic_woken s)) m.
Definition cache {A} (m : M S A) : M (fs S) A := below (lift m).
Definition the_inode (i : nat) : M (fs S) inode := gets (λ s, icache s i).
Definition upd_inode (i : nat) (f : inode → inode) : M (fs S) unit :=
  modify (λ s, mkFs (fs_log s) (ic_lock s) (upd (icache s) i (f (icache s i))) (ic_woken s)).
Definition put_ic_lock (v : bool) (s : fs S) : fs S := mkFs (fs_log s) v (icache s) (ic_woken s).
Definition ic_acquire : M (fs S) unit := acquire ic_lock put_ic_lock.
Definition ic_release : M (fs S) unit := release ic_lock put_ic_lock.
Definition ic_wakeup (i : nat) : M (fs S) unit :=
  modify (λ s, mkFs (fs_log s) (ic_lock s) (icache s) (ic_woken s ++ [ChInode i])).
Definition has (fl bit : Z) : bool := negb (Z.land fl bit =? 0).

(** src/fs.c:164-168 *)
Definition iinit : M (fs S) unit := modify (put_ic_lock false).

(** The scan of the cache: a hit, else the first empty slot
    -- src/fs.c:229-239 *)
Definition iget_hit (ic : nat → inode) (dev inum : Z) : option nat :=
  List.find (λ i, (i_ref (ic i) >? 0) && (i_dev (ic i) =? dev) && (i_inum (ic i) =? inum)) (seq 0 NINODE).
Definition iget_empty (ic : nat → inode) : option nat :=
  List.find (λ i, i_ref (ic i) =? 0) (seq 0 NINODE).

(** src/fs.c:222-253 *)
Definition iget (dev inum : Z) : M (fs S) nat :=
  ic_acquire;;
  ic ← gets icache;
  match iget_hit ic dev inum with
  | Some i =>
      upd_inode i (λ x, set_i_ref (s32 (i_ref x + 1)) x);;
      ic_release;;
      mret i
  | None =>
      match iget_empty ic with
      | None => panic "iget: no inodes"
      | Some i =>
          upd_inode i (λ x, set_i_flags 0 (set_i_ref 1 (set_i_inum inum (set_i_dev dev x))));;
          ic_release;;
          mret i
      end
  end.

(** src/fs.c:185-197 *)
Fixpoint ialloc_loop (k : nat) (dev ty ninodes inum : Z) : M (fs S) nat :=
  match k with
  | O => nofuel
  | Datatypes.S k =>
      if inum <? ninodes then
        bp ← cache (bread dev (IBLOCK inum));
        d ← cache (buf_data bp);
        if di_type (get_dinode (islot inum) d) =? 0 then
          cache (buf_set_data bp (put_dinode (islot inum)
            (mkDinode ty 0 0 0 0 (replicate NADDRS 0)) d));;
          below (log_write bp);;
          cache (brelse bp);;
          iget dev inum
        else
          cache (brelse bp);;
          ialloc_loop k dev ty ninodes (inum + 1)
      else panic "ialloc: no inodes"
  end.

(** src/fs.c:175-198 *)
Definition ialloc (dev ty : Z) : M (fs S) nat :=
  sb ← cache (readsb dev);
  ialloc_loop (Datatypes.S (Z.to_nat (sb_ninodes sb))) dev ty (sb_ninodes sb) 1.

(** What [iupdate] stores of an in-memory inode -- src/fs.c:209-214 *)
Definition dinode_of (x : inode) : dinode :=
  mkDinode (i_type x) (i_major x) (i_minor x) (i_nlink x) (i_size x) (i_addrs x).

(** src/fs.c:201-217 *)
Definition iupdate (i : nat) : M (fs S) unit :=
  ip ← the_inode i;
  bp ← cache (bread (i_dev ip) (IBLOCK (i_inum ip)));
  d ← cache (buf_data bp);
  cache (buf_set_data bp (put_dinode (islot (i_inum ip)) (dinode_of ip) d));;
  below (log_write bp);;
  cache (brelse bp).

(** src/fs.c:257-264 *)
Definition idup (i : nat) : M (fs S) nat :=
  ic_acquire;;
  upd_inode i (λ x, set_i_ref (s32 (i_ref x + 1)) x);;
  ic_release;;
  mret i.

(** What [ilock] loads from disk -- src/fs.c:284-291 *)
Definition load_dinode (di : dinode) (x : inode) : inode :=
  mkInode (i_dev x) (i_inum x) (i_ref x) (i_flags x) (di_type di) (di_major di) (di_minor di)
    (di_nlink di) (di_size di) (di_addrs di).

(** A process that finds the inode locked sleeps, and a woken one runs this
    again from the acquire on -- src/fs.c:268-297 *)
Definition ilock (o : option nat) : M (fs S) unit :=
  match o with
  | None => panic "ilock"
  | Some i =>
      ip ← the_inode i;
      if i_ref ip <? 1 then panic "ilock" else
      ic_acquire;;
      ip ← the_inode i;
      if has (i_flags ip) I_BUSY then park (ChInode i) (put_ic_lock false) else
      upd_inode i (λ x, set_i_flags (Z.lor (i_flags x) I_BUSY) x);;
      ic_release;;
      ip ← the_inode i;
      if has (i_flags ip) I_VALID then mret tt else
      bp ← cache (bread (i_dev ip) (IBLOCK (i_inum ip)));
      d ← cache (buf_data bp);
      upd_inode i (load_dinode (get_dinode (islot (i_inum ip)) d));;
      cache (brelse bp);;
      upd_inode i (λ x, set_i_flags (Z.lor (i_flags x) I_VALID) x);;
      ip ← the_inode i;
      if i_type ip =? 0 then panic "ilock: no type" else mret tt
  end.

(** src/fs.c:300-310 *)
Definition iunlock (o : option nat) : M (fs S) unit :=
  match o with
  | None => panic "iunlock"
  | Some i =>
      ip ← the_inode i;
      if negb (has (i_flags ip) I_BUSY) || (i_ref ip <? 1) then panic "iunlock" else
      ic_acquire;;
      upd_inode i (λ x, set_i_flags (Z.land (i_flags x) (Z.lnot I_BUSY)) x);;
      ic_wakeup i;;
      ic_release
  end.

(** ** File contents *)

(** [a[k]] of the block in a buffer, seen as an array of [uint]. *)
Definition slot_of (k : Z) : nat := (4 * Z.to_nat k)%nat.

(** [ip->addrs[k]], allocated if it is 0: the same statement stands in [bmap] for
    the direct, the singly-indirect and the doubly-indirect addresses -- [bmap] --
    src/fs.c:394-397 *)
Definition addr_or_alloc (i k : nat) : M (fs S) Z :=
  ip ← the_inode i;
  let addr := nth k (i_addrs ip) 0 in
  if addr =? 0 then
    b ← below (balloc (i_dev ip));
    upd_inode i (λ x, set_i_addrs (<[k := b]> (i_addrs x)) x);;
    mret b
  else mret addr.

(** [a[k]] of the indirect block in [bp], allocated if it is 0; three times in
    [bmap] -- src/fs.c:399-404 *)
Definition entry_or_alloc (dev : Z) (bp : nat) (k : Z) : M (fs S) Z :=
  d ← cache (buf_data bp);
  let addr := get_u32 (slot_of k) d in
  if addr =? 0 then
    b ← below (balloc dev);
    d ← cache (buf_data bp);
    cache (buf_set_data bp (put_u32 (slot_of k) b d));;
    below (log_write bp);;
    mret b
  else mret addr.

(** src/fs.c:359-462 *)
Definition bmap (i : nat) (bn : Z) : M (fs S) Z :=
  if bn <? Z.of_nat NDIRECT then addr_or_alloc i (Z.to_nat bn) else
  let bn := bn - Z.of_nat NDIRECT in
  if bn <? NINDIRECT then
    let s_offset := bn / PTRS_PER_BLOCK in
    addr ← addr_or_alloc i (NDIRECT + Z.to_nat s_offset);
    ip ← the_inode i;
    bp ← cache (bread (i_dev ip) addr);
    addr ← entry_or_alloc (i_dev ip) bp (bn `mod` PTRS_PER_BLOCK);
    cache (brelse bp);;
    mret addr
  else
  let bn := bn - NINDIRECT in
  if bn <? NDOUBLE then
    addr ← addr_or_alloc i (NDIRECT + NUM_INDIRECT);
    ip ← the_inode i;
    bp ← cache (bread (i_dev ip) addr);
    let sindirect_bn := bn `mod` (PTRS_PER_BLOCK * PTRS_PER_BLOCK) in
    let i_offset := sindirect_bn / PTRS_PER_BLOCK in
    addr ← entry_or_alloc (i_dev ip) bp i_offset;
    sindirect_bp ← cache (bread (i_dev ip) addr);
    addr ← entry_or_alloc (i_dev ip) sindirect_bp (sindirect_bn `mod` PTRS_PER_BLOCK);
    cache (brelse bp);;
    cache (brelse sindirect_bp);;
    mret addr
  else panic "bmap: out of range".

(** The first [NDIRECT] addresses -- src/fs.c:476-481 *)
Definition itrunc_direct (i : nat) : M (fs S) unit :=
  for_each (seq 0 NDIRECT) (λ k,
    ip ← the_inode i;
    let addr := nth k (i_addrs ip) 0 in
    if negb (addr =? 0) then
      below (bfree (i_dev ip) addr);;
      upd_inode i (λ x, set_i_addrs (<[k := 0]> (i_addrs x)) x)
    else mret tt).

(** [a[j]] for [j] up to [NINDIRECT], twice the entries of the block; the read
    past the end of [bp->data] is undefined -- src/fs.c:486-489 *)
Definition itrunc_indirect (dev : Z) (bp : nat) : M (fs S) unit :=
  for_each (seq 0 (Z.to_nat NINDIRECT)) (λ j,
    if (Z.of_nat j <? PTRS_PER_BLOCK) then
      d ← cache (buf_data bp);
      let addr := get_u32 (4 * j) d in
      if negb (addr =? 0) then below (bfree dev addr) else mret tt
    else fault "itrunc: index out of bounds").

(** src/fs.c:469-497 *)
Definition itrunc (i : nat) : M (fs S) unit :=
  itrunc_direct i;;
  ip ← the_inode i;
  let addr := nth NDIRECT (i_addrs ip) 0 in
  (if negb (addr =? 0) then
     bp ← cache (bread (i_dev ip) addr);
     itrunc_indirect (i_dev ip) bp;;
     cache (brelse bp);;
     below (bfree (i_dev ip) addr);;
     upd_inode i (λ x, set_i_addrs (<[NDIRECT := 0]> (i_addrs x)) x)
   else mret tt);;
  upd_inode i (set_i_size 0);;
  iupdate i.

(** src/fs.c:317-336 *)
Definition iput (i : nat) : M (fs S) unit :=
  ic_acquire;;
  ip ← the_inode i;
  (if (i_ref ip =? 1) && has (i_flags ip) I_VALID && (i_nlink ip =? 0) then
     if has (i_flags ip) I_BUSY then panic "iput busy" else
     upd_inode i (λ x, set_i_flags (Z.lor (i_flags x) I_BUSY) x);;
     ic_release;;
     itrunc i;;
     upd_inode i (set_i_type 0);;
     iupdate i;;
     ic_acquire;;
     upd_inode i (set_i_flags 0);;
     ic_wakeup i
   else mret tt);;
  upd_inode i (λ x, set_i_ref (s32 (i_ref x - 1)) x);;
  ic_release.

(** src/fs.c:339-344 *)
Definition iunlockput (i : nat) : M (fs S) unit := iunlock (Some i);; iput i.

(** src/stat.h:5-11 *)
Record stat := mkStat { st_type : Z; st_dev : Z; st_ino : Z; st_nlink : Z; st_size : Z }.

(** src/fs.c:500-508 *)
Definition stati (i : nat) : M (fs S) stat :=
  ip ← the_inode i;
  mret (mkStat (i_type ip) (s32 (i_dev ip)) (i_inum ip) (i_nlink ip) (i_size ip)).

(** The loop of [readi]: [n] bytes are left to copy from [off]; every round
    copies at least one -- src/fs.c:529-534 *)
Fixpoint readi_loop (k : nat) (i : nat) (off n : Z) : M (fs S) (list Z) :=
  if n <=? 0 then mret [] else
  match k with
  | O => nofuel
  | Datatypes.S k =>
      b ← bmap i (off / 512);
      ip ← the_inode i;
      bp ← cache (bread (i_dev ip) b);
      let m := Z.min n (512 - off `mod` 512) in
      d ← cache (buf_data bp);
      cache (brelse bp);;
      rest ← readi_loop k i (off + m) (n - m);
      mret (slice (Z.to_nat (off `mod` 512)) (Z.to_nat m) d ++ rest)
  end.

(** The count returned and the bytes copied -- src/fs.c:512-536 *)
Definition readi (i : nat) (off n : Z) : M (fs S) (Z * list Z) :=
  ip ← the_inode i;
  if i_type ip =? T_DEV then
    if (i_major ip <? 0) || (i_major ip >=? NDEV) then mret (-1, []) else
    match dev_read (i_major ip) with
    | None => mret (-1, [])
    | Some f => f i n
    end
  else
  if (off >? i_size ip) || (w32 (off + n) <? off) then mret (-1, []) else
  let n := if off + n >? i_size ip then i_size ip - off else n in
  bs ← readi_loop (Z.to_nat n) i off n;
  mret (n, bs).

(** The loop of [writei] over the bytes [src]; the result is the last [off]
    -- src/fs.c:556-562 *)
Fixpoint writei_loop (k : nat) (i : nat) (off : Z) (src : list Z) : M (fs S) Z :=
  match src with
  | [] => mret off
  | _ =>
      match k with
      | O => nofuel
      | Datatypes.S k =>
          b ← bmap i (off / 512);
          ip ← the_inode i;
          bp ← cache (bread (i_dev ip) b);
          let m := Z.min (Z.of_nat (length src)) (512 - off `mod` 512) in
          d ← cache (buf_data bp);
          cache (buf_set_data bp (splice (Z.to_nat (off `mod` 512)) (take (Z.to_nat m) src) d));;
          below (log_write bp);;
          cache (brelse bp);;
          writei_loop k i (off + m) (drop (Z.to_nat m) src)
      end
  end.

(** [n] is the length of [src] -- src/fs.c:540-570 *)
Definition writei (i : nat) (src : list Z) (off : Z) : M (fs S) Z :=
  let n := Z.of_nat (length src) in
  ip ← the_inode i;
  if i_type ip =? T_DEV then
    if (i_major ip <? 0) || (i_major ip >=? NDEV) then mret (-1) else
    match dev_write (i_major ip) with
    | None => mret (-1)
    | Some f => f i src
    end
  else
  if (off >? i_size ip) || (w32 (off + n) <? off) then mret (-1) else
  if off + n >? MAXFILE * 512 then mret (-1) else
  off ← writei_loop (length src) i off src;
  ip ← the_inode i;
  (if (n >? 0) && (off >? i_size ip) then
     upd_inode i (set_i_size off);;
     iupdate i
   else mret tt);;
  mret n.

(** ** Directories *)

(** Two C strings in memory: [p] at 0 and [q] at 4096. *)
Definition two_strings (p q : list Z) : mem := λ a,
  if a <? 4096 then nth (Z.to_nat a) p 0 else nth (Z.to_nat (a - 4096)) q 0.

(** src/fs.c:575-579 *)
Definition namecmp (s t : list Z) : Z := strncmp (two_strings s t) 0 4096 DIRSIZ.

(** [strncpy(de.name, name, DIRSIZ)] over the old contents of [de.name]
    -- src/fs.c:631-631 *)
Definition dirent_name (old nm : list Z) : list Z :=
  bytes_at (strncpy (two_strings old nm) 0 4096 (Z.of_nat DIRSIZ)) 0 DIRSIZ.

(** A [struct dirent] and its 16 bytes -- src/fs.h:66-69 *)
Record dirent := mkDirent { de_inum : Z; de_name : list Z }.
Definition get_dirent (bs : list Z) : dirent := mkDirent (get_u16 0 bs) (slice 2 DIRSIZ bs).
Definition dirent_bytes (de : dirent) : list Z := le_bytes 2 (de_inum de) ++ de_name de.

(** The search of [dirlookup]: the offset and inode number of the first entry
    in use that has the name -- src/fs.c:592-604 *)
Fixpoint dirlookup_loop (k : nat) (dp : nat) (nm : list Z) (off : Z) : M (fs S) (option (Z * Z)) :=
  ip ← the_inode dp;
  if off <? i_size ip then
    match k with
    | O => nofuel
    | Datatypes.S k =>
        r ← readi dp off 16;
        let '(n, bs) := r in
        if negb (n =? 16) then panic "dirlink read" else
        let de := get_dirent bs in
        if de_inum de =? 0 then dirlookup_loop k dp nm (off + 16) else
        if namecmp nm (de_name de) =? 0 then mret (Some (off, de_inum de))
        else dirlookup_loop k dp nm (off + 16)
    end
  else mret None.

(** The inode and the offset stored in [*poff] -- src/fs.c:583-607 *)
Definition dirlookup (dp : nat) (nm : list Z) : M (fs S) (option (nat * Z)) :=
  ip ← the_inode dp;
  if negb (i_type ip =? T_DIR) then panic "dirlookup not DIR" else
  r ← dirlookup_loop (Datatypes.S (Z.to_nat (i_size ip))) dp nm 0;
  match r with
  | None => mret None
  | Some (off, inum) => i ← iget (i_dev ip) inum; mret (Some (i, off))
  end.

(** The search for an empty entry: its offset, and what was last read into
    [de] -- src/fs.c:624-629 *)
Fixpoint dirlink_loop (k : nat) (dp : nat) (off : Z) (de : dirent) : M (fs S) (Z * dirent) :=
  ip ← the_inode dp;
  if off <? i_size ip then
    match k with
    | O => nofuel
    | Datatypes.S k =>
        r ← readi dp off 16;
        let '(n, bs) := r in
        if negb (n =? 16) then panic "dirlink read" else
        let de := get_dirent bs in
        if de_inum de =? 0 then mret (off, de)
        else dirlink_loop k dp (off + 16) de
    end
  else mret (off, de).

(** [junk] is what [de] holds before it is written -- src/fs.c:610-637 *)
Definition dirlink (junk : dirent) (dp : nat) (nm : list Z) (inum : Z) : M (fs S) Z :=
  r ← dirlookup dp nm;
  match r with
  | Some (i, _) => iput i;; mret (-1)
  | None =>
      ip ← the_inode dp;
      r ← dirlink_loop (Datatypes.S (Z.to_nat (i_size ip))) dp 0 junk;
      let '(off, de) := r in
      let de := mkDirent (w16 inum) (dirent_name (de_name de) nm) in
      n ← writei dp (dirent_bytes de) off;
      if negb (n =? 16) then panic "dirlink" else mret 0
  end.
End code.

(** ** Paths *)

(** A path is its bytes without the NUL.  [while ( *path == '/') path++]
    -- src/fs.c:660-661 *)
Fixpoint skip_slashes (path : list Z) : list Z :=
  match path with
  | c :: rest => if c =? 47 then skip_slashes rest else path
  | [] => []
  end.

(** [while ( *path != '/' && *path != 0) path++]: the bytes passed, and the rest
    -- src/fs.c:664-666 *)
Fixpoint span_elem (path : list Z) : list Z * list Z :=
  match path with
  | c :: rest => if c =? 47 then ([], path) else let '(e, r) := span_elem rest in (c :: e, r)
  | [] => ([], [])
  end.

(** The rest of the path and the new contents of the 14-byte buffer [name]
    -- src/fs.c:654-677 *)
Definition skipelem (path name : list Z) : option (list Z * list Z) :=
  match skip_slashes path with
  | [] => None
  | p =>
      let '(e, rest) := span_elem p in
      let name' :=
        if (DIRSIZ <=? length e)%nat then splice 0 (take DIRSIZ e) name
        else <[length e := 0]> (splice 0 e name) in
      Some (skip_slashes rest, name')
  end.

Section paths.
Context {S : Type} {BO : BufOps S}.
Context (dev_read : Z → option (nat → Z → M (fs S) (Z * list Z))).

(** The loop of [namex]; the path gets shorter in every round
    -- src/fs.c:692-709 *)
Fixpoint namex_loop (k : nat) (parent : bool) (ip : nat) (path name : list Z) :
    M (fs S) (option (nat * list Z)) :=
  match skipelem path name with
  | None => if parent then iput ip;; mret None else mret (Some (ip, name))
  | Some (path, name) =>
      match k with
      | O => nofuel
      | Datatypes.S k =>
          ilock (Some ip);;
          x ← the_inode ip;
          if negb (i_type x =? T_DIR) then iunlockput ip;; mret None else
          if parent && bool_decide (path = []) then iunlock (Some ip);; mret (Some (ip, name)) else
          r ← dirlookup dev_read ip name;
          match r with
          | None => iunlockput ip;; mret None
          | Some (next, _) => iunlockput ip;; namex_loop k parent next path name
          end
      end
  end.

(** [cwd] is [proc->cwd]; the result is the inode and the buffer [name]
    -- src/fs.c:682-715 *)
Definition namex (cwd : nat) (path : list Z) (parent : bool) (name : list Z) :
    M (fs S) (option (nat * list Z)) :=
  ip ← (if bool_decide (head path = Some 47) then iget ROOTDEV ROOTINO else idup cwd);
  namex_loop (length path) parent ip path name.

(** src/fs.c:717-722 *)
Definition namei (cwd : nat) (path name : list Z) : M (fs S) (option nat) :=
  r ← namex cwd path false name; mret (fst <$> r).

(** src/fs.c:724-728 *)
Definition nameiparent (cwd : nat) (path name : list Z) : M (fs S) (option (nat * list Z)) :=
  namex cwd path true name.
End paths.
