(* ===== verification/FsBlock.v ===== *)
(** * Disk blocks inside a transaction: the free-block bitmap

    [tx] is what the file system knows between [begin_trans] and
    [commit_trans]: what a reader of each block sees, which blocks the
    transaction has logged, and which buffers are held.  The rules of Log.v are
    restated on it, and [balloc] and [bfree] are proved against a specification
    on the bitmap: the lowest free block is found, marked and zeroed. *)

From stdpp Require Import base numbers list strings gmap.
From Stdlib Require Import ZArith Lia.
From S2P Require Import Prelude Blocks Log Fs.

#[local] Open Scope Z_scope.

(** [n] more blocks can be logged with the buffers [H] held. *)
Definition fits (g : geom) (L : list Z) (H : gmap nat Z) (n : nat) : Prop :=
  Z.of_nat (length L + n) < g_size g ∧ (length L + n ≤ LOGSIZE)%nat ∧
  (base.size H + length L + n ≤ NBUF)%nat.

(** One more block can be read and logged. *)
Definition fits1 (g : geom) (L : list Z) (H : gmap nat Z) : Prop :=
  Z.of_nat (length L + 1) < g_size g ∧ (length L + 1 ≤ LOGSIZE)%nat ∧
  (base.size H + length L + 2 ≤ NBUF)%nat.

(** Block [b] is marked in use in the bitmap. *)
Definition used (v : Z → block) (b : Z) : bool :=
  bit_set (v (BBLOCK b (sb_ninodes (sb_of (v 1))))) (b `mod` BPB).

(** The bitmap block of [b]. *)
Definition bmblock (v : Z → block) (b : Z) : Z := BBLOCK b (sb_ninodes (sb_of (v 1))).

(** What the blocks hold after [b] has been allocated. *)
Definition alloc_view (v : Z → block) (b : Z) : Z → block :=
  disk_upd (disk_upd v (bmblock v b) (mark_bit (v (bmblock v b)) (b `mod` BPB))) b zero_block.

Definition free_view (v : Z → block) (b : Z) : Z → block :=
  disk_upd v (bmblock v b) (clear_bit (v (bmblock v b)) (b `mod` BPB)).

(** The bitmap lies between the inodes and the data, below the log. *)
Definition bitmap_ok (g : geom) (v : Z → block) : Prop :=
  0 ≤ sb_ninodes (sb_of (v 1)) ∧ ∀ b, 0 ≤ b < sb_size (sb_of (v 1)) → bmblock v b < g_start g.

(** The blocks up to the last of the bitmap are marked in use. *)
Definition layout_ok (g : geom) (v : Z → block) : Prop :=
  1 < g_start g ∧ bitmap_ok g v ∧ 0 < sb_size (sb_of (v 1)) ∧
  ∀ c, 0 ≤ c ≤ bmblock v (sb_size (sb_of (v 1)) - 1) → used v c = true.

(** ** Bits *)

Lemma bit_land n k : 0 ≤ k → (Z.land n (Z.shiftl 1 k) =? 0) = negb (Z.testbit n k).
Proof.
  intros Hk. rewrite Z.shiftl_1_l. destruct (Z.testbit n k) eqn:E; simpl.
  - apply Z.eqb_neq. intros H0. assert (H1 : Z.testbit (Z.land n (2 ^ k)) k = true).
    { by rewrite Z.land_spec, E, Z.pow2_bits_true. }
    by rewrite H0, Z.bits_0 in H1.
  - apply Z.eqb_eq, Z.bits_inj'. intros j Hj. rewrite Z.land_spec, Z.bits_0.
    destruct (decide (j = k)) as [->|Hne]; [by rewrite E|].
    by rewrite Z.pow2_bits_false, andb_false_r by done.
Qed.

Lemma bit_set_testbit d bi : bit_set d bi = Z.testbit (nth (Z.to_nat (bi / 8)) d 0) (bi `mod` 8).
Proof. unfold bit_set. rewrite bit_land by (apply Z.mod_pos_bound; lia). by rewrite negb_involutive. Qed.

Lemma testbit_w8 z k : 0 ≤ k < 8 → Z.testbit (w8 z) k = Z.testbit z k.
Proof. intros. unfold w8. rewrite Z.mod_pow2_bits_low; [done|lia]. Qed.

Lemma nth_insert_eq (d : list Z) i x : (i < length d)%nat → nth i (<[i := x]> d) 0 = x.
Proof. intros Hi. by rewrite nth_lookup, list_lookup_insert_eq. Qed.

Lemma nth_insert_ne (d : list Z) i j x : i ≠ j → nth j (<[i := x]> d) 0 = nth j d 0.
Proof. intros Hi. by rewrite !nth_lookup, list_lookup_insert_ne. Qed.

Lemma bit_pos bi bj : bi / 8 = bj / 8 → bi `mod` 8 = bj `mod` 8 → bi = bj.
Proof. intros H1 H2. rewrite (Z.div_mod bi 8), (Z.div_mod bj 8); lia. Qed.

Lemma byte_index bi : 0 ≤ bi < BPB → (Z.to_nat (bi / 8) < BSIZE)%nat.
Proof.
  intros [H0 H1]. unfold BPB, BSIZE in *. assert (bi / 8 < 512) by (apply Z.div_lt_upper_bound; lia).
  assert (0 ≤ bi / 8) by (apply Z.div_pos; lia). lia.
Qed.

(** The effect of storing a new byte that differs in one bit. *)
Lemma bit_set_update d bi bj n b :
  is_block d → 0 ≤ bi < BPB → 0 ≤ bj →
  (∀ k, 0 ≤ k < 8 → Z.testbit n k =
     if decide (k = bi `mod` 8) then b else Z.testbit (nth (Z.to_nat (bi / 8)) d 0) k) →
  bit_set (<[Z.to_nat (bi / 8) := n]> d) bj = if decide (bj = bi) then b else bit_set d bj.
Proof.
  intros Hd Hbi Hbj Hn. pose proof (byte_index bi Hbi) as Hi. rewrite <- Hd in Hi.
  pose proof (Z.mod_pos_bound bj 8 ltac:(lia)). rewrite !bit_set_testbit.
  destruct (decide (bi / 8 = bj / 8)) as [E|E].
  - rewrite <- E, nth_insert_eq, Hn by (done || lia).
    destruct (decide (bj = bi)) as [->|Hne]; [by rewrite decide_True|].
    rewrite decide_False; [done|]. intros E'. apply Hne. symmetry. by apply bit_pos.
  - rewrite nth_insert_ne; [|intros E'; apply E; apply Z2Nat.inj in E'; [done|apply Z.div_pos; lia..]].
    rewrite decide_False by (intros ->; done). done.
Qed.

Lemma bit_set_mark d bi bj :
  is_block d → 0 ≤ bi < BPB → 0 ≤ bj →
  bit_set (mark_bit d bi) bj = if decide (bj = bi) then true else bit_set d bj.
Proof.
  intros Hd Hbi Hbj. apply bit_set_update; [done..|]. intros k Hk.
  rewrite testbit_w8, Z.lor_spec, Z.shiftl_1_l by done. case_decide as E.
  - rewrite E, Z.pow2_bits_true, orb_true_r; [done|apply Z.mod_pos_bound; lia].
  - by rewrite Z.pow2_bits_false, orb_false_r by done.
Qed.

Lemma bit_set_clear d bi bj :
  is_block d → 0 ≤ bi < BPB → 0 ≤ bj →
  bit_set (clear_bit d bi) bj = if decide (bj = bi) then false else bit_set d bj.
Proof.
  intros Hd Hbi Hbj. apply bit_set_update; [done..|]. intros k Hk.
  rewrite testbit_w8, Z.land_spec, Z.lnot_spec, Z.shiftl_1_l by lia. case_decide as E.
  - rewrite E, Z.pow2_bits_true, andb_false_r; [done|apply Z.mod_pos_bound; lia].
  - by rewrite Z.pow2_bits_false, andb_true_r by done.
Qed.

Lemma mark_bit_block d bi : is_block d → is_block (mark_bit d bi).
Proof. intros Hd. unfold is_block, mark_bit. by rewrite length_insert. Qed.

Lemma clear_bit_block d bi : is_block d → is_block (clear_bit d bi).
Proof. intros Hd. unfold is_block, clear_bit. by rewrite length_insert. Qed.

Lemma byte_bits n : is_byte n → ∀ k, 8 ≤ k → Z.testbit n k = false.
Proof.
  intros Hn k Hk. destruct (decide (n = 0)) as [->|]; [apply Z.bits_0|].
  apply Z.bits_above_log2; [apply Hn|]. unfold is_byte in Hn.
  assert (Z.log2 n < 8) by (apply Z.log2_lt_pow2; lia). lia.
Qed.

(** Freeing what was allocated gives the old bitmap back. *)
Lemma clear_mark d bi :
  is_block d → Forall is_byte d → 0 ≤ bi < BPB → bit_set d bi = false →
  clear_bit (mark_bit d bi) bi = d.
Proof.
  intros Hd Hb Hbi Hfree. pose proof (byte_index bi Hbi) as Hi. rewrite <- Hd in Hi.
  unfold clear_bit, mark_bit. set (i := Z.to_nat (bi / 8)) in *.
  rewrite nth_insert_eq, list_insert_insert_eq by done. apply list_insert_id.
  destruct (lookup_lt_is_Some_2 d i Hi) as [n Hn]. rewrite Hn. f_equal. rewrite nth_lookup, Hn. simpl.
  assert (Hnb : is_byte n) by (by eapply (Forall_lookup_1 _ _ _ _ Hb)).
  rewrite bit_set_testbit in Hfree. fold i in Hfree. rewrite nth_lookup, Hn in Hfree. simpl in Hfree.
  apply Z.bits_inj'. intros k Hk. destruct (decide (k < 8)) as [Hlt|Hge].
  - rewrite testbit_w8, Z.land_spec, Z.lnot_spec, testbit_w8, Z.lor_spec, Z.shiftl_1_l by lia.
    destruct (decide (k = bi `mod` 8)) as [->|Hne]; [by rewrite Hfree, Z.pow2_bits_true, andb_false_r|].
    by rewrite Z.pow2_bits_false, orb_false_r, andb_true_r by done.
  - rewrite (byte_bits n) by (done || lia). symmetry. apply byte_bits; [|lia].
    unfold is_byte, w8. by apply Z.mod_pos_bound.
Qed.

(** The first free bit of a bitmap block. *)
Lemma find_free_some k d b size bi r :
  (∀ c, bi ≤ c < r → bit_set d c = true) → bi ≤ r < bi + Z.of_nat k → b + r < size →
  bit_set d r = false → find_free k d b size bi = Some r.
Proof.
  revert bi. induction k as [|k IH]; intros bi Hlow Hr Hsz Hf; [lia|]. cbn [find_free].
  rewrite (proj2 (Z.ltb_lt _ _)) by lia. destruct (decide (bi = r)) as [->|Hne]; [by rewrite Hf|].
  rewrite Hlow by lia. apply IH; [|lia..|done]. intros c ?. apply Hlow. lia.
Qed.

Lemma find_free_none k d b size bi :
  (∀ c, bi ≤ c < bi + Z.of_nat k → b + c < size → bit_set d c = true) →
  find_free k d b size bi = None.
Proof.
  revert bi. induction k as [|k IH]; intros bi H; [done|]. cbn [find_free].
  destruct (Z.ltb_spec (b + bi) size); [|done]. rewrite H by lia. apply IH. intros c ??. apply H; lia.
Qed.

(** ** The view of a transaction *)

Section rules.
Context {S : Type} {BO : BufOps S} {BC : BufCache S}.
Context (g : geom) (Hg : geom_ok g).
Implicit Types (s : lst S) (v d : Z → block) (L : list Z) (H : gmap nat Z).

(** Readers see [v], the transaction has logged the blocks [L], the buffers [H]
    are held; blocks that are not logged are as on disk. *)
Definition tx s d0 ws0 v L H : Prop :=
  in_tx g s d0 ws0 v L H ∅ ∧ ∀ x, 0 ≤ x < g_start g → x ∉ L → v x = d0 x.

Lemma rule_bread s d0 ws0 v L H x (Q : nat → lst S → Prop) :
  tx s d0 ws0 v L H → 0 ≤ x < g_start g → (∀ b, H !! b ≠ Some x) →
  (base.size H + length L < NBUF)%nat →
  (∀ b s', H !! b = None → tx s' d0 ws0 v L (<[b := x]> H) → Q b s') →
  wp (lift (bread ROOTDEV x)) Q s.
Proof.
  intros [Ht Hc] Hx Hn Hr HQ. eapply tx_bread; [done|done|done|done|by right|].
  intros b s' Hb Ht'. by apply HQ.
Qed.

Lemma rule_data s d0 ws0 v L H b x (Q : block → lst S → Prop) :
  tx s d0 ws0 v L H → H !! b = Some x → (is_block (v x) → Q (v x) s) → wp (lift (buf_data b)) Q s.
Proof. intros [Ht _] Hb HQ. by eapply tx_data. Qed.

Lemma rule_brelse s d0 ws0 v L H b x (Q : unit → lst S → Prop) :
  tx s d0 ws0 v L H → H !! b = Some x →
  (∀ s', tx s' d0 ws0 v L (delete b H) → Q tt s') → wp (lift (brelse b)) Q s.
Proof.
  intros [Ht Hc] Hb HQ. eapply tx_brelse; [done|done| |intros s' Ht'; by apply HQ].
  destruct (decide (x ∈ L)); [by left|right]. apply Hc; [|done].
  destruct Ht as (_&_&_&_&_&_&HH&_). by eapply HH.
Qed.

(** A store to a held buffer followed by [log_write]. *)
Lemma rule_store {A} s d0 ws0 v L H b x u (k : unit → M (lst S) A) (Q : A → lst S → Prop) :
  tx s d0 ws0 v L H → H !! b = Some x → is_block u → fits g L H 1 →
  (∀ s', tx s' d0 ws0 (disk_upd v x u) (log_add x L) H → wp (k tt) Q s') →
  wp (lift (buf_set_data b u);; (log_write b ≫= k)) Q s.
Proof.
  intros [Ht Hc] Hb Hu (F1 & F2 & F3) HQ. apply wp_bind. eapply tx_set_data; [done..|]. intros s1 H1. apply wp_bind.
  eapply tx_log_write; [done|exact H1|done|lia|lia|lia|]. intros s2 H2. apply HQ. split.
  - replace (({[x]} ∪ ∅) ∖ {[x]} : gset Z) with (∅ : gset Z) in H2 by set_solver. done.
  - intros y Hy Hn. rewrite elem_of_log_add in Hn. rewrite disk_upd_ne by (intros ->; auto). apply Hc; [done|auto].
Qed.

Lemma tx_ext s d0 ws0 v v' L H : tx s d0 ws0 v L H → agree (g_start g) v v' → tx s d0 ws0 v' L H.
Proof.
  intros [(?&?&?&HL&?&?&?&w&cs&?&Ha&?&Hl) Hc] E. split.
  - split_and!; try done. exists w, cs. split_and!; try done.
    + intros y Hy. rewrite Ha by done. by apply E.
    + intros i x Hi ?. rewrite <- E; [by apply Hl|]. pose proof (Forall_lookup_1 _ _ _ _ HL Hi). simpl in *. lia.
  - intros x ??. rewrite <- E by lia. by apply Hc.
Qed.

Lemma tx_block s d0 ws0 v L H x : tx s d0 ws0 v L H → 0 ≤ x < g_start g → is_block (v x).
Proof.
  intros [(_&_&_&_&_&_&_&w&cs&HB&Hw&_) _] Hx. rewrite <- (Hw x) by lia. eapply blk_view_block. exact HB.
Qed.

Lemma wp_lift_bind {A B} (m : M S A) (k : A → M S B) (Q : B → lst S → Prop) s :
  wp (lift m) (λ a s', wp (lift (k a)) Q s') s → wp (lift (m ≫= k)) Q s.
Proof. unfold wp, lift, zoom, mbind, M_bind. destruct (m (ls_bio s)); by try destruct s. Qed.

Lemma rule_readsb s d0 ws0 v L H (Q : superblock → lst S → Prop) :
  tx s d0 ws0 v L H → 1 < g_start g → (∀ b, H !! b ≠ Some 1) → (base.size H + length L < NBUF)%nat →
  (∀ s', tx s' d0 ws0 v L H → Q (sb_of (v 1)) s') → wp (lift (readsb ROOTDEV)) Q s.
Proof.
  intros Ht H1 Hn Hr HQ. unfold readsb. apply wp_lift_bind. eapply rule_bread; [done|lia|done|done|].
  intros b s1 Hb Ht1. apply wp_lift_bind. eapply rule_data; [done|by rewrite lookup_insert_eq|]. intros _.
  apply wp_lift_bind. eapply rule_brelse; [done|by rewrite lookup_insert_eq|]. intros s2 Ht2.
  rewrite delete_insert_id in Ht2 by done. destruct s2 as [B l]. apply wp_lift, wp_ret. by apply HQ.
Qed.
End rules.

Lemma fits_le g L H n m : fits g L H n → (m ≤ n)%nat → fits g L H m.
Proof. intros (?&?&?) ?. unfold fits. lia. Qed.

Lemma fits_alloc g L H x : fits g L H 3 → fits1 g L H ∧ fits1 g (log_add x L) H.
Proof. intros (?&?&?). pose proof (log_add_length x L). unfold fits1. lia. Qed.

Lemma fits_add g L H n x : fits g L H (Datatypes.S n) → fits g (log_add x L) H n.
Proof. intros (?&?&?). pose proof (log_add_length x L). unfold fits. lia. Qed.

(** ** [balloc] and [bfree] *)

Section alloc.
Context {S : Type} {BO : BufOps S} {BC : BufCache S}.
Context (g : geom) (Hg : geom_ok g).
Implicit Types (s : lst S) (v d : Z → block) (L : list Z) (H : gmap nat Z).

(** [b] is the lowest free block. *)
Definition first_free v (b : Z) : Prop :=
  0 ≤ b < sb_size (sb_of (v 1)) ∧ used v b = false ∧ ∀ c, 0 ≤ c < b → used v c = true.

(** The buffers held are no bitmap blocks, nor the superblock. *)
Definition no_meta v H : Prop :=
  ∀ x b, H !! x = Some b → b ≠ 1 ∧ ∀ c, 0 ≤ c < sb_size (sb_of (v 1)) → b ≠ bmblock v c.

Lemma bzero_run s d0 ws0 v L H x (Q : unit → lst S → Prop) :
  tx g s d0 ws0 v L H → 0 ≤ x < g_start g → (∀ b, H !! b ≠ Some x) → fits1 g L H →
  (∀ s', tx g s' d0 ws0 (disk_upd v x zero_block) (log_add x L) H → Q tt s') →
  wp (bzero ROOTDEV x) Q s.
Proof.
  intros Ht Hx Hn F HQ. apply wp_bind. eapply rule_bread; [done|done|done|done|destruct F as (?&?&?); lia|].
  intros b s1 Hb Ht1. assert (F' : fits g L (<[b := x]> H) 1).
  { destruct F as (?&?&?). unfold fits. rewrite map_size_insert_None by done. lia. }
  eapply rule_store; [done|done|by rewrite lookup_insert_eq|done|done|]. intros s2 Ht2.
  eapply rule_brelse; [done|by rewrite lookup_insert_eq|]. intros s3 Ht3.
  rewrite delete_insert_id in Ht3 by done. by apply HQ.
Qed.

Lemma bmblock_pos v b : 0 ≤ b → 0 ≤ sb_ninodes (sb_of (v 1)) → 3 ≤ bmblock v b.
Proof.
  intros H0 H1. unfold bmblock, BBLOCK, BPB, IPB.
  pose proof (Z.div_pos b (512 * 8) ltac:(lia) ltac:(lia)).
  pose proof (Z.div_pos (sb_ninodes (sb_of (v 1))) (512 / 64) H1 ltac:(done)). lia.
Qed.

Lemma bmblock_same v b c : 0 ≤ c < BPB → b `mod` BPB = 0 → bmblock v (b + c) = bmblock v b.
Proof.
  intros Hc Hb. unfold bmblock, BBLOCK. do 2 f_equal. unfold BPB in *.
  rewrite (Z.div_mod b (512 * 8)) at 1 by lia. rewrite Hb, Z.add_0_r, Z.mul_comm, Z.div_add_l by lia.
  rewrite (Z.div_small c) by lia. lia.
Qed.

Lemma bmod v b c : 0 ≤ c < BPB → b `mod` BPB = 0 → (b + c) `mod` BPB = c.
Proof.
  intros Hc Hb. rewrite <- Z.add_mod_idemp_l by done. rewrite Hb. by apply Z.mod_small.
Qed.

Lemma used_at v b c : 0 ≤ c < BPB → b `mod` BPB = 0 → used v (b + c) = bit_set (v (bmblock v b)) c.
Proof.
  intros Hc Hb. unfold used. rewrite (bmod v) by done. fold (bmblock v (b + c)). by rewrite bmblock_same.
Qed.

Lemma balloc_loop_run k s d0 ws0 v L H b0 b (Q : Z → lst S → Prop) :
  tx g s d0 ws0 v L H → 1 < g_start g → bitmap_ok g v → no_meta v H →
  fits1 g L H → fits1 g (log_add (bmblock v b) L) H →
  first_free v b → b < g_start g → b ≠ bmblock v b → (∀ x, H !! x ≠ Some b) →
  0 ≤ b0 ≤ b → b0 `mod` BPB = 0 → b < b0 + Z.of_nat k * BPB →
  (∀ s', tx g s' d0 ws0 (alloc_view v b) (log_add b (log_add (bmblock v b) L)) H → Q b s') →
  wp (balloc_loop k ROOTDEV (sb_of (v 1)) b0) Q s.
Proof.
  intros Ht H1 [Hni Hbm] Hnm F Fb (Hb & Hfree & Hlow) Hlt Hne Hnh. revert s b0 Ht.
  induction k as [|k IH]; intros s b0 Ht Hb0 Hmod Hk HQ; [lia|]. cbn [balloc_loop].
  rewrite (proj2 (Z.ltb_lt _ _)) by lia. fold (bmblock v b0).
  pose proof (Hbm b0 ltac:(lia)). pose proof (bmblock_pos v b0 ltac:(lia) Hni).
  apply wp_bind. eapply rule_bread; [done|done|lia| |destruct F as (?&?&?); lia|].
  { intros x E. destruct (Hnm _ _ E) as [_ Hx]. apply (Hx b0); [lia|done]. }
  intros bp s1 Hbp Ht1. apply wp_bind. eapply rule_data; [done|by rewrite lookup_insert_eq|]. intros Hblk.
  destruct (decide (b < b0 + BPB)) as [Hin|Hout].
  - assert (E : b = b0 + (b - b0)) by lia. set (bi := b - b0) in *. assert (Hbi : 0 ≤ bi < BPB) by lia.
    assert (Ebm : bmblock v b = bmblock v b0) by (rewrite E; by apply bmblock_same).
    rewrite (find_free_some _ _ _ _ _ bi).
    + assert (F' : fits g L (<[bp := bmblock v b0]> H) 1).
      { destruct F as (?&?&?). unfold fits. rewrite map_size_insert_None by done. lia. }
      eapply rule_store; [done|done|by rewrite lookup_insert_eq|by apply mark_bit_block|done|]. intros s2 Ht2.
      apply wp_bind. eapply rule_brelse; [done|by rewrite lookup_insert_eq|]. intros s3 Ht3.
      rewrite delete_insert_id in Ht3 by done. apply wp_bind.
      eapply bzero_run; [done|lia|by rewrite <- E|by rewrite <- Ebm|].
      intros s4 Ht4. apply wp_ret. rewrite <- E in *. apply HQ. unfold alloc_view. rewrite Ebm.
      replace (b `mod` BPB) with bi; [done|]. rewrite E. symmetry. by apply (bmod v).
    + intros c Hc. rewrite <- (used_at v) by (done || lia). apply Hlow. lia.
    + unfold BPB in *. lia.
    + lia.
    + rewrite <- (used_at v) by done. by rewrite <- E.
  - rewrite find_free_none.
    2: { intros c Hc _. rewrite <- (used_at v); [apply Hlow; unfold BPB in *; lia|unfold BPB in *; lia|done]. }
    apply wp_bind. eapply rule_brelse; [done|by rewrite lookup_insert_eq|]. intros s2 Ht2.
    rewrite delete_insert_id in Ht2 by done. apply IH; [done|unfold BPB in *; lia| |unfold BPB in *; lia|done].
    rewrite <- Z.add_mod_idemp_r by done. rewrite Z.mod_same by done. by rewrite Z.add_0_r.
Qed.

Lemma balloc_run s d0 ws0 v L H b (Q : Z → lst S → Prop) :
  tx g s d0 ws0 v L H → 1 < g_start g → bitmap_ok g v → no_meta v H →
  fits1 g L H → fits1 g (log_add (bmblock v b) L) H →
  first_free v b → b < g_start g → b ≠ bmblock v b → (∀ x, H !! x ≠ Some b) →
  (∀ s', tx g s' d0 ws0 (alloc_view v b) (log_add b (log_add (bmblock v b) L)) H → Q b s') →
  wp (balloc ROOTDEV) Q s.
Proof.
  intros Ht H1 Hbm Hnm F Fb Hb Hlt Hne Hnh HQ. apply wp_bind. eapply rule_readsb; [done|done|done| | |].
  { intros x E. destruct (Hnm _ _ E) as [? _]. done. }
  { destruct F as (?&?&?). lia. }
  intros s1 Ht1. destruct Hb as (Hb & ? & ?). eapply balloc_loop_run; [done..|lia|done| |done].
  pose proof (Z.div_mod b BPB ltac:(done)). pose proof (Z.mod_pos_bound b BPB ltac:(done)).
  pose proof (Z.div_le_mono b (sb_size (sb_of (v 1))) BPB ltac:(done) ltac:(lia)).
  pose proof (Z.div_pos b BPB ltac:(lia) ltac:(done)). unfold BPB in *. lia.
Qed.
Lemma bmblock_mono v b c : 0 ≤ b ≤ c → bmblock v b ≤ bmblock v c.
Proof. intros Hb. unfold bmblock, BBLOCK. pose proof (Z.div_le_mono b c BPB ltac:(done) ltac:(lia)). lia. Qed.

Lemma first_free_above v b : layout_ok g v → first_free v b → 3 < b ∧ bmblock v b < b ∧
  ∀ c, 0 ≤ c < sb_size (sb_of (v 1)) → bmblock v c < b.
Proof.
  intros (H1 & [Hni Hbm] & _ & Hmeta) (Hb & Hf & _).
  assert (Hhi : bmblock v (sb_size (sb_of (v 1)) - 1) < b).
  { destruct (decide (b ≤ bmblock v (sb_size (sb_of (v 1)) - 1))); [|lia]. rewrite Hmeta in Hf by lia. done. }
  assert (∀ c, 0 ≤ c < sb_size (sb_of (v 1)) → bmblock v c < b).
  { intros c Hc. pose proof (bmblock_mono v c (sb_size (sb_of (v 1)) - 1) ltac:(lia)). lia. }
  pose proof (bmblock_pos v b ltac:(lia) Hni). split_and!; [|auto..]. pose proof (bmblock_mono v b (sb_size (sb_of (v 1)) - 1) ltac:(lia)). lia.
Qed.

Lemma layout_top v : layout_ok g v → 3 ≤ bmblock v (sb_size (sb_of (v 1)) - 1).
Proof. intros (_ & [Hni _] & Hs & _). apply bmblock_pos; [lia|done]. Qed.

Lemma alloc_view_other v b x : x ≠ b → x ≠ bmblock v b → alloc_view v b x = v x.
Proof. intros. unfold alloc_view. by rewrite !disk_upd_ne. Qed.

Lemma sb_alloc v b : layout_ok g v → first_free v b → alloc_view v b 1 = v 1.
Proof.
  intros Hl Hf. destruct (first_free_above v b Hl Hf) as (?&?&?). apply alloc_view_other; [lia|].
  destruct Hl as (_ & [Hni _] & _), Hf as [[? _] _]. pose proof (bmblock_pos v b ltac:(lia) Hni). lia.
Qed.

(** The bitmap after a store to the bitmap block of [b]. *)
Lemma used_update v v' b c (val : bool) (d' : block) :
  0 ≤ b → 0 ≤ c → is_block (v (bmblock v b)) → sb_of (v' 1) = sb_of (v 1) →
  v' (bmblock v b) = d' → (bmblock v c ≠ bmblock v b → v' (bmblock v c) = v (bmblock v c)) →
  (∀ bj, 0 ≤ bj → bit_set d' bj = if decide (bj = b `mod` BPB) then val else bit_set (v (bmblock v b)) bj) →
  used v' c = if decide (c = b) then val else used v c.
Proof.
  intros Hb Hc Hd Hsb E Eo Hbit. unfold used. rewrite Hsb. fold (bmblock v c).
  pose proof (Z.mod_pos_bound c BPB ltac:(done)).
  destruct (decide (bmblock v c = bmblock v b)) as [Ebm|Nbm].
  - rewrite Ebm, E, Hbit by lia. case_decide as E1; case_decide as E2; subst; try done.
    exfalso. apply E2. unfold bmblock, BBLOCK in Ebm. rewrite (Z.div_mod c BPB), (Z.div_mod b BPB) by done. lia.
  - rewrite Eo by done. rewrite decide_False by congruence. done.
Qed.

Lemma used_alloc v b c :
  is_block (v (bmblock v b)) → layout_ok g v → first_free v b → 0 ≤ c →
  c < sb_size (sb_of (v 1)) →
  used (alloc_view v b) c = if decide (c = b) then true else used v c.
Proof.
  intros Hd Hl Hf Hc Hcs. pose proof (first_free_above v b Hl Hf) as (_ & Hbb & Hall). destruct (Hf) as ([Hb Hbs] & _ & _).
  eapply used_update; [done|done|done|by rewrite sb_alloc| | |].
  - unfold alloc_view. rewrite disk_upd_ne by lia. by rewrite disk_upd_eq.
  - intros Hne. apply alloc_view_other; [|done]. pose proof (Hall c ltac:(lia)). lia.
  - intros bj Hbj. apply bit_set_mark; [done|by apply Z.mod_pos_bound|done].
Qed.

Lemma free_view_other v b x : x ≠ bmblock v b → free_view v b x = v x.
Proof. intros. unfold free_view. by rewrite disk_upd_ne. Qed.

Lemma bfree_run s d0 ws0 v L H b (Q : unit → lst S → Prop) :
  tx g s d0 ws0 v L H → 1 < g_start g → bitmap_ok g v → no_meta v H → fits g L H 2 →
  0 ≤ b < sb_size (sb_of (v 1)) → used v b = true →
  (∀ s', tx g s' d0 ws0 (free_view v b) (log_add (bmblock v b) L) H → Q tt s') →
  wp (bfree ROOTDEV b) Q s.
Proof.
  intros Ht H1 [Hni Hbm] Hnm F Hb Hu HQ. pose proof (Hbm b Hb). pose proof (bmblock_pos v b ltac:(lia) Hni).
  assert (Hr : (base.size H + length L < NBUF)%nat) by (destruct F as (?&?&?); lia).
  apply wp_bind. eapply rule_readsb; [done|done|done| |done|].
  { intros x E. destruct (Hnm _ _ E) as [? _]. done. }
  intros s1 Ht1. fold (bmblock v b). apply wp_bind. eapply rule_bread; [done|done|lia| |done|].
  { intros x E. destruct (Hnm _ _ E) as [_ Hx]. by apply (Hx b). }
  intros bp s2 Hbp Ht2. apply wp_bind. eapply rule_data; [done|by rewrite lookup_insert_eq|]. intros Hd.
  unfold used in Hu. fold (bmblock v b) in Hu. rewrite Hu. cbn [negb].
  assert (F' : fits g L (<[bp := bmblock v b]> H) 1).
  { destruct F as (?&?&?). unfold fits. rewrite map_size_insert_None by done. lia. }
  eapply rule_store; [done|done|by rewrite lookup_insert_eq|by apply clear_bit_block|done|]. intros s3 Ht3.
  eapply rule_brelse; [done|by rewrite lookup_insert_eq|]. intros s4 Ht4.
  rewrite delete_insert_id in Ht4 by done. by apply HQ.
Qed.

(** ** When no block is free *)

Lemma bind_panic {A B} (m : M (lst S) A) (k : A → M (lst S) B) s msg :
  wp m (λ a s', k a s' = Panic msg) s → (m ≫= k) s = Panic msg.
Proof. unfold wp, mbind, M_bind. by destruct (m s). Qed.

Lemma balloc_loop_full k s d0 ws0 v L H b0 :
  tx g s d0 ws0 v L H → bitmap_ok g v → no_meta v H → (base.size H + length L < NBUF)%nat →
  (∀ c, 0 ≤ c < sb_size (sb_of (v 1)) → used v c = true) →
  0 ≤ b0 → b0 `mod` BPB = 0 → sb_size (sb_of (v 1)) ≤ b0 + Z.of_nat k * BPB →
  balloc_loop (Datatypes.S k) ROOTDEV (sb_of (v 1)) b0 s = Panic "balloc: out of blocks".
Proof.
  intros Ht [Hni Hbm] Hnm Hr Hall. revert s b0 Ht. induction k as [|k IH]; intros s b0 Ht Hb0 Hm Hk.
  { cbn [balloc_loop]. by rewrite (proj2 (Z.ltb_ge _ _)) by lia. }
  remember (Datatypes.S k) as k'. cbn [balloc_loop]. destruct (Z.ltb_spec b0 (sb_size (sb_of (v 1)))) as [Hlt|]; [|done].
  pose proof (Hbm b0 ltac:(lia)). pose proof (bmblock_pos v b0 ltac:(lia) Hni). fold (bmblock v b0).
  apply bind_panic. eapply rule_bread; [done|done|lia| |done|].
  { intros x E. destruct (Hnm _ _ E) as [_ Hx]. apply (Hx b0); [lia|done]. }
  intros bp s1 Hbp Ht1. apply bind_panic. eapply rule_data; [done|by rewrite lookup_insert_eq|]. intros _.
  rewrite find_free_none.
  2: { intros c Hc ?. rewrite <- (used_at v); [apply Hall; lia|unfold BPB in *; lia|done]. }
  apply bind_panic. eapply rule_brelse; [done|by rewrite lookup_insert_eq|]. intros s2 Ht2.
  rewrite delete_insert_id in Ht2 by done. subst k'. apply IH; [done|unfold BPB; lia| |unfold BPB in *; lia].
  rewrite <- Z.add_mod_idemp_r by done. rewrite Z.mod_same by done. by rewrite Z.add_0_r.
Qed.

Lemma balloc_full s d0 ws0 v L H :
  tx g s d0 ws0 v L H → 1 < g_start g → bitmap_ok g v → no_meta v H →
  (base.size H + length L < NBUF)%nat →
  (∀ c, 0 ≤ c < sb_size (sb_of (v 1)) → used v c = true) →
  balloc ROOTDEV s = Panic "balloc: out of blocks".
Proof.
  intros Ht H1 Hbm Hnm Hr Hall. apply bind_panic. eapply rule_readsb; [done|done|done| |done|].
  { intros x E. destruct (Hnm _ _ E) as [? _]. done. }
  intros s1 Ht1. eapply balloc_loop_full; [done..|].
  pose proof (Z.div_mod (sb_size (sb_of (v 1))) BPB ltac:(done)).
  pose proof (Z.mod_pos_bound (sb_size (sb_of (v 1))) BPB ltac:(done)). unfold BPB in *. lia.
Qed.

Lemma fits_room L H n : fits g L H (Datatypes.S n) → (base.size H + length L < NBUF)%nat.
Proof. intros (?&?&?). lia. Qed.

Lemma log_add_same x y L : x ∈ L → log_add x (log_add y L) = log_add y L.
Proof. intros Hx. unfold log_add at 1. rewrite bool_decide_true; [done|]. apply elem_of_log_add. auto. Qed.

(** [balloc] and then [bfree] of the block. *)
Lemma free_alloc v b x :
  is_block (v (bmblock v b)) → Forall is_byte (v (bmblock v b)) → layout_ok g v → first_free v b →
  free_view (alloc_view v b) b x = disk_upd v b zero_block x.
Proof.
  intros Hd Hby Hl Hf. pose proof (first_free_above v b Hl Hf) as (_ & Hbb & _). destruct (Hf) as (Hb & Hu & _).
  assert (Ebm : bmblock (alloc_view v b) b = bmblock v b) by (unfold bmblock at 1; by rewrite sb_alloc).
  unfold free_view. rewrite Ebm. destruct (decide (x = bmblock v b)) as [->|Hne].
  - rewrite disk_upd_eq, disk_upd_ne by lia. unfold alloc_view. rewrite disk_upd_ne, disk_upd_eq by lia.
    apply clear_mark; [done|done|by apply Z.mod_pos_bound|exact Hu].
  - rewrite disk_upd_ne by done. unfold alloc_view, disk_upd.
    by rewrite (proj2 (Z.eqb_neq x (bmblock v b)) Hne).
Qed.
End alloc.

(** ** The theorems *)

Section claims.
Context {S : Type} {BO : BufOps S} {BC : BufCache S}.
Context (g : geom) (Hg : geom_ok g).
Implicit Types (s : lst S) (v d : Z → block) (L : list Z) (H : gmap nat Z).

(** Inside a transaction with room for two more blocks, [balloc] returns the
    lowest block whose bit in the free bitmap is clear, sets that bit and no
    other, zeroes the block, logs both stores, and changes no other block; with
    every bit set it panics.  It terminates in both cases. *)
Theorem balloc_spec s d0 ws0 v L H :
  tx g s d0 ws0 v L H → layout_ok g v → no_meta v H → fits g L H 3 →
  (∀ b, first_free v b → b < g_start g → (∀ x, H !! x ≠ Some b) →
    wp (balloc ROOTDEV) (λ r s', r = b ∧ ∃ v' L', tx g s' d0 ws0 v' L' H ∧
      (∀ x, x ∈ L' ↔ x = b ∨ x = bmblock v b ∨ x ∈ L) ∧ v' b = zero_block ∧
      (∀ c, 0 ≤ c < sb_size (sb_of (v 1)) → used v' c = if decide (c = b) then true else used v c) ∧
      (∀ x, x ≠ b → x ≠ bmblock v b → v' x = v x)) s) ∧
  ((∀ c, 0 ≤ c < sb_size (sb_of (v 1)) → used v c = true) →
    balloc ROOTDEV s = Panic "balloc: out of blocks").
Proof.
  intros Ht Hl Hnm F. pose proof Hl as (H1 & Hbm & _). split.
  - intros b Hf Hlt Hnh. pose proof (first_free_above g v b Hl Hf) as (_ & Hbb & _). pose proof Hf as (Hb & _).
    assert (Hd : is_block (v (bmblock v b))).
    { eapply tx_block; [done|]. destruct Hbm as [Hni Hx]. pose proof (Hx b Hb). pose proof (bmblock_pos v b ltac:(lia) Hni). lia. }
    destruct (fits_alloc g L H (bmblock v b) F).
    eapply balloc_run; [done|done|done|done|done|done|done|done|done|lia|done|].
    intros s' Ht'. split; [done|]. exists (alloc_view v b), (log_add b (log_add (bmblock v b) L)). split_and!.
    + done.
    + intros x. rewrite !elem_of_log_add. tauto.
    + unfold alloc_view. by rewrite disk_upd_eq.
    + intros c [Hc Hcs]. by apply (used_alloc g).
    + intros x ??. by apply alloc_view_other.
  - intros Hall. eapply balloc_full; [done|done|done|done|done| |done]. by eapply fits_room.
Qed.

(** Allocating a block and freeing it again leaves the free bitmap, and every
    block but the one that was zeroed, as it was. *)
Theorem balloc_bfree_roundtrip s d0 ws0 v L b :
  tx g s d0 ws0 v L ∅ → layout_ok g v → fits g L ∅ 4 → first_free v b → b < g_start g →
  Forall is_byte (v (bmblock v b)) →
  wp (r ← balloc ROOTDEV; bfree ROOTDEV r) (λ _ s', ∃ v' L', tx g s' d0 ws0 v' L' ∅ ∧
    ∀ x, v' x = if decide (x = b) then zero_block else v x) s.
Proof.
  intros Ht Hl F Hf Hlt Hby. pose proof Hl as (H1 & Hbm & _). pose proof Hf as (Hb & _).
  pose proof (first_free_above g v b Hl Hf) as (_ & Hbb & _).
  assert (Hd : is_block (v (bmblock v b))).
  { eapply tx_block; [done|]. destruct Hbm as [Hni Hx]. pose proof (Hx b Hb). pose proof (bmblock_pos v b ltac:(lia) Hni). lia. }
  assert (Hsb : alloc_view v b 1 = v 1) by by eapply sb_alloc.
  assert (Hnm : ∀ v : Z → block, no_meta v ∅) by (intros w x c; by rewrite lookup_empty).
  destruct (fits_alloc g L ∅ (bmblock v b) (fits_le g L ∅ 4 3 F ltac:(lia))).
  apply wp_bind. eapply balloc_run; [done|done|done|done|done|done|done|done|done|lia|done|].
  intros s1 Ht1. eapply bfree_run; [done|done|done| |done| | | |].
  - unfold bitmap_ok, bmblock. rewrite Hsb. exact Hbm.
  - eapply fits_add, fits_add. done.
  - by rewrite Hsb.
  - rewrite (used_alloc g) by (done || lia). by rewrite decide_True.
  - intros s2 Ht2. eexists _, _. split; [exact Ht2|].
    intros x. rewrite (free_alloc g) by done. unfold disk_upd. destruct (Z.eqb_spec x b); by case_decide.
Qed.
End claims.
