(* ===== verification/FsFile.v ===== *)
(** * The contents of files: [bmap], [readi] and [writei]

    The blocks of a file form a tree: ten data blocks and three index blocks in
    the inode, one of which points to more index blocks.  [addr_at] is the
    address at a place of that tree, [tree_ok] says that the addresses in use
    are allocated data blocks and pairwise different.  [bmap] finds the block
    of a place or allocates it without disturbing any other place; [readi] and
    [writei] read and write the bytes of the file. *)

From stdpp Require Import base numbers list strings gmap.
From Stdlib Require Import ZArith Lia.
From S2P Require Import Prelude Blocks Log Spinlock Fs FsBlock.

#[local] Open Scope Z_scope.

(** ** The tree of a file *)

(** The places of the tree: index blocks 0, 1, 2 are those of the inode, 3 and
    up those under the doubly-indirect block; data blocks by number. *)
Inductive place := Idx (k : Z) | Dat (bn : Z).

#[export] Instance place_eq_dec : EqDecision place.
Proof. solve_decision. Defined.

Definition valid_place (p : place) : Prop :=
  match p with Idx k => 0 ≤ k < 3 + PTRS_PER_BLOCK | Dat bn => 0 ≤ bn < MAXFILE end.

(** Entry [e] of the index block at [a]; 0 if there is no such block. *)
Definition entry (v : Z → block) (a e : Z) : Z := if a =? 0 then 0 else get_u32 (slot_of e) (v a).

(** The place of the index block that holds the address of data block [bn], and
    the entry there. *)
Definition index_of (bn : Z) : Z :=
  let n := bn - Z.of_nat NDIRECT in
  if n <? NINDIRECT then n / PTRS_PER_BLOCK else 3 + (n - NINDIRECT) / PTRS_PER_BLOCK.
Definition entry_of (bn : Z) : Z :=
  let n := bn - Z.of_nat NDIRECT in
  if n <? NINDIRECT then n `mod` PTRS_PER_BLOCK else (n - NINDIRECT) `mod` PTRS_PER_BLOCK.

Definition idx_at (v : Z → block) (x : inode) (k : Z) : Z :=
  if k <? 3 then nth (NDIRECT + Z.to_nat k) (i_addrs x) 0
  else entry v (nth (NDIRECT + NUM_INDIRECT) (i_addrs x) 0) (k - 3).

Definition addr_at (v : Z → block) (x : inode) (p : place) : Z :=
  match p with
  | Idx k => idx_at v x k
  | Dat bn => if bn <? Z.of_nat NDIRECT then nth (Z.to_nat bn) (i_addrs x) 0
              else entry v (idx_at v x (index_of bn)) (entry_of bn)
  end.

(** A block that a file can own: above the bitmap, below the log, allocated. *)
Definition data_block (g : geom) (v : Z → block) (b : Z) : Prop :=
  bmblock v (sb_size (sb_of (v 1)) - 1) < b < sb_size (sb_of (v 1)) ∧ b < g_start g ∧ used v b = true.

Record tree_ok (g : geom) (v : Z → block) (x : inode) : Prop := {
  tr_dev : i_dev x = ROOTDEV;
  tr_len : length (i_addrs x) = NADDRS;
  tr_data p : valid_place p → addr_at v x p ≠ 0 → data_block g v (addr_at v x p);
  tr_inj p q : valid_place p → valid_place q → addr_at v x p ≠ 0 → addr_at v x p = addr_at v x q → p = q;
}.

(** ** Arithmetic of places *)

Lemma index_of_range bn : Z.of_nat NDIRECT ≤ bn < MAXFILE →
  0 ≤ index_of bn < 3 + PTRS_PER_BLOCK ∧ 0 ≤ entry_of bn < PTRS_PER_BLOCK ∧ index_of bn ≠ 2.
Proof.
  unfold index_of, entry_of, MAXFILE, NINDIRECT, NDOUBLE, NUM_INDIRECT, NUM_DOUBLE_INDIRECT, NDIRECT, PTRS_PER_BLOCK.
  intros H. change (512 / 4) with 128 in *. destruct (Z.ltb_spec (bn - Z.of_nat 10) (Z.of_nat 2 * 128)).
  - assert (0 ≤ (bn - Z.of_nat 10) / 128 < 2) by (split; [apply Z.div_pos|apply Z.div_lt_upper_bound]; lia).
    pose proof (Z.mod_pos_bound (bn - Z.of_nat 10) 128). lia.
  - assert (0 ≤ (bn - Z.of_nat 10 - Z.of_nat 2 * 128) / 128 < 128)
      by (split; [apply Z.div_pos|apply Z.div_lt_upper_bound]; lia).
    pose proof (Z.mod_pos_bound (bn - Z.of_nat 10 - Z.of_nat 2 * 128) 128). lia.
Qed.

Lemma index_entry_inj bn bn' : Z.of_nat NDIRECT ≤ bn < MAXFILE → Z.of_nat NDIRECT ≤ bn' < MAXFILE →
  index_of bn = index_of bn' → entry_of bn = entry_of bn' → bn = bn'.
Proof.
  unfold index_of, entry_of, MAXFILE, NINDIRECT, NDOUBLE, NUM_INDIRECT, NUM_DOUBLE_INDIRECT, NDIRECT, PTRS_PER_BLOCK.
  change (512 / 4) with 128. intros Hb Hb'.
  set (n := bn - Z.of_nat 10). set (n' := bn' - Z.of_nat 10).
  pose proof (Z.div_mod n 128 ltac:(lia)). pose proof (Z.div_mod n' 128 ltac:(lia)).
  pose proof (Z.div_mod (n - Z.of_nat 2 * 128) 128 ltac:(lia)). pose proof (Z.div_mod (n' - Z.of_nat 2 * 128) 128 ltac:(lia)).
  destruct (Z.ltb_spec n (Z.of_nat 2 * 128)), (Z.ltb_spec n' (Z.of_nat 2 * 128)); intros E1 E2; try lia.
Qed.

Lemma slot_bound e : 0 ≤ e < PTRS_PER_BLOCK → (slot_of e + 4 ≤ BSIZE)%nat.
Proof. unfold slot_of, PTRS_PER_BLOCK, BSIZE. change (512 / 4) with 128. lia. Qed.

Lemma nth_replicate_same (n k : nat) (x : Z) : nth k (replicate n x) x = x.
Proof. revert k. induction n; intros [|k]; simpl; auto. Qed.

Lemma entry_zero v e a : v a = zero_block → entry v a e = 0.
Proof.
  intros E. unfold entry. case_match; [done|]. rewrite E. unfold get_u32, slice, zero_block.
  rewrite drop_replicate, take_replicate. generalize (4 `min` (BSIZE - slot_of e))%nat. intros n.
  induction n as [|n IH]; [done|]. cbn [replicate le_val]. by rewrite IH.
Qed.

Lemma entry_put_same v a e b d :
  0 ≤ e < PTRS_PER_BLOCK → is_block d → a ≠ 0 → 0 ≤ b < 2^32 →
  v a = put_u32 (slot_of e) b d → entry v a e = b.
Proof.
  intros He Hd Ha Hb E. unfold entry. rewrite (proj2 (Z.eqb_neq _ _)) by done.
  rewrite E, get_put_u32_same, w32_small; [done..|]. rewrite Hd. by apply slot_bound.
Qed.

Lemma entry_put_other v v0 a e e' b :
  0 ≤ e < PTRS_PER_BLOCK → 0 ≤ e' < PTRS_PER_BLOCK → e ≠ e' → is_block (v0 a) →
  v a = put_u32 (slot_of e) b (v0 a) → entry v a e' = entry v0 a e'.
Proof.
  intros He He' Hne Hd E. unfold entry. case_match; [done|]. rewrite E, get_put_u32_other; [done|..].
  all: try (rewrite Hd; by apply slot_bound). unfold slot_of. lia.
Qed.

(** ** Allocation at a place *)

Section trees.
Context (g : geom).
Implicit Types (v : Z → block) (x : inode).

Lemma alloc_view_data v b a :
  layout_ok g v → first_free v b → data_block g v a → alloc_view v b a = v a.
Proof.
  intros (H1 & [Hni Hbm] & _ & Hmeta) Hf Ha. pose proof Hf as (Hb & Hu & _). destruct Ha as (Ha & _ & Hau).
  apply alloc_view_other; [intros ->; congruence|].
  pose proof (bmblock_mono v b (sb_size (sb_of (v 1)) - 1) ltac:(lia)). lia.
Qed.

Lemma entry_same v v' a e : v' a = v a → entry v' a e = entry v a e.
Proof. intros E. unfold entry. by rewrite E. Qed.

(** A view in which [b] is newly allocated and the other data blocks keep their
    places: the address at [p] becomes [b], the other addresses stay. *)
Lemma tree_grow v v' x x' b p :
  tree_ok g v x → layout_ok g v → first_free v b → b < g_start g →
  sb_of (v' 1) = sb_of (v 1) →
  (∀ c, 0 ≤ c < sb_size (sb_of (v 1)) → used v' c = if decide (c = b) then true else used v c) →
  i_dev x' = i_dev x → length (i_addrs x') = length (i_addrs x) →
  addr_at v x p = 0 →
  (∀ q, valid_place q → q ≠ p → addr_at v' x' q = addr_at v x q) → addr_at v' x' p = b →
  tree_ok g v' x'.
Proof.
  intros Ht Hl Hf Hlt Hsb Hu Hdev Hlen H0 Ho Hp.
  pose proof (first_free_above g v b Hl Hf) as (? & ? & Hall). pose proof Hf as (Hb & Hbu & _).
  assert (Hdb : ∀ a, data_block g v a → data_block g v' a).
  { intros a ((? & ?) & ? & ?). pose proof (Hall (sb_size (sb_of (v 1)) - 1)).
    unfold data_block, bmblock in *. rewrite Hsb. split_and!; [done..|].
    destruct Hl as (_ & [Hni _] & _). pose proof (bmblock_pos v (sb_size (sb_of (v 1)) - 1) ltac:(lia) Hni).
    unfold bmblock in *. rewrite Hu by lia. by case_decide. }
  assert (Hnew : data_block g v' b).
  { unfold data_block, bmblock. rewrite Hsb. pose proof (Hall (sb_size (sb_of (v 1)) - 1) ltac:(lia)).
    unfold bmblock in *. rewrite Hu, decide_True by (done || lia). split_and!; (done || lia). }
  assert (Hnot : ∀ q, valid_place q → addr_at v x q ≠ 0 → addr_at v x q ≠ b).
  { intros q Hq Hne E. destruct (tr_data _ _ _ Ht q Hq Hne) as (_ & _ & E'). rewrite E in E'. congruence. }
  split.
  - rewrite Hdev. apply Ht.
  - rewrite Hlen. apply Ht.
  - intros q Hq. destruct (decide (q = p)) as [->|Hne]; [by rewrite Hp|]. rewrite Ho by done. intros ?. by apply Hdb, Ht.
  - intros q r Hq Hr. destruct (decide (q = p)) as [->|Hqp], (decide (r = p)) as [->|Hrp]; [done|..].
    + rewrite Hp, (Ho r) by done. intros _ E. destruct (decide (addr_at v x r = 0)) as [Z0|Z0]; [lia|].
      by destruct (Hnot r Hr Z0).
    + rewrite Hp, (Ho q) by done. intros Z0 E. by destruct (Hnot q Hq Z0).
    + rewrite !Ho by done. by apply Ht.
Qed.

(** [addr_or_alloc] at a direct data block. *)
Lemma grow_direct v x b k :
  tree_ok g v x → layout_ok g v → first_free v b → b < g_start g → (k < NDIRECT)%nat →
  nth k (i_addrs x) 0 = 0 →
  let x' := set_i_addrs (<[k := b]> (i_addrs x)) x in let v' := alloc_view v b in
  (∀ q, valid_place q → q ≠ Dat (Z.of_nat k) → addr_at v' x' q = addr_at v x q) ∧
  addr_at v' x' (Dat (Z.of_nat k)) = b.
Proof.
  intros Ht Hl Hf Hlt Hk H0 x' v'. pose proof (tr_len _ _ _ Ht) as Hlen. unfold NADDRS, NDIRECT, NUM_INDIRECT, NUM_DOUBLE_INDIRECT in *.
  assert (Hidx : ∀ j, (10 ≤ j)%nat → nth j (i_addrs x') 0 = nth j (i_addrs x) 0).
  { intros j Hj. simpl. by rewrite nth_insert_ne by lia. }
  assert (He : ∀ q e, valid_place q → entry v' (addr_at v x q) e = entry v (addr_at v x q) e).
  { intros q e Hq. destruct (decide (addr_at v x q = 0)) as [->|Hne]; [done|].
    apply entry_same. apply alloc_view_data; [done..|]. by apply Ht. }
  assert (Hi : ∀ κ, 0 ≤ κ < 3 + PTRS_PER_BLOCK → idx_at v' x' κ = idx_at v x κ).
  { intros κ Hκ. unfold idx_at, NDIRECT, NUM_INDIRECT. case_match; rewrite Hidx by lia; [done|]. apply (He (Idx 2)). done. }
  split.
  - intros [κ|bn] Hq Hne; [by apply Hi|]. simpl. unfold NDIRECT in *. destruct (Z.ltb_spec bn (Z.of_nat 10)) as [Hd|Hd].
    + apply nth_insert_ne. intros ->. apply Hne. f_equal. simpl in Hq. lia.
    + pose proof (index_of_range bn) as Hr. unfold NDIRECT in Hr. simpl in Hq. destruct Hr as (Hr & _ & _); [lia|].
      rewrite Hi by done. by apply (He (Idx (index_of bn))).
  - simpl. unfold NDIRECT. rewrite (proj2 (Z.ltb_lt _ _)), Nat2Z.id by lia. apply nth_insert_eq. lia.
Qed.

(** [addr_or_alloc] at an index block of the inode: no data address changes. *)
Lemma grow_index v x b κ :
  tree_ok g v x → layout_ok g v → first_free v b → b < g_start g → 0 ≤ κ < 3 →
  idx_at v x κ = 0 →
  let x' := set_i_addrs (<[(NDIRECT + Z.to_nat κ)%nat := b]> (i_addrs x)) x in let v' := alloc_view v b in
  (∀ q, valid_place q → q ≠ Idx κ → addr_at v' x' q = addr_at v x q) ∧ addr_at v' x' (Idx κ) = b.
Proof.
  intros Ht Hl Hf Hlt Hκ H0 x' v'. pose proof (tr_len _ _ _ Ht) as Hlen.
  assert (Hzb : ∀ e, entry v' b e = 0) by (intros e; apply entry_zero; unfold v', alloc_view; apply disk_upd_eq).
  assert (Hself : idx_at v' x' κ = b).
  { unfold idx_at. rewrite (proj2 (Z.ltb_lt _ _)) by lia. apply nth_insert_eq. unfold NADDRS, NDIRECT, NUM_INDIRECT, NUM_DOUBLE_INDIRECT in *. lia. }
  assert (He : ∀ q e, valid_place q → entry v' (addr_at v x q) e = entry v (addr_at v x q) e).
  { intros q e Hq. destruct (decide (addr_at v x q = 0)) as [->|Hne]; [done|].
    apply entry_same, alloc_view_data; [done..|]. by apply Ht. }
  assert (Hlow : ∀ j, j ≠ (NDIRECT + Z.to_nat κ)%nat → nth j (i_addrs x') 0 = nth j (i_addrs x) 0).
  { intros j Hj. by apply nth_insert_ne. }
  assert (Hi : ∀ κ', 0 ≤ κ' < 3 + PTRS_PER_BLOCK → κ' ≠ κ → idx_at v' x' κ' = idx_at v x κ').
  { intros κ' Hκ' Hne. unfold idx_at. destruct (Z.ltb_spec κ' 3); [apply Hlow; lia|].
    destruct (decide (κ = 2)) as [->|Hn2].
    - change (entry v' (idx_at v' x' 2) (κ' - 3) = entry v (idx_at v x 2) (κ' - 3)).
      by rewrite Hself, Hzb, H0.
    - rewrite Hlow by (unfold NUM_INDIRECT; lia). by apply (He (Idx 2)). }
  split; [|exact Hself]. intros [κ'|bn] Hq Hne; [apply Hi; [done|congruence]|]. cbn [addr_at].
  simpl in Hq. destruct (Z.ltb_spec bn (Z.of_nat NDIRECT)) as [Hd|Hd]; [apply Hlow; lia|].
  destruct (index_of_range bn) as (Hr & _ & _); [lia|]. destruct (decide (index_of bn = κ)) as [->|Hk].
  - by rewrite Hself, Hzb, H0.
  - rewrite Hi by done. by apply (He (Idx (index_of bn))).
Qed.

(** The place that entry [e] of index block [κ] stands for. *)
Definition entry_place (κ e : Z) (p : place) : Prop :=
  (κ = 2 ∧ p = Idx (3 + e)) ∨
  (κ ≠ 2 ∧ ∃ bn, p = Dat bn ∧ Z.of_nat NDIRECT ≤ bn < MAXFILE ∧ index_of bn = κ ∧ entry_of bn = e).

Lemma entry_place_addr v x κ e p :
  entry_place κ e p → 0 ≤ e → addr_at v x p = entry v (idx_at v x κ) e.
Proof.
  intros [[-> ->]|(Hn & bn & -> & Hb & <- & <-)] He; cbn [addr_at].
  - unfold idx_at at 1. rewrite (proj2 (Z.ltb_ge _ _)) by lia. unfold idx_at. simpl. f_equal. lia.
  - by rewrite (proj2 (Z.ltb_ge _ _)) by lia.
Qed.

Lemma entry_place_valid κ e p : entry_place κ e p → 0 ≤ e < PTRS_PER_BLOCK → valid_place p.
Proof. intros [[-> ->]|(Hn & bn & -> & Hb & _)] He; unfold valid_place, NDIRECT in *; lia. Qed.

(** [entry_or_alloc] in the index block at [a]. *)
Lemma grow_entry v x b κ e p :
  tree_ok g v x → layout_ok g v → first_free v b → b < g_start g → 0 ≤ κ < 3 + PTRS_PER_BLOCK →
  0 ≤ e < PTRS_PER_BLOCK → entry_place κ e p → idx_at v x κ ≠ 0 → is_block (v (idx_at v x κ)) → b < 2^32 →
  entry v (idx_at v x κ) e = 0 →
  let a := idx_at v x κ in
  let v' := disk_upd (alloc_view v b) a (put_u32 (slot_of e) b (v a)) in
  (∀ q, valid_place q → q ≠ p → addr_at v' x q = addr_at v x q) ∧ addr_at v' x p = b.
Proof.
  intros Ht Hl Hf Hlt Hκ He Hp Ha Hblk Hb32 H0 a v'. pose proof Hf as ([Hb _] & Hu & _).
  assert (Hda : data_block g v a) by (by apply (tr_data _ _ _ Ht (Idx κ))).
  assert (Hab : b ≠ a) by (intros ->; destruct Hda as (_ & _ & ?); congruence).
  assert (Eb : ∀ e', entry v' b e' = 0).
  { intros e'. apply entry_zero. unfold v'. rewrite disk_upd_ne by done. unfold alloc_view. apply disk_upd_eq. }
  assert (Ea : entry v' a e = b) by (eapply entry_put_same; [done|exact Hblk|done|lia|unfold v'; by rewrite disk_upd_eq]).
  assert (Eo : ∀ e', 0 ≤ e' < PTRS_PER_BLOCK → e' ≠ e → entry v' a e' = entry v a e').
  { intros e' ??. apply (entry_put_other _ _ _ e _ b); [done..|]. unfold v'. by rewrite disk_upd_eq. }
  assert (Hf' : ∀ κ' e', 0 ≤ κ' < 3 + PTRS_PER_BLOCK → κ' ≠ κ → entry v' (idx_at v x κ') e' = entry v (idx_at v x κ') e').
  { intros κ' e' Hk Hne. destruct (decide (idx_at v x κ' = 0)) as [->|Hz]; [done|].
    assert (Hna : idx_at v x κ' ≠ a).
    { intros E. apply Hne. assert (Idx κ' = Idx κ) as [= ->] by (by apply Ht). done. }
    apply entry_same. unfold v'. rewrite disk_upd_ne by done. apply alloc_view_data; [done..|].
    by apply (tr_data _ _ _ Ht (Idx κ')). }
  assert (Hi : ∀ κ', 0 ≤ κ' < 3 + PTRS_PER_BLOCK → ¬ (κ = 2 ∧ κ' = 3 + e) → idx_at v' x κ' = idx_at v x κ').
  { intros κ' Hk Hn. unfold idx_at. destruct (Z.ltb_spec κ' 3) as [|Hge]; [done|].
    change (nth _ _ _) with (idx_at v x 2). destruct (decide (κ = 2)) as [->|Hn2].
    - apply Eo; lia.
    - apply Hf'; [by compute|done]. }
  assert (Hself : κ = 2 → idx_at v' x (3 + e) = b).
  { intros ->. unfold idx_at. rewrite (proj2 (Z.ltb_ge _ _)) by lia. change (nth _ _ _) with a.
    by replace (3 + e - 3) with e by lia. }
  split.
  - intros [κ'|bn] Hq Hne; cbn [addr_at].
    + apply Hi; [done|]. intros [-> ->]. destruct Hp as [[_ ->]|[? _]]; done.
    + destruct (Z.ltb_spec bn (Z.of_nat NDIRECT)) as [|Hge]; [done|]. simpl in Hq.
      destruct (index_of_range bn) as (Hr & Hre & Hr2); [lia|].
      destruct (decide (κ = 2 ∧ index_of bn = 3 + e)) as [[Hk2 E]|Hn].
      * rewrite E, Hself, Eb by done. subst κ. unfold idx_at. rewrite (proj2 (Z.ltb_ge _ _)) by lia.
        change (nth _ _ _) with a. replace (3 + e - 3) with e by lia. fold a in H0. by rewrite H0.
      * rewrite Hi by done. destruct (decide (index_of bn = κ)) as [E|Hk]; [|by apply Hf'].
        rewrite E. apply Eo; [done|]. intros Ee. apply Hne.
        destruct Hp as [[-> _]|(_ & bn' & -> & Hb' & E1 & E2)]; [done|]. f_equal. apply index_entry_inj; [lia|done|congruence..].
  - destruct Hp as [[Hk2 ->]|(Hn & bn & -> & Hbn & E1 & E2)]; cbn [addr_at]; [by apply Hself|].
    rewrite (proj2 (Z.ltb_ge _ _)) by lia. rewrite E1, E2, Hi; [exact Ea|done|]. intros [? _]. done.
Qed.
End trees.

(** ** Free blocks *)

Section avail.
Context (g : geom) (BM : Z).
Implicit Types (v : Z → block).

(** At least [n] blocks below the log are free whose bits are in block [BM]. *)
Definition avail v (n : nat) : Prop :=
  ∃ l, length l = n ∧ NoDup l ∧
    Forall (λ b, 0 ≤ b < sb_size (sb_of (v 1)) ∧ b < g_start g ∧ bmblock v b = BM ∧ used v b = false) l.

(** [BM] is the first block of the bitmap with a free block in it. *)
Definition bitmap_at v : Prop :=
  (∃ c, 0 ≤ c < sb_size (sb_of (v 1)) ∧ bmblock v c = BM) ∧
  ∀ c, 0 ≤ c < sb_size (sb_of (v 1)) → bmblock v c < BM → used v c = true.

Lemma bitmap_at_ext v v' :
  v' 1 = v 1 → (∀ c, 0 ≤ c < sb_size (sb_of (v 1)) → used v c = true → used v' c = true) → bitmap_at v → bitmap_at v'.
Proof. intros E Hu [Hc Hl]. unfold bitmap_at, bmblock in *. rewrite E. split; [done|]. auto. Qed.

Lemma bitmap_top v c : bitmap_at v → data_block g v c → BM < c.
Proof.
  intros [(b & Hb & <-) _] ((Hlo & _) & _). pose proof (bmblock_mono v b (sb_size (sb_of (v 1)) - 1) ltac:(lia)). lia.
Qed.

Lemma lowest_free v n : 0 ≤ n →
  (∀ c, 0 ≤ c < n → used v c = true) ∨ ∃ b, 0 ≤ b < n ∧ used v b = false ∧ ∀ c, 0 ≤ c < b → used v c = true.
Proof.
  intros Hn. pattern n. apply natlike_ind; [left; lia| |done]. clear n Hn. intros n Hn [Hall|(b & ? & ?)].
  - destruct (used v n) eqn:E; [left|right; exists n; split; [lia|by split]].
    intros c Hc. destruct (decide (c = n)) as [->|]; [done|]. apply Hall. lia.
  - right. exists b. split; [lia|done].
Qed.

Lemma avail_first v n : bitmap_at v → avail v (Datatypes.S n) → ∃ b, first_free v b ∧ b < g_start g ∧ bmblock v b = BM.
Proof.
  intros [_ Hat] (l & Hlen & _ & HF). destruct l as [|c l]; [done|]. apply Forall_cons in HF as [(Hc & Hcg & Hcb & Hu) _].
  destruct (lowest_free v (c + 1) ltac:(lia)) as [Hall|(b & Hb & Hbu & Hlow)].
  - rewrite Hall in Hu by lia. done.
  - exists b. unfold first_free. split_and!; [lia..|done|done|lia|].
    pose proof (bmblock_mono v b c ltac:(lia)). destruct (Z.lt_ge_cases (bmblock v b) BM) as [Hlt|]; [|lia].
    rewrite Hat in Hbu by (done || lia). done.
Qed.

Lemma filter_ne_length (b : Z) l : NoDup l → (length l ≤ Datatypes.S (length (filter (λ c, c ≠ b) l)))%nat.
Proof.
  induction 1 as [|c l Hc Hnd IH]; [simpl; lia|]. rewrite filter_cons. case_decide as E; simpl; [lia|].
  subst c. by rewrite filter_ne_notin.
Qed.

Lemma avail_next v v' b n :
  avail v (Datatypes.S n) → sb_of (v' 1) = sb_of (v 1) →
  (∀ c, 0 ≤ c < sb_size (sb_of (v 1)) → used v' c = if decide (c = b) then true else used v c) →
  avail v' n.
Proof.
  intros (l & Hlen & Hnd & HF) Hsb Hu.
  assert (Hl' : ∀ l, NoDup l → Forall (λ c, 0 ≤ c < sb_size (sb_of (v 1)) ∧ c < g_start g ∧ bmblock v c = BM ∧ used v c = false ∧ c ≠ b) l →
    avail v' (length l)).
  { clear l Hlen Hnd HF. intros l Hnd HF. exists l. split_and!; [done|done|]. eapply Forall_impl; [exact HF|].
    intros c (? & ? & ? & ? & ?). cbn beta. unfold bmblock in *. rewrite Hsb, Hu, decide_False by done. done. }
  assert (Hfil : Forall (λ c, 0 ≤ c < sb_size (sb_of (v 1)) ∧ c < g_start g ∧ bmblock v c = BM ∧ used v c = false ∧ c ≠ b)
    (filter (λ c, c ≠ b) l)).
  { apply Forall_forall. intros c [Hc Hin]%list_elem_of_filter. rewrite Forall_forall in HF. naive_solver. }
  assert (Hge : (n ≤ length (filter (λ c, c ≠ b) l))%nat).
  { pose proof (filter_ne_length b l Hnd). lia. }
  destruct (Hl' _ (NoDup_filter _ _ Hnd) Hfil) as (m & Hm & Hmd & HmF). exists (take n m). split_and!.
  - rewrite length_take. lia.
  - rewrite <- (take_drop n m) in Hmd. by apply NoDup_app in Hmd as [? _].
  - by apply Forall_take.
Qed.

Lemma avail_le v n m : avail v n → (m ≤ n)%nat → avail v m.
Proof.
  intros (l & Hl & Hnd & HF) Hm. exists (take m l). split_and!.
  - rewrite length_take. lia.
  - rewrite <- (take_drop m l) in Hnd. by apply NoDup_app in Hnd as [? _].
  - by apply Forall_take.
Qed.
End avail.

(** ** The rules of a transaction, with the inode cache *)

Section rules.
Context {S : Type} {BO : BufOps S} {BC : BufCache S}.
Context (g : geom) (Hg : geom_ok g).
Implicit Types (s : fs S) (v : Z → block) (L : list Z) (H : gmap nat Z) (ic : nat → inode).

Definition ftx s d0 ws0 v L H ic : Prop :=
  tx g (fs_log s) d0 ws0 v L H ∧ ∀ j, icache s j = ic j.

Lemma f_bread s d0 ws0 v L H ic x (Q : nat → fs S → Prop) :
  ftx s d0 ws0 v L H ic → 0 ≤ x < g_start g → (∀ b, H !! b ≠ Some x) →
  (base.size H + length L < NBUF)%nat →
  (∀ b s', H !! b = None → ftx s' d0 ws0 v L (<[b := x]> H) ic → Q b s') →
  wp (cache (bread ROOTDEV x)) Q s.
Proof. intros [Ht Hic] Hx Hn Hr HQ. apply wp_zoom. eapply rule_bread; [done..|]. intros b l Hb Ht'. by apply HQ. Qed.

Lemma f_data s d0 ws0 v L H ic b x (Q : block → fs S → Prop) :
  ftx s d0 ws0 v L H ic → H !! b = Some x → (is_block (v x) → Q (v x) s) → wp (cache (buf_data b)) Q s.
Proof. intros [Ht Hic] Hb HQ. apply wp_zoom. eapply rule_data; [done..|]. destruct s. exact HQ. Qed.

Lemma f_brelse s d0 ws0 v L H ic b x (Q : unit → fs S → Prop) :
  ftx s d0 ws0 v L H ic → H !! b = Some x →
  (∀ s', ftx s' d0 ws0 v L (delete b H) ic → Q tt s') → wp (cache (brelse b)) Q s.
Proof. intros [Ht Hic] Hb HQ. apply wp_zoom. eapply rule_brelse; [done..|]. intros l Ht'. by apply HQ. Qed.

Lemma f_store {A} s d0 ws0 v L H ic b x u (k : unit → M (fs S) A) (Q : A → fs S → Prop) :
  ftx s d0 ws0 v L H ic → H !! b = Some x → is_block u → fits g L H 1 →
  (∀ s', ftx s' d0 ws0 (disk_upd v x u) (log_add x L) H ic → wp (k tt) Q s') →
  wp (cache (buf_set_data b u);; (below (log_write b) ≫= k)) Q s.
Proof.
  intros [Ht Hic] Hb Hu F HQ.
  assert (Hw : wp (lift (buf_set_data b u);; (log_write b ≫= mret)) (λ _ l, wp (k tt) Q (mkFs l (ic_lock s) (icache s) (ic_woken s))) (fs_log s)).
  { eapply rule_store; [done..|]. intros l Ht'. apply wp_ret, HQ. by split. }
  revert Hw. unfold wp, cache, below, zoom, mbind, M_bind, mret, M_ret.
  destruct (lift (buf_set_data b u) (fs_log s)) as [[] l|?|?|?|]; [|done..]. simpl.
  destruct (log_write b l) as [[] l'|?|?|?|]; [|done..]. done.
Qed.

Lemma f_inode s d0 ws0 v L H ic i (Q : inode → fs S → Prop) :
  ftx s d0 ws0 v L H ic → Q (ic i) s → wp (the_inode i) Q s.
Proof. intros [_ Hic] HQ. apply wp_gets. by rewrite Hic. Qed.

Lemma f_upd_inode s d0 ws0 v L H ic i f (Q : unit → fs S → Prop) :
  ftx s d0 ws0 v L H ic → (∀ s', ftx s' d0 ws0 v L H (upd ic i (f (ic i))) → Q tt s') →
  wp (upd_inode i f) Q s.
Proof.
  intros [Ht Hic] HQ. apply wp_modify, HQ. split; [done|]. intros j. simpl. unfold upd. by rewrite !Hic.
Qed.

Lemma f_balloc s d0 ws0 v L H ic b (Q : Z → fs S → Prop) :
  ftx s d0 ws0 v L H ic → layout_ok g v → no_meta v H → fits1 g L H → fits1 g (log_add (bmblock v b) L) H →
  first_free v b → b < g_start g → (∀ x, H !! x ≠ Some b) →
  (∀ s', ftx s' d0 ws0 (alloc_view v b) (log_add b (log_add (bmblock v b) L)) H ic → Q b s') →
  wp (below (balloc ROOTDEV)) Q s.
Proof.
  intros [Ht Hic] Hl Hnm F1 F2 Hf Hlt Hnh HQ. pose proof Hl as (H1 & Hbm & _).
  pose proof (first_free_above g v b Hl Hf) as (_ & Hbb & _). apply wp_zoom.
  eapply balloc_run; [done|done|done|done|done|done|done|done|done|lia|done|]. intros l Ht'. by apply HQ.
Qed.
End rules.

(** ** [bmap] *)

(** What an operation on file [x] may do to its tree while it works towards
    data block [bn]: allocate blocks, and change no other data address. *)
Record grown (g : geom) (BM bn : Z) (v : Z → block) (x : inode) (v' : Z → block) (x' : inode) : Prop := {
  gr_tree : tree_ok g v' x';
  gr_layout : layout_ok g v';
  gr_sb : v' 1 = v 1;
  gr_inode : x' = set_i_addrs (i_addrs x') x;
  gr_used c : 0 ≤ c < sb_size (sb_of (v 1)) → used v c = true → used v' c = true;
  gr_idx k : 0 ≤ k < 3 + PTRS_PER_BLOCK →
    idx_at v' x' k = idx_at v x k ∨ used v (idx_at v' x' k) = false;
  gr_dat c : 0 ≤ c < MAXFILE → c ≠ bn → addr_at v' x' (Dat c) = addr_at v x (Dat c);
  gr_bn : addr_at v' x' (Dat bn) = addr_at v x (Dat bn) ∨
    (addr_at v x (Dat bn) = 0 ∧ used v (addr_at v' x' (Dat bn)) = false ∧ v' (addr_at v' x' (Dat bn)) = zero_block);
  gr_data c : data_block g v c → (∀ k, 0 ≤ k < 3 + PTRS_PER_BLOCK → idx_at v x k ≠ c) → v' c = v c;
  gr_low c : 0 ≤ c ≤ bmblock v (sb_size (sb_of (v 1)) - 1) → c ≠ BM → v' c = v c;
}.

Lemma grown_refl g BM bn v x : tree_ok g v x → layout_ok g v → grown g BM bn v x v x.
Proof. intros Ht Hl. split; auto. by destruct x. Qed.

Lemma data_block_mono g v v' c :
  layout_ok g v → sb_of (v' 1) = sb_of (v 1) →
  (0 ≤ c < sb_size (sb_of (v 1)) → used v c = true → used v' c = true) →
  data_block g v c → data_block g v' c.
Proof.
  intros Hl E Hu ((? & ?) & ? & ?). pose proof (layout_top g v Hl).
  unfold data_block, bmblock in *. rewrite E. split_and!; try done. apply Hu; [lia|done].
Qed.

Lemma used_zero g v : layout_ok g v → used v 0 = true.
Proof. intros Hl. pose proof (layout_top g v Hl). destruct Hl as (_ & _ & _ & Hm). apply Hm. lia. Qed.

Lemma grown_trans g BM bn v x v1 x1 v2 x2 :
  tree_ok g v x → layout_ok g v →
  grown g BM bn v x v1 x1 → grown g BM bn v1 x1 v2 x2 → 0 ≤ bn < MAXFILE → grown g BM bn v x v2 x2.
Proof.
  intros Ht Hl G1 G2 Hbn. pose proof (layout_top g v Hl) as Htop.
  assert (Hsb : sb_of (v1 1) = sb_of (v 1)) by (by rewrite (gr_sb _ _ _ _ _ _ _ G1)).
  assert (Hold : ∀ a, used v1 a = false → 0 ≤ a < sb_size (sb_of (v 1)) → used v a = false).
  { intros a E Ha. destruct (used v a) eqn:E'; [|done]. by rewrite (gr_used _ _ _ _ _ _ _ G1 a Ha E') in E. }
  assert (Hrange : ∀ p, valid_place p → addr_at v2 x2 p = 0 ∨ 0 ≤ addr_at v2 x2 p < sb_size (sb_of (v 1))).
  { intros p Hp. destruct (decide (addr_at v2 x2 p = 0)) as [|Hne]; [by left|right].
    destruct (tr_data _ _ _ (gr_tree _ _ _ _ _ _ _ G2) p Hp Hne) as ((Hlo & Hhi) & _).
    pose proof (layout_top g v2 (gr_layout _ _ _ _ _ _ _ G2)). revert Hlo Hhi.
    rewrite (gr_sb _ _ _ _ _ _ _ G2), (gr_sb _ _ _ _ _ _ _ G1) in *. lia. }
  split.
  - apply G2.
  - apply G2.
  - by rewrite (gr_sb _ _ _ _ _ _ _ G2), (gr_sb _ _ _ _ _ _ _ G1).
  - pose proof (gr_inode _ _ _ _ _ _ _ G2) as E2. rewrite (gr_inode _ _ _ _ _ _ _ G1) in E2. rewrite E2. done.
  - intros c Hc Hu. apply (gr_used _ _ _ _ _ _ _ G2); [by rewrite Hsb|]. by apply (gr_used _ _ _ _ _ _ _ G1).
  - intros k Hk. destruct (gr_idx _ _ _ _ _ _ _ G2 k Hk) as [->|E]; [by apply G1|].
    destruct (Hrange (Idx k) Hk) as [Z0|Hr]; cbn [addr_at] in *; [|right; by apply Hold].
    rewrite Z0, (used_zero g) in E by apply G1. done.
  - intros c Hc Hne. by rewrite (gr_dat _ _ _ _ _ _ _ G2 c Hc Hne), (gr_dat _ _ _ _ _ _ _ G1 c Hc Hne).
  - destruct (gr_bn _ _ _ _ _ _ _ G2) as [E2|(E2 & U2 & Z2)].
    + rewrite E2. destruct (gr_bn _ _ _ _ _ _ _ G1) as [E1|(E1 & U1 & Z1)]; [by left|right]. split_and!; [done|done|].
      assert (Hne : addr_at v1 x1 (Dat bn) ≠ 0) by (intros Z0; rewrite Z0, (used_zero g) in U1; done).
      rewrite <- Z1. apply G2; [by apply G1|]. intros k Hk E.
      by assert (Idx k = Dat bn) by (apply (gr_tree _ _ _ _ _ _ _ G1); [done|done|cbn [addr_at]; congruence|done]).
    + destruct (gr_bn _ _ _ _ _ _ _ G1) as [E1|(E1 & U1 & Z1)].
      * right. split_and!; [congruence| |done]. destruct (Hrange (Dat bn) Hbn) as [Z0|Hr]; [|by apply Hold].
        rewrite Z0, (used_zero g) in U2 by apply G1. done.
      * by rewrite E2, (used_zero g) in U1.
  - intros c Hd Hn. rewrite (gr_data _ _ _ _ _ _ _ G2); [by apply (gr_data _ _ _ _ _ _ _ G1)| |].
    + eapply data_block_mono; [done|done|apply (gr_used _ _ _ _ _ _ _ G1)|done].
    + intros k Hk E. destruct (gr_idx _ _ _ _ _ _ _ G1 k Hk) as [E1|E1]; [apply (Hn k Hk); congruence|].
      rewrite E in E1. destruct Hd as (_ & _ & ?). congruence.
  - intros c Hc Hne. rewrite (gr_low _ _ _ _ _ _ _ G2 c); [by apply (gr_low _ _ _ _ _ _ _ G1)| |done]. unfold bmblock in *. by rewrite Hsb.
Qed.

Section grow.
Context (g : geom) (BM : Z).
Implicit Types (v : Z → block) (x : inode).

Lemma used_ext v v' c : v' 1 = v 1 → v' (bmblock v c) = v (bmblock v c) → used v' c = used v c.
Proof. intros E1 E2. unfold used. rewrite E1. fold (bmblock v c). by rewrite E2. Qed.

Lemma grown_step v x v' x' b p bn :
  tree_ok g v x → layout_ok g v → bitmap_at BM v → first_free v b → b < g_start g →
  v' 1 = v 1 → x' = set_i_addrs (i_addrs x') x → length (i_addrs x') = length (i_addrs x) →
  (∀ c, 0 ≤ c < sb_size (sb_of (v 1)) → used v' c = if decide (c = b) then true else used v c) →
  (p = Dat bn ∨ ∃ k, p = Idx k) → addr_at v x p = 0 →
  (∀ q, valid_place q → q ≠ p → addr_at v' x' q = addr_at v x q) → addr_at v' x' p = b →
  v' b = zero_block →
  (∀ c, c ≠ b → c ≠ BM → (∀ k, 0 ≤ k < 3 + PTRS_PER_BLOCK → idx_at v x k ≠ 0 → idx_at v x k ≠ c) → v' c = v c) →
  0 ≤ bn < MAXFILE → grown g BM bn v x v' x'.
Proof.
  intros Ht Hl H1 Hf Hlt Esb Ex Elen Hu Hp H0 Ho Hb Hz Hfr Hbn. pose proof (layout_top g v Hl) as Htop.
  pose proof (first_free_above g v b Hl Hf) as (Hb3 & Hbb & Hall). pose proof Hf as (Hbs & Hbu & _).
  pose proof (Hall (sb_size (sb_of (v 1)) - 1) ltac:(lia)) as Hbt.
  assert (Hsb : sb_of (v' 1) = sb_of (v 1)) by by rewrite Esb.
  assert (Hidx : ∀ c k, c ≤ bmblock v (sb_size (sb_of (v 1)) - 1) → 0 ≤ k < 3 + PTRS_PER_BLOCK → idx_at v x k ≠ 0 → idx_at v x k ≠ c).
  { intros c k Hc Hk Hne E. destruct (tr_data _ _ _ Ht (Idx k) Hk Hne) as ((? & _) & _). cbn [addr_at] in *. lia. }
  split.
  - eapply (tree_grow g v v' x x' b p); try done. by rewrite Ex.
  - pose proof Hl as (? & [Hni Hbm] & ? & Hm). unfold layout_ok, bitmap_ok, bmblock in *. rewrite Hsb. split_and!; try done.
    intros c Hc. rewrite Hu by lia. case_decide; [done|]. by apply Hm.
  - done.
  - done.
  - intros c Hc E. rewrite Hu by done. by case_decide.
  - intros k Hk. destruct (decide (p = Idx k)) as [->|Hne].
    + right. cbn [addr_at] in Hb. by rewrite Hb.
    + left. by apply (Ho (Idx k)).
  - intros c Hc Hne. apply Ho; [done|]. destruct Hp as [->|[k ->]]; congruence.
  - destruct Hp as [->|[k ->]]; [right|left; by apply Ho]. rewrite Hb. by split_and!.
  - intros c Hd Hn. apply Hfr; [intros ->; destruct Hd as (_ & _ & ?); congruence| |auto].
    intros ->. pose proof (bitmap_top g BM v BM H1 Hd). lia.
  - intros c Hc Hne. apply Hfr; [lia|done|]. intros k Hk Hz0. exact (Hidx c k (proj2 Hc) Hk Hz0).
Qed.
End grow.

Section bmap.
Context {S : Type} {BO : BufOps S} {BC : BufCache S}.
Context (g : geom) (Hg : geom_ok g) (BM : Z).
Implicit Types (s : fs S) (v : Z → block) (L : list Z) (H : gmap nat Z) (ic : nat → inode).

(** The blocks logged, counting the bitmap block as if it were logged already. *)
Definition pot L : nat := length L + if bool_decide (BM ∈ L) then 0 else 1.

(** [n] more blocks besides the bitmap block can be logged, with [H] held. *)
Definition room L H (n : nat) : Prop :=
  Z.of_nat (pot L + n) < g_size g ∧ (pot L + n ≤ LOGSIZE)%nat ∧ (base.size H + pot L + n + 1 ≤ NBUF)%nat.

Definition held_data v H : Prop := ∀ k a, H !! k = Some a → data_block g v a.

Lemma pot_log_add x L : (pot (log_add x L) ≤ pot L + if bool_decide (x ∈ L) then 0 else 1)%nat.
Proof.
  clear Hg. unfold pot, log_add. destruct (bool_decide (x ∈ L)) eqn:E; [lia|]. rewrite length_app. simpl.
  repeat case_bool_decide; set_solver by lia.
Qed.

Lemma pot_alloc b L : (pot (log_add b (log_add BM L)) ≤ pot L + 1)%nat ∧ BM ∈ log_add b (log_add BM L) ∧
  b ∈ log_add b (log_add BM L) ∧ L ⊆ log_add b (log_add BM L).
Proof.
  clear Hg. pose proof (pot_log_add b (log_add BM L)). assert (pot (log_add BM L) ≤ pot L)%nat.
  { unfold pot, log_add. destruct (bool_decide (BM ∈ L)) eqn:E; [by rewrite E|].
    rewrite length_app. simpl. rewrite bool_decide_true by set_solver. lia. }
  split_and!; [case_bool_decide; lia|rewrite !elem_of_log_add; auto..|]. intros x. rewrite !elem_of_log_add. auto.
Qed.

Lemma room_alloc L H b v : bmblock v b = BM → room L H 1 → fits1 g L H ∧ fits1 g (log_add (bmblock v b) L) H.
Proof.
  intros -> (?&?&?). assert (length L ≤ pot L)%nat by (unfold pot; lia).
  assert (length (log_add BM L) ≤ pot L)%nat.
  { unfold pot, log_add. case_bool_decide; rewrite ?length_app; simpl; lia. }
  unfold fits1. lia.
Qed.

Lemma held_no_meta v H b : layout_ok g v → bitmap_at BM v → held_data v H → first_free v b →
  no_meta v H ∧ ∀ k, H !! k ≠ Some b.
Proof.
  intros Hl H1 Hh Hf. pose proof (layout_top g v Hl) as Htop. pose proof Hf as (? & Hu & _). split.
  - intros k a E. destruct (Hh k a E) as ((Hlo & Hhi) & _). split; [lia|]. intros c Hc.
    pose proof (bmblock_mono v c (sb_size (sb_of (v 1)) - 1) ltac:(lia)). lia.
  - intros k E. destruct (Hh k b E) as (_ & _ & ?). congruence.
Qed.

(** The place of [addrs[k]]. *)
Definition addr_place (bn : Z) (k : nat) (p : place) : Prop :=
  ((k < NDIRECT)%nat ∧ bn = Z.of_nat k ∧ p = Dat bn) ∨
  (∃ κ, 0 ≤ κ < 3 ∧ k = (NDIRECT + Z.to_nat κ)%nat ∧ p = Idx κ).

Lemma addr_place_nth v x bn k p : addr_place bn k p → nth k (i_addrs x) 0 = addr_at v x p.
Proof.
  intros [(? & -> & ->)|(κ & ? & -> & ->)]; cbn [addr_at].
  - rewrite (proj2 (Z.ltb_lt _ _)), Nat2Z.id by lia. done.
  - unfold idx_at. by rewrite (proj2 (Z.ltb_lt _ _)) by lia.
Qed.

Lemma addr_or_alloc_run s d0 ws0 v L H ic i k p bn n (Q : Z → fs S → Prop) :
  ftx g s d0 ws0 v L H ic → tree_ok g v (ic i) → layout_ok g v → bitmap_at BM v → held_data v H →
  0 ≤ bn < MAXFILE → addr_place bn k p → valid_place p → room L H 1 → avail g BM v (Datatypes.S n) →
  (∀ r s' v' L' ic', ftx g s' d0 ws0 v' L' H ic' → grown g BM bn v (ic i) v' (ic' i) →
     (∀ j, j ≠ i → ic' j = ic j) → addr_at v' (ic' i) p = r → r ≠ 0 → L ⊆ L' →
     (∀ q, valid_place q → q ≠ p → addr_at v' (ic' i) q = addr_at v (ic i) q) →
     (v' = v ∧ L' = L ∧ ic' = ic ∨ r ∈ L' ∧ (pot L' ≤ pot L + 1)%nat) → avail g BM v' n → Q r s') →
  wp (addr_or_alloc i k) Q s.
Proof.
  intros Ht Htr Hl H1 Hh Hbn Hp Hv Hr Hav HQ. apply wp_bind. eapply f_inode; [done|].
  cbn zeta. rewrite (addr_place_nth v _ bn k p Hp). destruct (addr_at v (ic i) p =? 0) eqn:E0.
  2: { apply Z.eqb_neq in E0. apply wp_ret. eapply HQ; [done|by apply grown_refl|done|done|done|done|done|by left|].
       eapply avail_le; [done|lia]. }
  apply Z.eqb_eq in E0 as H0. destruct (avail_first g BM v n H1 Hav) as (b & Hf & Hlt & HbBM). pose proof Hf as (Hb & Hbu & _).
  destruct (held_no_meta v H b Hl H1 Hh Hf) as [Hnm Hnh]. destruct (room_alloc L H b v HbBM Hr) as [F1 F2].
  pose proof (first_free_above g v b Hl Hf) as (? & Hbb & _).
  assert (Hblk : is_block (v (bmblock v b))).
  { destruct Ht as [Ht _]. eapply tx_block; [done|]. destruct Hl as (_ & [Hni Hbm] & _).
    pose proof (bmblock_pos v b ltac:(lia) Hni). pose proof (Hbm b Hb). lia. }
  assert (Hdev : i_dev (ic i) = ROOTDEV) by apply Htr. rewrite Hdev.
  apply wp_bind. eapply f_balloc; [done..|]. intros s1 Ht1. apply wp_bind. eapply f_upd_inode; [done|].
  intros s2 Ht2. apply wp_ret. rewrite HbBM in Ht2. destruct (pot_alloc b L) as (P1 & P2 & P3 & P4).
  set (x' := set_i_addrs (<[k := b]> (i_addrs (ic i))) (ic i)) in *.
  assert (Hsb : alloc_view v b 1 = v 1) by by eapply sb_alloc.
  assert (Hu : ∀ c, 0 ≤ c < sb_size (sb_of (v 1)) → used (alloc_view v b) c = if decide (c = b) then true else used v c).
  { intros c [? ?]. by apply (used_alloc g). }
  assert (Hgr : (∀ q, valid_place q → q ≠ p → addr_at (alloc_view v b) x' q = addr_at v (ic i) q) ∧ addr_at (alloc_view v b) x' p = b).
  { destruct Hp as [(? & -> & ->)|(κ & ? & -> & ->)]; [|by apply (grow_index g)].
    apply (grow_direct g); try done.
    rewrite (addr_place_nth v (ic i) (Z.of_nat k) k (Dat (Z.of_nat k))); [done|by left]. }
  destruct Hgr as [Ho Hpb]. eapply HQ; [exact Ht2| |by intros j Hj; rewrite upd_ne| | |done|by rewrite upd_eq|right; by split|].
  - rewrite upd_eq. eapply (grown_step g BM _ _ _ _ b p); try done.
    + simpl. by rewrite length_insert.
    + destruct Hp as [(? & -> & ->)|(κ & ? & -> & ->)]; eauto.
    + unfold alloc_view. by rewrite disk_upd_eq.
    + intros c ? Hc _. apply alloc_view_other; [done|]. by rewrite HbBM.
  - by rewrite upd_eq.
  - lia.
  - apply (avail_next g BM v _ b n Hav); [by rewrite Hsb|exact Hu].
Qed.

Lemma room_le L H n m : room L H n → (m ≤ n)%nat → room L H m.
Proof. unfold room. lia. Qed.

Lemma room_fits L H : room L H 1 → fits g L H 1.
Proof. assert (length L ≤ pot L)%nat by (unfold pot; lia). unfold room, fits. lia. Qed.

Lemma entry_or_alloc_run s d0 ws0 v L H ic i bp κ e p bn n (Q : Z → fs S → Prop) :
  ftx g s d0 ws0 v L H ic → tree_ok g v (ic i) → layout_ok g v → bitmap_at BM v → held_data v H →
  0 ≤ bn < MAXFILE → 0 ≤ κ < 3 + PTRS_PER_BLOCK → 0 ≤ e < PTRS_PER_BLOCK → entry_place κ e p →
  (p = Dat bn ∨ ∃ k, p = Idx k) → H !! bp = Some (idx_at v (ic i) κ) → idx_at v (ic i) κ ≠ 0 →
  room L H 2 → avail g BM v (Datatypes.S n) → g_start g ≤ 2^32 →
  (∀ r s' v' L', ftx g s' d0 ws0 v' L' H ic → grown g BM bn v (ic i) v' (ic i) →
     addr_at v' (ic i) p = r → r ≠ 0 → L ⊆ L' →
     (∀ q, valid_place q → q ≠ p → addr_at v' (ic i) q = addr_at v (ic i) q) →
     (v' = v ∧ L' = L ∨ r ∈ L' ∧
        (pot L' ≤ pot L + 1 + if bool_decide (idx_at v (ic i) κ ∈ L) then 0 else 1)%nat) →
     avail g BM v' n → Q r s') →
  wp (entry_or_alloc ROOTDEV bp e) Q s.
Proof.
  intros Ht Htr Hl H1 Hh Hbn Hκ He Hp Hpb Hbp Ha Hr Hav H32 HQ. set (a := idx_at v (ic i) κ) in *.
  assert (Hda : data_block g v a) by (by apply (tr_data _ _ _ Htr (Idx κ))).
  pose proof (entry_place_addr v (ic i) κ e p Hp ltac:(lia)) as Eaddr. fold a in Eaddr.
  apply wp_bind. eapply f_data; [done..|]. intros Hblk. cbn zeta.
  assert (Eent : entry v a e = get_u32 (slot_of e) (v a)) by (unfold entry; by rewrite (proj2 (Z.eqb_neq _ _) Ha)).
  rewrite <- Eent. destruct (entry v a e =? 0) eqn:E0.
  2: { apply Z.eqb_neq in E0. apply wp_ret. eapply HQ; [done|by apply grown_refl|by rewrite Eaddr|done|done|done|by left|].
       eapply avail_le; [done|lia]. }
  apply Z.eqb_eq in E0. destruct (avail_first g BM v n H1 Hav) as (b & Hf & Hlt & HbBM). pose proof Hf as (Hb & Hbu & _).
  destruct (held_no_meta v H b Hl H1 Hh Hf) as [Hnm Hnh].
  destruct (room_alloc L H b v HbBM (room_le _ _ _ 1 Hr ltac:(lia))) as [F1 F2].
  pose proof (first_free_above g v b Hl Hf) as (? & Hbb & _). pose proof (layout_top g v Hl) as Htop.
  assert (Hbm : is_block (v (bmblock v b))).
  { destruct Ht as [Ht _]. eapply tx_block; [done|]. destruct Hl as (_ & [Hni Hbm] & _).
    pose proof (bmblock_pos v b ltac:(lia) Hni). pose proof (Hbm b Hb). lia. }
  assert (Eva : alloc_view v b a = v a) by by eapply alloc_view_data.
  assert (Hab : a ≠ b) by (intros ->; destruct Hda as (_ & _ & ?); congruence).
  apply wp_bind. eapply f_balloc; [done..|]. intros s1 Ht1. rewrite HbBM in Ht1.
  apply wp_bind. eapply f_data; [done..|]. intros _. rewrite Eva. destruct (pot_alloc b L) as (P1 & P2 & P3 & P4).
  set (L1 := log_add b (log_add BM L)) in *.
  assert (Hr1 : room L1 H 1) by (destruct Hr as (?&?&?); unfold room; lia).
  eapply f_store; [done|done|done|by apply put_u32_block; [apply slot_bound|]|by apply room_fits|].
  intros s2 Ht2. apply wp_ret. set (v2 := disk_upd _ _ _) in *.
  assert (Hsb : v2 1 = v 1) by (unfold v2; rewrite disk_upd_ne by (destruct Hda as ((? & ?) & _); lia); by eapply sb_alloc).
  assert (Hu : ∀ c, 0 ≤ c < sb_size (sb_of (v 1)) → used v2 c = if decide (c = b) then true else used v c).
  { intros c Hc. rewrite <- (used_alloc g) by (done || lia). assert (Hs1 : alloc_view v b 1 = v 1) by by eapply sb_alloc.
    assert (Ebm : bmblock (alloc_view v b) c = bmblock v c) by (unfold bmblock; by rewrite Hs1).
    apply used_ext; [by rewrite Hs1|]. rewrite Ebm. unfold v2. rewrite disk_upd_ne; [done|].
    pose proof (bmblock_mono v c (sb_size (sb_of (v 1)) - 1) ltac:(lia)). destruct Hda as ((? & ?) & _). lia. }
  destruct (grow_entry g v (ic i) b κ e p) as [Ho Hpb']; try done; [lia|]. fold a in Ho, Hpb'. fold v2 in Ho, Hpb'.
  eapply HQ; [exact Ht2| |exact Hpb'|lia| |exact Ho| |by apply (avail_next g BM v _ b n Hav); [by rewrite Hsb|]].
  - eapply (grown_step g BM _ _ _ _ b p); try done.
    + by destruct (ic i).
    + by rewrite Eaddr.
    + unfold v2. rewrite disk_upd_ne by done. unfold alloc_view. by rewrite disk_upd_eq.
    + intros c Hcb HcBM Hc. unfold v2. rewrite disk_upd_ne by (intros ->; by apply (Hc κ)).
      apply alloc_view_other; [done|]. by rewrite HbBM.
  - intros y Hy. apply elem_of_log_add. right. by apply P4.
  - right. split; [apply elem_of_log_add; by right|]. pose proof (pot_log_add a L1).
    repeat case_bool_decide; try lia. exfalso. auto.
Qed.

Lemma held_data_insert v H b a : held_data v H → data_block g v a → held_data v (<[b := a]> H).
Proof. intros Hh Ha k c [[_ <-]|[_ Hc]]%lookup_insert_Some; [done|by eapply Hh]. Qed.

Lemma held_data_grown bn v x v' x' H : layout_ok g v → grown g BM bn v x v' x' → held_data v H → held_data v' H.
Proof.
  intros Hl G Hh k a E. eapply data_block_mono; [done|by rewrite (gr_sb _ _ _ _ _ _ _ G)|apply (gr_used _ _ _ _ _ _ _ G)|by eapply Hh].
Qed.

Lemma data_block_range v a : layout_ok g v → data_block g v a → 0 ≤ a < g_start g.
Proof. intros Hl ((? & ?) & ? & _). pose proof (layout_top g v Hl). lia. Qed.

(** Reading the index block at place [κ]. *)
Lemma index_bread s d0 ws0 v L H ic i κ (Q : nat → fs S → Prop) :
  ftx g s d0 ws0 v L H ic → tree_ok g v (ic i) → layout_ok g v → 0 ≤ κ < 3 + PTRS_PER_BLOCK →
  idx_at v (ic i) κ ≠ 0 → (∀ b, H !! b ≠ Some (idx_at v (ic i) κ)) → room L H 1 →
  (∀ b s', H !! b = None → ftx g s' d0 ws0 v L (<[b := idx_at v (ic i) κ]> H) ic → Q b s') →
  wp (cache (bread ROOTDEV (idx_at v (ic i) κ))) Q s.
Proof.
  intros Ht Htr Hl Hκ Hne Hn Hr HQ. eapply f_bread; [done|done| |done| |done].
  - eapply data_block_range; [done|]. by apply (tr_data _ _ _ Htr (Idx κ)).
  - assert (length L ≤ pot L)%nat by (unfold pot; lia). destruct Hr as (?&?&?). lia.
Qed.

(** [bmap] at an indirect block, from the buffer of its index block on. *)
Lemma room_insert L H b x n : H !! b = None → room L H (Datatypes.S n) → room L (<[b := x]> H) n.
Proof. intros Hb (?&?&?). unfold room. rewrite map_size_insert_None by done. lia. Qed.

Definition ready s d0 ws0 v L H ic i n : Prop :=
  ftx g s d0 ws0 v L H ic ∧ tree_ok g v (ic i) ∧ layout_ok g v ∧ bitmap_at BM v ∧ held_data v H ∧ avail g BM v n.

Lemma ready_next s s' d0 ws0 v L H ic i bn v' L' ic' n m :
  ready s d0 ws0 v L H ic i n → ftx g s' d0 ws0 v' L' H ic' → grown g BM bn v (ic i) v' (ic' i) →
  avail g BM v' m → ready s' d0 ws0 v' L' H ic' i m.
Proof.
  intros (_ & _ & Hl & H1 & Hh & _) Ht G Hav. split_and!; [done|apply G|apply G| |by eapply held_data_grown|done].
  eapply bitmap_at_ext; [apply G|apply G|done].
Qed.

(** Reading the index block at place [κ] and finding or allocating entry [e]. *)
Lemma entry_step {A} s d0 ws0 v L H ic i κ e p bn n (k : nat → Z → M (fs S) A) (Q : A → fs S → Prop) :
  ready s d0 ws0 v L H ic i (Datatypes.S n) → 0 ≤ bn < MAXFILE → 0 ≤ κ < 3 + PTRS_PER_BLOCK →
  0 ≤ e < PTRS_PER_BLOCK → entry_place κ e p → (p = Dat bn ∨ ∃ k, p = Idx k) →
  idx_at v (ic i) κ ≠ 0 → (∀ b, H !! b ≠ Some (idx_at v (ic i) κ)) → room L H 3 →
  (∀ bp r s' v' L', H !! bp = None → ready s' d0 ws0 v' L' (<[bp := idx_at v (ic i) κ]> H) ic i n →
     grown g BM bn v (ic i) v' (ic i) → addr_at v' (ic i) p = r → r ≠ 0 → L ⊆ L' →
     (∀ q, valid_place q → q ≠ p → addr_at v' (ic i) q = addr_at v (ic i) q) →
     (v' = v ∧ L' = L ∨ r ∈ L' ∧
        (pot L' ≤ pot L + 1 + if bool_decide (idx_at v (ic i) κ ∈ L) then 0 else 1)%nat) →
     wp (k bp r) Q s') →
  wp (bp ← cache (bread ROOTDEV (idx_at v (ic i) κ)); r ← entry_or_alloc ROOTDEV bp e; k bp r) Q s.
Proof.
  intros HR Hbn Hκ He Hp Hpb Hne Hn Hr HQ. pose proof HR as (Ht & Htr & Hl & H1 & Hh & Hav).
  apply wp_bind. eapply index_bread; [done|done|done|done|done|done|exact (room_le _ _ _ 1 Hr ltac:(lia))|]. intros bp s1 Hbp Ht1. apply wp_bind.
  assert (Hh1 : held_data v (<[bp := idx_at v (ic i) κ]> H)).
  { apply held_data_insert; [done|]. by apply (tr_data _ _ _ Htr (Idx κ)). }
  eapply (entry_or_alloc_run _ _ _ _ _ _ _ _ _ κ e p bn n); [done..|by rewrite lookup_insert_eq|done|by apply room_insert|done| |].
  { destruct Hg as (?&?&?&?). lia. }
  intros r s2 v2 L2 Ht2 G E Hrne HL Ho Hc Hav2. eapply HQ; [done| |done|done|done|done|done|done].
  eapply (ready_next s1); [|done|done|done]. split_and!; try done.
Qed.

(** [bmap] of a block that is not there yet, by the kind of block. *)
Section bmap_cases.
Variables (s : fs S) (d0 : Z → block) (ws0 : list (Z * block)) (v : Z → block) (L : list Z)
  (ic : nat → inode) (i : nat) (bn : Z) (n : nat) (Q : Z → fs S → Prop).
Hypotheses (HR : ready s d0 ws0 v L ∅ ic i (3 + n)) (Hbn : 0 ≤ bn < MAXFILE)
  (Hun : addr_at v (ic i) (Dat bn) = 0) (Hroom : room L ∅ 6)
  (HQ : ∀ r s' v' L' ic', ready s' d0 ws0 v' L' ∅ ic' i n → grown g BM bn v (ic i) v' (ic' i) →
     (∀ j, j ≠ i → ic' j = ic j) → addr_at v' (ic' i) (Dat bn) = r → r ≠ 0 → L ⊆ L' → r ∈ L' →
     (pot L' ≤ pot L + 3)%nat → Q r s').

Lemma room_some m : (m ≤ 6)%nat → room L ∅ m.
Proof. intros Hm. by eapply room_le. Qed.

Lemma none_held x (b : nat) : (∅ : gmap nat Z) !! b ≠ Some x.
Proof. by rewrite lookup_empty. Qed.

Lemma bmap_direct : bn < Z.of_nat NDIRECT → wp (addr_or_alloc i (Z.to_nat bn)) Q s.
Proof.
  intros Hd. pose proof HR as (Ht & Htr & Hl & H1 & Hh & Hav).
  eapply (addr_or_alloc_run _ _ _ _ _ _ _ _ _ (Dat bn) bn (2 + n)); [done..| |done|apply room_some; lia|done|].
  { left. split_and!; [lia|lia|done]. }
  intros r s' v' L' ic' Ht' G Hic E Hne HL _ Hc Hav'. eapply HQ; [|done|done|done|done|done|..].
  - eapply ready_next; [done..|]. eapply avail_le; [done|lia].
  - destruct Hc as [(-> & _ & ->)|[? _]]; [congruence|done].
  - destruct Hc as [(_ & -> & _)|[_ ?]]; lia.
Qed.

Lemma data_entry_place : Z.of_nat NDIRECT ≤ bn → entry_place (index_of bn) (entry_of bn) (Dat bn).
Proof.
  intros Hd. destruct (index_of_range bn ltac:(lia)) as (_ & _ & Hi2). right. split; [done|].
  exists bn. split_and!; (done || lia).
Qed.

Lemma bmap_indirect : Z.of_nat NDIRECT ≤ bn → bn - Z.of_nat NDIRECT < NINDIRECT → wp (bmap i bn) Q s.
Proof.
  intros Hd Hs. pose proof HR as (Ht & Htr & Hl & H1 & Hh & Hav). pose proof (data_entry_place Hd) as Hep.
  unfold bmap. rewrite (proj2 (Z.ltb_ge _ _) Hd), (proj2 (Z.ltb_lt _ _) Hs).
  destruct (index_of_range bn ltac:(lia)) as (Hiv & Hev & _).
  assert (Eix : index_of bn = (bn - Z.of_nat NDIRECT) / PTRS_PER_BLOCK)
    by (unfold index_of; by rewrite (proj2 (Z.ltb_lt _ _) Hs)).
  assert (Een : entry_of bn = (bn - Z.of_nat NDIRECT) `mod` PTRS_PER_BLOCK)
    by (unfold entry_of; by rewrite (proj2 (Z.ltb_lt _ _) Hs)).
  assert (Hκ3 : 0 ≤ index_of bn < 3).
  { split; [lia|]. rewrite Eix. apply Z.div_lt_upper_bound; [done|]. unfold NINDIRECT, NUM_INDIRECT, PTRS_PER_BLOCK in *. lia. }
  cbn zeta. rewrite <- Eix, <- Een. apply wp_bind.
  eapply (addr_or_alloc_run _ _ _ _ _ _ _ _ _ (Idx (index_of bn)) bn (2 + n)); [done..| |done|apply room_some; lia|done|].
  { right. by exists (index_of bn). }
  intros a s1 v1 L1 ic1 Ht1 G1 Hic1 E1 Hne1 HL1 Ho1 Hc1 Hav1.
  assert (HR1 : ready s1 d0 ws0 v1 L1 ∅ ic1 i (2 + n)) by by eapply ready_next.
  cbn [addr_at] in E1. rewrite <- E1 in *. apply wp_bind. eapply f_inode; [done|].
  rewrite (tr_dev _ _ _ (gr_tree _ _ _ _ _ _ _ G1)).
  eapply (entry_step _ _ _ _ _ _ _ _ _ _ (Dat bn) bn (1 + n)); [done|done|done|done|done|by left|done|apply none_held| |].
  { destruct Hroom as (?&?&?). destruct Hc1 as [(_ & -> & _)|[_ ?]]; unfold room; lia. }
  intros bp r s2 v2 L2 Hbp HR2 G2 E2 Hne2 HL2 Ho2 Hc2. pose proof HR2 as (Ht2 & Htr2 & Hl2 & H12 & Hh2 & Hav2).
  apply wp_bind. eapply f_brelse; [done|by rewrite lookup_insert_eq|]. intros s3 Ht3. rewrite delete_insert_id in Ht3 by done.
  apply wp_ret. eapply HQ; [|by eapply grown_trans|done|done|done|by etrans|..].
  - split_and!; try done. eapply avail_le; [done|lia].
  - destruct Hc2 as [(-> & _)|[? _]]; [|done]. rewrite Ho1 in E2 by done. congruence.
  - destruct Hc1 as [(-> & -> & _)|[Hin ?]].
    + destruct Hc2 as [(_ & ->)|[_ ?]]; [lia|]. case_bool_decide; lia.
    + destruct Hc2 as [(_ & ->)|[_ ?]]; [lia|]. rewrite bool_decide_true in * by done. lia.
Qed.

Lemma bmap_double : Z.of_nat NDIRECT ≤ bn → NINDIRECT ≤ bn - Z.of_nat NDIRECT → wp (bmap i bn) Q s.
Proof.
  intros Hd Hs. pose proof HR as (Ht & Htr & Hl & H1 & Hh & Hav). pose proof (data_entry_place Hd) as Hep.
  unfold bmap. rewrite (proj2 (Z.ltb_ge _ _) Hd), (proj2 (Z.ltb_ge _ _) Hs).
  destruct (index_of_range bn ltac:(lia)) as (Hiv & Hev & Hi2).
  set (m := bn - Z.of_nat NDIRECT - NINDIRECT) in *.
  assert (Hm : 0 ≤ m < PTRS_PER_BLOCK * PTRS_PER_BLOCK).
  { unfold m, MAXFILE, NDOUBLE, NUM_DOUBLE_INDIRECT in *. lia. }
  assert (Eix : index_of bn = 3 + m / PTRS_PER_BLOCK)
    by (unfold index_of; by rewrite (proj2 (Z.ltb_ge _ _) Hs)).
  assert (Een : entry_of bn = m `mod` PTRS_PER_BLOCK)
    by (unfold entry_of; by rewrite (proj2 (Z.ltb_ge _ _) Hs)).
  cbn zeta. rewrite (proj2 (Z.ltb_lt _ _)) by (unfold NDOUBLE, NUM_DOUBLE_INDIRECT in *; lia).
  rewrite (Z.mod_small m) by done. rewrite <- Een. set (e1 := m / PTRS_PER_BLOCK) in *.
  assert (He1 : 0 ≤ e1 < PTRS_PER_BLOCK) by (split; [apply Z.div_pos; [lia|done]|apply Z.div_lt_upper_bound; [done|lia]]).
  apply wp_bind.
  eapply (addr_or_alloc_run _ _ _ _ _ _ _ _ _ (Idx 2) bn (2 + n)); [done..| |done|apply room_some; lia|done|].
  { right. by exists 2. }
  intros a s1 v1 L1 ic1 Ht1 G1 Hic1 E1 Hne1 HL1 Ho1 Hc1 Hav1.
  assert (HR1 : ready s1 d0 ws0 v1 L1 ∅ ic1 i (2 + n)) by by eapply ready_next.
  cbn [addr_at] in E1. rewrite <- E1 in *. apply wp_bind. eapply f_inode; [done|].
  rewrite (tr_dev _ _ _ (gr_tree _ _ _ _ _ _ _ G1)).
  eapply (entry_step _ _ _ _ _ _ _ _ 2 e1 (Idx (3 + e1)) bn (1 + n)); [done|done|done|done|by left|right; eauto|done|apply none_held| |].
  { destruct Hroom as (?&?&?). destruct Hc1 as [(_ & -> & _)|[_ ?]]; unfold room; lia. }
  intros bp r s2 v2 L2 Hbp HR2 G2 E2 Hne2 HL2 Ho2 Hc2. cbn [addr_at] in E2. rewrite <- Eix in *. rewrite <- E2 in *.
  assert (P2 : (pot L2 ≤ pot L + 2)%nat).
  { destruct Hc1 as [(-> & -> & _)|[Hin ?]].
    - destruct Hc2 as [(_ & ->)|[_ ?]]; [lia|]. case_bool_decide; lia.
    - destruct Hc2 as [(_ & ->)|[_ ?]]; [lia|]. rewrite bool_decide_true in * by done. lia. }
  eapply (entry_step _ _ _ _ _ _ _ _ (index_of bn) (entry_of bn) (Dat bn) bn n); [done|done|done|done|done|by left|done| | |].
  { intros b [[_ E]|[_ E]]%lookup_insert_Some; [|by rewrite lookup_empty in E].
    assert (Idx 2 = Idx (index_of bn)) as [= ?]; [|done].
    pose proof HR2 as (_ & Htr2 & _). by apply Htr2. }
  { destruct Hroom as (?&?&?). unfold room. rewrite map_size_insert_None by done. rewrite map_size_empty in *. lia. }
  intros sp r' s3 v3 L3 Hsp HR3 G3 E3 Hne3 HL3 Ho3 Hc3. pose proof HR3 as (Ht3 & Htr3 & Hl3 & H13 & Hh3 & Hav3).
  apply wp_bind. eapply f_brelse; [done|rewrite lookup_insert_ne; [by rewrite lookup_insert_eq|intros ->; by rewrite lookup_insert_eq in Hsp]|].
  intros s4 Ht4. apply wp_bind. eapply f_brelse; [done| |].
  { rewrite lookup_delete_ne; [by rewrite lookup_insert_eq|intros ->; by rewrite lookup_insert_eq in Hsp]. }
  intros s5 Ht5. apply wp_ret.
  assert (EH : delete sp (delete bp (<[sp := idx_at v2 (ic1 i) (index_of bn)]> (<[bp := idx_at v1 (ic1 i) 2]> ∅))) = (∅ : gmap nat Z)).
  { assert (sp ≠ bp) by (intros ->; by rewrite lookup_insert_eq in Hsp).
    rewrite (delete_insert_ne (M := gmap nat)) by done. rewrite (delete_insert_id (M := gmap nat) _ bp) by done.
    by rewrite (delete_insert_id (M := gmap nat)). }
  rewrite EH in Ht5. assert (G12 : grown g BM bn v (ic i) v2 (ic1 i)) by (by eapply grown_trans).
  eapply HQ; [|by eapply grown_trans|done|done|done|by etrans; [|etrans]|..].
  - split_and!; done.
  - destruct Hc3 as [(-> & _)|[? _]]; [|done].
    rewrite Ho2, Ho1 in E3 by done. congruence.
  - destruct Hc3 as [(_ & ->)|[_ P3]]; [lia|].
    destruct Hc1 as [(-> & -> & _)|[Hin P1]].
    + destruct Hc2 as [(-> & ->)|[Hin2 P22]]; [case_bool_decide; lia|].
      rewrite bool_decide_true in P3 by done. case_bool_decide; lia.
    + destruct Hc2 as [(-> & ->)|[Hin2 P22]]; [case_bool_decide; lia|].
      rewrite bool_decide_true in P3 by done. rewrite bool_decide_true in P22 by done. lia.
Qed.

Lemma bmap_run : wp (bmap i bn) Q s.
Proof.
  destruct (decide (bn < Z.of_nat NDIRECT)) as [Hd|Hd].
  - unfold bmap. rewrite (proj2 (Z.ltb_lt _ _) Hd). by apply bmap_direct.
  - destruct (decide (bn - Z.of_nat NDIRECT < NINDIRECT)); [apply bmap_indirect|apply bmap_double]; lia.
Qed.
End bmap_cases.
End bmap.

(** ** Reading

    What reading needs of the layers below, inside a transaction or outside:
    buffers can be read and released without changing what readers see. *)

Record reader {S} {BO : BufOps S} (g : geom) (P : fs S → gmap nat Z → Prop) (v : Z → block)
    (ic : nat → inode) (cap : nat) : Prop := {
  rd_bread s H x (Q : nat → fs S → Prop) :
    P s H → 0 ≤ x < g_start g → (∀ b, H !! b ≠ Some x) → (base.size H < cap)%nat →
    (∀ b s', H !! b = None → P s' (<[b := x]> H) → Q b s') → wp (cache (bread ROOTDEV x)) Q s;
  rd_data s H b x (Q : block → fs S → Prop) :
    P s H → H !! b = Some x → (is_block (v x) → Q (v x) s) → wp (cache (buf_data b)) Q s;
  rd_brelse s H b x (Q : unit → fs S → Prop) :
    P s H → H !! b = Some x → (∀ s', P s' (delete b H) → Q tt s') → wp (cache (brelse b)) Q s;
  rd_inode s H i (Q : inode → fs S → Prop) : P s H → Q (ic i) s → wp (the_inode i) Q s;
}.

(** The byte of the file at offset [off], and [n] bytes from there. *)
Definition file_byte (v : Z → block) (x : inode) (off : Z) : Z :=
  nth (Z.to_nat (off `mod` 512)) (v (addr_at v x (Dat (off / 512)))) 0.
Definition file_bytes (v : Z → block) (x : inode) (off : Z) (n : nat) : list Z :=
  (λ k, file_byte v x (off + Z.of_nat k)) <$> seq 0 n.

(** Every block below the file's size is there. *)
Definition no_holes (v : Z → block) (x : inode) : Prop :=
  0 ≤ i_size x ≤ MAXFILE * 512 ∧ ∀ bn, 0 ≤ bn → bn * 512 < i_size x → addr_at v x (Dat bn) ≠ 0.

Section reading.
Context {S : Type} {BO : BufOps S}.
Context (g : geom) (P : fs S → gmap nat Z → Prop) (v : Z → block) (ic : nat → inode) (cap : nat).
Context (RD : reader g P v ic cap) (Hcap : (2 ≤ cap)%nat) (Hl : layout_ok g v).
Implicit Types (s : fs S) (H : gmap nat Z).

Lemma addr_range x p : tree_ok g v x → valid_place p → addr_at v x p ≠ 0 → 0 ≤ addr_at v x p < g_start g.
Proof. intros Ht Hp Hne. apply (data_block_range g v); [done|]. by apply Ht. Qed.

Lemma rd_entry s H i κ e bp (Q : Z → fs S → Prop) :
  P s H → H !! bp = Some (idx_at v (ic i) κ) → idx_at v (ic i) κ ≠ 0 →
  entry v (idx_at v (ic i) κ) e ≠ 0 → Q (entry v (idx_at v (ic i) κ) e) s →
  wp (entry_or_alloc ROOTDEV bp e) Q s.
Proof.
  intros HP Hb Hne He HQ. apply wp_bind. eapply rd_data; [done..|]. intros _. cbn zeta.
  assert (E : entry v (idx_at v (ic i) κ) e = get_u32 (slot_of e) (v (idx_at v (ic i) κ)))
    by (unfold entry; by rewrite (proj2 (Z.eqb_neq _ _) Hne)).
  rewrite <- E, (proj2 (Z.eqb_neq _ _) He). by apply wp_ret.
Qed.

Lemma rd_addr s H i bn k p (Q : Z → fs S → Prop) :
  P s H → addr_place bn k p → addr_at v (ic i) p ≠ 0 → Q (addr_at v (ic i) p) s → wp (addr_or_alloc i k) Q s.
Proof.
  intros HP Hp Hne HQ. apply wp_bind. eapply rd_inode; [done..|]. cbn zeta.
  rewrite (addr_place_nth v (ic i) bn k p Hp), (proj2 (Z.eqb_neq _ _) Hne). by apply wp_ret.
Qed.

Lemma delete_one (b : nat) (a : Z) : delete b (<[b := a]> (∅ : gmap nat Z)) = ∅.
Proof. by rewrite delete_insert_id. Qed.

(** [bmap] of a block that is there changes nothing. *)
Section lookup.
Variables (s : fs S) (i : nat) (bn : Z) (Q : Z → fs S → Prop).
Hypotheses (HP : P s ∅) (Htr : tree_ok g v (ic i)) (Hbn : 0 ≤ bn < MAXFILE)
  (Hne : addr_at v (ic i) (Dat bn) ≠ 0) (HQ : ∀ s', P s' ∅ → Q (addr_at v (ic i) (Dat bn)) s').

Lemma data_entry : Z.of_nat NDIRECT ≤ bn →
  addr_at v (ic i) (Dat bn) = entry v (idx_at v (ic i) (index_of bn)) (entry_of bn) ∧
  idx_at v (ic i) (index_of bn) ≠ 0.
Proof.
  intros Hd. assert (Ea : addr_at v (ic i) (Dat bn) = entry v (idx_at v (ic i) (index_of bn)) (entry_of bn)).
  { cbn [addr_at]. by rewrite (proj2 (Z.ltb_ge _ _) Hd). }
  split; [done|]. intros E. apply Hne. rewrite Ea. unfold entry. by rewrite E.
Qed.

Lemma bmap_lookup_indirect :
  Z.of_nat NDIRECT ≤ bn → bn - Z.of_nat NDIRECT < NINDIRECT → wp (bmap i bn) Q s.
Proof.
  intros Hd Hs. destruct (data_entry Hd) as [Ea Hix]. rewrite Ea in *.
  destruct (index_of_range bn ltac:(lia)) as (Hiv & Hev & Hi2). unfold bmap.
  rewrite (proj2 (Z.ltb_ge _ _) Hd), (proj2 (Z.ltb_lt _ _) Hs). cbn zeta.
  assert (Eix : (bn - Z.of_nat NDIRECT) / PTRS_PER_BLOCK = index_of bn)
    by (unfold index_of; by rewrite (proj2 (Z.ltb_lt _ _) Hs)).
  assert (Een : (bn - Z.of_nat NDIRECT) `mod` PTRS_PER_BLOCK = entry_of bn)
    by (unfold entry_of; by rewrite (proj2 (Z.ltb_lt _ _) Hs)).
  rewrite Eix, Een. apply wp_bind. eapply (rd_addr _ _ _ bn _ (Idx (index_of bn))); [done| |done|].
  { right. exists (index_of bn). split_and!; [lia| |done..]. rewrite <- Eix.
    apply Z.div_lt_upper_bound; [done|]. unfold NINDIRECT, NUM_INDIRECT, PTRS_PER_BLOCK in *. lia. }
  apply wp_bind. eapply rd_inode; [done..|]. rewrite (tr_dev _ _ _ Htr). apply wp_bind.
  eapply rd_bread; [done|done|by apply (addr_range _ (Idx _))|by intros b; rewrite lookup_empty|rewrite map_size_empty; lia|].
  intros bp s1 _ HP1. apply wp_bind. eapply rd_entry; [done|by rewrite lookup_insert_eq|done|done|].
  apply wp_bind. eapply rd_brelse; [done|done|by rewrite lookup_insert_eq|]. intros s2 HP2. rewrite delete_one in HP2.
  apply wp_ret. by apply HQ.
Qed.

Lemma bmap_lookup_double :
  Z.of_nat NDIRECT ≤ bn → NINDIRECT ≤ bn - Z.of_nat NDIRECT → wp (bmap i bn) Q s.
Proof.
  intros Hd Hs. destruct (data_entry Hd) as [Ea Hix]. rewrite Ea in *.
  destruct (index_of_range bn ltac:(lia)) as (Hiv & Hev & Hi2). unfold bmap.
  rewrite (proj2 (Z.ltb_ge _ _) Hd), (proj2 (Z.ltb_ge _ _) Hs). cbn zeta.
  set (m := bn - Z.of_nat NDIRECT - NINDIRECT) in *.
  assert (Hm : 0 ≤ m < PTRS_PER_BLOCK * PTRS_PER_BLOCK).
  { unfold m, MAXFILE, NDOUBLE, NUM_DOUBLE_INDIRECT in *. lia. }
  assert (Eix : index_of bn = 3 + m / PTRS_PER_BLOCK) by (unfold index_of; by rewrite (proj2 (Z.ltb_ge _ _) Hs)).
  assert (Een : m `mod` PTRS_PER_BLOCK = entry_of bn) by (unfold entry_of; by rewrite (proj2 (Z.ltb_ge _ _) Hs)).
  rewrite (proj2 (Z.ltb_lt _ _)) by (unfold NDOUBLE, NUM_DOUBLE_INDIRECT in *; lia).
  rewrite (Z.mod_small m) by done. rewrite Een.
  assert (Eidx : entry v (idx_at v (ic i) 2) (m / PTRS_PER_BLOCK) = idx_at v (ic i) (index_of bn)).
  { unfold idx_at at 2. rewrite Eix, (proj2 (Z.ltb_ge _ _)) by (pose proof (Z.div_pos m PTRS_PER_BLOCK); lia).
    f_equal. lia. }
  assert (H2 : idx_at v (ic i) 2 ≠ 0).
  { intros E. rewrite E in Eidx. unfold entry in Eidx. simpl in Eidx. congruence. }
  apply wp_bind. eapply (rd_addr _ _ _ bn _ (Idx 2)); [done|right; by exists 2|done|].
  apply wp_bind. eapply rd_inode; [done..|]. rewrite (tr_dev _ _ _ Htr). apply wp_bind.
  eapply rd_bread; [done|done|by apply (addr_range _ (Idx 2))|by intros b; rewrite lookup_empty|rewrite map_size_empty; lia|].
  intros bp s1 _ HP1. apply wp_bind.
  eapply (rd_entry _ _ i 2); [done|by rewrite lookup_insert_eq|done|by rewrite Eidx|]. rewrite Eidx. apply wp_bind.
  eapply rd_bread; [done|done|by apply (addr_range _ (Idx _))| | |].
  { intros b [[_ E]|[_ E]]%lookup_insert_Some; [|by rewrite lookup_empty in E].
    assert (Idx 2 = Idx (index_of bn)) as [= ?]; [by apply Htr|done]. }
  { rewrite map_size_insert_None by done. rewrite map_size_empty. lia. }
  intros sp s2 Hsp HP2. assert (Hne2 : sp ≠ bp) by (intros ->; by rewrite lookup_insert_eq in Hsp). apply wp_bind.
  eapply rd_entry; [done|by rewrite lookup_insert_eq|done|done|]. apply wp_bind.
  eapply rd_brelse; [done|done|rewrite lookup_insert_ne by done; by rewrite lookup_insert_eq|]. intros s3 HP3. apply wp_bind.
  eapply rd_brelse; [done|done|rewrite lookup_delete_ne by done; by rewrite lookup_insert_eq|]. intros s4 HP4.
  rewrite (delete_insert_ne (M := gmap nat)), delete_one, delete_one in HP4 by done. apply wp_ret. by apply HQ.
Qed.

Lemma bmap_lookup : wp (bmap i bn) Q s.
Proof.
  destruct (decide (bn < Z.of_nat NDIRECT)) as [Hd|Hd].
  - unfold bmap. rewrite (proj2 (Z.ltb_lt _ _) Hd).
    eapply (rd_addr _ _ _ bn _ (Dat bn)); [done| |done|by apply HQ]. left. split_and!; (done || lia).
  - destruct (decide (bn - Z.of_nat NDIRECT < NINDIRECT)); [apply bmap_lookup_indirect|apply bmap_lookup_double]; lia.
Qed.
End lookup.

Lemma length_file_bytes x off n : length (file_bytes v x off n) = n.
Proof. unfold file_bytes. by rewrite length_fmap, length_seq. Qed.

Lemma lookup_file_bytes x off n k :
  file_bytes v x off n !! k = if decide (k < n)%nat then Some (file_byte v x (off + Z.of_nat k)) else None.
Proof.
  unfold file_bytes. rewrite list_lookup_fmap. case_decide.
  - by rewrite lookup_seq_lt.
  - by rewrite lookup_seq_ge by lia.
Qed.

Lemma file_bytes_app x off a b :
  file_bytes v x off (a + b) = file_bytes v x off a ++ file_bytes v x (off + Z.of_nat a) b.
Proof.
  apply list_eq. intros k. rewrite lookup_app, !lookup_file_bytes, length_file_bytes.
  repeat case_decide; try lia; try done. do 2 f_equal. lia.
Qed.

(** The part of one block. *)
Lemma file_bytes_block x off m :
  0 ≤ off → 0 ≤ m ≤ 512 - off `mod` 512 → is_block (v (addr_at v x (Dat (off / 512)))) →
  slice (Z.to_nat (off `mod` 512)) (Z.to_nat m) (v (addr_at v x (Dat (off / 512)))) = file_bytes v x off (Z.to_nat m).
Proof.
  intros Ho Hm Hb. pose proof (Z.mod_pos_bound off 512 ltac:(lia)). unfold is_block, BSIZE in Hb.
  apply list_eq. intros k. rewrite lookup_slice, lookup_file_bytes. case_decide as Hk; [|done].
  unfold file_byte. assert (Hd : (off + Z.of_nat k) / 512 = off / 512 ∧ (off + Z.of_nat k) `mod` 512 = off `mod` 512 + Z.of_nat k).
  { pose proof (Z.div_mod off 512 ltac:(lia)). split.
    - symmetry. apply (Z.div_unique _ _ _ (off `mod` 512 + Z.of_nat k)); lia.
    - symmetry. apply (Z.mod_unique _ _ (off / 512)); lia. }
  destruct Hd as [-> ->].
  rewrite nth_lookup. replace (Z.to_nat (off `mod` 512 + Z.of_nat k)) with (Z.to_nat (off `mod` 512) + k)%nat by lia.
  destruct (lookup_lt_is_Some_2 (v (addr_at v x (Dat (off / 512)))) (Z.to_nat (off `mod` 512) + k)) as [y Ey]; [lia|].
  by rewrite Ey.
Qed.

Lemma readi_loop_run k s i off n (Q : list Z → fs S → Prop) :
  P s ∅ → tree_ok g v (ic i) → 0 ≤ off → off + n ≤ MAXFILE * 512 → (Z.to_nat n ≤ k)%nat →
  (∀ bn, 0 ≤ bn → bn * 512 < off + n → addr_at v (ic i) (Dat bn) ≠ 0) →
  (∀ s', P s' ∅ → Q (file_bytes v (ic i) off (Z.to_nat n)) s') →
  wp (readi_loop k i off n) Q s.
Proof.
  intros HP Htr. revert s off n Q HP. induction k as [|k IH]; intros s off n Q HP Ho Hmax Hk Hmap HQ.
  { cbn [readi_loop]. rewrite (proj2 (Z.leb_le n 0)) by lia. apply wp_ret.
    replace (Z.to_nat n) with 0%nat in HQ by lia. by apply HQ. }
  cbn [readi_loop]. destruct (Z.leb_spec n 0) as [Hn|Hn].
  { apply wp_ret. replace (Z.to_nat n) with 0%nat in HQ by lia. by apply HQ. }
  pose proof (Z.div_mod off 512 ltac:(lia)). pose proof (Z.mod_pos_bound off 512 ltac:(lia)).
  pose proof (Z.div_pos off 512 ltac:(lia) ltac:(lia)).
  assert (Hb : 0 ≤ off / 512 < MAXFILE) by (split; [lia|apply Z.div_lt_upper_bound; lia]).
  assert (Ha : addr_at v (ic i) (Dat (off / 512)) ≠ 0) by (apply Hmap; lia).
  apply wp_bind. apply bmap_lookup; [done..|]. intros s1 HP1. apply wp_bind. eapply rd_inode; [done..|].
  rewrite (tr_dev _ _ _ Htr). apply wp_bind.
  eapply rd_bread; [done|done|by apply addr_range|by intros b; rewrite lookup_empty|rewrite map_size_empty; lia|].
  intros bp s2 _ HP2. cbn zeta. apply wp_bind. eapply rd_data; [done|done|by rewrite lookup_insert_eq|]. intros Hblk.
  apply wp_bind. eapply rd_brelse; [done|done|by rewrite lookup_insert_eq|]. intros s3 HP3. rewrite delete_one in HP3.
  set (m := Z.min n (512 - off `mod` 512)). apply wp_bind. eapply IH; [done|lia|lia|lia| |].
  { intros bn ??. apply Hmap; lia. }
  intros s4 HP4. apply wp_ret. rewrite file_bytes_block by (done || lia).
  replace (off + m) with (off + Z.of_nat (Z.to_nat m)) by lia. rewrite <- file_bytes_app.
  replace (Z.to_nat m + Z.to_nat (n - m))%nat with (Z.to_nat n) by lia. by apply HQ.
Qed.
End reading.

Section readers.
Context {S : Type} {BO : BufOps S} {BC : BufCache S}.
Context (g : geom) (Hg : geom_ok g).
Implicit Types (s : fs S) (v : Z → block) (L : list Z) (H : gmap nat Z) (ic : nat → inode).

(** Inside a transaction. *)
Lemma reader_tx d0 ws0 v L ic :
  reader g (λ s H, ftx g s d0 ws0 v L H ic) v ic (NBUF - length L).
Proof.
  split.
  - intros s H x Q Ht Hx Hn Hr HQ. eapply f_bread; [done..|lia|done].
  - intros s H b x Q Ht Hb HQ. by eapply f_data.
  - intros s H b x Q Ht Hb HQ. by eapply f_brelse.
  - intros s H i Q Ht HQ. by eapply f_inode.
Qed.

(** Outside a transaction: the log is [lg], and the disk holds what readers see. *)
Definition outside s v ws lg H ic : Prop :=
  (∃ w, blk (ls_bio (fs_log s)) (g_blocks g) w w ws ∅ H ∧ agree (g_start g) w v) ∧
  (∀ b y, H !! b = Some y → 0 ≤ y < g_start g) ∧
  ls_log (fs_log s) = lg ∧ (∀ j, icache s j = ic j) ∧ ic_lock s = false.

Lemma reader_outside v ws lg ic : reader g (λ s H, outside s v ws lg H ic) v ic NBUF.
Proof.
  destruct Hg as (G1 & G2 & G3 & G4). split.
  - intros s H x Q ((w & Hb & Hw) & Hh & Hl & Hic & Hk) Hx Hn Hr HQ. apply wp_zoom, wp_zoom.
    eapply blk_bread; [done|lia|done|right; rewrite size_empty; lia|]. intros b B Hnone HB. apply HQ; [done|].
    split_and!; [by exists w| |done..]. intros b' y [[_ <-]|[_ Hy]]%lookup_insert_Some; [done|by eapply Hh].
  - intros s H b x Q ((w & Hb & Hw) & Hh & Hl & Hic & Hk) Hbx HQ. apply wp_zoom, wp_zoom. eapply blk_data; [done|done|].
    destruct s as [[B l] k c w']. pose proof (Hh _ _ Hbx). rewrite Hw by lia. apply HQ.
    rewrite <- Hw by lia. by eapply blk_view_block.
  - intros s H b x Q ((w & Hb & Hw) & Hh & Hl & Hic & Hk) Hbx HQ. apply wp_zoom, wp_zoom. eapply blk_brelse; [done|done|by right|].
    intros B HB. apply HQ. split_and!; [by exists w| |done..]. intros b' y [_ Hy]%lookup_delete_Some. by eapply Hh.
  - intros s H i Q (_ & _ & _ & Hic & _) HQ. apply wp_gets. by rewrite Hic.
Qed.
End readers.

Section readi.
Context {S : Type} {BO : BufOps S}.
Context (dev_read : Z → option (nat → Z → M (fs S) (Z * list Z))).
Context (g : geom) (P : fs S → gmap nat Z → Prop) (v : Z → block) (ic : nat → inode) (cap : nat).
Context (RD : reader g P v ic cap) (Hcap : (2 ≤ cap)%nat) (Hl : layout_ok g v).

(** What [readi] returns for a file that is not a device. *)
Definition readi_result (x : inode) (off n : Z) : Z * list Z :=
  if (off >? i_size x) || (2^32 <=? off + n) then (-1, [])
  else let m := Z.min n (i_size x - off) in (m, file_bytes v x off (Z.to_nat m)).

Lemma readi_run s i off n (Q : Z * list Z → fs S → Prop) :
  P s ∅ → tree_ok g v (ic i) → no_holes v (ic i) → i_type (ic i) ≠ T_DEV → 0 ≤ off < 2^32 → 0 ≤ n < 2^32 →
  (∀ s', P s' ∅ → Q (readi_result (ic i) off n) s') → wp (readi dev_read i off n) Q s.
Proof.
  intros HP Htr [Hsz Hmap] Hty Hoff Hn HQ. unfold readi, readi_result in *. apply wp_bind. eapply rd_inode; [done..|].
  rewrite (proj2 (Z.eqb_neq _ _) Hty).
  assert (Hw : (w32 (off + n) <? off) = (2^32 <=? off + n)).
  { destruct (Z.leb_spec (2^32) (off + n)).
    - apply Z.ltb_lt. unfold w32. rewrite Z.mod_eq by lia.
      replace ((off + n) / 2^32) with 1; [lia|]. apply (Z.div_unique _ _ _ (off + n - 2^32)); lia.
    - apply Z.ltb_ge. rewrite w32_small by lia. lia. }
  rewrite Hw. destruct ((off >? i_size (ic i)) || (2^32 <=? off + n)) eqn:E; [by apply wp_ret, HQ|].
  apply orb_false_iff in E as [E1 E2]. rewrite Z.gtb_ltb in E1. apply Z.ltb_ge in E1. cbn zeta.
  set (m := if off + n >? i_size (ic i) then i_size (ic i) - off else n).
  assert (Em : m = Z.min n (i_size (ic i) - off)).
  { unfold m. rewrite Z.gtb_ltb. destruct (Z.ltb_spec (i_size (ic i)) (off + n)); lia. }
  rewrite <- Em in *. apply wp_bind. eapply (readi_loop_run g P v ic cap); [done..|lia|lia|lia| |].
  { intros bn ??. apply Hmap; lia. }
  intros s' HP'. by apply wp_ret, HQ.
Qed.
End readi.

(** ** The theorems *)

Section claims.
Context {S : Type} {BO : BufOps S} {BC : BufCache S}.
Context (g : geom) (Hg : geom_ok g) (BM : Z).
Implicit Types (s : fs S) (v : Z → block) (L : list Z) (ic : nat → inode).

(** C12: [bmap] maps the blocks of a file through ten direct, two singly-indirect
    and one doubly-indirect pointer as a partial map from block numbers: a
    block that is there is found and nothing changes; a block that is not there
    is allocated, together with the index blocks on the way, comes out zeroed,
    and every other block number keeps its block.  All addresses of the file
    stay allocated and pairwise different, no data block of any file is
    overwritten, and a block number past the largest file panics.  The
    transaction has room for the blocks that are stored, and three blocks are
    free in the first block of the bitmap that has a free one. *)
Theorem bmap_spec s d0 ws0 v L ic i bn :
  ready g BM s d0 ws0 v L ∅ ic i 3 → room g BM L ∅ 6 → 0 ≤ bn →
  (bn < MAXFILE →
    wp (bmap i bn) (λ r s', ∃ v' L' ic', ready g BM s' d0 ws0 v' L' ∅ ic' i 0 ∧
      addr_at v' (ic' i) (Dat bn) = r ∧ r ≠ 0 ∧
      (∀ c, 0 ≤ c < MAXFILE → c ≠ bn → addr_at v' (ic' i) (Dat c) = addr_at v (ic i) (Dat c)) ∧
      (addr_at v (ic i) (Dat bn) ≠ 0 → v' = v ∧ L' = L ∧ ic' = ic) ∧
      (addr_at v (ic i) (Dat bn) = 0 → used v r = false ∧ v' r = zero_block) ∧
      (∀ c, data_block g v c → (∀ k, 0 ≤ k < 3 + PTRS_PER_BLOCK → idx_at v (ic i) k ≠ c) → v' c = v c)) s) ∧
  (MAXFILE ≤ bn → bmap i bn s = Panic "bmap: out of range").
Proof.
  intros HR Hroom Hbn. pose proof HR as (Ht & Htr & Hl & H1 & Hh & Hav). split; intros Hmax.
  - destruct (decide (addr_at v (ic i) (Dat bn) = 0)) as [Hun|Hne].
    + eapply (bmap_run g Hg BM _ _ _ _ _ _ _ _ 0); [done|done|done|done|].
      intros r s' v' L' ic' HR' G Hic E Hr HL Hin Hpot. exists v', L', ic'.
      split_and!; [done|done|done|apply (gr_dat _ _ _ _ _ _ _ G)|done| |apply (gr_data _ _ _ _ _ _ _ G)].
      intros _. destruct (gr_bn _ _ _ _ _ _ _ G) as [E'|(_ & Hu & Hz)]; [congruence|]. by rewrite <- E.
    + eapply (bmap_lookup g _ v ic _ (reader_tx g Hg d0 ws0 v L ic)); [|done..|].
      { assert (length L ≤ pot BM L)%nat by (unfold pot; lia). destruct Hroom as (?&?&?). lia. }
      intros s' Ht'. exists v, L, ic. split_and!; try done.
      split_and!; try done. apply (avail_le g BM v 3 0 Hav). lia.
  - unfold bmap. rewrite !(proj2 (Z.ltb_ge _ _)); [done|..]; unfold MAXFILE, NDOUBLE, NINDIRECT, NUM_DOUBLE_INDIRECT, NUM_INDIRECT, PTRS_PER_BLOCK in *;
      change (512 / 4) with 128 in *; lia.
Qed.

Context (dev_read : Z → option (nat → Z → M (fs S) (Z * list Z))).

(** C13: [readi] of a file that is not a device returns the bytes of the file:
    -1 if the offset lies beyond its end or the range wraps around, else the
    bytes from the offset up to [n] or the end of the file, whatever index
    blocks and block boundaries lie in between; it terminates, and changes
    neither the disk nor what readers see. *)
Theorem readi_spec s v ws lg ic i off n :
  outside g s v ws lg ∅ ic → layout_ok g v → tree_ok g v (ic i) → no_holes v (ic i) →
  i_type (ic i) ≠ T_DEV → 0 ≤ off < 2^32 → 0 ≤ n < 2^32 →
  wp (readi dev_read i off n) (λ r s', outside g s' v ws lg ∅ ic ∧
    r = if (off >? i_size (ic i)) || (2^32 <=? off + n) then (-1, [])
        else (Z.min n (i_size (ic i) - off),
              file_bytes v (ic i) off (Z.to_nat (Z.min n (i_size (ic i) - off))))) s.
Proof.
  intros Ho Hl Htr Hnh Hty Hoff Hn.
  eapply (readi_run dev_read g _ v ic NBUF (reader_outside g Hg v ws lg ic)); [unfold NBUF; lia|done..|].
  intros s' Ho'. by split.
Qed.
End claims.
