(* ===== verification/FsWrite.v ===== *)
(** * Inodes on disk, and writing files

    The layout of on-disk inodes ([get_dinode] after [put_dinode]), [iupdate],
    and [writei]: a write changes the bytes in its range and nothing else that
    any file holds. *)

From stdpp Require Import base numbers list strings gmap.
From Stdlib Require Import ZArith Lia.
From S2P Require Import Prelude Blocks Log Spinlock Fs FsBlock FsFile.

#[local] Open Scope Z_scope.

(** ** On-disk inodes *)

Definition short (z : Z) : Prop := -2^15 ≤ z < 2^15.
Definition uint (z : Z) : Prop := 0 ≤ z < 2^32.

Definition dinode_ok (di : dinode) : Prop :=
  short (di_type di) ∧ short (di_major di) ∧ short (di_minor di) ∧ short (di_nlink di) ∧
  uint (di_size di) ∧ length (di_addrs di) = NADDRS ∧ Forall uint (di_addrs di).

Lemma slice_splice_inside {A} off (bs : list A) l off' n :
  (off ≤ off')%nat → (off' + n ≤ off + length bs)%nat → (off + length bs ≤ length l)%nat →
  slice off' n (splice off bs l) = slice (off' - off) n bs.
Proof.
  intros H1 H2 H3. apply list_eq. intros k. rewrite !lookup_slice. case_decide; [|done].
  rewrite lookup_splice by done. repeat case_decide; try lia. f_equal. lia.
Qed.

Lemma length_dinode_bytes di : length (di_addrs di) = NADDRS → length (dinode_bytes di) = 64%nat.
Proof. intros H. unfold dinode_bytes. rewrite !length_app, length_words, !length_le_bytes, H. done. Qed.

Lemma s16_wrap z : short z → s16 (z `mod` 2^16) = z.
Proof.
  intros [H1 H2]. unfold s16, w16. rewrite Z.mod_mod by done.
  destruct (decide (0 ≤ z)) as [Hz|Hz].
  - rewrite Z.mod_small by lia. by rewrite (proj2 (Z.ltb_lt _ _)) by lia.
  - replace (z `mod` 2^16) with (z + 2^16); [|apply (Z.mod_unique _ _ (-1)); lia].
    rewrite (proj2 (Z.ltb_ge _ _)) by lia. lia.
Qed.

Section dinodes.
Variables (k : nat) (d : block) (di : dinode).
Hypotheses (Hk : (k < 8)%nat) (Hd : is_block d) (Hdi : dinode_ok di).

(** A field of the inode just stored. *)
Lemma dinode_field off n bs :
  slice off n (dinode_bytes di) = bs → (off + n ≤ 64)%nat →
  slice (64 * k + off) n (put_dinode k di d) = bs.
Proof.
  intros E Hn. pose proof (length_dinode_bytes di) as Hlen. unfold put_dinode.
  rewrite slice_splice_inside.
  - rewrite <- E. f_equal. lia.
  - lia.
  - rewrite Hlen by apply Hdi. lia.
  - rewrite Hlen by apply Hdi. unfold is_block, BSIZE in Hd. lia.
Qed.

Lemma dinode_value off n z :
  slice off n (dinode_bytes di) = le_bytes n z → (off + n ≤ 64)%nat →
  le_val (slice (64 * k + off) n (put_dinode k di d)) = z `mod` 256 ^ Z.of_nat n.
Proof. intros E Hn. rewrite (dinode_field off n _ E Hn). apply le_val_bytes. Qed.

(** The parts of the bytes. *)
#[local] Ltac field_bytes :=
  unfold dinode_bytes;
  repeat (rewrite slice_app_r by (rewrite length_le_bytes; lia); rewrite length_le_bytes; cbn [Nat.sub]);
  rewrite ?slice_app_l by (rewrite length_le_bytes; lia); apply slice_all, length_le_bytes.

Lemma get_put_dinode : get_dinode k (put_dinode k di d) = di.
Proof.
  pose proof Hdi as (Ht & Hma & Hmi & Hnl & Hsz & Hlen & Ha).
  assert (E : get_dinode k (put_dinode k di d) = mkDinode (di_type di) (di_major di) (di_minor di) (di_nlink di)
    (di_size di) (di_addrs di)); [|rewrite E; by destruct di].
  unfold get_dinode, get_u16, get_u32. f_equal.
  - rewrite <- (s16_wrap _ Ht). f_equal. replace (64 * k)%nat with (64 * k + 0)%nat at 1 by lia.
    apply dinode_value; [field_bytes|lia].
  - rewrite <- (s16_wrap _ Hma). f_equal. apply dinode_value; [field_bytes|lia].
  - rewrite <- (s16_wrap _ Hmi). f_equal. apply dinode_value; [field_bytes|lia].
  - rewrite <- (s16_wrap _ Hnl). f_equal. apply dinode_value; [field_bytes|lia].
  - rewrite <- (Z.mod_small (di_size di) (256 ^ Z.of_nat 4)) by exact Hsz. apply dinode_value; [field_bytes|lia].
  - apply list_eq. intros j. rewrite list_lookup_fmap.
    destruct (decide (j < NADDRS)%nat) as [Hj|Hj].
    + rewrite lookup_seq_lt by done. cbn [fmap option_fmap option_map Nat.add]. destruct (lookup_lt_is_Some_2 (di_addrs di) j) as [a Ea]; [lia|].
      rewrite Ea. f_equal. pose proof (Forall_lookup_1 _ _ _ _ Ha Ea) as Hau.
      rewrite <- (Z.mod_small a (256 ^ Z.of_nat 4)) by exact Hau.
      replace (64 * k + 12 + 4 * j)%nat with (64 * k + (12 + 4 * j))%nat by lia.
      apply dinode_value; [|unfold NADDRS, NDIRECT, NUM_INDIRECT, NUM_DOUBLE_INDIRECT in Hj; lia].
      unfold dinode_bytes. do 5 (rewrite slice_app_r by (rewrite length_le_bytes; lia); rewrite length_le_bytes).
      replace (12 + 4 * j - 2 - 2 - 2 - 2 - 4)%nat with (4 * j)%nat by lia. by apply slice_words.
    + rewrite lookup_seq_ge by lia. symmetry. apply lookup_ge_None. lia.
Qed.
End dinodes.

(** The other inodes of the block. *)
Lemma get_put_dinode_other k k' d di :
  (k < 8)%nat → is_block d → length (di_addrs di) = NADDRS → k ≠ k' →
  get_dinode k' (put_dinode k di d) = get_dinode k' d.
Proof.
  intros Hk Hd Hlen Hne. pose proof (length_dinode_bytes di Hlen) as Hb.
  assert (F : ∀ off n, (off + n ≤ 64)%nat → slice (64 * k' + off) n (put_dinode k di d) = slice (64 * k' + off) n d).
  { intros off n Hn. unfold put_dinode. apply slice_splice_other; rewrite Hb.
    - unfold is_block, BSIZE in Hd. lia.
    - lia. }
  unfold get_dinode, get_u16, get_u32. f_equal.
  all: try (do 2 f_equal; first [apply F; lia|replace (64 * k')%nat with (64 * k' + 0)%nat by lia; apply F; lia]).
  - f_equal. apply F. lia.
  - apply list_fmap_ext. intros j x Hj. apply lookup_seq in Hj as [-> Hj]. f_equal.
    rewrite <- Nat.add_assoc. apply F. unfold NADDRS, NDIRECT, NUM_INDIRECT, NUM_DOUBLE_INDIRECT in Hj. lia.
Qed.

Lemma put_dinode_block k di d : (k < 8)%nat → is_block d → length (di_addrs di) = NADDRS → is_block (put_dinode k di d).
Proof.
  intros Hk Hd Hlen. unfold is_block, put_dinode. rewrite length_splice; [done|].
  rewrite length_dinode_bytes by done. unfold is_block, BSIZE in Hd. lia.
Qed.

(** ** [iupdate] *)

Lemma islot_lt inum : (islot inum < 8)%nat.
Proof. unfold islot, IPB. pose proof (Z.mod_pos_bound inum (512 / 64) ltac:(done)). change (512 / 64) with 8 in *. lia. Qed.

(** The view after [iupdate] of [x]. *)
Definition store_inode (v : Z → block) (x : inode) : Z → block :=
  disk_upd v (IBLOCK (i_inum x)) (put_dinode (islot (i_inum x)) (dinode_of x) (v (IBLOCK (i_inum x)))).

Section write.
Context {S : Type} {BO : BufOps S} {BC : BufCache S}.
Context (g : geom) (Hg : geom_ok g) (BM : Z).
Implicit Types (s : fs S) (v : Z → block) (L : list Z) (H : gmap nat Z) (ic : nat → inode) (x : inode).

Lemma iupdate_run s d0 ws0 v L ic i (Q : unit → fs S → Prop) :
  ftx g s d0 ws0 v L ∅ ic → i_dev (ic i) = ROOTDEV → length (i_addrs (ic i)) = NADDRS →
  0 ≤ IBLOCK (i_inum (ic i)) < g_start g → fits1 g L ∅ →
  (∀ s', ftx g s' d0 ws0 (store_inode v (ic i)) (log_add (IBLOCK (i_inum (ic i))) L) ∅ ic → Q tt s') →
  wp (iupdate i) Q s.
Proof.
  intros Ht Hdev Hlen Hib F HQ. apply wp_bind. eapply f_inode; [done|]. rewrite Hdev. apply wp_bind.
  eapply f_bread; [done|done|done|by intros b; rewrite lookup_empty|destruct F as (?&?&?); lia|].
  intros bp s1 _ Ht1. apply wp_bind. eapply f_data; [done|by rewrite lookup_insert_eq|]. intros Hblk.
  eapply f_store; [done|done|by rewrite lookup_insert_eq|by apply put_dinode_block; [apply islot_lt|..]| |].
  { destruct F as (?&?&?). unfold fits. rewrite map_size_insert_None by done. rewrite map_size_empty in *. lia. }
  intros s2 Ht2. eapply f_brelse; [done|by rewrite lookup_insert_eq|]. intros s3 Ht3. rewrite delete_one in Ht3. by apply HQ.
Qed.

(** ** Writing to a data block of the file *)

Lemma data_write v x bn d :
  tree_ok g v x → layout_ok g v → bitmap_at BM v → 0 ≤ bn < MAXFILE → addr_at v x (Dat bn) ≠ 0 →
  let v' := disk_upd v (addr_at v x (Dat bn)) d in
  (∀ p, valid_place p → addr_at v' x p = addr_at v x p) ∧ v' 1 = v 1 ∧
  (∀ c, 0 ≤ c < sb_size (sb_of (v 1)) → used v' c = used v c) ∧
  tree_ok g v' x ∧ layout_ok g v' ∧ bitmap_at BM v'.
Proof.
  intros Ht Hl H1 Hbn Hne v'. pose proof (tr_data _ _ _ Ht (Dat bn) Hbn Hne) as ((Hlo & Hhi) & Hst & Hu).
  pose proof (layout_top g v Hl) as Htop. set (a := addr_at v x (Dat bn)) in *.
  assert (Hsb : v' 1 = v 1) by (unfold v'; by rewrite disk_upd_ne by lia).
  assert (Hus : ∀ c, 0 ≤ c < sb_size (sb_of (v 1)) → used v' c = used v c).
  { intros c Hc. apply used_ext; [done|]. unfold v'. rewrite disk_upd_ne; [done|].
    pose proof (bmblock_mono v c (sb_size (sb_of (v 1)) - 1) ltac:(lia)). lia. }
  assert (He : ∀ k e, 0 ≤ k < 3 + PTRS_PER_BLOCK → entry v' (idx_at v x k) e = entry v (idx_at v x k) e).
  { intros k e Hk. destruct (decide (idx_at v x k = 0)) as [->|Hk0]; [done|]. apply entry_same. unfold v'.
    rewrite disk_upd_ne; [done|]. intros E. by assert (Idx k = Dat bn) by (by apply Ht). }
  assert (Hi : ∀ k, 0 ≤ k < 3 + PTRS_PER_BLOCK → idx_at v' x k = idx_at v x k).
  { intros k Hk. unfold idx_at. case_match; [done|]. by apply (He 2). }
  assert (Ha : ∀ p, valid_place p → addr_at v' x p = addr_at v x p).
  { intros [k|c] Hp; [by apply Hi|]. cbn [addr_at]. destruct (Z.ltb_spec c (Z.of_nat NDIRECT)); [done|].
    simpl in Hp. destruct (index_of_range c) as (Hr & _); [lia|]. rewrite Hi by done. by apply He. }
  assert (Hd : ∀ c, data_block g v c → data_block g v' c).
  { intros c Hc. eapply data_block_mono; [done|by rewrite Hsb| |done]. intros ??. by rewrite Hus. }
  split_and!; try done.
  - split; [apply Ht|apply Ht|..].
    + intros p Hp. rewrite Ha by done. intros ?. by apply Hd, Ht.
    + intros p q Hp Hq. rewrite !Ha by done. by apply Ht.
  - destruct Hl as (? & [? Hbm] & ? & Hm). unfold layout_ok, bitmap_ok, bmblock in *. rewrite Hsb. split_and!; try done.
    intros c Hc. rewrite Hus by lia. by apply Hm.
  - eapply bitmap_at_ext; [exact Hsb| |done]. intros c' Hc' E. by rewrite Hus by (done || lia).
Qed.

(** The effect of writing [src] at [off]: the bytes in the range, and of the
    other bytes of the file and the blocks that are not of the file, nothing. *)
Record written v x (off : Z) (src : list Z) v' x' : Prop := {
  wr_tree : tree_ok g v' x';
  wr_layout : layout_ok g v';
  wr_sb : v' 1 = v 1;
  wr_inode : x' = set_i_addrs (i_addrs x') x;
  wr_used c : 0 ≤ c < sb_size (sb_of (v 1)) → used v c = true → used v' c = true;
  wr_in o : off ≤ o < off + Z.of_nat (length src) → file_byte v' x' o = nth (Z.to_nat (o - off)) src 0;
  wr_out o : 0 ≤ o < MAXFILE * 512 → ¬ (off ≤ o < off + Z.of_nat (length src)) →
    addr_at v x (Dat (o / 512)) ≠ 0 → file_byte v' x' o = file_byte v x o;
  wr_map bn : 0 ≤ bn < MAXFILE → addr_at v x (Dat bn) ≠ 0 → addr_at v' x' (Dat bn) = addr_at v x (Dat bn);
  wr_there bn : off / 512 ≤ bn → bn * 512 < off + Z.of_nat (length src) → addr_at v' x' (Dat bn) ≠ 0;
  wr_other c : data_block g v c → (∀ p, valid_place p → addr_at v x p ≠ c) →
    v' c = v c ∧ ∀ p, valid_place p → addr_at v' x' p ≠ c;
  wr_low c : 0 ≤ c ≤ bmblock v (sb_size (sb_of (v 1)) - 1) → c ≠ BM → v' c = v c;
  wr_same : (∀ bn, off / 512 ≤ bn → bn * 512 < off + Z.of_nat (length src) → addr_at v x (Dat bn) ≠ 0) → x' = x;
}.

Lemma nth_splice off (bs l : list Z) j :
  (off + length bs ≤ length l)%nat →
  nth j (splice off bs l) 0 = if decide (off ≤ j < off + length bs)%nat then nth (j - off) bs 0 else nth j l 0.
Proof. intros H. rewrite !nth_lookup, lookup_splice by done. by case_decide. Qed.

Lemma off_block off j : 0 ≤ off → 0 ≤ j < 512 → (off * 512 + j) / 512 = off ∧ (off * 512 + j) `mod` 512 = j.
Proof.
  intros. split; [symmetry; apply (Z.div_unique _ _ _ j); lia|symmetry; apply (Z.mod_unique _ _ off); lia].
Qed.

(** One round of the loop. *)
Lemma written_block v x v1 x1 off src :
  tree_ok g v x → layout_ok g v → bitmap_at BM v → grown g BM (off / 512) v x v1 x1 →
  0 ≤ off → 0 ≤ off / 512 < MAXFILE → (0 < length src)%nat → Z.of_nat (length src) ≤ 512 - off `mod` 512 →
  let a := addr_at v1 x1 (Dat (off / 512)) in a ≠ 0 → is_block (v1 a) →
  (addr_at v x (Dat (off / 512)) ≠ 0 → x1 = x) →
  written v x off src (disk_upd v1 a (splice (Z.to_nat (off `mod` 512)) src (v1 a))) x1.
Proof.
  intros Ht Hl H1 G Ho Hbn Hpos Hlen a Ha Hblk Hsame. pose proof (Z.div_mod off 512 ltac:(lia)) as Edm.
  pose proof (Z.mod_pos_bound off 512 ltac:(lia)) as Hmod. set (bn := off / 512) in *. set (r := off `mod` 512) in *.
  destruct (data_write v1 x1 bn (splice (Z.to_nat r) src (v1 a))) as (Haddr & Hsb & Hus & Htr & Hl2 & _);
    [apply G|apply G|eapply bitmap_at_ext; [apply G|apply G|done]|done|done|]. fold a in Haddr, Hsb, Hus, Htr, Hl2.
  set (v2 := disk_upd v1 a _) in *. pose proof (gr_sb _ _ _ _ _ _ _ G) as Gsb.
  assert (Hold : addr_at v x (Dat bn) ≠ 0 → a = addr_at v x (Dat bn)).
  { intros Hne. destruct (gr_bn _ _ _ _ _ _ _ G) as [E|(E & _)]; done. }
  assert (Hdat : ∀ c, 0 ≤ c < MAXFILE → addr_at v x (Dat c) ≠ 0 → addr_at v1 x1 (Dat c) = addr_at v x (Dat c)).
  { intros c Hc Hne. destruct (decide (c = bn)) as [->|]; [by apply Hold|by apply (gr_dat _ _ _ _ _ _ _ G)]. }
  assert (Hkeep : ∀ c, 0 ≤ c < MAXFILE → addr_at v x (Dat c) ≠ 0 → v1 (addr_at v x (Dat c)) = v (addr_at v x (Dat c))).
  { intros c Hc Hne. apply (gr_data _ _ _ _ _ _ _ G); [by apply Ht|]. intros k Hk E.
    by assert (Idx k = Dat c) by (apply Ht; [done|done|cbn [addr_at]; congruence|done]). }
  assert (Hbytes : ∀ o, 0 ≤ o < MAXFILE * 512 → 0 ≤ o / 512 < MAXFILE)
    by (intros o Hoo; split; [apply Z.div_pos; lia|apply Z.div_lt_upper_bound; lia]).
  assert (Hlb : (Z.to_nat r + length src ≤ length (v1 a))%nat) by (rewrite Hblk; unfold BSIZE; lia).
  split.
  - done.
  - done.
  - by rewrite Hsb.
  - apply G.
  - intros c Hc Hu. rewrite Hus by (rewrite Gsb; done). by apply (gr_used _ _ _ _ _ _ _ G).
  - intros o Hoo. assert (Eo : o / 512 = bn ∧ o `mod` 512 = r + (o - off)).
    { replace o with (bn * 512 + (r + (o - off))) by lia. replace (bn * 512 + (r + (o - off)) - off) with (o - off) by lia. apply off_block; lia. }
    destruct Eo as [E1 E2]. unfold file_byte. rewrite E1, E2, Haddr by done. fold a. unfold v2. rewrite disk_upd_eq.
    rewrite nth_splice, decide_True by lia. f_equal. lia.
  - intros o Hoo Hn Hne. pose proof (Hbytes o Hoo) as Hob. unfold file_byte. rewrite Haddr, Hdat by done.
    destruct (decide (o / 512 = bn)) as [E|E].
    + rewrite E in *. rewrite <- (Hold Hne). unfold v2. rewrite disk_upd_eq, nth_splice by done.
      pose proof (Z.div_mod o 512 ltac:(lia)). pose proof (Z.mod_pos_bound o 512 ltac:(lia)).
      rewrite decide_False by lia. rewrite (Hold Hne). by rewrite Hkeep.
    + unfold v2. rewrite disk_upd_ne; [by rewrite Hkeep|]. rewrite <- (Hdat _ Hob Hne). intros Ea. apply E.
      assert (Dat (o / 512) = Dat bn) as [= ?]; [|done]. apply (gr_tree _ _ _ _ _ _ _ G); [done|done|congruence|done].
  - intros c Hc Hne. by rewrite Haddr, Hdat.
  - intros c Hc1 Hc2. assert (c = bn) as -> by lia. by rewrite Haddr.
  - intros c Hd Hn. assert (Hp1 : ∀ p, valid_place p → addr_at v1 x1 p ≠ c).
    { intros p Hp E. pose proof Hd as (_ & _ & Hu). destruct p as [k|c'].
      - destruct (gr_idx _ _ _ _ _ _ _ G k Hp) as [E'|E']; cbn [addr_at] in *; [|congruence]. apply (Hn (Idx k) Hp). cbn [addr_at]. congruence.
      - destruct (decide (c' = bn)) as [->|Hne].
        + destruct (gr_bn _ _ _ _ _ _ _ G) as [E'|(_ & E' & _)]; [apply (Hn (Dat bn) Hp); congruence|congruence].
        + apply (Hn (Dat c') Hp). by rewrite <- (gr_dat _ _ _ _ _ _ _ G). }
    split; [|intros p Hp; rewrite Haddr by done; by apply Hp1]. unfold v2. rewrite disk_upd_ne by (intros ->; by apply (Hp1 (Dat bn))).
    apply (gr_data _ _ _ _ _ _ _ G); [done|]. intros k Hk. by apply (Hn (Idx k)).
  - intros c Hc Hne. unfold v2. rewrite disk_upd_ne; [by apply (gr_low _ _ _ _ _ _ _ G)|].
    destruct (tr_data _ _ _ (gr_tree _ _ _ _ _ _ _ G) (Dat bn) Hbn Ha) as ((Hlo & _) & _). fold a in Hlo.
    unfold bmblock in *. rewrite Gsb in Hlo. lia.
  - intros Hm. apply Hsame, Hm; lia.
Qed.

Lemma written_trans v x off src1 v1 x1 src2 v2 x2 :
  layout_ok g v → 0 ≤ off → off + Z.of_nat (length src1 + length src2) ≤ MAXFILE * 512 →
  written v x off src1 v1 x1 → written v1 x1 (off + Z.of_nat (length src1)) src2 v2 x2 →
  written v x off (src1 ++ src2) v2 x2.
Proof.
  intros Hl Ho Hmax W1 W2. pose proof (wr_sb _ _ _ _ _ _ W1) as E1.
  assert (Hb : ∀ o, 0 ≤ o < MAXFILE * 512 → 0 ≤ o / 512 < MAXFILE)
    by (intros o Hoo; split; [apply Z.div_pos; lia|apply Z.div_lt_upper_bound; lia]).
  assert (Hmap : ∀ bn, 0 ≤ bn < MAXFILE → addr_at v x (Dat bn) ≠ 0 → addr_at v1 x1 (Dat bn) ≠ 0)
    by (intros bn Hbn Hne; by rewrite (wr_map _ _ _ _ _ _ W1)).
  split; rewrite ?length_app.
  - apply W2.
  - apply W2.
  - by rewrite (wr_sb _ _ _ _ _ _ W2).
  - pose proof (wr_inode _ _ _ _ _ _ W2) as E2. rewrite (wr_inode _ _ _ _ _ _ W1) in E2. rewrite E2. done.
  - intros c Hc Hu. apply (wr_used _ _ _ _ _ _ W2); [by rewrite E1|]. by apply (wr_used _ _ _ _ _ _ W1).
  - intros o Hoo. destruct (decide (o < off + Z.of_nat (length src1))) as [Hlt|Hge].
    + rewrite (wr_out _ _ _ _ _ _ W2); [|lia|lia|].
      * rewrite (wr_in _ _ _ _ _ _ W1) by lia. by rewrite app_nth1 by lia.
      * apply (wr_there _ _ _ _ _ _ W1).
        -- apply Z.div_le_mono; lia.
        -- pose proof (Z.div_mod o 512 ltac:(lia)). pose proof (Z.mod_pos_bound o 512 ltac:(lia)). lia.
    + rewrite (wr_in _ _ _ _ _ _ W2) by lia. rewrite app_nth2 by lia. f_equal. lia.
  - intros o Hoo Hn Hne. rewrite (wr_out _ _ _ _ _ _ W2), (wr_out _ _ _ _ _ _ W1); (done || lia || auto).
  - intros bn Hbn Hne. by rewrite (wr_map _ _ _ _ _ _ W2), (wr_map _ _ _ _ _ _ W1) by auto.
  - intros bn H1 H2. assert (Hbn : 0 ≤ bn < MAXFILE).
    { pose proof (Z.div_pos off 512 Ho ltac:(lia)). lia. }
    destruct (decide (bn * 512 < off + Z.of_nat (length src1))) as [Hlt|Hge].
    + pose proof (wr_there _ _ _ _ _ _ W1 bn H1 Hlt). by rewrite (wr_map _ _ _ _ _ _ W2).
    + apply (wr_there _ _ _ _ _ _ W2); [|lia]. apply Z.div_le_upper_bound; lia.
  - intros c Hd Hn. destruct (wr_other _ _ _ _ _ _ W1 c Hd Hn) as [Ec Hn1].
    assert (Hd1 : data_block g v1 c) by (eapply data_block_mono; [done|by rewrite E1|apply (wr_used _ _ _ _ _ _ W1)|done]).
    destruct (wr_other _ _ _ _ _ _ W2 c Hd1 Hn1) as [Ec2 Hn2]. split; [by rewrite Ec2|done].
  - intros c Hc Hne. rewrite (wr_low _ _ _ _ _ _ W2); [by apply (wr_low _ _ _ _ _ _ W1)| |done].
    unfold bmblock in *. by rewrite E1.
  - intros Hm. assert (Ex : x1 = x) by (apply (wr_same _ _ _ _ _ _ W1); intros bn ??; apply Hm; lia).
    transitivity x1; [|done]. apply (wr_same _ _ _ _ _ _ W2). intros bn H1 H2.
    assert (off / 512 ≤ bn) by (etrans; [|exact H1]; apply Z.div_le_mono; lia).
    pose proof (Z.div_pos off 512 Ho ltac:(lia)). apply Hmap; [lia|]. apply Hm; lia.
Qed.

(** How many blocks besides the bitmap a write of [n] bytes may log: a block
    that has to be allocated may take two index blocks with it. *)
Fixpoint wcost (k : nat) v x (off n : Z) : nat :=
  match k with
  | O => 0
  | Datatypes.S k =>
      if n <=? 0 then 0 else
      let m := Z.min n (512 - off `mod` 512) in
      (if addr_at v x (Dat (off / 512)) =? 0%Z then 3 else 1) + wcost k v x (off + m) (n - m)
  end.

Lemma wcost_le k v x v' x' off n :
  0 ≤ off → off + n ≤ MAXFILE * 512 →
  (∀ bn, 0 ≤ bn < MAXFILE → addr_at v x (Dat bn) ≠ 0 → addr_at v' x' (Dat bn) ≠ 0) →
  (wcost k v' x' off n ≤ wcost k v x off n)%nat.
Proof.
  intros Ho Hmax Hm. revert off n Ho Hmax. induction k as [|k IH]; intros off n Ho Hmax; [done|]. cbn [wcost].
  destruct (Z.leb_spec n 0); [done|]. pose proof (Z.mod_pos_bound off 512 ltac:(lia)).
  set (m := Z.min n (512 - off `mod` 512)). pose proof (IH (off + m) (n - m) ltac:(lia) ltac:(lia)).
  assert (Hbn : 0 ≤ off / 512 < MAXFILE) by (split; [apply Z.div_pos; lia|apply Z.div_lt_upper_bound; lia]).
  destruct (Z.eqb_spec (addr_at v x (Dat (off / 512))) 0) as [E|E]; [destruct (_ =? _); lia|].
  rewrite (proj2 (Z.eqb_neq _ _)) by auto. lia.
Qed.

Lemma avail_ext v v' n : sb_of (v' 1) = sb_of (v 1) →
  (∀ c, 0 ≤ c < sb_size (sb_of (v 1)) → used v' c = used v c) → avail g BM v n → avail g BM v' n.
Proof.
  intros Hsb Hu (l & Hlen & Hnd & HF). exists l. split_and!; [done|done|]. eapply Forall_impl; [exact HF|].
  cbn beta. intros c (Hc & Hs & E). unfold bmblock. rewrite Hsb. split; [done|]. split; [done|]. by rewrite (Hu c Hc).
Qed.

(** [bmap] for a block to be written. *)
Lemma bmap_for_write s d0 ws0 v L ic i bn n c (Q : Z → fs S → Prop) :
  c = (if addr_at v (ic i) (Dat bn) =? 0 then 3%nat else 1%nat) →
  ready g BM s d0 ws0 v L ∅ ic i (c + n) → 0 ≤ bn < MAXFILE → room g BM L ∅ (3 + c) →
  (∀ r s' v' L' ic', ready g BM s' d0 ws0 v' L' ∅ ic' i n → grown g BM bn v (ic i) v' (ic' i) →
     (∀ j, j ≠ i → ic' j = ic j) → (addr_at v (ic i) (Dat bn) ≠ 0 → ic' i = ic i) →
     addr_at v' (ic' i) (Dat bn) = r → r ≠ 0 → L ⊆ L' →
     (pot BM (log_add r L') ≤ pot BM L + c)%nat → room g BM L' ∅ 2 → Q r s') →
  wp (bmap i bn) Q s.
Proof.
  intros -> HR Hbn Hroom HQ. pose proof HR as (Ht & Htr & Hl & H1 & Hh & Hav).
  destruct (Z.eqb_spec (addr_at v (ic i) (Dat bn)) 0) as [E|E].
  - eapply (bmap_run g Hg BM); [done|done|done|done|]. intros r s' v' L' ic' HR' G Hic Ea Hr HL Hin Hpot.
    eapply HQ; [done|done|done|done|done|done|done|..].
    + pose proof (pot_log_add BM r L'). rewrite bool_decide_true in * by done. lia.
    + destruct Hroom as (?&?&?). unfold room. lia.
  - eapply (bmap_lookup g _ v ic _ (reader_tx g Hg d0 ws0 v L ic)); [|done..|].
    { assert (length L ≤ pot BM L)%nat by (unfold pot; lia). destruct Hroom as (?&?&?). lia. }
    intros s' Ht'. eapply (HQ _ s' v L ic); [|by apply grown_refl|done|done|done|done|done|..].
    + split_and!; try done. eapply avail_le; [done|lia].
    + pose proof (pot_log_add BM (addr_at v (ic i) (Dat bn)) L). case_bool_decide; lia.
    + eapply room_le; [done|lia].
Qed.

(** One round: the block is found or allocated, and [src] stored into it. *)
Lemma write_round {A} s d0 ws0 v L ic i off src n c (k : M (fs S) A) (Q : A → fs S → Prop) :
  c = (if addr_at v (ic i) (Dat (off / 512)) =? 0 then 3%nat else 1%nat) →
  ready g BM s d0 ws0 v L ∅ ic i (c + n) → room g BM L ∅ (3 + c) → 0 ≤ off → 0 ≤ off / 512 < MAXFILE →
  (0 < length src)%nat → Z.of_nat (length src) ≤ 512 - off `mod` 512 →
  (∀ s' v' L' ic', ready g BM s' d0 ws0 v' L' ∅ ic' i n → written v (ic i) off src v' (ic' i) →
     (∀ j, j ≠ i → ic' j = ic j) → L ⊆ L' → (pot BM L' ≤ pot BM L + c)%nat → wp k Q s') →
  wp (b ← bmap i (off / 512); ip ← the_inode i; bp ← cache (bread (i_dev ip) b); d ← cache (buf_data bp);
      cache (buf_set_data bp (splice (Z.to_nat (off `mod` 512)) src d));;
      below (log_write bp);; cache (brelse bp);; k) Q s.
Proof.
  intros Hc HR Hroom Ho Hbn Hpos Hlen HQ. pose proof HR as (_ & Htr0 & Hl0 & H10 & _ & _).
  apply wp_bind. eapply bmap_for_write; [exact Hc|exact HR|done|done|].
  intros a s1 v1 L1 ic1 HR1 G Hic Hsame Ea Hne HL Hpot Hr1. pose proof HR1 as (Ht1 & Htr & Hl1 & H11 & Hh1 & Hav).
  apply wp_bind. eapply f_inode; [done|]. rewrite (tr_dev _ _ _ Htr). apply wp_bind.
  assert (length L1 ≤ pot BM L1)%nat by (unfold pot; lia). pose proof Hr1 as (?&?&?).
  eapply f_bread; [done|done| |by intros b; rewrite lookup_empty|lia|].
  { rewrite <- Ea. by apply (addr_range g v1 Hl1 (ic1 i) (Dat (off / 512)) Htr Hbn); rewrite Ea. }
  intros bp s2 _ Ht2. apply wp_bind. eapply f_data; [done|by rewrite lookup_insert_eq|]. intros Hblk.
  pose proof (Z.mod_pos_bound off 512 ltac:(lia)).
  eapply f_store; [done|done|by rewrite lookup_insert_eq| | |].
  { unfold is_block. rewrite length_splice; [done|]. rewrite Hblk. unfold BSIZE. lia. }
  { unfold fits. rewrite map_size_insert_None by done. rewrite map_size_empty in *. lia. }
  intros s3 Ht3. apply wp_bind. eapply f_brelse; [done|by rewrite lookup_insert_eq|]. intros s4 Ht4. rewrite delete_one in Ht4.
  subst a. destruct (data_write v1 (ic1 i) (off / 512) (splice (Z.to_nat (off `mod` 512)) src (v1 (addr_at v1 (ic1 i) (Dat (off / 512))))))
    as (_ & Hsb & Hus & Htr2 & Hl2 & H12); [done..|].
  eapply HQ; [|by apply written_block|done| |done].
  - split_and!; try done. eapply avail_ext; [by rewrite Hsb|exact Hus|done].
  - intros y Hy. apply elem_of_log_add. right. by apply HL.
Qed.

Lemma writei_loop_run k s d0 ws0 v L ic i off src (Q : Z → fs S → Prop) :
  let n := Z.of_nat (length src) in let c := wcost k v (ic i) off n in
  ready g BM s d0 ws0 v L ∅ ic i c → room g BM L ∅ (3 + c) → 0 ≤ off → off + n ≤ MAXFILE * 512 →
  (length src ≤ k)%nat →
  (∀ s' v' L' ic', ready g BM s' d0 ws0 v' L' ∅ ic' i 0 → (src = [] → v' = v ∧ L' = L ∧ ic' = ic) →
     (src ≠ [] → written v (ic i) off src v' (ic' i)) →
     (∀ j, j ≠ i → ic' j = ic j) → L ⊆ L' → (pot BM L' ≤ pot BM L + c)%nat → Q (off + n) s') →
  wp (writei_loop k i off src) Q s.
Proof.
  cbn zeta. revert s v L ic off src Q. induction k as [|k IH]; intros s v L ic off src Q HR Hroom Ho Hmax Hk HQ.
  { destruct src; [|simpl in Hk; lia]. apply wp_ret. rewrite Z.add_0_r in HQ.
    apply (HQ s v L ic); (done || lia). }
  destruct src as [|c0 src0] eqn:Esrc.
  { apply wp_ret. rewrite Z.add_0_r in HQ. apply (HQ s v L ic); (done || lia). }
  rewrite <- Esrc in *. assert (Hpos : (0 < length src)%nat) by (subst; simpl; lia).
  assert (Hsne : src ≠ []) by (subst; done). set (m := Z.min (Z.of_nat (length src)) (512 - off `mod` 512)).
  replace (writei_loop (Datatypes.S k) i off src) with
    (b ← bmap i (off / 512); ip ← the_inode i; bp ← cache (bread (i_dev ip) b); d ← cache (buf_data bp);
     cache (buf_set_data bp (splice (Z.to_nat (off `mod` 512)) (take (Z.to_nat m) src) d));;
     below (log_write bp);; cache (brelse bp);;
     writei_loop k i (off + m) (drop (Z.to_nat m) src)) by (unfold m; by rewrite Esrc).
  clear Esrc c0 src0. cbn [wcost] in *. rewrite (proj2 (Z.leb_gt _ 0)) in * by lia. cbn zeta in *. fold m in HR, Hroom, HQ.
  pose proof (Z.mod_pos_bound off 512 ltac:(lia)).
  assert (Hbn : 0 ≤ off / 512 < MAXFILE) by (split; [apply Z.div_pos; lia|apply Z.div_lt_upper_bound; lia]).
  assert (Hlt : length (take (Z.to_nat m) src) = Z.to_nat m) by (rewrite length_take; lia).
  assert (Hld : Z.of_nat (length (drop (Z.to_nat m) src)) = Z.of_nat (length src) - m) by (rewrite length_drop; lia).
  set (c1 := if _ =? _ then 3%nat else 1%nat) in *. set (c2 := wcost k v (ic i) (off + m) _) in *.
  eapply (write_round _ _ _ _ _ _ _ _ _ c2 c1); [reflexivity|exact HR|eapply room_le; [exact Hroom|lia]|done|done|lia|lia|].
  intros s1 v1 L1 ic1 HR1 W1 Hic1 HL1 Hp1. pose proof HR as (_ & Htr & Hl & _).
  assert (Hc : (wcost k v1 (ic1 i) (off + m) (Z.of_nat (length (drop (Z.to_nat m) src))) ≤ c2)%nat).
  { rewrite Hld. apply wcost_le; [lia|lia|]. intros bn Hb Hne. by rewrite (wr_map _ _ _ _ _ _ W1). }
  eapply IH; [| |lia|lia|rewrite length_drop; lia|].
  - destruct HR1 as (?&?&?&?&?&?). split_and!; try done. by eapply avail_le.
  - destruct Hroom as (?&?&?). unfold room. lia.
  - intros s2 v2 L2 ic2 HR2 Hnil Hcons Hic2 HL2 Hp2. replace (off + m + _) with (off + Z.of_nat (length src)) by lia.
    eapply HQ; [done|done| |by intros j Hj; rewrite Hic2, Hic1|by etrans|lia].
    intros _. rewrite <- (take_drop (Z.to_nat m) src). destruct (decide (drop (Z.to_nat m) src = [])) as [E|E].
    + destruct (Hnil E) as (-> & _ & ->). by rewrite E, app_nil_r.
    + eapply written_trans; [done|done|rewrite Hlt, length_drop; lia|done|].
      rewrite Hlt. replace (off + Z.of_nat (Z.to_nat m)) with (off + m) by lia. auto.
Qed.

(** A store to an inode block disturbs neither the bitmap nor the file. *)
Lemma low_write v x c d :
  tree_ok g v x → layout_ok g v → bitmap_at BM v → 1 < c < bmblock v 0 →
  let v' := disk_upd v c d in
  (∀ p, valid_place p → addr_at v' x p = addr_at v x p) ∧ v' 1 = v 1 ∧
  (∀ a, 0 ≤ a → used v' a = used v a) ∧
  tree_ok g v' x ∧ layout_ok g v' ∧ bitmap_at BM v' ∧ (∀ a, data_block g v a → v' a = v a).
Proof.
  intros Ht Hl H1 Hc v'. pose proof Hl as (_ & _ & Hs0 & _).
  assert (Hsb : v' 1 = v 1) by (unfold v'; by rewrite disk_upd_ne by lia).
  assert (Hda : ∀ a, data_block g v a → v' a = v a).
  { intros a ((Hlo & _) & _). unfold v'. rewrite disk_upd_ne; [done|].
    pose proof (bmblock_mono v 0 (sb_size (sb_of (v 1)) - 1) ltac:(lia)). lia. }
  assert (Hus : ∀ a, 0 ≤ a → used v' a = used v a).
  { intros a Ha. apply used_ext; [done|]. unfold v'. rewrite disk_upd_ne; [done|].
    pose proof (bmblock_mono v 0 a ltac:(lia)). lia. }
  assert (He : ∀ p e, valid_place p → entry v' (addr_at v x p) e = entry v (addr_at v x p) e).
  { intros p e Hp. destruct (decide (addr_at v x p = 0)) as [->|Hne]; [done|]. apply entry_same, Hda. by apply Ht. }
  assert (Hi : ∀ k, 0 ≤ k < 3 + PTRS_PER_BLOCK → idx_at v' x k = idx_at v x k).
  { intros k Hk. unfold idx_at. case_match; [done|]. by apply (He (Idx 2)). }
  assert (Ha : ∀ p, valid_place p → addr_at v' x p = addr_at v x p).
  { intros [k|bn] Hp; [by apply Hi|]. cbn [addr_at]. destruct (Z.ltb_spec bn (Z.of_nat NDIRECT)); [done|].
    simpl in Hp. destruct (index_of_range bn) as (Hr & _); [lia|]. rewrite Hi by done. by apply (He (Idx (index_of bn))). }
  split_and!; try done.
  - split; [apply Ht|apply Ht|..].
    + intros p Hp. rewrite Ha by done. intros ?. eapply data_block_mono; [done|by rewrite Hsb| |by apply Ht].
      intros [? _] ?. by rewrite Hus.
    + intros p q Hp Hq. rewrite !Ha by done. by apply Ht.
  - destruct Hl as (? & [? Hbm] & ? & Hm). unfold layout_ok, bitmap_ok, bmblock in *. rewrite Hsb. split_and!; try done.
    intros a Hx. rewrite Hus by lia. by apply Hm.
  - eapply bitmap_at_ext; [exact Hsb| |done]. intros c' Hc' E. by rewrite Hus by (done || lia).
Qed.

Lemma tree_size v x sz : tree_ok g v x → tree_ok g v (set_i_size sz x).
Proof. intros [? ? Hd Hi]. by split. Qed.

Lemma file_byte_size v x sz o : file_byte v (set_i_size sz x) o = file_byte v x o.
Proof. done. Qed.

Lemma written_nil v x off :
  tree_ok g v x → layout_ok g v → no_holes v x → 0 ≤ off ≤ i_size x → written v x off [] v x.
Proof.
  intros Ht Hl [Hsz Hm] Ho. split; try done; cbn [length].
  - by destruct x.
  - intros; lia.
  - intros bn H1 H2. pose proof (Z.div_pos off 512 ltac:(lia) ltac:(lia)). apply Hm; lia.
Qed.

(** What a write leaves, with the new size. *)
Lemma written_result v x off src v1 x1 v' x' :
  written v x off src v1 x1 → no_holes v x → 0 ≤ off ≤ i_size x → off + Z.of_nat (length src) ≤ MAXFILE * 512 →
  (∀ p, valid_place p → addr_at v' x1 p = addr_at v1 x1 p) → (∀ a, data_block g v1 a → v' a = v1 a) →
  x' = set_i_size (Z.max (i_size x) (off + Z.of_nat (length src))) x1 →
  no_holes v' x' ∧ (∀ o, 0 ≤ o < i_size x' → file_byte v' x' o =
    if decide (off ≤ o < off + Z.of_nat (length src)) then nth (Z.to_nat (o - off)) src 0 else file_byte v x o).
Proof.
  intros W [Hsz Hm] Ho Hmax Ha Hd ->. set (n := Z.of_nat (length src)) in *.
  assert (Hbm : ∀ bn, 0 ≤ bn → bn * 512 < Z.max (i_size x) (off + n) → 0 ≤ bn < MAXFILE ∧ addr_at v1 x1 (Dat bn) ≠ 0).
  { intros bn H0 H1. split; [lia|]. destruct (decide (bn * 512 < i_size x)) as [Hlt|Hge].
    - rewrite (wr_map _ _ _ _ _ _ W); [by apply Hm|lia|by apply Hm].
    - apply (wr_there _ _ _ _ _ _ W); [|fold n; lia]. apply Z.div_le_upper_bound; lia. }
  split.
  - split; [simpl; lia|]. intros bn H0 H1. simpl in H1. destruct (Hbm bn H0 H1) as [? ?].
    change (addr_at v' (set_i_size _ x1) (Dat bn)) with (addr_at v' x1 (Dat bn)). by rewrite Ha.
  - intros o Hoo. simpl in Hoo. rewrite file_byte_size.
    pose proof (Z.div_mod o 512 ltac:(lia)). pose proof (Z.mod_pos_bound o 512 ltac:(lia)).
    destruct (Hbm (o / 512)) as [Hb Hne]; [apply Z.div_pos; lia|lia|].
    assert (E : file_byte v' x1 o = file_byte v1 x1 o).
    { unfold file_byte. rewrite Ha by done. rewrite Hd; [done|]. by apply (wr_tree _ _ _ _ _ _ W). }
    rewrite E. case_decide as Hin; [by apply (wr_in _ _ _ _ _ _ W)|].
    apply (wr_out _ _ _ _ _ _ W); [lia|done|]. apply Hm; [lia|]. fold n in Hin. lia.
Qed.

(** The end of [writei]: the size, and the inode on disk. *)
Lemma writei_tail s d0 ws0 v L ic i off n (Q : unit → fs S → Prop) :
  ready g BM s d0 ws0 v L ∅ ic i 0 → room g BM L ∅ 1 → 0 ≤ i_inum (ic i) → IBLOCK (i_inum (ic i)) < bmblock v 0 →
  (∀ s' v' L' ic', ready g BM s' d0 ws0 v' L' ∅ ic' i 0 → (∀ j, j ≠ i → ic' j = ic j) →
     ic' i = set_i_size (if (n >? 0) && (off >? i_size (ic i)) then off else i_size (ic i)) (ic i) →
     (∀ p, valid_place p → addr_at v' (ic i) p = addr_at v (ic i) p) → (∀ a, data_block g v a → v' a = v a) →
     v' = (if (n >? 0) && (off >? i_size (ic i)) then store_inode v (ic' i) else v) →
     Q tt s') →
  wp (if (n >? 0) && (off >? i_size (ic i)) then upd_inode i (set_i_size off);; iupdate i else mret tt) Q s.
Proof.
  intros HR Hr Hin Hib HQ. pose proof HR as (Ht & Htr & Hl & H1 & Hh & Hav). pose proof Hl as (_ & [_ Hbm] & Hs0 & _).
  pose proof (Hbm 0 ltac:(lia)) as Hb0.
  destruct ((n >? 0) && (off >? i_size (ic i))).
  2: { apply wp_ret. eapply (HQ s v L ic); try done. by destruct (ic i). }
  apply wp_bind. eapply f_upd_inode; [done|]. intros s1 Ht1. set (x' := set_i_size off (ic i)) in *.
  assert (2 ≤ IBLOCK (i_inum (ic i))).
  { unfold IBLOCK, IPB. pose proof (Z.div_pos (i_inum (ic i)) (512 / 64) Hin ltac:(done)). lia. }
  eapply (iupdate_run _ _ _ _ _ (upd ic i x') i); rewrite ?upd_eq; try done; [apply Htr|apply Htr|simpl; lia| |].
  { assert (length L ≤ pot BM L)%nat by (unfold pot; lia). destruct Hr as (?&?&?). unfold fits1. lia. }
  intros s2 Ht2. destruct (low_write v x' (IBLOCK (i_inum (ic i))) (put_dinode (islot (i_inum (ic i))) (dinode_of x') (v (IBLOCK (i_inum (ic i))))))
    as (Ha & Hsb & Hus & Htr2 & Hl2 & H12 & Hda); [by apply tree_size|done|done|lia|].
  eapply (HQ s2 _ _ (upd ic i x')); [|by intros j Hj; rewrite upd_ne|by rewrite upd_eq|exact Ha|exact Hda|].
  - split_and!; [done|by rewrite upd_eq|done|done|intros k a; by rewrite lookup_empty|].
    eapply (avail_ext v); [by unfold store_inode; rewrite Hsb|intros c [? _]; by apply Hus|done].
  - by rewrite upd_eq.
Qed.

(** The addresses of a file are block numbers. *)
Lemma tree_addrs v x : layout_ok g v → tree_ok g v x → Forall uint (i_addrs x).
Proof.
  intros Hl Ht. pose proof (layout_top g v Hl) as Htop. pose proof (tr_len _ _ _ Ht) as Hlen.
  assert (Hu : ∀ p, valid_place p → uint (addr_at v x p)).
  { intros p Hp. destruct (decide (addr_at v x p = 0)) as [->|Hne]; [unfold uint; lia|].
    destruct (tr_data _ _ _ Ht p Hp Hne) as ((Hlo & _) & Hst & _). destruct Hg as (?&?&?&?). unfold uint. lia. }
  apply Forall_lookup_2. intros k a Ek. pose proof (lookup_lt_Some _ _ _ Ek) as Hk. rewrite Hlen in Hk.
  assert (Ea : nth k (i_addrs x) 0 = a) by (by rewrite nth_lookup, Ek). rewrite <- Ea.
  destruct (decide (k < NDIRECT)%nat) as [Hd|Hd].
  - specialize (Hu (Dat (Z.of_nat k))). cbn [addr_at] in Hu. rewrite (proj2 (Z.ltb_lt _ _)), Nat2Z.id in Hu by lia.
    apply Hu. split; [lia|]. unfold NDIRECT in Hd. assert (Z.of_nat NDIRECT < MAXFILE) by done. unfold NDIRECT in *. lia.
  - specialize (Hu (Idx (Z.of_nat (k - NDIRECT)))). cbn [addr_at] in Hu. unfold idx_at in Hu.
    unfold NADDRS, NUM_INDIRECT, NUM_DOUBLE_INDIRECT in Hk. rewrite (proj2 (Z.ltb_lt _ _)) in Hu by lia.
    replace (NDIRECT + Z.to_nat (Z.of_nat (k - NDIRECT)))%nat with k in Hu by lia.
    apply Hu. unfold valid_place, PTRS_PER_BLOCK. change (512 / 4) with 128. lia.
Qed.

(** An inode as its block holds it. *)
Definition disk_inode v (n : Z) : dinode := get_dinode (islot n) (v (IBLOCK n)).

Lemma islot_block n n' : IBLOCK n = IBLOCK n' → islot n = islot n' → 0 ≤ n → 0 ≤ n' → n = n'.
Proof.
  unfold IBLOCK, islot, IPB. change (512 / 64) with 8. intros E1 E2 Hn Hn'.
  pose proof (Z.div_mod n 8 ltac:(lia)). pose proof (Z.div_mod n' 8 ltac:(lia)).
  pose proof (Z.mod_pos_bound n 8 ltac:(lia)). pose proof (Z.mod_pos_bound n' 8 ltac:(lia)). lia.
Qed.

(** Storing an inode changes it on disk, and no other. *)
Lemma store_inode_disk v x :
  is_block (v (IBLOCK (i_inum x))) → dinode_ok (dinode_of x) → 0 ≤ i_inum x →
  disk_inode (store_inode v x) (i_inum x) = dinode_of x.
Proof.
  intros Hb Hok H0. unfold disk_inode, store_inode. rewrite disk_upd_eq. by apply get_put_dinode; [apply islot_lt|..].
Qed.

Lemma store_inode_other v x n :
  is_block (v (IBLOCK (i_inum x))) → length (i_addrs x) = NADDRS → 0 ≤ i_inum x → 0 ≤ n → n ≠ i_inum x →
  disk_inode (store_inode v x) n = disk_inode v n.
Proof.
  intros Hb Hlen H0 Hn Hne. unfold disk_inode, store_inode. destruct (decide (IBLOCK n = IBLOCK (i_inum x))) as [E|E].
  - rewrite E, disk_upd_eq. apply get_put_dinode_other; [apply islot_lt|done|done|]. intros Es. apply Hne. by apply islot_block.
  - by rewrite disk_upd_ne.
Qed.

(** The inodes on disk after a write: that of the file is the one in memory if
    it was before, and the others are as they were. *)
Lemma written_inodes v x off src v1 x1 v' x' b :
  written v x off src v1 x1 → layout_ok g v → bitmap_at BM v → no_holes v x →
  b = (Z.of_nat (length src) >? 0) && (off + Z.of_nat (length src) >? i_size x) →
  x' = set_i_size (Z.max (i_size x) (off + Z.of_nat (length src))) x1 → off + Z.of_nat (length src) ≤ MAXFILE * 512 →
  0 ≤ off ≤ i_size x → 0 ≤ i_inum x → IBLOCK (i_inum x) < bmblock v 0 → is_block (v1 (IBLOCK (i_inum x))) →
  v' = (if b then store_inode v1 x' else v1) →
  (∀ n, 0 ≤ n → n ≠ i_inum x → IBLOCK n < bmblock v 0 → disk_inode v' n = disk_inode v n) ∧
  (dinode_ok (dinode_of x) → disk_inode v (i_inum x) = dinode_of x →
   dinode_ok (dinode_of x') ∧ disk_inode v' (i_inum x) = dinode_of x').
Proof.
  intros W Hl HB [Hsz Hm] Eb Ex' Hmax Ho Hin Hib Hblk ->. pose proof (wr_inode _ _ _ _ _ _ W) as Ex.
  assert (Einum : i_inum x' = i_inum x) by (by rewrite Ex', Ex).
  assert (Hlen : length (i_addrs x') = NADDRS) by (rewrite Ex'; apply (tr_len _ _ _ (wr_tree _ _ _ _ _ _ W))).
  pose proof Hl as (_ & [Hni Hbm] & Hs0 & _).
  assert (Hlow : ∀ n, 0 ≤ n → IBLOCK n < bmblock v 0 → v1 (IBLOCK n) = v (IBLOCK n)).
  { intros n Hn Hlt. destruct HB as [(c & Hc & EB) _]. pose proof (bmblock_mono v 0 c ltac:(lia)).
    pose proof (bmblock_mono v 0 (sb_size (sb_of (v 1)) - 1) ltac:(lia)).
    apply (wr_low _ _ _ _ _ _ W); [|lia]. split; [|lia]. unfold IBLOCK, IPB. pose proof (Z.div_pos n (512 / 64) Hn ltac:(done)). lia. }
  split.
  - intros n Hn Hne Hlt. transitivity (disk_inode v1 n); [|unfold disk_inode; by rewrite Hlow].
    destruct b; [|done]. apply store_inode_other; rewrite ?Einum; done.
  - intros Hok Ed. assert (Hok' : dinode_ok (dinode_of x')).
    { pose proof (tree_addrs v1 x1 (wr_layout _ _ _ _ _ _ W) (wr_tree _ _ _ _ _ _ W)) as Ha.
      assert (MAXFILE * 512 < 2^32) by done. unfold dinode_ok, dinode_of in *.
      rewrite Ex', Ex in *. simpl in *. destruct Hok as (?&?&?&?&?&?&?). split_and!; try done. unfold uint. lia. }
    split; [done|]. destruct b; [rewrite <- Einum; apply store_inode_disk; rewrite ?Einum; done|].
    unfold disk_inode in *. rewrite Hlow by done. rewrite Ed. f_equal. symmetry in Eb. rewrite !Z.gtb_ltb in Eb.
    assert (E1 : x1 = x).
    { apply (wr_same _ _ _ _ _ _ W). intros bn H1 H2. pose proof (Z.div_pos off 512 ltac:(lia) ltac:(lia)). apply Hm; [lia|].
      apply andb_false_iff in Eb as [E%Z.ltb_ge|E%Z.ltb_ge]; lia. }
    rewrite Ex', E1. rewrite Z.max_l; [by destruct x|]. apply andb_false_iff in Eb as [E%Z.ltb_ge|E%Z.ltb_ge]; lia.
Qed.
End write.

(** ** The theorems *)

Section claims.
Context {S : Type} {BO : BufOps S} {BC : BufCache S}.
Context (dev_write : Z → option (nat → list Z → M (fs S) Z)).
Context (g : geom) (Hg : geom_ok g) (BM : Z).
Implicit Types (s : fs S) (v : Z → block) (L : list Z) (ic : nat → inode).

(** The disk format of inodes: after [iupdate], loading the inode from its
    block (what [ilock] does) gives back every field of the in-memory inode;
    the other inodes of that block and all other blocks are as before. *)
Theorem iupdate_roundtrip s d0 ws0 v L ic i :
  ftx g s d0 ws0 v L ∅ ic → i_dev (ic i) = ROOTDEV → dinode_ok (dinode_of (ic i)) →
  0 ≤ IBLOCK (i_inum (ic i)) < g_start g → fits1 g L ∅ →
  wp (iupdate i) (λ _ s', ∃ v' L', ftx g s' d0 ws0 v' L' ∅ ic ∧
    (∀ y, i_dev y = i_dev (ic i) → i_inum y = i_inum (ic i) → i_ref y = i_ref (ic i) → i_flags y = i_flags (ic i) →
       load_dinode (get_dinode (islot (i_inum (ic i))) (v' (IBLOCK (i_inum (ic i))))) y = ic i) ∧
    (∀ k, k ≠ islot (i_inum (ic i)) →
       get_dinode k (v' (IBLOCK (i_inum (ic i)))) = get_dinode k (v (IBLOCK (i_inum (ic i))))) ∧
    (∀ x, x ≠ IBLOCK (i_inum (ic i)) → v' x = v x)) s.
Proof.
  intros Ht Hdev Hok Hib F. pose proof Hok as (_ & _ & _ & _ & _ & Hlen & _).
  assert (Hblk : is_block (v (IBLOCK (i_inum (ic i))))) by (eapply tx_block; [apply Ht|done]).
  eapply iupdate_run; [done|done|done|done|done|done|]. intros s' Ht'. eexists _, _. split; [exact Ht'|].
  unfold store_inode. split_and!.
  - intros y E1 E2 E3 E4. rewrite disk_upd_eq, get_put_dinode by (done || apply islot_lt).
    unfold load_dinode. rewrite E1, E2, E3, E4. by destruct (ic i).
  - intros k Hk. rewrite disk_upd_eq. by apply get_put_dinode_other; [apply islot_lt|..].
  - intros x Hx. by rewrite disk_upd_ne.
Qed.

(** C11: [writei] of a file that is not a device stores its argument at the
    offset: afterwards every byte of the file is the one written, or the one
    that was there; the file has grown to the end of the write if that lies
    beyond its old end; it has no holes; blocks are allocated as needed, and no
    block that is not the file's, the bitmap or the inode's changes.  On disk, an
    inode that agreed with the cached one agrees with it afterwards, new size and
    addresses included, and no other inode changes.  An offset past the end of the
    file, or a write past the largest file, returns -1 and does nothing.  The
    transaction must have room for the blocks the write can touch, and the first
    block of the bitmap that has a free block as many free ones. *)
Theorem writei_spec s d0 ws0 v L ic i src off :
  let n := Z.of_nat (length src) in
  let c := wcost (length src) v (ic i) off n in
  ready g BM s d0 ws0 v L ∅ ic i c → room g BM L ∅ (4 + c) → no_holes v (ic i) → i_type (ic i) ≠ T_DEV →
  0 ≤ i_inum (ic i) → IBLOCK (i_inum (ic i)) < bmblock v 0 → 0 ≤ off < 2^32 → n < 2^32 →
  (off ≤ i_size (ic i) ∧ off + n ≤ MAXFILE * 512 →
    wp (writei dev_write i src off) (λ r s', r = n ∧ ∃ v' L' ic', ready g BM s' d0 ws0 v' L' ∅ ic' i 0 ∧
      i_size (ic' i) = Z.max (i_size (ic i)) (off + n) ∧ no_holes v' (ic' i) ∧
      (∀ o, 0 ≤ o < i_size (ic' i) → file_byte v' (ic' i) o =
         if decide (off ≤ o < off + n) then nth (Z.to_nat (o - off)) src 0 else file_byte v (ic i) o) ∧
      (∀ a, data_block g v a → (∀ p, valid_place p → addr_at v (ic i) p ≠ a) → v' a = v a) ∧
      (∀ j, j ≠ i → ic' j = ic j) ∧
      (∀ m, 0 ≤ m → m ≠ i_inum (ic i) → IBLOCK m < bmblock v 0 → disk_inode v' m = disk_inode v m) ∧
      (dinode_ok (dinode_of (ic i)) → disk_inode v (i_inum (ic i)) = dinode_of (ic i) →
       dinode_ok (dinode_of (ic' i)) ∧ disk_inode v' (i_inum (ic i)) = dinode_of (ic' i))) s) ∧
  (¬ (off ≤ i_size (ic i) ∧ off + n ≤ MAXFILE * 512) → writei dev_write i src off s = Ok (-1) s).
Proof.
  intros n c HR Hroom [Hsz Hmap] Hty Hin Hib Hoff Hn32. pose proof HR as (Ht & Htr & Hl & H1 & Hh & Hav).
  split.
  - intros [Hle Hmax]. unfold writei. apply wp_bind. eapply f_inode; [done|]. fold n.
    rewrite (proj2 (Z.eqb_neq _ _) Hty), (Z.gtb_ltb off), (proj2 (Z.ltb_ge _ off)) by lia. cbn [orb].
    assert (HM : MAXFILE * 512 < 2^32) by done. rewrite w32_small by (unfold n in *; lia).
    rewrite (proj2 (Z.ltb_ge _ off)) by (unfold n; lia). rewrite Z.gtb_ltb, (proj2 (Z.ltb_ge _ (off + n))) by lia.
    apply wp_bind. eapply (writei_loop_run g Hg BM); fold n; fold c; [done|eapply room_le; [done|lia]|lia|lia|done|].
    intros s1 v1 L1 ic1 HR1 Hnil Hcons Hic1 HL1 Hp1. apply wp_bind. eapply f_inode; [apply HR1|]. apply wp_bind.
    assert (W : written g BM v (ic i) off src v1 (ic1 i)).
    { destruct (decide (src = [])) as [E|E]; [|by apply Hcons]. destruct (Hnil E) as (-> & _ & ->). rewrite E.
      apply written_nil; [done|done|by split|lia]. }
    pose proof (wr_inode _ _ _ _ _ _ _ _ W) as Ex.
    assert (Einum : i_inum (ic1 i) = i_inum (ic i)) by (by rewrite Ex).
    assert (Esz : i_size (ic1 i) = i_size (ic i)) by (by rewrite Ex).
    eapply (writei_tail g Hg BM); [done| |by rewrite Einum|by unfold bmblock; rewrite Einum, (wr_sb _ _ _ _ _ _ _ _ W)|].
    { destruct Hroom as (?&?&?). unfold room. lia. }
    intros s2 v2 L2 ic2 HR2 Hic2 Ei Ha Hd Ev. apply wp_ret. split; [done|]. exists v2, L2, ic2. rewrite Esz in Ei, Ev.
    assert (Ei' : ic2 i = set_i_size (Z.max (i_size (ic i)) (off + n)) (ic1 i)).
    { rewrite Ei. f_equal. rewrite !Z.gtb_ltb. destruct (Z.ltb_spec 0 n), (Z.ltb_spec (i_size (ic i)) (off + n)); simpl; lia. }
    destruct (written_result g BM v (ic i) off src v1 (ic1 i) v2 (ic2 i) W) as [Hnh Hby];
      [by split|lia|done|done|done|done|].
    split; [done|]. split; [by rewrite Ei'|]. split; [done|]. split; [done|].
    split; [|split; [by intros j Hj; rewrite Hic2, Hic1|]].
    2: { eapply (written_inodes g Hg BM); [exact W|done|done|by split|reflexivity|done|lia|lia|lia|done| |exact Ev].
         eapply tx_block; [apply HR1|]. pose proof Hl as (_ & [_ Hbm] & Hs0 & _). pose proof (Hbm 0 ltac:(lia)).
         split; [|lia]. unfold IBLOCK, IPB. pose proof (Z.div_pos (i_inum (ic i)) (512 / 64) Hin ltac:(done)). lia. }
    intros a Hda Hna. destruct (wr_other _ _ _ _ _ _ _ _ W a Hda Hna) as [E1 _]. rewrite <- E1. apply Hd.
    eapply data_block_mono; [done|by rewrite (wr_sb _ _ _ _ _ _ _ _ W)|apply (wr_used _ _ _ _ _ _ _ _ W)|done].
  - intros Hbad. destruct Ht as [_ Hic]. unfold writei, mbind, M_bind, the_inode, gets. rewrite Hic. fold n.
    rewrite (proj2 (Z.eqb_neq _ _) Hty). rewrite !Z.gtb_ltb.
    destruct (Z.ltb_spec (i_size (ic i)) off); [done|]. cbn [orb]. destruct (Z.ltb_spec (w32 (off + n)) off) as [|Hw]; [done|].
    assert (HM : MAXFILE * 512 < 2^32) by done.
    rewrite (proj2 (Z.ltb_lt _ (off + n))); [done|]. lia.
Qed.
End claims.
