(* ===== verification/FsDir.v ===== *)
(** * Directories, paths and the inode cache

    [iget] keeps at most one cached copy of an inode; [dirlookup] finds the
    first entry with the given name; [skipelem] splits a path at its slashes;
    [itrunc] does not do what it should for files with indirect blocks. *)

From stdpp Require Import base numbers list strings gmap.
From Stdlib Require Import ZArith Lia.
From S2P Require Import Prelude CString Blocks Log Spinlock Fs FsBlock FsFile.

#[local] Open Scope Z_scope.

(** ** Names *)

(** The name a 14-byte field or a longer C string stands for. *)
Definition cname (l : list Z) : list Z := until_nul (take DIRSIZ l).

Lemma cstr_list (m : mem) a n l :
  (∀ k, (k < n)%nat → m (a + Z.of_nat k) = nth k l 0) → cstr m a n = until_nul (take n l).
Proof.
  unfold cstr. revert a l. induction n as [|n IH]; intros a l H; [done|]. cbn [bytes_at until_nul].
  pose proof (H 0%nat ltac:(lia)) as H0. rewrite Z.add_0_r in H0. rewrite H0. destruct l as [|x l]; [done|]. simpl.
  destruct (x =? 0); [done|]. f_equal. apply IH. intros k Hk.
  transitivity (m (a + Z.of_nat (Datatypes.S k))); [f_equal; lia|]. apply H. lia.
Qed.

(** [namecmp] compares names. *)
Lemma namecmp_zero s t : namecmp s t = 0 ↔ cname s = cname t.
Proof.
  unfold namecmp, cname, DIRSIZ. rewrite strncmp_zero by lia.
  rewrite (cstr_list _ 0 14 s), (cstr_list _ 4096 14 t); [done|..]; intros k Hk; unfold two_strings.
  - rewrite (proj2 (Z.ltb_ge _ _)) by lia. f_equal. lia.
  - rewrite (proj2 (Z.ltb_lt _ _)) by lia. f_equal. lia.
Qed.

(** ** The inode cache *)

Section icache.
Context {S : Type} {BO : BufOps S}.
Implicit Types (s : fs S) (ic : nat → inode).

(** No inode is cached twice, and reference counts are those of an [int]. *)
Definition ic_ok ic : Prop :=
  (∀ i j, (i < NINODE)%nat → (j < NINODE)%nat → 0 < i_ref (ic i) → 0 < i_ref (ic j) →
     i_dev (ic i) = i_dev (ic j) → i_inum (ic i) = i_inum (ic j) → i = j) ∧
  ∀ i, (i < NINODE)%nat → 0 ≤ i_ref (ic i) < 2^31.

(** The effect of [iget] on the cache. *)
Definition iget_result ic (dev inum : Z) : option (nat * (nat → inode)) :=
  match iget_hit ic dev inum with
  | Some i => Some (i, upd ic i (set_i_ref (s32 (i_ref (ic i) + 1)) (ic i)))
  | None =>
      match iget_empty ic with
      | Some i => Some (i, upd ic i (set_i_flags 0 (set_i_ref 1 (set_i_inum inum (set_i_dev dev (ic i))))))
      | None => None
      end
  end.

Lemma iget_run dev inum s (Q : nat → fs S → Prop) i ic' :
  ic_lock s = false → iget_result (icache s) dev inum = Some (i, ic') →
  Q i (mkFs (fs_log s) false ic' (ic_woken s)) → wp (iget dev inum) Q s.
Proof.
  intros Hl E HQ. unfold iget, ic_acquire, ic_release, upd_inode. apply wp_bind, wp_acquire; [done|].
  apply wp_bind, wp_gets. cbn [icache put_ic_lock]. unfold iget_result in E.
  destruct (iget_hit (icache s) dev inum) as [k|].
  - injection E as <- <-. apply wp_bind, wp_modify, wp_bind, wp_release; [done|]. by apply wp_ret.
  - destruct (iget_empty (icache s)) as [k|]; [|done]. injection E as <- <-.
    apply wp_bind, wp_modify, wp_bind, wp_release; [done|]. by apply wp_ret.
Qed.

Lemma in_table i : In i (seq 0 NINODE) → (i < NINODE)%nat.
Proof. rewrite in_seq. lia. Qed.

Lemma iget_hit_spec ic dev inum i : iget_hit ic dev inum = Some i →
  (i < NINODE)%nat ∧ 0 < i_ref (ic i) ∧ i_dev (ic i) = dev ∧ i_inum (ic i) = inum.
Proof.
  intros [H1%in_table H2]%find_some. apply andb_true_iff in H2 as [[H2 H3]%andb_true_iff H4].
  apply Z.gtb_lt in H2. apply Z.eqb_eq in H3, H4. done.
Qed.

Lemma iget_miss_spec ic dev inum j : iget_hit ic dev inum = None → (j < NINODE)%nat → 0 < i_ref (ic j) →
  i_dev (ic j) = dev → i_inum (ic j) = inum → False.
Proof.
  intros H Hj Hr Hd Hi. pose proof (find_none _ _ H j) as Hn. cbn beta in Hn.
  rewrite (proj2 (Z.gtb_lt _ _) Hr), (proj2 (Z.eqb_eq _ _) Hd), (proj2 (Z.eqb_eq _ _) Hi) in Hn.
  assert (In j (seq 0 NINODE)) by (apply in_seq; lia). by specialize (Hn H0).
Qed.

(** How the entry [iget] returns was got: one more reference to the copy that is
    cached, or the first reference to a new entry, whose contents are not read
    yet, when no copy is. *)
Definition counted ic ic' (dev inum : Z) (i : nat) : Prop :=
  i_ref (ic' i) = i_ref (ic i) + 1 ∧
  (0 < i_ref (ic i) → ic' i = set_i_ref (i_ref (ic i) + 1) (ic i)) ∧
  (i_ref (ic i) = 0 → i_flags (ic' i) = 0 ∧
     ∀ j, (j < NINODE)%nat → 0 < i_ref (ic j) → ¬ (i_dev (ic j) = dev ∧ i_inum (ic j) = inum)).

Lemma iget_result_counted ic dev inum i ic' :
  ic_ok ic → (∀ j, (j < NINODE)%nat → i_ref (ic j) < 2^31 - 1) → iget_result ic dev inum = Some (i, ic') →
  counted ic ic' dev inum i.
Proof.
  intros [_ Hr] Hlt E. unfold iget_result in E. unfold counted. destruct (iget_hit ic dev inum) as [k|] eqn:Eh.
  - injection E as <- <-. destruct (iget_hit_spec _ _ _ _ Eh) as (Hk & Hp & _).
    rewrite upd_eq, s32_small by (pose proof (Hr k Hk); pose proof (Hlt k Hk); lia). split_and!; [done|done|lia].
  - destruct (iget_empty ic) as [k|] eqn:Ee; [|done]. injection E as <- <-.
    apply find_some in Ee as [Hk%in_table H0]. apply Z.eqb_eq in H0. rewrite upd_eq. simpl. split_and!; [lia|lia|].
    intros _. split; [done|]. intros j Hj Hp [Hd Hi]. by apply (iget_miss_spec ic dev inum j).
Qed.

Lemma iget_result_ok ic dev inum i ic' :
  ic_ok ic → (∀ j, (j < NINODE)%nat → i_ref (ic j) < 2^31 - 1) → iget_result ic dev inum = Some (i, ic') →
  ic_ok ic' ∧ (i < NINODE)%nat ∧ 0 < i_ref (ic' i) ∧ i_dev (ic' i) = dev ∧ i_inum (ic' i) = inum ∧
  ∀ j, j ≠ i → ic' j = ic j.
Proof.
  intros [Hinj Hr] Hlt E. unfold iget_result in E. destruct (iget_hit ic dev inum) as [k|] eqn:Eh.
  - injection E as <- <-. destruct (iget_hit_spec _ _ _ _ Eh) as (Hk & Hp & Hd & Hi).
    assert (Er : s32 (i_ref (ic k) + 1) = i_ref (ic k) + 1).
    { apply s32_small. pose proof (Hr k Hk). pose proof (Hlt k Hk). lia. }
    assert (Hsame : ∀ j, i_dev (upd ic k (set_i_ref (s32 (i_ref (ic k) + 1)) (ic k)) j) = i_dev (ic j) ∧
      i_inum (upd ic k (set_i_ref (s32 (i_ref (ic k) + 1)) (ic k)) j) = i_inum (ic j) ∧
      (0 < i_ref (upd ic k (set_i_ref (s32 (i_ref (ic k) + 1)) (ic k)) j) → 0 < i_ref (ic j))).
    { intros j. unfold upd. destruct (Nat.eqb_spec j k) as [->|]; simpl; auto. }
    rewrite !upd_eq. simpl. split_and!; [split|done|lia|done|done|intros j Hj; by rewrite upd_ne].
    + intros a b Ha Hb. destruct (Hsame a) as (-> & -> & H1), (Hsame b) as (-> & -> & H2). intros ????. apply Hinj; auto.
    + intros j Hj. unfold upd. destruct (Nat.eqb_spec j k) as [->|]; [|by apply Hr]. simpl. pose proof (Hr k Hk). pose proof (Hlt k Hk). lia.
  - destruct (iget_empty ic) as [k|] eqn:Ee; [|done]. injection E as <- <-.
    apply find_some in Ee as [Hk%in_table H0]. apply Z.eqb_eq in H0. rewrite !upd_eq. simpl.
    split_and!; [split|done|lia|done|done|intros j Hj; by rewrite upd_ne].
    + intros a b Ha Hb. unfold upd. destruct (Nat.eqb_spec a k) as [->|], (Nat.eqb_spec b k) as [->|]; simpl; try done.
      * intros _ Hp Ed Ei. exfalso. eapply (iget_miss_spec ic dev inum b); eauto.
      * intros Hp _ Ed Ei. exfalso. eapply (iget_miss_spec ic dev inum a); eauto.
      * by apply Hinj.
    + intros j Hj. unfold upd. destruct (Nat.eqb_spec j k) as [->|]; [simpl; lia|by apply Hr].
Qed.
End icache.

(** ** Directories *)

(** The [k]-th entry of a directory. *)
Definition dir_entry (v : Z → block) (x : inode) (k : nat) : dirent :=
  get_dirent (file_bytes v x (16 * Z.of_nat k) 16).

(** The entry is in use and has the name. *)
Definition dir_match (v : Z → block) (x : inode) (nm : list Z) (k : nat) : bool :=
  bool_decide (de_inum (dir_entry v x k) ≠ 0) && bool_decide (cname (de_name (dir_entry v x k)) = cname nm).

Section dirs.
Context {S : Type} {BO : BufOps S}.
Context (dev_read : Z → option (nat → Z → M (fs S) (Z * list Z))).
Context (g : geom) (P : fs S → gmap nat Z → Prop) (v : Z → block) (ic : nat → inode) (cap : nat).
Context (RD : reader g P v ic cap) (Hcap : (2 ≤ cap)%nat) (Hl : layout_ok g v).
Context (dp : nat) (nm : list Z) (n : nat).
Context (Htr : tree_ok g v (ic dp)) (Hnh : no_holes v (ic dp)) (Hty : i_type (ic dp) = T_DIR)
  (Hsz : i_size (ic dp) = 16 * Z.of_nat n).

Lemma dir_readi s j (Q : Z * list Z → fs S → Prop) :
  P s ∅ → (j < n)%nat →
  (∀ s', P s' ∅ → Q (16, file_bytes v (ic dp) (16 * Z.of_nat j) 16) s') →
  wp (readi dev_read dp (16 * Z.of_nat j) 16) Q s.
Proof.
  intros HP Hj HQ. assert (Hmax : MAXFILE * 512 < 2^32 - 16) by done. pose proof Hnh as [Hm _].
  eapply (readi_run dev_read g P v ic cap RD Hcap Hl); [done|done|done|by rewrite Hty|lia|lia|].
  intros s' HP'. unfold readi_result. rewrite Hsz, Z.gtb_ltb, (proj2 (Z.ltb_ge _ _)) by lia.
  rewrite (proj2 (Z.leb_gt _ _)) by lia. cbn [orb]. rewrite Z.min_l by lia. by apply HQ.
Qed.

Lemma dirlookup_loop_run k s j (Q : option (Z * Z) → fs S → Prop) :
  P s ∅ → (j ≤ n)%nat → (n - j ≤ k)%nat →
  (∀ s', P s' ∅ → Q ((λ i, (16 * Z.of_nat i, de_inum (dir_entry v (ic dp) i))) <$>
                       List.find (dir_match v (ic dp) nm) (seq j (n - j))) s') →
  wp (dirlookup_loop dev_read k dp nm (16 * Z.of_nat j)) Q s.
Proof.
  revert s j. induction k as [|k IH]; intros s j HP Hj Hk HQ; cbn [dirlookup_loop];
    apply wp_bind; (eapply rd_inode; [done..|]); rewrite Hsz.
  - assert (j = n) as -> by lia. rewrite (proj2 (Z.ltb_ge _ _)) by lia. apply wp_ret.
    rewrite Nat.sub_diag in HQ. by apply HQ.
  - destruct (Z.ltb_spec (16 * Z.of_nat j) (16 * Z.of_nat n)) as [Hlt|Hge].
    2: { assert (j = n) as -> by lia. apply wp_ret. rewrite Nat.sub_diag in HQ. by apply HQ. }
    apply wp_bind, dir_readi; [done|lia|]. intros s1 HP1.
    change (negb (16 =? 16)) with false. cbn iota. fold (dir_entry v (ic dp) j). cbn zeta.
    replace (n - j)%nat with (Datatypes.S (n - Datatypes.S j)) in HQ by lia. cbn [seq List.find] in HQ.
    replace (16 * Z.of_nat j + 16) with (16 * Z.of_nat (Datatypes.S j)) by lia.
    unfold dir_match in HQ at 1. destruct (Z.eqb_spec (de_inum (dir_entry v (ic dp) j)) 0) as [E|E].
    { apply IH; [done|lia|lia|]. rewrite bool_decide_false in HQ by lia. exact HQ. }
    rewrite bool_decide_true in HQ by done. cbn [andb] in HQ. destruct (Z.eqb_spec (namecmp nm (de_name (dir_entry v (ic dp) j))) 0) as [E2|E2].
    + rewrite namecmp_zero in E2. rewrite bool_decide_true in HQ by done. by apply wp_ret, HQ.
    + rewrite namecmp_zero in E2. rewrite bool_decide_false in HQ by congruence. apply IH; [done|lia|lia|exact HQ].
Qed.
End dirs.

(** ** Paths *)

(** The parts of a path between slashes. *)
Fixpoint split_path (l : list Z) : list (list Z) :=
  match l with
  | [] => [[]]
  | c :: l =>
      if c =? 47 then [] :: split_path l
      else match split_path l with e :: es => (c :: e) :: es | [] => [[c]] end
  end.
Definition elems (path : list Z) : list (list Z) := filter (λ e, e ≠ []) (split_path path).

(** The names that repeated calls of [skipelem] put into the buffer. *)
Fixpoint path_names (k : nat) (path name : list Z) : list (list Z) :=
  match k with
  | O => []
  | Datatypes.S k =>
      match skipelem path name with
      | None => []
      | Some (path, name) => cname name :: path_names k path name
      end
  end.

Lemma split_path_cons l : ∃ e es, split_path l = e :: es.
Proof. destruct l as [|c l]; [by eexists _, _|]. simpl. case_match; [by eexists _, _|]. destruct (split_path l); by eexists _, _. Qed.

Lemma elems_skip path : elems (skip_slashes path) = elems path.
Proof.
  induction path as [|c path IH]; [done|]. simpl. destruct (Z.eqb_spec c 47) as [->|Hne]; [|done].
  rewrite IH. unfold elems. simpl. by rewrite filter_cons_False by (intros H; by apply H).
Qed.

Lemma skip_slashes_head path : head (skip_slashes path) ≠ Some 47.
Proof.
  induction path as [|c path IH]; [done|]. simpl. destruct (Z.eqb_spec c 47); [done|]. simpl. congruence.
Qed.

Lemma span_elem_spec path e rest : span_elem path = (e, rest) →
  path = e ++ rest ∧ Forall (λ c, c ≠ 47) e ∧ (rest = [] ∨ head rest = Some 47) ∧
  split_path path = match split_path rest with h :: t => (e ++ h) :: t | [] => [e] end.
Proof.
  revert e rest. induction path as [|c path IH]; intros e rest; simpl; [by intros [= <- <-]; split_and!; [|constructor|left|]|].
  destruct (Z.eqb_spec c 47) as [->|Hne].
  - intros [= <- <-]. split_and!; [done|constructor|by right|]. simpl. done.
  - destruct (span_elem path) as [e' r] eqn:E. intros [= <- <-]. destruct (IH e' r eq_refl) as (-> & Hf & Hr & Hs).
    split_and!; [done|by constructor|done|]. rewrite Hs. destruct (split_path_cons r) as (h & t & ->). done.
Qed.

Lemma until_nul_all e : Forall (λ c, c ≠ 0) e → until_nul e = e.
Proof.
  induction 1 as [|c e Hc He IH]; [done|]. simpl. by rewrite (proj2 (Z.eqb_neq _ _)), IH.
Qed.

Lemma until_nul_app e l : Forall (λ c, c ≠ 0) e → until_nul (e ++ 0 :: l) = e.
Proof.
  induction 1 as [|c e Hc He IH]; [done|]. simpl. by rewrite (proj2 (Z.eqb_neq _ _)), IH.
Qed.

(** The buffer after [skipelem]. *)
Lemma skipelem_name e name :
  length name = DIRSIZ → Forall (λ c, c ≠ 0) e →
  let name' := if (DIRSIZ <=? length e)%nat then splice 0 (take DIRSIZ e) name else <[length e := 0]> (splice 0 e name) in
  cname name' = take DIRSIZ e ∧ length name' = DIRSIZ.
Proof.
  intros Hn H0. cbn zeta. unfold cname, splice. rewrite !take_0. cbn [app Nat.add]. destruct (Nat.leb_spec DIRSIZ (length e)) as [Hle|Hlt].
  - assert (Ht : length (take DIRSIZ e) = DIRSIZ) by (rewrite length_take; lia).
    rewrite Ht, drop_ge, app_nil_r by lia. split; [|done].
    rewrite take_take, Nat.min_id. by apply until_nul_all, Forall_take.
  - rewrite length_insert, length_app, length_drop. split; [|lia]. rewrite (take_ge e) by lia.
    destruct (drop (length e) name) as [|x l] eqn:E.
    { apply (f_equal length) in E. rewrite length_drop in E. simpl in E. lia. }
    rewrite insert_app_r_alt, Nat.sub_diag by lia. simpl.
    rewrite take_ge by (apply (f_equal length) in E; rewrite length_drop in E; simpl in E; rewrite length_app; simpl; lia).
    by apply until_nul_app.
Qed.

(** One step: the first element, cut to fourteen bytes, and the rest. *)
Lemma skipelem_spec path name :
  length name = DIRSIZ → Forall (λ c, c ≠ 0) path →
  match skipelem path name with
  | None => elems path = []
  | Some (path', name') => ∃ e, elems path = e :: elems path' ∧ cname name' = take DIRSIZ e ∧
      length name' = DIRSIZ ∧ (length path' < length path)%nat ∧ Forall (λ c, c ≠ 0) path'
  end.
Proof.
  intros Hn H0. unfold skipelem. rewrite <- elems_skip.
  assert (Hsk : Forall (λ c, c ≠ 0) (skip_slashes path) ∧ (length (skip_slashes path) ≤ length path)%nat).
  { clear -H0. induction path as [|c path IH]; [done|]. apply Forall_cons in H0 as [? ?]. simpl.
    destruct (c =? 47); [destruct IH; [done|split; [done|lia]]|]. split; [by constructor|done]. }
  destruct Hsk as [Hs0 Hsl]. pose proof (skip_slashes_head path) as Hh.
  destruct (skip_slashes path) as [|c p] eqn:Ep; [done|]. destruct (span_elem (c :: p)) as [e rest] eqn:Es.
  destruct (span_elem_spec _ _ _ Es) as (E & Hne & Hr & Hsp).
  assert (Hel : e ≠ []). { intros ->. destruct Hr as [->|Hr]; [done|]. simpl in E. subst rest. simpl in Hr. done. }
  rewrite E in Hs0. apply Forall_app in Hs0 as [He0 Hr0].
  exists e. split_and!.
  - unfold elems at 1. rewrite Hsp. destruct Hr as [->|Hr].
    + simpl. rewrite app_nil_r. by rewrite filter_cons_True.
    + destruct rest as [|r rest]; [done|]. injection Hr as ->. rewrite elems_skip. unfold elems. simpl.
      rewrite app_nil_r. rewrite filter_cons_True by done. f_equal.
  - by apply skipelem_name.
  - by apply skipelem_name.
  - assert (length (skip_slashes rest) ≤ length rest)%nat.
    { clear. induction rest as [|r rest IH]; [done|]. simpl. destruct (r =? 47); simpl; lia. }
    apply (f_equal length) in E. rewrite length_app in E. destruct e; [done|]. simpl in *. lia.
  - clear -Hr0. induction rest as [|r rest IH]; [done|]. apply Forall_cons in Hr0 as [? ?]. simpl.
    destruct (r =? 47); [auto|by constructor].
Qed.

(** Walking a path with [skipelem] visits exactly its elements: the non-empty
    parts between slashes, each cut to the fourteen bytes of a directory entry,
    in order, whatever the number of slashes before, between and after them;
    the walk ends, within as many steps as the path has bytes. *)
Theorem skipelem_walk k path name :
  length name = DIRSIZ → Forall (λ c, c ≠ 0) path → (length path < k)%nat →
  path_names k path name = take DIRSIZ <$> elems path.
Proof.
  revert path name. induction k as [|k IH]; intros path name Hn H0 Hk; [lia|]. cbn [path_names].
  pose proof (skipelem_spec path name Hn H0) as Hs. destruct (skipelem path name) as [[path' name']|]; [|by rewrite Hs].
  destruct Hs as (e & -> & -> & Hn' & Hlt & H0'). cbn [fmap list_fmap]. f_equal. apply IH; [done|done|lia].
Qed.

(** "/a//bb" *)
Lemma skipelem_walk_witness : path_names 7 [47; 97; 47; 47; 98; 98] (replicate 14 7) = [[97]; [98; 98]].
Proof.
  refine (skipelem_walk 7 [47; 97; 47; 47; 98; 98] (replicate 14 7) eq_refl _ _).
  - repeat constructor; discriminate.
  - apply Nat.ltb_lt. reflexivity.
Defined.

(** ** [itrunc] *)

Section itrunc.
Context {S : Type} {BO : BufOps S}.
Implicit Types (s : fs S).

Lemma wlp_never {A B} (m : M (fs S) A) (f : A → M (fs S) B) s :
  wlp m (λ a s', ∀ Q : B → fs S → Prop, wlp (f a) Q s') s → ∀ Q, wlp (m ≫= f) Q s.
Proof. intros H Q. apply wlp_bind. eapply wlp_mono; [exact H|]. auto. Qed.

Lemma for_each_never (l : list nat) (f : nat → M (fs S) unit) :
  (∃ j, j ∈ l ∧ ∀ s Q, wlp (f j) Q s) → ∀ s Q, wlp (for_each l f) Q s.
Proof.
  intros (j & Hj & Hf). induction l as [|i l IH]; [by apply elem_of_nil in Hj|]. intros s Q. cbn [for_each].
  apply wlp_bind. apply elem_of_cons in Hj as [->|Hj]; [apply Hf|].
  unfold wlp at 1. destruct (f i s); try done. by apply IH.
Qed.

(** The direct addresses are cleared; the others stay. *)
Lemma itrunc_direct_keeps i s :
  wlp (itrunc_direct i) (λ _ s', nth NDIRECT (i_addrs (icache s' i)) 0 = nth NDIRECT (i_addrs (icache s i)) 0) s.
Proof.
  unfold itrunc_direct.
  apply (wlp_for_each _ _ (λ l s', nth NDIRECT (i_addrs (icache s' i)) 0 = nth NDIRECT (i_addrs (icache s i)) 0 ∧ ∀ k, k ∈ l → (k < NDIRECT)%nat)).
  - split; [done|]. intros k Hk. apply elem_of_seq in Hk. lia.
  - intros k l s' [E Hk]. assert (Hlt : (k < NDIRECT)%nat) by (apply Hk; apply list_elem_of_here).
    assert (Hl : ∀ k, k ∈ l → (k < NDIRECT)%nat) by (intros k' Hk'; apply Hk; by apply list_elem_of_further).
    apply wlp_bind, wlp_gets. cbn zeta. apply wlp_if; intros _; [|by apply wlp_ret].
    apply wlp_bind, wlp_zoom. intros [] l'. apply wlp_modify. split; [|done]. simpl. rewrite upd_eq. simpl.
    rewrite nth_insert_ne by lia. exact E.
  - by intros s' [? _].
Qed.

(** C15: [itrunc] is broken for files of more than ten blocks: its loop over the
    singly-indirect block runs to [NINDIRECT], which counts both singly-indirect
    blocks, and so reads past the end of the 512-byte buffer.  Whatever the
    disk holds, truncating a file that has an indirect block never returns
    from code whose behaviour the language defines. *)
Theorem itrunc_reads_past_buffer i s :
  nth NDIRECT (i_addrs (icache s i)) 0 ≠ 0 → ∀ u s', itrunc i s ≠ Ok u s'.
Proof.
  intros Hne u s' E.
  assert (H : ∀ Q, wlp (itrunc i) Q s).
  { unfold itrunc. apply wlp_never. eapply wlp_mono; [apply itrunc_direct_keeps|]. cbn beta. intros _ s1 E1 Q.
    apply wlp_bind, wlp_gets. cbn zeta. rewrite E1, (proj2 (Z.eqb_neq _ _) Hne). cbn [negb]. revert Q. apply wlp_never.
    apply wlp_bind, wlp_zoom. intros bp l. apply wlp_bind. apply for_each_never.
    exists 128%nat. split; [apply elem_of_seq; split; [lia|]; apply Nat.ltb_lt; reflexivity|]. intros s2 Q. done. }
  exact (wlp_ok _ _ _ _ _ (H (λ _ _, False)) E).
Qed.
End itrunc.

(** ** [dirlookup] *)

Section dirlookup.
Context {S : Type} {BO : BufOps S} {BC : BufCache S}.
Context (dev_read : Z → option (nat → Z → M (fs S) (Z * list Z))).
Context (g : geom) (Hg : geom_ok g).
Implicit Types (s : fs S) (ic : nat → inode).

Lemma ic_ok_ext ic ic' : (∀ j, ic' j = ic j) → ic_ok ic → ic_ok ic'.
Proof. intros E [H1 H2]. split; [intros i j; rewrite !E; apply H1|intros i; rewrite E; apply H2]. Qed.

Lemma counted_ext ic ic1 ic' dev inum i :
  (∀ j, ic j = ic1 j) → counted ic ic' dev inum i → counted ic1 ic' dev inum i.
Proof. intros E. unfold counted. setoid_rewrite E. done. Qed.

(** C14: [dirlookup] returns the first entry in use whose name is the one asked
    for, comparing fourteen bytes or up to the NUL, with its offset and a
    reference to its inode: exactly one more is counted, on the copy that is
    cached already, which is otherwise unchanged, or on a new entry, not yet
    valid, when no copy is; the cache then holds one copy.  It returns 0 exactly
    when no entry matches.  The disk is not changed, and the other cached inodes
    are not either.  The cache must have a free entry, without which [iget]
    panics. *)
Theorem dirlookup_spec s v ws lg ic dp nm n :
  outside g s v ws lg ∅ ic → layout_ok g v → tree_ok g v (ic dp) → no_holes v (ic dp) →
  i_type (ic dp) = T_DIR → i_size (ic dp) = 16 * Z.of_nat n →
  ic_ok ic → (∀ j, (j < NINODE)%nat → i_ref (ic j) < 2^31 - 1) →
  (∃ e, (e < NINODE)%nat ∧ i_ref (ic e) = 0) →
  wp (dirlookup dev_read dp nm) (λ r s',
    match List.find (dir_match v (ic dp) nm) (seq 0 n) with
    | None => r = None ∧ outside g s' v ws lg ∅ ic
    | Some k => ∃ i ic', r = Some (i, 16 * Z.of_nat k) ∧ outside g s' v ws lg ∅ ic' ∧ ic_ok ic' ∧
        (i < NINODE)%nat ∧ 0 < i_ref (ic' i) ∧ i_dev (ic' i) = ROOTDEV ∧
        i_inum (ic' i) = de_inum (dir_entry v (ic dp) k) ∧
        counted ic ic' ROOTDEV (de_inum (dir_entry v (ic dp) k)) i ∧ ∀ j, j ≠ i → ic' j = ic j
    end) s.
Proof.
  intros Ho Hl Htr Hnh Hty Hsz Hic Href (e & He & He0). pose proof (reader_outside g Hg v ws lg ic) as RD.
  apply wp_bind. eapply (rd_inode g _ v ic NBUF RD); [exact Ho|]. rewrite Hty. change (negb (T_DIR =? T_DIR)) with false. cbn iota.
  apply wp_bind. change 0 with (16 * Z.of_nat 0) at 1.
  eapply (dirlookup_loop_run dev_read g _ v ic NBUF RD); [unfold NBUF; lia|done|done|done|done|exact Hsz|exact Ho|lia|rewrite Hsz; lia|].
  intros s1 Ho1. rewrite Nat.sub_0_r. destruct (List.find _ (seq 0 n)) as [k|] eqn:Ef; cbn [fmap option_fmap option_map].
  2: { apply wp_ret. done. }
  apply wp_bind. rewrite (tr_dev _ _ _ Htr). pose proof Ho1 as (Hb & Hhd & Hlg & Hcs & Hlk).
  destruct (iget_result (icache s1) ROOTDEV (de_inum (dir_entry v (ic dp) k))) as [[i ic']|] eqn:Er.
  - eapply iget_run; [done|done|]. apply wp_ret.
    destruct (iget_result_ok (icache s1) ROOTDEV (de_inum (dir_entry v (ic dp) k)) i ic') as (H1 & H2 & H3 & H4 & H5 & H6);
      [by apply (ic_ok_ext ic)|intros j Hj; rewrite Hcs; by apply Href|done|].
    exists i, ic'. split_and!; try done; [|intros j Hj; by rewrite H6]. apply (counted_ext (icache s1)); [done|].
    apply iget_result_counted; [by apply (ic_ok_ext ic)|intros j Hj; rewrite Hcs; by apply Href|done].
  - exfalso. unfold iget_result in Er. destruct (iget_hit _ _ _); [done|]. destruct (iget_empty (icache s1)) eqn:Ee; [done|].
    pose proof (find_none _ _ Ee e) as Hn. cbn beta in Hn. rewrite Hcs, He0 in Hn.
    assert (In e (seq 0 NINODE)) as Hin by (apply in_seq; lia). by specialize (Hn Hin).
Qed.
End dirlookup.
