(* ===== verification/FsSample.v ===== *)
(** * A small file system

    A concrete disk image with a root directory and one file, started up by
    [binit] and [initlog] on the model of the buffer cache: the theorems about
    fs.c applied to it. *)

From stdpp Require Import base numbers list strings gmap.
From Stdlib Require Import ZArith Lia.
From S2P Require Import Prelude CString Blocks Bio Log Crash Spinlock Fs FsBlock FsFile FsWrite FsDir.

#[local] Open Scope Z_scope.

(** 100 sectors; the file system has 70 blocks, the last 10 of which are the
    log; 16 inodes in blocks 2 and 3; the bitmap is block 5, blocks 0 to 7 are in
    use. *)
Definition tiny_geom : geom := mkGeom 100 60 10.
Definition tiny_sb : block := put_u32 0 70 (put_u32 4 54 (put_u32 8 16 (put_u32 12 10 zero_block))).
Definition tiny_bitmap : block := <[0%nat := 255]> zero_block.
Definition tiny_root : dinode := mkDinode T_DIR 0 0 1 32 (6 :: replicate 12 0).
Definition tiny_file : dinode := mkDinode T_FILE 0 0 1 5 (7 :: replicate 12 0).
Definition tiny_inodes : block := put_dinode 1 tiny_root (put_dinode 2 tiny_file zero_block).
Definition tiny_dir : block :=
  splice 0 (dirent_bytes (mkDirent 1 (46 :: replicate 13 0)))
    (splice 16 (dirent_bytes (mkDirent 2 (97 :: replicate 13 0))) zero_block).
Definition tiny_data : block := splice 0 [104; 101; 108; 108; 111] zero_block.
Definition tiny_disk : Z → block :=
  disk_upd (disk_upd (disk_upd (disk_upd (disk_upd (λ _, zero_block) 1 tiny_sb) 5 tiny_bitmap) 2 tiny_inodes)
    6 tiny_dir) 7 tiny_data.

(** The two inodes in the cache. *)
Definition tiny_ic : nat → inode :=
  upd (upd (λ _, bss_inode) 0%nat (load_dinode tiny_root (mkInode 1 1 1 3 0 0 0 0 0 [])))
    1%nat (load_dinode tiny_file (mkInode 1 2 1 3 0 0 0 0 0 [])).

Lemma tiny_geom_ok : geom_ok tiny_geom.
Proof. unfold geom_ok. simpl. lia. Qed.

Lemma tiny_disk_block x : is_block (tiny_disk x).
Proof. unfold tiny_disk, disk_upd. repeat case_match; reflexivity. Qed.

Lemma tiny_formatted : formatted tiny_geom tiny_disk.
Proof.
  unfold formatted, geom_ok, hdr_valid. split_and!; try (vm_compute; congruence).
  - vm_compute. constructor.
  - exact tiny_disk_block.
Qed.

Lemma tiny_replay y : y < 60 → replay (g_start tiny_geom) tiny_disk y = tiny_disk y.
Proof.
  intros Hy. unfold replay. replace (hdr_list _) with ([] : list Z) by (vm_compute; reflexivity). done.
Qed.

(** Started up, and inside a transaction. *)
Lemma tiny_booted : ∃ (s : lst bio) d ws, idle tiny_geom s d ws ∧ agree 60 d tiny_disk.
Proof.
  assert (H : wp boot (λ _ s, ∃ d ws, idle tiny_geom s d ws ∧ agree 60 d tiny_disk) (machine (g_blocks tiny_geom) tiny_disk)).
  { apply (boot_run tiny_geom tiny_disk); [exact tiny_formatted|]. intros s cs Hs Ha _ _.
    exists (apply_writes tiny_disk cs), cs. split; [exact Hs|]. intros y Hy. rewrite Ha by exact Hy. by apply tiny_replay. }
  destruct (proj1 (wp_ok _ _ _) H) as (u & s & _ & d & ws & Hs). exists s, d, ws. exact Hs.
Qed.

Lemma tiny_outside : ∃ (s : fs bio) ws lg, outside tiny_geom s tiny_disk ws lg ∅ tiny_ic.
Proof.
  destruct tiny_booted as (s & d & ws & (Hq & _) & Ha). exists (mkFs s false tiny_ic []), ws, (ls_log s).
  split_and!; [|intros b y E; by rewrite lookup_empty in E|done..]. exists d. split; [exact Hq|exact Ha].
Qed.

Lemma tiny_tx : ∃ (s : lst bio) d0 ws0, tx tiny_geom s d0 ws0 tiny_disk [] ∅.
Proof.
  destruct tiny_booted as (s & d & ws & Hs & Ha).
  assert (H : wp begin_trans (λ _ s', tx tiny_geom s' d ws tiny_disk [] ∅) s).
  { eapply begin_trans_run; [exact tiny_geom_ok|exact Hs|]. intros s' Ht.
    eapply tx_ext; [|exact Ha]. split; [exact Ht|done]. }
  destruct (proj1 (wp_ok _ _ _) H) as (u & s' & _ & Ht). exists s', d, ws. exact Ht.
Qed.

Lemma tiny_sb_of : sb_of (tiny_disk 1) = mkSb 70 54 16 10.
Proof. vm_compute. reflexivity. Qed.

Lemma tiny_bmblock c : 0 ≤ c < 70 → bmblock tiny_disk c = 5.
Proof.
  intros Hc. unfold bmblock. rewrite tiny_sb_of. unfold BBLOCK, BPB, IPB. cbn [sb_ninodes].
  rewrite (Z.div_small c) by lia. reflexivity.
Qed.

Lemma tiny_used c : 0 ≤ c < 70 → used tiny_disk c = (c <? 8).
Proof.
  intros Hc. unfold used. fold (bmblock tiny_disk c). rewrite tiny_bmblock by done.
  rewrite Z.mod_small by (unfold BPB; lia). rewrite bit_set_testbit.
  destruct (decide (c < 8)) as [Hlt|Hge].
  - rewrite (Z.div_small c), (Z.mod_small c) by lia. rewrite (proj2 (Z.ltb_lt _ _)) by lia.
    assert (c = 0 ∨ c = 1 ∨ c = 2 ∨ c = 3 ∨ c = 4 ∨ c = 5 ∨ c = 6 ∨ c = 7) as H by lia.
    destruct H as [->|[->|[->|[->|[->|[->|[->| ->]]]]]]]; vm_compute; reflexivity.
  - rewrite (proj2 (Z.ltb_ge _ _)) by lia.
    assert (1 ≤ c / 8 < 512) by (split; [apply Z.div_le_lower_bound; lia|apply Z.div_lt_upper_bound; lia]).
    replace (nth (Z.to_nat (c / 8)) (tiny_disk 5) 0) with 0; [by rewrite Z.bits_0|].
    change (tiny_disk 5) with (<[0%nat := 255]> zero_block). rewrite nth_insert_ne by lia.
    symmetry. apply nth_replicate_same.
Qed.

Lemma tiny_layout : layout_ok tiny_geom tiny_disk.
Proof.
  unfold layout_ok, bitmap_ok. rewrite tiny_sb_of. cbn [sb_size sb_ninodes g_start tiny_geom]. split_and!; try lia.
  - intros b Hb. rewrite tiny_bmblock by done. lia.
  - intros c Hc. rewrite tiny_bmblock in Hc by lia. rewrite tiny_used by lia. apply Z.ltb_lt. lia.
Qed.

Lemma tiny_bitmap_at : bitmap_at 5 tiny_disk.
Proof.
  unfold bitmap_at. rewrite tiny_sb_of. cbn [sb_size]. split; [exists 0; split; [lia|by apply tiny_bmblock]|].
  intros c Hc. rewrite tiny_bmblock by done. lia.
Qed.

Lemma tiny_first_free : first_free tiny_disk 8.
Proof.
  unfold first_free. rewrite tiny_sb_of. cbn [sb_size]. split_and!; [lia|lia|by rewrite tiny_used by lia|].
  intros c Hc. rewrite tiny_used by lia. apply Z.ltb_lt. lia.
Qed.

Lemma tiny_data_block a : 6 ≤ a < 8 → data_block tiny_geom tiny_disk a.
Proof.
  intros Ha. unfold data_block. rewrite tiny_sb_of. cbn [sb_size g_start tiny_geom]. rewrite tiny_bmblock, tiny_used by lia.
  split_and!; first [lia|apply Z.ltb_lt; lia|done].
Qed.

(** The tree of a file with one block. *)
Lemma one_block_addr v x a p :
  i_addrs x = a :: replicate 12 0 → valid_place p → addr_at v x p = if decide (p = Dat 0) then a else 0.
Proof.
  intros E Hp. assert (Hn : ∀ k, nth (Datatypes.S k) (i_addrs x) 0 = 0) by (intros k; rewrite E; apply nth_replicate_same).
  assert (Hi : ∀ k, 0 ≤ k → idx_at v x k = 0).
  { intros k Hk. unfold idx_at, NDIRECT, NUM_INDIRECT. cbn [Nat.add]. case_match; by rewrite Hn. }
  destruct p as [k|bn]; cbn [addr_at]; [rewrite decide_False by done; apply Hi; simpl in Hp; lia|]. simpl in Hp.
  destruct (Z.ltb_spec bn (Z.of_nat NDIRECT)) as [Hlt|Hge].
  - destruct (decide (bn = 0)) as [->|Hne]; [by rewrite E|]. rewrite decide_False by congruence.
    replace (Z.to_nat bn) with (Datatypes.S (Z.to_nat (bn - 1))) by lia. apply Hn.
  - rewrite decide_False by (intros [= ->]; unfold NDIRECT in Hge; lia).
    destruct (index_of_range bn) as (Hr & _); [lia|]. by rewrite Hi by lia.
Qed.

Lemma one_block_tree g v x a :
  i_addrs x = a :: replicate 12 0 → i_dev x = ROOTDEV → data_block g v a → tree_ok g v x.
Proof.
  intros E Hd Ha. split; [done|by rewrite E| |].
  - intros p Hp. rewrite (one_block_addr v x a) by done. case_decide; done.
  - intros p q Hp Hq. rewrite !(one_block_addr v x a) by done. repeat case_decide; congruence.
Qed.

Lemma one_block_no_holes v x a :
  i_addrs x = a :: replicate 12 0 → a ≠ 0 → 0 ≤ i_size x ≤ 512 → no_holes v x.
Proof.
  intros E Ha Hs. split; [assert (512 ≤ MAXFILE * 512) by done; lia|]. intros bn H0 H1. assert (bn = 0) as -> by lia.
  by rewrite (one_block_addr v x a).
Qed.

Lemma tiny_avail n : (n ≤ 9)%nat → avail tiny_geom 5 tiny_disk n.
Proof.
  intros Hn. exists (take n [8; 9; 10; 11; 12; 13; 14; 15; 16]). split_and!.
  - rewrite length_take. simpl. lia.
  - eapply sublist_NoDup; [|apply sublist_take]. apply (bool_decide_unpack _). vm_compute. exact I.
  - apply Forall_take. rewrite tiny_sb_of. cbn [sb_size g_start tiny_geom].
    repeat (apply Forall_cons; split; [split_and!; [lia..|by apply tiny_bmblock|by rewrite tiny_used by lia]|]). apply Forall_nil_2.
Qed.

Lemma tiny_ready n : (n ≤ 9)%nat →
  ∃ (s : fs bio) d0 ws0, ready tiny_geom 5 s d0 ws0 tiny_disk [] ∅ tiny_ic 1 n ∧ ftx tiny_geom s d0 ws0 tiny_disk [] ∅ tiny_ic.
Proof.
  intros Hn. destruct tiny_tx as (s & d0 & ws0 & Ht). exists (mkFs s false tiny_ic []), d0, ws0.
  assert (Hf : ftx tiny_geom (mkFs s false tiny_ic []) d0 ws0 tiny_disk [] ∅ tiny_ic) by (by split).
  split; [|exact Hf]. split_and!; [exact Hf| |exact tiny_layout|exact tiny_bitmap_at|intros k a E; by rewrite lookup_empty in E|by apply tiny_avail].
  apply (one_block_tree _ _ _ 7); [done|done|]. apply tiny_data_block. lia.
Qed.

(** No character device is opened. *)
Definition no_read : Z → option (nat → Z → M (fs bio) (Z * list Z)) := λ _, None.
Definition no_write : Z → option (nat → list Z → M (fs bio) Z) := λ _, None.

Lemma tiny_fits n : (n ≤ 9)%nat → fits tiny_geom [] ∅ n.
Proof. intros Hn. unfold fits, LOGSIZE, NBUF. rewrite map_size_empty. cbn [length g_size tiny_geom]. lia. Qed.

Lemma tiny_room n : (n ≤ 8)%nat → room tiny_geom 5 [] ∅ n.
Proof.
  intros Hn. unfold room, pot, LOGSIZE, NBUF. rewrite map_size_empty. cbn [length g_size tiny_geom].
  rewrite bool_decide_eq_false_2 by apply not_elem_of_nil. lia.
Qed.

Lemma tiny_tree i : (i < 2)%nat → tree_ok tiny_geom tiny_disk (tiny_ic i).
Proof.
  intros Hi. destruct i as [|[|i]]; [| |lia].
  - apply (one_block_tree _ _ _ 6); [done|done|]. apply tiny_data_block. lia.
  - apply (one_block_tree _ _ _ 7); [done|done|]. apply tiny_data_block. lia.
Qed.

Lemma tiny_no_holes i : (i < 2)%nat → no_holes tiny_disk (tiny_ic i).
Proof.
  intros Hi. destruct i as [|[|i]]; [| |lia].
  - apply (one_block_no_holes _ _ 6); [done|lia|]. cbn. lia.
  - apply (one_block_no_holes _ _ 7); [done|lia|]. cbn. lia.
Qed.

Lemma tiny_ic_ref j : i_ref (tiny_ic j) = if (j <? 2)%nat then 1 else 0.
Proof. by destruct j as [|[|j]]. Qed.

Lemma tiny_ic_ok : ic_ok tiny_ic.
Proof.
  split; [|intros i Hi; rewrite tiny_ic_ref; case_match; lia]. intros i j _ _. rewrite !tiny_ic_ref.
  destruct i as [|[|i]], j as [|[|j]]; simpl; try lia; done.
Qed.

(** ** The theorems applied *)

Lemma balloc_spec_witness :
  ∃ (s : lst bio) d0 ws0, tx tiny_geom s d0 ws0 tiny_disk [] ∅ ∧
    wp (balloc ROOTDEV) (λ r s', r = 8 ∧ ∃ v' L', tx tiny_geom s' d0 ws0 v' L' ∅ ∧ v' 8 = zero_block) s.
Proof.
  destruct tiny_tx as (s & d0 & ws0 & Ht). exists s, d0, ws0. split; [exact Ht|].
  destruct (balloc_spec tiny_geom tiny_geom_ok s d0 ws0 tiny_disk [] ∅ Ht tiny_layout) as [Hok _];
    [intros x b E; by rewrite lookup_empty in E|apply tiny_fits; lia|].
  eapply wp_mono; [apply (Hok 8); [exact tiny_first_free|cbn; lia|intros x; by rewrite lookup_empty]|].
  intros r s' (-> & v' & L' & H1 & _ & H2 & _). split; [done|]. by exists v', L'.
Defined.

Lemma balloc_bfree_roundtrip_witness :
  ∃ (s : lst bio) d0 ws0, tx tiny_geom s d0 ws0 tiny_disk [] ∅ ∧
    wp (r ← balloc ROOTDEV; bfree ROOTDEV r) (λ _ s', ∃ v' L', tx tiny_geom s' d0 ws0 v' L' ∅ ∧
      ∀ x, v' x = if decide (x = 8) then zero_block else tiny_disk x) s.
Proof.
  destruct tiny_tx as (s & d0 & ws0 & Ht). exists s, d0, ws0. split; [exact Ht|].
  apply (balloc_bfree_roundtrip tiny_geom tiny_geom_ok s d0 ws0 tiny_disk [] 8 Ht tiny_layout);
    [apply tiny_fits; lia|exact tiny_first_free|cbn; lia|].
  apply (bool_decide_unpack _). vm_compute. exact I.
Defined.

Lemma bmap_spec_witness :
  ∃ (s : fs bio) d0 ws0, ready tiny_geom 5 s d0 ws0 tiny_disk [] ∅ tiny_ic 1 3 ∧
    wp (bmap 1 300) (λ r s', ∃ v' L' ic', ready tiny_geom 5 s' d0 ws0 v' L' ∅ ic' 1 0 ∧
      addr_at v' (ic' 1%nat) (Dat 300) = r ∧ r ≠ 0 ∧ v' r = zero_block) s ∧
    bmap 1 20000 s = Panic "bmap: out of range".
Proof.
  destruct (tiny_ready 3) as (s & d0 & ws0 & Hr & _); [lia|]. exists s, d0, ws0. split; [exact Hr|]. split.
  - destruct (bmap_spec tiny_geom tiny_geom_ok 5 s d0 ws0 tiny_disk [] tiny_ic 1 300 Hr) as [Hok _]; [apply tiny_room; lia|lia|].
    eapply wp_mono; [apply Hok; done|]. intros r s' (v' & L' & ic' & H1 & H2 & H3 & _ & _ & H4 & _).
    exists v', L', ic'. split_and!; [done|done|done|]. apply H4. vm_compute. reflexivity.
  - apply (bmap_spec tiny_geom tiny_geom_ok 5 s d0 ws0 tiny_disk [] tiny_ic 1 20000 Hr); [apply tiny_room; lia|lia|done].
Defined.

Lemma readi_spec_witness :
  ∃ (s : fs bio) ws lg, outside tiny_geom s tiny_disk ws lg ∅ tiny_ic ∧
    wp (readi no_read 1 1 100) (λ r s', outside tiny_geom s' tiny_disk ws lg ∅ tiny_ic ∧ r = (4, [101; 108; 108; 111])) s.
Proof.
  destruct tiny_outside as (s & ws & lg & Ho). exists s, ws, lg. split; [exact Ho|].
  eapply wp_mono; [apply (readi_spec tiny_geom tiny_geom_ok no_read s tiny_disk ws lg tiny_ic 1 1 100 Ho tiny_layout);
    [apply tiny_tree; lia|apply tiny_no_holes; lia|done|lia|lia]|].
  intros r s' [H1 ->]. split; [exact H1|]. vm_compute. reflexivity.
Defined.

Lemma tiny_file_ok : dinode_ok (dinode_of (tiny_ic 1%nat)).
Proof.
  change (dinode_of (tiny_ic 1%nat)) with tiny_file.
  unfold dinode_ok, short, uint, tiny_file, T_FILE. cbn [di_type di_major di_minor di_nlink di_size di_addrs].
  split_and!; try lia; [reflexivity|]. apply Forall_cons. split; [lia|]. apply Forall_replicate. lia.
Qed.

Lemma iupdate_roundtrip_witness :
  ∃ (s : fs bio) d0 ws0, ftx tiny_geom s d0 ws0 tiny_disk [] ∅ tiny_ic ∧
    wp (iupdate 1) (λ _ s', ∃ v' L', ftx tiny_geom s' d0 ws0 v' L' ∅ tiny_ic ∧
      load_dinode (get_dinode 2 (v' 2)) (mkInode 1 2 1 3 0 0 0 0 0 []) = tiny_ic 1%nat ∧
      get_dinode 1 (v' 2) = tiny_root) s.
Proof.
  destruct (tiny_ready 0) as (s & d0 & ws0 & _ & Hf); [lia|]. exists s, d0, ws0. split; [exact Hf|].
  eapply wp_mono; [apply (iupdate_roundtrip tiny_geom tiny_geom_ok s d0 ws0 tiny_disk [] tiny_ic 1 Hf)|].
  - done.
  - exact tiny_file_ok.
  - vm_compute. split; congruence.
  - unfold fits1, LOGSIZE, NBUF. rewrite map_size_empty. cbn [length g_size tiny_geom]. lia.
  - intros _ s' (v' & L' & H1 & H2 & H3 & _). exists v', L'. split_and!; [exact H1|by apply H2|].
    transitivity (get_dinode 1 (tiny_disk 2)); [by apply (H3 1%nat)|]. vm_compute. reflexivity.
Defined.

Definition xs : list Z := replicate 510 120.

Lemma xs_length : length xs = 510%nat.
Proof. reflexivity. Qed.

Lemma xs_cost : wcost 510 tiny_disk (tiny_ic 1%nat) 5 510 = 4%nat.
Proof. vm_compute. reflexivity. Qed.

Lemma tiny_iblock : IBLOCK (i_inum (tiny_ic 1%nat)) = 2.
Proof. reflexivity. Qed.

Lemma writei_spec_witness :
  ∃ (s : fs bio) d0 ws0, ready tiny_geom 5 s d0 ws0 tiny_disk [] ∅ tiny_ic 1 4 ∧
    wp (writei no_write 1 xs 5) (λ r s', r = 510 ∧ ∃ v' L' ic',
      ready tiny_geom 5 s' d0 ws0 v' L' ∅ ic' 1 0 ∧ i_size (ic' 1%nat) = 515 ∧
      file_byte v' (ic' 1%nat) 4 = 111 ∧ file_byte v' (ic' 1%nat) 514 = 120 ∧ v' 6 = tiny_dir ∧
      disk_inode v' 1 = tiny_root ∧ disk_inode v' 2 = dinode_of (ic' 1%nat)) s.
Proof.
  destruct (tiny_ready 4) as (s & d0 & ws0 & Hr & Hf); [lia|]. exists s, d0, ws0. split; [exact Hr|].
  pose proof (writei_spec no_write tiny_geom tiny_geom_ok 5 s d0 ws0 tiny_disk [] tiny_ic 1 xs 5) as W. cbv zeta in W.
  rewrite xs_length in W. change (Z.of_nat 510) with 510 in W. rewrite xs_cost, tiny_iblock in W.
  change (i_size (tiny_ic 1%nat)) with 5 in W.
  destruct W as [Hok _]; [exact Hr|apply tiny_room; lia|apply tiny_no_holes; lia|discriminate|discriminate|rewrite tiny_bmblock; lia|lia|lia|].
  eapply wp_mono; [apply Hok; split; [lia|vm_compute; discriminate]|].
  intros r s' (-> & v' & L' & ic' & H1 & H2 & _ & H3 & H4 & _ & H5 & H6). split; [done|]. exists v', L', ic'.
  change (i_size (ic' 1%nat) = 515) in H2. split_and!; [exact H1|exact H2| | | | |].
  - rewrite H3 by lia. rewrite decide_False by lia. vm_compute. reflexivity.
  - rewrite H3 by lia. rewrite decide_True by lia. vm_compute. reflexivity.
  - transitivity (tiny_disk 6); [|vm_compute; reflexivity]. apply H4; [apply tiny_data_block; lia|].
    intros p Hp. rewrite (one_block_addr _ _ 7) by done. case_decide; lia.
  - transitivity (disk_inode tiny_disk 1); [apply H5; [lia|discriminate|reflexivity]|vm_compute; reflexivity].
  - apply H6; [exact tiny_file_ok|vm_compute; reflexivity].
Defined.

Lemma dirlookup_spec_witness :
  ∃ (s : fs bio) ws lg, outside tiny_geom s tiny_disk ws lg ∅ tiny_ic ∧
    wp (dirlookup no_read 0 (97 :: replicate 13 0)) (λ r s', ∃ i ic', r = Some (i, 16) ∧
      outside tiny_geom s' tiny_disk ws lg ∅ ic' ∧ i_inum (ic' i) = 2 ∧ i_ref (ic' i) = i_ref (tiny_ic i) + 1) s.
Proof.
  destruct tiny_outside as (s & ws & lg & Ho). exists s, ws, lg. split; [exact Ho|].
  eapply wp_mono; [apply (dirlookup_spec no_read tiny_geom tiny_geom_ok s tiny_disk ws lg tiny_ic 0 (97 :: replicate 13 0) 2 Ho tiny_layout);
    [apply tiny_tree; lia|apply tiny_no_holes; lia|done|done|exact tiny_ic_ok|intros j _; rewrite tiny_ic_ref; case_match; lia|exists 2%nat; split; [unfold NINODE; lia|done]]|].
  intros r s'. replace (List.find _ _) with (Some 1%nat) by (vm_compute; reflexivity).
  intros (i & ic' & -> & H1 & _ & _ & _ & _ & H2 & [H3 _] & _). exists i, ic'. split; [done|]. split; [exact H1|].
  split; [rewrite H2; vm_compute; reflexivity|exact H3].
Defined.

(** A file of eleven blocks none of which is there, and its empty index block. *)
Definition indirect_state : fs bio :=
  mkFs (after begin_trans (after boot (machine 100 tiny_disk))) false
    (upd (λ _, bss_inode) 0%nat (mkInode 1 3 1 3 T_FILE 0 0 1 5632 (replicate 10 0 ++ [20; 0; 0]))) [].

Lemma itrunc_reads_past_buffer_witness :
  nth NDIRECT (i_addrs (icache indirect_state 0%nat)) 0 = 20 ∧
  match itrunc 0 indirect_state with Fault _ => True | _ => False end ∧
  ∀ u s', itrunc 0 indirect_state ≠ Ok u s'.
Proof.
  split; [vm_compute; reflexivity|]. split; [vm_compute; exact I|].
  apply (itrunc_reads_past_buffer 0 indirect_state). vm_compute. congruence.
Defined.
