(* ===== verification/Mkfs.v ===== *)
(** * The file system builder (mkfs.c)

    mkfs runs on the machine that builds the kernel and writes the disk image
    the kernel boots with.  The image is a file of the host: sectors, and the
    number of sectors it has; reading past its end is an error, and seeking past
    its end and writing leaves zeroes.  The host has 4-byte integers in the byte
    order of the x86; writing to the image succeeds.  The files to put into the
    image are an argument.  [exit(1)] and a failed [assert] are [Panic].

    The theorem: the kernel's file system code finds in the image what mkfs was
    given. *)

From stdpp Require Import base numbers list strings gmap.
From Stdlib Require Import ZArith Lia.
From S2P Require Import Prelude CString Blocks Bio Log Crash Spinlock Fs FsBlock FsFile FsWrite FsDir FsSample.

#[local] Open Scope Z_scope.

(** src/mkfs.c:16-16 *)
Definition nblocks : Z := 25000.
(** src/mkfs.c:17-17 *)
Definition nlog : Z := Z.of_nat LOGSIZE.
(** src/mkfs.c:18-18 *)
Definition ninodes : Z := 200.
(** src/mkfs.c:19-19 *)
Definition fssize : Z := 25045.

(** The image and the variables of the program -- src/mkfs.c:21-27 *)
Record mkst := mkMk {
  m_img : Z → block;
  m_end : Z;
  freeblock : Z;
  usedblocks : Z;
  freeinode : Z;
}.
Definition put_freeblock v s := mkMk (m_img s) (m_end s) v (usedblocks s) (freeinode s).
Definition put_usedblocks v s := mkMk (m_img s) (m_end s) (freeblock s) v (freeinode s).
Definition put_freeinode v s := mkMk (m_img s) (m_end s) (freeblock s) (usedblocks s) v.

(** The integer whose bytes in memory are stored one by one -- src/mkfs.c:38-46 *)
Definition xshort (x : Z) : Z := le_val [w8 x; w8 (Z.shiftr x 8)].
(** src/mkfs.c:48-58 *)
Definition xint (x : Z) : Z := le_val [w8 x; w8 (Z.shiftr x 8); w8 (Z.shiftr x 16); w8 (Z.shiftr x 24)].

(** src/mkfs.c:160-171 *)
Definition wsect (sec : Z) (buf : block) : M mkst unit :=
  modify (λ s, mkMk (disk_upd (m_img s) sec buf) (Z.max (m_end s) (sec + 1)) (freeblock s) (usedblocks s) (freeinode s)).

(** src/mkfs.c:206-217 *)
Definition rsect (sec : Z) : M mkst block :=
  e ← gets m_end;
  if sec <? e then gets (λ s, m_img s sec) else panic "read".

(** src/mkfs.c:173-177 *)
Definition i2b (inum : Z) : Z := inum / IPB + 2.

(** src/mkfs.c:179-191 *)
Definition winode (inum : Z) (ip : dinode) : M mkst unit :=
  buf ← rsect (i2b inum);
  wsect (i2b inum) (put_dinode (islot inum) ip buf).

(** src/mkfs.c:193-204 *)
Definition rinode (inum : Z) : M mkst dinode :=
  buf ← rsect (i2b inum);
  mret (get_dinode (islot inum) buf).

(** [ialloc] -- src/mkfs.c:219-231 *)
Definition mk_ialloc (type : Z) : M mkst Z :=
  inum ← gets freeinode;
  modify (put_freeinode (w32 (inum + 1)));;
  winode inum (mkDinode (xshort type) 0 0 (xshort 1) (xint 0) (replicate NADDRS 0));;
  mret inum.

(** [balloc] -- src/mkfs.c:233-247 *)
Definition mk_balloc (used : Z) : M mkst unit :=
  if negb (used <? 512 * 8) then panic "assert" else
  wsect (ninodes / IPB + 3) (foldl mark_bit zero_block (seqZ 0 used)).

(** [freeblock++] and [usedblocks++]. *)
Definition next_block : M mkst Z :=
  b ← gets freeblock;
  modify (put_freeblock (w32 (b + 1)));;
  u ← gets usedblocks;
  modify (put_usedblocks (w32 (u + 1)));;
  mret b.

Definition put_di_addrs (l : list Z) (d : dinode) : dinode :=
  mkDinode (di_type d) (di_major d) (di_minor d) (di_nlink d) (di_size d) l.
Definition put_di_size (v : Z) (d : dinode) : dinode :=
  mkDinode (di_type d) (di_major d) (di_minor d) (di_nlink d) v (di_addrs d).

(** [din.addrs[k]], allocated if it is not there. *)
Definition mk_addr (din : dinode) (k : nat) : M mkst dinode :=
  if xint (nth k (di_addrs din) 0) =? 0 then
    b ← next_block;
    mret (put_di_addrs (<[k := xint b]> (di_addrs din)) din)
  else mret din.

(** The sector of block [fbn] of the file.  Of the array [indirect] of 256 entries
    [rsect] fills the first 128 -- src/mkfs.c:267-287 *)
Definition iappend_block (din : dinode) (fbn : Z) : M mkst (dinode * Z) :=
  if fbn <? Z.of_nat NDIRECT then
    din ← mk_addr din (Z.to_nat fbn);
    mret (din, xint (nth (Z.to_nat fbn) (di_addrs din) 0))
  else
    din ← mk_addr din NDIRECT;
    let ind := xint (nth NDIRECT (di_addrs din) 0) in
    indirect ← rsect ind;
    let e := fbn - Z.of_nat NDIRECT in
    if PTRS_PER_BLOCK <=? e then fault "indirect" else
    if get_u32 (slot_of e) indirect =? 0 then
      b ← next_block;
      wsect ind (put_u32 (slot_of e) (xint b) indirect);;
      mret (din, xint (get_u32 (slot_of e) (put_u32 (slot_of e) (xint b) indirect)))
    else mret (din, xint (get_u32 (slot_of e) indirect)).

(** src/mkfs.c:264-295 *)
Fixpoint iappend_loop (fuel : nat) (din : dinode) (off : Z) (p : list Z) : M mkst (dinode * Z) :=
  match p with
  | [] => mret (din, off)
  | _ =>
      match fuel with
      | O => nofuel
      | S fuel =>
          let fbn := off / 512 in
          if negb (fbn <? MAXFILE) then panic "assert" else
          r ← iappend_block din fbn;
          let '(din, x) := r : dinode * Z in
          let n1 := Z.min (Z.of_nat (length p)) ((fbn + 1) * 512 - off) in
          buf ← rsect x;
          wsect x (splice (Z.to_nat (off - fbn * 512)) (take (Z.to_nat n1) p) buf);;
          iappend_loop fuel din (w32 (off + n1)) (drop (Z.to_nat n1) p)
      end
  end.

(** src/mkfs.c:251-298 *)
Definition iappend (inum : Z) (p : list Z) : M mkst unit :=
  din ← rinode inum;
  r ← iappend_loop (length p) din (xint (di_size din)) p;
  let '(din, off) := r : dinode * Z in
  winode inum (put_di_size (xint off) din).

(** The bytes of an entry of a directory that was zeroed before. *)
Definition mk_dirent (inum : Z) (nm : list Z) : list Z :=
  dirent_bytes (mkDirent (xshort inum) (dirent_name (replicate DIRSIZ 0) nm)).

(** [while((cc = read(fd, buf, sizeof(buf))) > 0)] -- src/mkfs.c:142-143 *)
Fixpoint copy_file (fuel : nat) (inum : Z) (bs : list Z) : M mkst unit :=
  match bs with
  | [] => mret tt
  | _ =>
      match fuel with
      | O => nofuel
      | S fuel => iappend inum (take BSIZE bs);; copy_file fuel inum (drop BSIZE bs)
      end
  end.

(** The name in the directory: without a leading underscore -- src/mkfs.c:128-133 *)
Definition fname (arg : list Z) : list Z := match arg with 95 :: l => l | l => l end.

(** One argument -- src/mkfs.c:120-146 *)
Definition add_file (host : list Z → option (list Z)) (rootino : Z) (arg : list Z) : M mkst unit :=
  if existsb (Z.eqb 47) arg then panic "assert" else
  match host arg with
  | None => panic "open"
  | Some bs =>
      inum ← mk_ialloc T_FILE;
      iappend rootino (mk_dirent inum (fname arg));;
      copy_file (length bs) inum bs
  end.

(** [main]; [can_create] says whether the image can be opened -- src/mkfs.c:60-158 *)
Definition mkfs_main (host : list Z → option (list Z)) (can_create : bool) (argv : list (list Z)) : M mkst unit :=
  if (length argv <? 2)%nat then panic "usage" else
  if negb can_create then panic "open" else
  let sb := le_bytes 4 (xint fssize) ++ le_bytes 4 (xint nblocks) ++ le_bytes 4 (xint ninodes) ++ le_bytes 4 (xint nlog) in
  let bitblocks := fssize / (512 * 8) + 1 in
  let used := ninodes / IPB + 3 + bitblocks in
  modify (λ s, mkMk (λ _, zero_block) 0 used used (freeinode s));;
  if negb (nblocks + used + nlog =? fssize) then panic "assert" else
  for_each (seqZ 0 (nblocks + used + nlog)) (λ i, wsect i zero_block);;
  wsect 1 (splice 0 sb zero_block);;
  rootino ← mk_ialloc T_DIR;
  if negb (rootino =? ROOTINO) then panic "assert" else
  iappend rootino (mk_dirent rootino [46]);;
  iappend rootino (mk_dirent rootino [46; 46]);;
  for_each (drop 2 argv) (add_file host rootino);;
  din ← rinode rootino;
  let off := w32 ((xint (di_size din) / 512 + 1) * 512) in
  winode rootino (put_di_size (xint off) din);;
  u ← gets usedblocks;
  mk_balloc u.

(** Before [main]: the image is empty. *)
Definition mk0 : mkst := mkMk (λ _, zero_block) 0 0 0 1.

(** ** Integers *)

Lemma shift_byte x k : w8 (Z.shiftr x (8 * Z.of_nat k)) = (x / 256 ^ Z.of_nat k) `mod` 256.
Proof.
  unfold w8. rewrite Z.shiftr_div_pow2 by lia. replace (2 ^ (8 * Z.of_nat k)) with (256 ^ Z.of_nat k); [done|].
  change 256 with (2 ^ 8). rewrite <- Z.pow_mul_r by lia. f_equal.
Qed.

Lemma xint_id x : 0 ≤ x < 2^32 → xint x = x.
Proof.
  intros Hx. transitivity (le_val (le_bytes 4 x)).
  - unfold xint. cbn [le_bytes]. rewrite !Zdiv.Zdiv_Zdiv by lia. do 2 f_equal. f_equal; [apply (shift_byte x 1)|].
    f_equal; [apply (shift_byte x 2)|]. f_equal. apply (shift_byte x 3).
  - rewrite le_val_bytes. by apply Z.mod_small.
Qed.

Lemma xshort_id x : 0 ≤ x < 2^16 → xshort x = x.
Proof.
  intros Hx. transitivity (le_val (le_bytes 2 x)).
  - unfold xshort. cbn [le_bytes]. do 2 f_equal. f_equal. apply (shift_byte x 1).
  - rewrite le_val_bytes. by apply Z.mod_small.
Qed.

(** ** The trees mkfs builds: ten direct blocks and one block of addresses *)

Definition MAXMK : Z := Z.of_nat NDIRECT + PTRS_PER_BLOCK.

Definition flat (v : Z → block) (l : list Z) (p : place) : Z :=
  match p with
  | Idx k => if k =? 0 then nth NDIRECT l 0 else 0
  | Dat bn =>
      if bn <? Z.of_nat NDIRECT then nth (Z.to_nat bn) l 0
      else if bn <? MAXMK then entry v (nth NDIRECT l 0) (bn - Z.of_nat NDIRECT) else 0
  end.

Lemma flat_addr v x p :
  nth 11 (i_addrs x) 0 = 0 → nth 12 (i_addrs x) 0 = 0 → valid_place p → addr_at v x p = flat v (i_addrs x) p.
Proof.
  intros H1 H2 Hp. assert (Hi : ∀ k, 0 ≤ k → idx_at v x k = flat v (i_addrs x) (Idx k)).
  { intros k Hk. unfold idx_at, flat, NDIRECT, NUM_INDIRECT. cbn [Nat.add]. rewrite H2.
    destruct (Z.ltb_spec k 3); [|rewrite (proj2 (Z.eqb_neq _ _)) by lia; done].
    assert (k = 0 ∨ k = 1 ∨ k = 2) as [->|[->| ->]] by lia; [done|exact H1|exact H2]. }
  destruct p as [k|bn]; cbn [addr_at]; simpl in Hp; [apply Hi; lia|].
  cbn [flat]. destruct (Z.ltb_spec bn (Z.of_nat NDIRECT)); [done|]. destruct (index_of_range bn) as (Hr & _); [lia|].
  rewrite Hi by lia. unfold MAXMK, flat, index_of, entry_of, NINDIRECT, PTRS_PER_BLOCK, NDIRECT, NUM_INDIRECT in *.
  change (512 / 4) with 128 in *. cbn [Z.of_nat] in *. change (Z.of_nat 10) with 10 in *. change (Z.of_nat 2 * 128) with 256 in *. change (10 + 128) with 138 in *.
  destruct (Z.ltb_spec bn 138).
  - rewrite (proj2 (Z.ltb_lt _ _)) by lia. rewrite Z.div_small, Z.mod_small by lia. done.
  - rewrite (proj2 (Z.eqb_neq _ 0)); [done|]. destruct (Z.ltb_spec (bn - 10) 256); [|pose proof (Z.div_pos (bn - 10 - 256) 128 ltac:(lia) ltac:(lia)); lia].
    assert (1 ≤ (bn - 10) / 128) by (apply Z.div_le_lower_bound; lia). lia.
Qed.

(** The blocks of the files [1 .. n-1] with addresses [A] and contents [F]; the
    blocks from 35 up to [fb] are allocated, each to one place of one file, and
    [has] says which places of a file have a block. *)
Record files_ok (v : Z → block) (fb n : Z) (own : Z → option (Z * place)) (has : Z → place → bool)
    (A F : Z → list Z) : Prop := {
  fo_fb : 35 ≤ fb;
  fo_addrs j : 1 ≤ j < n → length (A j) = NADDRS ∧ nth 11 (A j) 0 = 0 ∧ nth 12 (A j) 0 = 0;
  fo_own j p : 1 ≤ j < n → valid_place p → flat v (A j) p ≠ 0 →
    35 ≤ flat v (A j) p < fb ∧ own (flat v (A j) p) = Some (j, p);
  fo_has j p : 1 ≤ j < n → valid_place p → (flat v (A j) p =? 0) = negb (has j p);
  fo_byte j o : 1 ≤ j < n → 0 ≤ o < MAXFILE * 512 → flat v (A j) (Dat (o / 512)) ≠ 0 →
    nth (Z.to_nat (o `mod` 512)) (v (flat v (A j) (Dat (o / 512)))) 0 = nth (Z.to_nat o) (F j) 0;
  fo_zero b : fb ≤ b → v b = zero_block;
  fo_block b : is_block (v b);
}.

(** Places of [addrs[k]] in these trees. *)
Definition place_of (k : nat) : place := if (k <? NDIRECT)%nat then Dat (Z.of_nat k) else Idx 0.

Lemma dat_valid o : 0 ≤ o < MAXFILE * 512 → valid_place (Dat (o / 512)).
Proof. intros Ho. split; [apply Z.div_pos; lia|apply Z.div_lt_upper_bound; lia]. Qed.

Lemma flat_insert v l k b p :
  (k ≤ NDIRECT)%nat → length l = NADDRS → nth k l 0 = 0 → v b = zero_block → valid_place p →
  flat v (<[k := b]> l) p = if decide (p = place_of k) then b else flat v l p.
Proof.
  intros Hk Hl H0 Hz Hp. unfold place_of.
  assert (Hne : ∀ i, i ≠ k → nth i (<[k := b]> l) 0 = nth i l 0) by (intros; by apply nth_insert_ne).
  assert (Heq : nth k (<[k := b]> l) 0 = b) by (apply nth_insert_eq; rewrite Hl; unfold NADDRS, NUM_INDIRECT; lia).
  destruct p as [i|bn]; simpl in Hp; cbn [flat].
  - destruct (Z.eqb_spec i 0) as [->|Hi].
    + destruct (Nat.ltb_spec k NDIRECT); [by rewrite decide_False, Hne by (done || lia)|].
      assert (k = NDIRECT) as -> by lia. by rewrite decide_True.
    + rewrite decide_False; [done|]. case_match; congruence.
  - destruct (Z.ltb_spec bn (Z.of_nat NDIRECT)).
    + destruct (Nat.ltb_spec k NDIRECT) as [Hlt|Hge]; [|rewrite decide_False by done; apply Hne; lia].
      destruct (decide (Dat bn = Dat (Z.of_nat k))) as [[= ->]|Hd]; [by rewrite Nat2Z.id|]. apply Hne. intros E. apply Hd. f_equal. lia.
    + rewrite decide_False by (destruct (Nat.ltb_spec k NDIRECT); [intros [= ->]; lia|done]). destruct (bn <? MAXMK); [|done].
      destruct (decide (k = NDIRECT)) as [->|Hkn]; [|by rewrite Hne by done]. rewrite Heq, H0. by rewrite entry_zero.
Qed.

Section files.
Context (v : Z → block) (fb n : Z) (own : Z → option (Z * place)) (has : Z → place → bool) (A F : Z → list Z).
Context (H : files_ok v fb n own has A F).

Definition has_also (j : Z) (p : place) (i : Z) (q : place) : bool := bool_decide (i = j ∧ q = p) || has i q.

(** A direct block, or the block of addresses, is allocated. *)
Lemma files_alloc_addr j k :
  1 ≤ j < n → (k ≤ NDIRECT)%nat → nth k (A j) 0 = 0 →
  ((k < NDIRECT)%nat → Z.of_nat (length (F j)) ≤ Z.of_nat k * 512) →
  files_ok v (fb + 1) n (λ b, if b =? fb then Some (j, place_of k) else own b) (has_also j (place_of k)) (disk_upd A j (<[k := fb]> (A j))) F.
Proof.
  intros Hj Hk H0 Hlen. destruct (fo_addrs _ _ _ _ _ _ _ H j Hj) as (Hl & H11 & H12). pose proof (fo_fb _ _ _ _ _ _ _ H).
  assert (Hz : v fb = zero_block) by (apply (fo_zero _ _ _ _ _ _ _ H); lia).
  assert (Hf : ∀ i p, valid_place p → flat v (disk_upd A j (<[k := fb]> (A j)) i) p =
    if decide (i = j ∧ p = place_of k) then fb else flat v (A i) p).
  { intros i p Hp. unfold disk_upd. destruct (Z.eqb_spec i j) as [->|Hne]; [|by rewrite decide_False by naive_solver].
    rewrite flat_insert by done. repeat case_decide; naive_solver. }
  split; [lia| | | | | |apply H].
  - intros i Hi. unfold disk_upd. destruct (Z.eqb_spec i j) as [->|]; [|by apply H].
    rewrite length_insert, !nth_insert_ne by (unfold NDIRECT in *; lia). done.
  - intros i p Hi Hp. rewrite Hf by done. destruct (decide (i = j ∧ p = place_of k)) as [[-> ->]|Hd].
    + intros _. rewrite Z.eqb_refl. split; [lia|done].
    + intros Hne. destruct (fo_own _ _ _ _ _ _ _ H i p Hi Hp Hne) as [? Ho]. rewrite (proj2 (Z.eqb_neq _ fb)) by lia. split; [lia|done].
  - intros i p Hi Hp. rewrite Hf by done. unfold has_also. case_decide as Hd.
    + rewrite bool_decide_true by done. cbn [orb negb]. apply Z.eqb_neq. lia.
    + rewrite bool_decide_false by done. by apply H.
  - intros i o Hi Ho. rewrite !Hf by (by apply dat_valid). destruct (decide (i = j ∧ Dat (o / 512) = place_of k)) as [[-> Hp]|Hd].
    + intros _. rewrite Hz. unfold zero_block. rewrite nth_replicate_same. symmetry. apply nth_overflow.
      unfold place_of in Hp. destruct (Nat.ltb_spec k NDIRECT) as [Hlt|]; [|done]. specialize (Hlen Hlt).
      assert (Z.of_nat k = o / 512) as Ek by congruence. rewrite Ek in Hlen. pose proof (Z.mul_div_le o 512). lia.
    + by apply H.
  - intros b Hb. apply (fo_zero _ _ _ _ _ _ _ H). lia.
Qed.

(** A data block is allocated through the block of addresses. *)
Lemma files_alloc_entry j e :
  1 ≤ j < n → 0 ≤ e < PTRS_PER_BLOCK → fb < 2^32 → nth NDIRECT (A j) 0 ≠ 0 → entry v (nth NDIRECT (A j) 0) e = 0 →
  Z.of_nat (length (F j)) ≤ (e + Z.of_nat NDIRECT) * 512 →
  let a := nth NDIRECT (A j) 0 in
  files_ok (disk_upd v a (put_u32 (slot_of e) fb (v a))) (fb + 1) n
    (λ b, if b =? fb then Some (j, Dat (e + Z.of_nat NDIRECT)) else own b) (has_also j (Dat (e + Z.of_nat NDIRECT))) A F.
Proof.
  intros Hj He Hfb Ha H0 Hlen a. pose proof (fo_fb _ _ _ _ _ _ _ H).
  destruct (fo_own _ _ _ _ _ _ _ H j (Idx 0) Hj ltac:(done) Ha) as [Har Hao]. cbn [flat Z.eqb] in Har, Hao. fold a in Har, Hao.
  set (v' := disk_upd v a _). assert (Hv : ∀ b, b ≠ a → v' b = v b) by (intros b Hb; unfold v', disk_upd; by rewrite (proj2 (Z.eqb_neq _ _) Hb)).
  assert (Hva : v' a = put_u32 (slot_of e) fb (v a)) by (unfold v', disk_upd; by rewrite Z.eqb_refl).
  assert (Hf : ∀ i p, 1 ≤ i < n → valid_place p → flat v' (A i) p = if decide (i = j ∧ p = Dat (e + Z.of_nat NDIRECT)) then fb else flat v (A i) p).
  { intros i p Hi Hp. assert (Hoth : i ≠ j → nth NDIRECT (A i) 0 ≠ 0 → nth NDIRECT (A i) 0 ≠ a).
    { intros Hij Hne E. destruct (fo_own _ _ _ _ _ _ _ H i (Idx 0) Hi ltac:(done) Hne) as [_ Ho]. cbn [flat Z.eqb] in Ho. congruence. }
    destruct p as [k|bn]; cbn [flat]; [by rewrite decide_False by naive_solver|]. simpl in Hp.
    destruct (Z.ltb_spec bn (Z.of_nat NDIRECT)); [rewrite decide_False; [done|intros [_ [= ->]]; lia]|].
    destruct (Z.ltb_spec bn MAXMK) as [Hlt|]; [|rewrite decide_False; [done|intros [_ [= ->]]; unfold MAXMK in *; lia]].
    destruct (decide (i = j)) as [->|Hij].
    - fold a. destruct (decide (e = bn - Z.of_nat NDIRECT)) as [Ee|Hne].
      + rewrite <- Ee. rewrite decide_True by (split; [done|f_equal; lia]). eapply entry_put_same; [done|apply (fo_block _ _ _ _ _ _ _ H a)|done|lia|done].
      + rewrite decide_False by (intros [_ [= E]]; lia). eapply entry_put_other; [exact He|unfold MAXMK in *; lia|done|apply H|done].
    - rewrite decide_False by naive_solver. destruct (decide (nth NDIRECT (A i) 0 = 0)) as [->|Hne]; [done|]. apply entry_same. auto. }
  split; [lia|apply H| | | | |].
  - intros i p Hi Hp. rewrite Hf by done. case_decide as Hd; [destruct Hd as [-> ->]; intros _; rewrite Z.eqb_refl; split; [lia|done]|].
    intros Hne. destruct (fo_own _ _ _ _ _ _ _ H i p Hi Hp Hne) as [? Ho]. rewrite (proj2 (Z.eqb_neq _ fb)) by lia. split; [lia|done].
  - intros i p Hi Hp. rewrite Hf by done. unfold has_also. case_decide as Hd.
    + rewrite bool_decide_true by done. cbn [orb negb]. apply Z.eqb_neq. lia.
    + rewrite bool_decide_false by done. by apply H.
  - intros i o Hi Ho. pose proof (dat_valid o Ho) as Hp. rewrite !Hf by done. case_decide as Hd.
    + destruct Hd as [-> [= Eo]]. intros _. rewrite Hv by lia. rewrite (fo_zero _ _ _ _ _ _ _ H) by lia. unfold zero_block.
      rewrite nth_replicate_same. symmetry. apply nth_overflow. rewrite <- Eo in Hlen. pose proof (Z.mul_div_le o 512). lia.
    + intros Hne. destruct (fo_own _ _ _ _ _ _ _ H i _ Hi Hp Hne) as [_ Hon]. rewrite Hv; [by apply H|]. intros E. rewrite E in Hon. congruence.
  - intros b Hb. rewrite Hv by lia. apply H. lia.
  - intros b. destruct (decide (b = a)) as [->|Hb]; [|rewrite Hv by done; apply H]. rewrite Hva. apply put_u32_block; [by apply slot_bound|apply H].
Qed.

(** Bytes are appended to the last block of a file. *)
Lemma files_write j c :
  1 ≤ j < n →
  let off := Z.of_nat (length (F j)) in
  let a := flat v (A j) (Dat (off / 512)) in
  a ≠ 0 → off < MAXFILE * 512 → off `mod` 512 + Z.of_nat (length c) ≤ 512 →
  files_ok (disk_upd v a (splice (Z.to_nat (off `mod` 512)) c (v a))) fb n own has A (disk_upd F j (F j ++ c)).
Proof.
  intros Hj off a Ha Hoff Hc. assert (Hp0 : valid_place (Dat (off / 512))) by (apply dat_valid; lia).
  destruct (fo_own _ _ _ _ _ _ _ H j _ Hj Hp0 Ha) as [Har Hao]. fold a in Har, Hao. pose proof (Z.mod_pos_bound off 512 ltac:(lia)) as Hm.
  set (v' := disk_upd v a _). assert (Hv : ∀ b, b ≠ a → v' b = v b) by (intros b Hb; unfold v', disk_upd; by rewrite (proj2 (Z.eqb_neq _ _) Hb)).
  assert (Hva : v' a = splice (Z.to_nat (off `mod` 512)) c (v a)) by (unfold v', disk_upd; by rewrite Z.eqb_refl).
  pose proof (fo_block _ _ _ _ _ _ _ H a) as Hblk. unfold is_block in Hblk. pose proof (eq_refl : BSIZE = 512%nat) as HBS.
  assert (Hf : ∀ i p, 1 ≤ i < n → valid_place p → flat v' (A i) p = flat v (A i) p).
  { intros i p Hi Hp. destruct p as [k|bn]; cbn [flat]; [done|]. destruct (bn <? Z.of_nat NDIRECT); [done|]. destruct (bn <? MAXMK); [|done].
    destruct (decide (nth NDIRECT (A i) 0 = 0)) as [->|Hne]; [done|]. apply entry_same, Hv. intros E.
    destruct (fo_own _ _ _ _ _ _ _ H i (Idx 0) Hi ltac:(done) Hne) as [_ Ho]. cbn [flat Z.eqb] in Ho. congruence. }
  split; [apply H|apply H| | | | |].
  - intros i p Hi Hp. rewrite Hf by done. by apply H.
  - intros i p Hi Hp. rewrite Hf by done. by apply H.
  - intros i o Hi Ho. pose proof (dat_valid o Ho) as Hp. rewrite !Hf by done. intros Hne.
    destruct (fo_own _ _ _ _ _ _ _ H i _ Hi Hp Hne) as [_ Hon]. pose proof (fo_byte _ _ _ _ _ _ _ H i o Hi Ho Hne) as Hby.
    destruct (decide (flat v (A i) (Dat (o / 512)) = a)) as [E|E].
    + rewrite E in Hon. assert (i = j ∧ o / 512 = off / 512) as [-> Eo] by (rewrite Hao in Hon; by injection Hon). rewrite E, Hva in *.
      pose proof (Z.div_mod o 512 ltac:(lia)). pose proof (Z.div_mod off 512 ltac:(lia)). pose proof (Z.mod_pos_bound o 512 ltac:(lia)).
      rewrite nth_splice by lia. unfold disk_upd at 1. rewrite Z.eqb_refl. case_decide as Hd.
      * rewrite app_nth2 by lia. f_equal. lia.
      * rewrite Hby. destruct (decide (o < off)); [by rewrite app_nth1 by lia|]. rewrite !nth_overflow; [done| |lia]. rewrite length_app. lia.
    + rewrite Hv by done. rewrite Hby. unfold disk_upd. destruct (Z.eqb_spec i j) as [->|]; [|done].
      destruct (decide (o < off)); [by rewrite app_nth1 by lia|]. rewrite (nth_overflow (F j)) by lia. symmetry. apply nth_overflow.
      rewrite length_app. assert (o / 512 ≠ off / 512) by (intros Eo; apply E; unfold a; by rewrite Eo).
      pose proof (Z.div_le_mono off o 512). pose proof (Z.div_mod o 512 ltac:(lia)). pose proof (Z.div_mod off 512 ltac:(lia)).
      pose proof (Z.mod_pos_bound o 512 ltac:(lia)). lia.
  - intros b Hb. rewrite Hv by lia. apply H. lia.
  - intros b. destruct (decide (b = a)) as [->|Hb]; [|rewrite Hv by done; apply H]. rewrite Hva. unfold is_block. by rewrite length_splice by lia.
Qed.

(** A new, empty file. *)
Lemma files_new : files_ok v fb (n + 1) own (λ i p, if i =? n then false else has i p) (disk_upd A n (replicate NADDRS 0)) (disk_upd F n []).
Proof.
  assert (Hz : ∀ p, flat v (replicate NADDRS 0) p = 0).
  { intros [k|bn]; cbn [flat]; rewrite ?nth_replicate_same; [by case_match|]. repeat case_match; done. }
  assert (Hc : ∀ j, 1 ≤ j < n + 1 → (j = n ∨ 1 ≤ j < n)) by lia.
  split; [apply H| | | | |apply H|apply H].
  - intros j Hj. unfold disk_upd. destruct (Z.eqb_spec j n) as [->|]; [done|]. apply H. lia.
  - intros j p Hj Hp. unfold disk_upd. destruct (Z.eqb_spec j n) as [->|]; [by rewrite Hz|]. apply H; [lia|done].
  - intros j p Hj Hp. unfold disk_upd. destruct (Z.eqb_spec j n) as [->|]; [by rewrite Hz|]. apply H; [lia|done].
  - intros j o Hj Ho. unfold disk_upd. destruct (Z.eqb_spec j n) as [->|]; [by rewrite Hz|]. apply H; [lia|done].
Qed.

(** A store below the data. *)
Lemma files_low c d : c < 35 → is_block d → files_ok (disk_upd v c d) fb n own has A F.
Proof.
  intros Hc Hd. pose proof (fo_fb _ _ _ _ _ _ _ H). set (v' := disk_upd v c d).
  assert (Hv : ∀ b, 35 ≤ b → v' b = v b) by (intros b Hb; unfold v', disk_upd; by rewrite (proj2 (Z.eqb_neq _ _)) by lia).
  assert (Hf : ∀ i p, 1 ≤ i < n → valid_place p → flat v' (A i) p = flat v (A i) p).
  { intros i p Hi Hp. destruct p as [k|bn]; cbn [flat]; [done|]. destruct (bn <? Z.of_nat NDIRECT); [done|]. destruct (bn <? MAXMK); [|done].
    destruct (decide (nth NDIRECT (A i) 0 = 0)) as [->|Hne]; [done|]. apply entry_same, Hv.
    destruct (fo_own _ _ _ _ _ _ _ H i (Idx 0) Hi ltac:(done) Hne) as [? _]. cbn [flat Z.eqb] in *. lia. }
  split; [done|apply H| | | | |].
  - intros i p Hi Hp. rewrite Hf by done. by apply H.
  - intros i p Hi Hp. rewrite Hf by done. by apply H.
  - intros i o Hi Ho. pose proof (dat_valid o Ho) as Hp. rewrite !Hf by done. intros Hne.
    destruct (fo_own _ _ _ _ _ _ _ H i _ Hi Hp Hne) as [? _]. rewrite Hv by lia. by apply H.
  - intros b Hb. rewrite Hv by lia. by apply H.
  - intros b. unfold v', disk_upd. case_match; [done|apply H].
Qed.
End files.

(** ** The length of a file and its blocks *)

Definition present (len : Z) (p : place) : bool :=
  match p with
  | Dat bn => bn * 512 <? len
  | Idx k => (k =? 0) && (Z.of_nat NDIRECT * 512 <? len)
  end.

(** The number of blocks of a file, the block of addresses included. *)
Definition nblk (len : Z) : Z := (len + 511) / 512 + if Z.of_nat NDIRECT * 512 <? len then 1 else 0.

Definition flen (F : Z → list Z) (j : Z) : Z := Z.of_nat (length (F j)).

Lemma same_block off len k : 0 ≤ off → off < len ≤ (off / 512 + 1) * 512 → (k * 512 <? len) = (k * 512 <? off + 1).
Proof.
  intros H0 Hl. pose proof (Z.div_mod off 512 ltac:(lia)). pose proof (Z.mod_pos_bound off 512 ltac:(lia)).
  destruct (Z.ltb_spec (k * 512) len), (Z.ltb_spec (k * 512) (off + 1)); lia.
Qed.

Lemma present_step off len p : 0 ≤ off → off < len ≤ (off / 512 + 1) * 512 → present len p = present (off + 1) p.
Proof. intros H0 Hl. destruct p as [k|bn]; cbn [present]; [f_equal|]; by apply same_block. Qed.

Lemma nblk_step off len : 0 ≤ off → off < len ≤ (off / 512 + 1) * 512 → nblk len = nblk (off + 1).
Proof.
  intros H0 Hl. unfold nblk. rewrite (same_block off) by done. f_equal.
  pose proof (Z.div_mod off 512 ltac:(lia)). pose proof (Z.mod_pos_bound off 512 ltac:(lia)).
  transitivity (off / 512 + 1); [symmetry|]; [apply (Z.div_unique _ _ _ (len + 511 - 512 * (off / 512 + 1))); lia|].
  apply (Z.div_unique _ _ _ (off `mod` 512)); lia.
Qed.

(** Inside of a block the next byte needs no other one. *)
Lemma inside_step off : 0 ≤ off → off `mod` 512 ≠ 0 → off - 1 < off + 1 ≤ ((off - 1) / 512 + 1) * 512.
Proof.
  intros H0 Hm. pose proof (Z.div_mod off 512 ltac:(lia)). pose proof (Z.mod_pos_bound off 512 ltac:(lia)).
  replace ((off - 1) / 512) with (off / 512); [lia|]. apply (Z.div_unique _ _ _ (off `mod` 512 - 1)); lia.
Qed.

Lemma present_inside off p : 0 ≤ off → off `mod` 512 ≠ 0 → present (off + 1) p = present off p.
Proof.
  intros H0 Hm. assert (off ≠ 0) by (intros ->; done). rewrite (present_step (off - 1)) by (by apply inside_step || lia).
  f_equal. lia.
Qed.

Lemma nblk_inside off : 0 ≤ off → off `mod` 512 ≠ 0 → nblk (off + 1) = nblk off.
Proof.
  intros H0 Hm. assert (off ≠ 0) by (intros ->; done). rewrite (nblk_step (off - 1)) by (by apply inside_step || lia).
  f_equal. lia.
Qed.

(** At the start of a block. *)
Lemma nblk_start off : 0 ≤ off → off `mod` 512 = 0 →
  nblk (off + 1) = nblk off + 1 + if off =? Z.of_nat NDIRECT * 512 then 1 else 0.
Proof.
  intros H0 Hm. pose proof (Z.div_mod off 512 ltac:(lia)). unfold nblk.
  assert (E1 : (off + 511) / 512 = off / 512) by (symmetry; apply (Z.div_unique _ _ _ 511); lia).
  assert (E2 : (off + 1 + 511) / 512 = off / 512 + 1) by (symmetry; apply (Z.div_unique _ _ _ 0); lia).
  rewrite E1, E2. destruct (Z.ltb_spec (Z.of_nat NDIRECT * 512) off), (Z.ltb_spec (Z.of_nat NDIRECT * 512) (off + 1)),
    (Z.eqb_spec off (Z.of_nat NDIRECT * 512)); lia.
Qed.

Lemma present_start off p : 0 ≤ off → off `mod` 512 = 0 → valid_place p →
  present (off + 1) p = bool_decide (p = Dat (off / 512)) || (bool_decide (p = Idx 0) && (off =? Z.of_nat NDIRECT * 512)) || present off p.
Proof.
  intros H0 Hm Hp. pose proof (Z.div_mod off 512 ltac:(lia)). destruct p as [k|bn]; cbn [present]; simpl in Hp.
  - rewrite (bool_decide_false (Idx k = Dat _)) by done. destruct (Z.eqb_spec k 0) as [->|].
    + rewrite bool_decide_true by done. cbn [andb orb].
      destruct (Z.ltb_spec (Z.of_nat NDIRECT * 512) off), (Z.ltb_spec (Z.of_nat NDIRECT * 512) (off + 1)), (Z.eqb_spec off (Z.of_nat NDIRECT * 512)); lia || done.
    + rewrite bool_decide_false by congruence. done.
  - rewrite (bool_decide_false (Dat bn = Idx 0)) by done. cbn [andb]. case_bool_decide as E.
    + injection E as ->. cbn [orb]. apply Z.ltb_lt. lia.
    + cbn [orb]. assert (bn ≠ off / 512) by congruence. destruct (Z.ltb_spec (bn * 512) (off + 1)), (Z.ltb_spec (bn * 512) off); lia || done.
Qed.

Lemma files_ext v fb n own has has' A A' F F' :
  files_ok v fb n own has A F → (∀ j p, 1 ≤ j < n → valid_place p → has' j p = has j p) →
  (∀ j, A' j = A j) → (∀ j, F' j = F j) → files_ok v fb n own has' A' F'.
Proof.
  intros H Hh HA HF. split; try apply H; intros j; rewrite ?HA, ?HF; try apply H.
  intros p Hj Hp. rewrite Hh by done. by apply H.
Qed.

Lemma nblk_mono a b : 0 ≤ a ≤ b → nblk a ≤ nblk b.
Proof.
  intros Hab. unfold nblk. pose proof (Z.div_le_mono (a + 511) (b + 511) 512 ltac:(lia) ltac:(lia)).
  destruct (Z.ltb_spec (Z.of_nat NDIRECT * 512) a), (Z.ltb_spec (Z.of_nat NDIRECT * 512) b); lia.
Qed.

(** ** [iappend] *)

Lemma wp_rsect sec (Q : block → mkst → Prop) s : sec < m_end s → Q (m_img s sec) s → wp (rsect sec) Q s.
Proof. intros He HQ. unfold rsect. apply wp_bind, wp_gets. rewrite (proj2 (Z.ltb_lt _ _) He). by apply wp_gets. Qed.

(** What allocating and writing blocks leaves alone. *)
Definition kept (s s' : mkst) : Prop :=
  m_end s' = m_end s ∧ freeinode s' = freeinode s ∧ usedblocks s' - freeblock s' = usedblocks s - freeblock s ∧
  ∀ b, b < 35 → m_img s' b = m_img s b.

Lemma kept_refl s : kept s s.
Proof. by split. Qed.
Lemma kept_trans s s1 s2 : kept s s1 → kept s1 s2 → kept s s2.
Proof. intros (? & ? & ? & Hb) (? & ? & ? & Hb'). split_and!; [congruence..|lia|]. intros b ?. by rewrite Hb', Hb. Qed.

Lemma wp_next_block (Q : Z → mkst → Prop) s :
  0 ≤ freeblock s < fssize → 0 ≤ usedblocks s < fssize →
  (∀ s', m_img s' = m_img s → freeblock s' = freeblock s + 1 → usedblocks s' = usedblocks s + 1 → kept s s' → Q (freeblock s) s') →
  wp next_block Q s.
Proof.
  unfold fssize. intros Hf Hu HQ. unfold next_block. wp_run. unfold put_usedblocks, put_freeblock. cbn. rewrite !w32_small by lia.
  apply HQ; [done..|]. split_and!; cbn; [done|done|lia|done].
Qed.

Section append.
Context (j : Z) (F : Z → list Z) (n : Z) (Hj : 1 ≤ j < n).
Implicit Types (s : mkst).

Lemma wp_mk_addr din k own has A (Q : dinode → mkst → Prop) s :
  files_ok (m_img s) (freeblock s) n own has A F → di_addrs din = A j → (k ≤ NDIRECT)%nat →
  ((k < NDIRECT)%nat → nth k (A j) 0 = 0 → flen F j ≤ Z.of_nat k * 512) → freeblock s < fssize → usedblocks s = freeblock s →
  (∀ s' own' A', files_ok (m_img s) (freeblock s') n own' (if nth k (A j) 0 =? 0 then has_also has j (place_of k) else has) A' F →
     freeblock s' = freeblock s + (if nth k (A j) 0 =? 0 then 1 else 0) → m_img s' = m_img s → kept s s' →
     (∀ i, i ≠ j → A' i = A i) → (∀ i, i ≠ k → nth i (A' j) 0 = nth i (A j) 0) → nth k (A' j) 0 ≠ 0 → Q (put_di_addrs (A' j) din) s') →
  wp (mk_addr din k) Q s.
Proof.
  intros H Ha Hk Hlen Hfb Hu HQ. pose proof (fo_fb _ _ _ _ _ _ _ H) as H35. unfold mk_addr. rewrite Ha.
  assert (Hp : valid_place (place_of k)).
  { unfold place_of. destruct (Nat.ltb_spec k NDIRECT); simpl; [|done]. assert (Z.of_nat NDIRECT < MAXFILE) by done. lia. }
  assert (Hflat : flat (m_img s) (A j) (place_of k) = nth k (A j) 0).
  { unfold place_of. destruct (Nat.ltb_spec k NDIRECT); cbn [flat]; [by rewrite (proj2 (Z.ltb_lt _ _)), Nat2Z.id by lia|]. do 2 f_equal. lia. }
  assert (Hx : 0 ≤ nth k (A j) 0 < fssize).
  { destruct (decide (nth k (A j) 0 = 0)) as [->|Hne]; [unfold fssize; lia|]. rewrite <- Hflat in *.
    destruct (fo_own _ _ _ _ _ _ _ H j _ Hj Hp Hne). lia. }
  unfold fssize in *. rewrite xint_id by lia. destruct (Z.eqb_spec (nth k (A j) 0) 0) as [E|E].
  - apply wp_bind, wp_next_block; [unfold fssize; lia..|]. intros s' Hi Hf' _ Hkp. apply wp_ret. rewrite xint_id by lia.
    destruct (fo_addrs _ _ _ _ _ _ _ H j Hj) as (Hl & _).
    set (A' := disk_upd A j (<[k := freeblock s]> (A j))). assert (EA : A' j = <[k := freeblock s]> (A j)) by (unfold A', disk_upd; by rewrite Z.eqb_refl).
    rewrite <- EA. eapply HQ; [|done|done|done|..].
    + rewrite Hf'. apply files_alloc_addr; [done|done|done|done|]. intros Hlt. by apply Hlen.
    + intros i Hne. unfold A', disk_upd. by rewrite (proj2 (Z.eqb_neq _ _) Hne).
    + intros i Hne. rewrite EA. by apply nth_insert_ne.
    + rewrite EA, nth_insert_eq by (rewrite Hl; unfold NADDRS, NUM_INDIRECT; lia). lia.
  - apply wp_ret. rewrite <- (Z.add_0_r (freeblock s)) in H. replace din with (put_di_addrs (A j) din) by (destruct din; cbn in *; by subst).
    eapply HQ; [rewrite Z.add_0_r in H; exact H|lia|done|apply kept_refl|done|done|done].
Qed.

Implicit Types (A : Z → list Z).

Definition lens i p : bool := present (flen F i) p.
Definition lens_next i p : bool := present (if i =? j then flen F j + 1 else flen F i) p.

(** What [iappend_block] leaves: the block of the next byte is there. *)
Definition block_there A s A' s' : Prop :=
  (∃ own', files_ok (m_img s') (freeblock s') n own' lens_next A' F) ∧
  freeblock s' = freeblock s + nblk (flen F j + 1) - nblk (flen F j) ∧ kept s s' ∧ ∀ i, i ≠ j → A' i = A i.

Context (Hlen : flen F j < MAXMK * 512).

Lemma off_div : flen F j / 512 < MAXMK ∧ 0 ≤ flen F j / 512.
Proof. split; [apply Z.div_lt_upper_bound; lia|apply Z.div_pos; unfold flen; lia]. Qed.

Lemma off_valid : valid_place (Dat (flen F j / 512)).
Proof. pose proof off_div. simpl. assert (MAXMK < MAXFILE) by done. lia. Qed.

Lemma lens_start own A v fb : files_ok v fb n own lens A F →
  (flat v (A j) (Dat (flen F j / 512)) =? 0) = (flen F j `mod` 512 =? 0).
Proof.
  intros H. rewrite (fo_has _ _ _ _ _ _ _ H j _ Hj off_valid). unfold lens, present.
  pose proof (Z.div_mod (flen F j) 512 ltac:(lia)). pose proof (Z.mod_pos_bound (flen F j) 512 ltac:(lia)).
  destruct (Z.ltb_spec (flen F j / 512 * 512) (flen F j)), (Z.eqb_spec (flen F j `mod` 512) 0); done || lia.
Qed.

Lemma lens_next_inside i p : flen F j `mod` 512 ≠ 0 → lens_next i p = lens i p.
Proof.
  intros Hm. unfold lens_next, lens. destruct (Z.eqb_spec i j) as [->|]; [|done]. apply present_inside; [unfold flen; lia|done].
Qed.

Lemma lens_next_start i p : flen F j `mod` 512 = 0 → valid_place p →
  lens_next i p = (bool_decide (i = j) && (bool_decide (p = Dat (flen F j / 512)) || (bool_decide (p = Idx 0) && (flen F j =? Z.of_nat NDIRECT * 512)))) || lens i p.
Proof.
  intros Hm Hp. unfold lens_next, lens. destruct (Z.eqb_spec i j) as [->|]; [|by rewrite bool_decide_false].
  rewrite bool_decide_true by done. cbn [andb]. apply present_start; [unfold flen; lia|done|done].
Qed.

Lemma wp_block_direct din own A (Q : dinode * Z → mkst → Prop) s :
  files_ok (m_img s) (freeblock s) n own lens A F → di_addrs din = A j → freeblock s < fssize → usedblocks s = freeblock s →
  flen F j / 512 < Z.of_nat NDIRECT →
  (∀ s' A', block_there A s A' s' → Q (put_di_addrs (A' j) din, flat (m_img s') (A' j) (Dat (flen F j / 512))) s') →
  wp (iappend_block din (flen F j / 512)) Q s.
Proof.
  intros H Ha Hfb Hu Hd HQ. destruct off_div as [_ H0]. pose proof (lens_start own A _ _ H) as Hst. unfold iappend_block.
  rewrite (proj2 (Z.ltb_lt _ _) Hd). set (k := Z.to_nat (flen F j / 512)).
  assert (Hfl : ∀ v l, flat v l (Dat (flen F j / 512)) = nth k l 0) by (intros; cbn [flat]; by rewrite (proj2 (Z.ltb_lt _ _) Hd)).
  rewrite Hfl in Hst. assert (Epl : place_of k = Dat (flen F j / 512)).
  { unfold place_of. destruct (Nat.ltb_spec k NDIRECT); [f_equal; unfold k; lia|unfold k in *; lia]. }
  pose proof (Z.div_mod (flen F j) 512 ltac:(lia)). assert (0 ≤ flen F j) by (unfold flen; lia).
  apply wp_bind. eapply wp_mk_addr; [done|done|unfold k; lia| |done|done|].
  { intros _ E. rewrite E in Hst. symmetry in Hst. apply Z.eqb_eq in Hst. unfold k. lia. }
  intros s' own' A' H' Hf' Hi Hkp Ho Hn Hne. apply wp_ret. cbn [di_addrs put_di_addrs].
  assert (Hx : 0 ≤ nth k (A' j) 0 < fssize + 1).
  { destruct (fo_own _ _ _ _ _ _ _ H' j _ Hj off_valid) as [Hr _]; rewrite Hfl in *; [done|]. case_match; lia. }
  unfold fssize in Hx. rewrite xint_id by lia. rewrite <- (Hfl (m_img s')). apply HQ. rewrite Hst in H', Hf'.
  split_and!; [exists own'|rewrite Hf'|done|done].
  - rewrite Hi. eapply files_ext; [exact H'| |done|done]. intros i p _ Hp. destruct (Z.eqb_spec (flen F j `mod` 512) 0) as [E|E].
    + rewrite lens_next_start by done. rewrite (proj2 (Z.eqb_neq _ (Z.of_nat NDIRECT * 512))) by lia. rewrite andb_false_r, orb_false_r.
      unfold has_also. rewrite Epl. f_equal. repeat case_bool_decide; naive_solver.
    + by apply lens_next_inside.
  - destruct (Z.eqb_spec (flen F j `mod` 512) 0) as [E|E]; [|rewrite nblk_inside by done; lia].
    rewrite nblk_start by done. rewrite (proj2 (Z.eqb_neq _ (Z.of_nat NDIRECT * 512))) by lia. lia.
Qed.

(** The block of addresses is there; the entry may be missing. *)
Lemma wp_block_entry {B} e own has A (k : Z → M mkst B) (Q : B → mkst → Prop) s :
  files_ok (m_img s) (freeblock s) n own has A F → nth NDIRECT (A j) 0 ≠ 0 → 0 ≤ e < PTRS_PER_BLOCK →
  (has j (Dat (e + Z.of_nat NDIRECT)) = false → flen F j ≤ (e + Z.of_nat NDIRECT) * 512) →
  freeblock s < fssize → usedblocks s = freeblock s → m_end s = fssize →
  let a := nth NDIRECT (A j) 0 in let d := m_img s a in let p := Dat (e + Z.of_nat NDIRECT) in
  (∀ s' own', files_ok (m_img s') (freeblock s') n own' (if has j p then has else has_also has j p) A F →
     freeblock s' = freeblock s + (if has j p then 0 else 1) → kept s s' → wp (k (flat (m_img s') (A j) p)) Q s') →
  wp (if get_u32 (slot_of e) d =? 0 then b ← next_block; wsect a (put_u32 (slot_of e) (xint b) d);;
        k (xint (get_u32 (slot_of e) (put_u32 (slot_of e) (xint b) d)))
      else k (xint (get_u32 (slot_of e) d))) Q s.
Proof.
  intros H Ha He Hl Hfb Hu Hend a d p HQ. pose proof (fo_fb _ _ _ _ _ _ _ H) as H35. unfold fssize in *.
  assert (Hp : valid_place p) by (simpl; assert (PTRS_PER_BLOCK + Z.of_nat NDIRECT < MAXFILE) by done; lia).
  destruct (fo_own _ _ _ _ _ _ _ H j (Idx 0) Hj ltac:(done) Ha) as [Har _]. cbn [flat Z.eqb] in Har. fold a in Har.
  assert (Hfl : ∀ v, flat v (A j) p = get_u32 (slot_of e) (v a)).
  { intros v. unfold p. cbn [flat]. rewrite (proj2 (Z.ltb_ge _ _)), (proj2 (Z.ltb_lt _ _)) by (unfold MAXMK; lia).
    unfold entry. fold a. rewrite (proj2 (Z.eqb_neq a 0) Ha). do 2 f_equal. lia. }
  pose proof (fo_has _ _ _ _ _ _ _ H j p Hj Hp) as Hh. rewrite Hfl in Hh. fold d in Hh. rewrite Hh.
  destruct (has j p) eqn:Ehas; cbn [negb] in *.
  - destruct (fo_own _ _ _ _ _ _ _ H j p Hj Hp) as [Hr _]; [rewrite Hfl; by apply Z.eqb_neq|]. rewrite Hfl in Hr. fold d in Hr.
    rewrite xint_id by lia. unfold d. rewrite <- Hfl. eapply HQ; [exact H|lia|apply kept_refl].
  - apply Z.eqb_eq in Hh. apply wp_bind, wp_next_block; [unfold fssize; lia..|]. intros s1 Hi Hf1 Hu1 (K1 & K2 & K3 & K4).
    apply wp_bind, wp_modify. rewrite (xint_id (freeblock s)) by lia.
    pose proof (files_alloc_entry _ _ _ _ _ _ _ H j e Hj He ltac:(lia) Ha) as H'. fold a d p in H'.
    assert (Hblk : is_block d) by (unfold d; apply (fo_block _ _ _ _ _ _ _ H)).
    set (s2 := mkMk _ _ _ _ _). assert (Eimg : m_img s2 = disk_upd (m_img s) a (put_u32 (slot_of e) (freeblock s) d)) by (cbn; by rewrite Hi).
    assert (Eput : get_u32 (slot_of e) (put_u32 (slot_of e) (freeblock s) d) = freeblock s).
    { rewrite get_put_u32_same, w32_small by (lia || (rewrite Hblk; by apply slot_bound)). done. }
    rewrite Eput, xint_id by lia.
    assert (Efl : flat (m_img s2) (A j) p = freeblock s) by (rewrite Hfl, Eimg; unfold disk_upd; by rewrite Z.eqb_refl).
    rewrite <- Efl. eapply HQ.
    + rewrite Eimg. change (freeblock s2) with (freeblock s1). rewrite Hf1. apply H'; [|by apply Hl].
      unfold entry. rewrite (proj2 (Z.eqb_neq a 0) Ha). exact Hh.
    + cbn. lia.
    + split_and!; [cbn; lia|done|done|]. intros b Hb. rewrite Eimg. unfold disk_upd. by rewrite (proj2 (Z.eqb_neq _ _)) by lia.
Qed.

Lemma wp_block_indirect din own A (Q : dinode * Z → mkst → Prop) s :
  files_ok (m_img s) (freeblock s) n own lens A F → di_addrs din = A j → freeblock s + 1 < fssize → usedblocks s = freeblock s →
  m_end s = fssize → Z.of_nat NDIRECT ≤ flen F j / 512 →
  (∀ s' A', block_there A s A' s' → Q (put_di_addrs (A' j) din, flat (m_img s') (A' j) (Dat (flen F j / 512))) s') →
  wp (iappend_block din (flen F j / 512)) Q s.
Proof.
  intros H Ha Hfb Hu Hend Hd HQ. destruct off_div as [Hd2 _]. set (off := flen F j) in *. set (e := off / 512 - Z.of_nat NDIRECT).
  assert (He : 0 ≤ e < PTRS_PER_BLOCK) by (unfold e, MAXMK in *; lia). assert (Ee : off / 512 = e + Z.of_nat NDIRECT) by (unfold e; lia).
  pose proof (Z.div_mod off 512 ltac:(lia)) as Hdm. pose proof (Z.mod_pos_bound off 512 ltac:(lia)) as Hmb. assert (H0 : 0 ≤ off) by (unfold off, flen; lia).
  pose proof (fo_has _ _ _ _ _ _ _ H j (Idx 0) Hj ltac:(done)) as Hix. cbn [flat Z.eqb] in Hix.
  unfold lens at 1, present in Hix. fold off in Hix. cbn [Z.eqb andb] in Hix.
  unfold iappend_block. rewrite (proj2 (Z.ltb_ge _ _) Hd). apply wp_bind. eapply wp_mk_addr; [done|done|done|lia|lia|done|].
  intros s1 own1 A1 H1 Hf1 Hi1 K1 HA1 _ Hne. cbn [di_addrs put_di_addrs]. rewrite <- Hi1 in H1.
  pose proof K1 as (K1e & _ & K1u & _). destruct (fo_own _ _ _ _ _ _ _ H1 j (Idx 0) Hj ltac:(done) Hne) as [Har _]. cbn [flat Z.eqb] in Har.
  assert (Hb1 : freeblock s1 ≤ fssize) by (rewrite Hf1; case_match; lia). unfold fssize in *. rewrite xint_id by lia.
  apply wp_bind, wp_rsect; [lia|]. fold e. rewrite (proj2 (Z.leb_gt _ _)) by lia.
  set (has1 := if nth NDIRECT (A j) 0 =? 0 then _ else _) in H1.
  assert (Eh : has1 j (Dat (e + Z.of_nat NDIRECT)) = negb (off `mod` 512 =? 0)).
  { assert (has1 j (Dat (e + Z.of_nat NDIRECT)) = (off / 512 * 512 <? off)) as ->.
    { rewrite <- Ee. unfold has1. case_match; [|done]. unfold has_also. by rewrite bool_decide_false by (intros [_ ?]; done). }
    destruct (Z.ltb_spec (off / 512 * 512) off), (Z.eqb_spec (off `mod` 512) 0); done || lia. }
  eapply (wp_block_entry e own1 has1 A1 (λ x, mret (put_di_addrs (A1 j) din, x))); [done|done|done| |unfold fssize; case_match; lia|lia|unfold fssize; lia|].
  { rewrite Eh. intros ?%negb_false_iff%Z.eqb_eq. fold off. lia. }
  intros s2 own2 H2 Hf2 K2. apply wp_ret. rewrite <- Ee. apply HQ. rewrite Eh in H2, Hf2. rewrite <- Ee in H2.
  split_and!; [|rewrite Hf2, Hf1, Hix; fold off|by eapply kept_trans|done].
  - exists own2. eapply files_ext; [exact H2| |done|done]. intros i p _ Hp. unfold has1. rewrite Hix.
    destruct (Z.eqb_spec (off `mod` 512) 0) as [E|E]; cbn [negb].
    + rewrite lens_next_start by done. fold off. unfold has_also at 1.
      destruct (Z.ltb_spec (Z.of_nat NDIRECT * 512) off), (Z.eqb_spec off (Z.of_nat NDIRECT * 512)); try lia; cbn [negb];
        unfold has_also; repeat case_bool_decide; naive_solver.
    + rewrite lens_next_inside by done. rewrite (proj2 (Z.ltb_lt _ off)) by lia. done.
  - destruct (Z.eqb_spec (off `mod` 512) 0) as [E|E]; cbn [negb].
    + rewrite nblk_start by done. destruct (Z.ltb_spec (Z.of_nat NDIRECT * 512) off), (Z.eqb_spec off (Z.of_nat NDIRECT * 512)); cbn [negb]; lia.
    + rewrite nblk_inside by done. rewrite (proj2 (Z.ltb_lt _ off)) by lia. cbn [negb]. lia.
Qed.
End append.

Lemma wp_block j F n din own A (Q : dinode * Z → mkst → Prop) s :
  1 ≤ j < n → flen F j < MAXMK * 512 →
  files_ok (m_img s) (freeblock s) n own (lens F) A F → di_addrs din = A j → freeblock s + 1 < fssize → usedblocks s = freeblock s →
  m_end s = fssize →
  (∀ s' A', block_there j F n A s A' s' → Q (put_di_addrs (A' j) din, flat (m_img s') (A' j) (Dat (flen F j / 512))) s') →
  wp (iappend_block din (flen F j / 512)) Q s.
Proof.
  intros Hj Hl H Ha Hfb Hu He HQ. destruct (Z.lt_ge_cases (flen F j / 512) (Z.of_nat NDIRECT)).
  - eapply wp_block_direct; [done|done|done|done|lia|done|done|done].
  - by eapply wp_block_indirect.
Qed.

(** The contents of file [j] with [p] at the end. *)
Definition appended (F : Z → list Z) (j : Z) (p : list Z) : Z → list Z := disk_upd F j (F j ++ p).

Lemma appended_same F j p : appended F j p j = F j ++ p.
Proof. unfold appended, disk_upd. by rewrite Z.eqb_refl. Qed.
Lemma appended_other F j p i : i ≠ j → appended F j p i = F i.
Proof. intros Hi. unfold appended, disk_upd. by rewrite (proj2 (Z.eqb_neq _ _) Hi). Qed.
Lemma appended_app F j p q i : appended (appended F j p) j q i = appended F j (p ++ q) i.
Proof.
  destruct (decide (i = j)) as [->|Hi]; [by rewrite !appended_same, app_assoc|]. by rewrite !appended_other.
Qed.
Lemma flen_appended F j p : flen (appended F j p) j = flen F j + Z.of_nat (length p).
Proof. unfold flen. rewrite appended_same, length_app. lia. Qed.

(** Contents that are the same, as [files_ok] sees them. *)
Lemma files_same v fb n own A F F' : files_ok v fb n own (lens F) A F → (∀ i, F' i = F i) → files_ok v fb n own (lens F') A F'.
Proof. intros H E. eapply files_ext; [exact H| |done|exact E]. intros i p _ _. unfold lens, flen. by rewrite E. Qed.

Lemma appended_nil F j i : appended F j [] i = F i.
Proof. destruct (decide (i = j)) as [->|Hi]; [by rewrite appended_same, app_nil_r|by rewrite appended_other]. Qed.

(** One round of the loop: the bytes that fit into the last block. *)
Lemma iappend_round {B} j n cs din F A s own (k : dinode → M mkst B) (Q : B → mkst → Prop) :
  let off := flen F j in let n1 := Z.of_nat (length cs) in
  1 ≤ j < n → files_ok (m_img s) (freeblock s) n own (lens F) A F → di_addrs din = A j →
  1 ≤ n1 → off + n1 ≤ (off / 512 + 1) * 512 → off / 512 < MAXMK → freeblock s ≤ 4096 → usedblocks s = freeblock s → m_end s = fssize →
  (∀ s' A' own', files_ok (m_img s') (freeblock s') n own' (lens (appended F j cs)) A' (appended F j cs) →
     freeblock s' = freeblock s + nblk (off + n1) - nblk off → kept s s' → (∀ i, i ≠ j → A' i = A i) → wp (k (put_di_addrs (A' j) din)) Q s') →
  wp (r ← iappend_block din (off / 512); let '(din, x) := r : dinode * Z in
      buf ← rsect x; wsect x (splice (Z.to_nat (off - off / 512 * 512)) cs buf);; k din) Q s.
Proof.
  intros off n1 Hj H Ha Hn1 Hfit Hbn Hfb Hu Hend HQ. assert (H0 : 0 ≤ off) by (unfold off, flen; lia).
  pose proof (Z.div_mod off 512 ltac:(lia)) as Hdm. pose proof (Z.mod_pos_bound off 512 ltac:(lia)) as Hmb.
  assert (HM : MAXMK < MAXFILE) by done. assert (HM2 : MAXMK = 138) by done.
  apply wp_bind. eapply (wp_block j F n); fold off; [done|lia|done|done|unfold fssize; lia|done|done|].
  intros s1 A1 ([own1 H1] & Hf1 & K1 & HA1). pose proof K1 as (K1e & K1i & K1u & _). fold off in Hf1.
  rewrite <- (nblk_step off (off + n1)) in Hf1 by lia. set (a := flat (m_img s1) (A1 j) (Dat (off / 512))).
  assert (Hva : valid_place (Dat (off / 512))) by (simpl; pose proof (Z.div_pos off 512); lia).
  assert (Hne : a ≠ 0).
  { apply Z.eqb_neq. unfold a. rewrite (fo_has _ _ _ _ _ _ _ H1) by done. unfold lens_next, present. rewrite Z.eqb_refl. fold off.
    rewrite (proj2 (Z.ltb_lt _ _)) by lia. done. }
  destruct (fo_own _ _ _ _ _ _ _ H1 j _ Hj Hva Hne) as [Har _]. fold a in Har.
  assert (Hgrow : nblk (off + n1) ≤ nblk off + 2).
  { rewrite (nblk_step off (off + n1)) by lia. destruct (decide (off `mod` 512 = 0)); [rewrite nblk_start by done; case_match; lia|].
    rewrite nblk_inside by done. lia. }
  apply wp_bind, wp_rsect; [unfold fssize in *; lia|]. apply wp_bind, wp_modify.
  pose proof (files_write _ _ _ _ _ _ _ H1 j cs Hj) as H2. cbv zeta in H2. fold (flen F j) in H2. fold off a in H2.
  specialize (H2 Hne ltac:(lia) ltac:(lia)). replace (Z.to_nat (off - off / 512 * 512)) with (Z.to_nat (off `mod` 512)) by (f_equal; lia).
  eapply HQ; [|exact Hf1| |exact HA1].
  - eapply files_ext; [exact H2| |done|done]. intros i q Hi Hq. unfold lens, lens_next. fold off.
    destruct (Z.eqb_spec i j) as [->|Hij]; [|unfold flen; by rewrite appended_other].
    rewrite flen_appended. fold off n1. apply present_step; lia.
  - eapply kept_trans; [exact K1|]. split_and!; cbn [m_end freeinode usedblocks freeblock m_img]; [unfold fssize in *; lia|done|done|].
    intros b Hb. unfold disk_upd. by rewrite (proj2 (Z.eqb_neq _ _)) by lia.
Qed.

Lemma iappend_loop_run fuel j n : ∀ p din F A s own (Q : dinode * Z → mkst → Prop),
  (length p ≤ fuel)%nat → 1 ≤ j < n → files_ok (m_img s) (freeblock s) n own (lens F) A F → di_addrs din = A j →
  flen F j + Z.of_nat (length p) ≤ MAXMK * 512 →
  freeblock s + nblk (flen F j + Z.of_nat (length p)) - nblk (flen F j) ≤ 4096 → usedblocks s = freeblock s → m_end s = fssize →
  (∀ s' A' own', files_ok (m_img s') (freeblock s') n own' (lens (appended F j p)) A' (appended F j p) →
     freeblock s' = freeblock s + nblk (flen F j + Z.of_nat (length p)) - nblk (flen F j) → kept s s' →
     (∀ i, i ≠ j → A' i = A i) → Q (put_di_addrs (A' j) din, flen F j + Z.of_nat (length p)) s') →
  wp (iappend_loop fuel din (flen F j) p) Q s.
Proof.
  induction fuel as [|fuel IH]; intros p din F A s own Q Hfu Hj H Ha Hlen Hfb Hu Hend HQ.
  all: assert (Hnil : p = [] → wp (mret (din, flen F j)) Q s).
  1, 3: intros ->; apply wp_ret; cbn [length Z.of_nat] in *; rewrite Z.add_0_r in *;
    replace din with (put_di_addrs (A j) din) by (destruct din; cbn in *; by subst);
    eapply HQ; [eapply files_same; [exact H|apply appended_nil]|lia|apply kept_refl|done].
  { destruct p; [by apply Hnil|simpl in Hfu; lia]. }
  destruct p as [|c p]; [by apply Hnil|]. clear Hnil. cbn [iappend_loop].
  set (w := c :: p) in *. assert (Hw : (0 < length w)%nat) by (simpl; lia).
  set (off := flen F j) in *. assert (H0 : 0 ≤ off) by (unfold off, flen; lia).
  pose proof (Z.div_mod off 512 ltac:(lia)) as Hdm. pose proof (Z.mod_pos_bound off 512 ltac:(lia)) as Hmb.
  assert (HM : MAXMK < MAXFILE) by done. assert (HM2 : MAXMK = 138) by done.
  assert (Hbn : off / 512 < MAXMK) by (apply Z.div_lt_upper_bound; lia). rewrite (proj2 (Z.ltb_lt _ _)) by lia. cbn [negb].
  set (n1 := Z.min (Z.of_nat (length w)) ((off / 512 + 1) * 512 - off)). assert (Hn1 : 1 ≤ n1 ≤ Z.of_nat (length w)) by (unfold n1; lia).
  pose proof (nblk_mono off (off + Z.of_nat (length w)) ltac:(lia)) as Hmono.
  pose proof (nblk_mono (off + n1) (off + Z.of_nat (length w)) ltac:(lia)) as Hmono2.
  set (cs := take (Z.to_nat n1) w). assert (Hcs : Z.of_nat (length cs) = n1) by (unfold cs; rewrite length_take; lia).
  eapply (iappend_round j n cs din F A s own (λ din, iappend_loop fuel din (w32 (off + n1)) (drop (Z.to_nat n1) w)));
    rewrite ?Hcs; fold off; [done|done|done|lia|unfold n1; lia|done|lia|done|done|].
  intros s1 A1 own1 H1 Hf1 K1 HA1. pose proof K1 as (K1e & K1i & K1u & _). rewrite w32_small by lia. set (F2 := appended F j cs) in *.
  assert (E2 : flen F2 j = off + n1) by (unfold F2; rewrite flen_appended; fold off; lia). rewrite <- E2.
  assert (Er : Z.of_nat (length (drop (Z.to_nat n1) w)) = Z.of_nat (length w) - n1) by (rewrite length_drop; lia).
  assert (Es : off + n1 + (Z.of_nat (length w) - n1) = off + Z.of_nat (length w)) by lia.
  eapply (IH (drop (Z.to_nat n1) w) _ F2 A1 s1 own1); rewrite ?E2, ?Er, ?Es; [lia|done|done|done|lia|lia|lia|lia|].
  intros s3 A3 own3 H3 Hf3 K3 HA3. change (put_di_addrs (A3 j) (put_di_addrs (A1 j) din)) with (put_di_addrs (A3 j) din).
  eapply HQ; [|lia|by eapply kept_trans|intros i Hi; by rewrite HA3, HA1].
  eapply files_same; [exact H3|]. intros i. unfold F2. rewrite appended_app. unfold cs. by rewrite take_drop.
Qed.

(** ** The inodes *)

Definition mk_inode (ty : Z) (len : Z) (l : list Z) : dinode := mkDinode ty 0 0 1 len l.

Lemma i2b_range j : 1 ≤ j < ninodes → 2 ≤ i2b j < 27.
Proof.
  unfold ninodes, i2b, IPB. change (512 / 64) with 8. intros Hj. pose proof (Z.div_pos j 8).
  assert (j / 8 < 25) by (apply Z.div_lt_upper_bound; lia). lia.
Qed.

Lemma same_slot i j : 0 ≤ i → 0 ≤ j → i2b i = i2b j → islot i = islot j → i = j.
Proof.
  unfold i2b, islot, IPB. change (512 / 64) with 8. intros Hi Hj E1 E2. pose proof (Z.div_mod i 8). pose proof (Z.div_mod j 8).
  pose proof (Z.mod_pos_bound i 8). pose proof (Z.mod_pos_bound j 8). lia.
Qed.

Lemma files_addrs v fb n own has A F j :
  files_ok v fb n own has A F → fb ≤ 2^32 → 1 ≤ j < n → Forall (λ a, 0 ≤ a < 2^32) (A j).
Proof.
  intros H Hfb Hj. destruct (fo_addrs _ _ _ _ _ _ _ H j Hj) as (Hl & H11 & H12). apply Forall_lookup. intros k a Ea.
  pose proof (lookup_lt_Some _ _ _ Ea) as Hk. rewrite Hl in Hk. change NADDRS with 13%nat in Hk.
  assert (En : nth k (A j) 0 = a) by (by rewrite nth_lookup, Ea).
  destruct (decide (a = 0)) as [->|Hne]; [lia|].
  destruct (decide (k = 11)%nat) as [->|]; [lia|]. destruct (decide (k = 12)%nat) as [->|]; [lia|].
  assert (∃ p, valid_place p ∧ flat v (A j) p = a) as (p & Hp & Ef).
  { destruct (decide (k = 10)%nat) as [->|]; [by exists (Idx 0)|]. exists (Dat (Z.of_nat k)). split.
    - simpl. assert (13 < MAXFILE) by done. lia.
    - cbn [flat]. change (Z.of_nat NDIRECT) with 10. by rewrite (proj2 (Z.ltb_lt _ _)), Nat2Z.id by lia. }
  destruct (fo_own _ _ _ _ _ _ _ H j p Hj Hp) as [Hr _]; rewrite Ef in *; [done|]. pose proof (fo_fb _ _ _ _ _ _ _ H). lia.
Qed.

(** The image while mkfs fills it: [ty], [A] and [F] are the types, addresses and
    contents of the files; inode [cur] may be out of date. *)
Definition sb_bytes : list Z :=
  le_bytes 4 (xint fssize) ++ le_bytes 4 (xint nblocks) ++ le_bytes 4 (xint ninodes) ++ le_bytes 4 (xint nlog).

Record mk_ok (cur : Z) (ty : Z → Z) (A F : Z → list Z) (s : mkst) : Prop := {
  mo_own : ∃ own, files_ok (m_img s) (freeblock s) (freeinode s) own (lens F) A F;
  mo_len j : 1 ≤ j < freeinode s → flen F j ≤ MAXMK * 512 ∧ short (ty j);
  mo_end : m_end s = fssize;
  mo_used : usedblocks s = freeblock s;
  mo_max : freeblock s ≤ 4096;
  mo_ninodes : 1 ≤ freeinode s ≤ ninodes;
  mo_ino j : 1 ≤ j < freeinode s → j ≠ cur →
    get_dinode (islot j) (m_img s (i2b j)) = mk_inode (ty j) (flen F j) (A j);
  mo_sb : m_img s 1 = splice 0 sb_bytes zero_block;
  mo_mid b : 27 ≤ b < 35 → m_img s b = zero_block;
}.

(** Writing the inode that is out of date. *)
Lemma wp_winode cur ty A F (Q : unit → mkst → Prop) s :
  mk_ok cur ty A F s → 1 ≤ cur < freeinode s →
  (∀ s', mk_ok 0 ty A F s' → freeblock s' = freeblock s → freeinode s' = freeinode s → Q tt s') →
  wp (winode cur (mk_inode (ty cur) (flen F cur) (A cur))) Q s.
Proof.
  intros [[own H] Hl He Hu Hm Hn Hi Hs Hz] Hc HQ. pose proof (i2b_range cur ltac:(lia)) as Hb. unfold winode.
  apply wp_bind, wp_rsect; [unfold fssize in *; lia|]. apply wp_modify. set (ip := mk_inode _ _ _).
  destruct (fo_addrs _ _ _ _ _ _ _ H cur Hc) as (Hlen & _).
  assert (Hblk : is_block (m_img s (i2b cur))) by apply H.
  assert (Hput : is_block (put_dinode (islot cur) ip (m_img s (i2b cur)))) by (by apply put_dinode_block; [apply islot_lt|..]).
  apply HQ; [|done|done]. split; cbn [m_img m_end freeblock usedblocks freeinode]; try done.
  - exists own. apply files_low; [done|lia|done].
  - unfold fssize in *. lia.
  - intros j Hj _. unfold disk_upd. destruct (Z.eqb_spec (i2b j) (i2b cur)) as [E|E].
    + destruct (decide (j = cur)) as [->|Hne].
      * apply get_put_dinode; [apply islot_lt|done|]. unfold dinode_ok, ip, mk_inode. cbn. destruct (Hl cur Hc) as [? ?].
        assert (MAXMK = 138) by done. split_and!; [done|unfold short; lia..|unfold uint, flen in *; lia|done|].
        by eapply files_addrs; [exact H|lia|].
      * rewrite get_put_dinode_other; [rewrite <- E; by apply Hi|apply islot_lt|done|done|].
        intros Es. apply Hne. symmetry. apply same_slot; [lia|lia|done|done].
    + apply Hi; [done|]. intros ->. done.
  - unfold disk_upd. by rewrite (proj2 (Z.eqb_neq _ _)) by lia.
  - intros b Hb'. unfold disk_upd. rewrite (proj2 (Z.eqb_neq _ _)) by lia. by apply Hz.
Qed.

Lemma mk_ok_ext cur ty A F F' s : mk_ok cur ty A F s → (∀ i, F' i = F i) → mk_ok cur ty A F' s.
Proof.
  intros [[own H] Hl He Hu Hm Hn Hi Hs Hz] E. assert (El : ∀ j, flen F' j = flen F j) by (intros; unfold flen; by rewrite E).
  split; try done; [exists own; by eapply files_same| |]; intros j; rewrite El; auto.
Qed.

Lemma iappend_run j p ty A F (Q : unit → mkst → Prop) s :
  mk_ok 0 ty A F s → 1 ≤ j < freeinode s → flen F j + Z.of_nat (length p) ≤ MAXMK * 512 →
  freeblock s + nblk (flen F j + Z.of_nat (length p)) - nblk (flen F j) ≤ 4096 →
  (∀ s' A', mk_ok 0 ty A' (appended F j p) s' → freeinode s' = freeinode s →
     freeblock s' = freeblock s + nblk (flen F j + Z.of_nat (length p)) - nblk (flen F j) → Q tt s') →
  wp (iappend j p) Q s.
Proof.
  intros [[own H] Hl He Hu Hm Hn Hi Hs Hz] Hj Hlen Hfb HQ. pose proof (i2b_range j ltac:(lia)) as Hb. unfold iappend, rinode.
  apply wp_bind, wp_bind, wp_rsect; [unfold fssize in *; lia|]. apply wp_ret. rewrite (Hi j Hj) by lia. cbn [di_size mk_inode].
  assert (HM : MAXMK = 138) by done. rewrite xint_id by (unfold flen in *; lia). apply wp_bind.
  eapply (iappend_loop_run (length p) j (freeinode s) p _ F A s own); [lia|done|done|done|done|done|done|done|].
  intros s1 A1 own1 H1 Hf1 (K1 & K2 & K3 & K4) HA1. cbv beta iota. rewrite xint_id by (unfold flen in *; lia).
  change (put_di_size ?l (put_di_addrs ?a (mk_inode ?t _ _))) with (mk_inode t l a). rewrite <- flen_appended.
  apply (wp_winode j ty A1 (appended F j p)); [|lia|].
  - split; [exists own1; by rewrite K2|rewrite K2|lia..|rewrite K2| |].
    + intros i Hii. destruct (Hl i Hii) as [? ?]. split; [|done]. destruct (decide (i = j)) as [->|]; [rewrite flen_appended; lia|].
      unfold flen. by rewrite appended_other.
    + intros i Hii Hne. pose proof (i2b_range i ltac:(lia)). rewrite K4 by lia. rewrite Hi by lia.
      rewrite HA1 by done. unfold flen. by rewrite appended_other.
    + by rewrite K4 by lia.
    + intros b Hb'. rewrite K4 by lia. by apply Hz.
  - intros s2 H2 Hf2 Hi2. eapply HQ; [exact H2|lia|lia].
Qed.

Lemma ialloc_run t ty A F (Q : Z → mkst → Prop) s :
  mk_ok 0 ty A F s → freeinode s < ninodes → 0 ≤ t < 4 →
  (∀ s', mk_ok 0 (λ i, if i =? freeinode s then t else ty i) (disk_upd A (freeinode s) (replicate NADDRS 0))
           (disk_upd F (freeinode s) []) s' →
     freeinode s' = freeinode s + 1 → freeblock s' = freeblock s → Q (freeinode s) s') →
  wp (mk_ialloc t) Q s.
Proof.
  intros [[own H] Hl He Hu Hm Hn Hi Hs Hz] Hmax Ht HQ. unfold mk_ialloc, ninodes in *. set (n := freeinode s) in *.
  apply wp_bind, wp_gets. apply wp_bind, wp_modify. fold n. rewrite w32_small by lia. rewrite !xshort_id, xint_id by lia. apply wp_bind.
  set (ty' := λ i, if i =? n then t else ty i). set (A' := disk_upd A n (replicate NADDRS 0)) in *. set (F' := disk_upd F n []) in *.
  assert (EA : A' n = replicate NADDRS 0) by (unfold A', disk_upd; by rewrite Z.eqb_refl).
  assert (EF : flen F' n = 0) by (unfold flen, F', disk_upd; by rewrite Z.eqb_refl).
  assert (Et : ty' n = t) by (unfold ty'; by rewrite Z.eqb_refl).
  assert (Hne : ∀ i, i ≠ n → A' i = A i ∧ flen F' i = flen F i ∧ ty' i = ty i).
  { intros i Hne. unfold A', flen, F', ty', disk_upd. by rewrite (proj2 (Z.eqb_neq _ _) Hne). }
  replace (mkDinode t 0 0 1 0 (replicate NADDRS 0)) with (mk_inode (ty' n) (flen F' n) (A' n)) by (by rewrite Et, EF, EA).
  apply (wp_winode n ty' A' F'); [|cbn; lia|intros s' H' Hf' Hi'; apply wp_ret; by apply HQ].
  split; cbn [m_img m_end freeblock usedblocks freeinode put_freeinode]; try done; [| |unfold ninodes; lia|].
  - exists own. eapply files_ext; [apply files_new, H| |done|done]. intros i p Hii Hp. fold n. unfold lens.
    destruct (Z.eqb_spec i n) as [->|Hi']; [|by destruct (Hne i Hi') as (_ & -> & _)]. rewrite EF. unfold present. destruct p; simpl in Hp.
    + apply andb_false_iff. right. done.
    + apply Z.ltb_ge. lia.
  - intros i Hii. destruct (decide (i = n)) as [->|Hi']; [rewrite EF, Et; split; [done|unfold short; lia]|].
    destruct (Hne i Hi') as (_ & -> & ->). apply Hl. fold n. lia.
  - intros i Hii Hi'. destruct (Hne i Hi') as (-> & -> & ->). apply Hi; [fold n; lia|lia].
Qed.

(** ** The arguments *)

Lemma nblk_pos len : 0 ≤ len → 0 ≤ nblk len.
Proof. intros Hl. unfold nblk. pose proof (Z.div_pos (len + 511) 512). case_match; lia. Qed.

Lemma copy_file_run fuel j ty : ∀ bs F A s (Q : unit → mkst → Prop),
  (length bs ≤ fuel)%nat → mk_ok 0 ty A F s → 1 ≤ j < freeinode s → flen F j + Z.of_nat (length bs) ≤ MAXMK * 512 →
  freeblock s + nblk (flen F j + Z.of_nat (length bs)) - nblk (flen F j) ≤ 4096 →
  (∀ s' A', mk_ok 0 ty A' (appended F j bs) s' → freeinode s' = freeinode s →
     freeblock s' = freeblock s + nblk (flen F j + Z.of_nat (length bs)) - nblk (flen F j) → Q tt s') →
  wp (copy_file fuel j bs) Q s.
Proof.
  induction fuel as [|fuel IH]; intros bs F A s Q Hfu H Hj Hlen Hfb HQ.
  all: assert (Hnil : bs = [] → wp (mret tt) Q s).
  1, 3: intros ->; apply wp_ret; cbn [length Z.of_nat] in *; rewrite Z.add_0_r in *;
    eapply HQ; [eapply mk_ok_ext; [exact H|apply appended_nil]|done|lia].
  { destruct bs; [by apply Hnil|simpl in Hfu; lia]. }
  destruct bs as [|c bs]; [by apply Hnil|]. clear Hnil. cbn [copy_file]. set (w := c :: bs) in *.
  assert (Hw : (0 < length w)%nat) by (simpl; lia). pose proof (eq_refl : BSIZE = 512%nat) as HB.
  assert (Hc : length (take BSIZE w) = (512 `min` length w)%nat) by (by rewrite length_take).
  assert (Hd : length (drop BSIZE w) = (length w - 512)%nat) by (by rewrite length_drop).
  assert (0 ≤ flen F j) by (unfold flen; lia).
  pose proof (nblk_mono (flen F j + Z.of_nat (length (take BSIZE w))) (flen F j + Z.of_nat (length w)) ltac:(lia)).
  assert (Es : flen F j + Z.of_nat (length (take BSIZE w)) + Z.of_nat (length (drop BSIZE w)) = flen F j + Z.of_nat (length w)) by lia.
  apply wp_bind. eapply iappend_run; [exact H|done|lia|lia|]. intros s1 A1 Hk1 Hi1 Hf1.
  eapply (IH (drop BSIZE w) (appended F j (take BSIZE w)) A1 s1); rewrite ?flen_appended, ?Es; [lia|exact Hk1|lia|lia|lia|]. intros s2 A2 Hk2 Hi2 Hf2. eapply HQ; [|lia|lia].
  eapply mk_ok_ext; [exact Hk2|]. intros i. by rewrite appended_app, take_drop.
Qed.

(** The files given to mkfs, the directory they make, and the first free block. *)
Definition root_bytes (fl : list (list Z * list Z)) : list Z :=
  mk_dirent ROOTINO [46] ++ mk_dirent ROOTINO [46; 46] ++
  mjoin (imap (λ i f, mk_dirent (2 + Z.of_nat i) (fname f.1)) fl).

Definition blocks (fl : list (list Z * list Z)) : Z :=
  35 + nblk (Z.of_nat (length (root_bytes fl))) + foldr (λ f, Z.add (nblk (Z.of_nat (length f.2)))) 0 fl.

Definition acceptable (host : list Z → option (list Z)) (f : list Z * list Z) : Prop :=
  47 ∉ f.1 ∧ host f.1 = Some f.2 ∧ Z.of_nat (length f.2) ≤ MAXMK * 512.

Lemma length_mk_dirent i nm : length (mk_dirent i nm) = 16%nat.
Proof.
  unfold mk_dirent, dirent_bytes, dirent_name. cbn [de_inum de_name]. by rewrite length_app, length_le_bytes, length_bytes_at.
Qed.

#[local] Opaque mk_dirent.

Lemma root_bytes_app fl f : root_bytes (fl ++ [f]) = root_bytes fl ++ mk_dirent (2 + Z.of_nat (length fl)) (fname f.1).
Proof.
  unfold root_bytes. rewrite imap_app, join_app. cbn [imap mjoin list_join]. rewrite Nat.add_0_r, app_nil_r, !app_assoc. done.
Qed.

Lemma length_root_bytes fl : length (root_bytes fl) = (16 * (2 + length fl))%nat.
Proof.
  induction fl as [|f fl IH] using rev_ind; [unfold root_bytes; rewrite !length_app, !length_mk_dirent; done|].
  rewrite root_bytes_app, !length_app, length_mk_dirent, IH. simpl. lia.
Qed.

(** The image after the files [fl]. *)
Definition added (fl : list (list Z * list Z)) (ty : Z → Z) (A F : Z → list Z) (s : mkst) : Prop :=
  mk_ok 0 ty A F s ∧ freeinode s = 2 + Z.of_nat (length fl) ∧ freeblock s = blocks fl ∧
  F ROOTINO = root_bytes fl ∧ ty ROOTINO = T_DIR ∧
  ∀ i f, fl !! i = Some f → F (2 + Z.of_nat i) = f.2 ∧ ty (2 + Z.of_nat i) = T_FILE.

Lemma blocks_app fl f :
  blocks (fl ++ [f]) = blocks fl + nblk (Z.of_nat (length (root_bytes (fl ++ [f])))) - nblk (Z.of_nat (length (root_bytes fl)))
    + nblk (Z.of_nat (length f.2)).
Proof.
  unfold blocks. set (op := λ g : list Z * list Z, Z.add (nblk (Z.of_nat (length g.2)))).
  assert (E : foldr op 0 (fl ++ [f]) = foldr op 0 fl + nblk (Z.of_nat (length f.2))); [|lia].
  induction fl as [|g fl IH]; [unfold op; simpl; lia|]. cbn [app foldr]. rewrite IH. unfold op. lia.
Qed.

Lemma add_file_run host fl f ty A F (Q : unit → mkst → Prop) s :
  added fl ty A F s → acceptable host f → (length fl < 198)%nat → blocks (fl ++ [f]) ≤ 4096 →
  (∀ s' ty' A' F', added (fl ++ [f]) ty' A' F' s' → Q tt s') →
  wp (add_file host ROOTINO f.1) Q s.
Proof.
  intros (H & Hn & Hb & HR & HtR & Hfl) (Hsl & Hho & Hle) Hmax Hblk HQ. unfold add_file, ROOTINO in *.
  replace (existsb (Z.eqb 47) f.1) with false; [|symmetry; apply not_true_iff_false; intros (x & Hx & Ex)%existsb_exists; apply Z.eqb_eq in Ex; subst; by apply Hsl, list_elem_of_In].
  rewrite Hho. set (n := freeinode s) in *.
  pose proof (length_root_bytes fl) as L1. pose proof (length_root_bytes (fl ++ [f])) as L2. rewrite length_app in L2. cbn [length] in L2.
  rewrite blocks_app in Hblk. set (m := Z.of_nat (length (root_bytes fl))) in *.
  set (m' := Z.of_nat (length (root_bytes (fl ++ [f])))) in *. assert (Em : m' = m + 16) by (unfold m, m'; lia).
  assert (Hm : m = 16 * (2 + Z.of_nat (length fl))) by (unfold m; lia).
  pose proof (nblk_mono m m' ltac:(unfold m, m'; lia)). pose proof (nblk_pos (Z.of_nat (length f.2)) ltac:(lia)) as Hp2.
  assert (HM : MAXMK = 138) by done.
  apply wp_bind. eapply ialloc_run; [exact H|unfold ninodes; lia|done|]. fold n. intros s1 H1 Hi1 Hf1.
  set (ty1 := λ i, if i =? n then T_FILE else ty i) in *. set (F1 := disk_upd F n []) in *.
  assert (E1 : F1 1 = root_bytes fl) by (unfold F1, disk_upd; by rewrite (proj2 (Z.eqb_neq _ _)) by lia).
  assert (En : F1 n = []) by (unfold F1, disk_upd; by rewrite Z.eqb_refl).
  assert (Lr : flen F1 1 + Z.of_nat (length (mk_dirent n (fname f.1))) = m') by (unfold flen; rewrite E1, length_mk_dirent; fold m; lia).
  assert (Lr0 : flen F1 1 = m) by (unfold flen; by rewrite E1).
  apply wp_bind. eapply (iappend_run 1); [exact H1|lia|rewrite Lr; lia|rewrite Lr, Lr0; lia|]. rewrite Lr, Lr0. intros s2 A2 H2 Hi2 Hf2.
  set (F2 := appended F1 1 _) in *. assert (En2 : F2 n = []) by (unfold F2; by rewrite appended_other by lia).
  assert (Ln : flen F2 n = 0) by (unfold flen; by rewrite En2).
  eapply (copy_file_run _ n); [reflexivity|exact H2|lia|lia|rewrite Ln, Z.add_0_l; change (nblk 0) with 0; lia|].
  rewrite Ln, Z.add_0_l. change (nblk 0) with 0. intros s3 A3 H3 Hi3 Hf3. apply (HQ s3 ty1 A3 (appended F2 n f.2)). split_and!.
  - exact H3.
  - rewrite length_app. simpl. lia.
  - rewrite blocks_app. fold m m'. lia.
  - unfold ROOTINO. rewrite appended_other by lia. unfold F2. rewrite appended_same, E1, root_bytes_app. by rewrite <- Hn.
  - unfold ty1, ROOTINO. by rewrite (proj2 (Z.eqb_neq _ _)) by lia.
  - intros i g Hg. destruct (decide (i = length fl)) as [->|Hne].
    + rewrite lookup_app_r, Nat.sub_diag in Hg by lia. injection Hg as <-. rewrite <- Hn. rewrite appended_same, En2. unfold ty1. by rewrite Z.eqb_refl.
    + assert (Hlt : (i < length fl)%nat) by (apply lookup_lt_Some in Hg; rewrite length_app in Hg; simpl in Hg; lia).
      rewrite lookup_app_l in Hg by done. destruct (Hfl i g Hg) as [<- <-]. unfold ty1. rewrite (proj2 (Z.eqb_neq _ _)) by lia.
      split; [|done]. unfold F2. rewrite !appended_other by lia. unfold F1, disk_upd. by rewrite (proj2 (Z.eqb_neq _ _)) by lia.
Qed.

Lemma blocks_grow fl gl : blocks fl ≤ blocks (fl ++ gl).
Proof.
  induction gl as [|g gl IH] using rev_ind; [by rewrite app_nil_r|]. rewrite app_assoc, blocks_app.
  pose proof (nblk_pos (Z.of_nat (length g.2)) ltac:(lia)). pose proof (length_root_bytes (fl ++ gl)).
  pose proof (length_root_bytes ((fl ++ gl) ++ [g])) as L. rewrite length_app in L.
  pose proof (nblk_mono (Z.of_nat (length (root_bytes (fl ++ gl)))) (Z.of_nat (length (root_bytes ((fl ++ gl) ++ [g])))) ltac:(lia)). lia.
Qed.

Lemma add_files_run host gl : ∀ fl ty A F (Q : unit → mkst → Prop) s,
  added fl ty A F s → Forall (acceptable host) gl → (length (fl ++ gl) ≤ 198)%nat → blocks (fl ++ gl) ≤ 4096 →
  (∀ s' ty' A' F', added (fl ++ gl) ty' A' F' s' → Q tt s') →
  wp (for_each gl.*1 (add_file host ROOTINO)) Q s.
Proof.
  induction gl as [|g gl IH]; intros fl ty A F Q s H HF Hmax Hb HQ.
  - cbn. apply wp_ret. eapply HQ. rewrite app_nil_r. exact H.
  - apply Forall_cons in HF as [Hg HF]. cbn [fmap list_fmap for_each]. replace (fl ++ g :: gl) with ((fl ++ [g]) ++ gl) in * by (by rewrite <- app_assoc).
    rewrite !length_app in Hmax. simpl in Hmax.
    apply wp_bind. eapply (add_file_run host fl g); [exact H|done|lia|pose proof (blocks_grow (fl ++ [g]) gl); lia|].
    intros s1 ty1 A1 F1 H1. eapply IH; [exact H1|done|rewrite !length_app; simpl; lia|done|done].
Qed.

(** ** [main] *)

Lemma zero_run (k : nat) : ∀ a s (Q : unit → mkst → Prop), m_end s = a → (∀ x, m_img s x = zero_block) →
  (∀ s', m_end s' = a + Z.of_nat k → (∀ x, m_img s' x = zero_block) → freeblock s' = freeblock s → usedblocks s' = usedblocks s →
     freeinode s' = freeinode s → Q tt s') →
  wp (for_each (seqZ a (Z.of_nat k)) (λ i, wsect i zero_block)) Q s.
Proof.
  induction k as [|k IH]; intros a s Q He Hz HQ; [apply wp_ret, HQ; (done || lia)|].
  rewrite seqZ_cons by lia. cbn [for_each]. apply wp_bind, wp_modify.
  replace (Z.pred (Z.of_nat (S k))) with (Z.of_nat k) by lia. apply IH; cbn [m_end m_img freeblock usedblocks freeinode].
  - rewrite He. lia.
  - intros x. unfold disk_upd. by case_match.
  - intros s' He' Hz' Hf' Hu' Hi'. apply HQ; (done || lia).
Qed.

(** The image before the root directory is made. *)
Lemma mk_ok_start ty A F s :
  m_end s = fssize → freeblock s = 35 → usedblocks s = 35 → freeinode s = 1 →
  (∀ x, m_img s x = if x =? 1 then splice 0 sb_bytes zero_block else zero_block) → mk_ok 0 ty A F s.
Proof.
  intros He Hf Hu Hi Hz.
  assert (Hsb : is_block (splice 0 sb_bytes zero_block)) by done.
  split; rewrite ?Hi, ?Hf; [|intros; lia|done|done|lia|unfold ninodes; lia|intros; lia|by rewrite Hz|].
  - exists (λ _, None). split; try (intros; lia).
    + intros b Hb. rewrite Hz. by rewrite (proj2 (Z.eqb_neq _ _)) by lia.
    + intros b. rewrite Hz. by case_match.
  - intros b Hb. rewrite Hz. by rewrite (proj2 (Z.eqb_neq _ _)) by lia.
Qed.

Lemma root_run {B} (k : Z → M mkst B) (Q : B → mkst → Prop) ty A F s :
  mk_ok 0 ty A F s → freeinode s = 1 → freeblock s = 35 →
  (∀ s' ty' A' F', added [] ty' A' F' s' → wp (k ROOTINO) Q s') →
  wp (rootino ← mk_ialloc T_DIR;
      if negb (rootino =? ROOTINO) then panic "assert" else
      iappend rootino (mk_dirent rootino [46]);; iappend rootino (mk_dirent rootino [46; 46]);; k rootino) Q s.
Proof.
  intros H Hn Hf HQ. apply wp_bind. eapply ialloc_run; [exact H|unfold ninodes; lia|done|]. rewrite Hn. intros s1 H1 Hn1 Hf1.
  change (negb (1 =? ROOTINO)) with false. cbv iota. set (F1 := disk_upd F 1 []) in *. assert (E1 : F1 1 = []) by done.
  assert (L1 : flen F1 1 = 0) by done.
  apply wp_bind. eapply (iappend_run 1); [exact H1|lia|rewrite L1, length_mk_dirent; done|rewrite L1, length_mk_dirent; change (nblk (0 + Z.of_nat 16)) with 1; change (nblk 0) with 0; lia|].
  rewrite L1, length_mk_dirent. change (nblk (0 + Z.of_nat 16) ) with 1. change (nblk 0) with 0. intros s2 A2 H2 Hn2 Hf2.
  set (F2 := appended F1 1 _) in *. assert (L2 : flen F2 1 = 16) by (unfold F2; rewrite flen_appended, length_mk_dirent, L1; done).
  apply wp_bind. eapply (iappend_run 1); [exact H2|lia|rewrite L2, length_mk_dirent; done|rewrite L2, length_mk_dirent; change (nblk (16 + Z.of_nat 16)) with 1; change (nblk 16) with 1; lia|].
  rewrite L2, length_mk_dirent. change (nblk (16 + Z.of_nat 16)) with 1. change (nblk 16) with 1. intros s3 A3 H3 Hn3 Hf3.
  eapply (HQ s3 _ A3 (appended F2 1 (mk_dirent 1 [46; 46]))). split_and!; [exact H3|simpl; lia| | |done|by intros i f Hi].
  - unfold blocks. rewrite length_root_bytes. change (nblk (Z.of_nat (16 * (2 + length [])))) with 1. simpl. lia.
  - unfold ROOTINO. rewrite appended_same. unfold F2. rewrite appended_same, E1. done.
Qed.

(** ** What the kernel finds *)

(** The disk with the log in its last ten blocks. *)
Definition mk_geom : geom := mkGeom fssize (fssize - nlog) nlog.

(** The inode as [ilock] loads it. *)
Definition inode_at (v : Z → block) (j : Z) : inode :=
  load_dinode (get_dinode (islot j) (v (IBLOCK j))) (mkInode ROOTDEV j 1 0 0 0 0 0 0 []).

Definition root_size (fl : list (list Z * list Z)) : Z := (Z.of_nat (length (root_bytes fl)) / 512 + 1) * 512.

Record image_ok (fl : list (list Z * list Z)) (v : Z → block) : Prop := {
  im_formatted : formatted mk_geom v;
  im_log : v (g_start mk_geom) = zero_block;
  im_layout : layout_ok mk_geom v;
  im_used c : 0 ≤ c < fssize → used v c = (c <? blocks fl);
  im_tree j : 1 ≤ j < 2 + Z.of_nat (length fl) → tree_ok mk_geom v (inode_at v j);
  im_apart j j' p p' : 1 ≤ j < 2 + Z.of_nat (length fl) → 1 ≤ j' < 2 + Z.of_nat (length fl) → valid_place p → valid_place p' →
    addr_at v (inode_at v j) p ≠ 0 → addr_at v (inode_at v j) p = addr_at v (inode_at v j') p' → j = j' ∧ p = p';
  im_file i f : fl !! i = Some f → let x := inode_at v (2 + Z.of_nat i) in
    i_type x = T_FILE ∧ i_nlink x = 1 ∧ i_size x = Z.of_nat (length f.2) ∧ no_holes v x ∧
    file_bytes v x 0 (length f.2) = f.2;
  im_root : let x := inode_at v ROOTINO in
    i_type x = T_DIR ∧ i_nlink x = 1 ∧ i_size x = root_size fl ∧
    file_bytes v x 0 (length (root_bytes fl)) = root_bytes fl ∧
    (∀ o, Z.of_nat (length (root_bytes fl)) ≤ o < root_size fl → addr_at v x (Dat (o / 512)) ≠ 0 → file_byte v x o = 0) ∧
    (((2 + length fl) `mod` 32 ≠ 0)%nat → no_holes v x) ∧
    (((2 + length fl) `mod` 32 = 0)%nat → addr_at v x (Dat (root_size fl / 512 - 1)) = 0);
}.

Lemma bit_set_zero c : bit_set zero_block c = false.
Proof. rewrite bit_set_testbit. unfold zero_block. rewrite nth_replicate_same. apply Z.bits_0. Qed.

Lemma bitmap_marks (k : nat) c : Z.of_nat k ≤ BPB → 0 ≤ c < BPB →
  bit_set (foldl mark_bit zero_block (seqZ 0 (Z.of_nat k))) c = (c <? Z.of_nat k) ∧
  is_block (foldl mark_bit zero_block (seqZ 0 (Z.of_nat k))).
Proof.
  intros Hk Hc. induction k as [|k IH]; [cbn [Z.of_nat seqZ foldl]|].
  - split; [|done]. change (seqZ 0 0) with (@nil Z). cbn [foldl]. rewrite bit_set_zero. symmetry. apply Z.ltb_ge. lia.
  - destruct IH as [IH Hb]; [lia|]. rewrite Nat2Z.inj_succ, <- Z.add_1_r, seqZ_app, foldl_app by lia.
    change (seqZ (0 + Z.of_nat k) 1) with [0 + Z.of_nat k]. cbn [foldl]. split; [|by apply mark_bit_block].
    rewrite bit_set_mark by (done || lia). rewrite IH. destruct (Z.ltb_spec c (Z.of_nat k)), (Z.ltb_spec c (Z.of_nat k + 1)); repeat case_decide; (done || lia).
Qed.

Section image.
Context (fl : list (list Z * list Z)) (v : Z → block) (own : Z → option (Z * place)) (ty : Z → Z) (A F : Z → list Z).
#[local] Abbreviation n := (2 + Z.of_nat (length fl)).
Context (H : files_ok v (blocks fl) n own (lens F) A F).
Context (Hmax : blocks fl < 4096) (Hn : n ≤ ninodes).
Context (Hlen : ∀ j, 1 ≤ j < n → flen F j ≤ MAXMK * 512).
Context (Hino : ∀ j, 2 ≤ j < n → get_dinode (islot j) (v (i2b j)) = mk_inode (ty j) (flen F j) (A j)).
Context (Hroot : get_dinode (islot ROOTINO) (v (i2b ROOTINO)) = mk_inode T_DIR (root_size fl) (A ROOTINO)).
Context (HF1 : F ROOTINO = root_bytes fl) (HF : ∀ i f, fl !! i = Some f → F (2 + Z.of_nat i) = f.2 ∧ ty (2 + Z.of_nat i) = T_FILE).
Context (Hsb : v 1 = splice 0 sb_bytes zero_block) (Hz : ∀ b, 29 ≤ b < 35 → v b = zero_block).
Context (Hbit : v 28 = foldl mark_bit zero_block (seqZ 0 (blocks fl))).

Lemma im_sb : sb_of (v 1) = mkSb fssize nblocks ninodes nlog.
Proof. rewrite Hsb. vm_compute. reflexivity. Qed.

Lemma im_bmblock c : bmblock v c = c / BPB + 28.
Proof. unfold bmblock, BBLOCK. rewrite im_sb. cbn [sb_ninodes]. change (ninodes / IPB) with 25. lia. Qed.

Lemma im_marks c : 0 ≤ c < fssize → used v c = (c <? blocks fl).
Proof.
  intros Hc. pose proof (fo_fb _ _ _ _ _ _ _ H). unfold used. fold (bmblock v c). rewrite im_bmblock. change BPB with 4096 in *. unfold fssize in Hc.
  destruct (Z.lt_ge_cases c 4096) as [Hlt|Hge].
  - rewrite Z.div_small, Z.mod_small by lia. change (0 + 28) with 28. rewrite Hbit. destruct (bitmap_marks (Z.to_nat (blocks fl)) c) as [E _];
      change BPB with 4096; [lia|lia|]. by rewrite Z2Nat.id in E by lia.
  - assert (1 ≤ c / 4096 < 7) by (split; [apply Z.div_le_lower_bound; lia|apply Z.div_lt_upper_bound; lia]).
    rewrite Hz by lia. rewrite bit_set_zero. symmetry. apply Z.ltb_ge. lia.
Qed.

Lemma im_inode_addrs j : 1 ≤ j < n → i_addrs (inode_at v j) = A j.
Proof.
  intros Hj. unfold inode_at, IBLOCK. fold (i2b j). destruct (decide (j = ROOTINO)) as [->|Hne]; [by rewrite Hroot|].
  unfold ROOTINO in Hne. by rewrite Hino by lia.
Qed.

Lemma im_addr j p : 1 ≤ j < n → valid_place p → addr_at v (inode_at v j) p = flat v (A j) p.
Proof.
  intros Hj Hp. destruct (fo_addrs _ _ _ _ _ _ _ H j Hj) as (_ & H11 & H12). rewrite <- im_inode_addrs in * by done. by apply flat_addr.
Qed.

Lemma im_tree_ok j : 1 ≤ j < n → tree_ok mk_geom v (inode_at v j).
Proof.
  intros Hj. split.
  - done.
  - rewrite im_inode_addrs by done. by apply (fo_addrs _ _ _ _ _ _ _ H).
  - intros p Hp. rewrite im_addr by done. intros Hne. destruct (fo_own _ _ _ _ _ _ _ H j p Hj Hp Hne) as [Hr _].
    unfold data_block. rewrite im_bmblock, im_sb. change ((sb_size (mkSb fssize nblocks ninodes nlog) - 1) / BPB) with 6.
    cbn [sb_size]. rewrite im_marks by (unfold fssize; lia). change (g_start mk_geom) with 25035. unfold fssize. split_and!; [lia..|]. apply Z.ltb_lt. lia.
  - intros p q Hp Hq. rewrite !im_addr by done. intros Hne E. destruct (fo_own _ _ _ _ _ _ _ H j p Hj Hp Hne) as [_ O1].
    destruct (fo_own _ _ _ _ _ _ _ H j q Hj Hq) as [_ O2]; [congruence|]. congruence.
Qed.

Lemma im_byte j o : 1 ≤ j < n → 0 ≤ o < MAXFILE * 512 → addr_at v (inode_at v j) (Dat (o / 512)) ≠ 0 →
  file_byte v (inode_at v j) o = nth (Z.to_nat o) (F j) 0.
Proof.
  intros Hj Ho. unfold file_byte. rewrite im_addr by (done || by apply dat_valid). intros Hne. by apply (fo_byte _ _ _ _ _ _ _ H).
Qed.

Lemma im_present j bn : 1 ≤ j < n → 0 ≤ bn < MAXFILE → bn * 512 < flen F j → addr_at v (inode_at v j) (Dat bn) ≠ 0.
Proof.
  intros Hj Hb Hl. rewrite im_addr by done. apply Z.eqb_neq. rewrite (fo_has _ _ _ _ _ _ _ H) by done. unfold lens, present.
  by rewrite (proj2 (Z.ltb_lt _ _)) by lia.
Qed.

Lemma im_contents j : 1 ≤ j < n → file_bytes v (inode_at v j) 0 (length (F j)) = F j.
Proof.
  intros Hj. pose proof (Hlen j Hj) as Hl. unfold flen in Hl. assert (HM : MAXMK * 512 < MAXFILE * 512) by done. apply list_eq. intros k.
  destruct (decide (k < length (F j))%nat) as [Hk|Hk]; [|rewrite !lookup_ge_None_2; [done|lia|unfold file_bytes; rewrite length_fmap, length_seq; lia]].
  unfold file_bytes. rewrite list_lookup_fmap, lookup_seq_lt by done. cbn [fmap option_fmap option_map Nat.add]. rewrite Z.add_0_l, im_byte, Nat2Z.id by (done || lia ||
    (apply im_present; [done|apply dat_valid; lia|unfold flen; pose proof (Z.mul_div_le (Z.of_nat k) 512); lia])).
  rewrite nth_lookup. destruct (lookup_lt_is_Some_2 (F j) k Hk) as [y ->]. done.
Qed.

Lemma root_len : flen F ROOTINO = Z.of_nat (length (root_bytes fl)) ∧ Z.of_nat (length (root_bytes fl)) = 16 * n.
Proof. unfold flen. rewrite HF1, length_root_bytes. lia. Qed.

Lemma im_whole : formatted mk_geom v ∧ layout_ok mk_geom v.
Proof.
  pose proof (fo_fb _ _ _ _ _ _ _ H). unfold formatted, layout_ok, bitmap_ok. rewrite im_sb. change (g_start mk_geom) with 25035.
  cbn [sb_size sb_ninodes sb_nlog g_size mk_geom]. assert (Hlog : v 25035 = zero_block) by (apply (fo_zero _ _ _ _ _ _ _ H); lia).
  split_and!; try done.
  - rewrite Hlog. unfold hdr_valid. split_and!; [vm_compute; discriminate..|vm_compute; reflexivity|vm_compute; constructor].
  - apply (fo_block _ _ _ _ _ _ _ H).
  - intros b Hb. unfold fssize in Hb. rewrite im_bmblock. change BPB with 4096. assert (b / 4096 < 7) by (apply Z.div_lt_upper_bound; lia). lia.
  - intros c Hc. rewrite im_bmblock in Hc. change ((fssize - 1) / BPB) with 6 in Hc. rewrite im_marks by (unfold fssize; lia). apply Z.ltb_lt. lia.
Qed.

Lemma im_root_ok : let x := inode_at v ROOTINO in
  i_type x = T_DIR ∧ i_nlink x = 1 ∧ i_size x = root_size fl ∧
  file_bytes v x 0 (length (root_bytes fl)) = root_bytes fl ∧
  (∀ o, Z.of_nat (length (root_bytes fl)) ≤ o < root_size fl → addr_at v x (Dat (o / 512)) ≠ 0 → file_byte v x o = 0) ∧
  (((2 + length fl) `mod` 32 ≠ 0)%nat → no_holes v x) ∧
  (((2 + length fl) `mod` 32 = 0)%nat → addr_at v x (Dat (root_size fl / 512 - 1)) = 0).
Proof.
  intros x. destruct root_len as [L1 L2]. assert (Hj : 1 ≤ ROOTINO < n) by (unfold ROOTINO; lia). unfold ninodes in Hn.
  assert (Hd : get_dinode (islot ROOTINO) (v (IBLOCK ROOTINO)) = mk_inode T_DIR (root_size fl) (A ROOTINO)) by exact Hroot.
  assert (HM : 4096 < MAXFILE * 512) by done. unfold root_size in *. set (L := Z.of_nat (length (root_bytes fl))) in *.
  pose proof (Z.div_mod L 512 ltac:(lia)) as Hdm. pose proof (Z.mod_pos_bound L 512 ltac:(lia)) as Hmb. unfold x.
  split_and!; [unfold inode_at; by rewrite Hd..| | | |].
  - rewrite <- HF1. by apply im_contents.
  - intros o Ho Hne. rewrite im_byte by (done || lia). apply nth_overflow. rewrite HF1. unfold L in Ho. lia.
  - intros Hm. assert (Hs : i_size (inode_at v ROOTINO) = (L / 512 + 1) * 512) by (unfold inode_at; by rewrite Hd). split; rewrite Hs; [lia|].
    intros bn H0 Hb. apply im_present; [done|assert (8 < MAXFILE) by done; lia|]. rewrite L1.
    destruct (Z.eq_dec (L `mod` 512) 0) as [E|]; [|lia]. exfalso. apply Hm.
    assert (E2 : L = 512 * (L / 512)) by lia. rewrite L2 in E2. apply Nat.Lcm0.mod_divide. exists (Z.to_nat (16 * n / 512)). lia.
  - intros Hm. rewrite Z.div_mul by lia. replace (L / 512 + 1 - 1) with (L / 512) by lia.
    apply Nat.Lcm0.mod_divide in Hm as [q Hq]. assert (EL : L = Z.of_nat q * 512) by lia. rewrite EL, Z.div_mul by lia.
    assert (Hp : valid_place (Dat (Z.of_nat q))) by (simpl; assert (8 < MAXFILE) by done; lia). rewrite im_addr by done. apply Z.eqb_eq.
    rewrite (fo_has _ _ _ _ _ _ _ H) by done. unfold lens, present. rewrite L1, EL. by rewrite (proj2 (Z.ltb_ge _ _)) by lia.
Qed.

Lemma image_built : image_ok fl v.
Proof.
  destruct im_whole as [Hfm Hla]. pose proof (fo_fb _ _ _ _ _ _ _ H) as H35.
  split; [done|apply (fo_zero _ _ _ _ _ _ _ H); change (g_start mk_geom) with 25035; lia|done|by apply im_marks|by apply im_tree_ok| | |exact im_root_ok].
  - intros j j' p p' Hj Hj' Hp Hp'. rewrite !im_addr by done. intros Hne E. destruct (fo_own _ _ _ _ _ _ _ H j p Hj Hp Hne) as [_ O1].
    destruct (fo_own _ _ _ _ _ _ _ H j' p' Hj' Hp') as [_ O2]; [congruence|]. rewrite E, O2 in O1. by injection O1.
  - intros i f Hi x. pose proof (lookup_lt_Some _ _ _ Hi) as Hlt. destruct (HF i f Hi) as [EF Et]. set (j := 2 + Z.of_nat i) in *.
    assert (Hj : 1 ≤ j < n) by (unfold j; lia).
    assert (Hd : get_dinode (islot j) (v (IBLOCK j)) = mk_inode T_FILE (Z.of_nat (length f.2)) (A j)).
    { rewrite <- Et, <- EF. apply Hino. unfold j. lia. }
    pose proof (Hlen j Hj) as Hl. unfold flen in Hl. rewrite EF in Hl. assert (HM : MAXMK * 512 < MAXFILE * 512) by done. unfold x.
    split_and!; [unfold inode_at; by rewrite Hd..| |by rewrite <- EF; apply im_contents].
    assert (Hs : i_size (inode_at v j) = Z.of_nat (length f.2)) by (unfold inode_at; by rewrite Hd). split; rewrite Hs; [lia|].
    intros bn H0 Hb. apply im_present; [done|lia|]. unfold flen. by rewrite EF.
Qed.
End image.

(** The size of the root directory and the bitmap. *)
Lemma finish_run fl ty A F s :
  added fl ty A F s → (length fl ≤ 198)%nat → blocks fl < 4096 →
  wp (din ← rinode ROOTINO;
      let off := w32 ((xint (di_size din) / 512 + 1) * 512) in
      winode ROOTINO (put_di_size (xint off) din);; u ← gets usedblocks; mk_balloc u)
     (λ _ s', image_ok fl (m_img s')) s.
Proof.
  intros ([[own H] Hl He Hu Hm Hn Hi Hs Hz] & Hfi & Hfb & HR & HtR & Hfl) Hmax Hblk. unfold ROOTINO in *. unfold rinode, winode.
  rewrite Hfi in H, Hl, Hi. rewrite Hfb in H. pose proof (fo_fb _ _ _ _ _ _ _ H) as H35. change (i2b 1) with 2.
  assert (H1 : 1 ≤ 1 < 2 + Z.of_nat (length fl)) by lia. pose proof (length_root_bytes fl) as HL.
  assert (HF1 : flen F 1 = Z.of_nat (length (root_bytes fl))) by (unfold flen; by rewrite HR).
  apply wp_bind, wp_bind, wp_rsect; [unfold fssize in *; lia|]. apply wp_ret. cbv zeta. pose proof (Hi 1 H1 ltac:(lia)) as Hd.
  change (i2b 1) with 2 in Hd. rewrite Hd. cbn [di_size mk_inode]. rewrite (xint_id (flen F 1)) by lia.
  assert (Er : (flen F 1 / 512 + 1) * 512 = root_size fl) by (unfold root_size; by rewrite HF1).
  pose proof (Z.div_mod (flen F 1) 512 ltac:(lia)). pose proof (Z.mod_pos_bound (flen F 1) 512 ltac:(lia)).
  assert (Hrs : 0 ≤ root_size fl < 2^32) by (rewrite <- Er; lia). rewrite Er, w32_small, xint_id by exact Hrs.
  change (put_di_size ?a (mk_inode ?t _ ?l)) with (mk_inode t a l). rewrite HtR.
  apply wp_bind, wp_bind, wp_rsect; [unfold fssize in *; lia|]. apply wp_modify. apply wp_bind, wp_gets. cbn [usedblocks].
  unfold mk_balloc. rewrite Hu, Hfb, (proj2 (Z.ltb_lt _ _)) by lia. cbn [negb]. apply wp_modify. cbn [m_img].
  change (ninodes / IPB + 3) with 28. set (ip := mk_inode _ _ _). set (bm := foldl _ _ _).
  destruct (fo_addrs _ _ _ _ _ _ _ H 1 H1) as (Hla & _).
  assert (Hput : is_block (put_dinode (islot 1) ip (m_img s 2))) by (apply put_dinode_block; [apply islot_lt|apply H|done]).
  assert (Hbm : is_block bm).
  { destruct (bitmap_marks (Z.to_nat (blocks fl)) 0) as [_ Hb]; [change BPB with 4096; lia|done|]. by rewrite Z2Nat.id in Hb by lia. }
  assert (Hv : ∀ b, b ≠ 28 → b ≠ 2 → disk_upd (disk_upd (m_img s) 2 (put_dinode (islot 1) ip (m_img s 2))) 28 bm b = m_img s b).
  { intros b Hb1 Hb2. unfold disk_upd. by rewrite !(proj2 (Z.eqb_neq _ _)). }
  apply (image_built fl _ own ty A F); try done.
  - apply files_low; [apply files_low; [done|lia|done]|lia|done].
  - unfold ninodes. lia.
  - intros j Hj. by apply Hl.
  - intros j Hj. unfold ninodes in *. pose proof (i2b_range j ltac:(unfold ninodes; lia)). pose proof (Hi j ltac:(lia) ltac:(lia)) as Hdj.
    destruct (decide (i2b j = 2)) as [E|E]; [|rewrite Hv by lia; exact Hdj]. rewrite E in *.
    change (disk_upd ?d 28 bm 2) with (d 2). unfold disk_upd. cbn [Z.eqb Pos.eqb].
    rewrite get_put_dinode_other; [exact Hdj|apply islot_lt|apply H|done|]. intros Es. assert (1 = j) by (by apply same_slot; [lia|lia|rewrite E|]). lia.
  - change (i2b ROOTINO) with 2. change (disk_upd ?d 28 bm 2) with (d 2). unfold disk_upd. cbn [Z.eqb Pos.eqb].
    apply get_put_dinode; [apply islot_lt|apply H|]. unfold dinode_ok, ip, mk_inode. cbn [di_type di_major di_minor di_nlink di_size di_addrs].
    split_and!; [unfold short, T_DIR; lia|unfold short; lia..|unfold uint; lia|done|]. by eapply files_addrs; [exact H|lia|].
  - intros b Hb. rewrite Hv by lia. apply Hz. lia.
Qed.

Section roundtrip.
Context {S : Type} {BO : BufOps S} {BC : BufCache S}.
Context (dev_read : Z → option (nat → Z → M (fs S) (Z * list Z))).

Lemma mkfs_image host prog img fl :
  Forall (acceptable host) fl → (length fl ≤ 198)%nat → blocks fl < 4096 →
  wp (mkfs_main host true (prog :: img :: fl.*1)) (λ _ s, image_ok fl (m_img s)) mk0.
Proof.
  intros HF Hmax Hblk. unfold mkfs_main. change ((length (prog :: img :: fl.*1) <? 2)%nat) with false. cbn [negb]. cbv zeta iota.
  change (ninodes / IPB + 3 + (fssize / (512 * 8) + 1)) with 35. apply wp_bind, wp_modify.
  change (nblocks + 35 + nlog) with fssize. change (fssize =? fssize) with true. cbn [negb]. cbv iota.
  apply wp_bind. change (seqZ 0 fssize) with (seqZ 0 (Z.of_nat (Z.to_nat fssize))). apply zero_run; [done|done|].
  intros s1 He Hz Hf Hu Hi. cbn [freeblock usedblocks freeinode mk0] in Hf, Hu, Hi. rewrite Z2Nat.id in He by done.
  apply wp_bind, wp_modify. fold sb_bytes. set (s2 := mkMk _ _ _ _ _). change (drop 2 (prog :: img :: fl.*1)) with (fl.*1).
  apply (root_run _ _ (λ _, 0) (λ _, []) (λ _, [])).
  - apply mk_ok_start; cbn [s2 m_end freeblock usedblocks freeinode m_img]; [rewrite He; done|done|done|done|].
    intros x. unfold disk_upd. by rewrite Hz.
  - done.
  - done.
  - intros s3 ty A F H3. apply wp_bind. eapply (add_files_run host fl []); [exact H3|done|done|cbn [app]; lia|].
    intros s4 ty4 A4 F4 H4. by eapply finish_run.
Qed.

Lemma readi_whole (s : fs S) v ws lg ic i bs :
  outside mk_geom s v ws lg ∅ ic → layout_ok mk_geom v → tree_ok mk_geom v (ic i) → no_holes v (ic i) → i_type (ic i) ≠ T_DEV →
  Z.of_nat (length bs) ≤ i_size (ic i) → file_bytes v (ic i) 0 (length bs) = bs →
  wp (readi dev_read i 0 (Z.of_nat (length bs))) (λ r _, r = (Z.of_nat (length bs), bs)) s.
Proof.
  intros Ho Hl Ht Hh Hd Hs Hb. assert (Hg : geom_ok mk_geom) by (unfold geom_ok; vm_compute; repeat split; discriminate).
  assert (HM : MAXFILE * 512 < 2^32) by done. pose proof (proj1 Hh) as Hsz.
  eapply (readi_run dev_read mk_geom _ v ic NBUF (reader_outside mk_geom Hg v ws lg ic)); [unfold NBUF; lia|done..|lia|lia|].
  intros s' _. unfold readi_result. rewrite Z.gtb_ltb, (proj2 (Z.ltb_ge _ 0)), (proj2 (Z.leb_gt _ _)) by lia. cbn [orb].
  by rewrite Z.sub_0_r, Z.min_l, Nat2Z.id, Hb by lia.
Qed.

(** C25: mkfs and the kernel agree on the format of the disk.  If no name has a
    slash, no file has more than 138 blocks, the files number at most 198 and all
    blocks together fewer than 4096, mkfs comes to its end, and the image it
    leaves is a file system in the sense of the kernel: formatted, with an
    empty log, the blocks in use marked and no others, an inode for each file whose blocks
    belong to it alone, and a root directory with an entry for each file.  On a
    kernel that started with this image [readi] returns the contents of each
    file, and of the directory. *)
Theorem mkfs_roundtrip host prog img fl :
  Forall (acceptable host) fl → (length fl ≤ 198)%nat → blocks fl < 4096 →
  wp (mkfs_main host true (prog :: img :: fl.*1)) (λ _ m, let v := m_img m in image_ok fl v ∧
    ∀ (s : fs S) ws lg ic i, outside mk_geom s v ws lg ∅ ic →
      (∀ k f, fl !! k = Some f → ic i = inode_at v (2 + Z.of_nat k) →
         wp (readi dev_read i 0 (Z.of_nat (length f.2))) (λ r _, r = (Z.of_nat (length f.2), f.2)) s) ∧
      (((2 + length fl) `mod` 32 ≠ 0)%nat → ic i = inode_at v ROOTINO →
         wp (readi dev_read i 0 (Z.of_nat (length (root_bytes fl))))
            (λ r _, r = (Z.of_nat (length (root_bytes fl)), root_bytes fl)) s)) mk0.
Proof.
  intros HF Hmax Hblk. eapply wp_mono; [by apply mkfs_image|]. cbv beta. intros _ m Him. cbv zeta. split; [exact Him|].
  intros s ws lg ic i Ho. split.
  - intros k f Hk E. destruct (im_file _ _ Him k f Hk) as (Ht & _ & Hs & Hh & Hb). pose proof (lookup_lt_Some _ _ _ Hk).
    eapply readi_whole; rewrite ?E; [done|apply Him|apply Him; lia|done|by rewrite Ht|lia|done].
  - intros Hm E. destruct (im_root _ _ Him) as (Ht & _ & Hs & Hb & _ & Hh & _).
    eapply readi_whole; rewrite ?E; [done|apply Him|apply Him; unfold ROOTINO; lia|by apply Hh|by rewrite Ht| |done].
    rewrite Hs. unfold root_size. pose proof (Z.mul_succ_div_gt (Z.of_nat (length (root_bytes fl))) 512 ltac:(lia)). lia.
Qed.
End roundtrip.

(** ** An image with two files *)

(** "README" and "_cat". *)
Definition readme_name : list Z := [82; 69; 65; 68; 77; 69].
Definition cat_name : list Z := [95; 99; 97; 116].

Definition two_files : list (list Z * list Z) := [(readme_name, [104; 105]); (cat_name, replicate 600 7)].
Definition two_host (nm : list Z) : option (list Z) :=
  if bool_decide (nm = readme_name) then Some ([104; 105]) else if bool_decide (nm = cat_name) then Some (replicate 600 7) else None.

Lemma two_accepted : Forall (acceptable two_host) two_files.
Proof.
  repeat constructor; try (vm_compute; discriminate); intros H; apply list_elem_of_In in H; vm_compute in H; intuition discriminate.
Qed.

(** A kernel on an image with an empty log. *)
Lemma image_boots v (ic : nat → inode) : formatted mk_geom v → v (g_start mk_geom) = zero_block →
  ∃ (s : fs bio) ws lg, outside mk_geom s v ws lg ∅ ic.
Proof.
  intros Hf Hlog.
  assert (Hr : ∀ y, replay (g_start mk_geom) v y = v y) by (intros y; unfold replay; rewrite Hlog; replace (hdr_list zero_block) with ([] : list Z) by (vm_compute; reflexivity); done).
  assert (H : wp boot (λ _ s, ∃ d ws, idle mk_geom s d ws ∧ agree (g_start mk_geom) d v) (machine (g_blocks mk_geom) v)).
  { apply (boot_run mk_geom v); [exact Hf|]. intros s cs Hs Ha _ _. exists (apply_writes v cs), cs. split; [exact Hs|].
    intros y Hy. rewrite Ha by exact Hy. apply Hr. }
  destruct (proj1 (wp_ok _ _ _) H) as (u & s & _ & d & ws & (Hq & _) & Ha). exists (mkFs s false ic []), ws, (ls_log s).
  split_and!; [exists d; split; [exact Hq|exact Ha]|intros b y E; rewrite lookup_empty in E; discriminate E|reflexivity..].
Qed.

Lemma mkfs_roundtrip_witness :
  wp (mkfs_main two_host true [[]; []; readme_name; cat_name]) (λ _ m,
    ∃ (s : fs bio) ws lg, outside mk_geom s (m_img m) ws lg ∅ (λ _, inode_at (m_img m) 2) ∧
      wp (readi no_read 0 0 2) (λ r _, r = (2, [104; 105])) s ∧ used (m_img m) 38 = true ∧ used (m_img m) 39 = false) mk0.
Proof.
  eapply wp_mono; [apply (mkfs_roundtrip no_read two_host [] [] two_files)|].
  - exact two_accepted.
  - vm_compute. repeat constructor.
  - vm_compute. reflexivity.
  - cbv beta zeta. intros _ m [Him Hr]. destruct (image_boots (m_img m) (λ _, inode_at (m_img m) 2) (im_formatted _ _ Him) (im_log _ _ Him)) as (s & ws & lg & Ho).
    exists s, ws, lg. split; [exact Ho|]. split; [exact (proj1 (Hr s ws lg _ 0%nat Ho) 0%nat (readme_name, [104; 105]) eq_refl eq_refl)|].
    rewrite !(im_used _ _ Him) by (vm_compute; split; [discriminate|reflexivity]). vm_compute. split; reflexivity.
Defined.
