(* ===== verification/User.v ===== *)
(** * What user programs see of the system

    The programs in the repository (cat.c, wc.c, grep.c, the shell) call the
    system through the stubs of usys.S.  [Sys] is the interface they are written
    against, for the calls they make on descriptors; [ostate] is a concrete one,
    in which a descriptor is open on a byte stream whose reads may come up short,
    as those of pipes and of the console do.  Also the user library ulib.c. *)

From stdpp Require Import base numbers list strings.
From Stdlib Require Import ZArith Lia.
From S2P Require Import Prelude CString.

#[local] Open Scope Z_scope.

(** src/fcntl.h:1-1 *)
Definition O_RDONLY : Z := 0x000.
(** src/fcntl.h:2-2 *)
Definition O_WRONLY : Z := 0x001.
(** src/fcntl.h:3-3 *)
Definition O_RDWR : Z := 0x002.
(** src/fcntl.h:4-4 *)
Definition O_CREATE : Z := 0x200.

(** The system calls on descriptors, as declared in the header -- src/user.h:9-13 *)
Class Sys (S : Type) := {
  sys_read : Z → nat → M S (Z * list Z);
  sys_write : Z → list Z → M S unit;
  sys_open : list Z → Z → M S Z;
  sys_close : Z → M S unit;
}.

(** A source of bytes: what is left, how many bytes the next reads return at
    most, and whether a read at its end fails instead of returning 0. *)
Record stream := mkStream {
  st_data : list Z;
  st_sizes : list nat;
  st_fails : bool;
}.

Definition stream_read (n : nat) (x : stream) : (Z * list Z) * stream :=
  match st_data x with
  | [] => ((if st_fails x then -1 else 0, []), x)
  | _ => let k := match st_sizes x with [] => n | z :: _ => Nat.min n (Nat.max 1 z) end in
         let bs := take k (st_data x) in
         ((Z.of_nat (length bs), bs), mkStream (drop k (st_data x)) (tail (st_sizes x)) (st_fails x))
  end.

(** Descriptors open for reading, the files there are, and what was written. *)
Record ostate := mkOs {
  os_fds : Z → option stream;
  os_files : list Z → option stream;
  os_next : Z;
  os_out : list (Z * list Z);
}.

Definition fd_upd (f : Z → option stream) (fd : Z) (x : option stream) : Z → option stream :=
  λ y, if y =? fd then x else f y.

#[export] Instance os_sys : Sys ostate := {
  sys_read fd n := λ s,
    match os_fds s fd with
    | None => Ok (-1, []) s
    | Some x => let '(r, x') := stream_read n x in
                Ok r (mkOs (fd_upd (os_fds s) fd (Some x')) (os_files s) (os_next s) (os_out s))
    end;
  sys_write fd bs := λ s, Ok tt (mkOs (os_fds s) (os_files s) (os_next s) (os_out s ++ [(fd, bs)]));
  sys_open path mode := λ s,
    match os_files s path with
    | None => Ok (-1) s
    | Some x => Ok (os_next s) (mkOs (fd_upd (os_fds s) (os_next s) (Some x)) (os_files s) (os_next s + 1) (os_out s))
    end;
  sys_close fd := λ s, Ok tt (mkOs (fd_upd (os_fds s) fd None) (os_files s) (os_next s) (os_out s));
}.

(** What was written to descriptor [fd]. *)
Definition written_to (fd : Z) (out : list (Z * list Z)) : list Z :=
  concat (map snd (filter (λ p, p.1 = fd) out)).

(** ** ulib.c

    On the memory of string.c's model.  Loops that run to a NUL take fuel. *)

Section ulib.
Implicit Types (m : mem).

(** src/ulib.c:10-12 *)
Fixpoint strcpy_loop (fuel : nat) m (s t : Z) : option mem :=
  match fuel with
  | O => None
  | S fuel => let c := m t in let m := upd m s c in
              if c =? 0 then Some m else strcpy_loop fuel m (w32 (s + 1)) (w32 (t + 1))
  end.

(** [strcpy] -- src/ulib.c:7-16 *)
Definition strcpy (fuel : nat) m (s t : Z) : option (mem * Z) :=
  match strcpy_loop fuel m s t with Some m => Some (m, s) | None => None end.

(** src/ulib.c:18-24 *)
Fixpoint strcmp (fuel : nat) m (p q : Z) : option Z :=
  match fuel with
  | O => None
  | S fuel => if negb (m p =? 0) && (m p =? m q) then strcmp fuel m (w32 (p + 1)) (w32 (q + 1))
              else Some (m p - m q)
  end.

(** [strlen] -- src/ulib.c:26-34 *)
Definition ustrlen (fuel : nat) m (s : Z) : option Z := strlen_loop m s 0 fuel.

(** [memset] -- src/ulib.c:36-41 *)
Definition umemset m (dst c n : Z) : mem := stosb m dst c (Z.to_nat n).

(** src/ulib.c:43-50 *)
Fixpoint strchr (fuel : nat) m (s c : Z) : option Z :=
  match fuel with
  | O => None
  | S fuel => if m s =? 0 then Some 0 else if m s =? c then Some s else strchr fuel m (w32 (s + 1)) c
  end.

(** [while(n-- > 0) *dst++ = *src++], which copies upwards only -- src/ulib.c:95-105 *)
Definition umemmove m (vdst vsrc n : Z) : mem := copy_up m vdst vsrc (Z.to_nat n).

(** [n = n*10 + *s++ - '0'] while there are digits -- src/ulib.c:90-91 *)
Fixpoint atoi_loop (s : list Z) (n : Z) : Z :=
  match s with
  | [] => n
  | c :: s => if (48 <=? c) && (c <=? 57) then atoi_loop s (s32 (n * 10 + c - 48)) else n
  end.

(** On the bytes of the string -- src/ulib.c:84-93 *)
Definition atoi (s : list Z) : Z := atoi_loop s 0.

Context {S : Type} {SY : Sys S}.

(** The loop of [gets]: the bytes stored, up to [max - 1] of them -- src/ulib.c:58-65 *)
Fixpoint gets_loop (room : nat) (buf : list Z) : M S (list Z) :=
  match room with
  | O => mret buf
  | Datatypes.S room =>
      r ← sys_read 0 1;
      if r.1 <? 1 then mret buf else
      let c := nth 0 r.2 0 in
      let buf := buf ++ [c] in
      if (c =? 10) || (c =? 13) then mret buf else gets_loop room buf
  end.

(** The bytes of the buffer, with the NUL that ends them -- src/ulib.c:52-68 *)
Definition ugets (max : Z) : M S (list Z) :=
  buf ← gets_loop (Z.to_nat (max - 1)) [];
  mret (buf ++ [0]).

(** [stat]; [fstat] is a system call on the descriptor -- src/ulib.c:70-82 *)
Definition ustat {A} (fstat : Z → M S (Z * A)) (none : A) (n : list Z) : M S (Z * A) :=
  fd ← sys_open n 0;
  if fd <? 0 then mret (-1, none) else
  r ← fstat fd;
  sys_close fd;;
  mret r.
End ulib.
