(* ===== verification/Printf.v ===== *)
(** * Formatted output (printf.c)

    [printf] of the user library: a state machine over the format that writes
    one byte at a time, and [printint], which builds the digits of a number in
    a buffer of 16 bytes.  The theorems: the buffer is never overrun, [atoi] of
    what [printint] writes is the number, and the digits are its expansion. *)

From stdpp Require Import base numbers list strings.
From Stdlib Require Import ZArith Lia.
From S2P Require Import Prelude CString User.

#[local] Open Scope Z_scope.

(** The bytes of a literal. *)
Definition str (s : string) : list Z :=
  map (λ c, Z.of_N (Ascii.N_of_ascii c)) (String.list_ascii_of_string s).

(** An argument as the caller passes it: a word, or a pointer to a string (or
    the null pointer). *)
Inductive arg :=
  | Word (z : Z)
  | Ptr (s : option (list Z)).

(** [buf[i++] = v] for [char buf[16]]. *)
Definition buf_store {S} (buf : list Z) (i : nat) (v : Z) : M S (list Z) :=
  if (i <? 16)%nat then mret (<[i := v]> buf) else fault "buf[16]".

(** [do{ buf[i++] = digits[x % base]; }while((x /= base) != 0)] -- src/printf.c:27-30 *)
Fixpoint digits_loop {S} (fuel : nat) (digits : list Z) (x base : Z) (buf : list Z) (i : nat) : M S (list Z * nat) :=
  match fuel with
  | O => nofuel
  | Datatypes.S fuel =>
      match digits !! Z.to_nat (x `mod` base) with
      | None => fault "digits"
      | Some d =>
          buf ← buf_store buf i d;
          let x := x / base in
          if x =? 0 then mret (buf, i + 1)%nat else digits_loop fuel digits x base buf (i + 1)
      end
  end.

(** [while(--i >= 0)] over the buffer, with what is done to each byte -- src/printf.c:34-35 *)
Definition emit {S} (out : Z → M S unit) (buf : list Z) (i : nat) : M S unit :=
  for_each (rev (seq 0 i)) (λ k, out (nth k buf 0)).

Section printf.
Context {S : Type} {SY : Sys S}.

(** src/printf.c:5-9 *)
Definition putc (fd c : Z) : M S unit := sys_write fd [w8 c].

(** [static char digits[]], with its NUL. *)
Definition DIGITS : list Z := str "0123456789ABCDEF" ++ [0].

(** [x = -xx] is the machine's negation, also for the least [int] -- src/printf.c:11-36 *)
Definition printint (fd xx base : Z) (sgn : bool) : M S unit :=
  let neg := sgn && (s32 xx <? 0) in
  let x := if neg then w32 (- s32 xx) else w32 xx in
  r ← digits_loop 32 DIGITS x base (replicate 16 0) 0;
  let '(buf, i) := r in
  b ← (if neg then buf_store buf i 45 else mret buf);
  let i := if neg then (i + 1)%nat else i in
  emit (putc fd) b i.

(** [%s] -- src/printf.c:64-71 *)
Definition putstr (fd : Z) (s : option (list Z)) : M S unit :=
  for_each (match s with None => str "(null)" | Some s => s end) (putc fd).

(** [state == '%'] in front of [c]: what is printed, and the arguments left -- src/printf.c:56-83 *)
Definition directive (fd c : Z) (ap : list arg) : M S (list arg) :=
  if c =? 100 then
    match ap with Word z :: ap => printint fd z 10 true;; mret ap | _ => fault "ap" end
  else if (c =? 120) || (c =? 112) then
    match ap with Word z :: ap => printint fd z 16 false;; mret ap | _ => fault "ap" end
  else if c =? 115 then
    match ap with Ptr s :: ap => putstr fd s;; mret ap | _ => fault "ap" end
  else if c =? 99 then
    match ap with Word z :: ap => putc fd z;; mret ap | _ => fault "ap" end
  else if c =? 37 then putc fd c;; mret ap
  else putc fd 37;; putc fd c;; mret ap.

(** The loop over the format; [state] is 0 or '%' -- src/printf.c:48-84 *)
Fixpoint printf_loop (fd : Z) (fmt : list Z) (state : Z) (ap : list arg) : M S unit :=
  match fmt with
  | [] => mret tt
  | c :: fmt =>
      if state =? 0 then
        if c =? 37 then printf_loop fd fmt 37 ap
        else putc fd c;; printf_loop fd fmt state ap
      else ap ← directive fd c ap; printf_loop fd fmt 0 ap
  end.

(** src/printf.c:39-85 *)
Definition printf (fd : Z) (fmt : list Z) (ap : list arg) : M S unit := printf_loop fd fmt 0 ap.
End printf.

(** ** What is printed *)

(** The digits of [x] in [base], least significant first. *)
Fixpoint expand (fuel : nat) (x base : Z) : list Z :=
  match fuel with
  | O => []
  | S fuel => x `mod` base :: if x / base =? 0 then [] else expand fuel (x / base) base
  end.

(** Their value. *)
Definition value_of (base : Z) (ds : list Z) : Z := foldr (λ d v, d + base * v) 0 ds.

Definition digit (d : Z) : Z := nth (Z.to_nat d) DIGITS 0.

Lemma div_pow base x n : 2 ≤ base → 0 ≤ x < base ^ Z.of_nat (S n) → 0 ≤ x / base < base ^ Z.of_nat n.
Proof.
  intros Hb Hx. rewrite Nat2Z.inj_succ, Z.pow_succ_r in Hx by lia.
  split; [apply Z.div_pos; lia|]. apply Z.div_lt_upper_bound; lia.
Qed.

Lemma expand_spec fuel x base :
  2 ≤ base → 0 ≤ x < base ^ Z.of_nat (S fuel) →
  value_of base (expand (S fuel) x base) = x ∧ Forall (λ d, 0 ≤ d < base) (expand (S fuel) x base).
Proof.
  intros Hb. revert x. induction fuel as [|fuel IH]; intros x Hx.
  - rewrite Z.pow_1_r in Hx. cbn. rewrite Z.div_small, Z.mod_small by lia. simpl. split; [lia|].
    apply Forall_singleton. lia.
  - pose proof (div_pow base x (S fuel) Hb Hx) as Hq. pose proof (Z.mod_pos_bound x base). pose proof (Z.div_mod x base).
    change (expand (S (S fuel)) x base) with (x `mod` base :: if x / base =? 0 then [] else expand (S fuel) (x / base) base).
    destruct (Z.eqb_spec (x / base) 0) as [E|E].
    + simpl. split; [lia|]. apply Forall_singleton. lia.
    + destruct (IH (x / base) Hq) as [IH1 IH2]. split; [|constructor; [lia|done]].
      change (x `mod` base + base * value_of base (expand (S fuel) (x / base) base) = x). rewrite IH1. lia.
Qed.

Lemma expand_length fuel x base k :
  2 ≤ base → 0 ≤ x < base ^ Z.of_nat (S k) → (length (expand fuel x base) ≤ S k)%nat.
Proof.
  intros Hb. revert x k. induction fuel as [|fuel IH]; intros x k Hx; [simpl; lia|]. simpl.
  destruct (Z.eqb_spec (x / base) 0) as [E|E]; [simpl; lia|]. destruct k as [|k].
  - rewrite Z.pow_1_r in Hx. rewrite Z.div_small in E by lia. lia.
  - apply le_n_S, IH. by apply div_pow.
Qed.

Lemma digits_lookup base d : 0 ≤ d < base → base ≤ 16 → DIGITS !! Z.to_nat d = Some (digit d).
Proof.
  intros Hd Hb. unfold digit. rewrite nth_lookup.
  destruct (lookup_lt_is_Some_2 DIGITS (Z.to_nat d)) as [x ->]; [change (length DIGITS) with 17%nat; lia|done].
Qed.

Lemma insert_splice i (d : Z) ds (buf : list Z) :
  (i + S (length ds) ≤ length buf)%nat → splice (i + 1) ds (<[i := d]> buf) = splice i (d :: ds) buf.
Proof.
  intros Hi. apply list_eq. intros k.
  rewrite !lookup_splice by (rewrite ?length_insert, ?length_cons; lia). rewrite !length_cons.
  destruct (decide (k = i)) as [->|Hk].
  - rewrite decide_False, decide_True by lia. rewrite list_lookup_insert_eq by lia. by rewrite Nat.sub_diag.
  - rewrite list_lookup_insert_ne by done. repeat case_decide; try lia; [|done].
    by replace (k - i)%nat with (S (k - (i + 1)))%nat by lia.
Qed.

Lemma splice_nil i (buf : list Z) : splice i [] buf = buf.
Proof. unfold splice. rewrite Nat.add_0_r. apply take_drop. Qed.

(** The digits are stored one after the other. *)
Lemma digits_loop_run {S} fuel x base (buf : list Z) i (s : S) :
  let ds := expand (Datatypes.S fuel) x base in
  2 ≤ base ≤ 16 → 0 ≤ x < base ^ Z.of_nat (Datatypes.S fuel) → length buf = 16%nat →
  (i + length ds ≤ 16)%nat →
  digits_loop (Datatypes.S fuel) DIGITS x base buf i s = Ok (splice i (map digit ds) buf, (i + length ds)%nat) s.
Proof.
  intros ds Hb. subst ds. revert x buf i. induction fuel as [|fuel IH]; intros x buf i Hx Hl.
  all: pose proof (Z.mod_pos_bound x base) as Hm.
  - rewrite Z.pow_1_r in Hx. cbn [expand digits_loop]. rewrite (Z.div_small x base) by lia. cbn [Z.eqb length].
    intros Hi. rewrite (digits_lookup base) by lia. unfold buf_store. rewrite (proj2 (Nat.ltb_lt _ _)) by lia.
    cbn. by rewrite <- insert_splice, splice_nil by (simpl; lia).
  - change (expand (Datatypes.S (Datatypes.S fuel)) x base)
      with (x `mod` base :: if x / base =? 0 then [] else expand (Datatypes.S fuel) (x / base) base).
    remember (Datatypes.S fuel) as f eqn:Ef. cbn [digits_loop length]. intros Hi.
    rewrite (digits_lookup base) by lia. unfold buf_store. rewrite (proj2 (Nat.ltb_lt _ _)) by lia.
    unfold mbind, M_bind, mret, M_ret. destruct (Z.eqb_spec (x / base) 0) as [E|E].
    + cbn. by rewrite <- insert_splice, splice_nil by (simpl; lia).
    + rewrite IH; rewrite ?length_insert; try lia.
      * cbn [map]. rewrite insert_splice by (rewrite length_map; lia). do 2 f_equal. lia.
      * apply div_pow; [lia|done].
Qed.

Lemma for_each_map {S A B} (f : A → B) (out : B → M S unit) l s :
  for_each (map f l) out s = for_each l (λ x, out (f x)) s.
Proof. revert s. induction l as [|x l IH]; intros s; simpl; [done|]. unfold mbind, M_bind. by destruct (out (f x) s). Qed.

Lemma take_nth (l : list Z) n : (n ≤ length l)%nat → take n l = map (λ k, nth k l 0) (seq 0 n).
Proof.
  intros Hn. apply list_eq. intros k. change (map (λ k, nth k l 0) (seq 0 n)) with ((λ k, nth k l 0) <$> seq 0 n).
  rewrite list_lookup_fmap. destruct (decide (k < n)%nat) as [Hk|Hk].
  - rewrite lookup_take_lt, lookup_seq_lt by done. simpl. rewrite nth_lookup.
    by destruct (lookup_lt_is_Some_2 l k) as [x ->]; [lia|].
  - rewrite lookup_take_ge, lookup_seq_ge by lia. done.
Qed.

Lemma emit_run {S} (out : Z → M S unit) buf n s :
  (n ≤ length buf)%nat → emit out buf n s = for_each (rev (take n buf)) out s.
Proof. intros Hn. unfold emit. rewrite take_nth by done. by rewrite <- map_rev, for_each_map. Qed.

Lemma take_splice_0 (ds buf : list Z) : take (length ds) (splice 0 ds buf) = ds.
Proof. unfold splice. simpl. apply take_app_length. Qed.

Lemma take_splice_insert (ds buf : list Z) v :
  (length ds < length buf)%nat → take (length ds + 1) (<[length ds := v]> (splice 0 ds buf)) = ds ++ [v].
Proof.
  intros Hl. assert (E : length (splice 0 ds buf) = length buf) by (apply length_splice; lia).
  rewrite Nat.add_1_r. rewrite (take_S_r _ _ v) by (apply list_lookup_insert_eq; lia).
  by rewrite take_insert_ge, take_splice_0 by lia.
Qed.

Lemma pow_10_bound base : 10 ≤ base → 2^32 ≤ base ^ Z.of_nat 10.
Proof. intros. transitivity (10 ^ 10); [lia|]. change (Z.of_nat 10) with 10. apply Z.pow_le_mono_l. lia. Qed.

Lemma printint_run {S} {SY : Sys S} fd xx base sgn (s : S) :
  10 ≤ base ≤ 16 →
  let neg := sgn && (s32 xx <? 0) in
  let x := if neg then - s32 xx else w32 xx in
  let ds := expand 32 x base in
  value_of base ds = x ∧ Forall (λ d, 0 ≤ d < base) ds ∧ (length ds ≤ 10)%nat ∧
  printint fd xx base sgn s = for_each ((if neg then [45] else []) ++ map digit (rev ds)) (putc fd) s.
Proof.
  intros Hb neg x ds. pose proof (pow_10_bound base (proj1 Hb)) as Hp.
  assert (Hx : 0 ≤ x < 2^32).
  { subst x neg. destruct sgn; [|apply w32_bound]. pose proof (s32_bound xx). pose proof (w32_bound xx).
    destruct (Z.ltb_spec (s32 xx) 0); simpl; lia. }
  assert (Hx32 : 0 ≤ x < base ^ Z.of_nat 32).
  { split; [lia|]. transitivity (base ^ Z.of_nat 10); [lia|]. apply Z.pow_lt_mono_r; lia. }
  assert (Hlen : (length ds ≤ 10)%nat) by (apply expand_length; lia).
  destruct (expand_spec 31 x base) as [Hv Hd]; [lia|done|]. split_and!; [done..|].
  unfold printint. fold neg. replace (if neg then w32 (- s32 xx) else w32 xx) with x.
  2: { subst x. destruct neg; [|done]. symmetry. by apply w32_small. }
  unfold mbind at 1, M_bind at 1. change 32%nat with (Datatypes.S 31). rewrite digits_loop_run; [|lia|done|done|fold ds; lia].
  fold ds. rewrite Nat.add_0_l. rewrite <- (length_map digit ds) in *.
  destruct neg.
  - unfold buf_store. rewrite (proj2 (Nat.ltb_lt _ _)) by lia. unfold mbind, M_bind, mret, M_ret.
    rewrite emit_run by (rewrite length_insert, length_splice; rewrite ?length_replicate; lia).
    rewrite take_splice_insert by (rewrite length_replicate; lia). by rewrite rev_app_distr, map_rev.
  - unfold mbind, M_bind, mret, M_ret.
    rewrite emit_run by (rewrite length_splice; rewrite ?length_replicate; lia).
    by rewrite take_splice_0, map_rev.
Qed.

Lemma digit_small d : 0 ≤ d < 10 → digit d = 48 + d.
Proof.
  intros Hd. assert (d = 0 ∨ d = 1 ∨ d = 2 ∨ d = 3 ∨ d = 4 ∨ d = 5 ∨ d = 6 ∨ d = 7 ∨ d = 8 ∨ d = 9) as H by lia.
  destruct H as [->|[->|[->|[->|[->|[->|[->|[->|[->| ->]]]]]]]]]; reflexivity.
Qed.

Lemma atoi_digits ds n :
  Forall (λ d, 0 ≤ d < 10) ds → 0 ≤ n → fold_left (λ v d, v * 10 + d) ds n < 2^31 →
  n ≤ fold_left (λ v d, v * 10 + d) ds n ∧ atoi_loop (map digit ds) n = fold_left (λ v d, v * 10 + d) ds n.
Proof.
  intros Hd. revert n. induction Hd as [|d ds Hd Hds IH]; intros n Hn Hlt; simpl in *; [lia|].
  destruct (IH (n * 10 + d)) as [Hle E]; [lia|done|]. split; [lia|]. rewrite digit_small by done.
  rewrite (proj2 (Z.leb_le 48 _)), (proj2 (Z.leb_le _ 57)) by lia. simpl.
  replace (n * 10 + (48 + d) - 48) with (n * 10 + d) by lia. by rewrite s32_small by lia.
Qed.

Lemma value_fold ds : fold_left (λ v d, v * 10 + d) (rev ds) 0 = value_of 10 ds.
Proof. rewrite <- fold_left_rev_right, rev_involutive. induction ds; simpl; [done|]. rewrite IHds. lia. Qed.

Lemma printf_d {S} {SY : Sys S} fd x (s : S) : printf fd (str "%d") [Word x] s = printint fd x 10 true s.
Proof.
  change (printf fd (str "%d") [Word x] s) with (((printint fd x 10 true;; mret (M := M S) ([] : list arg)) ≫= λ _, mret tt) s).
  unfold mbind, M_bind. by destruct (printint fd x 10 true s) as [[] ?|?|?|?|].
Qed.

Lemma atoi_expand x : 0 ≤ x < 2^31 → atoi (map digit (rev (expand 32 x 10))) = x.
Proof.
  intros Hx. destruct (expand_spec 31 x 10) as [Hv Hd]; [lia|split; [lia|]; transitivity (2^31); [lia|done]|].
  unfold atoi. destruct (atoi_digits (rev (expand 32 x 10)) 0) as [_ ->]; rewrite ?value_fold, ?Hv; try lia.
  apply Forall_rev. exact Hd.
Qed.

(** ** The theorems *)

(** [printint] never overruns its buffer of 16 bytes nor its table of digits,
    for both bases its callers use: it writes, one byte at a time, a minus sign
    if the number is signed and negative, and then the at most ten digits of
    the expansion of its magnitude, the most significant first. *)
Theorem printint_prints {S} {SY : Sys S} fd xx base sgn (s : S) :
  10 ≤ base ≤ 16 →
  let neg := sgn && (s32 xx <? 0) in
  ∃ ds, value_of base ds = (if neg then - s32 xx else w32 xx) ∧ Forall (λ d, 0 ≤ d < base) ds ∧ (length ds ≤ 10)%nat ∧
    printint fd xx base sgn s = for_each ((if neg then [45] else []) ++ map digit (rev ds)) (putc fd) s.
Proof. intros Hb neg. destruct (printint_run fd xx base sgn s Hb) as (H1 & H2 & H3 & H4). by eexists. Qed.

(** Reading a printed number back: [atoi] of the bytes that [printf] writes
    for [%d] is the number, for every [int] that is not negative; of a negative
    one (but the least), it is so after the minus sign, which [atoi] does not
    read: of the whole string it makes 0. *)
Theorem printint_atoi {S} {SY : Sys S} fd x (s : S) :
  -2^31 < x < 2^31 →
  ∃ bs, printf fd (str "%d") [Word x] s = for_each bs (putc fd) s ∧
    if 0 <=? x then atoi bs = x else hd_error bs = Some 45 ∧ atoi (tail bs) = - x ∧ atoi bs = 0.
Proof.
  intros Hx. destruct (printint_run fd x 10 true s) as (_ & _ & _ & E); [lia|].
  rewrite s32_small in E by lia. rewrite printf_d, E. cbn [andb]. eexists. split; [reflexivity|].
  destruct (Z.leb_spec 0 x) as [H0|H0].
  - rewrite (proj2 (Z.ltb_ge _ _)) by lia. rewrite w32_small by lia. apply atoi_expand. lia.
  - rewrite (proj2 (Z.ltb_lt _ _)) by lia. split; [done|]. split; [|done]. apply atoi_expand. lia.
Qed.

Lemma printint_prints_witness :
  let s := mkOs (λ _, None) (λ _, None) 3 [] in
  ∃ ds, value_of 16 ds = 2^32 - 1 ∧ (length ds ≤ 10)%nat ∧
    printint 1 (-1) 16 false s = for_each (map digit (rev ds)) (putc 1) s.
Proof.
  intros s. destruct (printint_prints 1 (-1) 16 false s) as (ds & H1 & _ & H3 & H4); [lia|]. by exists ds.
Defined.

Lemma printint_atoi_witness :
  let s := mkOs (λ _, None) (λ _, None) 3 [] in
  ∃ bs, printf 1 (str "%d") [Word (-2016)] s = for_each bs (putc 1) s ∧ atoi (tail bs) = 2016.
Proof.
  intros s. destruct (printint_atoi 1 (-2016) s) as (bs & H1 & H2); [lia|]. exists bs. split; [exact H1|].
  destruct H2 as (_ & H2 & _). exact H2.
Defined.
