(* ===== verification/Tools.v ===== *)
(** * Small programs (cat.c, wc.c, echo.c)

    Written against the interface of User.v.  The lemmas show, for streams
    whose reads come up short in any way, that [cat] copies every byte and that
    the counters of [wc] are those of the whole file. *)

From stdpp Require Import base numbers list strings.
From Stdlib Require Import ZArith Lia.
From S2P Require Import Prelude CString User Printf.

#[local] Open Scope Z_scope.

(** The newline that ends a message. *)
Definition nl : list Z := [10].

Section programs.
Context {S : Type} {SY : Sys S}.

(** ** cat.c *)

(** [false] if it calls [exit] -- src/cat.c:7-18 *)
Fixpoint cat (fuel : nat) (fd : Z) : M S bool :=
  match fuel with
  | O => nofuel
  | Datatypes.S fuel =>
      r ← sys_read fd 512;
      if r.1 >? 0 then sys_write 1 r.2;; cat fuel fd
      else if r.1 <? 0 then printf 1 (str "cat: read error" ++ nl) [];; mret false
      else mret true
  end.

(** [for(i = 1; i < argc; i++)] -- src/cat.c:30-37 *)
Fixpoint cat_files (fuel : nat) (argv : list (list Z)) : M S unit :=
  match argv with
  | [] => mret tt
  | a :: argv =>
      fd ← sys_open a 0;
      if fd <? 0 then printf 1 (str "cat: cannot open %s" ++ nl) [Ptr (Some a)]
      else
        ok ← cat fuel fd;
        if negb ok then mret tt else
        sys_close fd;; cat_files fuel argv
  end.

(** [main]; [argv] without the program's name -- src/cat.c:20-39 *)
Definition cat_main (fuel : nat) (argv : list (list Z)) : M S unit :=
  match argv with
  | [] => cat fuel 0;; mret tt
  | _ => cat_files fuel argv
  end.

(** ** wc.c *)

(** The counters of [wc]: lines, words, characters, and whether the last byte
    was inside a word -- src/wc.c:11-14 *)
Record counts := mkCounts { n_l : Z; n_w : Z; n_c : Z; inword : bool }.

(** One byte of the buffer; [strchr] does not find the NUL -- src/wc.c:17-24 *)
Definition wc_char (x : counts) (c : Z) : counts :=
  let nc := s32 (n_c x + 1) in
  let l := if c =? 10 then s32 (n_l x + 1) else n_l x in
  if bool_decide (c ∈ [32; 13; 9; 10; 11]) then mkCounts l (n_w x) nc false
  else if negb (inword x) then mkCounts l (s32 (n_w x + 1)) nc true
  else mkCounts l (n_w x) nc (inword x).

(** Up to the read that returns no bytes; [None] if that fails -- src/wc.c:15-27 *)
Fixpoint wc_loop (fuel : nat) (fd : Z) (x : counts) : M S (option counts) :=
  match fuel with
  | O => nofuel
  | Datatypes.S fuel =>
      r ← sys_read fd 512;
      if r.1 >? 0 then wc_loop fuel fd (fold_left wc_char r.2 x)
      else mret (if r.1 <? 0 then None else Some x)
  end.

(** [false] if it calls [exit] -- src/wc.c:7-33 *)
Definition wc (fuel : nat) (fd : Z) (name : list Z) : M S bool :=
  r ← wc_loop fuel fd (mkCounts 0 0 0 false);
  match r with
  | None => printf 1 (str "wc: read error" ++ nl) [];; mret false
  | Some x => printf 1 (str "%d %d %d %s" ++ nl) [Word (n_l x); Word (n_w x); Word (n_c x); Ptr (Some name)];; mret true
  end.

(** src/wc.c:45-52 *)
Fixpoint wc_files (fuel : nat) (argv : list (list Z)) : M S unit :=
  match argv with
  | [] => mret tt
  | a :: argv =>
      fd ← sys_open a 0;
      if fd <? 0 then printf 1 (str "wc: cannot open %s" ++ nl) [Ptr (Some a)]
      else
        ok ← wc fuel fd a;
        if negb ok then mret tt else
        sys_close fd;; wc_files fuel argv
  end.

(** [main] -- src/wc.c:35-54 *)
Definition wc_main (fuel : nat) (argv : list (list Z)) : M S unit :=
  match argv with
  | [] => wc fuel 0 [];; mret tt
  | _ => wc_files fuel argv
  end.

(** ** echo.c *)

(** [argv[1]] onwards, a space between two and a newline after the last -- src/echo.c:5-13 *)
Fixpoint echo_main (argv : list (list Z)) : M S unit :=
  match argv with
  | [] => mret tt
  | a :: argv =>
      printf 1 (str "%s%s") [Ptr (Some a); Ptr (Some match argv with [] => nl | _ => str " " end)];;
      echo_main argv
  end.
End programs.

(** ** Streams read to the end *)

Lemma stream_read_more n x :
  st_data x ≠ [] → (0 < n)%nat →
  ∃ bs x', stream_read n x = ((Z.of_nat (length bs), bs), x') ∧ bs ≠ [] ∧ st_data x = bs ++ st_data x' ∧
    st_fails x' = st_fails x ∧ (length (st_data x') < length (st_data x))%nat.
Proof.
  intros Hd Hn. unfold stream_read. set (k := match st_sizes x with [] => n | z :: _ => Nat.min n (Nat.max 1 z) end).
  assert (Hk : (0 < k)%nat) by (subst k; destruct (st_sizes x); lia). clearbody k.
  destruct (st_data x) as [|d ds] eqn:E; [done|].
  exists (take k (d :: ds)), (mkStream (drop k (d :: ds)) (tail (st_sizes x)) (st_fails x)). simpl st_data. simpl st_fails.
  split_and!; [done|destruct k; [lia|done]|by rewrite take_drop|done|rewrite length_drop; simpl; lia].
Qed.

(** A read of an open descriptor that has bytes left, and one at its end. *)
Lemma os_read_more fd n x (s : ostate) (Q : Z * list Z → ostate → Prop) :
  os_fds s fd = Some x → st_data x ≠ [] → (0 < n)%nat →
  (∀ bs x' s', bs ≠ [] → st_data x = bs ++ st_data x' → st_fails x' = st_fails x →
     (length (st_data x') < length (st_data x))%nat → os_fds s' fd = Some x' → os_out s' = os_out s →
     Q (Z.of_nat (length bs), bs) s') →
  wp (sys_read fd n) Q s.
Proof.
  intros Hf Hd Hn HQ. destruct (stream_read_more n x Hd Hn) as (bs & x' & E & H1 & H2 & H3 & H4).
  unfold wp. simpl. rewrite Hf, E. eapply HQ; try done. simpl. unfold fd_upd. by rewrite Z.eqb_refl.
Qed.

Lemma os_read_end fd n x (s : ostate) (Q : Z * list Z → ostate → Prop) :
  os_fds s fd = Some x → st_data x = [] →
  (∀ s', os_fds s' fd = Some x → os_out s' = os_out s → Q (if st_fails x then -1 else 0, []) s') →
  wp (sys_read fd n) Q s.
Proof.
  intros Hf Hd HQ. unfold wp. simpl. rewrite Hf. unfold stream_read. rewrite Hd. apply HQ; [|done].
  simpl. unfold fd_upd. by rewrite Z.eqb_refl.
Qed.

Lemma written_to_app fd o1 o2 : written_to fd (o1 ++ o2) = written_to fd o1 ++ written_to fd o2.
Proof. unfold written_to. by rewrite filter_app, map_app, concat_app. Qed.

Lemma written_to_one fd bs : written_to fd [(fd, bs)] = bs.
Proof. unfold written_to. rewrite filter_cons_True by done. simpl. by rewrite app_nil_r. Qed.

(** [cat] copies the stream, whatever its reads return. *)
Lemma cat_copies fuel fd x (s : ostate) :
  os_fds s fd = Some x → st_fails x = false → (length (st_data x) < fuel)%nat →
  wp (cat fuel fd) (λ ok s', ok = true ∧ written_to 1 (os_out s') = written_to 1 (os_out s) ++ st_data x) s.
Proof.
  revert s x. induction fuel as [|fuel IH]; intros s x Hf Hn Hl; [lia|]. cbn [cat]. apply wp_bind.
  destruct (decide (st_data x = [])) as [E|E].
  - eapply os_read_end; [done|done|]. intros s' Hf' Ho. rewrite Hn. cbn. by rewrite Ho, E, app_nil_r.
  - eapply os_read_more; [done|done|lia|]. intros bs x' s' Hb Hd Hn' Hl' Hf' Ho.
    assert (Hlen : (0 < length bs)%nat) by (destruct bs; [done|simpl; lia]).
    cbn [fst snd]. rewrite (proj2 (Z.gtb_lt _ _)) by lia. apply wp_bind. unfold wp at 1. cbn [sys_write os_sys].
    eapply wp_mono; [apply (IH _ x'); [done|by rewrite Hn'|lia]|]. cbn beta. intros ok s2 [-> ->]. split; [done|]. cbn [os_out].
    rewrite written_to_app, written_to_one, Ho, Hd. by rewrite app_assoc.
Qed.

(** The counters of [wc] do not depend on how the reads cut the file. *)
Lemma wc_counts fuel fd x (s : ostate) c :
  os_fds s fd = Some x → st_fails x = false → (length (st_data x) < fuel)%nat →
  wp (wc_loop fuel fd c) (λ r s', r = Some (fold_left wc_char (st_data x) c) ∧ os_out s' = os_out s) s.
Proof.
  revert s x c. induction fuel as [|fuel IH]; intros s x c Hf Hn Hl; [lia|]. cbn [wc_loop]. apply wp_bind.
  destruct (decide (st_data x = [])) as [E|E].
  - eapply os_read_end; [done|done|]. intros s' Hf' Ho. rewrite Hn. cbn. by rewrite E.
  - eapply os_read_more; [done|done|lia|]. intros bs x' s' Hb Hd Hn' Hl' Hf' Ho.
    assert (Hlen : (0 < length bs)%nat) by (destruct bs; [done|simpl; lia]).
    cbn [fst snd]. rewrite (proj2 (Z.gtb_lt _ _)) by lia.
    eapply wp_mono; [apply (IH _ x'); [done|by rewrite Hn'|lia]|]. cbn. intros r s2 [-> ->]. split; [|done].
    by rewrite Hd, fold_left_app.
Qed.
