(* ===== verification/Cmds.v ===== *)
(** * Commands (ls.c, rm.c, mkdir.c, ln.c, kill.c, zombie.c, init.c)

    Programs that make a system call for each argument, [ls], and [init], the first
    process.  The calls are those of User.v and of the class [Calls]; [dsys] is a
    small system that has them.

    The lemmas: [ls] of a directory prints one line for each entry in use, with
    the name the entry has and the numbers [fstat] gives, stays within its buffer of
    512 bytes and closes its descriptor; [rm] and [mkdir] work off their arguments up to
    the first one that fails; [init] waits until its shell is gone, whatever
    orphans exit before. *)

From stdpp Require Import base numbers list strings.
From Stdlib Require Import ZArith Lia.
From S2P Require Import Prelude CString User Printf Tools.

#[local] Open Scope Z_scope.

(** src/stat.h:5-11 *)
Record ustat_t := mkUstat { us_type : Z; us_dev : Z; us_ino : Z; us_nlink : Z; us_size : Z }.

(** System calls besides those on descriptors, as declared in the header; [fork] is
    seen from the parent -- src/user.h:4-23 *)
Class Calls (S : Type) := {
  sys_fstat : Z → M S (Z * ustat_t);
  sys_unlink : list Z → M S Z;
  sys_mkdir : list Z → M S Z;
  sys_link : list Z → list Z → M S Z;
  sys_kill : Z → M S Z;
  sys_mknod : list Z → Z → Z → M S Z;
  sys_dup : Z → M S Z;
  sys_fork : M S Z;
  sys_wait : M S Z;
  sys_exec : list Z → M S unit;
  sys_sleep : Z → M S Z;
}.

Definition T_DIR : Z := 1.
Definition T_FILE : Z := 2.

(** ** ls.c *)

(** The index of the first byte behind the last slash at or below [k]
    -- src/ls.c:12-15 *)
Fixpoint after_slash (path : list Z) (k : nat) : nat :=
  if nth k path 0 =? 47 then S k
  else match k with O => O | S k => after_slash path k end.

(** The result is a string; the static buffer's last byte is always 0
    -- src/ls.c:6-23 *)
Definition fmtname (path : list Z) : list Z :=
  let p := drop (after_slash path (length path)) path in
  if (14 <=? length p)%nat then p else p ++ replicate (14 - length p) 32.

Section programs.
Context {S : Type} {SY : Sys S} {CA : Calls S}.

Definition ls_line (name : list Z) (st : ustat_t) : M S unit :=
  printf 1 (str "%s %d %d %d" ++ nl) [Ptr (Some name); Word (us_type st); Word (us_ino st); Word (us_size st)].

(** [buf] holds the path and a slash; an entry of 16 bytes is copied behind it
    -- src/ls.c:57-67 *)
Fixpoint ls_entries (fuel : nat) (fd : Z) (path : list Z) (st0 : ustat_t) : M S unit :=
  match fuel with
  | O => nofuel
  | Datatypes.S fuel =>
      r ← sys_read fd 16;
      if negb (r.1 =? 16) then mret tt else
      let inum := get_u16 0 r.2 in
      if inum =? 0 then ls_entries fuel fd path st0 else
      let buf := path ++ [47] ++ slice 2 14 r.2 ++ [0] in
      if (512 <? length buf)%nat then fault "buf[512]" else
      let name := until_nul buf in
      x ← ustat sys_fstat st0 name;
      (if x.1 <? 0 then printf 1 (str "ls: cannot stat %s" ++ nl) [Ptr (Some name)]
       else ls_line (fmtname name) x.2);;
      ls_entries fuel fd path st0
  end.

(** [st0] is the structure before the calls fill it -- src/ls.c:25-71 *)
Definition ls (fuel : nat) (st0 : ustat_t) (path : list Z) : M S unit :=
  fd ← sys_open path 0;
  if fd <? 0 then printf 2 (str "ls: cannot open %s" ++ nl) [Ptr (Some path)] else
  r ← sys_fstat fd;
  if r.1 <? 0 then printf 2 (str "ls: cannot stat %s" ++ nl) [Ptr (Some path)];; sys_close fd else
  let st := r.2 in
  (if us_type st =? T_FILE then ls_line (fmtname path) st
   else if us_type st =? T_DIR then
     if Z.of_nat (length path) + 1 + 14 + 1 >? 512 then printf 1 (str "ls: path too long" ++ nl) []
     else ls_entries fuel fd path st
   else mret tt);;
  sys_close fd.

(** [main]; [argv] without the program's name -- src/ls.c:73-85 *)
Definition ls_main (fuel : nat) (st0 : ustat_t) (argv : list (list Z)) : M S unit :=
  match argv with
  | [] => ls fuel st0 (str ".")
  | _ => for_each argv (ls fuel st0)
  end.

(** ** Calls for arguments *)

(** The loop of rm.c and mkdir.c: a call per argument, up to one that fails. *)
Fixpoint each_arg (call : list Z → M S Z) (msg : list Z) (argv : list (list Z)) : M S unit :=
  match argv with
  | [] => mret tt
  | a :: argv =>
      r ← call a;
      if r <? 0 then printf 2 msg [Ptr (Some a)] else each_arg call msg argv
  end.

(** [main] -- src/rm.c:5-23 *)
Definition rm_main (argv : list (list Z)) : M S unit :=
  match argv with
  | [] => printf 2 (str "Usage: rm files..." ++ nl) []
  | _ => each_arg sys_unlink (str "rm: %s failed to delete" ++ nl) argv
  end.

(** [main] -- src/mkdir.c:5-23 *)
Definition mkdir_main (argv : list (list Z)) : M S unit :=
  match argv with
  | [] => printf 2 (str "Usage: mkdir files..." ++ nl) []
  | _ => each_arg sys_mkdir (str "mkdir: %s failed to create" ++ nl) argv
  end.

(** [main] -- src/ln.c:5-15 *)
Definition ln_main (argv : list (list Z)) : M S unit :=
  match argv with
  | [old; new] =>
      r ← sys_link old new;
      if r <? 0 then printf 2 (str "link %s %s: failed" ++ nl) [Ptr (Some old); Ptr (Some new)] else mret tt
  | _ => printf 2 (str "Usage: ln old new" ++ nl) []
  end.

(** [main], with the program's name: the test is [argc < 1] -- src/kill.c:5-17 *)
Definition kill_main (argv : list (list Z)) : M S unit :=
  match argv with
  | [] => printf 2 (str "usage: kill pid..." ++ nl) []
  | _ :: argv => for_each argv (λ a, sys_kill (atoi a);; mret tt)
  end.

(** [main], in the parent -- src/zombie.c:8-14 *)
Definition zombie_main : M S unit :=
  r ← sys_fork;
  if r >? 0 then sys_sleep 5;; mret tt else mret tt.

(** ** init.c *)

(** [while((wpid=wait()) >= 0 && wpid != pid)] -- src/init.c:34-35 *)
Fixpoint init_wait (fuel : nat) (pid : Z) : M S unit :=
  match fuel with
  | O => nofuel
  | Datatypes.S fuel =>
      wpid ← sys_wait;
      if (wpid >=? 0) && negb (wpid =? pid) then printf 1 (str "zombie!" ++ nl) [];; init_wait fuel pid else mret tt
  end.

(** One round of the loop in the parent; [false] if it exits -- src/init.c:22-36 *)
Definition init_round (fuel : nat) : M S bool :=
  printf 1 (str "init: starting sh" ++ nl) [];;
  pid ← sys_fork;
  if pid <? 0 then printf 1 (str "init: fork failed" ++ nl) [];; mret false
  else init_wait fuel pid;; mret true.

(** The child -- src/init.c:29-33 *)
Definition init_child : M S unit :=
  sys_exec (str "sh");;
  printf 1 (str "init: exec sh failed" ++ nl) [].

(** [main], for a number of rounds -- src/init.c:10-37 *)
Fixpoint init_rounds (fuel rounds : nat) : M S unit :=
  match rounds with
  | O => mret tt
  | Datatypes.S rounds => ok ← init_round fuel; if (ok : bool) then init_rounds fuel rounds else mret tt
  end.
Definition init_main (fuel rounds : nat) : M S unit :=
  fd ← sys_open (str "console") O_RDWR;
  (if fd <? 0 then sys_mknod (str "console") 1 1;; sys_open (str "console") O_RDWR;; mret tt else mret tt);;
  sys_dup 0;;
  sys_dup 0;;
  init_rounds fuel rounds.
End programs.

(** ** A small system *)

(** Files by name: what [fstat] says of them, and their contents.  An open
    descriptor has a name and an offset. *)
Record dsys := mkDsys {
  d_stat : list Z → option ustat_t;
  d_data : list Z → list Z;
  d_fds : Z → option (list Z * nat);
  d_next : Z;
  d_out : list (Z * list Z);
  d_kids : list Z;                 (** children in the order in which they exit *)
  d_pid : Z;
}.
Definition put_fds v s := mkDsys (d_stat s) (d_data s) v (d_next s) (d_out s) (d_kids s) (d_pid s).
Definition put_next v s := mkDsys (d_stat s) (d_data s) (d_fds s) v (d_out s) (d_kids s) (d_pid s).
Definition put_out v s := mkDsys (d_stat s) (d_data s) (d_fds s) (d_next s) v (d_kids s) (d_pid s).
Definition put_stat v s := mkDsys v (d_data s) (d_fds s) (d_next s) (d_out s) (d_kids s) (d_pid s).
Definition put_kids v s := mkDsys (d_stat s) (d_data s) (d_fds s) (d_next s) (d_out s) v (d_pid s).

Definition fdset (f : Z → option (list Z * nat)) fd x : Z → option (list Z * nat) := λ y, if y =? fd then x else f y.

#[export] Instance dsys_sys : Sys dsys := {
  sys_read fd n := λ s,
    match d_fds s fd with
    | None => Ok (-1, []) s
    | Some (p, o) =>
        let bs := take n (drop o (d_data s p)) in
        Ok (Z.of_nat (length bs), bs) (put_fds (fdset (d_fds s) fd (Some (p, (o + length bs)%nat))) s)
    end;
  sys_write fd bs := λ s, Ok tt (put_out (d_out s ++ [(fd, bs)]) s);
  sys_open p mode := λ s,
    match d_stat s p with
    | None => Ok (-1) s
    | Some _ => Ok (d_next s) (put_fds (fdset (d_fds s) (d_next s) (Some (p, 0%nat))) (put_next (d_next s + 1) s))
    end;
  sys_close fd := λ s, Ok tt (put_fds (fdset (d_fds s) fd None) s);
}.

Definition nameset (f : list Z → option ustat_t) p x : list Z → option ustat_t := λ q, if decide (q = p) then x else f q.

#[export] Instance dsys_calls : Calls dsys := {
  sys_fstat fd := λ s,
    match d_fds s fd with
    | Some (p, _) => match d_stat s p with Some st => Ok (0, st) s | None => Ok (-1, mkUstat 0 0 0 0 0) s end
    | None => Ok (-1, mkUstat 0 0 0 0 0) s
    end;
  sys_unlink p := λ s,
    match d_stat s p with Some _ => Ok 0 (put_stat (nameset (d_stat s) p None) s) | None => Ok (-1) s end;
  sys_mkdir p := λ s,
    match d_stat s p with
    | Some _ => Ok (-1) s
    | None => Ok 0 (put_stat (nameset (d_stat s) p (Some (mkUstat T_DIR 1 0 1 32))) s)
    end;
  sys_link old new := λ s,
    match d_stat s old, d_stat s new with
    | Some x, None => Ok 0 (put_stat (nameset (d_stat s) new (Some x)) s)
    | _, _ => Ok (-1) s
    end;
  sys_kill pid := λ s, if decide (pid ∈ d_kids s) then Ok 0 s else Ok (-1) s;
  sys_mknod p _ _ := λ s, Ok 0 (put_stat (nameset (d_stat s) p (Some (mkUstat 3 1 0 1 0))) s);
  sys_dup fd := λ s, Ok fd s;
  sys_fork := λ s, Ok (d_pid s) s;
  sys_wait := λ s, match d_kids s with [] => Ok (-1) s | k :: l => Ok k (put_kids l s) end;
  sys_exec _ := λ s, Ok tt s;
  sys_sleep _ := λ s, Ok 0 s;
}.

(** ** What is printed *)

(** The program prints these bytes, and does nothing else. *)
Definition prints (fd : Z) (bs : list Z) (m : M dsys unit) : Prop :=
  ∀ s, m s = Ok tt (put_out (d_out s ++ map (λ c, (fd, [w8 c])) bs) s).

Lemma prints_nil fd : prints fd [] (mret tt).
Proof. intros []. unfold put_out. cbn. by rewrite app_nil_r. Qed.

Lemma prints_app fd b1 b2 m1 m2 : prints fd b1 m1 → prints fd b2 m2 → prints fd (b1 ++ b2) (m1;; m2).
Proof. intros H1 H2 s. unfold mbind, M_bind. rewrite H1, H2. unfold put_out. cbn. by rewrite map_app, app_assoc. Qed.

Lemma prints_bytes fd bs : prints fd bs (for_each bs (putc fd)).
Proof.
  induction bs as [| b bs IH]; [apply prints_nil |]. cbn [for_each]. apply (prints_app fd [b] bs); [| exact IH].
  intros s. reflexivity.
Qed.

(** The decimal number [%d] prints. *)
Definition dec (x : Z) : list Z :=
  let neg := s32 x <? 0 in
  (if neg then [45] else []) ++ map digit (rev (expand 32 (if neg then - s32 x else w32 x) 10)).

Lemma prints_dec fd x : prints fd (dec x) (printint fd x 10 true).
Proof.
  intros s. destruct (printint_run fd x 10 true s) as (_ & _ & _ & E); [lia |]. cbn [andb] in E. rewrite E. apply prints_bytes.
Qed.

Lemma prints_char fd c fmt ap bs :
  c ≠ 37 → prints fd bs (printf_loop fd fmt 0 ap) → prints fd (c :: bs) (printf_loop fd (c :: fmt) 0 ap).
Proof.
  intros Hc H. cbn [printf_loop]. rewrite Z.eqb_refl, (proj2 (Z.eqb_neq _ _) Hc).
  apply (prints_app fd [c] bs); [| exact H]. intros s. reflexivity.
Qed.

Lemma prints_s fd a fmt ap bs :
  prints fd bs (printf_loop fd fmt 0 ap) →
  prints fd (a ++ bs) (printf_loop fd (37 :: 115 :: fmt) 0 (Ptr (Some a) :: ap)).
Proof.
  intros H s. pose proof (prints_app fd a bs _ _ (prints_bytes fd a) H s) as E. rewrite <- E.
  change (printf_loop fd (37 :: 115 :: fmt) 0 (Ptr (Some a) :: ap) s) with
    (((putstr fd (Some a);; mret (M := M dsys) ap) ≫= λ ap, printf_loop fd fmt 0 ap) s).
  unfold putstr, mbind, M_bind. by destruct (for_each a (putc fd) s).
Qed.

Lemma prints_d fd x fmt ap bs :
  prints fd bs (printf_loop fd fmt 0 ap) →
  prints fd (dec x ++ bs) (printf_loop fd (37 :: 100 :: fmt) 0 (Word x :: ap)).
Proof.
  intros H s. pose proof (prints_app fd (dec x) bs _ _ (prints_dec fd x) H s) as E. rewrite <- E.
  change (printf_loop fd (37 :: 100 :: fmt) 0 (Word x :: ap) s) with
    (((printint fd x 10 true;; mret (M := M dsys) ap) ≫= λ ap, printf_loop fd fmt 0 ap) s).
  unfold mbind, M_bind. by destruct (printint fd x 10 true s).
Qed.

Ltac prints :=
  repeat first [apply prints_nil | apply prints_char; [discriminate |] | apply prints_s | apply prints_d].

Definition line (name : list Z) (st : ustat_t) : list Z :=
  name ++ 32 :: dec (us_type st) ++ 32 :: dec (us_ino st) ++ 32 :: dec (us_size st) ++ [10].
Definition cannot_stat (name : list Z) : list Z := str "ls: cannot stat " ++ name ++ [10].

Lemma prints_line name st : prints 1 (line name st) (ls_line name st).
Proof. unfold ls_line, line, printf. change (str "%s %d %d %d" ++ nl) with [37; 115; 32; 37; 100; 32; 37; 100; 32; 37; 100; 10]. prints. Qed.

Lemma prints_cannot fd name : prints fd (cannot_stat name) (printf fd (str "ls: cannot stat %s" ++ nl) [Ptr (Some name)]).
Proof.
  unfold cannot_stat, printf. change (str "ls: cannot stat %s" ++ nl) with (str "ls: cannot stat " ++ [37; 115; 10]).
  cbn [str app]. prints.
Qed.

(** What [ls] should print for an entry, a list of 16 bytes. *)
Definition entry_name (path e : list Z) : list Z := path ++ [47] ++ until_nul (slice 2 14 e).
Definition entry_line (s : dsys) (path e : list Z) : list Z :=
  if get_u16 0 e =? 0 then [] else
  match d_stat s (entry_name path e) with
  | Some st => line (fmtname (entry_name path e)) st
  | None => cannot_stat (entry_name path e)
  end.

(** Only descriptor [fd] and the output differ. *)
Definition only (fd : Z) (bs : list Z) (s s' : dsys) : Prop :=
  d_stat s' = d_stat s ∧ d_data s' = d_data s ∧ (∀ f, f ≠ fd → d_fds s' f = d_fds s f) ∧
  d_out s' = d_out s ++ map (λ c, (1, [w8 c])) bs ∧ d_next s ≤ d_next s'.

(** Descriptors from [d_next] on are not in use. *)
Definition fresh (s : dsys) : Prop := ∀ f, d_next s ≤ f → d_fds s f = None.

Lemma until_nul_end l : until_nul (l ++ [0]) = until_nul l.
Proof. induction l as [| c l IH]; cbn; [done |]. by rewrite IH. Qed.

Lemma ustat_run st0 name (s : dsys) (Q : Z * ustat_t → dsys → Prop) :
  0 ≤ d_next s → fresh s →
  (∀ s', only (-1) [] s s' → (∀ f, d_fds s' f = d_fds s f) → fresh s' → d_out s' = d_out s →
     Q (match d_stat s name with Some st => (0, st) | None => (-1, st0) end) s') →
  wp (ustat sys_fstat st0 name) Q s.
Proof.
  intros Hn Hf HQ. unfold ustat, wp, mbind, M_bind, mret, M_ret. cbn [sys_open dsys_sys].
  destruct (d_stat s name) as [st |] eqn:E.
  - rewrite (proj2 (Z.ltb_ge _ _)) by lia. cbn. unfold fdset at 1. rewrite Z.eqb_refl. cbn. rewrite E. cbn.
    assert (Hfds : ∀ f, fdset (fdset (d_fds s) (d_next s) (Some (name, 0%nat))) (d_next s) None f = d_fds s f).
    { intros f. unfold fdset. destruct (Z.eqb_spec f (d_next s)) as [-> |]; [| done]. symmetry. apply Hf. lia. }
    apply HQ; [| exact Hfds | | done].
    + split_and!; [done | done | intros f _; apply Hfds | by rewrite app_nil_r | cbn; lia].
    + intros f Hfl. cbn in *. rewrite Hfds. apply Hf. lia.
  - apply HQ; [| done | done | done]. split_and!; [done | done | done | by rewrite app_nil_r | cbn; lia].
Qed.

Lemma only_print fd bs1 bs2 s s1 : only fd bs1 s s1 → only fd (bs1 ++ bs2) s (put_out (d_out s1 ++ map (λ c, (1, [w8 c])) bs2) s1).
Proof.
  intros (H1 & H2 & H3 & H4 & H5). split_and!; [done | done | done | | done]. cbn. by rewrite H4, map_app, app_assoc.
Qed.

Lemma only_trans fd b1 b2 s s1 s2 : only fd b1 s s1 → only fd b2 s1 s2 → only fd (b1 ++ b2) s s2.
Proof.
  intros (H1 & H2 & H3 & H4 & H5) (G1 & G2 & G3 & G4 & G5). split_and!; [congruence | congruence | | | lia].
  - intros f Hf. by rewrite G3, H3.
  - by rewrite G4, H4, map_app, app_assoc.
Qed.

(** One entry in use: the file is looked at, and a line printed. *)
Lemma entry_run fd path e st0 (s : dsys) (Q : unit → dsys → Prop) (k : M dsys unit) :
  0 ≤ d_next s → fresh s → Forall (λ c, c ≠ 0) path → get_u16 0 e ≠ 0 →
  (∀ s', only fd (entry_line s path e) s s' → (∀ f, d_fds s' f = d_fds s f) → fresh s' → wp k Q s') →
  wp (x ← ustat sys_fstat st0 (entry_name path e);
      (if x.1 <? 0 then printf 1 (str "ls: cannot stat %s" ++ nl) [Ptr (Some (entry_name path e))]
       else ls_line (fmtname (entry_name path e)) x.2);; k) Q s.
Proof.
  intros Hn Hf Hp Hi HQ. apply wp_bind, ustat_run; [done | done |]. intros s1 (H1 & H2 & H3 & H4 & H5) Hfds Hf1 Ho.
  unfold entry_line in HQ. rewrite (proj2 (Z.eqb_neq _ _) Hi) in HQ. apply wp_bind. unfold wp at 1.
  assert (Ho1 : ∀ bs, only fd bs s (put_out (d_out s1 ++ map (λ c, (1, [w8 c])) bs) s1)).
  { intros bs. split_and!; [done | done | intros f _; apply Hfds | cbn; by rewrite Ho | done]. }
  destruct (d_stat s (entry_name path e)) as [st |]; cbn [fst snd].
  - change (0 <? 0) with false. cbn iota. rewrite prints_line. apply HQ; [apply Ho1 | exact Hfds | exact Hf1].
  - change (-1 <? 0) with true. cbn iota. rewrite prints_cannot. apply HQ; [apply Ho1 | exact Hfds | exact Hf1].
Qed.

(** A whole entry is read. *)
Lemma read_entry fd p o e rest (s : dsys) (Q : Z * list Z → dsys → Prop) :
  d_fds s fd = Some (p, o) → drop o (d_data s p) = e ++ rest → length e = 16%nat →
  (∀ s', only fd [] s s' → d_fds s' fd = Some (p, (o + 16)%nat) → drop (o + 16) (d_data s' p) = rest →
     (fresh s → fd < d_next s → fresh s') → d_next s' = d_next s → Q (16, e) s') →
  wp (sys_read fd 16) Q s.
Proof.
  intros Hfd Hd Hl HQ. unfold wp. cbn. rewrite Hfd, Hd, <- Hl, take_app_length, Hl. apply HQ.
  - split_and!; [done | done | | by rewrite app_nil_r | cbn; lia]. intros f Hf. cbn. unfold fdset. by rewrite (proj2 (Z.eqb_neq _ _) Hf).
  - cbn. unfold fdset. by rewrite Z.eqb_refl.
  - cbn. rewrite <- drop_drop, Hd, <- Hl. apply drop_app_length.
  - intros Hf Hlt f Hfl. cbn in *. unfold fdset. rewrite (proj2 (Z.eqb_neq _ _)) by lia. by apply Hf.
  - done.
Qed.

Lemma ls_entries_run es fuel fd path st0 o (s : dsys) :
  d_fds s fd = Some (path, o) → drop o (d_data s path) = concat es → Forall (λ e, length e = 16%nat) es →
  Forall (λ c, c ≠ 0) path → (length path ≤ 496)%nat → 0 ≤ d_next s → fd < d_next s → fresh s → (length es < fuel)%nat →
  wp (ls_entries fuel fd path st0) (λ _ s', only fd (concat (map (entry_line s path) es)) s s') s.
Proof.
  revert fuel o s. induction es as [| e es IH]; intros fuel o s Hfd Hd Hes Hp Hl Hn Hlt Hf Hfu;
    (destruct fuel as [| fuel]; [cbn in Hfu; lia |]); cbn [ls_entries concat map]; apply wp_bind.
  { unfold wp. cbn. rewrite Hfd, Hd. cbn. split_and!; [done | done | | by rewrite app_nil_r | cbn; lia].
    intros f Hne. cbn. unfold fdset. by rewrite (proj2 (Z.eqb_neq _ _) Hne). }
  apply Forall_cons in Hes as [He Hes]. cbn [concat] in Hd. cbn [length] in Hfu.
  eapply read_entry; [exact Hfd | exact Hd | exact He |]. intros s1 Ho1 Hfd1 Hd1 Hf1 Hn1. specialize (Hf1 Hf Hlt). cbn [fst snd].
  change (negb (16 =? 16)) with false. cbn iota zeta.
  assert (Hnext : ∀ b s2, only fd b s1 s2 → (∀ f, d_fds s2 f = d_fds s1 f) → fresh s2 → entry_line s path e = b →
    wp (ls_entries fuel fd path st0) (λ _ s', only fd (entry_line s path e ++ concat (map (entry_line s path) es)) s s') s2).
  { intros b s2 Ho2 Hfds2 Hf2 Eb. destruct (only_trans _ _ _ _ _ _ Ho1 Ho2) as (E1 & E2 & E3 & E4 & E5).
    eapply wp_mono; [apply (IH fuel (o + 16)%nat s2) |]; try done; try lia.
    - by rewrite Hfds2.
    - destruct Ho2 as (_ & Ed & _). by rewrite Ed.
    - cbv beta. intros _ s3 Ho3. assert (Eline : entry_line s2 path = entry_line s path) by (unfold entry_line; by rewrite E1).
      rewrite Eline in Ho3. rewrite Eb. exact (only_trans _ _ _ _ _ _ (conj E1 (conj E2 (conj E3 (conj E4 E5)))) Ho3). }
  destruct (Z.eqb_spec (get_u16 0 e) 0) as [Ei | Ei].
  { apply (Hnext []); [| done | done | unfold entry_line; by rewrite Ei].
    split_and!; [done | done | done | by rewrite app_nil_r | lia]. }
  rewrite (proj2 (Nat.ltb_ge _ _)).
  2: { rewrite !length_app. cbn [length]. unfold slice. rewrite length_take. lia. }
  replace (until_nul (path ++ [47] ++ slice 2 14 e ++ [0])) with (entry_name path e).
  2: { unfold entry_name. rewrite (until_nul_app_nonzero path _ Hp). cbn. by rewrite until_nul_end. }
  apply (entry_run fd); [lia | done | done | done |]. intros s2 Ho2 Hfds2 Hf2. apply (Hnext _ _ Ho2 Hfds2 Hf2).
  unfold entry_line. destruct Ho1 as (E1 & _). by rewrite E1.
Qed.

(** [ls] of a directory of whole entries, with a path short enough for the buffer:
    a line for each entry in use, in the order of the directory, and afterwards the
    descriptors are those there were. *)
Theorem ls_lists fuel st0 path st es (s : dsys) :
  d_stat s path = Some st → us_type st = T_DIR → d_data s path = concat es → Forall (λ e, length e = 16%nat) es →
  Forall (λ c, c ≠ 0) path → (length path ≤ 496)%nat → 0 ≤ d_next s → fresh s → (length es < fuel)%nat →
  wp (ls fuel st0 path) (λ _ s',
    d_out s' = d_out s ++ map (λ c, (1, [w8 c])) (concat (map (entry_line s path) es)) ∧
    d_stat s' = d_stat s ∧ d_data s' = d_data s ∧ ∀ f, d_fds s' f = d_fds s f) s.
Proof.
  intros Hst Ht Hd Hes Hp Hl Hn Hf Hfu. unfold ls. apply wp_bind. unfold wp at 1. cbn [sys_open dsys_sys]. rewrite Hst.
  rewrite (proj2 (Z.ltb_ge _ _)) by lia. set (s1 := put_fds _ _).
  assert (Hfd : d_fds s1 (d_next s) = Some (path, 0%nat)) by (cbn; unfold fdset; by rewrite Z.eqb_refl).
  apply wp_bind. unfold wp at 1. cbn [sys_fstat dsys_calls]. rewrite Hfd. cbn [d_stat s1 put_fds put_next]. rewrite Hst.
  cbn [fst snd]. change (0 <? 0) with false. cbn iota zeta. rewrite Ht. change (T_DIR =? T_FILE) with false.
  change (T_DIR =? T_DIR) with true. cbn iota. rewrite Z.gtb_ltb, (proj2 (Z.ltb_ge _ _)) by lia.
  apply wp_bind. eapply wp_mono; [apply (ls_entries_run es) with (o := 0%nat); try done; cbn; try lia |].
  - intros f Hfl. cbn in *. unfold fdset. rewrite (proj2 (Z.eqb_neq _ _)) by lia. apply Hf. lia.
  - cbv beta. intros _ s2 (E1 & E2 & E3 & E4 & E5). unfold wp. cbn [sys_close dsys_sys]. split_and!.
    + exact E4.
    + exact E1.
    + exact E2.
    + intros f. cbn. unfold fdset. destruct (Z.eqb_spec f (d_next s)) as [-> | Hne]; [symmetry; apply Hf; lia |].
      rewrite E3 by done. cbn. unfold fdset. by rewrite (proj2 (Z.eqb_neq _ _) Hne).
Qed.

(** The name in the line: the last element of the path, padded to 14 bytes. *)
Lemma after_slash_none (l : list Z) k : Forall (λ c, c ≠ 47) l → after_slash l k = O.
Proof.
  intros Hl. induction k as [| k IH]; cbn [after_slash]; rewrite (proj2 (Z.eqb_neq _ _)); try done;
    rewrite nth_lookup; destruct (l !! _) as [c |] eqn:E; cbn; try done; rewrite Forall_lookup in Hl; by eapply Hl.
Qed.

Lemma after_slash_last dir name k :
  Forall (λ c, c ≠ 47) name → (k ≤ length name)%nat → after_slash (dir ++ 47 :: name) (S (length dir + k)) = S (length dir).
Proof.
  intros Hn. induction k as [| k IH]; intros Hk.
  - rewrite Nat.add_0_r. cbn [after_slash].
    assert (E : nth (S (length dir)) (dir ++ 47 :: name) 0 ≠ 47).
    { rewrite app_nth2 by lia. replace (S (length dir) - length dir)%nat with 1%nat by lia. cbn.
      destruct name as [| c name]; cbn; [done |]. by apply Forall_cons in Hn as [? _]. }
    rewrite (proj2 (Z.eqb_neq _ _) E). destruct (length dir) as [| d] eqn:Ed; cbn [after_slash].
    + destruct dir; [done | discriminate].
    + rewrite app_nth2, Ed, Nat.sub_diag by lia. done.
  - assert (E : nth (S (length dir + S k)) (dir ++ 47 :: name) 0 ≠ 47).
    { rewrite app_nth2 by lia. replace (S (length dir + S k) - length dir)%nat with (S (S k)) by lia. cbn.
      rewrite nth_lookup. destruct (name !! _) as [c |] eqn:Ec; cbn; [| done]. rewrite Forall_lookup in Hn. by eapply Hn. }
    cbn [after_slash]. rewrite (proj2 (Z.eqb_neq _ _) E). rewrite Nat.add_succ_r. apply IH. lia.
Qed.

(** [fmtname] of a path is its last element, with blanks up to 14 bytes. *)
Theorem fmtname_last dir name :
  Forall (λ c, c ≠ 47) name →
  fmtname (dir ++ 47 :: name) = name ++ replicate (14 - length name) 32 ∧ fmtname name = name ++ replicate (14 - length name) 32.
Proof.
  intros Hn. assert (Hpad : (if (14 <=? length name)%nat then name else name ++ replicate (14 - length name) 32) =
                            name ++ replicate (14 - length name) 32).
  { destruct (Nat.leb_spec 14 (length name)) as [H | H]; [| done].
    replace (14 - length name)%nat with 0%nat by lia. by rewrite app_nil_r. }
  unfold fmtname. split.
  - rewrite length_app. cbn [length]. rewrite Nat.add_succ_r, after_slash_last by done.
    replace (drop (S (length dir)) (dir ++ 47 :: name)) with name; [exact Hpad |].
    rewrite drop_app. replace (S (length dir) - length dir)%nat with 1%nat by lia.
    by rewrite drop_ge by lia.
  - rewrite after_slash_none by done. rewrite drop_0. exact Hpad.
Qed.

(** [rm] removes its arguments up to the first that is not there. *)
Theorem rm_removes (argv gone : list (list Z)) (bad : option (list Z)) (rest : list (list Z)) (s : dsys) :
  argv = gone ++ match bad with Some b => b :: rest | None => [] end → argv ≠ [] → NoDup gone →
  Forall (λ a, d_stat s a ≠ None) gone → (∀ b, bad = Some b → b ∈ gone ∨ d_stat s b = None) →
  wp (rm_main argv) (λ _ s', ∀ q, d_stat s' q = if decide (q ∈ gone) then None else d_stat s q) s.
Proof.
  intros -> Hne Hnd Hg Hb. assert (Hrun : wp (each_arg sys_unlink (str "rm: %s failed to delete" ++ nl)
    (gone ++ match bad with Some b => b :: rest | None => [] end))
    (λ _ s', ∀ q, d_stat s' q = if decide (q ∈ gone) then None else d_stat s q) s).
  2: { unfold rm_main. by destruct (gone ++ _). }
  clear Hne. revert s Hg Hb. induction Hnd as [| a gone Ha Hnd IH]; intros s Hg Hb; cbn [app each_arg].
  - destruct bad as [b |]; cbn [each_arg]; [| by apply wp_ret].
    destruct (Hb b eq_refl) as [Hin | E]; [by apply not_elem_of_nil in Hin |].
    apply wp_bind. unfold wp at 1. cbn [sys_unlink dsys_calls]. rewrite E. change (-1 <? 0) with true. cbn iota.
    assert (P : prints 2 (str "rm: " ++ b ++ str " failed to delete" ++ [10])
              (printf 2 (str "rm: %s failed to delete" ++ nl) [Ptr (Some b)])).
    { unfold printf. change (str "rm: %s failed to delete" ++ nl) with (str "rm: " ++ [37; 115] ++ str " failed to delete" ++ [10]).
      cbn [str app]. prints. }
    unfold wp. rewrite P. done.
  - apply Forall_cons in Hg as [Hga Hg]. apply wp_bind. unfold wp at 1. cbn [sys_unlink dsys_calls].
    destruct (d_stat s a) as [x |] eqn:E; [| done]. change (0 <? 0) with false. cbn iota.
    eapply wp_mono; [apply IH |].
    + rewrite Forall_forall in *. intros q Hq. cbn. unfold nameset. rewrite decide_False by (intros ->; done). by apply Hg.
    + intros b Eb. cbn. unfold nameset. destruct (Hb b Eb) as [[-> | Hin]%elem_of_cons | Eq]; [| by left |].
      * right. by rewrite decide_True.
      * right. by case_decide.
    + cbv beta. intros _ s' H q. rewrite H. cbn. unfold nameset. destruct (decide (q = a)) as [-> | Hqa].
      * rewrite (decide_True (P := a ∈ a :: gone)) by (by left). by case_decide.
      * destruct (decide (q ∈ gone)); destruct (decide (q ∈ a :: gone)) as [H1 | H1]; try done.
        -- exfalso. apply H1. by right.
        -- apply elem_of_cons in H1 as [|]; done.
Qed.

(** [init] stays in its loop until the shell it started is gone: it collects the
    orphans that exit before, and none that exits after. *)
Theorem init_waits fuel orphans rest (s : dsys) :
  0 ≤ d_pid s → d_kids s = orphans ++ d_pid s :: rest → Forall (λ k, 0 ≤ k ∧ k ≠ d_pid s) orphans → (length orphans < fuel)%nat →
  wp (init_round fuel) (λ ok s', ok = true ∧ d_kids s' = rest) s.
Proof.
  intros Hp Hk Ho Hfu. unfold init_round.
  assert (P1 : prints 1 (str "init: starting sh" ++ [10]) (printf 1 (str "init: starting sh" ++ nl) []))
    by (unfold printf; cbn [str app nl]; prints).
  assert (P2 : prints 1 (str "zombie!" ++ [10]) (printf 1 (str "zombie!" ++ nl) []))
    by (unfold printf; cbn [str app nl]; prints).
  apply wp_bind. unfold wp at 1. rewrite P1. apply wp_bind. unfold wp at 1. cbn [sys_fork dsys_calls put_out d_pid].
  rewrite (proj2 (Z.ltb_ge _ _)) by lia. apply wp_bind.
  assert (Hw : ∀ s1, d_pid s1 = d_pid s → d_kids s1 = orphans ++ d_pid s :: rest →
    wp (init_wait fuel (d_pid s)) (λ _ s', d_kids s' = rest) s1).
  { clear P1 Hk. revert fuel Hfu. induction Ho as [| k orphans [Hk0 Hkp] Ho IH]; intros fuel Hfu s1 Ep Ek;
      (destruct fuel as [| fuel]; [cbn in Hfu; lia |]); cbn [init_wait app] in *; apply wp_bind; unfold wp at 1;
      cbn [sys_wait dsys_calls]; rewrite Ek, Z.geb_leb.
    - rewrite (proj2 (Z.leb_le _ _)), Z.eqb_refl by lia. by apply wp_ret.
    - rewrite (proj2 (Z.leb_le _ _)), (proj2 (Z.eqb_neq _ _)) by lia. cbn [andb negb]. apply wp_bind. unfold wp at 1. rewrite P2.
      apply IH; [cbn in Hfu; lia | done | done]. }
  eapply wp_mono; [apply Hw; done |]. cbv beta. intros _ s2 E. by apply wp_ret.
Qed.
