(* ===== verification/Grep.v ===== *)
(** * grep.c

    The matcher of Kernighan and Pike, on C strings: a pointer into a string is
    the list of bytes from there to the NUL, so that [re+1] is the tail of [re]
    and [re[0] == '\0'] the empty list.  [match_correct] shows that it decides
    the language of the pattern, read as a regular expression.  The loop of
    [grep] over its buffer is modelled with the buffer as it is, stale bytes
    included. *)

From stdpp Require Import base numbers list strings.
From Stdlib Require Import ZArith Lia.
From S2P Require Import Prelude CString User Printf Tools.

#[local] Open Scope Z_scope.

(** ** The matcher *)

(** [matchhere(re, text)] for the pattern after the star is [k] -- src/grep.c:98-105 *)
Fixpoint matchstar (c : Z) (k : list Z → bool) (text : list Z) : bool :=
  if k text then true else
  match text with
  | [] => false
  | t :: text => if (t =? c) || (c =? 46) then matchstar c k text else false
  end.

(** src/grep.c:84-95 *)
Fixpoint matchhere (re text : list Z) : bool :=
  match re with
  | [] => true
  | c :: re1 =>
      let single := match text with
                    | [] => false
                    | t :: text => if (c =? 46) || (c =? t) then matchhere re1 text else false
                    end in
      match re1 with
      | d :: re2 => if d =? 42 then matchstar c (matchhere re2) text else single
      | [] => if c =? 36 then match text with [] => true | _ => false end else single
      end
  end.

(** [do ... while( *text++ != '\0')] -- src/grep.c:76-80 *)
Fixpoint match_anywhere (re text : list Z) : bool :=
  if matchhere re text then true else
  match text with
  | [] => false
  | _ :: text => match_anywhere re text
  end.

(** [match] -- src/grep.c:71-81 *)
Definition re_match (re text : list Z) : bool :=
  match re with
  | c :: re1 => if c =? 94 then matchhere re1 text else match_anywhere re text
  | [] => match_anywhere re text
  end.

(** ** The loop over the input *)

(** [strchr(p, c)] in the buffer: [None] if there is no NUL before its end. *)
Fixpoint buf_chr (l : list Z) (c : Z) : option (option nat) :=
  match l with
  | [] => None
  | x :: l => if x =? 0 then Some None else if x =? c then Some (Some 0%nat) else
              match buf_chr l c with
              | Some (Some k) => Some (Some (Datatypes.S k))
              | r => r
              end
  end.

Section grep.
Context {S : Type} {SY : Sys S}.

(** The inner loop, from [p] on: the buffer after it and the last [p] -- src/grep.c:20-27 *)
Fixpoint grep_lines (fuel : nat) (pattern buf : list Z) (p : nat) : M S (list Z * nat) :=
  match fuel with
  | O => nofuel
  | Datatypes.S fuel =>
      match buf_chr (drop p buf) 10 with
      | None => fault "strchr reads past buf"
      | Some None => mret (buf, p)
      | Some (Some k) =>
          let q := (p + k)%nat in
          let buf := <[q := 0]> buf in
          if re_match pattern (until_nul (drop p buf)) then
            let buf := <[q := 10]> buf in
            sys_write 1 (slice p (q + 1 - p) buf);;
            grep_lines fuel pattern buf (q + 1)
          else grep_lines fuel pattern buf (q + 1)
      end
  end.

(** [memmove(buf, p, m)] inside the buffer. *)
Definition shift_down (buf : list Z) (p m : nat) : list Z := splice 0 (slice p m buf) buf.

(** The outer loop, with [m] bytes kept; [buf] is static -- src/grep.c:16-34 *)
Fixpoint grep_loop (fuel : nat) (pattern : list Z) (fd : Z) (m : nat) (buf : list Z) : M S (list Z) :=
  match fuel with
  | O => nofuel
  | Datatypes.S fuel =>
      r ← sys_read fd (1024 - m);
      if r.1 <=? 0 then mret buf else
      let buf := splice m r.2 buf in
      let m := (m + length r.2)%nat in
      x ← grep_lines 1025 pattern buf 0;
      let '(buf, p) := x in
      let m := if (p =? 0)%nat then 0%nat else m in
      if (0 <? m)%nat then grep_loop fuel pattern fd (m - p) (shift_down buf p (m - p))
      else grep_loop fuel pattern fd m buf
  end.

(** src/grep.c:10-35 *)
Definition grep (fuel : nat) (pattern : list Z) (fd : Z) (buf : list Z) : M S (list Z) :=
  grep_loop fuel pattern fd 0 buf.

(** src/grep.c:54-61 *)
Fixpoint grep_files (fuel : nat) (pattern : list Z) (argv : list (list Z)) (buf : list Z) : M S unit :=
  match argv with
  | [] => mret tt
  | a :: argv =>
      fd ← sys_open a 0;
      if fd <? 0 then printf 1 (str "grep: cannot open %s" ++ nl) [Ptr (Some a)]
      else
        buf ← grep fuel pattern fd buf;
        sys_close fd;;
        grep_files fuel pattern argv buf
  end.

(** [main]; the buffer is zero at start -- src/grep.c:37-63 *)
Definition grep_main (fuel : nat) (argv : list (list Z)) : M S unit :=
  match argv with
  | [] => printf 2 (str "usage: grep pattern [file ...]" ++ nl) []
  | [pattern] => grep fuel pattern 0 (replicate 1024 0);; mret tt
  | pattern :: argv => grep_files fuel pattern argv (replicate 1024 0)
  end.
End grep.

(** ** Regular expressions and what a pattern means *)

Inductive rx :=
  | REps
  | RChr (c : Z)
  | RDot
  | RCat (r1 r2 : rx)
  | RStar (r : rx).

Inductive lang : rx → list Z → Prop :=
  | lang_eps : lang REps []
  | lang_chr c : lang (RChr c) [c]
  | lang_dot c : lang RDot [c]
  | lang_cat r1 r2 w1 w2 : lang r1 w1 → lang r2 w2 → lang (RCat r1 r2) (w1 ++ w2)
  | lang_star_nil r : lang (RStar r) []
  | lang_star_cons r w1 w2 : lang r w1 → lang (RStar r) w2 → lang (RStar r) (w1 ++ w2).

Definition atom (c : Z) : rx := if c =? 46 then RDot else RChr c.

(** A pattern is a sequence of characters, each with an optional star; a dollar
    sign at the end anchors it there, and a caret at its start anchors it at
    the start.  Elsewhere both stand for themselves, as a star does at the start. *)
Fixpoint rx_of (re : list Z) : rx :=
  match re with
  | [] => REps
  | c :: re1 =>
      match re1 with
      | d :: re2 => if d =? 42 then RCat (RStar (atom c)) (rx_of re2) else RCat (atom c) (rx_of re1)
      | [] => if c =? 36 then REps else RCat (atom c) REps
      end
  end.

Fixpoint at_end (re : list Z) : bool :=
  match re with
  | [] => false
  | c :: re1 =>
      match re1 with
      | d :: re2 => if d =? 42 then at_end re2 else at_end re1
      | [] => c =? 36
      end
  end.

Definition at_start (re : list Z) : bool := match re with c :: _ => c =? 94 | [] => false end.
Definition body (re : list Z) : list Z := if at_start re then tail re else re.

(** [re] matches a part of [text] that begins it. *)
Definition prefix_of (re text : list Z) : Prop :=
  ∃ w post, text = w ++ post ∧ lang (rx_of re) w ∧ (at_end re = true → post = []).

(** ** Correctness of the matcher *)

Lemma lang_atom c w : lang (atom c) w ↔ ∃ t, w = [t] ∧ (c =? 46) || (c =? t) = true.
Proof.
  unfold atom. destruct (Z.eqb_spec c 46) as [->|Hc]; split.
  - inversion 1; subst. eauto.
  - intros (t & -> & _). constructor.
  - inversion 1; subst. exists c. by rewrite Z.eqb_refl.
  - intros (t & -> & E). simpl in E. apply Z.eqb_eq in E as ->. constructor.
Qed.

Lemma lang_cat_inv r1 r2 w : lang (RCat r1 r2) w ↔ ∃ w1 w2, w = w1 ++ w2 ∧ lang r1 w1 ∧ lang r2 w2.
Proof. split; [inversion 1; subst; eauto|]. intros (w1 & w2 & -> & H1 & H2). by constructor. Qed.

Lemma lang_star_atom c w : lang (RStar (atom c)) w ↔ Forall (λ t, (t =? c) || (c =? 46) = true) w.
Proof.
  split.
  - remember (RStar (atom c)) as r eqn:Er. induction 1 as [| | | |r|r w1 w2 H1 _ H2 IH]; try discriminate; [constructor|].
    injection Er as ->. apply lang_atom in H1 as (t & -> & Ht). apply Forall_app. split; [|by apply IH].
    apply Forall_singleton. by rewrite orb_comm, (Z.eqb_sym t c).
  - induction 1 as [|t w Ht _ IH]; [constructor|]. change (t :: w) with ([t] ++ w). constructor; [|done].
    apply lang_atom. exists t. by rewrite orb_comm, (Z.eqb_sym c t).
Qed.

Lemma matchstar_spec c k text :
  matchstar c k text = true ↔
  ∃ w post, text = w ++ post ∧ Forall (λ t, (t =? c) || (c =? 46) = true) w ∧ k post = true.
Proof.
  induction text as [|t text IH]; simpl.
  - split.
    + destruct (k []) eqn:E; [|done]. intros _. by exists [], [].
    + intros (w & post & E & _ & Hk). destruct w, post; try done. by rewrite Hk.
  - split.
    + destruct (k (t :: text)) eqn:E; [intros _; by exists [], (t :: text)|].
      destruct ((t =? c) || (c =? 46)) eqn:Et; [|done]. rewrite IH. intros (w & post & -> & Hw & Hk).
      exists (t :: w), post. split; [done|]. split; [by constructor|done].
    + intros (w & post & E & Hw & Hk). destruct w as [|t' w]; simpl in E.
      * subst post. by rewrite Hk.
      * injection E as -> ->. apply Forall_cons in Hw as [-> Hw]. case_match; [done|]. apply IH. by exists w, post.
Qed.

Lemma single_spec c re1 text :
  (∀ text, matchhere re1 text = true ↔ prefix_of re1 text) →
  match text with [] => false | t :: text => if (c =? 46) || (c =? t) then matchhere re1 text else false end = true ↔
  ∃ w post, text = w ++ post ∧ lang (RCat (atom c) (rx_of re1)) w ∧ (at_end re1 = true → post = []).
Proof.
  intros IH. split.
  - destruct text as [|t text]; [done|]. destruct ((c =? 46) || (c =? t)) eqn:E; [|done].
    rewrite IH. intros (w & post & -> & Hw & Hp). exists (t :: w), post. split_and!; [done| |done].
    apply lang_cat_inv. exists [t], w. split_and!; [done| |done]. apply lang_atom. eauto.
  - intros (w & post & -> & Hw & Hp). apply lang_cat_inv in Hw as (w1 & w2 & -> & H1 & H2).
    apply lang_atom in H1 as (t & -> & E). simpl. rewrite E. apply IH. by exists w2, post.
Qed.

Lemma matchhere_spec re text : matchhere re text = true ↔ prefix_of re text.
Proof.
  remember (length re) as n eqn:En. assert (Hn : (length re ≤ n)%nat) by lia. clear En. revert re text Hn.
  induction n as [|n IH]; intros re text Hn.
  all: destruct re as [|c re1]; [split; [intros _; exists [], text; repeat split; [constructor|done]|done]|].
  { simpl in Hn. lia. }
  simpl in Hn. unfold prefix_of. cbn [matchhere rx_of at_end]. cbv zeta.
  destruct re1 as [|d re2].
  - destruct (Z.eqb_spec c 36) as [->|Hc].
    + split.
      * destruct text; [|done]. intros _. exists [], []. repeat split. constructor.
      * intros (w & post & -> & Hw & Hp). inversion Hw. by rewrite (Hp eq_refl).
    + rewrite (single_spec c [] text) by (intros; apply IH; simpl; lia). done.
  - destruct (Z.eqb_spec d 42) as [->|Hd]; [|by rewrite (single_spec c (d :: re2) text) by (intros; apply IH; simpl in *; lia)].
    rewrite matchstar_spec. simpl in Hn. split.
    + intros (w1 & post & -> & H1 & H2). apply IH in H2 as (w2 & post2 & -> & H2 & H3); [|lia].
      exists (w1 ++ w2), post2. rewrite app_assoc. split_and!; [done| |done]. constructor; [by apply lang_star_atom|done].
    + intros (w & post & -> & Hw & Hp). apply lang_cat_inv in Hw as (w1 & w2 & -> & H1 & H2).
      exists w1, (w2 ++ post). rewrite app_assoc. split_and!; [done|by apply lang_star_atom|].
      apply IH; [lia|]. by exists w2, post.
Qed.

Lemma match_anywhere_spec re text :
  match_anywhere re text = true ↔ ∃ pre rest, text = pre ++ rest ∧ prefix_of re rest.
Proof.
  induction text as [|t text IH]; cbn [match_anywhere].
  - destruct (matchhere re []) eqn:E.
    + split; [|done]. intros _. exists [], []. split; [done|]. by apply matchhere_spec.
    + split; [done|]. intros (pre & rest & Eq & Hp). destruct pre, rest; try done. apply matchhere_spec in Hp. congruence.
  - destruct (matchhere re (t :: text)) eqn:E.
    + split; [|done]. intros _. exists [], (t :: text). split; [done|]. by apply matchhere_spec.
    + rewrite IH. split.
      * intros (pre & rest & -> & Hp). by exists (t :: pre), rest.
      * intros (pre & rest & Eq & Hp). destruct pre as [|t' pre]; simpl in Eq.
        -- subst rest. apply matchhere_spec in Hp. congruence.
        -- injection Eq as -> ->. by exists pre, rest.
Qed.

(** C35: The matcher decides the language of the pattern: [match] returns 1 exactly
    when the text has a part that is a word of the regular expression the
    pattern denotes, at the start of the text if the pattern begins with a
    caret and at its end if it ends with a dollar sign. *)
Theorem match_correct re text :
  re_match re text = true ↔
  ∃ pre w post, text = pre ++ w ++ post ∧ lang (rx_of (body re)) w ∧
    (at_start re = true → pre = []) ∧ (at_end (body re) = true → post = []).
Proof.
  unfold body. destruct (at_start re) eqn:Ha.
  - destruct re as [|c re]; [done|]. simpl in *. rewrite Ha, matchhere_spec. split.
    + intros (w & post & -> & Hw & Hp). by exists [], w, post.
    + intros (pre & w & post & -> & Hw & Hs & Hp). rewrite Hs by done. by exists w, post.
  - transitivity (match_anywhere re text = true); [destruct re as [|c re]; simpl in *; by rewrite ?Ha|].
    rewrite match_anywhere_spec. split.
    + intros (pre & rest & -> & w & post & -> & Hw & Hp). exists pre, w, post. done.
    + intros (pre & w & post & -> & Hw & _ & Hp). exists pre, (w ++ post). split; [done|]. by exists w, post.
Qed.

(** ** Files that fit in the buffer *)

Definition no_nl (l : list Z) : Prop := Forall (λ c, c ≠ 0 ∧ c ≠ 10) l.
Definition flat (lines : list (list Z)) : list Z := concat (map (λ l, l ++ [10]) lines).

Lemma buf_chr_found l rest : no_nl l → buf_chr (l ++ 10 :: rest) 10 = Some (Some (length l)).
Proof.
  induction 1 as [|c l [H0 H10] _ IH]; [done|]. simpl.
  rewrite (proj2 (Z.eqb_neq c 0)), (proj2 (Z.eqb_neq c 10)) by done. by rewrite IH.
Qed.

Lemma buf_chr_none l rest : no_nl l → buf_chr (l ++ 0 :: rest) 10 = Some None.
Proof.
  induction 1 as [|c l [H0 H10] _ IH]; [done|]. simpl.
  rewrite (proj2 (Z.eqb_neq c 0)), (proj2 (Z.eqb_neq c 10)) by done. by rewrite IH.
Qed.

Lemma until_nul_line l rest : no_nl l → until_nul (l ++ 0 :: rest) = l.
Proof.
  induction 1 as [|c l [H0 _] _ IH]; [done|]. simpl. rewrite (proj2 (Z.eqb_neq c 0)) by done. by rewrite IH.
Qed.

Lemma insert_mid (l rest : list Z) x v : <[length l := v]> (l ++ x :: rest) = l ++ v :: rest.
Proof. by rewrite insert_app_r_alt, Nat.sub_diag by lia. Qed.

Definition hits (pattern : list Z) (lines : list (list Z)) : list (Z * list Z) :=
  map (λ l, (1, l ++ [10])) (filter (λ l, re_match pattern l = true) lines).

(** One line of the buffer: what the newline becomes, and what is written. *)
Lemma grep_line fuel pattern seen l rest (s : ostate) (Q : list Z * nat → ostate → Prop) :
  no_nl l →
  (∀ nl' s', os_fds s' = os_fds s → os_out s' = os_out s ++ hits pattern [l] →
     wp (grep_lines fuel pattern ((seen ++ l ++ [nl']) ++ rest) (length (seen ++ l ++ [nl']))) Q s') →
  wp (grep_lines (Datatypes.S fuel) pattern (seen ++ l ++ 10 :: rest) (length seen)) Q s.
Proof.
  intros Hl HQ. cbn [grep_lines]. rewrite drop_app_length, buf_chr_found by done. cbv zeta.
  rewrite <- length_app, (app_assoc seen l), insert_mid, <- (app_assoc seen l), drop_app_length, until_nul_line by done.
  assert (E : ∀ v, seen ++ l ++ v :: rest = (seen ++ l ++ [v]) ++ rest) by (intros; by rewrite <- !app_assoc).
  assert (L : ∀ v, (length (seen ++ l) + 1)%nat = length (seen ++ l ++ [v])) by (intros; rewrite !length_app; simpl; lia).
  destruct (re_match pattern l) eqn:Em.
  - rewrite (app_assoc seen l), insert_mid, <- (app_assoc seen l). apply wp_bind. unfold wp at 1. cbn [sys_write os_sys].
    rewrite (L 10), E. apply HQ; [done|]. cbn [os_out]. do 2 f_equal. unfold hits. rewrite filter_cons_True by done. simpl. do 2 f_equal.
    rewrite <- !app_assoc. unfold slice. rewrite drop_app_length, !length_app. simpl.
    replace (length seen + (length l + 1) - length seen)%nat with (length (l ++ [10])) by (rewrite length_app; simpl; lia).
    change (l ++ 10 :: rest) with (l ++ [10] ++ rest). by rewrite (app_assoc l [10]), take_app_length.
  - rewrite (L 0), E. apply HQ; [done|]. unfold hits. rewrite filter_cons_False by (rewrite Em; congruence). by rewrite app_nil_r.
Qed.

Lemma grep_lines_run pattern lines seen rest z (s : ostate) fuel (Q : list Z * nat → ostate → Prop) :
  Forall no_nl lines → no_nl rest → (length lines < fuel)%nat →
  (∀ seen' s', length seen' = (length seen + length (flat lines))%nat → os_fds s' = os_fds s →
     os_out s' = os_out s ++ hits pattern lines → Q (seen' ++ rest ++ 0 :: z, length seen') s') →
  wp (grep_lines fuel pattern (seen ++ flat lines ++ rest ++ 0 :: z) (length seen)) Q s.
Proof.
  intros Hl Hr. revert seen s fuel. induction Hl as [|l lines Hl _ IH]; intros seen s fuel Hf HQ.
  - destruct fuel as [|fuel]; [simpl in Hf; lia|]. cbn [grep_lines flat map concat app].
    rewrite drop_app_length, buf_chr_none by done. apply wp_ret. apply HQ; [simpl; lia|done|by rewrite app_nil_r].
  - destruct fuel as [|fuel]; [simpl in Hf; lia|]. simpl in Hf. unfold flat. cbn [map concat]. fold (flat lines).
    rewrite <- !app_assoc. cbn [app]. apply grep_line; [done|]. intros v s' Hs Ho.
    apply IH; [lia|]. intros seen' s2 Hl2 Hs2 Ho2. apply HQ.
    + rewrite Hl2. unfold flat. cbn [map concat]. rewrite !length_app. simpl. lia.
    + by rewrite Hs2.
    + rewrite Ho2, Ho, <- app_assoc. f_equal. unfold hits. by rewrite <- map_app, <- filter_app.
Qed.

Lemma flat_length lines : (length lines ≤ length (flat lines))%nat.
Proof. induction lines; simpl; [done|]. unfold flat in *. simpl. rewrite !length_app. simpl. lia. Qed.

(** [grep] of a file smaller than its buffer prints exactly the lines of the
    file that match the pattern, in order; what follows the last newline is
    not looked at. *)
Theorem grep_small_file pattern fd lines rest (s : ostate) fuel :
  os_fds s fd = Some (mkStream (flat lines ++ rest) [] false) →
  Forall no_nl lines → no_nl rest → (length (flat lines ++ rest) < 1024)%nat → (2 ≤ fuel)%nat →
  wp (grep fuel pattern fd (replicate 1024 0)) (λ _ s', os_out s' = os_out s ++ hits pattern lines) s.
Proof.
  intros Hf Hl Hr Hn Hfu. destruct fuel as [|[|fuel]]; [lia..|]. unfold grep. cbn [grep_loop]. apply wp_bind.
  destruct (decide (flat lines ++ rest = [])) as [E|E].
  { eapply os_read_end; [done|done|]. intros s' _ Ho. cbn. destruct lines as [|l ls]; [by rewrite Ho, app_nil_r|].
    pose proof (flat_length (l :: ls)) as Hfl. apply app_eq_nil in E as [E _]. rewrite E in Hfl. simpl in Hfl. lia. }
  set (data := flat lines ++ rest) in *.
  unfold wp at 1. cbn [sys_read os_sys]. rewrite Hf. unfold stream_read. cbn [st_data st_sizes st_fails].
  destruct data as [|d ds] eqn:Ed; [done|]. rewrite <- Ed in *.
  rewrite take_ge, drop_ge by lia. cbn [fst snd].
  assert (Hpos : (0 < length data)%nat) by (rewrite Ed; simpl; lia).
  rewrite (proj2 (Z.leb_gt _ _)) by lia. cbv zeta. rewrite Nat.add_0_l.
  assert (Hbuf : splice 0 data (replicate 1024 0) = [] ++ flat lines ++ rest ++ 0 :: replicate (1024 - length data - 1) 0).
  { unfold splice. rewrite take_0, drop_replicate, Nat.add_0_l. subst data. rewrite <- (app_assoc (flat lines)).
    by replace (1024 - length (flat lines ++ rest))%nat with (S (1024 - length (flat lines ++ rest) - 1)) at 1 by lia. }
  rewrite Hbuf. apply wp_bind. change 0%nat with (length (@nil Z)) at 2.
  apply grep_lines_run; [done|done|pose proof (flat_length lines); subst data; rewrite length_app in Hn; lia|].
  intros seen' s' Hl' Hs' Ho'. cbn [length] in Hl'. rewrite Nat.add_0_l in Hl'. cbn beta iota zeta.
  assert (Hfd : os_fds s' fd = Some (mkStream [] [] false)) by (rewrite Hs'; cbn; unfold fd_upd; by rewrite Z.eqb_refl).
  assert (Hend : ∀ m buf, wp (grep_loop (Datatypes.S fuel) pattern fd m buf) (λ _ s2, os_out s2 = os_out s ++ hits pattern lines) s').
  { intros m buf. cbn [grep_loop]. apply wp_bind. eapply os_read_end; [done|done|]. intros s2 _ Ho2. cbn. by rewrite Ho2, Ho'. }
  case_match; apply Hend.
Qed.

Lemma grep_small_file_witness :
  let s := mkOs (λ _, Some (mkStream (str "abc" ++ nl ++ str "xyz" ++ nl ++ str "abd" ++ nl) [] false)) (λ _, None) 3 [] in
  wp (grep 2 (str "^a.*d$") 0 (replicate 1024 0)) (λ _ s', os_out s' = [(1, str "abd" ++ nl)]) s.
Proof.
  intros s. apply (grep_small_file (str "^a.*d$") 0 [str "abc"; str "xyz"; str "abd"] [] s 2).
  - reflexivity.
  - repeat (apply Forall_cons; split; [apply (bool_decide_unpack _); vm_compute; exact I|]). apply Forall_nil_2.
  - apply Forall_nil_2.
  - vm_compute. lia.
  - lia.
Defined.

(** The buffer is not cleared: when a read is shorter than the bytes that are
    still in the buffer from the one before, [grep] takes those for input.  Of
    the two lines "aaa" and "bc" it prints, for the pattern "a", the first and
    two that are not there, "bca" and "ca". *)
Example grep_takes_stale_bytes :
  let s := mkOs (λ _, Some (mkStream (str "aaa" ++ nl ++ str "bc" ++ nl) [5%nat; 1%nat; 1%nat] false)) (λ _, None) 3 [] in
  match grep 10 (str "a") 0 (replicate 1024 0) s with
  | Ok _ s' => os_out s' = [(1, str "aaa" ++ nl); (1, str "bca" ++ nl); (1, str "ca" ++ nl)]
  | _ => False
  end.
Proof. vm_compute. reflexivity. Qed.
