(* ===== verification/Sh.v ===== *)
(** * The shell's parser (sh.c)

    The recursive-descent parser of sh.c on a line of input.  The line is the
    list of its bytes before the NUL, a [char *] into it is an index, [es] is its
    length, and [*ps] is the state of the monad.  Commands hold the places of
    their words, as the structures of sh.c do; [nulterminate] stores NULs into
    the line, after which the words are C strings.  A call of [panic], which
    prints its message and exits, is the outcome [Panic]. *)

From stdpp Require Import base numbers list strings.
From Stdlib Require Import ZArith Lia.
From S2P Require Import Prelude CString User Printf.

#[local] Open Scope Z_scope.

(** src/sh.c:14-14 *)
Definition MAXARGS : nat := 10.

(** A word of the line: its first byte and the one after its last. *)
Definition span : Type := nat * nat.

(** The structures of a parsed command, for a representation [W] of words -- src/sh.c:16-50 *)
Inductive cmd_of (W : Type) :=
  | EXEC (argv : list W)
  | REDIR (c : cmd_of W) (file : W) (mode fd : Z)
  | PIPE (left right : cmd_of W)
  | LIST (left right : cmd_of W)
  | BACK (c : cmd_of W).
Arguments EXEC {W} argv.
Arguments REDIR {W} c file mode fd.
Arguments PIPE {W} left right.
Arguments LIST {W} left right.
Arguments BACK {W} c.

(** What the parser builds: commands whose words are places in the line. *)
Definition cmd : Type := cmd_of span.

(** ** Constructors *)

(** src/sh.c:196-205 *)
Definition execcmd : cmd := EXEC [].
(** src/sh.c:207-221 *)
Definition redircmd (subcmd : cmd) (file : span) (mode fd : Z) : cmd := REDIR subcmd file mode fd.
(** src/sh.c:223-234 *)
Definition pipecmd (left right : cmd) : cmd := PIPE left right.
(** src/sh.c:236-247 *)
Definition listcmd (left right : cmd) : cmd := LIST left right.
(** src/sh.c:249-259 *)
Definition backcmd (subcmd : cmd) : cmd := BACK subcmd.

(** ** Tokens *)

(** src/sh.c:263-263 *)
Definition whitespace : list Z := [32; 9; 13; 10; 11].
(** src/sh.c:264-264 *)
Definition symbols : list Z := str "<|>&;()".

Definition is_ws (c : Z) : bool := bool_decide (c ∈ whitespace).
Definition is_sym (c : Z) : bool := bool_decide (c ∈ symbols).

(** How many of the bytes are white space; how many belong to a word. *)
Fixpoint ws_len (l : list Z) : nat :=
  match l with c :: l => if is_ws c then S (ws_len l) else 0%nat | [] => 0%nat end.
Fixpoint word_len (l : list Z) : nat :=
  match l with c :: l => if negb (is_ws c) && negb (is_sym c) then S (word_len l) else 0%nat | [] => 0%nat end.

Section parser.
Context (b : list Z).

(** [while(s < es && strchr(whitespace, *s)) s++] -- src/sh.c:273-274 *)
Definition skip (s : nat) : nat := (s + ws_len (drop s b))%nat.

(** [*s]; the line ends in a NUL. *)
Definition at_ (s : nat) : Z := nth s b 0.

(** The token, where it starts and where it ends -- src/sh.c:266-309 *)
Definition gettoken : M nat (Z * span) := λ s,
  let s := skip s in
  let q := s in
  let '(ret, s) :=
    if at_ s =? 0 then (0, s)
    else if bool_decide (at_ s ∈ str "|();&<") then (at_ s, (s + 1)%nat)
    else if at_ s =? 62 then
      if at_ (s + 1) =? 62 then (43, (s + 2)%nat) else (62, (s + 1)%nat)
    else (97, (s + word_len (drop s b))%nat) in
  Ok (ret, (q, s)) (skip s).

(** src/sh.c:311-321 *)
Definition peek (toks : list Z) : M nat bool := λ s,
  let s := skip s in
  Ok (negb (at_ s =? 0) && bool_decide (at_ s ∈ toks)) s.

(** ** Parsing *)

(** src/sh.c:375-398 *)
Fixpoint parseredirs (fuel : nat) (c : cmd) : M nat cmd :=
  match fuel with
  | O => nofuel
  | S fuel =>
      p ← peek (str "<>");
      if negb p then mret c else
      t ← gettoken;
      f ← gettoken;
      if negb (f.1 =? 97) then panic "missing file for redirection"
      else if t.1 =? 60 then parseredirs fuel (redircmd c f.2 O_RDONLY 0)
      else if t.1 =? 62 then parseredirs fuel (redircmd c f.2 (Z.lor O_WRONLY O_CREATE) 1)
      else if t.1 =? 43 then parseredirs fuel (redircmd c f.2 (Z.lor O_WRONLY O_CREATE) 1)
      else parseredirs fuel c
  end.

(** [cmd->argv[argc] = q; cmd->eargv[argc] = eq]: [cmd] is the [execcmd] node
    inside [ret], which redirections may have been wrapped around -- src/sh.c:437-439 *)
Fixpoint add_arg (ret : cmd) (a : span) : cmd :=
  match ret with
  | EXEC argv => EXEC (argv ++ [a])
  | REDIR c file mode fd => REDIR (add_arg c a) file mode fd
  | c => c
  end.

(** src/sh.c:432-443 *)
Fixpoint exec_loop (fuel : nat) (ret : cmd) (argc : nat) : M nat cmd :=
  match fuel with
  | O => nofuel
  | S fuel =>
      p ← peek (str "|)&;");
      if p : bool then mret ret else
      t ← gettoken;
      if t.1 =? 0 then mret ret
      else if negb (t.1 =? 97) then panic "syntax"
      else
        let ret := add_arg ret t.2 in
        let argc := (argc + 1)%nat in
        if (MAXARGS <=? argc)%nat then panic "too many args" else
        ret ← parseredirs fuel ret;
        exec_loop fuel ret argc
  end.

(** [while(peek(ps, es, "&"))] -- src/sh.c:351-354 *)
Fixpoint back_loop (fuel : nat) (c : cmd) : M nat cmd :=
  match fuel with
  | O => nofuel
  | S fuel =>
      p ← peek (str "&");
      if p : bool then gettoken;; back_loop fuel (backcmd c) else mret c
  end.

(** src/sh.c:400-414 *)
Definition parseblock (fuel : nat) (parseline : M nat cmd) : M nat cmd :=
  p ← peek (str "(");
  if negb p then panic "parseblock" else
  gettoken;;
  c ← parseline;
  p ← peek (str ")");
  if negb p then panic "syntax - missing )" else
  gettoken;;
  parseredirs fuel c.

(** src/sh.c:416-447 *)
Definition parseexec (fuel : nat) (parseline : M nat cmd) : M nat cmd :=
  p ← peek (str "(");
  if p : bool then parseblock fuel parseline else
  ret ← parseredirs fuel execcmd;
  exec_loop fuel ret 0.

(** src/sh.c:362-373 *)
Fixpoint parsepipe (fuel : nat) (parseline : M nat cmd) : M nat cmd :=
  match fuel with
  | O => nofuel
  | S fuel =>
      c ← parseexec fuel parseline;
      p ← peek (str "|");
      if p : bool then
        gettoken;;
        c2 ← parsepipe fuel parseline;
        mret (pipecmd c c2)
      else mret c
  end.

(** src/sh.c:345-360 *)
Fixpoint parseline (fuel : nat) : M nat cmd :=
  match fuel with
  | O => nofuel
  | S fuel =>
      c ← parsepipe fuel (parseline fuel);
      c ← back_loop fuel c;
      p ← peek (str ";");
      if p : bool then
        gettoken;;
        c2 ← parseline fuel;
        mret (listcmd c c2)
      else mret c
  end.

(** The places [nulterminate] stores a NUL at, in order -- src/sh.c:450-494 *)
Fixpoint nul_places (c : cmd) : list nat :=
  match c with
  | EXEC argv => map snd argv
  | REDIR c file _ _ => nul_places c ++ [file.2]
  | PIPE l r => nul_places l ++ nul_places r
  | LIST l r => nul_places l ++ nul_places r
  | BACK c => nul_places c
  end.

(** The text of a message. *)
Definition text (l : list Z) : string :=
  String.string_of_list_ascii (map (λ c, Ascii.ascii_of_N (Z.to_N c)) l).
End parser.

(** [nulterminate]: the line, with its own NUL, after the stores -- src/sh.c:449-494 *)
Definition nulterminate (b : list Z) (c : cmd) : list Z :=
  fold_left (λ l k, <[k := 0]> l) (nul_places c) (b ++ [0]).

(** The command and the line it points into -- src/sh.c:328-343 *)
Definition parsecmd (fuel : nat) (b : list Z) : M nat (cmd * list Z) :=
  c ← parseline b fuel;
  peek b [];;
  s ← get;
  if negb (s =? length b)%nat then
    panic (text (str "leftovers: " ++ drop s b ++ [10] ++ str "syntax"))
  else mret (c, nulterminate b c).

(** ** Words *)

Fixpoint spans {W} (c : cmd_of W) : list W :=
  match c with
  | EXEC argv => argv
  | REDIR c file _ _ => spans c ++ [file]
  | PIPE l r => spans l ++ spans r
  | LIST l r => spans l ++ spans r
  | BACK c => spans c
  end.

(** The command with its words read. *)
Fixpoint cmd_map {V W} (f : V → W) (c : cmd_of V) : cmd_of W :=
  match c with
  | EXEC argv => EXEC (map f argv)
  | REDIR c file mode fd => REDIR (cmd_map f c) (f file) mode fd
  | PIPE l r => PIPE (cmd_map f l) (cmd_map f r)
  | LIST l r => LIST (cmd_map f l) (cmd_map f r)
  | BACK c => BACK (cmd_map f c)
  end.

(** The C string a word points at. *)
Definition word_at (l : list Z) (a : span) : list Z := until_nul (drop a.1 l).

(** The bytes of the line a word stands for. *)
Definition slice_of (b : list Z) (a : span) : list Z := slice a.1 (a.2 - a.1) b.

Definition is_word (c : Z) : bool := negb (c =? 0) && negb (is_ws c) && negb (is_sym c).

(** A word that extends as far as it can. *)
Definition span_ok (b : list Z) (a : span) : Prop :=
  (a.1 < a.2 ≤ length b)%nat ∧ (∀ k, (a.1 ≤ k < a.2)%nat → is_word (nth k b 0) = true) ∧ is_word (nth a.2 b 0) = false.

(** ** Outcomes of the parser

    It returns, or exits with a message. *)
Definition exits_or {S A} (m : M S A) (Q : A → S → Prop) (s : S) : Prop :=
  match m s with Ok a s' => Q a s' | Panic _ => True | _ => False end.

Section exits_or.
Context {S A B : Type}.

Lemma exits_bind (m : M S A) (f : A → M S B) Q s :
  exits_or m (λ a s', exits_or (f a) Q s') s → exits_or (m ≫= f) Q s.
Proof. unfold exits_or, mbind, M_bind. by destruct (m s). Qed.

Lemma exits_mono (m : M S A) (Q R : A → S → Prop) s :
  exits_or m Q s → (∀ a s', Q a s' → R a s') → exits_or m R s.
Proof. unfold exits_or. destruct (m s); auto. Qed.

Lemma exits_ret (a : A) (Q : A → S → Prop) s : Q a s → exits_or (mret a) Q s.
Proof. done. Qed.

Lemma exits_panic msg (Q : A → S → Prop) s : exits_or (panic msg) Q s.
Proof. done. Qed.

Lemma exits_if (c : bool) (m1 m2 : M S A) Q s :
  (c = true → exits_or m1 Q s) → (c = false → exits_or m2 Q s) → exits_or (if c then m1 else m2) Q s.
Proof. destruct c; auto. Qed.
End exits_or.

(** ** The lexer *)

Lemma ws_len_le l : (ws_len l ≤ length l)%nat.
Proof. induction l as [|c l IH]; simpl; [done|]. case_match; lia. Qed.

Lemma word_len_le l : (word_len l ≤ length l)%nat.
Proof. induction l as [|c l IH]; simpl; [done|]. case_match; lia. Qed.

Lemma word_len_spec l k : (k < word_len l)%nat → negb (is_ws (nth k l 0)) && negb (is_sym (nth k l 0)) = true.
Proof.
  revert k. induction l as [|c l IH]; intros k Hk; simpl in *; [lia|].
  destruct (negb (is_ws c) && negb (is_sym c)) eqn:E; [|lia]. destruct k; [done|]. apply IH. lia.
Qed.

Lemma word_len_end l : (word_len l < length l)%nat → is_word (nth (word_len l) l 0) = false.
Proof.
  induction l as [|c l IH]; simpl; [lia|]. destruct (negb (is_ws c) && negb (is_sym c)) eqn:E.
  - intros. simpl. apply IH. lia.
  - intros _. unfold is_word. rewrite <- andb_assoc, E. apply andb_false_r.
Qed.

Lemma nth_drop (l : list Z) n k : nth k (drop n l) 0 = nth (n + k) l 0.
Proof. by rewrite !nth_lookup, lookup_drop. Qed.

Section lexer.
Context (b : list Z) (Hb : Forall (λ c, c ≠ 0) b).

Lemma at_nonzero s : (s < length b)%nat → at_ b s ≠ 0.
Proof.
  intros Hs. unfold at_. rewrite nth_lookup. destruct (lookup_lt_is_Some_2 b s Hs) as [c E]. rewrite E. simpl.
  exact (Forall_lookup_1 _ _ _ _ Hb E).
Qed.

Lemma at_end_zero s : (length b ≤ s)%nat → at_ b s = 0.
Proof. intros. apply nth_overflow. done. Qed.

Lemma skip_range s : (s ≤ length b)%nat → (s ≤ skip b s ≤ length b)%nat.
Proof. intros. unfold skip. pose proof (ws_len_le (drop s b)) as H1. rewrite length_drop in H1. lia. Qed.

Lemma ws_len_stop l : (ws_len l < length l)%nat → is_ws (nth (ws_len l) l 0) = false.
Proof. induction l as [|c l IH]; simpl; [lia|]. destruct (is_ws c) eqn:E; [|done]. intros. apply IH. lia. Qed.

Lemma skip_stop s : (skip b s < length b)%nat → is_ws (at_ b (skip b s)) = false.
Proof.
  unfold skip, at_. rewrite <- nth_drop. intros H. apply ws_len_stop. rewrite length_drop. lia.
Qed.

Lemma word_span s :
  (s < length b)%nat → is_word (at_ b s) = true → span_ok b (s, s + word_len (drop s b))%nat.
Proof.
  intros Hs Hw. pose proof (word_len_le (drop s b)) as Hle. rewrite length_drop in Hle.
  assert (Hpos : (0 < word_len (drop s b))%nat).
  { unfold at_ in Hw. rewrite <- (Nat.add_0_r s), <- nth_drop in Hw. destruct (drop s b) as [|c l] eqn:E.
    - apply (f_equal length) in E. rewrite length_drop in E. simpl in E. lia.
    - simpl in *. unfold is_word in Hw. rewrite <- andb_assoc in Hw. apply andb_true_iff in Hw as [_ ->]. lia. }
  split_and!; cbn [fst snd]; [lia|lia| |].
  - intros k Hk. pose proof (word_len_spec (drop s b) (k - s)) as H1. rewrite nth_drop in H1.
    replace (s + (k - s))%nat with k in H1 by lia. unfold is_word. rewrite <- andb_assoc. rewrite H1 by lia.
    pose proof (at_nonzero k) as H2. unfold at_ in H2. rewrite (proj2 (Z.eqb_neq _ _)) by (apply H2; lia). done.
  - destruct (decide (s + word_len (drop s b) = length b)%nat) as [E|E].
    + rewrite E. by rewrite nth_overflow by lia.
    + rewrite <- nth_drop. apply word_len_end. rewrite length_drop. lia.
Qed.

Lemma not_symbol c : c ∉ str "|();&<" → c ≠ 62 → c ∉ symbols.
Proof.
  intros H1 H2 Hin. apply H1. change symbols with [60; 124; 62; 38; 59; 40; 41] in Hin.
  change (str "|();&<") with [124; 40; 41; 59; 38; 60]. apply list_elem_of_In in Hin. apply list_elem_of_In.
  simpl in *. intuition congruence.
Qed.

Lemma in_symbols c : c ∈ str "|();&<" → c ∈ symbols.
Proof.
  intros H1. change (str "|();&<") with [124; 40; 41; 59; 38; 60] in H1. change symbols with [60; 124; 62; 38; 59; 40; 41].
  apply list_elem_of_In in H1. apply list_elem_of_In. simpl in *. intuition.
Qed.

(** A token: it moves on unless the line is at its end, and a word is one. *)
Lemma gettoken_spec s (Q : Z * span → nat → Prop) :
  (s ≤ length b)%nat →
  (∀ r a s', (s ≤ s' ≤ length b)%nat → ((s < length b)%nat ∨ r ≠ 0 → (s < s')%nat) → (r = 97 → span_ok b a) → Q (r, a) s') →
  exits_or (gettoken b) Q s.
Proof.
  intros Hs HQ. unfold exits_or, gettoken. cbv zeta. pose proof (skip_range s Hs) as H1. set (s1 := skip b s) in *.
  destruct (Z.eqb_spec (at_ b s1) 0) as [E0|E0].
  { assert (length b ≤ s1)%nat.
    { destruct (decide (s1 < length b)%nat) as [Hlt|]; [|lia]. by destruct (at_nonzero s1 Hlt). }
    pose proof (skip_range s1) as H2. apply HQ; [lia|intros [?|?]; [lia|done]|done]. }
  assert (Hlt : (s1 < length b)%nat).
  { destruct (decide (s1 < length b)%nat); [done|]. destruct E0. apply at_end_zero. lia. }
  pose proof (skip_range (s1 + 1)) as H2. case_bool_decide as Em.
  { apply HQ; [lia|lia|]. intros E. rewrite E in Em. apply (bool_decide_eq_true_2 (97 ∈ str "|();&<")) in Em. vm_compute in Em. discriminate. }
  destruct (Z.eqb_spec (at_ b s1) 62) as [E62|E62].
  { destruct (Z.eqb_spec (at_ b (s1 + 1)) 62) as [E2|E2]; [|apply HQ; [lia|lia|done]].
    assert (s1 + 1 < length b)%nat.
    { destruct (decide (s1 + 1 < length b)%nat); [done|]. rewrite at_end_zero in E2 by lia. done. }
    pose proof (skip_range (s1 + 2)) as H3. apply HQ; [lia|lia|done]. }
  assert (Hw : span_ok b (s1, s1 + word_len (drop s1 b))%nat).
  { apply word_span; [done|]. unfold is_word. rewrite (proj2 (Z.eqb_neq _ _)) by done.
    pose proof (skip_stop s Hlt) as Hws. fold s1 in Hws. rewrite Hws. simpl. apply negb_true_iff. unfold is_sym.
    apply bool_decide_eq_false. by apply not_symbol. }
  pose proof Hw as ((Hw1 & Hw2) & _). cbn [fst snd] in Hw1, Hw2. pose proof (skip_range _ Hw2) as H3.
  apply HQ; [lia|lia|done].
Qed.

Lemma peek_spec toks s (Q : bool → nat → Prop) :
  (s ≤ length b)%nat →
  (∀ p s', (s ≤ s' ≤ length b)%nat → (p = true → s' < length b)%nat → Q p s') →
  exits_or (peek b toks) Q s.
Proof.
  intros Hs HQ. unfold exits_or, peek. cbv zeta. pose proof (skip_range s Hs) as H1. apply HQ; [done|].
  intros E. apply andb_true_iff in E as [E _]. destruct (decide (skip b s < length b)%nat); [done|].
  by rewrite at_end_zero in E by lia.
Qed.
End lexer.
