(* ===== verification/ShParse.v ===== *)
(** * The shell's parser: theorems

    For every line, the parser returns or exits with a message, and the words
    of the command it returns are C strings after [nulterminate]; for every
    command tree, the line [print] gives for it is parsed back to it. *)

From stdpp Require Import base numbers list strings.
From Stdlib Require Import ZArith Lia.
From S2P Require Import Prelude CString User Printf Sh.

#[local] Open Scope Z_scope.

Section total.
Context (b : list Z) (Hb : Forall (λ c, c ≠ 0) b).

(** What a parsing function started at [s] returns. *)
Definition parsed (s : nat) (c : cmd) (s' : nat) : Prop :=
  (s ≤ s' ≤ length b)%nat ∧ Forall (span_ok b) (spans c).

Lemma parsed_later s1 s2 c s' : (s1 ≤ s2)%nat → parsed s2 c s' → parsed s1 c s'.
Proof. unfold parsed. intros ? [? ?]. split; [lia|done]. Qed.

Lemma spans_add_arg c a : Forall (span_ok b) (spans c) → span_ok b a → Forall (span_ok b) (spans (add_arg c a)).
Proof.
  intros Hc Ha. induction c as [l|c IH f m d|l IHl r IHr|l IHl r IHr|c IH]; cbn [spans add_arg] in *; try done.
  - apply Forall_app. split; [done|]. by apply Forall_singleton.
  - apply Forall_app in Hc as [Hc Hf]. apply Forall_app. split; [by apply IH|done].
Qed.

Lemma parseredirs_total fuel c s :
  (s ≤ length b)%nat → (length b - s < fuel)%nat → Forall (span_ok b) (spans c) →
  exits_or (parseredirs b fuel c) (parsed s) s.
Proof.
  revert c s. induction fuel as [|fuel IH]; intros c s Hs Hf Hc; [lia|]. cbn [parseredirs].
  apply exits_bind, (peek_spec b); [done|]. intros p s1 H1 Hp.
  apply exits_if; [intros _; by apply exits_ret|]. intros Ep. apply negb_false_iff in Ep. specialize (Hp Ep).
  apply exits_bind, (gettoken_spec b Hb); [lia|]. intros t a1 s2 H2 Hlt _.
  apply exits_bind, (gettoken_spec b Hb); [lia|]. intros r a s3 H3 _ Ha.
  apply exits_if; [intros _; apply exits_panic|]. intros Er. apply negb_false_iff, Z.eqb_eq in Er. cbn [fst snd] in *.
  assert (Hnew : ∀ m d, exits_or (parseredirs b fuel (redircmd c a m d)) (parsed s) s3).
  { intros m d. eapply exits_mono; [apply IH; [lia|lia|]|].
    - cbn [spans redircmd]. apply Forall_app. split; [done|]. apply Forall_singleton. by apply Ha.
    - intros c' s'. apply parsed_later. lia. }
  repeat (apply exits_if; intros _; [apply Hnew|]). eapply exits_mono; [apply IH; [lia|lia|done]|].
  intros c' s'. apply parsed_later. lia.
Qed.

Lemma exec_loop_total fuel ret argc s :
  (s ≤ length b)%nat → (length b - s < fuel)%nat → Forall (span_ok b) (spans ret) →
  exits_or (exec_loop b fuel ret argc) (parsed s) s.
Proof.
  revert ret argc s. induction fuel as [|fuel IH]; intros ret argc s Hs Hf Hc; [lia|]. cbn [exec_loop].
  apply exits_bind, (peek_spec b); [done|]. intros p s1 H1 Hp.
  apply exits_if; [intros _; by apply exits_ret|]. intros _.
  apply exits_bind, (gettoken_spec b Hb); [lia|]. intros t a s2 H2 Hlt Ha. cbn [fst snd].
  apply exits_if; [intros _; apply exits_ret; split; [lia|done]|]. intros Et. apply Z.eqb_neq in Et.
  apply exits_if; [intros _; apply exits_panic|]. intros Ew. apply negb_false_iff, Z.eqb_eq in Ew. cbv zeta.
  apply exits_if; [intros _; apply exits_panic|]. intros _.
  apply exits_bind. eapply exits_mono; [apply parseredirs_total; [lia|lia|by apply spans_add_arg; [|apply Ha]]|].
  intros c s3 [H3 Hc3]. eapply exits_mono; [apply IH; [lia|lia|done]|]. intros c' s'. apply parsed_later. lia.
Qed.

Lemma back_loop_total fuel c s :
  (s ≤ length b)%nat → (length b - s < fuel)%nat → Forall (span_ok b) (spans c) →
  exits_or (back_loop b fuel c) (parsed s) s.
Proof.
  revert c s. induction fuel as [|fuel IH]; intros c s Hs Hf Hc; [lia|]. cbn [back_loop].
  apply exits_bind, (peek_spec b); [done|]. intros p s1 H1 Hp.
  apply exits_if; [|intros _; by apply exits_ret]. intros Ep. specialize (Hp Ep).
  apply exits_bind, (gettoken_spec b Hb); [lia|]. intros t a s2 H2 Hlt _.
  eapply exits_mono; [apply IH; [lia|lia|done]|]. intros c' s'. apply parsed_later. lia.
Qed.

(** What the other functions are given as [parseline]. *)
Definition line_total (F : nat) (pl : M nat cmd) : Prop :=
  ∀ s, (s ≤ length b)%nat → (length b - s + 3 ≤ F)%nat → exits_or pl (parsed s) s.

Lemma parseexec_total fuel F pl s :
  line_total F pl → (s ≤ length b)%nat → (length b - s < fuel)%nat → (length b - s + 2 ≤ F)%nat →
  exits_or (parseexec b fuel pl) (parsed s) s.
Proof.
  intros Hpl Hs Hf HF. unfold parseexec. apply exits_bind, (peek_spec b); [done|]. intros p s1 H1 Hp. apply exits_if.
  - intros Ep. specialize (Hp Ep). unfold parseblock. apply exits_bind, (peek_spec b); [lia|]. intros p' s2 H2 Hp'.
    apply exits_if; [intros _; apply exits_panic|]. intros E'. apply negb_false_iff in E'. specialize (Hp' E').
    apply exits_bind, (gettoken_spec b Hb); [lia|]. intros t a s3 H3 Hlt _.
    apply exits_bind. eapply exits_mono; [apply Hpl; lia|]. intros c s4 [H4 Hc4].
    apply exits_bind, (peek_spec b); [lia|]. intros q s5 H5 Hq. apply exits_if; [intros _; apply exits_panic|]. intros _.
    apply exits_bind, (gettoken_spec b Hb); [lia|]. intros t' a' s6 H6 _ _.
    eapply exits_mono; [apply parseredirs_total; [lia|lia|done]|]. intros c' s'. apply parsed_later. lia.
  - intros _. apply exits_bind. eapply exits_mono; [apply parseredirs_total; [lia|lia|by constructor]|].
    intros c s2 [H2 Hc2]. eapply exits_mono; [apply exec_loop_total; [lia|lia|done]|]. intros c' s'. apply parsed_later. lia.
Qed.

Lemma parsepipe_total fuel F pl s :
  line_total F pl → (s ≤ length b)%nat → (length b - s + 2 ≤ fuel)%nat → (length b - s + 2 ≤ F)%nat →
  exits_or (parsepipe b fuel pl) (parsed s) s.
Proof.
  intros Hpl. revert s. induction fuel as [|fuel IH]; intros s Hs Hf HF; [lia|]. cbn [parsepipe].
  apply exits_bind. eapply exits_mono; [apply (parseexec_total fuel F); [done|lia..]|]. intros c s1 [H1 Hc1].
  apply exits_bind, (peek_spec b); [lia|]. intros p s2 H2 Hp.
  apply exits_if; [|intros _; apply exits_ret; split; [lia|done]]. intros Ep. specialize (Hp Ep).
  apply exits_bind, (gettoken_spec b Hb); [lia|]. intros t a s3 H3 Hlt _.
  apply exits_bind. eapply exits_mono; [apply IH; lia|]. intros c2 s4 [H4 Hc4].
  apply exits_ret. split; [lia|]. cbn [spans pipecmd]. by apply Forall_app.
Qed.

Lemma parseline_total fuel : line_total fuel (parseline b fuel).
Proof.
  induction fuel as [|fuel IH]; intros s Hs Hf; [lia|]. cbn [parseline].
  apply exits_bind. eapply exits_mono; [apply (parsepipe_total fuel fuel); [exact IH|lia..]|]. intros c s1 [H1 Hc1].
  apply exits_bind. eapply exits_mono; [apply back_loop_total; [lia|lia|done]|]. intros c' s2 [H2 Hc2].
  apply exits_bind, (peek_spec b); [lia|]. intros p s3 H3 Hp.
  apply exits_if; [|intros _; apply exits_ret; split; [lia|done]]. intros Ep. specialize (Hp Ep).
  apply exits_bind, (gettoken_spec b Hb); [lia|]. intros t a s4 H4 Hlt _.
  apply exits_bind. eapply exits_mono; [apply IH; lia|]. intros c2 s5 [H5 Hc5].
  apply exits_ret. split; [lia|]. cbn [spans listcmd]. by apply Forall_app.
Qed.

(** ** [nulterminate] *)

Lemma nul_places_spans c : nul_places c = map snd (spans c).
Proof.
  induction c as [l|c IH f m d|l IHl r IHr|l IHl r IHr|c IH]; cbn [nul_places spans]; rewrite ?map_app; [done|..|done].
  - by rewrite IH.
  - by rewrite IHl, IHr.
  - by rewrite IHl, IHr.
Qed.

Lemma store_nuls_length ks (l : list Z) : length (fold_left (λ l k, <[k := 0]> l) ks l) = length l.
Proof. revert l. induction ks as [|k ks IH]; intros l; simpl; [done|]. by rewrite IH, length_insert. Qed.

Lemma store_nuls ks (l : list Z) i : (i < length l)%nat →
  nth i (fold_left (λ l k, <[k := 0]> l) ks l) 0 = if bool_decide (i ∈ ks) then 0 else nth i l 0.
Proof.
  revert l. induction ks as [|k ks IH]; intros l Hi; cbn [fold_left]; [by rewrite bool_decide_eq_false_2 by apply not_elem_of_nil|].
  rewrite IH by (by rewrite length_insert). destruct (decide (i = k)) as [->|Hne].
  - rewrite (bool_decide_eq_true_2 (k ∈ k :: ks)) by apply list_elem_of_here.
    rewrite !nth_lookup, list_lookup_insert_eq by done. by destruct (bool_decide _).
  - rewrite (bool_decide_ext (i ∈ k :: ks) (i ∈ ks)); [|rewrite elem_of_cons; tauto].
    by rewrite !nth_lookup, list_lookup_insert_ne by done.
Qed.

Lemma until_nul_slice (l : list Z) q n :
  (q + n < length l)%nat → (∀ k, (q ≤ k < q + n)%nat → nth k l 0 ≠ 0) → nth (q + n) l 0 = 0 →
  until_nul (drop q l) = slice q n l.
Proof.
  revert q. induction n as [|n IH]; intros q Hl Hk Hz.
  - unfold slice. rewrite take_0. rewrite Nat.add_0_r in Hz. rewrite (drop_S l 0 q); [done|].
    rewrite nth_lookup in Hz. destruct (lookup_lt_is_Some_2 l q) as [c E]; [lia|]. rewrite E in *. simpl in Hz. by subst c.
  - destruct (lookup_lt_is_Some_2 l q) as [c E]; [lia|]. unfold slice. rewrite (drop_S l c q) by done. cbn [until_nul take].
    pose proof (Hk q) as Hc. rewrite nth_lookup, E in Hc. simpl in Hc. rewrite (proj2 (Z.eqb_neq _ _)) by (apply Hc; lia).
    f_equal. apply (IH (S q)); [lia|intros k Hk'; apply Hk; lia|]. by replace (S q + n)%nat with (q + S n)%nat by lia.
Qed.

(** After the NULs are stored every word is a C string. *)
Lemma nulterminate_words c a :
  Forall (span_ok b) (spans c) → a ∈ spans c → word_at (nulterminate b c) a = slice_of b a.
Proof.
  intros Hc Ha. pose proof (Forall_forall (span_ok b) (spans c)) as [Hall _]. specialize (Hall Hc).
  destruct a as [q e]. destruct (Hall _ Ha) as ((Hq & He) & Hin & Hout). cbn [fst snd] in *.
  unfold word_at, slice_of, nulterminate. cbn [fst snd]. rewrite nul_places_spans.
  set (l' := fold_left _ _ _).
  assert (Hn : ∀ i, (i ≤ length b)%nat → nth i l' 0 = if bool_decide (i ∈ map snd (spans c)) then 0 else nth i (b ++ [0]) 0).
  { intros i Hi. apply store_nuls. rewrite length_app. simpl. lia. }
  assert (Hlen : length l' = S (length b)) by (unfold l'; rewrite store_nuls_length, length_app; simpl; lia).
  assert (Hk : ∀ k, (q ≤ k < e)%nat → nth k l' 0 = nth k b 0).
  { intros k Hk. rewrite Hn by lia. rewrite bool_decide_eq_false_2; [by rewrite app_nth1 by lia|].
    rewrite list_elem_of_In, in_map_iff. intros ([q2 e2] & E & H2). simpl in E. subst k.
    apply list_elem_of_In in H2. destruct (Hall _ H2) as (_ & _ & Hout2). cbn [snd] in Hout2. rewrite (Hin e2) in Hout2 by lia. done. }
  rewrite (until_nul_slice l' q (e - q)); [|lia| |].
  - apply list_eq. intros k. rewrite !lookup_slice. case_decide; [|done].
    destruct (lookup_lt_is_Some_2 l' (q + k)) as [x Ex]; [lia|]. destruct (lookup_lt_is_Some_2 b (q + k)) as [y Ey]; [lia|].
    pose proof (Hk (q + k)%nat) as H1. rewrite !nth_lookup, Ex, Ey in H1. rewrite Ex, Ey. f_equal. apply H1. lia.
  - intros k Hk'. rewrite Hk by lia. specialize (Hin k). unfold is_word in Hin. intros E. rewrite E in Hin. simpl in Hin.
    by discriminate Hin; lia.
  - replace (q + (e - q))%nat with e by lia. rewrite Hn by lia. rewrite bool_decide_eq_true_2; [done|].
    apply list_elem_of_In, in_map_iff. exists (q, e). split; [done|by apply list_elem_of_In].
Qed.
End total.

(** C33: For every line of input, the parser of the shell comes to an end: it
    returns a command, or prints a message and exits.  In a command it returns,
    each word is a nonempty run of bytes of the line that are neither white
    space nor symbols, as long as it can be, and the NULs that [nulterminate]
    stores make exactly these words C strings: no word is cut short by the
    NUL of another. *)
Theorem parsecmd_words b fuel :
  Forall (λ c, c ≠ 0) b → (length b + 3 ≤ fuel)%nat →
  exits_or (parsecmd fuel b) (λ r s, s = length b ∧
    ∀ a, a ∈ spans r.1 → span_ok b a ∧ word_at r.2 a = slice_of b a) 0%nat.
Proof.
  intros Hb Hf. unfold parsecmd. apply exits_bind.
  eapply exits_mono; [apply (parseline_total b Hb fuel 0%nat); lia|]. intros c s [Hs Hc].
  apply exits_bind, (peek_spec b); [lia|]. intros p s2 H2 _. apply exits_bind. change (get s2) with (@Ok nat nat s2 s2). 
  unfold exits_or at 1. cbn [get]. apply exits_if; [intros _; apply exits_panic|]. intros E. apply negb_false_iff, Nat.eqb_eq in E.
  apply exits_ret. split; [done|]. intros a Ha. cbn [fst snd] in *. split; [|by apply nulterminate_words].
  by apply (proj1 (Forall_forall _ _) Hc).
Qed.

(** ** Printing commands *)

Inductive tok :=
  | TSym (c : Z)
  | TWord (w : list Z).

Definition tok_bytes (t : tok) : list Z := match t with TSym c => [c] | TWord w => w end.
Definition tok_code (t : tok) : Z := match t with TSym c => c | TWord _ => 97 end.

(** The tokens with a space after each. *)
Definition render (ts : list tok) : list Z := concat (map (λ t, tok_bytes t ++ [32]) ts).

Inductive level := LExec | LPipe | LBack | LLine.

Definition paren (ts : list tok) : list tok := TSym 40 :: ts ++ [TSym 41].

(** The tokens of a command where the grammar wants one of the given level. *)
Fixpoint print (lv : level) (c : cmd_of (list Z)) : list tok :=
  match c with
  | EXEC argv => map TWord argv
  | REDIR c file _ fd => print LExec c ++ [TSym (if fd =? 0 then 60 else 62); TWord file]
  | PIPE l r =>
      let t := print LExec l ++ TSym 124 :: print LPipe r in
      match lv with LExec => paren t | _ => t end
  | BACK c =>
      let t := print LBack c ++ [TSym 38] in
      match lv with LExec | LPipe => paren t | _ => t end
  | LIST l r =>
      let t := print LBack l ++ TSym 59 :: print LLine r in
      match lv with LLine => t | _ => paren t end
  end.

(** A nonempty word without white space and symbols. *)
Definition wordy (w : list Z) : Prop := w ≠ [] ∧ Forall (λ c, is_word c = true) w.

(** What the grammar can express: fewer than [MAXARGS] words in a command, and
    redirections of standard input and standard output. *)
Fixpoint printable (c : cmd_of (list Z)) : Prop :=
  match c with
  | EXEC argv => Forall wordy argv ∧ (length argv < MAXARGS)%nat
  | REDIR c file mode fd =>
      printable c ∧ wordy file ∧ (mode = O_RDONLY ∧ fd = 0 ∨ mode = Z.lor O_WRONLY O_CREATE ∧ fd = 1)
  | PIPE l r => printable l ∧ printable r
  | LIST l r => printable l ∧ printable r
  | BACK c => printable c
  end.

Definition tok_ok (t : tok) : Prop := match t with TSym c => c ∈ symbols | TWord w => wordy w end.

Lemma print_ok lv c : printable c → Forall tok_ok (print lv c).
Proof.
  assert (Hs : ∀ c, bool_decide (c ∈ symbols) = true → tok_ok (TSym c)) by (intros ? ?; by apply (bool_decide_eq_true_1 _)).
  assert (Hp : ∀ ts, Forall tok_ok ts → Forall tok_ok (paren ts)).
  { intros ts H. unfold paren. apply Forall_cons. split; [(apply Hs; reflexivity)|]. apply Forall_app. split; [done|]. apply Forall_singleton. (apply Hs; reflexivity). }
  revert lv. induction c as [l|c IH f m d|l IHl r IHr|l IHl r IHr|c IH]; intros lv Hc; cbn [print printable] in *.
  - apply Forall_map. apply Hc.
  - destruct Hc as (Hc & Hf & _). apply Forall_app. split; [by apply IH|].
    repeat (apply Forall_cons; split); [case_match; (apply Hs; reflexivity)|exact Hf|apply Forall_nil_2].
  - destruct Hc as [Hc1 Hc2]. assert (H : Forall tok_ok (print LExec l ++ TSym 124 :: print LPipe r)); [|destruct lv; auto].
    apply Forall_app. split; [by apply IHl|]. apply Forall_cons. split; [(apply Hs; reflexivity)|]. by apply IHr.
  - destruct Hc as [Hc1 Hc2]. assert (H : Forall tok_ok (print LBack l ++ TSym 59 :: print LLine r)); [|destruct lv; auto].
    apply Forall_app. split; [by apply IHl|]. apply Forall_cons. split; [(apply Hs; reflexivity)|]. by apply IHr.
  - assert (H : Forall tok_ok (print LBack c ++ [TSym 38])); [|destruct lv; auto].
    apply Forall_app. split; [by apply IH|]. apply Forall_singleton. (apply Hs; reflexivity).
Qed.

(** ** Reading what was printed *)

Section reading.
Context (b : list Z).

(** At [s], the line goes on with the tokens [ts]. *)
Definition reads (s : nat) (ts : list tok) : Prop :=
  (s ≤ length b)%nat ∧ drop s b = render ts ∧ Forall tok_ok ts.

Lemma at_drop s : at_ b s = nth 0 (drop s b) 0.
Proof. unfold at_. rewrite nth_drop. by rewrite Nat.add_0_r. Qed.

Lemma wordy_head w : wordy w → ∃ c w', w = c :: w' ∧ is_word c = true ∧ c ≠ 0 ∧ is_ws c = false ∧ is_sym c = false.
Proof.
  intros [Hw Hf]. destruct w as [|c w]; [done|]. apply Forall_cons in Hf as [Hc _]. exists c, w. split_and!; try done.
  all: unfold is_word in Hc; repeat (apply andb_true_iff in Hc as [Hc ?]); try by apply negb_true_iff.
  by apply negb_true_iff, Z.eqb_neq in Hc.
Qed.

Lemma symbol_not_ws c : c ∈ symbols → c ≠ 0 ∧ is_ws c = false ∧ c ≠ 32.
Proof.
  intros Hc. change symbols with [60; 124; 62; 38; 59; 40; 41] in Hc. apply list_elem_of_In in Hc. simpl in Hc.
  repeat (destruct Hc as [<-|Hc]; [done|]). done.
Qed.

(** The tokens are not preceded by white space. *)
Lemma reads_skip s ts : reads s ts → skip b s = s.
Proof.
  intros (_ & E & Ht). unfold skip. rewrite E. destruct ts as [|t ts]; [apply Nat.add_0_r|].
  apply Forall_cons in Ht as [Ht _]. cbn [render map concat]. destruct t as [c|w]; simpl in Ht.
  - destruct (symbol_not_ws c Ht) as (_ & Hw & _). simpl. rewrite Hw. apply Nat.add_0_r.
  - destruct (wordy_head w Ht) as (c & w' & -> & _ & _ & Hw & _). simpl. rewrite Hw. apply Nat.add_0_r.
Qed.

(** Past a token. *)
Lemma reads_next s t ts :
  reads s (t :: ts) → reads (s + length (tok_bytes t) + 1) ts ∧ slice_of b (s, (s + length (tok_bytes t))%nat) = tok_bytes t ∧
    skip b (s + length (tok_bytes t)) = (s + length (tok_bytes t) + 1)%nat.
Proof.
  intros (Hs & E & Ht). apply Forall_cons in Ht as [Ht Hts]. cbn [render map concat] in E.
  change (concat (map (λ t, tok_bytes t ++ [32]) ts)) with (render ts) in E. rewrite <- app_assoc in E.
  assert (E1 : drop (s + length (tok_bytes t)) b = 32 :: render ts) by (by rewrite <- drop_drop, E, drop_app_length).
  assert (E2 : drop (s + length (tok_bytes t) + 1) b = render ts) by (by rewrite <- drop_drop, E1).
  assert (Hlen : (s + length (tok_bytes t) + 1 ≤ length b)%nat).
  { apply (f_equal length) in E1. rewrite length_drop in E1. simpl in E1. lia. }
  assert (R : reads (s + length (tok_bytes t) + 1) ts) by done. split_and!; [done|..].
  - unfold slice_of, slice. cbn [fst snd]. replace (s + length (tok_bytes t) - s)%nat with (length (tok_bytes t)) by lia.
    by rewrite E, take_app_length.
  - unfold skip. rewrite E1. cbn [ws_len]. change (is_ws 32) with true. cbn iota.
    pose proof (reads_skip _ _ R) as H. unfold skip in H. rewrite E2 in H. lia.
Qed.

Lemma word_len_word w rest : Forall (λ c, is_word c = true) w → word_len (w ++ 32 :: rest) = length w.
Proof.
  induction 1 as [|c w Hc _ IH]; [done|]. simpl. unfold is_word in Hc. rewrite <- andb_assoc in Hc.
  apply andb_true_iff in Hc as [_ ->]. by rewrite IH.
Qed.

Lemma gettoken_reads s t ts :
  reads s (t :: ts) → ∃ s', gettoken b s = Ok (tok_code t, (s, (s + length (tok_bytes t))%nat)) s' ∧ reads s' ts ∧
    slice_of b (s, (s + length (tok_bytes t))%nat) = tok_bytes t.
Proof.
  intros R. destruct (reads_next s t ts R) as (R' & Hsl & Hsk). exists (s + length (tok_bytes t) + 1)%nat. split_and!; [|done|done].
  unfold gettoken. cbv zeta. rewrite (reads_skip _ _ R). destruct R as (Hs & E & Ht). apply Forall_cons in Ht as [Ht _].
  cbn [render map concat] in E. rewrite <- app_assoc in E. destruct t as [c|w]; cbn [tok_bytes tok_code length] in *.
  - assert (E0 : at_ b s = c) by (by rewrite at_drop, E).
    assert (E1 : at_ b (s + 1) = 32) by (rewrite at_drop, <- drop_drop, E; done).
    destruct (symbol_not_ws c Ht) as (H0 & _ & _). rewrite E0, E1, (proj2 (Z.eqb_neq c 0)) by done.
    case_bool_decide as Hc; [by rewrite Hsk|]. destruct (Z.eqb_spec c 62) as [->|H62].
    + change (32 =? 62) with false. cbn iota. by rewrite Hsk.
    + by destruct (not_symbol c Hc H62).
  - destruct (wordy_head w Ht) as (c & w' & Ew & Hcw & H0 & _ & Hsym).
    assert (E0 : at_ b s = c) by (by rewrite at_drop, E, Ew).
    rewrite E0, (proj2 (Z.eqb_neq c 0)) by done.
    assert (Hns : c ∉ symbols) by (by apply (bool_decide_eq_false_1 _) in Hsym).
    rewrite bool_decide_eq_false_2 by (intros Hc; apply Hns; by apply in_symbols).
    rewrite (proj2 (Z.eqb_neq c 62)) by (intros ->; apply Hns; apply (bool_decide_eq_true_1 _); reflexivity).
    rewrite E. cbn [app]. rewrite word_len_word by apply Ht. by rewrite Hsk.
Qed.

Lemma gettoken_end s : reads s [] → gettoken b s = Ok (0, (s, s)) s.
Proof.
  intros R. unfold gettoken. cbv zeta. rewrite (reads_skip _ _ R). destruct R as (Hs & E & _).
  rewrite at_drop, E. cbn. rewrite (reads_skip s []); [done|]. done.
Qed.

(** What [peek] says of the tokens to come. *)
Definition peeks (toks : list Z) (ts : list tok) : bool :=
  match ts with TSym c :: _ => bool_decide (c ∈ toks) | _ => false end.

Lemma peek_reads toks s ts :
  reads s ts → forallb is_sym toks = true → peek b toks s = Ok (peeks toks ts) s.
Proof.
  intros R Htoks. unfold peek. cbv zeta. rewrite (reads_skip _ _ R). destruct R as (Hs & E & Ht). f_equal.
  rewrite at_drop, E. destruct ts as [|t ts]; [done|]. apply Forall_cons in Ht as [Ht _]. destruct t as [c|w]; cbn.
  - destruct (symbol_not_ws c Ht) as (H0 & _). by rewrite (proj2 (Z.eqb_neq c 0)).
  - destruct (wordy_head w Ht) as (c & w' & -> & _ & _ & _ & Hsym). cbn. apply andb_false_iff. right.
    apply bool_decide_eq_false. intros Hin. rewrite forallb_forall in Htoks. rewrite Htoks in Hsym by (by apply list_elem_of_In). done.
Qed.
End reading.

(** The tokens are at an end, or go on with one of the symbols. *)
Definition stops (toks : list Z) (ts : list tok) : Prop := ts = [] ∨ peeks toks ts = true.

Lemma stops_peeks toks toks2 ts :
  stops toks ts → forallb (λ c, negb (bool_decide (c ∈ toks2))) toks = true → peeks toks2 ts = false.
Proof.
  intros [->|H] Hd; [done|]. destruct ts as [|[c|w] ts]; [done| |done]. simpl in *. apply bool_decide_eq_true_1 in H.
  rewrite forallb_forall in Hd. apply negb_true_iff, Hd. by apply list_elem_of_In.
Qed.

Lemma stops_more toks toks2 ts :
  stops toks ts → forallb (λ c, bool_decide (c ∈ toks2)) toks = true → stops toks2 ts.
Proof.
  intros [->|H] Hd; [by left|right]. destruct ts as [|[c|w] ts]; [done| |done]. simpl in *. apply bool_decide_eq_true_1 in H.
  rewrite forallb_forall in Hd. apply Hd. by apply list_elem_of_In.
Qed.

Section parsing.
Context (b : list Z).

Lemma redirs_stop fuel c s ts : reads b s ts → peeks (str "<>") ts = false → parseredirs b (S fuel) c s = Ok c s.
Proof.
  intros R Hp. cbn [parseredirs]. rewrite (bind_ok _ _ _ _ _ (peek_reads b (str "<>") s ts R eq_refl)). by rewrite Hp.
Qed.

Lemma redirs_one fuel c s mode fd w ts :
  reads b s (TSym (if fd =? 0 then 60 else 62) :: TWord w :: ts) →
  mode = O_RDONLY ∧ fd = 0 ∨ mode = Z.lor O_WRONLY O_CREATE ∧ fd = 1 →
  ∃ a s', parseredirs b (S fuel) c s = parseredirs b fuel (redircmd c a mode fd) s' ∧ reads b s' ts ∧ slice_of b a = w.
Proof.
  intros R Hm. destruct (gettoken_reads _ _ _ _ R) as (s1 & E1 & R1 & _). destruct (gettoken_reads _ _ _ _ R1) as (s2 & E2 & R2 & Ha).
  eexists _, s2. split; [|split; [exact R2|exact Ha]]. cbn [parseredirs].
  rewrite (bind_ok _ _ _ _ _ (peek_reads b (str "<>") s _ R eq_refl)).
  replace (peeks _ _) with true by (by destruct Hm as [[_ ->]|[_ ->]]). cbn [negb].
  rewrite (bind_ok _ _ _ _ _ E1), (bind_ok _ _ _ _ _ E2). destruct Hm as [[-> ->]|[-> ->]]; done.
Qed.

Lemma exec_one fuel ret argc s w ts :
  reads b s (TWord w :: ts) → (argc + 1 < MAXARGS)%nat →
  ∃ a s', exec_loop b (S fuel) ret argc s = (parseredirs b fuel (add_arg ret a) ≫= λ r, exec_loop b fuel r (argc + 1)) s' ∧
    reads b s' ts ∧ slice_of b a = w.
Proof.
  intros R Hn. destruct (gettoken_reads _ _ _ _ R) as (s1 & E1 & R1 & Ha).
  eexists _, s1. split; [|split; [exact R1|exact Ha]]. cbn [exec_loop].
  rewrite (bind_ok _ _ _ _ _ (peek_reads b (str "|)&;") s _ R eq_refl)). cbn [peeks].
  rewrite (bind_ok _ _ _ _ _ E1). cbn [tok_code fst snd]. change (97 =? 0) with false. change (negb (97 =? 97)) with false. cbv zeta iota.
  by rewrite (proj2 (Nat.leb_gt _ _)) by done.
Qed.

Lemma exec_stop fuel ret argc s ts : reads b s ts → stops (str "|)&;") ts → exec_loop b (S fuel) ret argc s = Ok ret s.
Proof.
  intros R Hs. cbn [exec_loop]. rewrite (bind_ok _ _ _ _ _ (peek_reads b (str "|)&;") s _ R eq_refl)).
  destruct Hs as [->| ->]; [|done]. cbn [peeks]. by rewrite (bind_ok _ _ _ _ _ (gettoken_end b s R)).
Qed.

(** How [parseexec] ends once the words and redirections are read. *)
Definition finishes (k : cmd → M nat cmd) : Prop :=
  ∀ r s ts, reads b s ts → stops (str "|)&;") ts → k r s = Ok r s.

Definition reads_exec (c : cmd_of (list Z)) : Prop := ∀ fuel F s rest,
  reads b s (print LExec c ++ rest) → stops (str "|)&;<>") rest →
  (length (print LExec c ++ rest) < fuel)%nat → (length (print LExec c ++ rest) + 2 ≤ F)%nat →
  ∃ tree s' fuel' k, parseexec b fuel (parseline b F) s = (parseredirs b fuel' tree ≫= k) s' ∧ reads b s' rest ∧
    (length rest < fuel')%nat ∧ finishes k ∧ cmd_map (slice_of b) tree = c.

Definition reads_pipe (c : cmd_of (list Z)) : Prop := ∀ fuel F s rest,
  reads b s (print LPipe c ++ rest) → stops (str ")&;") rest →
  (length (print LPipe c ++ rest) + 2 ≤ fuel)%nat → (length (print LPipe c ++ rest) + 2 ≤ F)%nat →
  ∃ tree s', parsepipe b fuel (parseline b F) s = Ok tree s' ∧ reads b s' rest ∧ cmd_map (slice_of b) tree = c.

Definition reads_back (c : cmd_of (list Z)) : Prop := ∀ fuel s rest,
  reads b s (print LBack c ++ rest) → stops (str ")&;") rest →
  (length (print LBack c ++ rest) + 2 ≤ fuel)%nat →
  ∃ tree s' fuel', (c ← parsepipe b fuel (parseline b fuel); back_loop b fuel c) s = back_loop b fuel' tree s' ∧
    reads b s' rest ∧ (length rest < fuel')%nat ∧ cmd_map (slice_of b) tree = c.

Definition reads_line (c : cmd_of (list Z)) : Prop := ∀ fuel s rest,
  reads b s (print LLine c ++ rest) → stops (str ")") rest → (length (print LLine c ++ rest) + 3 ≤ fuel)%nat →
  ∃ tree s', parseline b fuel s = Ok tree s' ∧ reads b s' rest ∧ cmd_map (slice_of b) tree = c.

(** *** The levels of the grammar *)

Lemma exec_run c fuel F s rest :
  reads_exec c → reads b s (print LExec c ++ rest) → stops (str "|)&;") rest →
  (length (print LExec c ++ rest) < fuel)%nat → (length (print LExec c ++ rest) + 2 ≤ F)%nat →
  ∃ tree s', parseexec b fuel (parseline b F) s = Ok tree s' ∧ reads b s' rest ∧ cmd_map (slice_of b) tree = c.
Proof.
  intros HE R Hst Hf HF. destruct (HE fuel F s rest R) as (tree & s' & fuel' & k & E & R' & Hf' & Hk & Hc);
    [by eapply stops_more|done|done|]. exists tree, s'. split; [|done]. rewrite E. destruct fuel' as [|fuel']; [lia|].
  rewrite (bind_ok _ _ _ _ _ (redirs_stop fuel' tree s' rest R' (stops_peeks _ (str "<>") _ Hst eq_refl))). by apply (Hk tree s' rest).
Qed.

Lemma pipe_of_exec c : print LPipe c = print LExec c → reads_exec c → reads_pipe c.
Proof.
  intros Ep HE fuel F s rest R Hst Hf HF. rewrite Ep in *. destruct fuel as [|fuel]; [lia|].
  destruct (exec_run c fuel F s rest HE R) as (tree & s' & E & R' & Hc); [by eapply stops_more|lia|lia|].
  exists tree, s'. split; [|done]. cbn [parsepipe]. rewrite (bind_ok _ _ _ _ _ E).
  rewrite (bind_ok _ _ _ _ _ (peek_reads b (str "|") s' rest R' eq_refl)). by rewrite (stops_peeks _ (str "|") _ Hst eq_refl).
Qed.

Lemma back_of_pipe c : print LBack c = print LPipe c → reads_pipe c → reads_back c.
Proof.
  intros Ep HP fuel s rest R Hst Hf. rewrite Ep in *.
  destruct (HP fuel fuel s rest R Hst) as (tree & s' & E & R' & Hc); [lia|lia|]. exists tree, s', fuel. split_and!; try done.
  - by rewrite (bind_ok _ _ _ _ _ E).
  - rewrite length_app in Hf. lia.
Qed.

Lemma back_stop fuel c s ts : reads b s ts → peeks (str "&") ts = false → back_loop b (S fuel) c s = Ok c s.
Proof.
  intros R Hp. cbn [back_loop]. rewrite (bind_ok _ _ _ _ _ (peek_reads b (str "&") s ts R eq_refl)). by rewrite Hp.
Qed.

Lemma back_one fuel c s ts :
  reads b s (TSym 38 :: ts) → ∃ s', back_loop b (S fuel) c s = back_loop b fuel (backcmd c) s' ∧ reads b s' ts.
Proof.
  intros R. destruct (gettoken_reads _ _ _ _ R) as (s1 & E1 & R1 & _). exists s1. split; [|done]. cbn [back_loop].
  rewrite (bind_ok _ _ _ _ _ (peek_reads b (str "&") s _ R eq_refl)).
  change (peeks (str "&") (TSym 38 :: ts)) with true. cbn iota. by rewrite (bind_ok _ _ _ _ _ E1).
Qed.

(** [parseline] up to the semicolon. *)
Lemma line_back c fuel s rest :
  reads_back c → reads b s (print LBack c ++ rest) → stops (str ");") rest → (length (print LBack c ++ rest) + 2 ≤ fuel)%nat →
  ∃ tree s', (c ← parsepipe b fuel (parseline b fuel); back_loop b fuel c) s = Ok tree s' ∧ reads b s' rest ∧
    cmd_map (slice_of b) tree = c.
Proof.
  intros HB R Hst Hf. destruct (HB fuel s rest R) as (tree & s' & fuel' & E & R' & Hf' & Hc); [by eapply stops_more|done|].
  exists tree, s'. split; [|done]. rewrite E. destruct fuel' as [|fuel']; [lia|].
  apply (back_stop _ _ _ rest R'). by eapply stops_peeks.
Qed.

Lemma bind_assoc {S A B C} (m : M S A) (f : A → M S B) (g : B → M S C) s :
  ((m ≫= f) ≫= g) s = (m ≫= λ a, f a ≫= g) s.
Proof. unfold mbind, M_bind. by destruct (m s). Qed.

Lemma line_of_back c : print LLine c = print LBack c → reads_back c → reads_line c.
Proof.
  intros Ep HB fuel s rest R Hst Hf. rewrite Ep in *. destruct fuel as [|fuel]; [lia|].
  destruct (line_back c fuel s rest HB R) as (tree & s' & E & R' & Hc); [by eapply stops_more|lia|].
  exists tree, s'. split; [|done]. cbn [parseline]. rewrite <- bind_assoc, (bind_ok _ _ _ _ _ E).
  rewrite (bind_ok _ _ _ _ _ (peek_reads b (str ";") s' rest R' eq_refl)). by rewrite (stops_peeks _ (str ";") _ Hst eq_refl).
Qed.

Lemma exec_of_line c : print LExec c = paren (print LLine c) → reads_line c → reads_exec c.
Proof.
  intros Ep HL fuel F s rest R Hst Hf HF. rewrite Ep in *. unfold paren in *. cbn [app] in R. rewrite <- app_assoc in R. cbn [app length] in *.
  rewrite !length_app in Hf, HF. simpl in Hf, HF.
  destruct (gettoken_reads _ _ _ _ R) as (s1 & E1 & R1 & _).
  destruct (HL F s1 (TSym 41 :: rest) R1) as (tree & s2 & E2 & R2 & Hc); [by right|rewrite length_app; simpl; lia|].
  destruct (gettoken_reads _ _ _ _ R2) as (s3 & E3 & R3 & _).
  exists tree, s3, fuel, mret. split_and!; try done; [|lia]. unfold parseexec.
  rewrite (bind_ok _ _ _ _ _ (peek_reads b (str "(") s _ R eq_refl)).
  change (peeks (str "(") _) with true at 1. cbn iota. unfold parseblock.
  rewrite (bind_ok _ _ _ _ _ (peek_reads b (str "(") s _ R eq_refl)).
  change (negb (peeks (str "(") (TSym 40 :: print LLine c ++ TSym 41 :: rest))) with false. cbn iota.
  rewrite (bind_ok _ _ _ _ _ E1), (bind_ok _ _ _ _ _ E2).
  rewrite (bind_ok _ _ _ _ _ (peek_reads b (str ")") s2 _ R2 eq_refl)).
  change (negb (peeks (str ")") (TSym 41 :: rest))) with false. cbn iota. rewrite (bind_ok _ _ _ _ _ E3).
  unfold mbind, M_bind. by destruct (parseredirs b fuel tree s3).
Qed.

(** *** The commands *)

Lemma exec_words ws seen fuel s rest :
  reads b s (map TWord ws ++ rest) → stops (str "|)&;<>") rest →
  (length seen + length ws < MAXARGS)%nat → (length (map TWord ws ++ rest) < fuel)%nat →
  ∃ new s' fuel' n,
    (parseredirs b fuel (EXEC seen) ≫= λ r, exec_loop b fuel r (length seen)) s =
      (parseredirs b fuel' (EXEC (seen ++ new)) ≫= λ r, exec_loop b fuel' r n) s' ∧
    reads b s' rest ∧ (length rest < fuel')%nat ∧ map (slice_of b) new = ws.
Proof.
  revert seen fuel s. induction ws as [|w ws IH]; intros seen fuel s R Hst Hn Hf.
  - exists [], s, fuel, (length seen). rewrite app_nil_r. done.
  - destruct fuel as [|fuel]; [lia|]. cbn [map app] in R.
    rewrite (bind_ok _ _ _ _ _ (redirs_stop fuel (EXEC seen) s _ R eq_refl)). simpl in Hn.
    destruct (exec_one fuel (EXEC seen) (length seen) s w _ R) as (a & s1 & E1 & R1 & Ha); [lia|]. rewrite E1. cbn [add_arg].
    destruct (IH (seen ++ [a]) fuel s1 R1 Hst) as (new & s' & fuel' & n & E & R' & Hf' & Hm);
      [rewrite length_app; simpl; lia|simpl in Hf; lia|].
    exists (a :: new), s', fuel', n. rewrite length_app in E. cbn [length] in E. rewrite E, <- app_assoc.
    split_and!; try done. simpl. by rewrite Ha, Hm.
Qed.

Lemma exec_EXEC ws : printable (EXEC ws) → reads_exec (EXEC ws).
Proof.
  intros [_ Hn] fuel F s rest R Hst Hf HF. cbn [print] in *.
  destruct (exec_words ws [] fuel s rest R Hst) as (new & s' & fuel' & n & E & R' & Hf' & Hm); [done|done|].
  destruct fuel' as [|f']; [lia|]. exists (EXEC new), s', (S f'), (λ r, exec_loop b (S f') r n).
  split_and!; try done; [|intros r p ts; apply exec_stop|by cbn; rewrite Hm].
  unfold parseexec. rewrite (bind_ok _ _ _ _ _ (peek_reads b (str "(") s _ R eq_refl)).
  replace (peeks (str "(") (map TWord ws ++ rest)) with false; [exact E|].
  destruct ws; [|done]. symmetry. cbn [map app]. by eapply stops_peeks.
Qed.

Lemma exec_REDIR c w mode fd :
  mode = O_RDONLY ∧ fd = 0 ∨ mode = Z.lor O_WRONLY O_CREATE ∧ fd = 1 →
  reads_exec c → reads_exec (REDIR c w mode fd).
Proof.
  intros Hm HE fuel F s rest R Hst Hf HF. cbn [print] in *. rewrite <- app_assoc in *. cbn [app] in *.
  destruct (HE fuel F s _ R) as (tree & s1 & f1 & k & E1 & R1 & Hf1 & Hk & Hc); [|done|done|].
  { right. by destruct Hm as [[_ ->]|[_ ->]]. }
  destruct f1 as [|f1]; [lia|]. destruct (redirs_one f1 tree s1 mode fd w rest R1 Hm) as (a & s2 & E2 & R2 & Ha).
  exists (redircmd tree a mode fd), s2, f1, k. split_and!; try done.
  - rewrite E1. unfold mbind, M_bind. by rewrite E2.
  - simpl in Hf1. lia.
  - cbn. by rewrite Hc, Ha.
Qed.

Lemma pipe_PIPE l r : reads_exec l → reads_pipe r → reads_pipe (PIPE l r).
Proof.
  intros HE HP fuel F s rest R Hst Hf HF. cbn [print] in *. rewrite <- app_assoc in *. cbn [app] in *.
  destruct fuel as [|fuel]; [lia|].
  destruct (exec_run l fuel F s _ HE R) as (t1 & s1 & E1 & R1 & H1); [by right|lia|lia|].
  destruct (gettoken_reads _ _ _ _ R1) as (s2 & E2 & R2 & _). rewrite length_app in Hf, HF. simpl in Hf, HF.
  destruct (HP fuel F s2 rest R2 Hst) as (t3 & s3 & E3 & R3 & H3); [lia|lia|].
  exists (pipecmd t1 t3), s3. split_and!; [|done|cbn; by rewrite H1, H3]. cbn [parsepipe]. rewrite (bind_ok _ _ _ _ _ E1).
  rewrite (bind_ok _ _ _ _ _ (peek_reads b (str "|") s1 _ R1 eq_refl)).
  change (peeks (str "|") (TSym 124 :: print LPipe r ++ rest)) with true. cbn iota.
  by rewrite (bind_ok _ _ _ _ _ E2), (bind_ok _ _ _ _ _ E3).
Qed.

Lemma back_BACK c : reads_back c → reads_back (BACK c).
Proof.
  intros HB fuel s rest R Hst Hf. cbn [print] in *. rewrite <- app_assoc in *. cbn [app] in *.
  destruct (HB fuel s _ R) as (tree & s1 & f1 & E1 & R1 & Hf1 & Hc); [by right|done|].
  destruct f1 as [|f1]; [lia|]. destruct (back_one f1 tree s1 rest R1) as (s2 & E2 & R2).
  exists (backcmd tree), s2, f1. split_and!; [by rewrite E1, E2|done|simpl in Hf1; lia|cbn; by rewrite Hc].
Qed.

Lemma line_LIST l r : reads_back l → reads_line r → reads_line (LIST l r).
Proof.
  intros HB HL fuel s rest R Hst Hf. cbn [print] in *. rewrite <- app_assoc in *. cbn [app] in *.
  destruct fuel as [|fuel]; [lia|].
  destruct (line_back l fuel s _ HB R) as (t1 & s1 & E1 & R1 & H1); [by right|lia|].
  destruct (gettoken_reads _ _ _ _ R1) as (s2 & E2 & R2 & _). rewrite length_app in Hf. simpl in Hf.
  destruct (HL fuel s2 rest R2 Hst) as (t3 & s3 & E3 & R3 & H3); [lia|].
  exists (listcmd t1 t3), s3. split_and!; [|done|cbn; by rewrite H1, H3]. cbn [parseline].
  rewrite <- bind_assoc, (bind_ok _ _ _ _ _ E1). rewrite (bind_ok _ _ _ _ _ (peek_reads b (str ";") s1 _ R1 eq_refl)).
  change (peeks (str ";") (TSym 59 :: print LLine r ++ rest)) with true. cbn iota.
  by rewrite (bind_ok _ _ _ _ _ E2), (bind_ok _ _ _ _ _ E3).
Qed.

(** Every level reads back what it prints. *)
Lemma reads_all c : printable c → reads_exec c ∧ reads_pipe c ∧ reads_back c ∧ reads_line c.
Proof.
  assert (Hlow : ∀ c, print LPipe c = print LExec c → print LBack c = print LPipe c → print LLine c = print LBack c →
    reads_exec c → reads_exec c ∧ reads_pipe c ∧ reads_back c ∧ reads_line c).
  { intros c' E1 E2 E3 H1. pose proof (pipe_of_exec c' E1 H1) as H2. pose proof (back_of_pipe c' E2 H2) as H3.
    split_and!; [done..|]. by apply line_of_back. }
  induction c as [ws|c IH f m d|l IHl r IHr|l IHl r IHr|c IH]; cbn [printable]; intros Hc.
  - apply Hlow; [done..|]. by apply exec_EXEC.
  - destruct Hc as (Hc & Hf & Hm). apply Hlow; [done..|]. apply exec_REDIR; [done|]. by apply IH.
  - destruct Hc as (H1 & H2). destruct (IHl H1) as (El & _). destruct (IHr H2) as (_ & Pr & _).
    pose proof (pipe_PIPE l r El Pr) as HP. assert (HB : reads_back (PIPE l r)) by (by apply back_of_pipe).
    assert (HL : reads_line (PIPE l r)) by (by apply line_of_back). split_and!; try done. by apply exec_of_line.
  - destruct Hc as (H1 & H2). destruct (IHl H1) as (_ & _ & Bl & _). destruct (IHr H2) as (_ & _ & _ & Lr).
    pose proof (line_LIST l r Bl Lr) as HL. assert (HE : reads_exec (LIST l r)) by (by apply exec_of_line).
    assert (HP : reads_pipe (LIST l r)) by (by apply pipe_of_exec). split_and!; try done. by apply back_of_pipe.
  - destruct (IH Hc) as (_ & _ & B & _). pose proof (back_BACK c B) as HB.
    assert (HL : reads_line (BACK c)) by (by apply line_of_back).
    assert (HE : reads_exec (BACK c)) by (by apply exec_of_line). split_and!; try done. by apply pipe_of_exec.
Qed.
End parsing.

Lemma cmd_map_ext {V W} (f g : V → W) c : (∀ a, a ∈ spans c → f a = g a) → cmd_map f c = cmd_map g c.
Proof.
  induction c as [ws|c IH w m d|l IHl r IHr|l IHl r IHr|c IH]; cbn [cmd_map spans]; intros H; f_equal.
  all: try (first [apply IH|apply IHl|apply IHr]; intros a Ha; apply H; rewrite ?elem_of_app; tauto).
  - apply map_ext_in. intros a Ha. apply H. by apply list_elem_of_In.
  - apply H. apply elem_of_app. right. apply list_elem_of_here.
Qed.

Lemma is_word_nonzero c : is_word c = true → c ≠ 0.
Proof. intros H ->. discriminate H. Qed.

Lemma render_nonzero ts : Forall tok_ok ts → Forall (λ c, c ≠ 0) (render ts).
Proof.
  induction 1 as [|t ts Ht _ IH]; [constructor|]. cbn [render map concat]. apply Forall_app. split; [|exact IH].
  apply Forall_app. split; [|by apply Forall_singleton]. destruct t as [c|w]; simpl in *.
  - apply Forall_singleton. by destruct (symbol_not_ws c Ht).
  - eapply Forall_impl; [apply Ht|]. apply is_word_nonzero.
Qed.

Lemma render_length ts : Forall tok_ok ts → (length ts ≤ length (render ts))%nat.
Proof.
  induction 1 as [|t ts Ht _ IH]; [done|]. cbn [render map concat length].
  change (concat (map (λ t, tok_bytes t ++ [32]) ts)) with (render ts). rewrite !length_app. simpl. lia.
Qed.

(** C32: Printing and parsing: every tree of commands that the grammar of the shell
    can express, however lists, background commands, pipelines and
    redirections nest in it, is what [parsecmd] makes of its printed form: the
    same structure, with the same words as C strings. *)
Theorem parse_print c fuel :
  let b := render (print LLine c) in
  printable c → (length b + 3 ≤ fuel)%nat →
  ∃ tree b', parsecmd fuel b 0%nat = Ok (tree, b') (length b) ∧ cmd_map (word_at b') tree = c.
Proof.
  intros b Hp Hf. pose proof (print_ok LLine c Hp) as Hok. pose proof (render_length _ Hok) as Hrl. fold b in Hrl.
  destruct (reads_all b c Hp) as (_ & _ & _ & HL).
  assert (R : reads b 0 (print LLine c ++ [])) by (rewrite app_nil_r; split; [lia|done]).
  destruct (HL fuel 0%nat [] R) as (tree & s & E & R' & Hc); [by left|rewrite app_nil_r; lia|].
  pose proof (parseline_total b (render_nonzero _ Hok) fuel 0%nat) as Htot. unfold exits_or in Htot. rewrite E in Htot.
  destruct Htot as [Hs Hspans]; [lia|lia|].
  assert (Hend : s = length b).
  { destruct R' as (Hle & Hd & _). apply (f_equal length) in Hd. rewrite length_drop in Hd. simpl in Hd. lia. }
  exists tree, (nulterminate b tree). split.
  - unfold parsecmd. rewrite (bind_ok _ _ _ _ _ E), (bind_ok _ _ _ _ _ (peek_reads b [] s [] R' eq_refl)).
    unfold mbind, M_bind, get. rewrite Hend, Nat.eqb_refl. done.
  - rewrite <- Hc. apply cmd_map_ext. intros a Ha. by apply nulterminate_words.
Qed.

(** ** A line *)

Definition sample_line : list Z := str "cat < a & ; ( ls | wc > b ) ; echo x y".

Lemma parsecmd_words_witness :
  Forall (λ c, c ≠ 0) sample_line ∧ ∃ c l, parsecmd 100 sample_line 0%nat = Ok (c, l) 38%nat ∧
    spans c !! 6%nat = Some (35, 36)%nat ∧ word_at l (35, 36)%nat = str "x".
Proof.
  assert (Hb : Forall (λ c, c ≠ 0) sample_line) by (apply (bool_decide_unpack _); vm_compute; exact I). split; [done|].
  pose proof (parsecmd_words sample_line 100 Hb) as H. unfold exits_or in H.
  destruct (parsecmd 100 sample_line 0%nat) as [[c l] s|?|?|?|] eqn:E; [| vm_compute in E; discriminate E ..].
  destruct H as [-> Hw]; [vm_compute; lia|]. exists c, l. split; [done|].
  assert (Hc : spans c !! 6%nat = Some (35, 36)%nat) by (vm_compute in E; injection E as <- _; reflexivity). split; [done|].
  destruct (Hw (35, 36)%nat) as [_ E2]; [by eapply list_elem_of_lookup_2|]. cbn [snd] in E2. rewrite E2. vm_compute. reflexivity.
Defined.

Definition sample_cmd : cmd_of (list Z) :=
  LIST (BACK (REDIR (EXEC [str "cat"]) (str "a") O_RDONLY 0)) (PIPE (LIST (EXEC [str "ls"]) (EXEC [])) (EXEC [str "wc"; str "-l"])).

Lemma parse_print_witness :
  ∃ tree b', parsecmd 100 (render (print LLine sample_cmd)) 0%nat = Ok (tree, b') (length (render (print LLine sample_cmd))) ∧
    cmd_map (word_at b') tree = sample_cmd.
Proof.
  apply (parse_print sample_cmd 100).
  - cbn [printable sample_cmd]. unfold MAXARGS. split_and!; try (simpl; lia); try (left; done).
    all: try apply Forall_nil_2.
    all: try (repeat (apply Forall_cons; split); try apply Forall_nil_2).
    all: split; [discriminate|apply (bool_decide_unpack _); vm_compute; exact I].
  - vm_compute. lia.
Defined.
