(* ===== verification/ShRun.v ===== *)
(** * Running commands (sh.c)

    [runcmd], [getcmd] and [main] as trees of the system calls they make, with
    the code that depends on a call's result under it; a call of [fork] has the
    two processes, and its failure, below it.  [behave] runs such a tree on a
    table of descriptors in the way the kernel does (a new descriptor is the
    lowest free one): what is left is the tree of processes, with the programs
    they execute and the waits of the parents, and the descriptors each of them
    has open meanwhile.  The theorem: this is what the structure of the command
    asks for. *)

From stdpp Require Import base numbers list strings.
From Stdlib Require Import ZArith Lia.
From S2P Require Import Prelude CString User Printf Sh.

#[local] Open Scope Z_scope.

(** A process of the shell, by the system calls it makes next. *)
Inductive proc :=
  | PExit
  | PExec (path : list Z) (argv : list (list Z)) (failed : proc)
  | PClose (fd : Z) (k : proc)
  | POpen (path : list Z) (mode : Z) (k : Z → proc)
  | PDup (fd : Z) (k : proc)
  | PPipe (k : option (Z * Z) → proc)
  | PFork (child parent failed : proc)
  | PWait (k : proc)
  | PRead (k : option Z → proc)
  | PWrite (fd : Z) (bs : list Z) (k : proc)
  | PChdir (path : list Z) (k : Z → proc)
  | PMore.

(** [printf(fd, ...)], one byte at a time. *)
Definition say (fd : Z) (msg : list Z) (k : proc) : proc := foldr (λ c k, PWrite fd [c] k) k msg.

(** [panic] -- src/sh.c:175-180 *)
Definition sh_panic (s : list Z) : proc := say 2 (s ++ [10]) PExit.

(** src/sh.c:182-191 *)
Definition fork1 (child parent : proc) : proc := PFork child parent (sh_panic (str "fork")).

(** The calls of each kind of command, down to [exit] -- src/sh.c:56-131 *)
Fixpoint runcmd (c : cmd_of (list Z)) : proc :=
  match c with
  | EXEC [] => PExit
  | EXEC (a :: argv) => PExec a (a :: argv) (say 2 (str "exec " ++ a ++ str " failed" ++ [10]) PExit)
  | REDIR c file mode fd =>
      PClose fd (POpen file mode (λ r,
        if r <? 0 then say 2 (str "open " ++ file ++ str " failed" ++ [10]) PExit else runcmd c))
  | LIST l r => fork1 (runcmd l) (PWait (runcmd r))
  | PIPE l r =>
      PPipe (λ p, match p with
        | None => sh_panic (str "pipe")
        | Some (p0, p1) =>
            fork1 (PClose 1 (PDup p1 (PClose p0 (PClose p1 (runcmd l)))))
              (fork1 (PClose 0 (PDup p0 (PClose p0 (PClose p1 (runcmd r)))))
                (PClose p0 (PClose p1 (PWait (PWait PExit)))))
        end)
  | BACK c => fork1 (runcmd c) PExit
  end.

(** [gets(buf, max)] with room for [room] bytes, see ulib.c. *)
Fixpoint pgets (room : nat) (buf : list Z) (k : list Z → proc) : proc :=
  match room with
  | O => k buf
  | S room => PRead (λ r, match r with
      | None => k buf
      | Some c => if (c =? 10) || (c =? 13) then k (buf ++ [c]) else pgets room (buf ++ [c]) k
      end)
  end.

(** The line, or [None] at the end of the input -- src/sh.c:133-142 *)
Definition getcmd (nbuf : nat) (k : option (list Z) → proc) : proc :=
  say 2 (str "$ ") (pgets (nbuf - 1) [] (λ buf,
    let line := until_nul buf in k match line with [] => None | _ => Some line end)).

(** [runcmd(parsecmd(buf))]: the parser's exit prints its message -- src/sh.c:169-169 *)
Definition run_line (line : list Z) : proc :=
  match parsecmd (length line + 3) line 0%nat with
  | Ok (c, l) _ => runcmd (cmd_map (word_at l) c)
  | Panic msg => sh_panic (str msg)
  | _ => PMore
  end.

(** [while(getcmd(buf, sizeof(buf)) >= 0)], for the given number of lines -- src/sh.c:158-172 *)
Fixpoint sh_loop (lines : nat) : proc :=
  match lines with
  | O => PMore
  | S lines =>
      getcmd 100 (λ l, match l with
        | None => PExit
        | Some line =>
            if bool_decide (take 3 line = str "cd ") then
              let path := drop 3 (take (length line - 1) line) in
              PChdir path (λ r, if r <? 0 then say 2 (str "cannot cd " ++ path ++ [10]) (sh_loop lines) else sh_loop lines)
            else fork1 (run_line line) (PWait (sh_loop lines))
        end)
  end.

(** [while((fd = open("console", O_RDWR)) >= 0)] -- src/sh.c:150-156 *)
Fixpoint open_console (n : nat) (k : proc) : proc :=
  match n with
  | O => PMore
  | S n => POpen (str "console") O_RDWR (λ fd,
      if fd <? 0 then k else if 3 <=? fd then PClose fd k else open_console n k)
  end.

(** [main]: at most 16 descriptors -- src/sh.c:144-173 *)
Definition sh_main (lines : nat) : proc := open_console 17 (sh_loop lines).

(** ** Descriptors *)

Inductive obj :=
  | OConsole
  | OFile (path : list Z) (mode : Z)
  | OPipeR (n : nat)
  | OPipeW (n : nat).

(** The open files of a process: [ofile] of struct proc. *)
Abbreviation fdtab := (list (option obj)).

(** A free descriptor. *)
Definition is_free (x : option obj) : bool := match x with None => true | _ => false end.

Fixpoint lowest_free (T : fdtab) : option nat :=
  match T with
  | [] => None
  | x :: T => if is_free x then Some 0%nat else S <$> lowest_free T
  end.

Definition fd_alloc (T : fdtab) (o : option obj) : option (nat * fdtab) :=
  match lowest_free T with Some k => Some (k, <[k := o]> T) | None => None end.

Definition fd_close (T : fdtab) (fd : Z) : fdtab := <[Z.to_nat fd := None]> T.
Definition fd_get (T : fdtab) (fd : Z) : option obj := match T !! Z.to_nat fd with Some x => x | None => None end.

(** What a process does that others can see: it ends, becomes a program with
    these descriptors, starts a child and goes on, or waits for the end of a child
    with these descriptors open before it goes on. *)
Inductive behaviour :=
  | Ends
  | Runs (argv : list (list Z)) (T : fdtab)
  | Starts (child parent : behaviour)
  | Waits (T : fdtab) (k : behaviour).

(** The tables of descriptors of the programs that run and of the processes that
    wait. *)
Fixpoint tables (b : behaviour) : list fdtab :=
  match b with
  | Ends => []
  | Runs _ T => [T]
  | Starts c p => tables c ++ tables p
  | Waits T k => T :: tables k
  end.

Section behaviours.
Context (can_open : list Z → Z → bool) (can_exec : list Z → bool).

(** The process and its children, when [fork] succeeds and pipes are numbered
    from [n] on. *)
Fixpoint behave (p : proc) (T : fdtab) (n : nat) : behaviour * nat :=
  match p with
  | PExit => (Ends, n)
  | PMore => (Ends, n)
  | PExec path argv failed => if can_exec path then (Runs argv T, n) else behave failed T n
  | PClose fd k => behave k (fd_close T fd) n
  | POpen path mode k =>
      if can_open path mode then
        match fd_alloc T (Some (OFile path mode)) with
        | Some (fd, T') => behave (k (Z.of_nat fd)) T' n
        | None => behave (k (-1)) T n
        end
      else behave (k (-1)) T n
  | PDup fd k =>
      match fd_alloc T (fd_get T fd) with
      | Some (_, T') => behave k T' n
      | None => behave k T n
      end
  | PPipe k =>
      match fd_alloc T (Some (OPipeR n)) with
      | Some (p0, T1) =>
          match fd_alloc T1 (Some (OPipeW n)) with
          | Some (p1, T2) => behave (k (Some (Z.of_nat p0, Z.of_nat p1))) T2 (S n)
          | None => behave (k None) T n
          end
      | None => behave (k None) T n
      end
  | PFork child parent _ =>
      let '(b1, n1) := behave child T n in
      let '(b2, n2) := behave parent T n1 in
      (Starts b1 b2, n2)
  | PWait k => let '(b, n) := behave k T n in (Waits T b, n)
  | PRead k => behave (k None) T n
  | PWrite _ _ k => behave k T n
  | PChdir _ k => behave (k 0) T n
  end.

(** What the command asks for.  A redirection replaces one descriptor.  The
    commands of a list are processes one after the other: the second starts when
    the first has ended.  In a pipeline the left command writes the pipe and the
    right one reads it, both at the same time, and neither has it open otherwise;
    the process that started them has no end of it open while it waits for both.
    Nobody waits for a background command. *)
Fixpoint wanted (c : cmd_of (list Z)) (T : fdtab) (n : nat) : behaviour * nat :=
  match c with
  | EXEC [] => (Ends, n)
  | EXEC (a :: argv) => (if can_exec a then Runs (a :: argv) T else Ends, n)
  | REDIR c file mode fd =>
      if can_open file mode then wanted c (<[Z.to_nat fd := Some (OFile file mode)]> T) n else (Ends, n)
  | LIST l r =>
      let '(b1, n1) := wanted l T n in
      let '(b2, n2) := wanted r T n1 in
      (Starts b1 (Waits T b2), n2)
  | PIPE l r =>
      let '(b1, n1) := wanted l (<[1%nat := Some (OPipeW n)]> T) (S n) in
      let '(b2, n2) := wanted r (<[0%nat := Some (OPipeR n)]> T) n1 in
      (Starts b1 (Starts b2 (Waits T (Waits T Ends))), n2)
  | BACK c => let '(b, n) := wanted c T n in (Starts b Ends, n)
  end.

(** Redirections are of standard input or output. *)
Fixpoint std_redirs (c : cmd_of (list Z)) : Prop :=
  match c with
  | EXEC _ => True
  | REDIR c _ _ fd => (fd = 0 ∨ fd = 1) ∧ std_redirs c
  | PIPE l r => std_redirs l ∧ std_redirs r
  | LIST l r => std_redirs l ∧ std_redirs r
  | BACK c => std_redirs c
  end.

(** How many descriptors are free. *)
Definition free_count (T : fdtab) : nat := length (List.filter is_free T).

Lemma lowest_free_some T : (1 ≤ free_count T)%nat →
  ∃ i, lowest_free T = Some i ∧ T !! i = Some None ∧ ∀ o, free_count (<[i := Some o]> T) = (free_count T - 1)%nat.
Proof.
  induction T as [|x T IH]; intros Hc; [cbn in Hc; lia|]. destruct x as [o|].
  - destruct IH as (i & E & Hi & Hn); [exact Hc|]. exists (S i). simpl. rewrite E. split_and!; [done|done|]. intros o'. apply Hn.
  - exists 0%nat. split_and!; [done|done|]. intros o. cbn. lia.
Qed.

(** The two descriptors [pipe] takes above the standard ones. *)
Lemma two_free A : (2 ≤ free_count A)%nat →
  ∃ i j, i ≠ j ∧ A !! i = Some None ∧ A !! j = Some None ∧ lowest_free A = Some i ∧
    ∀ o, lowest_free (<[i := Some o]> A) = Some j.
Proof.
  intros Hc. destruct (lowest_free_some A) as (i & Ei & Hi & Hn); [lia|].
  assert (Hlt : (i < length A)%nat) by (apply lookup_lt_is_Some; eauto).
  destruct (lowest_free_some (<[i := Some OConsole]> A)) as (j & Ej & Hj & _); [rewrite Hn; lia|].
  assert (Hne : i ≠ j) by (intros E; rewrite E in Hlt, Hj; rewrite list_lookup_insert_eq in Hj by exact Hlt; discriminate Hj).
  exists i, j. split_and!; [done|done|by rewrite list_lookup_insert_ne in Hj|done|].
  intros o. rewrite <- Ej. clear -Ei. revert i Ei. induction A as [|x A IH]; intros i Ei; [done|]. simpl in Ei.
  destruct x as [o'|]; simpl in Ei.
  - destruct (lowest_free A) as [i'|]; [|done]. injection Ei as <-. simpl. by rewrite (IH i' eq_refl).
  - by injection Ei as <-.
Qed.

Lemma put_back (A : fdtab) i j x y :
  i ≠ j → A !! i = Some None → A !! j = Some None → <[j := None]> (<[i := None]> (<[j := y]> (<[i := x]> A))) = A.
Proof.
  intros Hne Hi Hj. apply list_eq. intros k.
  assert (i < length A ∧ j < length A)%nat as [Li Lj] by (split; apply lookup_lt_is_Some; eauto).
  destruct (decide (k = j)) as [->|Hj']; [rewrite list_lookup_insert_eq by (rewrite !length_insert; lia); done|].
  rewrite list_lookup_insert_ne by done.
  destruct (decide (k = i)) as [->|Hi']; [rewrite list_lookup_insert_eq by (rewrite !length_insert; lia); done|].
  by rewrite !list_lookup_insert_ne by done.
Qed.

Lemma say_behave fd msg k T n : behave (say fd msg k) T n = behave k T n.
Proof. induction msg as [|c msg IH]; simpl; done. Qed.

Lemma close_high fd o0 o1 A k : fd = Z.of_nat (S (S k)) → fd_close (o0 :: o1 :: A) fd = o0 :: o1 :: <[k := None]> A.
Proof. intros ->. unfold fd_close. by rewrite Nat2Z.id. Qed.

Lemma fd_get_high fd o0 o1 A k :
  fd = Z.of_nat (S (S k)) → fd_get (o0 :: o1 :: A) fd = match A !! k with Some x => x | None => None end.
Proof. intros ->. unfold fd_get. by rewrite Nat2Z.id. Qed.

Lemma alloc_high o0 o1 A k x :
  lowest_free A = Some k → fd_alloc (Some o0 :: Some o1 :: A) x = Some (S (S k), Some o0 :: Some o1 :: <[k := x]> A).
Proof. intros E. unfold fd_alloc. cbn [lowest_free is_free]. by rewrite E. Qed.

Lemma behave_fork c p f T n :
  behave (PFork c p f) T n =
    let '(b1, n1) := behave c T n in let '(b2, n2) := behave p T n1 in (Starts b1 b2, n2).
Proof. done. Qed.

Lemma behave_pipe k o0 o1 A i j n :
  lowest_free A = Some i → (∀ o, lowest_free (<[i := Some o]> A) = Some j) →
  behave (PPipe k) (Some o0 :: Some o1 :: A) n =
    behave (k (Some (Z.of_nat (S (S i)), Z.of_nat (S (S j)))))
      (Some o0 :: Some o1 :: <[j := Some (OPipeW n)]> (<[i := Some (OPipeR n)]> A)) (S n).
Proof.
  intros Ei Ej. cbn [behave]. rewrite (alloc_high o0 o1 A i) by done.
  by rewrite (alloc_high o0 o1 (<[i := Some (OPipeR n)]> A) j) by done.
Qed.

(** The two children of a pipeline, up to the command they run. *)
Lemma pipe_left o0 o1 A i j c n :
  i ≠ j → A !! i = Some None → A !! j = Some None →
  let p0 := Z.of_nat (S (S i)) in let p1 := Z.of_nat (S (S j)) in
  behave (PClose 1 (PDup p1 (PClose p0 (PClose p1 c))))
    (Some o0 :: o1 :: <[j := Some (OPipeW n)]> (<[i := Some (OPipeR n)]> A)) (S n) =
  behave c (Some o0 :: Some (OPipeW n) :: A) (S n).
Proof.
  intros Hne Hi Hj p0 p1. assert (Lj : (j < length A)%nat) by (apply lookup_lt_is_Some; eauto).
  cbn [behave]. change (fd_close _ 1) with (Some o0 :: None :: <[j := Some (OPipeW n)]> (<[i := Some (OPipeR n)]> A)).
  replace (fd_get _ p1) with (Some (OPipeW n)).
  2: { rewrite (fd_get_high p1 _ _ _ j) by done. by rewrite list_lookup_insert_eq by (rewrite length_insert; lia). }
  cbn. rewrite (close_high p0 _ _ _ i), (close_high p1 _ _ _ j) by done. by rewrite put_back.
Qed.

Lemma pipe_right o0 o1 A i j c n m :
  i ≠ j → A !! i = Some None → A !! j = Some None →
  let p0 := Z.of_nat (S (S i)) in let p1 := Z.of_nat (S (S j)) in
  behave (PClose 0 (PDup p0 (PClose p0 (PClose p1 c))))
    (o0 :: Some o1 :: <[j := Some (OPipeW n)]> (<[i := Some (OPipeR n)]> A)) m =
  behave c (Some (OPipeR n) :: Some o1 :: A) m.
Proof.
  intros Hne Hi Hj p0 p1. assert (Li : (i < length A)%nat) by (apply lookup_lt_is_Some; eauto).
  cbn [behave]. change (fd_close _ 0) with (None :: Some o1 :: <[j := Some (OPipeW n)]> (<[i := Some (OPipeR n)]> A)).
  replace (fd_get _ p0) with (Some (OPipeR n)).
  2: { rewrite (fd_get_high p0 _ _ _ i) by done. by rewrite list_lookup_insert_ne, list_lookup_insert_eq by done. }
  cbn. rewrite (close_high p0 _ _ _ i), (close_high p1 _ _ _ j) by done. by rewrite put_back.
Qed.

(** All descriptors above standard output are those the shell had. *)
Lemma wanted_rest c o0 o1 A n T' :
  std_redirs c → T' ∈ tables (wanted c (Some o0 :: Some o1 :: A) n).1 → drop 2 T' = A.
Proof.
  revert o0 o1 n. induction c as [ws|c IH f m d|l IHl r IHr|l IHl r IHr|c IH]; intros o0 o1 n Hc; cbn [wanted std_redirs] in *.
  - destruct ws as [|a ws]; [by intros ?%elem_of_nil|]. destruct (can_exec a); [by intros ->%list_elem_of_singleton|by intros ?%elem_of_nil].
  - destruct Hc as [Hd Hc]. destruct (can_open f m); [|by intros ?%elem_of_nil]. destruct Hd as [-> | ->]; by apply IH.
  - destruct Hc as [Hl Hr]. specialize (IHl o0 (OPipeW n) (S n) Hl). cbn [list_insert] in *. destruct (wanted l _ (S n)) as [b1 n1].
    specialize (IHr (OPipeR n) o1 n1 Hr). destruct (wanted r _ n1) as [b2 n2]. cbn [fst tables] in *.
    rewrite !elem_of_app, !elem_of_cons, elem_of_nil. naive_solver.
  - destruct Hc as [Hl Hr]. specialize (IHl o0 o1 n Hl). destruct (wanted l _ n) as [b1 n1].
    specialize (IHr o0 o1 n1 Hr). destruct (wanted r _ n1) as [b2 n2]. cbn [fst tables] in *.
    rewrite elem_of_app, elem_of_cons. naive_solver.
  - specialize (IH o0 o1 n Hc). destruct (wanted c _ n) as [b n']. cbn [fst tables] in *. rewrite elem_of_app, elem_of_nil. naive_solver.
Qed.

Lemma runcmd_behave c o0 o1 A n :
  std_redirs c → (2 ≤ free_count A)%nat →
  behave (runcmd c) (Some o0 :: Some o1 :: A) n = wanted c (Some o0 :: Some o1 :: A) n.
Proof.
  intros Hc Hf. revert o0 o1 n. induction c as [ws|c IH f m d|l IHl r IHr|l IHl r IHr|c IH]; intros o0 o1 n; cbn [runcmd std_redirs] in *.
  - destruct ws as [|a ws]; cbn [behave wanted]; [done|]. destruct (can_exec a); [done|]. by rewrite say_behave.
  - destruct Hc as [Hd Hc]. cbn [behave wanted]. destruct (can_open f m); [|change (-1 <? 0) with true; cbn iota; by rewrite say_behave].
    destruct Hd as [-> | ->].
    + change (fd_alloc _ _) with (Some (0%nat, Some (OFile f m) :: Some o1 :: A)). cbv beta iota. by apply IH.
    + change (fd_alloc _ _) with (Some (1%nat, Some o0 :: Some (OFile f m) :: A)). cbv beta iota. by apply IH.
  - destruct Hc as [Hl Hr]. destruct (two_free A Hf) as (i & j & Hne & Hi & Hj & Ei & Ej).
    rewrite (behave_pipe _ o0 o1 A i j) by done. unfold fork1. cbn [wanted]. rewrite behave_fork, pipe_left by done. rewrite IHl by done.
    destruct (wanted l _ (S n)) as [b1 n1]. rewrite behave_fork, pipe_right by done. rewrite IHr by done.
    destruct (wanted r _ n1) as [b2 n2]. cbn [behave]. rewrite (close_high _ _ _ _ i), (close_high _ _ _ _ j) by done. by rewrite put_back.
  - destruct Hc as [Hl Hr]. unfold fork1. cbn [behave wanted]. rewrite IHl by done. destruct (wanted l _ n) as [b1 n1].
    rewrite IHr by done. by destruct (wanted r _ n1) as [b2 n2].
  - unfold fork1. cbn [behave wanted]. rewrite IH by done. by destruct (wanted c _ n) as [b1 n1].
Qed.

(** C34: Running a parsed command gives exactly the processes its structure asks
    for, when the forks succeed.  They execute the programs it names, each with
    the descriptors its place in the command asks for: redirections and the ends
    of a pipe replace standard input and output.  The second command of a list
    starts only after the wait for the first; both sides of a pipeline are started
    before the waits for them, and the waiting process has no end of the pipe
    open.  Every process that runs a program or waits has, besides its standard
    input and output, the shell's descriptors and no others: no further copy of a
    pipe's ends, which would keep its readers from seeing the end of the input, is
    left. *)
Theorem runcmd_descriptors c o0 o1 A n :
  std_redirs c → (2 ≤ free_count A)%nat →
  behave (runcmd c) (Some o0 :: Some o1 :: A) n = wanted c (Some o0 :: Some o1 :: A) n ∧
  ∀ T, T ∈ tables (behave (runcmd c) (Some o0 :: Some o1 :: A) n).1 → drop 2 T = A.
Proof.
  intros Hc Hf. rewrite runcmd_behave by done. split; [done|]. intros T. by apply wanted_rest.
Qed.
End behaviours.

(** [ls < in | wc > out; sh], on the descriptors the shell starts with. *)
Lemma runcmd_descriptors_witness :
  let c := LIST (PIPE (REDIR (EXEC [str "ls"]) (str "in") O_RDONLY 0) (REDIR (EXEC [str "wc"]) (str "out") 0x201 1)) (EXEC [str "sh"]) in
  let T := [Some OConsole; Some OConsole; Some OConsole; None; None; None] in
  (behave (λ _ _, true) (λ _, true) (runcmd c) T 0).1 =
    Starts
      (Starts (Runs [str "ls"] [Some (OFile (str "in") 0); Some (OPipeW 0); Some OConsole; None; None; None])
        (Starts (Runs [str "wc"] [Some (OPipeR 0); Some (OFile (str "out") 0x201); Some OConsole; None; None; None])
          (Waits T (Waits T Ends))))
      (Waits T (Runs [str "sh"] T)).
Proof.
  intros c T. unfold T.
  destruct (runcmd_descriptors (λ _ _, true) (λ _, true) c OConsole OConsole [Some OConsole; None; None; None] 0) as [H _];
    [split; [split; (split; [auto|exact I])|exact I]|cbn; lia|]. rewrite H. reflexivity.
Defined.
