(* ===== verification/Vm.v ===== *)
(** * Page tables (vm.c)

    The two-level page tables of the x86, in the byte memory of Kalloc.v: a page
    directory and page tables are pages of 1024 words, read and written with
    32-bit loads and stores at the kernel's addresses ([p2v] of a physical
    address).  This file has the code; VmMap.v the theorems.

    [data], the first address of the kernel's writable part, and [kend], its
    end, are set by the linker; [readi] stands for the inode layer where
    [loaduvm] calls it. *)

From stdpp Require Import base numbers list strings.
From Stdlib Require Import ZArith Lia.
From S2P Require Import Prelude CString Kalloc.

#[local] Open Scope Z_scope.

(** src/mmu.h:112-112 *)
Definition PDX (va : Z) : Z := Z.land (Z.shiftr va 22) 0x3FF.
(** src/mmu.h:115-115 *)
Definition PTX (va : Z) : Z := Z.land (Z.shiftr va 12) 0x3FF.
(** src/mmu.h:121-121 *)
Definition NPDENTRIES : Z := 1024.
(** src/mmu.h:122-122 *)
Definition NPTENTRIES : Z := 1024.
(** src/mmu.h:133-133 *)
Definition PTE_P : Z := 0x001.
(** src/mmu.h:134-134 *)
Definition PTE_W : Z := 0x002.
(** src/mmu.h:135-135 *)
Definition PTE_U : Z := 0x004.
(** src/mmu.h:144-144 *)
Definition PTE_ADDR (pte : Z) : Z := Z.land pte (w32 (Z.lnot 0xFFF)).
(** src/mmu.h:145-145 *)
Definition PTE_FLAGS (pte : Z) : Z := Z.land pte 0xFFF.
(** memlayout.h, line 3. *)
Definition EXTMEM : Z := 0x100000.
(** memlayout.h, line 5. *)
Definition DEVSPACE : Z := 0xFE000000.
(** memlayout.h, line 9. *)
Definition KERNLINK : Z := KERNBASE + EXTMEM.

(** A flag of an entry. *)
Definition has (pte flag : Z) : bool := negb (Z.land pte flag =? 0).

Definition ld (a : Z) : M kmem Z := gets (λ k, load32 (k_mem k) a).
Definition st (a v : Z) : M kmem unit := modify (λ k, set_mem (store32 (k_mem k) a v) k).
Definition fill0 (a : Z) : M kmem unit := modify (λ k, set_mem (memset (k_mem k) a 0 PGSIZE) k).

Section code.
Context (kend data : Z).

(** The address of the entry, or 0 -- src/vm.c:45-65 *)
Definition walkpgdir (pgdir va : Z) (alloc : bool) : M kmem Z :=
  let pde := w32 (pgdir + 4 * PDX va) in
  e ← ld pde;
  if has e PTE_P then
    let pgtab := p2v (PTE_ADDR e) in
    mret (w32 (pgtab + 4 * PTX va))
  else if negb alloc then mret 0
  else
    pgtab ← kalloc;
    if pgtab =? 0 then mret 0 else
    fill0 pgtab;;
    st pde (Z.lor (Z.lor (Z.lor (v2p pgtab) PTE_P) PTE_W) PTE_U);;
    mret (w32 (pgtab + 4 * PTX va)).

(** [for(;;)]; it passes [last] after [n] rounds -- src/vm.c:78-89 *)
Fixpoint map_loop (n : nat) (pgdir a last pa perm : Z) : M kmem Z :=
  match n with
  | O => nofuel
  | S n =>
      pte ← walkpgdir pgdir a true;
      if pte =? 0 then mret (-1) else
      e ← ld pte;
      if has e PTE_P then panic "remap" else
      st pte (Z.lor (Z.lor pa perm) PTE_P);;
      if a =? last then mret 0 else
      map_loop n pgdir (w32 (a + PGSIZE)) last (w32 (pa + PGSIZE)) perm
  end.

(** src/vm.c:70-90 *)
Definition mappages (pgdir va size pa perm : Z) : M kmem Z :=
  let a := PGROUNDDOWN va in
  let last := PGROUNDDOWN (w32 (va + size - 1)) in
  map_loop (S (Z.to_nat (w32 (last - a) / PGSIZE))) pgdir a last pa perm.

(** src/vm.c:115-120 *)
Record kmap := mkKmap {
  virt : Z;
  phys_start : Z;
  phys_end : Z;
  kperm : Z;
}.

(** src/vm.c:120-125 *)
Definition kmaps : list kmap := [
  mkKmap KERNBASE 0 EXTMEM PTE_W;
  mkKmap KERNLINK (v2p KERNLINK) (v2p data) 0;
  mkKmap data (v2p data) PHYSTOP PTE_W;
  mkKmap DEVSPACE DEVSPACE 0 PTE_W].

(** [for(k = kmap; ...)] -- src/vm.c:139-143 *)
Fixpoint map_kernel (ks : list kmap) (pgdir : Z) : M kmem Z :=
  match ks with
  | [] => mret pgdir
  | k :: ks =>
      r ← mappages pgdir (virt k) (w32 (phys_end k - phys_start k)) (phys_start k) (kperm k);
      if r <? 0 then mret 0 else map_kernel ks pgdir
  end.

(** src/vm.c:128-144 *)
Definition setupkvm : M kmem Z :=
  pgdir ← kalloc;
  if pgdir =? 0 then mret 0 else
  fill0 pgdir;;
  if p2v PHYSTOP >? DEVSPACE then panic "PHYSTOP too high" else
  map_kernel kmaps pgdir.

(** [init] is the range of memory that holds the initial code -- src/vm.c:181-192 *)
Definition inituvm (pgdir init sz : Z) : M kmem unit :=
  if sz >=? PGSIZE then panic "inituvm: more than a page" else
  mem ← kalloc;
  if mem =? 0 then fault "inituvm: memset(0)" else
  fill0 mem;;
  mappages pgdir 0 PGSIZE (v2p mem) (Z.lor PTE_W PTE_U);;
  modify (λ k, set_mem (memmove (k_mem k) mem init sz) k).

(** Stores the bytes at an address of the kernel, as [readi] does. *)
Fixpoint put_bytes (m : mem) (a : Z) (bs : list Z) : mem :=
  match bs with
  | [] => m
  | c :: bs => put_bytes (upd m a c) (w32 (a + 1)) bs
  end.

(** The loop of [loaduvm], from [i] on -- src/vm.c:204-215 *)
Fixpoint load_loop (fuel : nat) (readi : Z → Z → Z * list Z) (pgdir addr offset sz i : Z) : M kmem Z :=
  match fuel with
  | O => nofuel
  | S fuel =>
      if i <? sz then
        pte ← walkpgdir pgdir (w32 (addr + i)) false;
        if pte =? 0 then panic "loaduvm: address should exist" else
        e ← ld pte;
        let pa := PTE_ADDR e in
        let n := if sz - i <? PGSIZE then sz - i else PGSIZE in
        let r := readi (w32 (offset + i)) n in
        modify (λ k, set_mem (put_bytes (k_mem k) (p2v pa) r.2) k);;
        if negb (r.1 =? n) then mret (-1) else
        load_loop fuel readi pgdir addr offset sz (w32 (i + PGSIZE))
      else mret 0
  end.

(** src/vm.c:196-216 *)
Definition loaduvm (readi : Z → Z → Z * list Z) (pgdir addr offset sz : Z) : M kmem Z :=
  if negb (addr `mod` PGSIZE =? 0) then panic "loaduvm: addr must be page aligned" else
  load_loop (S (Z.to_nat (2^32 / PGSIZE))) readi pgdir addr offset sz 0.

(** The loop of [deallocuvm] -- src/vm.c:259-271 *)
Fixpoint dealloc_loop (fuel : nat) (pgdir a oldsz : Z) : M kmem unit :=
  match fuel with
  | O => nofuel
  | S fuel =>
      if a <? oldsz then
        pte ← walkpgdir pgdir a false;
        if pte =? 0 then dealloc_loop fuel pgdir (w32 (w32 (a + (NPTENTRIES - 1) * PGSIZE) + PGSIZE)) oldsz
        else
          e ← ld pte;
          if has e PTE_P then
            let pa := PTE_ADDR e in
            if pa =? 0 then panic "kfree" else
            kfree kend (p2v pa);;
            st pte 0;;
            dealloc_loop fuel pgdir (w32 (a + PGSIZE)) oldsz
          else dealloc_loop fuel pgdir (w32 (a + PGSIZE)) oldsz
      else mret tt
  end.

(** src/vm.c:249-273 *)
Definition deallocuvm (pgdir oldsz newsz : Z) : M kmem Z :=
  if newsz >=? oldsz then mret oldsz else
  dealloc_loop (S (Z.to_nat (2^32 / PGSIZE))) pgdir (PGROUNDUP newsz) oldsz;;
  mret newsz.

(** The loop of [allocuvm], without the message it prints -- src/vm.c:232-242 *)
Fixpoint alloc_loop (fuel : nat) (pgdir a oldsz newsz : Z) : M kmem Z :=
  match fuel with
  | O => nofuel
  | S fuel =>
      if a <? newsz then
        mem ← kalloc;
        if mem =? 0 then deallocuvm pgdir newsz oldsz;; mret 0
        else
          fill0 mem;;
          mappages pgdir a PGSIZE (v2p mem) (Z.lor PTE_W PTE_U);;
          alloc_loop fuel pgdir (w32 (a + PGSIZE)) oldsz newsz
      else mret newsz
  end.

(** src/vm.c:220-243 *)
Definition allocuvm (pgdir oldsz newsz : Z) : M kmem Z :=
  if newsz >=? KERNBASE then mret 0
  else if newsz <? oldsz then mret oldsz
  else alloc_loop (S (Z.to_nat (2^32 / PGSIZE))) pgdir (PGROUNDUP oldsz) oldsz newsz.

(** src/vm.c:277-292 *)
Definition freevm (pgdir : Z) : M kmem unit :=
  if pgdir =? 0 then panic "freevm: no pgdir" else
  deallocuvm pgdir KERNBASE 0;;
  for_each (seqZ 0 NPDENTRIES) (λ i,
    e ← ld (w32 (pgdir + 4 * i));
    if has e PTE_P then kfree kend (p2v (PTE_ADDR e)) else mret tt);;
  kfree kend pgdir.

(** src/vm.c:296-305 *)
Definition clearpteu (pgdir uva : Z) : M kmem unit :=
  pte ← walkpgdir pgdir uva false;
  if pte =? 0 then panic "clearpteu" else
  e ← ld pte;
  st pte (Z.land e (w32 (Z.lnot PTE_U))).

(** The loop of [copyuvm]; 0 after the jump to [bad] -- src/vm.c:319-336 *)
Fixpoint copy_loop (fuel : nat) (pgdir d sz i : Z) : M kmem Z :=
  match fuel with
  | O => nofuel
  | S fuel =>
      if i <? sz then
        pte ← walkpgdir pgdir i false;
        if pte =? 0 then panic "copyuvm: pte should exist" else
        e ← ld pte;
        if negb (has e PTE_P) then panic "copyuvm: page not present" else
        let pa := PTE_ADDR e in
        let flags := PTE_FLAGS e in
        mem ← kalloc;
        if mem =? 0 then freevm d;; mret 0 else
        modify (λ k, set_mem (memmove (k_mem k) mem (p2v pa) PGSIZE) k);;
        r ← mappages d i PGSIZE (v2p mem) flags;
        if r <? 0 then freevm d;; mret 0 else
        copy_loop fuel pgdir d sz (w32 (i + PGSIZE))
      else mret d
  end.

(** src/vm.c:309-337 *)
Definition copyuvm (pgdir sz : Z) : M kmem Z :=
  d ← setupkvm;
  if d =? 0 then mret 0 else
  copy_loop (S (Z.to_nat (2^32 / PGSIZE))) pgdir d sz 0.

(** [*pte] is read without a test of [pte] -- src/vm.c:341-352 *)
Definition uva2ka (pgdir uva : Z) : M kmem Z :=
  pte ← walkpgdir pgdir uva false;
  if pte =? 0 then fault "uva2ka: *pte" else
  e ← ld pte;
  if negb (has e PTE_P) then mret 0
  else if negb (has e PTE_U) then mret 0
  else mret (p2v (PTE_ADDR e)).

(** [copyout], with the bytes at [p]; [n] is counted by what is left -- src/vm.c:357-378 *)
Fixpoint copyout (fuel : nat) (pgdir va : Z) (buf : list Z) : M kmem Z :=
  match fuel with
  | O => nofuel
  | S fuel =>
      if (length buf =? 0)%nat then mret 0 else
      let va0 := PGROUNDDOWN va in
      pa0 ← uva2ka pgdir va0;
      if pa0 =? 0 then mret (-1) else
      let n := Z.min (PGSIZE - (va - va0)) (Z.of_nat (length buf)) in
      modify (λ k, set_mem (put_bytes (k_mem k) (w32 (pa0 + (va - va0))) (take (Z.to_nat n) buf)) k);;
      copyout fuel pgdir (w32 (va0 + PGSIZE)) (drop (Z.to_nat n) buf)
  end.
End code.
