(* ===== verification/VmMap.v ===== *)
(** * What page tables map: theorems about vm.c

    [look m pgdir n] is the entry the hardware finds for page number [n] of the
    address space whose directory is at [pgdir].  Under the invariant [pt_ok]
    (directory and tables are different pages, none of them free), mapping
    pages changes exactly the entries it should, and [allocuvm] gives a
    process new pages, zeroed, different from each other and from every page
    in use. *)

From stdpp Require Import base numbers list strings.
From Stdlib Require Import ZArith Lia.
From S2P Require Import Prelude CString Kalloc Vm.

#[local] Open Scope Z_scope.

(** ** Bits *)

Lemma land_mask v : 0 ≤ v < 2^32 → Z.land v (w32 (Z.lnot 0xFFF)) = v / 4096 * 4096.
Proof.
  intros Hv. change (w32 (Z.lnot 0xFFF)) with (Z.ldiff (Z.ones 32) (Z.ones 12)). by apply land_high.
Qed.

Lemma PGROUNDDOWN_spec a : 0 ≤ a < 2^32 → PGROUNDDOWN a = a / 4096 * 4096.
Proof. intros. unfold PGROUNDDOWN, PGSIZE. by apply land_mask. Qed.

Lemma PDX_spec va : 0 ≤ va < 2^32 → PDX va = va / 4096 / 1024.
Proof.
  intros Hv. unfold PDX. rewrite Z.shiftr_div_pow2 by lia. change 0x3FF with (Z.ones 10). rewrite Z.land_ones by lia.
  rewrite Z.div_div by lia. change (2^22) with (4096 * 1024). apply Z.mod_small.
  split; [apply Z.div_pos; lia|]. apply Z.div_lt_upper_bound; lia.
Qed.

Lemma PTX_spec va : PTX va = (va / 4096) `mod` 1024.
Proof.
  unfold PTX. rewrite Z.shiftr_div_pow2 by lia. change 0x3FF with (Z.ones 10). by rewrite Z.land_ones by lia.
Qed.

(** A page address together with flags. *)
Lemma entry_parts pa f :
  0 ≤ pa < 2^32 → pa `mod` 4096 = 0 → 0 ≤ f < 4096 → PTE_ADDR (Z.lor pa f) = pa ∧ 0 ≤ Z.lor pa f < 2^32.
Proof.
  intros Hpa Hm Hf.
  assert (Hl : Z.lor pa f = pa + f).
  { assert (Hand : Z.land pa f = 0).
    { apply Z.bits_inj'. intros n Hn. rewrite Z.land_spec, Z.bits_0. destruct (decide (n < 12)).
      - replace pa with (pa / 4096 * 2^12) by (pose proof (Z.div_mod pa 4096); lia). by rewrite Z.mul_pow2_bits_low by lia.
      - rewrite (Z.bits_above_log2 f n); [apply andb_false_r|lia|]. destruct (decide (f = 0)) as [->|]; [simpl; lia|].
        apply Z.log2_lt_pow2; [lia|]. apply Z.lt_le_trans with (2^12); [lia|]. apply Z.pow_le_mono_r; lia. }
    pose proof (Z.add_lor_land pa f) as E. lia. }
  pose proof (Z.div_mod pa 4096). assert (pa + 4096 ≤ 2^32) by (pose proof (Z.div_lt_upper_bound pa 4096 (2^20)); lia).
  unfold PTE_ADDR. rewrite Hl. split; [|lia]. rewrite land_mask by lia.
  replace (pa + f) with (f + pa / 4096 * 4096) by lia. rewrite Z.div_add, (Z.div_small f) by lia. lia.
Qed.

Lemma has_lor v : has (Z.lor v PTE_P) PTE_P = true.
Proof.
  unfold has, PTE_P. apply negb_true_iff, Z.eqb_neq. intros E. apply (f_equal (λ x, Z.testbit x 0)) in E.
  rewrite Z.land_spec, Z.lor_spec, Z.bits_0 in E. change (Z.testbit 1 0) with true in E. by rewrite orb_true_r in E.
Qed.

(** ** The entries of an address space *)

(** The page table of directory entry [d]. *)
Definition tab (m : mem) (pgdir d : Z) : option Z :=
  let e := load32 m (pgdir + 4 * d) in
  if has e PTE_P then Some (p2v (PTE_ADDR e)) else None.

(** The entry for page number [n]; 0 if there is no table. *)
Definition look (m : mem) (pgdir n : Z) : Z :=
  match tab m pgdir (n / 1024) with
  | Some t => load32 m (t + 4 * (n `mod` 1024))
  | None => 0
  end.

Section proofs.
Context (kend : Z) (Hend : KERNBASE < kend ≤ KERNBASE + PHYSTOP).
#[local] Abbreviation is_page := (is_page kend).
#[local] Abbreviation kmem_ok := (kmem_ok kend).
Implicit Types (m : mem) (k : kmem) (l : list Z).

(** The directory and the tables are pages, all different, and none is free. *)
Record pt_ok m (pgdir : Z) l : Prop := {
  pt_dir : is_page pgdir;
  pt_dir_used : pgdir ∉ l;
  pt_tab d t : 0 ≤ d < 1024 → tab m pgdir d = Some t → is_page t ∧ t ∉ l ∧ t ≠ pgdir;
  pt_inj d d' t : 0 ≤ d < 1024 → 0 ≤ d' < 1024 → tab m pgdir d = Some t → tab m pgdir d' = Some t → d = d';
}.

(** The pages the address space is made of. *)
Definition is_tab m (pgdir p : Z) : Prop := p = pgdir ∨ ∃ d, 0 ≤ d < 1024 ∧ tab m pgdir d = Some p.

Lemma page_range p : is_page p → KERNBASE < p ∧ p + 4096 ≤ KERNBASE + PHYSTOP ∧ p `mod` 4096 = 0.
Proof. intros Hp. pose proof (page_top kend p Hp). destruct Hp as [Hm Hr]. unfold PGSIZE in *. lia. Qed.

Lemma load_in m m' p i :
  is_page p → 0 ≤ i < 1024 → (∀ a, p ≤ a < p + 4096 → m' a = m a) → load32 m' (p + 4 * i) = load32 m (p + 4 * i).
Proof.
  intros Hp Hi H. pose proof (page_range p Hp). unfold KERNBASE, PHYSTOP in *.
  apply load32_ext; [lia|lia|]. intros x Hx. apply H. lia.
Qed.

Lemma ptab_ext m m' pgdir d :
  is_page pgdir → 0 ≤ d < 1024 → (∀ a, pgdir ≤ a < pgdir + 4096 → m' a = m a) → tab m' pgdir d = tab m pgdir d.
Proof. intros Hp Hd H. unfold tab. by rewrite (load_in m m'). Qed.

(** Pages keep their contents unless they overlap with the one written. *)
Lemma other_page m m' p q :
  is_page p → is_page q → p ≠ q → (∀ a, ¬ (p ≤ a < p + 4096) → m' a = m a) → ∀ a, q ≤ a < q + 4096 → m' a = m a.
Proof.
  intros Hp Hq Hne H a Ha. apply H. destruct (page_apart kend p q Hp Hq Hne); unfold PGSIZE in *; lia.
Qed.

(** Writing into pages that are not free does not touch the free list. *)
Lemma kmem_ok_write k l m' :
  kmem_ok k l → (∀ q a, q ∈ l → q ≤ a < q + 4096 → m' a = k_mem k a) → kmem_ok (set_mem m' k) l.
Proof.
  intros (Hk & Hc & Hl & Hn) H. split; [done|]. split; [|by split]. eapply (chain_ext kend); [done|done| |exact Hc].
  intros q a Hq Ha. symmetry. apply (H q); [done|lia].
Qed.

(** Storing an entry of a table. *)
Lemma store_entry m pgdir l d t j v :
  pt_ok m pgdir l → 0 ≤ d < 1024 → 0 ≤ j < 1024 → tab m pgdir d = Some t → 0 ≤ v < 2^32 →
  let m' := store32 m (t + 4 * j) v in
  pt_ok m' pgdir l ∧ (∀ d', 0 ≤ d' < 1024 → tab m' pgdir d' = tab m pgdir d') ∧
  (∀ n, 0 ≤ n < 2^20 → look m' pgdir n = if decide (n = 1024 * d + j) then v else look m pgdir n) ∧
  (∀ a, ¬ (t ≤ a < t + 4096) → m' a = m a).
Proof.
  intros P Hd Hj Ht Hv m'. destruct (pt_tab _ _ _ P d t Hd Ht) as (Hpt & Htl & Htd). pose proof (page_range t Hpt) as Hr.
  unfold KERNBASE, PHYSTOP in Hr. pose proof (pt_dir _ _ _ P) as Hpd.
  assert (Hout : ∀ a, ¬ (t ≤ a < t + 4096) → m' a = m a).
  { intros a Ha. apply store32_other; [lia|lia|]. lia. }
  assert (Htab : ∀ d', 0 ≤ d' < 1024 → tab m' pgdir d' = tab m pgdir d').
  { intros d' Hd'. apply ptab_ext; [done|done|]. by apply (other_page m m' t pgdir). }
  split_and!; [|done| |done].
  - split; [apply P|apply P| |].
    + intros d' t' Hd'. rewrite Htab by done. by apply P.
    + intros d1 d2 t' H1 H2. rewrite !Htab by done. by apply P.
  - intros n Hn. pose proof (Z.div_mod n 1024). pose proof (Z.mod_pos_bound n 1024).
    assert (Hnd : 0 ≤ n / 1024 < 1024) by (split; [apply Z.div_pos; lia|apply Z.div_lt_upper_bound; lia]).
    unfold look. rewrite Htab by done. destruct (tab m pgdir (n / 1024)) as [t'|] eqn:E.
    2: { rewrite decide_False; [done|]. intros ->. replace ((1024 * d + j) / 1024) with d in E; [congruence|].
         apply (Z.div_unique_pos _ _ _ j); lia. }
    destruct (decide (t' = t)) as [->|Hne].
    + assert (n / 1024 = d) by (by apply (pt_inj _ _ _ P _ _ t)). destruct (decide (n `mod` 1024 = j)) as [Ej|Ej].
      * rewrite decide_True by lia. rewrite Ej. apply load32_store32; lia.
      * rewrite decide_False by lia. apply load32_ext; [lia|lia|]. intros x Hx. apply store32_other; lia.
    + rewrite decide_False; [|intros ->; destruct Hne].
      * destruct (pt_tab _ _ _ P (n / 1024) t' Hnd E) as (Hp' & _). apply load_in; [done|lia|]. by apply (other_page m m' t t').
      * replace ((1024 * d + j) / 1024) with d in E; [congruence|]. apply (Z.div_unique_pos _ _ _ j); lia.
Qed.

Lemma v2p_page t : is_page t → 0 ≤ v2p t < 2^32 ∧ v2p t `mod` 4096 = 0 ∧ p2v (v2p t) = t ∧ 0 < v2p t.
Proof.
  intros Ht. pose proof (page_range t Ht) as (H1 & H2 & H3). unfold v2p, p2v, KERNBASE, PHYSTOP in *. rewrite (w32_small (t - _)) by lia.
  split_and!; [lia|lia| |rewrite w32_small by lia; lia|lia].
  rewrite Zminus_mod, H3. reflexivity.
Qed.

(** The entry for a new table. *)
Lemma dir_entry t :
  is_page t → let e := Z.lor (Z.lor (Z.lor (v2p t) PTE_P) PTE_W) PTE_U in
  0 ≤ e < 2^32 ∧ has e PTE_P = true ∧ p2v (PTE_ADDR e) = t.
Proof.
  intros Ht e. destruct (v2p_page t Ht) as (H1 & H2 & H3 & _).
  assert (E : e = Z.lor (v2p t) 7) by (unfold e, PTE_P, PTE_W, PTE_U; by rewrite <- !Z.lor_assoc).
  destruct (entry_parts (v2p t) 7) as [Ha Hb]; [done|done|lia|]. rewrite E. split_and!; [lia|lia| |by rewrite Ha].
  replace (Z.lor (v2p t) 7) with (Z.lor (Z.lor (v2p t) 6) PTE_P) by (by rewrite <- Z.lor_assoc). apply has_lor.
Qed.

Lemma zero_entry m t j : is_page t → 0 ≤ j < 1024 → (∀ a, t ≤ a < t + 4096 → m a = 0) → load32 m (t + 4 * j) = 0.
Proof.
  intros Ht Hj H. pose proof (page_range t Ht). unfold KERNBASE, PHYSTOP in *. unfold load32. rewrite !w32_small by lia.
  by rewrite !H by lia.
Qed.

(** A free page becomes the table of a directory entry that had none. *)
Lemma new_table m pgdir l t d :
  pt_ok m pgdir (t :: l) → is_page t → t ∉ l → 0 ≤ d < 1024 → tab m pgdir d = None →
  let m' := store32 (memset m t 0 PGSIZE) (pgdir + 4 * d) (Z.lor (Z.lor (Z.lor (v2p t) PTE_P) PTE_W) PTE_U) in
  pt_ok m' pgdir l ∧ tab m' pgdir d = Some t ∧ (∀ d', 0 ≤ d' < 1024 → d' ≠ d → tab m' pgdir d' = tab m pgdir d') ∧
  (∀ n, 0 ≤ n < 2^20 → look m' pgdir n = look m pgdir n) ∧
  (∀ a, ¬ (t ≤ a < t + 4096) → ¬ (pgdir ≤ a < pgdir + 4096) → m' a = m a).
Proof.
  intros P Ht Htl Hd Hnone. pose proof (pt_dir _ _ _ P) as Hpd. pose proof (pt_dir_used _ _ _ P) as Hdu.
  rewrite not_elem_of_cons in Hdu. destruct Hdu as [Hne Hdl].
  pose proof (page_range t Ht) as Rt. pose proof (page_range pgdir Hpd) as Rd. unfold KERNBASE, PHYSTOP in Rt, Rd.
  destruct (dir_entry t Ht) as (He1 & He2 & He3). set (e := Z.lor _ PTE_U) in *. cbv zeta.
  set (m1 := memset m t 0 PGSIZE). set (m' := store32 m1 _ e).
  assert (H1 : ∀ a, m1 a = if decide (t ≤ a < t + 4096) then 0 else m a).
  { intros a. unfold m1, PGSIZE. by rewrite memset_spec by lia. }
  pose proof (page_apart kend t pgdir Ht Hpd (not_eq_sym Hne)) as Hap. unfold PGSIZE in Hap.
  assert (Hd1 : ∀ a, ¬ (pgdir ≤ a < pgdir + 4096) → m' a = m1 a) by (intros a Ha; apply store32_other; lia).
  assert (Hself : tab m' pgdir d = Some t).
  { unfold tab, m'. rewrite load32_store32 by lia. by rewrite He2, He3. }
  assert (Hoth : ∀ d', 0 ≤ d' < 1024 → d' ≠ d → tab m' pgdir d' = tab m pgdir d').
  { intros d' Hd' Hn. unfold tab. replace (load32 m' (pgdir + 4 * d')) with (load32 m (pgdir + 4 * d')); [done|].
    symmetry. transitivity (load32 m1 (pgdir + 4 * d')).
    - apply load32_ext; [lia|lia|]. intros x Hx. apply store32_other; lia.
    - apply load_in; [done|done|]. intros a Ha. rewrite H1. by rewrite decide_False by lia. }
  assert (Hold : ∀ d' t', 0 ≤ d' < 1024 → d' ≠ d → tab m pgdir d' = Some t' → is_page t' ∧ t' ≠ t ∧ t' ∉ l ∧ t' ≠ pgdir).
  { intros d' t' Hd' Hn E. destruct (pt_tab _ _ _ P d' t' Hd' E) as (Q1 & Q2 & Q3). rewrite not_elem_of_cons in Q2. tauto. }
  split_and!; [|done|done| |].
  - split; [done|done| |].
    + intros d' t' Hd' E. destruct (decide (d' = d)) as [->|Hn].
      * rewrite Hself in E. injection E as <-. split_and!; [done|done|congruence].
      * rewrite Hoth in E by done. destruct (Hold d' t' Hd' Hn E) as (? & ? & ? & ?). done.
    + intros d1 d2 t' H2 H3 E1 E2. destruct (decide (d1 = d)) as [->|N1], (decide (d2 = d)) as [->|N2]; try done.
      * rewrite Hself in E1. injection E1 as <-. rewrite Hoth in E2 by done. by destruct (Hold d2 t H3 N2 E2) as (_ & ? & _).
      * rewrite Hself in E2. injection E2 as <-. rewrite Hoth in E1 by done. by destruct (Hold d1 t H2 N1 E1) as (_ & ? & _).
      * rewrite Hoth in E1, E2 by done. apply (pt_inj _ _ _ P _ _ t'); done.
  - intros n Hn. pose proof (Z.mod_pos_bound n 1024).
    assert (Hnd : 0 ≤ n / 1024 < 1024) by (split; [apply Z.div_pos; lia|apply Z.div_lt_upper_bound; lia]).
    unfold look. destruct (decide (n / 1024 = d)) as [->|Hn'].
    + rewrite Hself, Hnone. apply zero_entry; [done|lia|]. intros a Ha. rewrite Hd1 by lia. rewrite H1. by rewrite decide_True.
    + rewrite Hoth by done. destruct (tab m pgdir (n / 1024)) as [t'|] eqn:E; [|done].
      destruct (Hold _ t' Hnd Hn' E) as (Q1 & Q2 & _ & Q4). apply load_in; [done|lia|]. intros a Ha.
      destruct (page_apart kend t' pgdir Q1 Hpd Q4), (page_apart kend t' t Q1 Ht Q2); unfold PGSIZE in *;
        rewrite Hd1, H1, decide_False by lia; done.
  - intros a Ha1 Ha2. rewrite Hd1, H1 by done. by rewrite decide_False.
Qed.

(** ** Walking and mapping *)

Lemma page_index n : 0 ≤ n < 2^20 → 0 ≤ n / 1024 < 1024 ∧ 0 ≤ n `mod` 1024 < 1024 ∧ n = 1024 * (n / 1024) + n `mod` 1024.
Proof.
  intros. pose proof (Z.div_mod n 1024). pose proof (Z.mod_pos_bound n 1024).
  split_and!; try lia.
Qed.

Lemma page_of n : 4096 * n / 4096 = n.
Proof. rewrite Z.mul_comm. by apply Z.div_mul. Qed.

Lemma walk_present k l pgdir n t alloc (Q : Z → kmem → Prop) :
  pt_ok (k_mem k) pgdir l → 0 ≤ n < 2^20 → tab (k_mem k) pgdir (n / 1024) = Some t →
  Q (t + 4 * (n `mod` 1024)) k → wp (walkpgdir pgdir (4096 * n) alloc) Q k.
Proof.
  intros P Hn Ht HQ. destruct (page_index n Hn) as (Hd & Hj & _). pose proof (page_range _ (pt_dir _ _ _ P)) as Rd.
  destruct (pt_tab _ _ _ P _ t Hd Ht) as (Hpt & _). pose proof (page_range _ Hpt) as Rt. unfold KERNBASE, PHYSTOP in Rd, Rt.
  unfold walkpgdir. rewrite PDX_spec, PTX_spec, page_of by lia. rewrite (w32_small (pgdir + _)) by lia.
  apply wp_bind, wp_gets. unfold tab in Ht. destruct (has _ PTE_P); [|done]. injection Ht as ->.
  apply wp_ret. by rewrite w32_small by lia.
Qed.

(** What an address space keeps when page tables are added to it. *)
Record vm_ext pgdir m l m' l' : Prop := {
  ve_ok : pt_ok m' pgdir l';
  ve_free : ∃ new, l = new ++ l';
  ve_tab d t : 0 ≤ d < 1024 → tab m pgdir d = Some t → tab m' pgdir d = Some t;
  ve_tabs p : is_tab m' pgdir p → is_tab m pgdir p ∨ p ∈ l ∧ p ∉ l';
  ve_frame p : is_page p → p ∉ l → ¬ is_tab m pgdir p → ∀ a, p ≤ a < p + 4096 → m' a = m a;
}.

Lemma vm_ext_refl pgdir m l : pt_ok m pgdir l → vm_ext pgdir m l m l.
Proof. intros P. split; [done|by exists []|done|by left|done]. Qed.

Lemma vm_ext_trans pgdir m l m1 l1 m2 l2 :
  vm_ext pgdir m l m1 l1 → vm_ext pgdir m1 l1 m2 l2 → vm_ext pgdir m l m2 l2.
Proof.
  intros E1 E2. destruct (ve_free _ _ _ _ _ E1) as [n1 F1]. destruct (ve_free _ _ _ _ _ E2) as [n2 F2]. split.
  - apply E2.
  - exists (n1 ++ n2). by rewrite F1, F2, app_assoc.
  - intros d t Hd Ht. apply (ve_tab _ _ _ _ _ E2); [done|]. by apply (ve_tab _ _ _ _ _ E1).
  - intros p Hp. destruct (ve_tabs _ _ _ _ _ E2 p Hp) as [H|[H1 H2]].
    + destruct (ve_tabs _ _ _ _ _ E1 p H) as [?|[Q1 Q2]]; [by left|right]. split; [done|]. intros H3. apply Q2. rewrite F2. apply elem_of_app. by right.
    + right. split; [|done]. rewrite F1. apply elem_of_app. by right.
  - intros p Hp Hl Hn a Ha. assert (Hl1 : p ∉ l1) by (rewrite F1 in Hl; rewrite not_elem_of_app in Hl; tauto).
    rewrite (ve_frame _ _ _ _ _ E2 p); [by apply (ve_frame _ _ _ _ _ E1 p)|done|done| |done].
    intros H. destruct (ve_tabs _ _ _ _ _ E1 p H) as [?|[? _]]; done.
Qed.

Lemma walk_new k l pgdir n t (Q : Z → kmem → Prop) :
  kmem_ok k (t :: l) → pt_ok (k_mem k) pgdir (t :: l) → 0 ≤ n < 2^20 → tab (k_mem k) pgdir (n / 1024) = None →
  (∀ k', kmem_ok k' l → vm_ext pgdir (k_mem k) (t :: l) (k_mem k') l → tab (k_mem k') pgdir (n / 1024) = Some t →
     (∀ d, 0 ≤ d < 1024 → d ≠ n / 1024 → tab (k_mem k') pgdir d = tab (k_mem k) pgdir d) →
     (∀ n, 0 ≤ n < 2^20 → look (k_mem k') pgdir n = look (k_mem k) pgdir n) → Q (t + 4 * (n `mod` 1024)) k') →
  wp (walkpgdir pgdir (4096 * n) true) Q k.
Proof.
  intros Hk P Hn Ht HQ. destruct (page_index n Hn) as (Hd & Hj & _). pose proof (pt_dir _ _ _ P) as Hpd. pose proof (page_range _ Hpd) as Rd.
  assert (Hpt : is_page t) by (destruct Hk as (_ & _ & Hl & _); by apply Forall_cons in Hl as [? _]).
  assert (Hpl : Forall is_page l) by (destruct Hk as (_ & _ & Hl & _); by apply Forall_cons in Hl as [_ ?]).
  assert (Htl : t ∉ l) by (destruct Hk as (_ & _ & _ & Hl); by apply NoDup_cons in Hl as [? _]).
  pose proof (page_range _ Hpt) as Rt. unfold KERNBASE, PHYSTOP in Rd, Rt.
  unfold walkpgdir. rewrite PDX_spec, PTX_spec, page_of by lia. rewrite (w32_small (pgdir + _)) by lia.
  apply wp_bind, wp_gets. pose proof Ht as Ht'. unfold tab in Ht'. destruct (has _ PTE_P); [done|]. cbn [negb].
  apply wp_bind. eapply (kalloc_run kend Hend); [exact Hk|]. intros k1 Hk1 _ Em. cbn [tail] in Hk1.
  change (default 0 (head (t :: l))) with t. rewrite (proj2 (Z.eqb_neq t 0)) by lia.
  apply wp_bind, wp_modify, wp_bind, wp_modify, wp_ret. rewrite w32_small by lia. cbn [k_mem set_mem]. rewrite Em.
  destruct (new_table (k_mem k) pgdir l t (n / 1024) P Hpt Htl Hd Ht) as (P' & T1 & T2 & T3 & T4).
  pose proof (pt_dir_used _ _ _ P) as Hdu. rewrite not_elem_of_cons in Hdu.
  apply HQ; cbn [k_mem set_mem]; try done.
  - refine (kmem_ok_write k1 l _ Hk1 _). intros q a Hq Ha. rewrite Em. rewrite Forall_forall in Hpl. pose proof (Hpl q Hq) as Hpq.
    destruct (page_apart kend q t), (page_apart kend q pgdir); try done; unfold PGSIZE in *; try (intros ->; tauto); apply T4; lia.
  - split; [done|by exists [t]| | |].
    + intros d t' Hd' E. rewrite T2; [done|done|]. intros ->. congruence.
    + intros p [->|(d & Hd' & E)]; [by left; left|]. destruct (decide (d = n / 1024)) as [->|Hne].
      * rewrite T1 in E. injection E as <-. right. split; [apply list_elem_of_here|done].
      * left. right. exists d. by rewrite <- T2.
    + intros p Hp Hl Hnt a Ha. rewrite not_elem_of_cons in Hl. assert (p ≠ pgdir) by (intros ->; apply Hnt; by left).
      destruct (page_apart kend p t), (page_apart kend p pgdir); try done; unfold PGSIZE in *; try tauto; apply T4; lia.
Qed.

(** The entry that [mappages] stores. *)
Lemma map_entry pa perm :
  0 ≤ pa < 2^32 → pa `mod` 4096 = 0 → 0 ≤ perm < 4096 → 0 ≤ Z.lor (Z.lor pa perm) PTE_P < 2^32.
Proof.
  intros Hpa Hm Hf. rewrite <- Z.lor_assoc. apply entry_parts; [done|done|].
  split; [apply Z.lor_nonneg; unfold PTE_P; lia|]. change 4096 with (2^12). apply Z.log2_lt_cancel.
  rewrite Z.log2_lor, Z.log2_pow2 by (unfold PTE_P; lia). change (Z.log2 PTE_P) with 0.
  pose proof (Z.log2_nonneg perm). destruct (decide (perm = 0)) as [->|]; [simpl; lia|].
  assert (Z.log2 perm < 12) by (apply Z.log2_lt_pow2; lia). lia.
Qed.

(** The pages left after the table for page [n] is there. *)
Definition rest_free m pgdir l (n : Z) : list Z := match tab m pgdir (n / 1024) with None => tail l | Some _ => l end.

(** Walking with allocation: a table is there, or is made from a free page. *)
Lemma walk_alloc k l pgdir n (Q : Z → kmem → Prop) :
  kmem_ok k l → pt_ok (k_mem k) pgdir l → 0 ≤ n < 2^20 → (tab (k_mem k) pgdir (n / 1024) = None → l ≠ []) →
  (∀ k' t, kmem_ok k' (rest_free (k_mem k) pgdir l n) →
     vm_ext pgdir (k_mem k) l (k_mem k') (rest_free (k_mem k) pgdir l n) →
     tab (k_mem k') pgdir (n / 1024) = Some t →
     (∀ d, 0 ≤ d < 1024 → d ≠ n / 1024 → tab (k_mem k') pgdir d = tab (k_mem k) pgdir d) →
     (∀ n, 0 ≤ n < 2^20 → look (k_mem k') pgdir n = look (k_mem k) pgdir n) → Q (t + 4 * (n `mod` 1024)) k') →
  wp (walkpgdir pgdir (4096 * n) true) Q k.
Proof.
  intros Hk P Hn Hl HQ. unfold rest_free in *. destruct (tab (k_mem k) pgdir (n / 1024)) as [t|] eqn:Et.
  - eapply walk_present; [done|done|done|]. apply HQ; try done. by apply vm_ext_refl.
  - destruct l as [|t l]; [by destruct Hl|]. apply (walk_new k l pgdir n t); try done. intros k' H1 H2 H3 H4 H5. by apply HQ.
Qed.

(** Storing an entry keeps what [vm_ext] keeps. *)
Lemma vm_ext_store pgdir m l d t j v :
  pt_ok m pgdir l → 0 ≤ d < 1024 → 0 ≤ j < 1024 → tab m pgdir d = Some t → 0 ≤ v < 2^32 →
  vm_ext pgdir m l (store32 m (t + 4 * j) v) l.
Proof.
  intros P Hd Hj Ht Hv. destruct (store_entry m pgdir l d t j v P Hd Hj Ht Hv) as (P' & T1 & _ & T3). split.
  - done.
  - by exists [].
  - intros d' t' Hd'. by rewrite T1.
  - intros p [->|(d' & Hd' & E)]; left; [by left|right]. exists d'. by rewrite <- T1.
  - intros p Hp Hl Hn a Ha. apply T3. destruct (pt_tab _ _ _ P d t Hd Ht) as (Hpt & _).
    assert (p ≠ t) by (intros ->; apply Hn; right; by exists d).
    destruct (page_apart kend p t); try done; unfold PGSIZE in *; lia.
Qed.

Lemma mappages_one k l pgdir n pa perm (Q : Z → kmem → Prop) :
  kmem_ok k l → pt_ok (k_mem k) pgdir l → 0 ≤ n < 2^20 → 0 ≤ pa < 2^32 → pa `mod` 4096 = 0 → 0 ≤ perm < 4096 →
  has (look (k_mem k) pgdir n) PTE_P = false → (tab (k_mem k) pgdir (n / 1024) = None → l ≠ []) →
  (∀ k', kmem_ok k' (rest_free (k_mem k) pgdir l n) →
     vm_ext pgdir (k_mem k) l (k_mem k') (rest_free (k_mem k) pgdir l n) →
     is_Some (tab (k_mem k') pgdir (n / 1024)) →
     (∀ d, 0 ≤ d < 1024 → d ≠ n / 1024 → tab (k_mem k') pgdir d = tab (k_mem k) pgdir d) →
     (∀ i, 0 ≤ i < 2^20 → look (k_mem k') pgdir i =
        if decide (i = n) then Z.lor (Z.lor pa perm) PTE_P else look (k_mem k) pgdir i) → Q 0 k') →
  wp (mappages pgdir (4096 * n) PGSIZE pa perm) Q k.
Proof.
  intros Hk P Hn Hpa Hpm Hperm Hnp Hl HQ. unfold mappages, PGSIZE.
  rewrite (w32_small (4096 * n + 4096 - 1)) by lia. rewrite !PGROUNDDOWN_spec by lia. rewrite page_of.
  replace ((4096 * n + 4096 - 1) / 4096) with n by (apply (Z.div_unique_pos _ _ _ 4095); lia).
  rewrite Z.sub_diag. cbn [map_loop Z.to_nat]. rewrite (Z.mul_comm n 4096). apply wp_bind.
  destruct (page_index n Hn) as (Hd & Hj & En).
  apply (walk_alloc k l); [done..|]. intros k1 t Hk1 E1 Ht1 Htab Hlook.
  pose proof (ve_ok _ _ _ _ _ E1) as P1. destruct (pt_tab _ _ _ P1 _ t Hd Ht1) as (Hpt & Htl & _).
  pose proof (page_range _ Hpt) as Rt. unfold KERNBASE, PHYSTOP in Rt. rewrite (proj2 (Z.eqb_neq (t + _) 0)) by lia.
  apply wp_bind, wp_gets.
  replace (load32 (k_mem k1) (t + 4 * (n `mod` 1024))) with (look (k_mem k) pgdir n)
    by (rewrite <- Hlook by done; unfold look; by rewrite Ht1).
  rewrite Hnp. apply wp_bind, wp_modify. rewrite Z.eqb_refl. apply wp_ret.
  pose proof (map_entry pa perm Hpa Hpm Hperm) as Hv.
  destruct (store_entry (k_mem k1) pgdir _ _ t (n `mod` 1024) _ P1 Hd Hj Ht1 Hv) as (P2 & T1 & T2 & T3).
  apply HQ; cbn [k_mem set_mem].
  - apply kmem_ok_write; [done|]. intros q a Hq Ha. apply T3. destruct Hk1 as (_ & _ & Hpl & _). rewrite Forall_forall in Hpl.
    destruct (page_apart kend q t); [by apply Hpl|done|by intros ->|..]; unfold PGSIZE in *; lia.
  - eapply vm_ext_trans; [exact E1|]. by apply (vm_ext_store pgdir (k_mem k1) _ (n / 1024) t).
  - rewrite T1 by done. by rewrite Ht1.
  - intros d Hd' Hne. rewrite T1 by done. by apply Htab.
  - intros i Hi. rewrite T2 by done. rewrite <- En. case_decide; [done|]. by apply Hlook.
Qed.

(** ** Growing a process *)

(** How many tables are missing for [c] pages from [n] on. *)
Definition no_tab m pgdir (d : Z) : bool := match tab m pgdir d with None => true | Some _ => false end.
Definition missing m pgdir (n : Z) (c : nat) : nat :=
  match c with
  | O => 0
  | S c => length (List.filter (no_tab m pgdir) (seqZ (n / 1024) ((n + Z.of_nat c) / 1024 - n / 1024 + 1)))
  end.

Lemma missing_step m m' pgdir n c :
  0 ≤ n → n + Z.of_nat (S c) ≤ 2^20 → is_Some (tab m' pgdir (n / 1024)) →
  (∀ d, 0 ≤ d < 1024 → d ≠ n / 1024 → tab m' pgdir d = tab m pgdir d) →
  (missing m' pgdir (n + 1) c + (if no_tab m pgdir (n / 1024) then 1 else 0) = missing m pgdir n (S c))%nat.
Proof.
  intros Hn Hc Hs Hd. unfold missing. set (dl := (n + Z.of_nat c) / 1024).
  assert (Hdl : n / 1024 ≤ dl < 1024) by (split; [apply Z.div_le_mono; lia|apply Z.div_lt_upper_bound; lia]).
  assert (H0 : 0 ≤ n / 1024) by (apply Z.div_pos; lia).
  rewrite (seqZ_cons (n / 1024)) by lia. cbn [List.filter].
  set (rest := seqZ (Z.succ (n / 1024)) (Z.pred (dl - n / 1024 + 1))).
  assert (Hrest : List.filter (no_tab m' pgdir) rest = List.filter (no_tab m pgdir) rest).
  { apply filter_ext_in. intros d Hin. apply list_elem_of_In, elem_of_seqZ in Hin. unfold no_tab. by rewrite Hd by lia. }
  assert (Hself : no_tab m' pgdir (n / 1024) = false) by (destruct Hs as [t Ht]; unfold no_tab; by rewrite Ht).
  destruct c as [|c].
  { assert (Hnil : rest = []) by (unfold rest, dl; rewrite Z.add_0_r, Z.sub_diag; done). rewrite Hnil. by destruct (no_tab m pgdir (n / 1024)). }
  replace (n + 1 + Z.of_nat c) with (n + Z.of_nat (S c)) by lia. fold dl.
  assert (Hd1 : (n + 1) / 1024 = n / 1024 ∨ (n + 1) / 1024 = n / 1024 + 1).
  { pose proof (Z.div_mod n 1024). pose proof (Z.mod_pos_bound n 1024). destruct (decide (n `mod` 1024 = 1023)).
    - right. symmetry. apply (Z.div_unique_pos _ _ _ 0); lia.
    - left. symmetry. apply (Z.div_unique_pos _ _ _ (n `mod` 1024 + 1)); lia. }
  destruct Hd1 as [-> | ->].
  - rewrite (seqZ_cons (n / 1024)) by lia. cbn [List.filter]. rewrite Hself. fold rest. rewrite Hrest. case_match; simpl; lia.
  - replace (dl - (n / 1024 + 1) + 1) with (Z.pred (dl - n / 1024 + 1)) by lia.
    change (n / 1024 + 1) with (Z.succ (n / 1024)). fold rest. rewrite Hrest. case_match; simpl; lia.
Qed.

(** A free page is taken and written. *)
Lemma take_page m pgdir l p m' :
  pt_ok m pgdir (p :: l) → is_page p → (∀ a, ¬ (p ≤ a < p + 4096) → m' a = m a) →
  vm_ext pgdir m (p :: l) m' l ∧ ¬ is_tab m' pgdir p ∧ (∀ d, 0 ≤ d < 1024 → tab m' pgdir d = tab m pgdir d) ∧
  (∀ n, 0 ≤ n < 2^20 → look m' pgdir n = look m pgdir n).
Proof.
  intros P Hp Hout. pose proof (pt_dir _ _ _ P) as Hpd. pose proof (pt_dir_used _ _ _ P) as Hdu. rewrite not_elem_of_cons in Hdu.
  assert (Htab : ∀ d, 0 ≤ d < 1024 → tab m' pgdir d = tab m pgdir d).
  { intros d Hd. apply ptab_ext; [done|done|]. apply (other_page m m' p pgdir); try done. intros ->. tauto. }
  assert (Hold : ∀ d t, 0 ≤ d < 1024 → tab m pgdir d = Some t → is_page t ∧ t ≠ p ∧ t ∉ l ∧ t ≠ pgdir).
  { intros d t Hd E. destruct (pt_tab _ _ _ P d t Hd E) as (Q1 & Q2 & Q3). rewrite not_elem_of_cons in Q2. tauto. }
  split_and!; [split| |done|].
  - split; [done|tauto| |].
    + intros d t Hd. rewrite Htab by done. intros E. destruct (Hold d t Hd E) as (? & ? & ? & ?). done.
    + intros d d' t Hd Hd'. rewrite !Htab by done. by apply P.
  - by exists [p].
  - intros d t Hd. by rewrite Htab.
  - intros q [->|(d & Hd & E)]; left; [by left|right]. exists d. by rewrite <- Htab.
  - intros q Hq Hl _ a Ha. rewrite not_elem_of_cons in Hl. apply (other_page m m' p q); try done. intros ->. tauto.
  - intros [->|(d & Hd & E)]; [tauto|]. rewrite Htab in E by done. by destruct (Hold d p Hd E) as (_ & ? & _).
  - intros n Hn. destruct (page_index n Hn) as (Hd & Hj & _). unfold look. rewrite Htab by done.
    destruct (tab m pgdir (n / 1024)) as [t|] eqn:E; [|done]. destruct (Hold _ t Hd E) as (Q1 & Q2 & _).
    apply load_in; [done|done|]. by apply (other_page m m' p t).
Qed.

Definition user_entry (p : Z) : Z := Z.lor (Z.lor (v2p p) (Z.lor PTE_W PTE_U)) PTE_P.

(** [pgs] are mapped from page [n] on, zeroed; they come from the free list. *)
Record new_pages pgdir m l m' l' (n : Z) (pgs : list Z) : Prop := {
  np_ext : vm_ext pgdir m l m' l';
  np_nodup : NoDup pgs;
  np_free p : p ∈ pgs → p ∈ l ∧ p ∉ l' ∧ ¬ is_tab m' pgdir p;
  np_map i p : pgs !! i = Some p → look m' pgdir (n + Z.of_nat i) = user_entry p;
  np_zero p a : p ∈ pgs → p ≤ a < p + 4096 → m' a = 0;
  np_other i : 0 ≤ i < 2^20 → ¬ (n ≤ i < n + Z.of_nat (length pgs)) → look m' pgdir i = look m pgdir i;
}.

Lemma new_pages_nil pgdir m l n : pt_ok m pgdir l → new_pages pgdir m l m l n [].
Proof.
  intros P. split; [by apply vm_ext_refl|constructor|intros p Hp; by apply not_elem_of_nil in Hp|done| |done].
  intros p a Hp. by apply not_elem_of_nil in Hp.
Qed.

(** One page more in front. *)
Lemma new_pages_cons pgdir m p l m1 m2 l2 m' l' n pgs :
  is_page p → p ∉ l → 0 ≤ n → n < 2^20 →
  vm_ext pgdir m (p :: l) m1 l → ¬ is_tab m1 pgdir p → (∀ i, 0 ≤ i < 2^20 → look m1 pgdir i = look m pgdir i) →
  (∀ a, p ≤ a < p + 4096 → m1 a = 0) →
  vm_ext pgdir m1 l m2 l2 →
  (∀ i, 0 ≤ i < 2^20 → look m2 pgdir i = if decide (i = n) then user_entry p else look m1 pgdir i) →
  new_pages pgdir m2 l2 m' l' (n + 1) pgs → new_pages pgdir m (p :: l) m' l' n (p :: pgs).
Proof.
  intros Hp Hpl Hn0 Hn E1 Hnt L1 Z1 E2 L2 N. pose proof (np_ext _ _ _ _ _ _ _ N) as E3.
  destruct (ve_free _ _ _ _ _ E2) as [f2 F2]. destruct (ve_free _ _ _ _ _ E3) as [f3 F3].
  assert (Hp2 : p ∉ l2) by (rewrite F2, not_elem_of_app in Hpl; tauto).
  assert (Hp' : p ∉ l') by (rewrite F3, not_elem_of_app in Hp2; tauto).
  assert (Hnt2 : ¬ is_tab m2 pgdir p) by (intros H; destruct (ve_tabs _ _ _ _ _ E2 p H) as [?|[? _]]; done).
  assert (Hnt3 : ¬ is_tab m' pgdir p) by (intros H; destruct (ve_tabs _ _ _ _ _ E3 p H) as [?|[? _]]; done).
  split.
  - eapply vm_ext_trans; [exact E1|]. by eapply vm_ext_trans.
  - constructor; [|apply N]. intros Hin. by destruct (np_free _ _ _ _ _ _ _ N p Hin) as (? & _).
  - intros q [->|Hq]%elem_of_cons; [split; [apply list_elem_of_here|done]|].
    destruct (np_free _ _ _ _ _ _ _ N q Hq) as (H1 & H2). split; [|done]. rewrite F2. apply list_elem_of_further, elem_of_app. by right.
  - intros [|i] q; simpl; [intros [= <-]|].
    + rewrite Z.add_0_r. rewrite (np_other _ _ _ _ _ _ _ N) by lia. rewrite L2 by lia. by rewrite decide_True.
    + intros Hi. replace (n + Z.of_nat (S i)) with (n + 1 + Z.of_nat i) by lia. by apply (np_map _ _ _ _ _ _ _ N).
  - intros q a [->|Hq]%elem_of_cons Ha; [|by apply (np_zero _ _ _ _ _ _ _ N q)].
    rewrite (ve_frame _ _ _ _ _ E3 p), (ve_frame _ _ _ _ _ E2 p) by done. by apply Z1.
  - intros i Hi Hout. simpl in Hout. rewrite (np_other _ _ _ _ _ _ _ N) by lia. rewrite L2, decide_False by lia. by apply L1.
Qed.

Lemma no_tab_none m pgdir d : tab m pgdir d = None → no_tab m pgdir d = true.
Proof. unfold no_tab. by intros ->. Qed.

(** [c] rounds of the loop, for which there are enough free pages. *)
Lemma alloc_loop_run c : ∀ fuel k l pgdir n oldsz newsz (Q : Z → kmem → Prop),
  kmem_ok k l → pt_ok (k_mem k) pgdir l → 0 ≤ n → n + Z.of_nat c ≤ 2^19 → (c < fuel)%nat →
  4096 * (n + Z.of_nat c) < newsz + 4096 →
  (∀ i, n ≤ i < n + Z.of_nat c → has (look (k_mem k) pgdir i) PTE_P = false) →
  (c + missing (k_mem k) pgdir n c ≤ length l)%nat →
  (∀ k' l' pgs, kmem_ok k' l' → new_pages pgdir (k_mem k) l (k_mem k') l' n pgs → length pgs = c →
     length l = (c + missing (k_mem k) pgdir n c + length l')%nat →
     wp (alloc_loop kend (fuel - c) pgdir (4096 * (n + Z.of_nat c)) oldsz newsz) Q k') →
  wp (alloc_loop kend fuel pgdir (4096 * n) oldsz newsz) Q k.
Proof.
  induction c as [|c IH]; intros fuel k l pgdir n oldsz newsz Q Hk P Hn Hc Hf Hlo Hun Hl HQ.
  { rewrite Z.add_0_r, Nat.sub_0_r in HQ. apply (HQ k l []); [done|by apply new_pages_nil|done|done]. }
  destruct fuel as [|fuel]; [lia|]; cbn [alloc_loop].
  rewrite (proj2 (Z.ltb_lt _ _)) by lia. destruct l as [|p l]; [simpl in Hl; lia|].
  assert (Hp : is_page p) by (destruct Hk as (_ & _ & Hpl & _); by apply Forall_cons in Hpl as [? _]).
  assert (Hpl : p ∉ l) by (destruct Hk as (_ & _ & _ & Hnd); by apply NoDup_cons in Hnd as [? _]).
  pose proof (page_range p Hp) as Rp. unfold KERNBASE, PHYSTOP in Rp.
  apply wp_bind. eapply (kalloc_run kend Hend); [exact Hk|]. intros k1 Hk1 _ Em. cbn [tail] in Hk1.
  change (default 0 (head (p :: l))) with p. rewrite (proj2 (Z.eqb_neq p 0)) by lia.
  apply wp_bind, wp_modify. rewrite Em. set (m1 := memset (k_mem k) p 0 PGSIZE).
  assert (H1 : ∀ a, m1 a = if decide (p ≤ a < p + 4096) then 0 else k_mem k a).
  { intros a. unfold m1, PGSIZE. by rewrite memset_spec by lia. }
  destruct (take_page (k_mem k) pgdir l p m1 P Hp) as (E1 & Hnt & Ht1 & L1).
  { intros a Ha. rewrite H1. by rewrite decide_False. }
  assert (Hk2 : kmem_ok (set_mem m1 k1) l).
  { apply kmem_ok_write; [done|]. intros q a Hq Ha. rewrite H1, Em. rewrite decide_False; [done|].
    destruct Hk1 as (_ & _ & Hall & _). rewrite Forall_forall in Hall.
    destruct (page_apart kend q p); [by apply Hall|done|by intros ->|..]; unfold PGSIZE in *; lia. }
  destruct (v2p_page p Hp) as (V1 & V2 & _). destruct (page_index n) as (Hd & _); [lia|].
  assert (Hmiss : missing m1 pgdir n (S c) = missing (k_mem k) pgdir n (S c)).
  { unfold missing. f_equal. apply filter_ext_in. intros d Hin. apply list_elem_of_In, elem_of_seqZ in Hin.
    assert ((n + Z.of_nat c) / 1024 < 1024) by (apply Z.div_lt_upper_bound; lia). unfold no_tab. by rewrite Ht1 by lia. }
  apply wp_bind. apply (mappages_one (set_mem m1 k1) l); cbn [k_mem set_mem]; try done.
  - apply E1.
  - lia.
  - rewrite L1 by lia. apply Hun. lia.
  - intros Hnone ->. rewrite <- Hmiss in Hl. unfold missing in Hl.
    rewrite (seqZ_cons (n / 1024)) in Hl.
    2: { assert (n / 1024 ≤ (n + Z.of_nat c) / 1024) by (apply Z.div_le_mono; lia). lia. }
    cbn [List.filter] in Hl. rewrite (no_tab_none _ _ _ Hnone) in Hl. simpl in Hl. lia.
  - intros k2 Hk3 E2 Hs2 Ht2 L2.
    replace (w32 (4096 * n + PGSIZE)) with (4096 * (n + 1)) by (unfold PGSIZE; rewrite w32_small by lia; lia).
    assert (Hcount : (missing (k_mem k2) pgdir (n + 1) c + length l = missing (k_mem k) pgdir n (S c) + length (rest_free m1 pgdir l n))%nat).
    { rewrite <- Hmiss, <- (missing_step m1 (k_mem k2) pgdir n c) by (done || lia). unfold rest_free, no_tab.
      destruct (tab m1 pgdir (n / 1024)) eqn:Et; [lia|]. destruct l as [|x l]; cbn [tail length]; [|lia].
      rewrite <- Hmiss, <- (missing_step m1 (k_mem k2) pgdir n c) in Hl by (done || lia). unfold no_tab in Hl. rewrite Et in Hl. simpl in Hl. lia. }
    apply (IH fuel k2 (rest_free m1 pgdir l n)); try done; try lia.
    + apply E2.
    + intros i Hi. rewrite L2, decide_False by lia. rewrite L1 by lia. apply Hun. lia.
    + cbn [length] in Hl. lia.
    + intros k' l' pgs Hk' N Hlen Hcnt. replace (S fuel - S c)%nat with (fuel - c)%nat in HQ by lia.
      replace (n + 1 + Z.of_nat c) with (n + Z.of_nat (S c)) by lia. apply (HQ k' l' (p :: pgs)); [done| |cbn [length]; lia|cbn [length]; lia].
      apply (new_pages_cons pgdir (k_mem k) p l m1 (k_mem k2) (rest_free m1 pgdir l n)); try done; try lia.
      intros a Ha. rewrite H1. by rewrite decide_True.
Qed.

Definition pages_up (z : Z) : Z := (z + 4095) / 4096.

(** ** Giving pages back *)

Lemma user_entry_parts p : is_page p → has (user_entry p) PTE_P = true ∧ PTE_ADDR (user_entry p) = v2p p ∧ p2v (v2p p) = p ∧ 0 < v2p p.
Proof.
  intros Hp. destruct (v2p_page p Hp) as (H1 & H2 & H3 & H4). unfold user_entry. split; [apply has_lor|].
  rewrite <- Z.lor_assoc. destruct (entry_parts (v2p p) (Z.lor (Z.lor PTE_W PTE_U) PTE_P)) as [Ha _]; [done|done|split; vm_compute; [discriminate|reflexivity]|]. done.
Qed.

(** The pages [pgs], mapped from page [n] on, are unmapped and on the free list. *)
Record given_back pgdir m l m' (n : Z) (pgs : list Z) : Prop := {
  gb_ok : pt_ok m' pgdir (reverse pgs ++ l);
  gb_tab d : 0 ≤ d < 1024 → tab m' pgdir d = tab m pgdir d;
  gb_look i : 0 ≤ i < 2^20 → look m' pgdir i = if decide (n ≤ i < n + Z.of_nat (length pgs)) then 0 else look m pgdir i;
  gb_frame p : is_page p → p ∉ pgs → ¬ is_tab m pgdir p → ∀ a, p ≤ a < p + 4096 → m' a = m a;
}.

Lemma given_back_nil pgdir m l n : pt_ok m pgdir l → given_back pgdir m l m n [].
Proof. intros P. split; [done|done| |done]. intros i Hi. rewrite decide_False; [done|]. cbn [length]. lia. Qed.

Lemma given_back_cons pgdir m p l m1 m' n pgs :
  0 ≤ n → given_back pgdir m l m1 n [p] → given_back pgdir m1 (p :: l) m' (n + 1) pgs → given_back pgdir m l m' n (p :: pgs).
Proof.
  intros Hn G1 G2. split.
  - rewrite reverse_cons, <- app_assoc. apply G2.
  - intros d Hd. by rewrite (gb_tab _ _ _ _ _ _ G2), (gb_tab _ _ _ _ _ _ G1).
  - intros i Hi. rewrite (gb_look _ _ _ _ _ _ G2), (gb_look _ _ _ _ _ _ G1) by done. cbn [length]. repeat case_decide; done || lia.
  - intros q Hq Hin Ht a Ha. apply not_elem_of_cons in Hin as [Hne Hin].
    assert (Ht1 : ¬ is_tab m1 pgdir q).
    { intros [->|(d & Hd & E)]; [apply Ht; by left|]. apply Ht. right. exists d. by rewrite <- (gb_tab _ _ _ _ _ _ G1). }
    rewrite (gb_frame _ _ _ _ _ _ G2 q) by done. apply (gb_frame _ _ _ _ _ _ G1 q); try done. by rewrite list_elem_of_singleton.
Qed.

(** Writing into a page that is no table keeps the tables. *)
Lemma page_written m pgdir l p m1 :
  pt_ok m pgdir l → is_page p → ¬ is_tab m pgdir p → (∀ a, ¬ (p ≤ a < p + 4096) → m1 a = m a) →
  pt_ok m1 pgdir l ∧ (∀ d, 0 ≤ d < 1024 → tab m1 pgdir d = tab m pgdir d) ∧
  (∀ i, 0 ≤ i < 2^20 → look m1 pgdir i = look m pgdir i).
Proof.
  intros P Hp Hnt Hout. pose proof (pt_dir _ _ _ P) as Hpd. assert (Hne : p ≠ pgdir) by (intros ->; apply Hnt; by left).
  assert (Htab : ∀ d, 0 ≤ d < 1024 → tab m1 pgdir d = tab m pgdir d).
  { intros d Hd. apply ptab_ext; [done|done|]. by apply (other_page m m1 p pgdir). }
  split_and!; [|done|].
  - split; [done|apply P| |].
    + intros d t Hd. rewrite Htab by done. by apply P.
    + intros d d' t Hd Hd'. rewrite !Htab by done. by apply P.
  - intros i Hi. destruct (page_index i Hi) as (Hd & Hj & _). unfold look. rewrite Htab by done.
    destruct (tab m pgdir (i / 1024)) as [t|] eqn:E; [|done]. destruct (pt_tab _ _ _ P _ t Hd E) as (Hpt & _).
    apply load_in; [done|done|]. apply (other_page m m1 p t); try done. intros ->. apply Hnt. right. by exists (i / 1024).
Qed.

(** A page that is no table can be free. *)
Lemma pt_ok_free m pgdir l p : pt_ok m pgdir l → ¬ is_tab m pgdir p → pt_ok m pgdir (p :: l).
Proof.
  intros P Hnt. split; [apply P| | |apply P].
  - apply not_elem_of_cons. split; [intros ->; apply Hnt; by left|apply P].
  - intros d t Hd E. destruct (pt_tab _ _ _ P d t Hd E) as (? & ? & ?). rewrite not_elem_of_cons. split_and!; try done.
    intros ->. apply Hnt. right. by exists d.
Qed.

(** One round of [deallocuvm]: a mapped page. *)
Lemma dealloc_one fuel k l pgdir n p oldsz (Q : unit → kmem → Prop) :
  kmem_ok k l → pt_ok (k_mem k) pgdir l → is_page p → p ∉ l → ¬ is_tab (k_mem k) pgdir p →
  look (k_mem k) pgdir n = user_entry p → 0 ≤ n < 2^19 → 4096 * n < oldsz →
  (∀ k', kmem_ok k' (p :: l) → given_back pgdir (k_mem k) l (k_mem k') n [p] →
     wp (dealloc_loop kend fuel pgdir (4096 * (n + 1)) oldsz) Q k') →
  wp (dealloc_loop kend (S fuel) pgdir (4096 * n) oldsz) Q k.
Proof.
  intros Hk P Hp Hpl Hnt Hlook Hn Hlt HQ. destruct (user_entry_parts p Hp) as (U1 & U2 & U3 & U4).
  destruct (page_index n) as (Hd & Hj & En); [lia|]. cbn [dealloc_loop]. rewrite (proj2 (Z.ltb_lt _ _)) by done.
  destruct (tab (k_mem k) pgdir (n / 1024)) as [t|] eqn:Et.
  2: { unfold look in Hlook. rewrite Et in Hlook. by rewrite <- Hlook in U1. }
  destruct (pt_tab _ _ _ P _ t Hd Et) as (Hpt & Htl & _). pose proof (page_range t Hpt) as Rt. unfold KERNBASE, PHYSTOP in Rt.
  apply wp_bind. eapply walk_present; [exact P|lia|exact Et|]. rewrite (proj2 (Z.eqb_neq (t + _) 0)) by lia.
  apply wp_bind, wp_gets. replace (load32 (k_mem k) (t + 4 * (n `mod` 1024))) with (user_entry p) by (rewrite <- Hlook; unfold look; by rewrite Et).
  rewrite U1, U2, U3. rewrite (proj2 (Z.eqb_neq _ 0)) by lia. apply wp_bind.
  eapply (kfree_run kend Hend); [exact Hk|done|done|]. intros k1 Hk1 _ _ Hout. unfold PGSIZE in Hout.
  destruct (page_written (k_mem k) pgdir (p :: l) p (k_mem k1) (pt_ok_free _ _ _ _ P Hnt) Hp Hnt Hout) as (P1 & T1 & L1).
  assert (Et1 : tab (k_mem k1) pgdir (n / 1024) = Some t) by (by rewrite T1).
  apply wp_bind, wp_modify.
  destruct (store_entry (k_mem k1) pgdir (p :: l) (n / 1024) t (n `mod` 1024) 0 P1 Hd Hj Et1) as (P2 & T2 & L2 & O2); [lia|].
  replace (w32 (4096 * n + PGSIZE)) with (4096 * (n + 1)) by (unfold PGSIZE; rewrite w32_small by lia; lia).
  apply HQ; cbn [k_mem set_mem].
  - apply kmem_ok_write; [done|]. intros q a Hq Ha. apply O2. destruct Hk1 as (_ & _ & Hall & _). rewrite Forall_forall in Hall.
    destruct (pt_tab _ _ _ P1 _ t Hd Et1) as (_ & Hnin & _).
    destruct (page_apart kend q t); [by apply Hall|done|by intros ->|..]; unfold PGSIZE in *; lia.
  - split; [done| | |].
    + intros d Hd'. by rewrite T2, T1.
    + intros i Hi. rewrite L2, L1 by done. rewrite <- En. cbn [length]. repeat case_decide; done || lia.
    + intros q Hq Hne%not_elem_of_cons Htq a Ha. rewrite O2.
      * apply Hout. destruct (page_apart kend q p); try done; [tauto|..]; unfold PGSIZE in *; lia.
      * assert (q ≠ t) by (intros ->; apply Htq; right; by exists (n / 1024)).
        destruct (page_apart kend q t); try done; unfold PGSIZE in *; lia.
Qed.

(** The rounds for mapped pages. *)
Lemma dealloc_mapped pgs : ∀ fuel k l pgdir n oldsz (Q : unit → kmem → Prop),
  kmem_ok k l → pt_ok (k_mem k) pgdir l → NoDup pgs →
  (∀ p, p ∈ pgs → is_page p ∧ p ∉ l ∧ ¬ is_tab (k_mem k) pgdir p) →
  (∀ i p, pgs !! i = Some p → look (k_mem k) pgdir (n + Z.of_nat i) = user_entry p) →
  0 ≤ n → n + Z.of_nat (length pgs) ≤ 2^19 → 4096 * (n + Z.of_nat (length pgs)) < oldsz + 4096 → (length pgs ≤ fuel)%nat →
  (∀ k', kmem_ok k' (reverse pgs ++ l) → given_back pgdir (k_mem k) l (k_mem k') n pgs →
     wp (dealloc_loop kend (fuel - length pgs) pgdir (4096 * (n + Z.of_nat (length pgs))) oldsz) Q k') →
  wp (dealloc_loop kend fuel pgdir (4096 * n) oldsz) Q k.
Proof.
  induction pgs as [|p pgs IH]; intros fuel k l pgdir n oldsz Q Hk P Hnd Hpg Hmap Hn Hc Hlt Hf HQ.
  { rewrite Z.add_0_r, Nat.sub_0_r in HQ. apply HQ; [done|by apply given_back_nil]. }
  apply NoDup_cons in Hnd as [Hp Hnd]. destruct (Hpg p) as (H1 & H2 & H3); [apply list_elem_of_here|].
  destruct fuel as [|fuel]; [simpl in Hf; lia|]. cbn [length] in *.
  apply (dealloc_one fuel k l pgdir n p); try done; [|lia|lia|].
  { rewrite <- (Hmap 0%nat p eq_refl). f_equal. lia. }
  intros k1 Hk1 G1. eapply IH; [exact Hk1|apply G1|done| | |lia|lia|lia|lia|].
  - intros q Hq. destruct (Hpg q) as (Q1 & Q2 & Q3); [by apply list_elem_of_further|]. split; [done|].
    split; [rewrite not_elem_of_cons; split; [by intros ->|done]|]. intros [->|(d & Hd & E)]; [apply Q3; by left|].
    apply Q3. right. exists d. by rewrite <- (gb_tab _ _ _ _ _ _ G1).
  - intros i q Hi. pose proof (lookup_lt_Some _ _ _ Hi). rewrite (gb_look _ _ _ _ _ _ G1) by lia. rewrite decide_False by (cbn [length]; lia).
    rewrite <- (Hmap (S i) q Hi). f_equal. lia.
  - intros k2 Hk2 G2. replace (n + 1 + Z.of_nat (length pgs)) with (n + Z.of_nat (S (length pgs))) by lia.
    replace (S fuel - S (length pgs))%nat with (fuel - length pgs)%nat in HQ by lia.
    apply HQ; [by rewrite reverse_cons, <- app_assoc|]. by eapply given_back_cons.
Qed.

(** The rounds where nothing is mapped. *)
Lemma dealloc_unmapped fuel k l pgdir n oldsz :
  pt_ok (k_mem k) pgdir l → 0 ≤ n → oldsz ≤ 2^31 →
  (∀ i, n ≤ i → 4096 * i < oldsz → has (look (k_mem k) pgdir i) PTE_P = false) → oldsz - 4096 * n ≤ 4096 * (Z.of_nat fuel - 1) → (0 < fuel)%nat →
  wp (dealloc_loop kend fuel pgdir (4096 * n) oldsz) (λ _ k', k' = k) k.
Proof.
  intros P. revert n. induction fuel as [|fuel IH]; intros n Hn Hsz Hun Hf Hf0; [lia|]. cbn [dealloc_loop].
  destruct (Z.ltb_spec (4096 * n) oldsz) as [Hlt|Hge]; [|by apply wp_ret].
  destruct (page_index n) as (Hd & Hj & _); [lia|]. pose proof (page_range _ (pt_dir _ _ _ P)) as Rd. unfold KERNBASE, PHYSTOP in Rd.
  assert (Hf1 : (0 < fuel)%nat) by lia. apply wp_bind.
  destruct (tab (k_mem k) pgdir (n / 1024)) as [t|] eqn:Et.
  - eapply walk_present; [exact P|lia|exact Et|]. destruct (pt_tab _ _ _ P _ t Hd Et) as (Hpt & _).
    pose proof (page_range t Hpt) as Rt. unfold KERNBASE, PHYSTOP in Rt. rewrite (proj2 (Z.eqb_neq (t + _) 0)) by lia.
    apply wp_bind, wp_gets. pose proof (Hun n ltac:(lia) Hlt) as Hnp. unfold look in Hnp. rewrite Et in Hnp. rewrite Hnp.
    replace (w32 (4096 * n + PGSIZE)) with (4096 * (n + 1)) by (unfold PGSIZE; rewrite w32_small by lia; lia).
    apply IH; try done; try lia. intros i Hi. apply Hun. lia.
  - unfold walkpgdir. rewrite PDX_spec, PTX_spec, page_of by lia. rewrite (w32_small (pgdir + _)) by lia.
    apply wp_bind, wp_gets. unfold tab in Et. destruct (has (load32 (k_mem k) _) PTE_P); [done|]. cbn [negb]. apply wp_ret. cbn [Z.eqb].
    replace (w32 (w32 (4096 * n + (NPTENTRIES - 1) * PGSIZE) + PGSIZE)) with (4096 * (n + 1024))
      by (unfold PGSIZE, NPTENTRIES; rewrite !w32_small by (rewrite ?w32_small by lia; lia); lia).
    apply IH; try done; try lia. intros i Hi. apply Hun. lia.
Qed.

(** The pages that a process grows by. *)
Lemma grow_range oldsz newsz :
  0 ≤ oldsz ≤ newsz → newsz < KERNBASE →
  let n := pages_up oldsz in let c := Z.to_nat (pages_up newsz - n) in
  PGROUNDUP oldsz = 4096 * n ∧ 0 ≤ n ∧ n + Z.of_nat c = pages_up newsz ∧
  (pages_up newsz * 4096 < newsz + 4096 ∧ newsz ≤ pages_up newsz * 4096) ∧ (c < Z.to_nat (2^32 / PGSIZE))%nat.
Proof.
  intros Hsz Hlt n c. unfold KERNBASE in Hlt. rewrite PGROUNDUP_spec by (unfold PGSIZE; lia).
  assert (Hn : 0 ≤ n) by (apply Z.div_pos; lia).
  assert (Hle : n ≤ pages_up newsz) by (apply Z.div_le_mono; lia).
  assert (Hup : pages_up newsz * 4096 < newsz + 4096 ∧ newsz ≤ pages_up newsz * 4096).
  { unfold pages_up. pose proof (Z.div_mod (newsz + 4095) 4096). pose proof (Z.mod_pos_bound (newsz + 4095) 4096). lia. }
  split_and!; [|done|lia|lia|lia|change (2^32 / PGSIZE) with 1048576; lia].
  unfold n, pages_up, PGSIZE. replace (oldsz + 4096 - 1) with (oldsz + 4095) by lia. lia.
Qed.

(** The loop when the free pages run out after [length pgs] rounds. *)
Lemma alloc_out_of_memory fuel k l k1 pgdir n pgs oldsz newsz :
  kmem_ok k1 [] → new_pages pgdir (k_mem k) l (k_mem k1) [] n pgs → Forall is_page l →
  n = pages_up oldsz → 0 ≤ oldsz ≤ newsz → newsz < KERNBASE → 4096 * (n + Z.of_nat (length pgs)) < newsz →
  (∀ i, n ≤ i → 4096 * i < newsz → has (look (k_mem k) pgdir i) PTE_P = false) →
  wp (alloc_loop kend (S fuel) pgdir (4096 * (n + Z.of_nat (length pgs))) oldsz newsz)
    (λ r k', r = 0 ∧ kmem_ok k' (reverse pgs) ∧ pt_ok (k_mem k') pgdir (reverse pgs) ∧
       (∀ d t, 0 ≤ d < 1024 → tab (k_mem k) pgdir d = Some t → tab (k_mem k') pgdir d = Some t) ∧
       (∀ i, 0 ≤ i < 2^20 → has (look (k_mem k') pgdir i) PTE_P = has (look (k_mem k) pgdir i) PTE_P ∧
          (¬ (n ≤ i < n + Z.of_nat (length pgs)) → look (k_mem k') pgdir i = look (k_mem k) pgdir i)) ∧
       (∀ p, is_page p → p ∉ l → ¬ is_tab (k_mem k) pgdir p → ∀ a, p ≤ a < p + 4096 → k_mem k' a = k_mem k a)) k1.
Proof.
  intros Hk1 N Hl En Hsz Hkb Hlt Hun. unfold KERNBASE in Hkb. assert (Hn : 0 ≤ n) by (rewrite En; apply Z.div_pos; lia).
  pose proof (np_ext _ _ _ _ _ _ _ N) as E. cbn [alloc_loop]. rewrite (proj2 (Z.ltb_lt _ _)) by done. apply wp_bind.
  eapply (kalloc_run kend Hend); [exact Hk1|]. intros k2 Hk2 _ Em. cbn [head default tail Z.eqb] in *. apply wp_bind.
  assert (oldsz ≤ 4096 * n) by (rewrite En; unfold pages_up; pose proof (Z.div_mod (oldsz + 4095) 4096); pose proof (Z.mod_pos_bound (oldsz + 4095) 4096); lia).
  unfold deallocuvm. rewrite geb_false by lia. rewrite PGROUNDUP_spec by (unfold PGSIZE; lia).
  replace ((oldsz + PGSIZE - 1) / PGSIZE * PGSIZE) with (4096 * n)
    by (rewrite En; unfold pages_up, PGSIZE; replace (oldsz + 4096 - 1) with (oldsz + 4095) by lia; lia).
  apply wp_bind. eapply (dealloc_mapped pgs); [exact Hk2|rewrite Em; apply E|apply N| | |done|lia|lia|change (2^32 / PGSIZE) with 1048576; lia|].
  - intros p Hp. destruct (np_free _ _ _ _ _ _ _ N p Hp) as (H1 & H2 & H3). rewrite Em. rewrite Forall_forall in Hl. auto.
  - intros i p Hi. rewrite Em. by apply (np_map _ _ _ _ _ _ _ N).
  - intros k3 Hk3 G. rewrite app_nil_r in Hk3. rewrite Em in G.
    assert (Hlook : ∀ i, 0 ≤ i < 2^20 → ¬ (n ≤ i < n + Z.of_nat (length pgs)) → look (k_mem k3) pgdir i = look (k_mem k) pgdir i).
    { intros i Hi Hout. rewrite (gb_look _ _ _ _ _ _ G), decide_False by done. by apply (np_other _ _ _ _ _ _ _ N). }
    eapply wp_mono; [apply (dealloc_unmapped _ k3 _ _ _ _ (gb_ok _ _ _ _ _ _ G)); change (2^32 / PGSIZE) with 1048576; try lia|].
    { intros i Hi Hi'. rewrite Hlook by lia. apply Hun; lia. }
    intros _ ? ->. apply wp_ret, wp_ret. pose proof (gb_ok _ _ _ _ _ _ G) as P3. rewrite app_nil_r in P3. split_and!; try done.
    + intros d t Hd Ht. rewrite (gb_tab _ _ _ _ _ _ G) by done. by apply (ve_tab _ _ _ _ _ E).
    + intros i Hi. split; [|by apply Hlook]. destruct (decide (n ≤ i < n + Z.of_nat (length pgs))) as [Hin|Hout].
      * rewrite (gb_look _ _ _ _ _ _ G), decide_True by done. rewrite Hun by lia. done.
      * by rewrite Hlook.
    + intros p Hp Hpl Hnt a Ha. rewrite (gb_frame _ _ _ _ _ _ G p); [by apply (ve_frame _ _ _ _ _ E p)|done| | |done].
      * intros Hin. by destruct (np_free _ _ _ _ _ _ _ N p Hin) as (? & _).
      * intros Ht. destruct (ve_tabs _ _ _ _ _ E p Ht) as [?|[? _]]; done.
Qed.

(** [allocuvm] with enough free pages. *)
Lemma allocuvm_success k l pgdir oldsz newsz :
  kmem_ok k l → pt_ok (k_mem k) pgdir l → 0 ≤ oldsz ≤ newsz → newsz < KERNBASE →
  let n := pages_up oldsz in
  let c := Z.to_nat (pages_up newsz - n) in
  (∀ i, n ≤ i < n + Z.of_nat c → has (look (k_mem k) pgdir i) PTE_P = false) →
  (c + missing (k_mem k) pgdir n c ≤ length l)%nat →
  wp (allocuvm kend pgdir oldsz newsz) (λ r k', r = newsz ∧ ∃ l' pgs, kmem_ok k' l' ∧ length pgs = c ∧
    new_pages pgdir (k_mem k) l (k_mem k') l' n pgs) k.
Proof.
  intros Hk P Hsz Hlt n c Hun Hl. unfold allocuvm. rewrite geb_false by lia. rewrite (proj2 (Z.ltb_ge _ _)) by lia.
  destruct (grow_range oldsz newsz Hsz Hlt) as (-> & Hn & Hcn & Hup & Hfuel). fold n in Hn, Hcn, Hfuel |- *. fold c in Hcn, Hfuel.
  set (F := Z.to_nat (2^32 / PGSIZE)) in *. clearbody F. unfold KERNBASE in Hlt.
  apply (alloc_loop_run c _ k l); try done; rewrite ?Hcn; try lia.
  intros k' l' pgs H1 H2 H3 _. destruct (S F - c)%nat as [|f] eqn:Ef; [lia|]. cbn [alloc_loop].
  rewrite (proj2 (Z.ltb_ge _ _)) by lia. apply wp_ret. split; [done|]. by exists l', pgs.
Qed.

(** C27: [allocuvm].  A size in the kernel's half of the address space is
    refused with 0, and a size below the old one returns the old size, both
    without any change.  Otherwise, for pages that are not mapped yet: if there
    are free pages for all of them and for the page tables that are missing, each
    page between the old and the new size is mapped, user-accessible and
    writable, to a page of its own that was free and is now zero; no other entry
    of the address space changes; no page that was in use, of this process, of
    another or of the kernel, is written (page tables of this process apart);
    the address space stays well formed; and the new size is returned.  If the
    free pages run out when the next page is to be allocated, 0 is returned, the
    [j] pages that had been allocated are free again, nothing is mapped that was
    not before, no other entry changes, and again no page in use is written; the
    new page tables stay.  (When it is a page table that cannot be allocated,
    the code goes on: see the findings.) *)
Theorem allocuvm_grows k l pgdir oldsz newsz :
  (KERNBASE ≤ newsz → allocuvm kend pgdir oldsz newsz k = Ok 0 k) ∧
  (newsz < oldsz → newsz < KERNBASE → allocuvm kend pgdir oldsz newsz k = Ok oldsz k) ∧
  (kmem_ok k l → pt_ok (k_mem k) pgdir l → 0 ≤ oldsz ≤ newsz → newsz < KERNBASE →
   let n := pages_up oldsz in
   let c := Z.to_nat (pages_up newsz - n) in
   (∀ i, n ≤ i < n + Z.of_nat c → has (look (k_mem k) pgdir i) PTE_P = false) →
   ((c + missing (k_mem k) pgdir n c ≤ length l)%nat →
    wp (allocuvm kend pgdir oldsz newsz) (λ r k', r = newsz ∧ ∃ l' pgs, kmem_ok k' l' ∧ length pgs = c ∧
      new_pages pgdir (k_mem k) l (k_mem k') l' n pgs) k) ∧
   (∀ j, (j < c)%nat → length l = (j + missing (k_mem k) pgdir n j)%nat →
    wp (allocuvm kend pgdir oldsz newsz) (λ r k', r = 0 ∧ ∃ l', kmem_ok k' l' ∧ length l' = j ∧ l' ⊆ l ∧
      pt_ok (k_mem k') pgdir l' ∧
      (∀ d t, 0 ≤ d < 1024 → tab (k_mem k) pgdir d = Some t → tab (k_mem k') pgdir d = Some t) ∧
      (∀ i, 0 ≤ i < 2^20 → has (look (k_mem k') pgdir i) PTE_P = has (look (k_mem k) pgdir i) PTE_P ∧
         (¬ (n ≤ i < n + Z.of_nat j) → look (k_mem k') pgdir i = look (k_mem k) pgdir i)) ∧
      (∀ p, is_page p → p ∉ l → ¬ is_tab (k_mem k) pgdir p → ∀ a, p ≤ a < p + 4096 → k_mem k' a = k_mem k a)) k)).
Proof.
  split_and!.
  { intros Hge. unfold allocuvm. rewrite Z.geb_leb. by rewrite (proj2 (Z.leb_le _ _)) by lia. }
  { intros Hlt Hkb. unfold allocuvm. rewrite geb_false by lia. by rewrite (proj2 (Z.ltb_lt _ _)) by lia. }
  intros Hk P Hsz Hlt n c Hun. split; [by apply allocuvm_success|].
  unfold allocuvm. rewrite geb_false by lia. rewrite (proj2 (Z.ltb_ge _ _)) by lia.
  destruct (grow_range oldsz newsz Hsz Hlt) as (-> & Hn & Hcn & Hup & Hfuel). fold n in Hn, Hcn, Hfuel |- *. fold c in Hcn, Hfuel.
  set (F := Z.to_nat (2^32 / PGSIZE)) in *. clearbody F. pose proof Hlt as Hkb. unfold KERNBASE in Hkb.
  intros j Hj Hlen. apply (alloc_loop_run j _ k l); try done; try lia.
  { intros i Hi. apply Hun. lia. }
  intros k' l' pgs H1 H2 H3 H4. destruct l' as [|x l']; [|simpl in H4; lia]. destruct (S F - j)%nat as [|f] eqn:Ef; [lia|].
    rewrite <- H3. eapply wp_mono; [apply (alloc_out_of_memory f k l k' pgdir n pgs oldsz newsz); try done; try lia; [apply Hk|]|].
    { intros i Hi Hi'. apply Hun. lia. }
    cbn beta. intros r k'' (-> & G1 & G2 & G3 & G4 & G5). split; [done|]. exists (reverse pgs). rewrite length_reverse. split_and!; try done.
    intros p Hp. rewrite elem_of_reverse in Hp. by destruct (np_free _ _ _ _ _ _ _ H2 p Hp).
Qed.
End proofs.

(** ** A sample machine: an empty directory and four free pages *)

Definition vm_dir : Z := KERNBASE + 0x11000.
Definition vm_free : list Z := pages 4 (KERNBASE + 0x12000) [].

Lemma vm_dir_page : is_page sample_end vm_dir.
Proof. split; [reflexivity|]. unfold sample_end, vm_dir, KERNBASE, PHYSTOP. lia. Qed.

Lemma vm_sample : ∃ k, kmem_ok sample_end k vm_free ∧ pt_ok sample_end (k_mem k) vm_dir vm_free ∧
  ∀ d, 0 ≤ d < 1024 → tab (k_mem k) vm_dir d = None.
Proof.
  assert (H : wp (freerange sample_end (KERNBASE + 0x12000) (KERNBASE + 0x16000)) (λ _ k, kmem_ok sample_end k vm_free) empty_kmem).
  { apply (freerange_run sample_end sample_end_ok (KERNBASE + 0x12000) (KERNBASE + 0x16000) empty_kmem []).
    - split_and!; [done|done|constructor|constructor].
    - unfold sample_end, KERNBASE. lia.
    - unfold KERNBASE, PHYSTOP. lia.
    - constructor.
    - intros k' p Hk _. exact Hk. }
  destruct (wp_after _ _ _ H) as (_ & Hk). set (k0 := after _ _) in Hk. clearbody k0.
  set (m := memset (k_mem k0) vm_dir 0 PGSIZE).
  assert (Hm : ∀ a, m a = if decide (vm_dir ≤ a < vm_dir + 4096) then 0 else k_mem k0 a).
  { intros a. unfold m, PGSIZE. by rewrite memset_spec by (unfold vm_dir, KERNBASE; lia). }
  assert (Htab : ∀ d, 0 ≤ d < 1024 → tab m vm_dir d = None).
  { intros d Hd. unfold tab. rewrite (zero_entry sample_end sample_end_ok); [done|apply vm_dir_page|done|].
    intros a Ha. rewrite Hm. by rewrite decide_True. }
  assert (Hdir : vm_dir ∉ vm_free) by (apply (bool_decide_eq_false_1 _); reflexivity).
  exists (set_mem m k0). split_and!; [| |done].
  - apply (kmem_ok_write sample_end sample_end_ok); [done|]. intros q a Hq Ha. rewrite Hm, decide_False; [done|].
    destruct Hk as (_ & _ & Hl & _). rewrite Forall_forall in Hl.
    destruct (page_apart sample_end q vm_dir); [by apply Hl|apply vm_dir_page|by intros ->|..]; unfold PGSIZE in *; lia.
  - split; [apply vm_dir_page|done| |]; cbn [k_mem set_mem].
    + intros d t Hd. by rewrite Htab.
    + intros d d' t Hd _. by rewrite Htab.
Qed.

Lemma vm_sample_unmapped k newsz i :
  (∀ d, 0 ≤ d < 1024 → tab (k_mem k) vm_dir d = None) → 1 ≤ i < 1 + Z.of_nat (Z.to_nat (newsz - 1)) → newsz ≤ 2^19 →
  has (look (k_mem k) vm_dir i) PTE_P = false.
Proof.
  intros Htab Hi Hn. unfold look. rewrite Htab; [done|]. split; [apply Z.div_pos; lia|apply Z.div_lt_upper_bound; lia].
Qed.

(** From 100 to 9000 bytes: two more pages, and a page table for them.  Five
    more pages are too many: the three that there are frames for are freed. *)
Lemma allocuvm_grows_witness :
  ∃ k, wp (allocuvm sample_end vm_dir 100 9000) (λ r k', r = 9000 ∧ ∃ l' pgs, kmem_ok sample_end k' l' ∧ length pgs = 2%nat ∧
      new_pages sample_end vm_dir (k_mem k) vm_free (k_mem k') l' 1 pgs) k ∧
    wp (allocuvm sample_end vm_dir 100 24000) (λ r k', r = 0 ∧ ∃ l', kmem_ok sample_end k' l' ∧ length l' = 3%nat) k ∧
    allocuvm sample_end vm_dir 100 0x90000000 k = Ok 0 k.
Proof.
  destruct vm_sample as (k & Hk & P & Htab). exists k.
  assert (Hmiss : ∀ c, (0 < c ≤ 100)%nat → missing (k_mem k) vm_dir 1 c = 1%nat).
  { intros [|c] Hc; [lia|]. unfold missing. replace ((1 + Z.of_nat c) / 1024) with 0 by (symmetry; apply Z.div_small; lia).
    change (seqZ (1 / 1024) (0 - 1 / 1024 + 1)) with [0]. cbn [List.filter]. by rewrite (no_tab_none _ _ _ (Htab 0 ltac:(lia))). }
  split_and!.
  - destruct (allocuvm_grows sample_end sample_end_ok k vm_free vm_dir 100 9000) as (_ & _ & H).
    apply H; [exact Hk|exact P|lia|done| |].
    + intros i Hi. apply (vm_sample_unmapped k 3); [done|exact Hi|lia].
    + change (pages_up 100) with 1. change (Z.to_nat (pages_up 9000 - 1)) with 2%nat. rewrite Hmiss by lia. vm_compute. lia.
  - destruct (allocuvm_grows sample_end sample_end_ok k vm_free vm_dir 100 24000) as (_ & _ & H).
    eapply wp_mono; [apply H with (j := 3%nat); [exact Hk|exact P|lia|done| |vm_compute; lia|]|].
    + intros i Hi. apply (vm_sample_unmapped k 6); [done|exact Hi|lia].
    + change (pages_up 100) with 1. rewrite Hmiss by lia. reflexivity.
    + intros r k' (-> & l' & H1 & H2 & _). split; [done|]. by exists l'.
  - destruct (allocuvm_grows sample_end sample_end_ok k vm_free vm_dir 100 0x90000000) as (H & _). apply H. done.
Defined.
