(* ===== verification/Console.v ===== *)
(** * The console (console.c, uart.c)

    Output goes to the screen, the cells of the CGA memory with the cursor in
    two registers of its controller, and to the serial port.  Input comes from
    interrupt handlers, which edit the line being typed in a ring of 128 bytes
    ([r] to [w]: lines ready to be read, [w] to [e]: the line being typed).  The
    theorems: the ring refines an editor with two lists of bytes, and printing
    keeps the cursor on the screen and stores inside of it. *)

From stdpp Require Import base numbers list strings.
From Stdlib Require Import ZArith Lia.
From S2P Require Import Prelude CString User Printf.

#[local] Open Scope Z_scope.

(** src/console.c:125-125 *)
Definition BACKSPACE : Z := 0x100.
(** src/console.c:126-126 *)
Definition CRTPORT : Z := 0x3d4.
(** src/console.c:176-176 *)
Definition INPUT_BUF : Z := 128.
(** [C(x)] -- src/console.c:185-185 *)
Definition C (x : Z) : Z := x - 64.

(** src/console.c:177-183 *)
Record input := mkInput {
  in_lock : bool;
  in_buf : list Z;
  in_r : Z;
  in_w : Z;
  in_e : Z;
}.

(** [cons], [panicked], [input], the screen's cells and the registers of its
    controller, and the serial port with what was sent to it; [woken] counts
    the calls of [wakeup(&input.r)] -- src/console.c:19-24 *)
Record cstate := mkCons {
  panicked : bool;
  cons_lock : bool;
  locking : bool;
  crt : Z → Z;
  crt_idx : Z;
  crt_reg : Z → Z;
  uart : bool;
  uart_out : list Z;
  the_input : input;
  woken : nat;
}.

Definition set_panicked v s := mkCons v (cons_lock s) (locking s) (crt s) (crt_idx s) (crt_reg s) (uart s) (uart_out s) (the_input s) (woken s).
Definition set_cons_lock v s := mkCons (panicked s) v (locking s) (crt s) (crt_idx s) (crt_reg s) (uart s) (uart_out s) (the_input s) (woken s).
Definition set_locking v s := mkCons (panicked s) (cons_lock s) v (crt s) (crt_idx s) (crt_reg s) (uart s) (uart_out s) (the_input s) (woken s).
Definition set_crt v s := mkCons (panicked s) (cons_lock s) (locking s) v (crt_idx s) (crt_reg s) (uart s) (uart_out s) (the_input s) (woken s).
Definition set_crt_idx v s := mkCons (panicked s) (cons_lock s) (locking s) (crt s) v (crt_reg s) (uart s) (uart_out s) (the_input s) (woken s).
Definition set_crt_reg v s := mkCons (panicked s) (cons_lock s) (locking s) (crt s) (crt_idx s) v (uart s) (uart_out s) (the_input s) (woken s).
Definition set_uart_out v s := mkCons (panicked s) (cons_lock s) (locking s) (crt s) (crt_idx s) (crt_reg s) (uart s) v (the_input s) (woken s).
Definition set_input v s := mkCons (panicked s) (cons_lock s) (locking s) (crt s) (crt_idx s) (crt_reg s) (uart s) (uart_out s) v (woken s).
Definition set_woken v s := mkCons (panicked s) (cons_lock s) (locking s) (crt s) (crt_idx s) (crt_reg s) (uart s) (uart_out s) (the_input s) v.

Definition set_uart v s := mkCons (panicked s) (cons_lock s) (locking s) (crt s) (crt_idx s) (crt_reg s) v (uart_out s) (the_input s) (woken s).

(** ** Output *)

(** The controller: a register is selected at [CRTPORT], and accessed at the
    next port. *)
Definition outb_crt (port v : Z) : M cstate unit :=
  if port =? CRTPORT then modify (set_crt_idx v)
  else modify (λ s, set_crt_reg (upd (crt_reg s) (crt_idx s) (w8 v)) s).
Definition inb_crt : M cstate Z := gets (λ s, crt_reg s (crt_idx s)).

(** The cursor position, col + 80*row -- src/console.c:134-138 *)
Definition cga_cursor : M cstate Z :=
  outb_crt CRTPORT 14;;
  hi ← inb_crt;
  outb_crt CRTPORT 15;;
  lo ← inb_crt;
  mret (Z.lor (Z.shiftl hi 8) lo).

(** The character itself -- src/console.c:140-145 *)
Definition cga_show (c pos : Z) : M cstate Z :=
  if c =? 10 then mret (pos + (80 - Z.rem pos 80))
  else if c =? BACKSPACE then mret (if pos >? 0 then pos - 1 else pos)
  else
    modify (λ s, set_crt (upd (crt s) pos (Z.lor (Z.land c 0xff) 0x0700)) s);;
    mret (pos + 1).

(** [n] of the cells from [pos] on, [n] as the count of bytes gives it, are cleared. *)
Definition clear_cells (pos n : Z) (f : Z → Z) : Z → Z :=
  λ i, if decide (pos ≤ i < pos + w32 (2 * n) / 2) then 0 else f i.

(** src/console.c:147-151 *)
Definition cga_scroll (pos : Z) : M cstate Z :=
  if Z.quot pos 80 >=? 24 then
    modify (λ s, set_crt (λ i, if decide (0 ≤ i < 23 * 80) then crt s (i + 80) else crt s i) s);;
    let pos := pos - 80 in
    modify (λ s, set_crt (clear_cells pos (24 * 80 - pos) (crt s)) s);;
    mret pos
  else mret pos.

(** The new cursor, with a blank under it -- src/console.c:153-157 *)
Definition cga_move (pos : Z) : M cstate unit :=
  outb_crt CRTPORT 14;;
  outb_crt (CRTPORT + 1) (Z.shiftr pos 8);;
  outb_crt CRTPORT 15;;
  outb_crt (CRTPORT + 1) pos;;
  modify (λ s, set_crt (upd (crt s) pos (Z.lor 32 0x0700)) s).

(** src/console.c:129-158 *)
Definition cgaputc (c : Z) : M cstate unit :=
  pos ← cga_cursor;
  pos ← cga_show c pos;
  pos ← cga_scroll pos;
  cga_move pos.

(** The wait for the transmitter is bounded and only reads -- src/uart.c:51-61 *)
Definition uartputc (c : Z) : M cstate unit :=
  u ← gets uart;
  if negb u then mret tt else modify (λ s, set_uart_out (uart_out s ++ [w8 c]) s).

(** [status] is the line status register; 0xff says that there is no port -- src/uart.c:34-48 *)
Definition uartinit (status : Z) : M cstate unit :=
  if status =? 0xff then mret tt else
  modify (set_uart true);;
  for_each (str "xv6..." ++ [10]) uartputc.

(** It does not return once the kernel has panicked -- src/console.c:160-174 *)
Definition consputc (c : Z) : M cstate unit :=
  p ← gets panicked;
  if (p : bool) then nofuel else
  (if c =? BACKSPACE then uartputc 8;; uartputc 32;; uartputc 8 else uartputc c);;
  cgaputc c.

(** [static char digits[]], with its NUL -- src/console.c:29-29 *)
Definition digits : list Z := str "0123456789abcdef" ++ [0].

(** src/console.c:26-49 *)
Definition cons_printint (xx base : Z) (sign : bool) : M cstate unit :=
  let sign := sign && (s32 xx <? 0) in
  let x := if sign then w32 (- s32 xx) else w32 xx in
  r ← digits_loop 32 digits x base (replicate 16 0) 0;
  let '(buf, i) := r in
  buf ← (if sign then buf_store buf i 45 else mret buf);
  let i := if sign then (i + 1)%nat else i in
  emit consputc buf i.

(** The loop over the format -- src/console.c:68-99 *)
Fixpoint cprintf_loop (fmt : list Z) (argp : list arg) : M cstate unit :=
  match fmt with
  | [] => mret tt
  | c :: fmt =>
      if negb (c =? 37) then consputc c;; cprintf_loop fmt argp else
      match fmt with
      | [] => mret tt
      | c :: fmt =>
          if c =? 100 then
            match argp with Word z :: argp => cons_printint z 10 true;; cprintf_loop fmt argp | _ => fault "argp" end
          else if (c =? 120) || (c =? 112) then
            match argp with Word z :: argp => cons_printint z 16 false;; cprintf_loop fmt argp | _ => fault "argp" end
          else if c =? 115 then
            match argp with
            | Ptr s :: argp =>
                for_each (match s with None => str "(null)" | Some s => s end) consputc;; cprintf_loop fmt argp
            | _ => fault "argp"
            end
          else if c =? 37 then consputc 37;; cprintf_loop fmt argp
          else consputc 37;; consputc c;; cprintf_loop fmt argp
      end
  end.

(** [None] is the null format -- src/console.c:52-103 *)
Definition cprintf (fmt : option (list Z)) (argp : list arg) : M cstate unit :=
  lk ← gets locking;
  (if (lk : bool) then acquire cons_lock set_cons_lock else mret tt);;
  match fmt with
  | None => panic "null fmt"
  | Some fmt =>
      cprintf_loop fmt argp;;
      if (lk : bool) then release cons_lock set_cons_lock else mret tt
  end.

(** [panic], up to the loop it ends in; [pcs] are the return addresses
    [getcallerpcs] finds, with zeros after the last -- src/console.c:105-122 *)
Definition cons_panic (cpu_id : Z) (s : list Z) (pcs : list Z) : M cstate unit :=
  modify (set_locking false);;
  cprintf (Some (str "cpu%d: panic: ")) [Word cpu_id];;
  cprintf (Some s) [];;
  cprintf (Some [10]) [];;
  for_each (seq 0 10) (λ i, cprintf (Some (str " %p")) [Word (nth i pcs 0)]);;
  modify (set_panicked true).

(** ** Input *)

Definition put_inlock v x := mkInput v (in_buf x) (in_r x) (in_w x) (in_e x).
Definition in_acquire : M cstate unit :=
  acquire (λ s, in_lock (the_input s)) (λ v s, set_input (put_inlock v (the_input s)) s).
Definition in_release : M cstate unit :=
  release (λ s, in_lock (the_input s)) (λ v s, set_input (put_inlock v (the_input s)) s).

Definition upd_input (f : input → input) : M cstate unit := modify (λ s, set_input (f (the_input s)) s).
Definition set_e v x := mkInput (in_lock x) (in_buf x) (in_r x) (in_w x) v.
Definition set_r v x := mkInput (in_lock x) (in_buf x) v (in_w x) (in_e x).
Definition set_w v x := mkInput (in_lock x) (in_buf x) (in_r x) v (in_e x).
Definition set_buf v x := mkInput (in_lock x) v (in_r x) (in_w x) (in_e x).

(** [input.buf[i % INPUT_BUF]] *)
Definition ring (x : input) (i : Z) : Z := nth (Z.to_nat (i `mod` INPUT_BUF)) (in_buf x) 0.

(** Erase the line; it is [w32 (e - w)] bytes long -- src/console.c:199-203 *)
Fixpoint kill_line (n : nat) : M cstate unit :=
  x ← gets the_input;
  if negb (in_e x =? in_w x) && negb (ring x (w32 (in_e x - 1)) =? 10) then
    match n with
    | O => nofuel
    | S n =>
        upd_input (set_e (w32 (in_e x - 1)));;
        consputc BACKSPACE;;
        kill_line n
    end
  else mret tt.

Section input.
(** The process listing of proc.c. *)
Context (procdump : M cstate unit).

(** One character, as the [switch] treats it -- src/console.c:194-222 *)
Definition console_key (c : Z) : M cstate unit :=
  if c =? C 80 then procdump
  else if c =? C 85 then
    x ← gets the_input;
    kill_line (Z.to_nat (w32 (in_e x - in_w x)))
  else if (c =? C 72) || (c =? 127) then
    x ← gets the_input;
    if negb (in_e x =? in_w x) then
      upd_input (set_e (w32 (in_e x - 1)));;
      consputc BACKSPACE
    else mret tt
  else
    x ← gets the_input;
    if negb (c =? 0) && (w32 (in_e x - in_r x) <? INPUT_BUF) then
      let c := if c =? 13 then 10 else c in
      upd_input (set_buf (<[Z.to_nat (in_e x `mod` INPUT_BUF) := w8 c]> (in_buf x)));;
      upd_input (set_e (w32 (in_e x + 1)));;
      consputc c;;
      x ← gets the_input;
      if (c =? 10) || (c =? C 68) || (in_e x =? w32 (in_r x + INPUT_BUF)) then
        upd_input (set_w (in_e x));;
        modify (λ s, set_woken (S (woken s)) s)
      else mret tt
    else mret tt.

(** [cs] are the characters [getc] returns before a negative value -- src/console.c:187-225 *)
Definition consoleintr (cs : list Z) : M cstate unit :=
  in_acquire;;
  for_each cs console_key;;
  in_release.

(** [received] are the bytes [uartgetc] finds in the receiver -- src/uart.c:63-77 *)
Definition uartintr (received : list Z) : M cstate unit :=
  u ← gets uart;
  consoleintr (if (u : bool) then received else []).
End input.

(** How [consoleread] comes to a stop: with the bytes read, killed, or asleep
    with bytes read and [n] still wanted. *)
Inductive cres :=
  | CDone (bs : list Z)
  | CKilled
  | CSleep (bs : list Z) (n : nat).

(** [while(n > 0)]; [n < target] when bytes have been read -- src/console.c:236-258 *)
Fixpoint read_chars (killed : bool) (bs : list Z) (n : nat) (x : input) : cres * input :=
  match n with
  | O => (CDone bs, x)
  | S n' =>
      if in_r x =? in_w x then ((if killed then CKilled else CSleep bs n), x)
      else
        let c := ring x (in_r x) in
        let x1 := set_r (w32 (in_r x + 1)) x in
        if c =? C 68 then (CDone bs, if (0 <? length bs)%nat then set_r (w32 (in_r x1 - 1)) x1 else x1)
        else if c =? 10 then (CDone (bs ++ [c]), x1)
        else read_chars killed (bs ++ [c]) n' x1
  end.

Section console_file.
(** The inode of the console, see fs.c. *)
Context (iunlock ilock : M cstate unit).

(** From the call, or from a wakeup with bytes read, to the return or the next
    [sleep], which gives up the lock -- src/console.c:227-263 *)
Definition read_on (killed : bool) (bs : list Z) (n : nat) : M cstate cres :=
  in_acquire;;
  x ← gets the_input;
  let '(r, x') := read_chars killed bs n x in
  upd_input (λ _, x');;
  in_release;;
  match r with
  | CSleep _ _ => mret r
  | _ => ilock;; mret r
  end.

(** src/console.c:227-263 *)
Definition consoleread (killed : bool) (n : Z) : M cstate cres :=
  iunlock;; read_on killed [] (Z.to_nat n).

(** src/console.c:265-278 *)
Definition consolewrite (buf : Z → Z) (n : Z) : M cstate Z :=
  iunlock;;
  acquire cons_lock set_cons_lock;;
  for_each (seqZ 0 n) (λ i, consputc (Z.land (buf i) 0xff));;
  release cons_lock set_cons_lock;;
  ilock;;
  mret n.
End console_file.

(** The part of it that is the console's own: the locks are free and output
    takes the lock from now on -- src/console.c:280-288 *)
Definition consoleinit : M cstate unit :=
  modify (set_cons_lock false);;
  upd_input (put_inlock false);;
  modify (set_locking true).

(** ** The screen *)

(** The cursor, as the two registers hold it. *)
Definition cursor (s : cstate) : Z := crt_reg s 14 * 256 + crt_reg s 15.

(** The cursor is on one of the 24 rows. *)
Definition on_screen (s : cstate) : Prop :=
  0 ≤ crt_reg s 14 < 256 ∧ 0 ≤ crt_reg s 15 < 256 ∧ cursor s < 24 * 80.

(** What output leaves alone. *)
Definition off_screen_same (s s' : cstate) : Prop :=
  (∀ i, ¬ 0 ≤ i < 24 * 80 → crt s' i = crt s i) ∧ panicked s' = panicked s ∧
  uart s' = uart s ∧ the_input s' = the_input s ∧ woken s' = woken s ∧
  cons_lock s' = cons_lock s ∧ locking s' = locking s.

Lemma byte_pair_write p : 0 ≤ p < 65536 → w8 (Z.shiftr p 8) * 256 + w8 p = p.
Proof.
  intros Hp. unfold w8. rewrite Z.shiftr_div_pow2 by lia. change (2 ^ 8) with 256.
  rewrite (Z.mod_small (p / 256)); [|split; [apply Z.div_pos|apply Z.div_lt_upper_bound]; lia].
  pose proof (Z.div_mod p 256 ltac:(lia)). lia.
Qed.

(** Where the cursor is after a character. *)
Definition advance (c pos : Z) : Z :=
  if c =? 10 then pos + (80 - pos `mod` 80)
  else if c =? BACKSPACE then Z.max 0 (pos - 1) else pos + 1.
Definition cursor_after (c pos : Z) : Z :=
  if 24 * 80 <=? advance c pos then advance c pos - 80 else advance c pos.

Lemma advance_bound c pos : 0 ≤ pos < 24 * 80 → 0 ≤ advance c pos ≤ 24 * 80.
Proof.
  intros Hp. unfold advance. pose proof (Z.mod_pos_bound pos 80 ltac:(lia)).
  destruct (c =? 10); [|destruct (c =? BACKSPACE); lia].
  pose proof (Z.div_mod pos 80 ltac:(lia)). assert (pos / 80 < 24) by (apply Z.div_lt_upper_bound; lia). lia.
Qed.

Lemma off_screen_refl s : off_screen_same s s.
Proof. done. Qed.

Lemma off_screen_trans s s1 s2 : off_screen_same s s1 → off_screen_same s1 s2 → off_screen_same s s2.
Proof.
  intros (A & B & C' & D & E & F & G) (A' & B' & C'' & D' & E' & F' & G').
  unfold off_screen_same. split; [intros i Hi; rewrite A', A by done; done|]. intuition congruence.
Qed.

(** A step of output that keeps the registers of the cursor. *)
Definition keeps (s s' : cstate) : Prop := off_screen_same s s' ∧ uart_out s' = uart_out s.

Lemma keeps_trans s s1 s2 : keeps s s1 → keeps s1 s2 → keeps s s2.
Proof. intros [A B] [A' B']. split; [by eapply off_screen_trans|congruence]. Qed.

Lemma keeps_crt s f : (∀ i, ¬ 0 ≤ i < 24 * 80 → f i = crt s i) → keeps s (set_crt f s).
Proof. done. Qed.

Lemma cga_cursor_wp s : on_screen s → wp cga_cursor (λ pos s', pos = cursor s ∧ keeps s s') s.
Proof.
  intros (Hh & Hl & _). unfold cga_cursor, outb_crt, inb_crt. change (CRTPORT =? CRTPORT) with true. wp_run.
  cbn [crt_reg crt_idx set_crt_idx]. by rewrite byte_pair.
Qed.

Lemma cga_show_wp c pos s :
  0 ≤ pos < 24 * 80 → wp (cga_show c pos) (λ p s', p = advance c pos ∧ keeps s s') s.
Proof.
  intros Hp. unfold cga_show, advance. rewrite Z.rem_mod_nonneg by lia.
  destruct (c =? 10); [by apply wp_ret|]. destruct (c =? BACKSPACE); wp_run; split; try done.
  - destruct (Z.gtb_spec pos 0); lia.
  - apply keeps_crt. intros i Hi. unfold upd. by rewrite (proj2 (Z.eqb_neq i pos)) by lia.
Qed.

Lemma cga_scroll_wp pos s :
  0 ≤ pos ≤ 24 * 80 →
  wp (cga_scroll pos) (λ p s', p = (if 24 * 80 <=? pos then pos - 80 else pos) ∧ keeps s s') s.
Proof.
  intros Hp. unfold cga_scroll. rewrite Z.quot_div_nonneg by lia.
  pose proof (Z.div_mod pos 80 ltac:(lia)). pose proof (Z.mod_pos_bound pos 80 ltac:(lia)).
  destruct (Z.leb_spec (24 * 80) pos), (Z.geb_spec (pos / 80) 24); [|lia|lia|by apply wp_ret].
  wp_run. split; [done|]. assert (pos = 1920) as -> by lia.
  eapply keeps_trans; apply keeps_crt; intros i Hi; cbn [crt set_crt].
  - rewrite decide_False; [done|lia].
  - unfold clear_cells. rewrite decide_False; [done|]. change (w32 (2 * (24 * 80 - (1920 - 80))) / 2) with 80. lia.
Qed.

Lemma cga_move_wp s pos :
  0 ≤ pos < 24 * 80 → wp (cga_move pos) (λ _ s', on_screen s' ∧ cursor s' = pos ∧ keeps s s') s.
Proof.
  intros Hp. unfold cga_move, outb_crt. change (CRTPORT =? CRTPORT) with true.
  change (CRTPORT + 1 =? CRTPORT) with false. wp_run.
  assert (Hc : w8 (Z.shiftr pos 8) * 256 + w8 pos = pos) by (apply byte_pair_write; lia).
  pose proof (Z.mod_pos_bound pos (2^8) ltac:(lia)). pose proof (Z.mod_pos_bound (Z.shiftr pos 8) (2^8) ltac:(lia)).
  split; [|split; [exact Hc|split; [split; [|done]|done]]].
  - change (0 ≤ w8 (Z.shiftr pos 8) < 256 ∧ 0 ≤ w8 pos < 256 ∧ w8 (Z.shiftr pos 8) * 256 + w8 pos < 24 * 80).
    rewrite Hc. unfold w8. lia.
  - intros i Hni. cbn. unfold upd. by rewrite (proj2 (Z.eqb_neq i pos)) by lia.
Qed.

Lemma cgaputc_wp c s :
  on_screen s →
  wp (cgaputc c) (λ _ s', on_screen s' ∧ cursor s' = cursor_after c (cursor s) ∧ keeps s s') s.
Proof.
  intros Hs. assert (Hp : 0 ≤ cursor s < 24 * 80) by (destruct Hs as (? & ? & ?); unfold cursor in *; lia).
  pose proof (advance_bound c (cursor s) Hp).
  unfold cgaputc. apply wp_bind. wp_use cga_cursor_wp; [done|]. intros ? s1 [-> H1].
  apply wp_bind. wp_use cga_show_wp; [done|]. intros ? s2 [-> H2].
  apply wp_bind. wp_use cga_scroll_wp; [done|]. intros ? s3 [-> H3].
  wp_use cga_move_wp; [destruct (Z.leb_spec (24 * 80) (advance c (cursor s))); lia|].
  intros [] s4 (A & B & H4). split; [done|]. split; [exact B|]. eauto using keeps_trans.
Qed.

(** What goes out on the serial line for a character. *)
Definition serial (c : Z) : list Z := if c =? BACKSPACE then [8; 32; 8] else [w8 c].
Definition to_serial (s : cstate) (cs : list Z) : list Z := if uart s then cs ≫= serial else [].

(** Output of [cs] took place between the two states. *)
Definition printed (cs : list Z) (s s' : cstate) : Prop :=
  on_screen s' ∧ cursor s' = fold_left (λ p c, cursor_after c p) cs (cursor s) ∧
  off_screen_same s s' ∧ uart_out s' = uart_out s ++ to_serial s cs.

Lemma uartputc_run c s :
  uartputc c s = Ok tt (if uart s then set_uart_out (uart_out s ++ [w8 c]) s else s).
Proof. unfold uartputc. rewrite (bind_ok _ _ s (uart s) s) by done. by destruct (uart s). Qed.

Lemma to_serial_one s c : to_serial s [c] = if uart s then serial c else [].
Proof. unfold to_serial. cbn. by rewrite app_nil_r. Qed.

Lemma consputc_wp c s : on_screen s → panicked s = false → wp (consputc c) (λ _ s', printed [c] s s') s.
Proof.
  intros Hs Hp. unfold consputc. apply wp_bind, wp_gets. rewrite Hp. apply wp_bind.
  eapply (wp_mono _ (λ _ s1, on_screen s1 ∧ cursor s1 = cursor s ∧ off_screen_same s s1 ∧
    uart_out s1 = uart_out s ++ to_serial s [c])).
  - rewrite to_serial_one. unfold serial, wp. destruct (c =? BACKSPACE).
    + rewrite (bind_ok _ _ _ _ _ (uartputc_run 8 s)), (bind_ok _ _ _ _ _ (uartputc_run 32 _)), uartputc_run.
      destruct (uart s) eqn:E; cbn [uart uart_out set_uart_out]; rewrite ?E, ?app_nil_r; [|done].
      cbn [uart uart_out set_uart_out]. by rewrite E, <- !app_assoc.
    + rewrite uartputc_run. by destruct (uart s); rewrite ?app_nil_r.
  - intros _ s1 (H1 & E1 & O1 & U1). wp_use cgaputc_wp; [done|]. intros _ s2 (H2 & E2 & O2 & U2).
    unfold printed. split_and!; [done|cbn; by rewrite E2, E1|by eapply off_screen_trans|by rewrite U2].
Qed.

Lemma printed_nil s : on_screen s → printed [] s s.
Proof. intros Hs. unfold printed, to_serial. split_and!; try done. destruct (uart s); by rewrite app_nil_r. Qed.

Lemma printed_app cs ds s s1 s2 : printed cs s s1 → printed ds s1 s2 → printed (cs ++ ds) s s2.
Proof.
  intros (H1 & E1 & O1 & U1) (H2 & E2 & O2 & U2). split_and!; [done|..].
  - by rewrite E2, E1, fold_left_app.
  - by eapply off_screen_trans.
  - rewrite U2, U1. unfold to_serial. destruct O1 as (_ & _ & -> & _). rewrite <- app_assoc. f_equal.
    destruct (uart s); [by rewrite bind_app|done].
Qed.

(** Output of a list of characters, one at a time. *)
Lemma for_each_printed {A} (l : list A) (g : A → Z) s :
  on_screen s → panicked s = false →
  wp (for_each l (λ x, consputc (g x))) (λ _ s', printed (map g l) s s') s.
Proof.
  revert s. induction l as [|x l IH]; intros s Hs Hp; simpl; [by apply wp_ret, printed_nil|].
  apply wp_bind. wp_use consputc_wp; [done..|]. intros [] s1 H1.
  pose proof H1 as (Hs1 & _ & (_ & Hp1 & _) & _). wp_use IH; [done|congruence|].
  intros [] s2 H2. exact (printed_app [_] _ _ _ _ H1 H2).
Qed.

Section console_file_proofs.
(** The inode's lock is not part of the console. *)
Context (iunlock ilock : M cstate unit).
Context (Hunlock : ∀ s, wp iunlock (λ _ s', s' = s) s) (Hlock : ∀ s, wp ilock (λ _ s', s' = s) s).

(** [consolewrite] prints exactly its [n] bytes: with the cursor on one of
    the 24 rows at the start it stays there (the screen scrolls when a line ends
    below it), no cell outside of the 24 rows is stored to, the bytes go out on
    the serial line in order, and the lock is free again. *)
Theorem consolewrite_prints buf n s :
  on_screen s → panicked s = false → cons_lock s = false →
  wp (consolewrite iunlock ilock buf n)
    (λ r s', r = n ∧ printed (map (λ i, Z.land (buf i) 0xff) (seqZ 0 n)) s s') s.
Proof.
  intros Hs Hp Hc. unfold consolewrite. apply wp_bind. wp_use Hunlock. intros _ ? ->.
  apply wp_bind, wp_acquire; [done|]. apply wp_bind. wp_use (for_each_printed (A:=Z)); [done..|].
  intros _ s1 (H1 & E1 & (C1 & P1 & R1 & I1 & W1 & L1 & K1) & U1).
  apply wp_bind, wp_release; [done|]. apply wp_bind. wp_use Hlock. intros _ ? ->. by apply wp_ret.
Qed.
End console_file_proofs.

(** A quiet console with an empty screen, for the examples. *)
Definition cons0 : cstate :=
  mkCons false false true (λ _, 0x0720) 0 (λ r, if r =? 14 then 7 else if r =? 15 then 127 else 0) true []
    (mkInput false (replicate 128 0) 4294967295 4294967295 4294967295) 0.

(** At the last cell of the screen a letter makes it scroll. *)
Lemma consolewrite_prints_witness :
  cursor cons0 = 1919 ∧
  wp (consolewrite (mret tt) (mret tt) (λ i, 65 + i) 2)
    (λ r s', r = 2 ∧ printed [65; 66] cons0 s' ∧ cursor s' = 1841) cons0.
Proof.
  split; [reflexivity|].
  eapply wp_mono; [apply (consolewrite_prints (mret tt) (mret tt)); [done|done|split; [done|split; done]|done|done]|].
  intros r s' [-> H]. split; [done|]. split; [exact H|]. destruct H as (_ & -> & _). reflexivity.
Defined.

(** ** The ring as a line editor *)

(** The lines that can be read, and the line being typed. *)
Definition editor : Type := list Z * list Z.

(** What a character does. *)
Definition edit (c : Z) (ed : editor) : editor :=
  let '(ready, line) := ed in
  if c =? C 80 then ed
  else if c =? C 85 then (ready, [])
  else if (c =? C 72) || (c =? 127) then (ready, removelast line)
  else if negb (c =? 0) && (length (ready ++ line) <? 128)%nat then
    let c := if c =? 13 then 10 else c in
    let line := line ++ [w8 c] in
    if (c =? 10) || (c =? C 68) || (length (ready ++ line) =? 128)%nat then (ready ++ line, [])
    else (ready, line)
  else ed.

(** What a read of [n] bytes takes, after [bs]: to the end of a line, to an end
    of file, or all there is. *)
Fixpoint take_line (killed : bool) (bs : list Z) (n : nat) (ready : list Z) : cres * list Z :=
  match n, ready with
  | O, _ => (CDone bs, ready)
  | S _, [] => ((if killed then CKilled else CSleep bs n), [])
  | S n', c :: ready' =>
      if c =? C 68 then (CDone bs, if (0 <? length bs)%nat then ready else ready')
      else if c =? 10 then (CDone (bs ++ [c]), ready')
      else take_line killed (bs ++ [c]) n' ready'
  end.

(** The bytes [q] are in the ring from [r] to [e], also when the counters wrap
    around. *)
Definition window (x : input) (q : list Z) : Prop :=
  length (in_buf x) = 128%nat ∧ 0 ≤ in_r x < 2^32 ∧
  in_e x = w32 (in_r x + Z.of_nat (length q)) ∧ (length q ≤ 128)%nat ∧
  ∀ i b, q !! i = Some b → ring x (in_r x + Z.of_nat i) = b.

(** The ring holds an editor: [w] is between the two lists, and the line being
    typed has no newline. *)
Definition edits (x : input) (ed : editor) : Prop :=
  window x (ed.1 ++ ed.2) ∧ in_w x = w32 (in_r x + Z.of_nat (length ed.1)) ∧ 10 ∉ ed.2.

Lemma w32_mod128 a : w32 a `mod` 128 = a `mod` 128.
Proof. apply w32_mod; [lia|]. by exists 33554432. Qed.

Lemma ring_w32 x i : ring x (w32 i) = ring x i.
Proof. unfold ring, INPUT_BUF. by rewrite w32_mod128. Qed.

Lemma edits_e_w x ready line : edits x (ready, line) → (in_e x =? in_w x) = bool_decide (line = []).
Proof.
  intros ((_ & _ & He & Hle & _) & Hw & _). cbn [fst snd] in *. rewrite He, Hw, length_app. rewrite length_app in Hle.
  case_bool_decide as E.
  - subst. simpl. rewrite Nat.add_0_r. apply Z.eqb_refl.
  - apply Z.eqb_neq. intros H%w32_inj; [|lia..]. destruct line; [done|]. simpl in H. lia.
Qed.

Lemma window_e_r x q : window x q → w32 (in_e x - in_r x) = Z.of_nat (length q).
Proof.
  intros (_ & _ & -> & Hle & _). autorewrite with word32_rw.
  replace (in_r x + Z.of_nat (length q) - in_r x) with (Z.of_nat (length q)) by lia. apply w32_small. lia.
Qed.

(** Erasing the last character. *)
Lemma window_erase x q c :
  window x (q ++ [c]) → window (set_e (w32 (in_e x - 1)) x) q ∧ ring x (w32 (in_e x - 1)) = c.
Proof.
  intros (Hb & Hr & He & Hle & Hq). rewrite length_app in He, Hle. cbn [length] in *.
  assert (Ee : w32 (in_e x - 1) = w32 (in_r x + Z.of_nat (length q))).
  { rewrite He. autorewrite with word32_rw. f_equal. lia. }
  split.
  - split_and!; cbn [in_buf in_r in_w in_e set_e]; try done; [lia..|].
    intros i b Hi. apply Hq. by apply lookup_app_l_Some.
  - rewrite Ee, ring_w32. apply Hq. rewrite lookup_app_r by lia. by rewrite Nat.sub_diag.
Qed.

(** Storing a character. *)
Lemma window_store x q c :
  window x q → (length q < 128)%nat →
  window (set_e (w32 (in_e x + 1)) (set_buf (<[Z.to_nat (in_e x `mod` INPUT_BUF) := c]> (in_buf x)) x)) (q ++ [c]).
Proof.
  intros (Hb & Hr & He & Hle & Hq) Hlt. split_and!; cbn [in_buf in_r in_w in_e set_e set_buf]; try lia.
  - by rewrite length_insert.
  - rewrite He, length_app. autorewrite with word32_rw. cbn [length]. f_equal. lia.
  - rewrite length_app. cbn [length]. lia.
  - intros i b Hi. unfold ring, INPUT_BUF in *. cbn [in_buf in_r set_e set_buf]. rewrite He, w32_mod128.
    pose proof (Z.mod_pos_bound (in_r x + Z.of_nat i) 128 ltac:(lia)).
    pose proof (Z.mod_pos_bound (in_r x + Z.of_nat (length q)) 128 ltac:(lia)).
    apply lookup_app_Some in Hi as [Hi|[Hge Hi]].
    + pose proof (lookup_lt_Some _ _ _ Hi). rewrite nth_lookup, list_lookup_insert_ne, <- nth_lookup; [by apply Hq|].
      intros E%Z2Nat.inj; [|lia..]. apply mod_inj in E; lia.
    + apply list_lookup_singleton_Some in Hi as [E ->]. replace i with (length q) by lia.
      rewrite nth_lookup, list_lookup_insert_eq; [done|lia].
Qed.

(** Taking the first character. *)
Lemma window_take x c q : window x (c :: q) → ring x (in_r x) = c ∧ window (set_r (w32 (in_r x + 1)) x) q.
Proof.
  intros (Hb & Hr & He & Hle & Hq). split.
  - rewrite <- (Hq 0%nat c eq_refl). by rewrite Z.add_0_r.
  - split_and!; cbn [in_buf in_r in_e set_r]; [done|apply w32_bound|apply w32_bound| |simpl in Hle; lia|].
    + rewrite He. autorewrite with word32_rw. f_equal. simpl. lia.
    + intros i b Hi. rewrite <- (Hq (S i) b Hi), <- ring_w32, <- (ring_w32 x). autorewrite with word32_rw.
      unfold ring. cbn [in_buf set_r]. do 4 f_equal. lia.
Qed.

(** ** The interrupt handler is the editor *)

(** What typing leaves alone, the screen included. *)
Definition ready_to_print (s : cstate) : Prop := on_screen s ∧ panicked s = false.

(** A [consputc] in the handler does not touch the ring. *)
Lemma echo_wp c s :
  ready_to_print s → wp (consputc c) (λ _ s', ready_to_print s' ∧ the_input s' = the_input s) s.
Proof.
  intros [Hs Hp]. wp_use consputc_wp; [done..|]. intros _ s' (Hs' & _ & (_ & P' & _ & I' & _) & _).
  unfold ready_to_print. rewrite P'. done.
Qed.

Lemma kill_line_wp n ready line s :
  edits (the_input s) (ready, line) → (length line ≤ n)%nat → ready_to_print s →
  wp (kill_line n) (λ _ s', edits (the_input s') (ready, []) ∧ ready_to_print s' ∧
    in_lock (the_input s') = in_lock (the_input s)) s.
Proof.
  revert line s. induction n as [|n IH]; intros line s Hed Hn Hs; cbn [kill_line]; apply wp_bind, wp_gets;
    rewrite (edits_e_w _ _ _ Hed); destruct line as [|c line _] using rev_ind.
  1, 3: rewrite bool_decide_true by done; by apply wp_ret.
  { rewrite length_app in Hn. simpl in Hn. lia. }
  rewrite bool_decide_false by (by destruct line).
  destruct Hed as (Hw & Ew & Hnl). cbn [fst snd] in *. rewrite app_assoc in Hw.
  apply window_erase in Hw as [Hw ->]. rewrite not_elem_of_app, list_elem_of_singleton in Hnl. destruct Hnl as [Hnl Hc].
  rewrite (proj2 (Z.eqb_neq c 10)) by congruence. cbn [negb andb]. apply wp_bind, wp_modify, wp_bind.
  wp_use echo_wp; [done|]. intros _ s1 [H1 E1]. wp_use (IH line).
  - rewrite E1. by split_and!.
  - rewrite length_app in Hn. simpl in Hn. lia.
  - done.
  - intros _ s2 (A & B & L). rewrite L, E1. done.
Qed.

(** The state between two characters: an editor in the ring, its lock held. *)
Definition typing (ed : editor) (s : cstate) : Prop :=
  edits (the_input s) ed ∧ ready_to_print s ∧ in_lock (the_input s) = true.

Lemma window_w x q v : window x q → window (set_w v x) q.
Proof. done. Qed.

(** The store of a character, and the end of the line. *)
Lemma store_wp c ready line s :
  typing (ready, line) s → (length (ready ++ line) < 128)%nat → is_byte c →
  wp (upd_input (set_buf (<[Z.to_nat (in_e (the_input s) `mod` INPUT_BUF) := w8 c]> (in_buf (the_input s))));;
      upd_input (set_e (w32 (in_e (the_input s) + 1)));;
      consputc c;;
      x ← gets the_input;
      if (c =? 10) || (c =? C 68) || (in_e x =? w32 (in_r x + INPUT_BUF)) then
        upd_input (set_w (in_e x));; modify (λ s, set_woken (S (woken s)) s)
      else mret tt)
    (λ _ s', typing (let line := line ++ [w8 c] in
       if (c =? 10) || (c =? C 68) || (length (ready ++ line) =? 128)%nat then (ready ++ line, [])
       else (ready, line)) s') s.
Proof.
  intros ((Hw & Ew & Hnl) & Hs & Hl) Hlt Hc. cbn [fst snd] in *.
  apply (window_store _ _ (w8 c)) in Hw; [|done]. rewrite <- app_assoc in Hw.
  apply wp_bind, wp_modify, wp_bind, wp_modify, wp_bind. wp_use echo_wp; [done|]. intros _ s1 [H1 E1].
  apply wp_bind, wp_gets. cbv zeta.
  set (x1 := set_e _ (set_buf _ _)) in Hw. change (the_input s1 = x1) in E1. rewrite E1.
  assert (Hfull : (in_e x1 =? w32 (in_r x1 + INPUT_BUF)) = (length (ready ++ line ++ [w8 c]) =? 128)%nat).
  { pose proof Hw as (_ & _ & -> & Hle & _). unfold INPUT_BUF.
    destruct (Nat.eqb_spec (length (ready ++ line ++ [w8 c])) 128) as [->|Hne]; [apply Z.eqb_refl|].
    apply Z.eqb_neq. intros E%w32_inj; lia. }
  rewrite Hfull. destruct ((c =? 10) || (c =? C 68) || _) eqn:Ec.
  - apply wp_bind, wp_modify, wp_modify. unfold typing, edits. cbn [the_input set_woken set_input fst snd].
    rewrite E1, app_nil_r. split_and!; try done; [by destruct Hw as (_ & _ & ? & _)|apply not_elem_of_nil].
  - apply wp_ret. unfold typing, edits. rewrite E1. split_and!; try done. cbn [snd].
    rewrite not_elem_of_app, list_elem_of_singleton. split; [done|].
    unfold w8. rewrite Z.mod_small by done. intros <-. done.
Qed.

Section input_proofs.
(** The process listing prints, and does not touch the ring. *)
Context (procdump : M cstate unit).
Context (Hdump : ∀ s, ready_to_print s → wp procdump (λ _ s', ready_to_print s' ∧ the_input s' = the_input s) s).

Lemma console_key_wp c ed s : typing ed s → is_byte c → wp (console_key procdump c) (λ _ s', typing (edit c ed) s') s.
Proof.
  destruct ed as [ready line]. intros Ht Hc. pose proof Ht as (Hed & Hs & Hl). unfold console_key, edit.
  destruct (c =? C 80).
  { wp_use Hdump; [done|]. intros _ s' [Hs' E]. unfold typing. by rewrite E. }
  destruct (c =? C 85).
  { apply wp_bind, wp_gets. eapply wp_mono; [eapply (kill_line_wp _ ready line); [done| |done]|]; cbn beta.
    - destruct Hed as ((_ & _ & He & Hle & _) & Hw & _). cbn [fst snd] in *. rewrite length_app in *.
      rewrite He, Hw. autorewrite with word32_rw. rewrite w32_small; lia.
    - intros _ s' (A & B & E). unfold typing. by rewrite E. }
  destruct ((c =? C 72) || (c =? 127)).
  { apply wp_bind, wp_gets. rewrite (edits_e_w _ _ _ Hed). destruct line as [|c0 line _] using rev_ind.
    - rewrite bool_decide_true by done. by apply wp_ret.
    - rewrite bool_decide_false by (by destruct line). rewrite removelast_last. cbn [negb].
      destruct Hed as (Hw & Ew & Hnl). cbn [fst snd] in *. rewrite app_assoc in Hw. apply window_erase in Hw as [Hw _].
      rewrite not_elem_of_app in Hnl. destruct Hnl as [Hnl _].
      apply wp_bind, wp_modify. wp_use echo_wp; [done|]. intros _ s' [Hs' E]. unfold typing, edits. rewrite E. by split_and!. }
  apply wp_bind, wp_gets. destruct Hed as (Hw & _). cbn [fst snd] in *. rewrite (window_e_r _ _ Hw).
  replace (Z.of_nat (length (ready ++ line)) <? INPUT_BUF) with (length (ready ++ line) <? 128)%nat
    by (unfold INPUT_BUF; destruct (Nat.ltb_spec (length (ready ++ line)) 128), (Z.ltb_spec (Z.of_nat (length (ready ++ line))) 128); lia).
  destruct (negb (c =? 0) && (length (ready ++ line) <? 128)%nat) eqn:E; [|by apply wp_ret].
  apply andb_true_iff in E as [_ E%Nat.ltb_lt]. apply store_wp; [done..|]. destruct (c =? 13); [|done]. unfold is_byte. lia.
Qed.

Lemma consoleintr_wp cs ed s :
  edits (the_input s) ed → ready_to_print s → in_lock (the_input s) = false → Forall is_byte cs →
  wp (consoleintr procdump cs) (λ _ s', edits (the_input s') (fold_left (λ ed c, edit c ed) cs ed) ∧
    ready_to_print s' ∧ in_lock (the_input s') = false) s.
Proof.
  intros Hed Hs Hl Hcs. unfold consoleintr. apply wp_bind, wp_acquire; [done|]. apply wp_bind.
  apply wp_for_each with (I := λ cs' s', Forall is_byte cs' ∧
    ∃ ed', typing ed' s' ∧ fold_left (λ ed c, edit c ed) cs' ed' = fold_left (λ ed c, edit c ed) cs ed).
  - split; [done|]. by exists ed.
  - intros c cs' s' [[Hc Hcs']%Forall_cons (ed' & Ht & E)]. wp_use console_key_wp; [done..|].
    intros _ s2 H2. split; [done|]. by exists (edit c ed').
  - intros s' [_ (ed' & (A & B & L) & <-)]. by apply wp_release.
Qed.

(** ** Reading *)

Lemma edits_take x c ready line :
  edits x (c :: ready, line) →
  ring x (in_r x) = c ∧ in_r x ≠ in_w x ∧ edits (set_r (w32 (in_r x + 1)) x) (ready, line).
Proof.
  intros (Hw & Ew & Hnl). cbn [fst snd length] in *. pose proof Hw as (_ & Hr & _ & Hle & _).
  rewrite <- app_comm_cons in Hw. destruct (window_take _ _ _ Hw) as [Ec Hw']. split; [done|]. split; [|split; [done|split; [|done]]].
  - rewrite <- (w32_small (in_r x)), Ew, <- (Z.add_0_r (in_r x)) at 1 by lia.
    intros E%w32_inj; [lia|lia|]. rewrite length_app in Hle. simpl in Hle. lia.
  - cbn [in_r in_w set_r fst]. rewrite Ew. autorewrite with word32_rw. f_equal. lia.
Qed.

Lemma set_r_back x : 0 ≤ in_r x < 2^32 → set_r (w32 (w32 (in_r x + 1) - 1)) (set_r (w32 (in_r x + 1)) x) = x.
Proof.
  intros Hr. autorewrite with word32_rw. replace (in_r x + 1 - 1) with (in_r x) by lia.
  rewrite w32_small by done. by destruct x.
Qed.

Lemma read_chars_line killed bs n x ready line :
  edits x (ready, line) →
  let '(r, x') := read_chars killed bs n x in
  let '(r', ready') := take_line killed bs n ready in
  r = r' ∧ edits x' (ready', line) ∧ in_lock x' = in_lock x.
Proof.
  revert bs x ready. induction n as [|n IH]; intros bs x ready Hed; [by destruct ready|].
  cbn [read_chars take_line]. destruct ready as [|c ready].
  - assert (in_r x = in_w x) as ->%Z.eqb_eq; [|done].
    destruct Hed as ((_ & Hr & _) & -> & _). simpl. rewrite Z.add_0_r, w32_small; done.
  - destruct (edits_take _ _ _ _ Hed) as (-> & Hne%Z.eqb_neq & Hed'). rewrite Hne. cbv zeta.
    destruct (c =? C 68).
    { destruct (0 <? length bs)%nat; [|done]. cbn [in_r set_r].
      destruct Hed as (Hw & ? & ?). rewrite set_r_back by (apply Hw). done. }
    destruct (c =? 10); [done|]. apply (IH (bs ++ [c])) in Hed'. exact Hed'.
Qed.

Context (iunlock ilock : M cstate unit).
Context (Hunlock : ∀ s, wp iunlock (λ _ s', s' = s) s) (Hlock : ∀ s, wp ilock (λ _ s', s' = s) s).

Lemma consoleread_wp killed n ready line s :
  edits (the_input s) (ready, line) → in_lock (the_input s) = false →
  wp (consoleread iunlock ilock killed n) (λ r s', r = (take_line killed [] (Z.to_nat n) ready).1 ∧
    edits (the_input s') ((take_line killed [] (Z.to_nat n) ready).2, line) ∧ in_lock (the_input s') = false) s.
Proof.
  intros Hed Hl. unfold consoleread, read_on. apply wp_bind. wp_use Hunlock. intros _ ? ->.
  apply wp_bind, wp_acquire; [done|]. apply wp_bind, wp_gets.
  pose proof (read_chars_line killed [] (Z.to_nat n) (put_inlock true (the_input s)) ready line Hed) as Hr.
  cbn [the_input set_input]. destruct (read_chars _ _ _ _) as [r x']. destruct (take_line _ _ _ _) as [r' ready'].
  destruct Hr as (-> & He' & Hk). apply wp_bind, wp_modify, wp_bind, wp_release; [done|].
  destruct r'; [apply wp_bind; wp_use Hlock; intros _ ? ->; by apply wp_ret..|by apply wp_ret].
Qed.

(** C37: The input ring implements a line editor, also when its 32-bit counters
    wrap around.  The interrupt handler edits the line being typed (backspace
    and the kill character stop at its start, a newline, an end of file or a
    full ring makes it readable), and a read that follows returns what
    [take_line] says: the bytes up to and including a newline, or up to an end
    of file, which stays for the next read unless it comes first; without a
    complete line it sleeps, or fails when the process was killed. *)
Theorem console_lines cs killed n ed s :
  edits (the_input s) ed → ready_to_print s → in_lock (the_input s) = false → Forall is_byte cs →
  let '(ready, line) := fold_left (λ ed c, edit c ed) cs ed in
  wp (consoleintr procdump cs;; consoleread iunlock ilock killed n)
    (λ r s', r = (take_line killed [] (Z.to_nat n) ready).1 ∧
      edits (the_input s') ((take_line killed [] (Z.to_nat n) ready).2, line) ∧
      in_lock (the_input s') = false) s.
Proof.
  intros Hed Hs Hl Hcs. destruct (fold_left _ cs ed) as [ready line] eqn:E. apply wp_bind.
  wp_use consoleintr_wp; [done..|]. intros _ s' (Hed' & _ & Hl'). rewrite E in Hed'. by apply consoleread_wp.
Qed.
End input_proofs.

(** "lx", erased to "l", then "s" and a return, and a letter of the next line;
    the counters start at 2^32 - 1. *)
Lemma console_lines_witness :
  wp (consoleintr (mret tt) [108; 120; 8; 115; 13; 99];; consoleread (mret tt) (mret tt) false 100)
    (λ r s', r = CDone [108; 115; 10] ∧ edits (the_input s') ([], [99]) ∧ in_lock (the_input s') = false) cons0.
Proof.
  assert (Hid : ∀ s : cstate, wp (mret tt) (λ _ s', s' = s) s) by (intros s; by apply wp_ret).
  assert (Hdump : ∀ s, ready_to_print s → wp (mret tt) (λ _ s', ready_to_print s' ∧ the_input s' = the_input s) s)
    by (intros s Hs; by apply wp_ret).
  assert (Hed : edits (the_input cons0) ([], [])).
  { split; [|split; [done|apply not_elem_of_nil]]. split_and!; try done; cbn; lia. }
  assert (Hs : ready_to_print cons0) by (split; [split; [done|split; done]|done]).
  assert (Hcs : Forall is_byte [108; 120; 8; 115; 13; 99]) by (repeat constructor; unfold is_byte; lia).
  pose proof (console_lines (mret tt) Hdump (mret tt) (mret tt) Hid Hid [108; 120; 8; 115; 13; 99] false 100
    ([], []) cons0 Hed Hs eq_refl Hcs) as H.
  assert (E : fold_left (λ ed c, edit c ed) [108; 120; 8; 115; 13; 99] ([], []) = ([108; 115; 10], [99])) by reflexivity.
  rewrite E in H. eapply wp_mono; [exact H|]. intros r s' (-> & He & Hl). by split; [|split].
Defined.
