(* ===== verification/Kbd.v ===== *)
(** * The keyboard (kbd.c, kbd.h)

    Scan codes to characters, with the state of the shift and lock keys.  The
    tables are those of kbd.h, built by their initializers.  The theorem: the
    driver always indexes its tables inside of their bounds, delivers bytes, and
    what it delivers reaches the console's editor. *)

From stdpp Require Import base numbers list strings.
From Stdlib Require Import ZArith Lia.
From S2P Require Import Prelude CString User Printf Console.

#[local] Open Scope Z_scope.

(** kbd.h, line 7. *)
Definition NO : Z := 0.
(** The flags and codes of kbd.h, lines 9 to 29. *)
Definition SHIFT : Z := Z.shiftl 1 0.
Definition CTL : Z := Z.shiftl 1 1.
Definition ALT : Z := Z.shiftl 1 2.
Definition CAPSLOCK : Z := Z.shiftl 1 3.
Definition NUMLOCK : Z := Z.shiftl 1 4.
Definition SCROLLLOCK : Z := Z.shiftl 1 5.
Definition E0ESC : Z := Z.shiftl 1 6.
Definition KEY_HOME : Z := 0xE0.
Definition KEY_END : Z := 0xE1.
Definition KEY_UP : Z := 0xE2.
Definition KEY_DN : Z := 0xE3.
Definition KEY_LF : Z := 0xE4.
Definition KEY_RT : Z := 0xE5.
Definition KEY_PGUP : Z := 0xE6.
Definition KEY_PGDN : Z := 0xE7.
Definition KEY_INS : Z := 0xE8.
Definition KEY_DEL : Z := 0xE9.

(** An array of 256 [uchar]s from an initializer: values in order, then values at
    given indices; the rest is zero. *)
Definition initialize (vals : list Z) (at_ : list (nat * Z)) : list Z :=
  fold_left (λ l p, <[p.1 := w8 p.2]> l) at_ (take 256 (map w8 vals ++ replicate 256 0)).

(** src/kbd.h:34-42 *)
Definition shiftcode : list Z :=
  initialize [] [(29%nat, CTL); (42%nat, SHIFT); (54%nat, SHIFT); (56%nat, ALT); (157%nat, CTL); (184%nat, ALT)].

(** src/kbd.h:44-49 *)
Definition togglecode : list Z :=
  initialize [] [(58%nat, CAPSLOCK); (69%nat, NUMLOCK); (70%nat, SCROLLLOCK)].

(** src/kbd.h:51-71 *)
Definition normalmap : list Z :=
  initialize [
   NO; 27; 49; 50; 51; 52; 53; 54;
   55; 56; 57; 48; 45; 61; 8; 9;
   113; 119; 101; 114; 116; 121; 117; 105;
   111; 112; 91; 93; 10; NO; 97; 115;
   100; 102; 103; 104; 106; 107; 108; 59;
   39; 96; NO; 92; 122; 120; 99; 118;
   98; 110; 109; 44; 46; 47; NO; 42;
   NO; 32; NO; NO; NO; NO; NO; NO;
   NO; NO; NO; NO; NO; NO; NO; 55;
   56; 57; 45; 52; 53; 54; 43; 49;
   50; 51; 48; 46; NO; NO; NO; NO]
  [(156%nat, 10); (181%nat, 47); (200%nat, KEY_UP); (208%nat, KEY_DN); (201%nat, KEY_PGUP); (209%nat, KEY_PGDN); (203%nat, KEY_LF); (205%nat, KEY_RT); (151%nat, KEY_HOME); (207%nat, KEY_END); (210%nat, KEY_INS); (211%nat, KEY_DEL)].

(** src/kbd.h:73-93 *)
Definition shiftmap : list Z :=
  initialize [
   NO; 27; 33; 64; 35; 36; 37; 94;
   38; 42; 40; 41; 95; 43; 8; 9;
   81; 87; 69; 82; 84; 89; 85; 73;
   79; 80; 123; 125; 10; NO; 65; 83;
   68; 70; 71; 72; 74; 75; 76; 58;
   34; 126; NO; 124; 90; 88; 67; 86;
   66; 78; 77; 60; 62; 63; NO; 42;
   NO; 32; NO; NO; NO; NO; NO; NO;
   NO; NO; NO; NO; NO; NO; NO; 55;
   56; 57; 45; 52; 53; 54; 43; 49;
   50; 51; 48; 46; NO; NO; NO; NO]
  [(156%nat, 10); (181%nat, 47); (200%nat, KEY_UP); (208%nat, KEY_DN); (201%nat, KEY_PGUP); (209%nat, KEY_PGDN); (203%nat, KEY_LF); (205%nat, KEY_RT); (151%nat, KEY_HOME); (207%nat, KEY_END); (210%nat, KEY_INS); (211%nat, KEY_DEL)].

(** src/kbd.h:95-111 *)
Definition ctlmap : list Z :=
  initialize [
   NO; NO; NO; NO; NO; NO; NO; NO;
   NO; NO; NO; NO; NO; NO; NO; NO;
   C 81; C 87; C 69; C 82; C 84; C 89; C 85; C 73;
   C 79; C 80; NO; NO; 13; NO; C 65; C 83;
   C 68; C 70; C 71; C 72; C 74; C 75; C 76; NO;
   NO; NO; NO; C 92; C 90; C 88; C 67; C 86;
   C 66; C 78; C 77; NO; NO; C 47; NO; NO]
  [(156%nat, 13); (181%nat, C 47); (200%nat, KEY_UP); (208%nat, KEY_DN); (201%nat, KEY_PGUP); (209%nat, KEY_PGDN); (203%nat, KEY_LF); (205%nat, KEY_RT); (151%nat, KEY_HOME); (207%nat, KEY_END); (210%nat, KEY_INS); (211%nat, KEY_DEL)].

(** [a[i]] for one of the arrays. *)
Definition at_index (a : list Z) (i : Z) : M Z Z :=
  match a !! Z.to_nat i with Some v => mret v | None => fault "table index" end.

(** src/kbd.c:10-12 *)
Definition charcode (i : Z) : list Z :=
  nth (Z.to_nat i) [normalmap; shiftmap; ctlmap; ctlmap] [].

(** The state is the static variable [shift]; [None] when the controller has no
    data -- src/kbd.c:6-44 *)
Definition kbdgetc (inp : option Z) : M Z Z :=
  match inp with
  | None => mret (-1)
  | Some data =>
      shift ← get;
      if data =? 0xE0 then modify (λ shift, Z.lor shift E0ESC);; mret 0
      else if negb (Z.land data 0x80 =? 0) then
        let data := if negb (Z.land shift E0ESC =? 0) then data else Z.land data 0x7F in
        code ← at_index shiftcode data;
        modify (λ shift, Z.land shift (Z.lnot (Z.lor code E0ESC)));;
        mret 0
      else
        data ← (if negb (Z.land shift E0ESC =? 0) then
                  modify (λ shift, Z.land shift (Z.lnot E0ESC));; mret (Z.lor data 0x80)
                else mret data);
        code ← at_index shiftcode data;
        modify (λ shift, Z.lor shift code);;
        toggle ← at_index togglecode data;
        modify (λ shift, Z.lxor shift toggle);;
        shift ← get;
        c ← at_index (charcode (Z.land shift (Z.lor CTL SHIFT))) data;
        mret (if negb (Z.land shift CAPSLOCK =? 0) then
                if (97 <=? c) && (c <=? 122) then c + (65 - 97)
                else if (65 <=? c) && (c <=? 90) then c + (97 - 65) else c
              else c)
  end.

(** The characters of a run of scan codes, as the handler's loop asks for them. *)
Fixpoint kbd_keys (codes : list Z) : M Z (list Z) :=
  match codes with
  | [] => mret []
  | d :: codes => c ← kbdgetc (Some d); cs ← kbd_keys codes; mret (c :: cs)
  end.

(** The keyboard's variable and the console; getting characters does not depend
    on what the handler does with them -- src/kbd.c:46-50 *)
Definition kbdintr (procdump : M cstate unit) (codes : list Z) : M (Z * cstate) unit :=
  cs ← zoom fst (λ v s, (v, s.2)) (kbd_keys codes);
  zoom snd (λ v s, (s.1, v)) (consoleintr procdump cs).

(** The check of all values of [shift] with all scan codes: the driver returns,
    a byte, and [shift] keeps its seven bits. *)
Definition kbd_ok (shift d : Z) : bool :=
  match kbdgetc (Some d) shift with
  | Ok c shift' => (0 <=? c) && (c <? 256) && (0 <=? shift') && (shift' <? 128)
  | _ => false
  end.

Lemma kbd_all_ok : forallb (λ p : Z * Z, kbd_ok p.1 p.2) (list_prod (seqZ 0 128) (seqZ 0 256)) = true.
Proof. vm_compute. reflexivity. Qed.

Lemma kbdgetc_wp d shift :
  0 ≤ shift < 128 → is_byte d → wp (kbdgetc (Some d)) (λ c shift', is_byte c ∧ 0 ≤ shift' < 128) shift.
Proof.
  intros Hs Hd. unfold is_byte in *.
  assert (Hin : In (shift, d) (list_prod (seqZ 0 128) (seqZ 0 256)))
    by (apply in_prod; apply list_elem_of_In, elem_of_seqZ; lia).
  pose proof (proj1 (forallb_forall _ _) kbd_all_ok _ Hin) as H. cbn [fst snd] in H. unfold kbd_ok in H.
  unfold wp. destruct (kbdgetc (Some d) shift); [lia|discriminate..].
Qed.

Lemma kbd_keys_wp codes shift :
  0 ≤ shift < 128 → Forall is_byte codes →
  wp (kbd_keys codes) (λ cs shift', Forall is_byte cs ∧ length cs = length codes ∧ 0 ≤ shift' < 128) shift.
Proof.
  revert shift. induction codes as [|d codes IH]; intros shift Hs Hc; cbn [kbd_keys]; [by apply wp_ret|].
  apply Forall_cons in Hc as [Hd Hc]. apply wp_bind. wp_use kbdgetc_wp; [done..|]. intros c shift' [Hb Hs'].
  apply wp_bind. wp_use IH; [done..|]. intros cs shift2 (Hcs & Hl & Hs2). apply wp_ret.
  split; [by constructor|]. split; [simpl; lia|done].
Qed.

(** C38: Whatever scan codes arrive, in whatever state of the shift and lock
    keys, the keyboard's interrupt handler returns: its tables are indexed
    within their 256 entries, every code gives one byte, the state keeps its
    seven flags, and the console's line is edited by exactly these bytes. *)
Theorem kbdintr_types procdump codes shift ed s :
  (∀ s, ready_to_print s → wp procdump (λ _ s', ready_to_print s' ∧ the_input s' = the_input s) s) →
  0 ≤ shift < 128 → Forall is_byte codes →
  edits (the_input s) ed → ready_to_print s → in_lock (the_input s) = false →
  wp (kbdintr procdump codes) (λ _ st', 0 ≤ st'.1 < 128 ∧ ∃ cs,
    kbd_keys codes shift = Ok cs st'.1 ∧ Forall is_byte cs ∧ length cs = length codes ∧
    edits (the_input st'.2) (fold_left (λ ed c, edit c ed) cs ed) ∧ ready_to_print st'.2 ∧
    in_lock (the_input st'.2) = false) (shift, s).
Proof.
  intros Hdump Hs Hc Hed Hr Hl. unfold kbdintr. apply wp_bind, wp_zoom. cbn [fst snd].
  destruct (proj1 (wp_ok _ _ _) (kbd_keys_wp codes shift Hs Hc)) as (cs & shift' & E & Hcs & Hlen & Hs').
  apply wp_ok. exists cs, shift'. split; [done|]. apply wp_zoom. cbn [fst snd].
  wp_use (consoleintr_wp procdump Hdump); [done..|]. intros _ s' (A & B & L). split; [done|]. by exists cs.
Qed.

(** Shift down, "l", shift up, "s", return: the line "Ls". *)
Lemma kbdintr_types_witness :
  wp (kbdintr (mret tt) [42; 38; 170; 31; 28]) (λ _ st', st'.1 = 0 ∧
    edits (the_input st'.2) ([76; 115; 10], [])) (0, cons0).
Proof.
  eapply wp_mono; [refine (kbdintr_types (mret tt) [42; 38; 170; 31; 28] 0 ([], []) cons0 _ _ _ _ _ _)|].
  - intros s Hs. by apply wp_ret.
  - lia.
  - repeat constructor; unfold is_byte; lia.
  - split; [|split; [done|apply not_elem_of_nil]]. split_and!; try done; cbn; lia.
  - split; [split; [done|split; done]|done].
  - done.
  - intros _ [sh s'] (_ & cs & E & _ & _ & Hed & _). cbn [fst snd] in *.
    assert (Ek : kbd_keys [42; 38; 170; 31; 28] 0 = Ok [0; 76; 0; 115; 10] 0) by (vm_compute; reflexivity).
    rewrite Ek in E. injection E as <- <-. split; [done|exact Hed].
Defined.
