(* ===== verification/Syscall.v ===== *)
(** * System calls (syscall.c, sysproc.c)

    The dispatcher, the routines that fetch and check arguments in the user's
    memory, and the calls of sysproc.c: processes, the clock, burst accounting,
    threads and their mutexes.  The calls on files are behind the class
    [FileCalls].  A call that sleeps is split at [swtch], as in the model of
    proc.c.

    The theorems: an argument that passes the checks lies within the process,
    the exact effect of a system call on the array of bursts, and how the array
    is left. *)

From stdpp Require Import base numbers list strings.
From Stdlib Require Import ZArith Lia.
From S2P Require Import Prelude CString User Printf Console Spinlock Proc.

#[local] Open Scope Z_scope.

(** The clock, the mutexes of threads and the console -- src/proc.c:23-24 *)
Record sysglob := mkGlob {
  ticks : Z;
  tickslock : bool;
  nextLockId : Z;
  thread_locks : list Z;
  console : cstate;
}.

Definition set_ticks v g := mkGlob v (tickslock g) (nextLockId g) (thread_locks g) (console g).
Definition set_tickslock v g := mkGlob (ticks g) v (nextLockId g) (thread_locks g) (console g).
Definition set_nextLockId v g := mkGlob (ticks g) (tickslock g) v (thread_locks g) (console g).
Definition set_thread_locks v g := mkGlob (ticks g) (tickslock g) (nextLockId g) v (console g).
Definition set_console v g := mkGlob (ticks g) (tickslock g) (nextLockId g) (thread_locks g) v.

(** What a handler comes to: a value, the sleep of one of the calls (with what it
    needs to go on), a mutex that is taken (the loop around [xchg] goes on), or
    [exit]. *)
Inductive callres :=
  | Ret (v : Z)
  | InTicks (e : bool) (ticks0 n : Z)
  | InWaitCall
  | InJoinCall (stack : Z)
  | InMutex (lockId : Z)
  | InRead (f : nat) (p n : Z)
  | InWrite (f : nat) (rest : list Z) (n : Z)
  | Exited.

(** The calls of sysfile.c, by number. *)
Class FileCalls (S : Type) := { file_call : Z → M S callres }.

Section syscalls.
Context {R : Type} {SV : Services (R * sysglob)} {FC : FileCalls (pst (R * sysglob))}.
Abbreviation K := (pst (R * sysglob)).

Definition glob {A} (m : M sysglob A) : M K A := res (zoom snd (λ g r, (r.1, g)) m).
Definition printk (fmt : list Z) (args : list arg) : M K unit :=
  glob (zoom console set_console (cprintf (Some fmt) args)).

(** The variable [proc]. *)
Definition my : M K proc := me ← cur; the_proc me.
Definition upd_my (f : proc → proc) : M K unit := me ← cur; upd_proc me f.

(** ** Arguments *)

(** src/syscall.c:16-24 *)
Definition fetchint (addr : Z) : M K (option Z) :=
  p ← my;
  if (addr >=? sz p) || (w32 (addr + 4) >? sz p) then mret None
  else bs ← res (sv_load addr 4); mret (Some (s32 (le_val bs))).

(** [for(s = *pp; s < ep; s++)] of [n] bytes -- src/syscall.c:38-41 *)
Fixpoint find_nul (n : nat) (pp s : Z) : M K Z :=
  match n with
  | O => mret (-1)
  | S n =>
      bs ← res (sv_load s 1);
      if nth 0 bs 0 =? 0 then mret (s - pp) else find_nul n pp (s + 1)
  end.

(** The result, and the pointer if it was set -- src/syscall.c:26-42 *)
Definition fetchstr (addr : Z) : M K (Z * option Z) :=
  p ← my;
  if addr >=? sz p then mret (-1, None)
  else r ← find_nul (Z.to_nat (sz p - addr)) addr addr; mret (r, Some addr).

(** src/syscall.c:44-49 *)
Definition argint (n : Z) : M K (option Z) :=
  p ← my; fetchint (w32 (tf_esp (tf p) + 4 + 4 * n)).

(** [(uint)i+size] is an unsigned sum -- src/syscall.c:51-65 *)
Definition argptr (n size : Z) : M K (option Z) :=
  o ← argint n;
  match o with
  | None => mret None
  | Some i =>
      p ← my;
      if (w32 i >=? sz p) || (w32 (w32 i + size) >? sz p) then mret None
      else mret (Some (w32 i))
  end.

(** src/syscall.c:67-78 *)
Definition argstr (n : Z) : M K (Z * option Z) :=
  o ← argint n;
  match o with None => mret (-1, None) | Some addr => fetchstr (w32 addr) end.

(** ** sysproc.c *)

(** src/sysproc.c:9-13 *)
Definition sys_fork : M K callres := r ← fork; mret (Ret r).

(** src/sysproc.c:15-20 *)
Definition sys_exit : M K callres := exit;; mret Exited.

(** src/sysproc.c:22-26 *)
Definition sys_wait : M K callres :=
  o ← wait; mret (match o with Some r => Ret r | None => InWaitCall end).

(** src/sysproc.c:28-36 *)
Definition sys_kill : M K callres :=
  o ← argint 0;
  match o with None => mret (Ret (-1)) | Some pid => r ← kill pid; mret (Ret r) end.

(** src/sysproc.c:38-42 *)
Definition sys_getpid : M K callres := p ← my; mret (Ret (pid p)).

(** src/sysproc.c:44-56 *)
Definition sys_sbrk : M K callres :=
  o ← argint 0;
  match o with
  | None => mret (Ret (-1))
  | Some n =>
      p ← my;
      let addr := s32 (sz p) in
      r ← growproc n;
      if r <? 0 then mret (Ret (-1)) else mret (Ret addr)
  end.

(** [acquire(&tickslock)] and [release(&tickslock)]. *)
Definition tk_acquire : M K unit :=
  zoom p_cpu put_cpu pushcli;; glob (acquire tickslock set_tickslock).
Definition tk_release : M K unit :=
  glob (release tickslock set_tickslock);; zoom p_cpu put_cpu popcli.

(** The loop of [sys_sleep], to its end or to the next [sleep]; the [int] is
    compared as unsigned -- src/sysproc.c:68-76 *)
Definition sleep_ticks (ticks0 n : Z) : M K callres :=
  g ← glob get;
  if w32 (ticks g - ticks0) <? w32 n then
    p ← my;
    if killed p then tk_release;; mret (Ret (-1))
    else e ← sleep_enter (Some ChTicks) (Some tk_release); mret (InTicks e ticks0 n)
  else tk_release;; mret (Ret 0).

(** src/sysproc.c:58-77 *)
Definition sys_sleep : M K callres :=
  o ← argint 0;
  match o with
  | None => mret (Ret (-1))
  | Some n =>
      tk_acquire;;
      ticks0 ← glob (gets ticks);
      sleep_ticks ticks0 n
  end.

(** Woken up, with the lock taken again -- src/sysproc.c:68-76 *)
Definition sleep_resume (e : bool) (ticks0 n : Z) : M K callres :=
  sleep_exit e (Some tk_acquire);; sleep_ticks ticks0 n.

(** src/sysproc.c:79-90 *)
Definition sys_uptime : M K Z :=
  tk_acquire;;
  xticks ← glob (gets ticks);
  tk_release;;
  mret xticks.

(** src/sysproc.c:92-101 *)
Definition sys_start_burst : M K Z :=
  start_ticks ← sys_uptime;
  upd_my (set_sburst start_ticks);;
  upd_my (λ p, set_burst_idx (w32 (burst_idx p + 1)) p);;
  upd_my (λ p, if burst_idx p >? 100 then set_burst_idx 0 p else p);;
  mret start_ticks.

(** [proc->burstarr[i] = v]: the word after the 100 of the array is [burst_idx]
    (see [struct proc]); a store further on is outside of what is modelled. *)
Definition store_burst (i v : Z) (p : proc) : option proc :=
  if i <? 100 then Some (set_burstarr (<[Z.to_nat i := s32 v]> (burstarr p)) p)
  else if i =? 100 then Some (set_burst_idx v p)
  else None.

(** src/sysproc.c:103-110 *)
Definition sys_end_burst : M K Z :=
  end_ticks ← sys_uptime;
  p ← my;
  let burst := w32 (end_ticks - sburst p) in
  match store_burst (burst_idx p) burst p with
  | None => fault "burstarr"
  | Some p' => upd_my (λ _, p')
  end;;
  mret end_ticks.

(** src/sysproc.c:112-126 *)
Definition sys_print_bursts : M K callres :=
  t ← sys_uptime;
  upd_my (λ p, set_turnaround (w32 (t - initial_burst p)) p);;
  for_each (seq 0 100) (λ i,
    p ← my;
    let b := nth i (burstarr p) 0 in
    if negb (b =? 0) then printk (str "%d, ") [Word b] else mret tt);;
  p ← my;
  printk (str "turnaround time: %d" ++ [10]) [Word (turnaround p)];;
  mret (Ret 0).

(** The results of the checks are not used: an argument that cannot be fetched
    leaves the variable as it was, [junk] -- src/sysproc.c:128-152 *)
Definition sys_thread_create (junk : nat → Z) : M K callres :=
  tmain ← argptr 0 1;
  stack ← argstr 1;
  arg ← argstr 2;
  r ← thread_create (default (junk 0%nat) tmain) (default (junk 1%nat) stack.2) (default (junk 2%nat) arg.2);
  mret (Ret r).

(** src/sysproc.c:154-163 *)
Definition sys_thread_join : M K callres :=
  o ← argint 0;
  match o with
  | None => mret (Ret (-1))
  | Some stack =>
      r ← thread_join (w32 stack);
      mret (match r with Some v => Ret v | None => InJoinCall (w32 stack) end)
  end.

(** [xchg(&(thread_locks[i].locked), v)] of the 100 locks. *)
Definition xchg_lock (i v : Z) : M K Z :=
  ls ← glob (gets thread_locks);
  if (0 <=? i) && (i <? 100) then
    glob (modify (set_thread_locks (<[Z.to_nat i := v]> ls)));;
    mret (nth (Z.to_nat i) ls 0)
  else fault "thread_locks".

(** src/sysproc.c:168-176 *)
Definition sys_mtx_create (junk : nat → Z) : M K callres :=
  locked ← argint 0;
  lockId ← glob (gets nextLockId);
  glob (modify (set_nextLockId (s32 (lockId + 1))));;
  xchg_lock lockId (w32 (default (junk 0%nat) locked));;
  mret (Ret lockId).

(** One round of the loop around [xchg] -- src/sysproc.c:183-184 *)
Definition mtx_try (lockId : Z) : M K callres :=
  old ← xchg_lock lockId 1;
  mret (if old =? 0 then Ret 0 else InMutex lockId).

(** src/sysproc.c:178-185 *)
Definition sys_mtx_lock (junk : nat → Z) : M K callres :=
  lockId ← argint 0; mtx_try (default (junk 0%nat) lockId).

(** src/sysproc.c:187-194 *)
Definition sys_mtx_unlock (junk : nat → Z) : M K callres :=
  lockId ← argint 0;
  xchg_lock (default (junk 0%nat) lockId) 0;;
  mret (Ret 0).

(** ** The dispatcher *)

(** The table, 1 to 29; the calls of sysfile.c are 4, 5, 7 to 10 and 15 to 21
    -- src/syscall.c:110-140 *)
Definition syscalls (junk : nat → Z) (num : Z) : M K callres :=
  match num with
  | 1 => sys_fork
  | 2 => sys_exit
  | 3 => sys_wait
  | 6 => sys_kill
  | 11 => sys_getpid
  | 12 => sys_sbrk
  | 13 => sys_sleep
  | 14 => t ← sys_uptime; mret (Ret (s32 t))
  | 22 => t ← sys_start_burst; mret (Ret (s32 t))
  | 23 => t ← sys_end_burst; mret (Ret (s32 t))
  | 24 => sys_print_bursts
  | 25 => sys_thread_create junk
  | 26 => sys_thread_join
  | 27 => sys_mtx_create junk
  | 28 => sys_mtx_lock junk
  | 29 => sys_mtx_unlock junk
  | _ => file_call num
  end.

(** The call has returned [v] -- src/syscall.c:149-150 *)
Definition syscall_return (v : Z) : M K unit :=
  upd_my (λ p, set_tf (set_tf_eax (w32 v) (tf p)) p);;
  sys_start_burst;;
  mret tt.

(** The result says whether the call is over, or where it waits
    -- src/syscall.c:142-156 *)
Definition syscall (junk : nat → Z) : M K callres :=
  p ← my;
  let num := s32 (tf_eax (tf p)) in
  if (0 <? num) && (num <? 30) then
    sys_end_burst;;
    r ← syscalls junk num;
    match r with
    | Ret v => syscall_return v
    | _ => mret tt
    end;;
    mret r
  else
    let fix cut (l : list Z) : list Z := match l with [] => [] | c :: l => if c =? 0 then [] else c :: cut l end in
    printk (str "%d %s: unknown sys call %d" ++ [10]) [Word (pid p); Ptr (Some (cut (name p))); Word num];;
    upd_my (λ p, set_tf (set_tf_eax (w32 (-1)) (tf p)) p);;
    mret (Ret (-1)).
End syscalls.

Section proofs.
Context {R : Type} {SV : Services (R * sysglob)} {FC : FileCalls (pst (R * sysglob))}.
Abbreviation K := (pst (R * sysglob)).
Implicit Types (s : K).

(** ** The clock *)

(** The global variables. *)
Definition globals s : sysglob := (p_res s).2.

(** The kernel in a system call of process [me]: no lock is held. *)
Definition in_call (me : nat) s : Prop :=
  curproc s = Some me ∧ cpu_ok (p_cpu s) ∧ tickslock (globals s) = false.

Lemma in_call_cpu me c s : in_call me s → cpu_ok c → in_call me (put_cpu c s).
Proof. intros (? & _ & ?) ?. by split_and!. Qed.

Lemma in_call_procs me f s : in_call me s → in_call me (put_procs f s).
Proof. done. Qed.

Lemma sys_uptime_run me s :
  in_call me s → ∃ c, cpu_ok c ∧ sys_uptime s = Ok (ticks (globals s)) (put_cpu c s).
Proof.
  intros (_ & Hc & Ht). unfold sys_uptime, tk_acquire, tk_release, globals in *.
  destruct s as [l c cu ps np ini fi [r g]]. cbn [p_cpu p_res snd] in *.
  destruct (pushcli_ok c Hc _ (pushcli_run c)) as (Hk & Hpos & _).
  set (c1 := mkCpu _ _ _) in Hk, Hpos. destruct (popcli_ok c1 Hk Hpos) as (c2 & Hpop & Hc2).
  exists c2. split; [done|]. destruct g as [t tl n ls co]. cbn [tickslock] in Ht. subst tl.
  unfold mbind, M_bind, mret, M_ret, zoom, glob, res, gets, acquire, release. cbn.
  rewrite pushcli_run. cbn. fold c1. rewrite Hpop. done.
Qed.

(** ** The array of bursts *)

Lemma my_run me s : curproc s = Some me → my s = Ok (procs s me) s.
Proof. intros H. unfold my, cur, mbind, M_bind, gets. by rewrite H. Qed.

(** Process [me] went from [procs s me] to [p'], all else is as before. *)
Definition step_my (me : nat) s s' (p' : proc) : Prop :=
  procs s' me = p' ∧ (∀ j, j ≠ me → procs s' j = procs s j) ∧ p_res s' = p_res s ∧ in_call me s'.

Lemma step_my_trans me s s1 s2 p1 p2 : step_my me s s1 p1 → step_my me s1 s2 p2 → step_my me s s2 p2.
Proof.
  intros (_ & B & C' & _) (A' & B' & C'' & D'). split; [done|]. split; [|split; [congruence|done]].
  intros j Hj. by rewrite B', B.
Qed.

Lemma upd_my_wp me f s : in_call me s → wp (upd_my f) (λ _ s', step_my me s s' (f (procs s me))) s.
Proof.
  intros Hs. pose proof Hs as (Hm & _). unfold upd_my, cur, upd_proc. wp_run. rewrite Hm. wp_run.
  unfold step_my. cbn [procs put_procs p_res]. unfold Spinlock.upd. split; [by rewrite Nat.eqb_refl|]. split; [|done].
  intros j Hj. by rewrite (proj2 (Nat.eqb_neq j me) Hj).
Qed.

Lemma sys_uptime_wp me s :
  in_call me s → wp sys_uptime (λ t s', t = ticks (globals s) ∧ step_my me s s' (procs s me)) s.
Proof.
  intros Hs. destruct (sys_uptime_run me s Hs) as (c & Hc & E). apply wp_ok. eexists _, _.
  split; [done|]. split; [done|]. split_and!; try done. by apply in_call_cpu.
Qed.

(** What [sys_start_burst] does to the process. *)
Definition started (t : Z) (p : proc) : proc :=
  set_burst_idx (if w32 (burst_idx p + 1) >? 100 then 0 else w32 (burst_idx p + 1)) (set_sburst t p).

Lemma sys_start_burst_wp me s :
  in_call me s →
  wp sys_start_burst (λ t s', t = ticks (globals s) ∧ step_my me s s' (started t (procs s me))) s.
Proof.
  intros Hs. unfold sys_start_burst. apply wp_bind. wp_use sys_uptime_wp; [done|]. intros t s1 [-> H1].
  apply wp_bind. wp_use upd_my_wp; [apply H1|]. intros _ s2 H2.
  apply wp_bind. wp_use upd_my_wp; [apply H2|]. intros _ s3 H3.
  apply wp_bind. wp_use upd_my_wp; [apply H3|]. intros _ s4 H4. apply wp_ret. split; [done|].
  pose proof H1 as (E1 & _). pose proof H2 as (E2 & _). pose proof H3 as (E3 & _).
  assert (Es : started (ticks (globals s)) (procs s me) =
    if burst_idx (procs s3 me) >? 100 then set_burst_idx 0 (procs s3 me) else procs s3 me).
  { rewrite E3, E2, E1. unfold started. cbn [burst_idx set_burst_idx set_sburst].
    by destruct (w32 (burst_idx (procs s me) + 1) >? 100). }
  rewrite Es. eauto using step_my_trans.
Qed.

(** The length of the burst that ends now. *)
Definition burst_now (me : nat) s : Z := w32 (ticks (globals s) - sburst (procs s me)).

Lemma sys_end_burst_wp me s p' :
  in_call me s → store_burst (burst_idx (procs s me)) (burst_now me s) (procs s me) = Some p' →
  wp sys_end_burst (λ t s', t = ticks (globals s) ∧ step_my me s s' p') s.
Proof.
  intros Hs Hp. unfold sys_end_burst. apply wp_bind. wp_use sys_uptime_wp; [done|]. intros t s1 [-> H1].
  pose proof H1 as (E1 & _ & _ & Hc & _). apply wp_bind. unfold wp at 1. rewrite (my_run me s1 Hc), E1.
  unfold burst_now in Hp. rewrite Hp. apply wp_bind. wp_use upd_my_wp; [apply H1|]. intros _ s2 H2. apply wp_ret.
  split; [done|]. eauto using step_my_trans.
Qed.

Lemma sys_end_burst_fault me s :
  in_call me s → store_burst (burst_idx (procs s me)) (burst_now me s) (procs s me) = None →
  sys_end_burst s = Fault "burstarr".
Proof.
  intros Hs Hp. unfold sys_end_burst. destruct (sys_uptime_run me s Hs) as (c & Hc & E).
  rewrite (bind_ok _ _ _ _ _ E), (bind_ok _ _ _ _ _ (my_run me (put_cpu c s) (proj1 Hs))).
  cbn [procs put_cpu]. unfold burst_now in Hp. rewrite Hp. done.
Qed.

(** What a system call leaves of the bursts of a process that was at index
    [idx], with a burst of [b] ticks. *)
Definition burst_recorded (b : Z) (p p' : proc) : Prop :=
  if burst_idx p <? 100
  then burstarr p' = <[Z.to_nat (burst_idx p) := s32 b]> (burstarr p) ∧ burst_idx p' = burst_idx p + 1
  else burstarr p' = burstarr p ∧ burst_idx p' = if b <? 100 then b + 1 else 0.

(** What [sys_end_burst] does to the process after a burst of [b] ticks: at
    index 100 the store hits the index itself. *)
Definition ended (b : Z) (p : proc) : proc :=
  if burst_idx p <? 100 then set_burstarr (<[Z.to_nat (burst_idx p) := s32 b]> (burstarr p)) p else set_burst_idx b p.

Lemma store_burst_ended b p : 0 ≤ burst_idx p ≤ 100 → store_burst (burst_idx p) b p = Some (ended b p).
Proof.
  intros Hi. unfold store_burst, ended. destruct (Z.ltb_spec (burst_idx p) 100); [done|].
  by rewrite (proj2 (Z.eqb_eq (burst_idx _) 100)) by lia.
Qed.

Lemma burst_recorded_ended b p q :
  0 ≤ burst_idx p ≤ 100 → 0 ≤ b < 2^32 → burst_idx q = burst_idx (ended b p) → burstarr q = burstarr (ended b p) →
  ∀ t f, burst_recorded b p (started t (set_tf f q)).
Proof.
  intros Hi Hb Eq Ea t f. unfold ended, burst_recorded in *. unfold started. cbn [burstarr burst_idx set_burst_idx set_sburst set_tf].
  rewrite Eq, Ea. destruct (Z.ltb_spec (burst_idx p) 100) as [Hlt|Hge]; cbn [burst_idx burstarr set_burstarr set_burst_idx]; (split; [done|]).
  - rewrite w32_small by lia. destruct (Z.gtb_spec (burst_idx p + 1) 100); lia.
  - destruct (Z.ltb_spec b 100); [rewrite w32_small by lia; destruct (Z.gtb_spec (b + 1) 100); lia|].
    destruct (decide (b = 2^32 - 1)) as [->|]; [done|]. rewrite w32_small by lia. by destruct (Z.gtb_spec (b + 1) 100); [|lia].
Qed.

(** C40: A system call and the bursts of the process, for every call of the table
    and whatever its handler does.  Before the handler runs, in [s1], the burst
    since the last call has been stored at [burst_idx], or, when that is 100, over
    the index itself; nothing else has changed.  When the handler returns [v], in
    any state [s2], the call returns with exactly these changes to [s2]: [v] is in
    eax, the next burst starts now, and the index is one further, or 0 after 100.
    While the handler waits, and when it panics, nothing is added to what it did.
    So for a handler that leaves the bursts alone (all but those of start_burst
    and end_burst) a burst is recorded at the next place while the index is below
    100; at 100 it is lost, and the next one is stored at a place the length of
    the lost one determines. *)
Theorem syscall_burst junk me s :
  let num := s32 (tf_eax (tf (procs s me))) in
  in_call me s → 0 < num < 30 → 0 ≤ burst_idx (procs s me) ≤ 100 →
  ∃ s1, step_my me s s1 (ended (burst_now me s) (procs s me)) ∧
  (∀ v s2, syscalls junk num s1 = Ok (Ret v) s2 → in_call me s2 →
     ∃ s', syscall junk s = Ok (Ret v) s' ∧
       step_my me s2 s' (started (ticks (globals s2)) (set_tf (set_tf_eax (w32 v) (tf (procs s2 me))) (procs s2 me))) ∧
       (burst_idx (procs s2 me) = burst_idx (procs s1 me) → burstarr (procs s2 me) = burstarr (procs s1 me) →
        burst_recorded (burst_now me s) (procs s me) (procs s' me))) ∧
  (∀ r, syscalls junk num s1 = r → (∀ v s2, r ≠ Ok (Ret v) s2) → syscall junk s = r).
Proof.
  intros num Hs Hn Hi. pose proof Hs as (Hm & _).
  pose proof (sys_end_burst_wp me s _ Hs (store_burst_ended (burst_now me s) _ Hi)) as Hend.
  apply wp_ok in Hend as (t & s1 & E & _ & H1). exists s1. split; [exact H1|].
  assert (Erun : syscall junk s = (r ← syscalls junk num; match r with Ret v => syscall_return v | _ => mret tt end;; mret r) s1).
  { unfold syscall. rewrite (bind_ok _ _ _ _ _ (my_run me s Hm)). fold num. cbv zeta.
    rewrite (proj2 (Z.ltb_lt 0 _)), (proj2 (Z.ltb_lt _ 30)) by lia. cbn [andb]. by rewrite (bind_ok _ _ _ _ _ E). }
  split.
  - intros v s2 E2 Hs2. assert (Hret : wp (syscall_return v) (λ _ s', step_my me s2 s'
      (started (ticks (globals s2)) (set_tf (set_tf_eax (w32 v) (tf (procs s2 me))) (procs s2 me)))) s2).
    { unfold syscall_return. apply wp_bind. wp_use upd_my_wp; [exact Hs2|]. intros _ s3 H3.
      apply wp_bind. wp_use sys_start_burst_wp; [apply H3|]. intros t' s4 [-> H4]. apply wp_ret.
      assert (Eg : globals s3 = globals s2) by (unfold globals; destruct H3 as (_ & _ & G3 & _); congruence).
      rewrite Eg in H4. replace (procs s3 me) with (set_tf (set_tf_eax (w32 v) (tf (procs s2 me))) (procs s2 me)) in H4
        by (symmetry; apply H3). by eapply step_my_trans. }
    apply wp_ok in Hret as ([] & s' & E' & H'). exists s'. rewrite Erun, (bind_ok _ _ _ _ _ E2). cbv beta iota.
    rewrite (bind_ok _ _ _ _ _ E'). split; [done|]. split; [exact H'|]. intros Ei Ea. destruct H' as (-> & _), H1 as (E1 & _).
    apply burst_recorded_ended; [done|apply w32_bound|congruence|congruence].
  - intros r E2 Hr. rewrite Erun. unfold mbind at 1, M_bind at 1. rewrite E2. destruct r as [c s2| | | |]; [|done..].
    destruct c; try done. by destruct (Hr v s2).
Qed.

(** [end_burst] as a system call stores the burst twice.  When the index is
    100, the first store replaces the index by the length of the burst, and
    the second one uses it: a burst of more than 100 ticks is stored outside of
    the array, at a distance the process chooses by how long it computes. *)
Theorem end_burst_escapes junk me s :
  in_call me s → s32 (tf_eax (tf (procs s me))) = 23 → burst_idx (procs s me) = 100 →
  100 < burst_now me s → syscall junk s = Fault "burstarr".
Proof.
  intros Hs Hn Hi Hb. pose proof Hs as (Hm & _). unfold syscall.
  rewrite (bind_ok _ _ _ _ _ (my_run me s Hm)). rewrite Hn. cbn [Z.ltb Z.compare Pos.compare Pos.compare_cont andb].
  pose proof (sys_end_burst_wp me s (set_burst_idx (burst_now me s) (procs s me)) Hs) as Hend.
  rewrite Hi in Hend. specialize (Hend eq_refl). apply wp_ok in Hend as (t & s1 & E & -> & H1).
  rewrite (bind_ok _ _ _ _ _ E). unfold syscalls. cbv zeta.
  assert (Hf : sys_end_burst s1 = Fault "burstarr").
  { apply (sys_end_burst_fault me); [apply H1|]. destruct H1 as (-> & _ & G & _).
    unfold burst_now, store_burst, globals in *. cbn [burst_idx sburst set_burst_idx]. rewrite G.
    destruct (Z.ltb_spec (w32 (ticks (p_res s).2 - sburst (procs s me))) 100); [lia|].
    destruct (Z.eqb_spec (w32 (ticks (p_res s).2 - sburst (procs s me))) 100); [lia|done]. }
  unfold mbind, M_bind. by rewrite Hf.
Qed.

(** ** Arguments *)

Section arguments.
(** The user's memory: loads below [proc->sz] find it and change nothing. *)
Context (um : Z → Z) (me : nat) (s : K).
Context (Hum : ∀ a, is_byte (um a)) (Hme : curproc s = Some me).
Context (Hload : ∀ a n, 0 ≤ a → a + Z.of_nat n ≤ sz (procs s me) →
  sv_load a n (p_res s) = Ok (map um (seqZ a (Z.of_nat n))) (p_res s)).
Context (Hsz : sz (procs s me) ≤ 0x80000000).

Lemma load_run a n :
  0 ≤ a → a + Z.of_nat n ≤ sz (procs s me) → res (sv_load a n) s = Ok (map um (seqZ a (Z.of_nat n))) s.
Proof. intros Ha Hn. unfold res, zoom. rewrite Hload by done. by destruct s. Qed.

(** The word at an address. *)
Definition word_at (a : Z) : Z := le_val (map um (seqZ a 4)).

Lemma word_at_bound a : 0 ≤ word_at a < 2^32.
Proof. apply (le_val_bound (map um (seqZ a 4))). apply Forall_map, Forall_true. apply Hum. Qed.

Lemma fetchint_run addr :
  0 ≤ addr < 2^32 →
  fetchint addr s = Ok (if addr + 4 <=? sz (procs s me) then Some (s32 (word_at addr)) else None) s.
Proof.
  intros Ha. unfold fetchint. rewrite (bind_ok _ _ _ _ _ (my_run me s Hme)). cbv zeta.
  destruct (Z.geb_spec addr (sz (procs s me))); cbn [orb].
  { destruct (Z.leb_spec (addr + 4) (sz (procs s me))); [lia|done]. }
  rewrite (w32_small (addr + 4)) by lia.
  destruct (Z.gtb_spec (addr + 4) (sz (procs s me))), (Z.leb_spec (addr + 4) (sz (procs s me))); try lia; [done|].
  by rewrite (bind_ok _ _ _ _ _ (load_run addr 4 ltac:(lia) ltac:(lia))).
Qed.

Lemma find_nul_wp n pp a :
  0 ≤ a → a + Z.of_nat n = sz (procs s me) →
  wp (find_nul n pp a) (λ r s', s' = s ∧
    ((r = -1 ∧ ∀ i, a ≤ i < sz (procs s me) → um i ≠ 0) ∨
     (∃ e, r = e - pp ∧ a ≤ e < sz (procs s me) ∧ um e = 0 ∧ ∀ i, a ≤ i < e → um i ≠ 0))) s.
Proof.
  revert a. induction n as [|n IH]; intros a Ha Hn; cbn [find_nul].
  - apply wp_ret. split; [done|]. left. split; [done|lia].
  - apply wp_bind. unfold wp at 1. rewrite (load_run a 1) by lia.
    change (map um (seqZ a (Z.of_nat 1))) with [um (Z.of_nat 0 + a)]. rewrite Z.add_0_l. cbn [nth].
    destruct (Z.eqb_spec (um a) 0) as [E|E].
    + apply wp_ret. split; [done|]. right. exists a. split_and!; [done|lia..|done|lia].
    + wp_use IH; [lia..|]. intros r s' [-> [[-> H]|(e & -> & He & Hz & H)]]; (split; [done|]).
      * left. split; [done|]. intros i Hi. destruct (Z.eq_dec i a) as [->|]; [done|]. apply H. lia.
      * right. exists e. split_and!; [done|lia..|done|]. intros i Hi. destruct (Z.eq_dec i a) as [->|]; [done|]. apply H. lia.
Qed.

(** Where the word of argument [n] is. *)
Definition arg_addr (n : Z) : Z := w32 (tf_esp (tf (procs s me)) + 4 + 4 * n).

Lemma argint_run n :
  argint n s = Ok (if arg_addr n + 4 <=? sz (procs s me) then Some (s32 (word_at (arg_addr n))) else None) s.
Proof.
  unfold argint. rewrite (bind_ok _ _ _ _ _ (my_run me s Hme)). apply fetchint_run, w32_bound.
Qed.

Lemma w32_s32 z : w32 (s32 z) = w32 z.
Proof.
  unfold s32. case_match; [apply w32_idemp|]. unfold w32. rewrite Zminus_mod_idemp_l.
  replace (z - 2^32) with (z + (-1) * 2^32) by lia. by rewrite Z.mod_add by lia.
Qed.

(** C39: The checks of system call arguments.  [argptr] with a size that is not
    negative accepts a pointer exactly if the argument word is inside the
    process and the block at the pointer too; [argstr] accepts a pointer into
    the process exactly if a NUL follows before its end, and returns the length
    of the string.  Neither changes anything. *)
Theorem arguments_checked n size :
  0 ≤ size < 2^31 →
  let a := arg_addr n in let v := word_at a in let top := sz (procs s me) in
  argptr n size s = Ok (if (a + 4 <=? top) && (v <? top) && (v + size <=? top) then Some v else None) s ∧
  wp (argstr n) (λ r s', s' = s ∧
    (if (a + 4 <=? top) && (v <? top) then
       r.2 = Some v ∧ ((r.1 = -1 ∧ ∀ i, v ≤ i < top → um i ≠ 0) ∨
         (0 ≤ r.1 ∧ v + r.1 < top ∧ um (v + r.1) = 0 ∧ ∀ i, v ≤ i < v + r.1 → um i ≠ 0))
     else r = (-1, None))) s.
Proof.
  intros Hsize a v top. pose proof (word_at_bound a) as Hv. fold v in Hv.
  split.
  - unfold argptr. rewrite (bind_ok _ _ _ _ _ (argint_run n)). fold a v top.
    destruct (Z.leb_spec (a + 4) top); cbn [andb]; [|done].
    rewrite (bind_ok _ _ _ _ _ (my_run me s Hme)), !w32_s32, (w32_small v) by done. fold top.
    destruct (Z.geb_spec v top), (Z.ltb_spec v top); cbn [orb andb]; try lia; [done|].
    rewrite w32_small by lia. by destruct (Z.gtb_spec (v + size) top), (Z.leb_spec (v + size) top); try lia.
  - unfold argstr. apply wp_bind. unfold wp at 1. rewrite argint_run. fold a v top.
    destruct (Z.leb_spec (a + 4) top); cbn [andb]; [|by apply wp_ret].
    unfold fetchstr. apply wp_bind. unfold wp at 1. rewrite (my_run me s Hme), w32_s32, (w32_small v) by done. fold top.
    destruct (Z.geb_spec v top), (Z.ltb_spec v top); try lia; [by apply wp_ret|].
    apply wp_bind. wp_use (find_nul_wp (Z.to_nat (top - v)) v v); [lia|unfold top in *; lia|].
    intros r s' [-> Hr]. apply wp_ret. split; [done|]. split; [done|]. cbn [fst].
    destruct Hr as [[-> H']|(e & -> & He & Hz & H')]; [by left|]. right.
    replace (v + (e - v)) with e by lia. split_and!; [lia|unfold top; lia|done..].
Qed.
End arguments.
End proofs.

(** ** Examples *)

(** A process of 64 bytes that holds the string "hi" at 8 and its address as the
    argument at 36; the other services are not used by the calls shown. *)
Definition demo_mem (a : Z) : Z :=
  if a =? 8 then 104 else if a =? 9 then 105 else if a =? 36 then 8 else 0.

#[local] Instance demo : Services (unit * sysglob) := {|
  sv_kalloc := λ r, Ok 0 r;
  sv_kfree := λ _ r, Ok tt r;
  sv_store := λ _ _ r, Ok tt r;
  sv_load := λ a n r, Ok (map demo_mem (seqZ a (Z.of_nat n))) r;
  sv_setupkvm := λ r, Ok 0 r;
  sv_inituvm := λ _ r, Ok tt r;
  sv_copyuvm := λ _ _ r, Ok 0 r;
  sv_freevm := λ _ r, Ok tt r;
  sv_allocuvm := λ _ _ _ r, Ok 0 r;
  sv_deallocuvm := λ _ _ n r, Ok n r;
  sv_switchuvm := λ _ r, Ok tt r;
  sv_switchkvm := λ r, Ok tt r;
  sv_copyout := λ _ _ _ r, Ok (-1) r;
  sv_filedup := λ f r, Ok f r;
  sv_fileclose := λ _ r, Ok tt r;
  sv_idup := λ i r, Ok i r;
  sv_iput := λ _ r, Ok tt r;
  sv_namei_root := λ r, Ok 1 r;
  sv_uptime := λ r, Ok (ticks r.2) r;
  sv_initlog := λ r, Ok tt r;
  sv_trapret := 0x80100000;
  sv_forkret := 0x80101000;
|}.

#[local] Instance demo_files : FileCalls (pst (unit * sysglob)) := {| file_call := λ _, mret (Ret (-1)) |}.

(** In a system call, with the number [num], the index of bursts [idx] and the
    clock at [t]. *)
Definition demo_call (num idx t : Z) : pst (unit * sysglob) :=
  mkPst false (mkCpu 0 false true) (Some 0%nat)
    (λ _, set_sz 64 (set_pid 7 (set_burst_idx idx (set_tf (set_tf_esp 32 (set_tf_eax num zero_tf)) bss_proc))))
    8 (Some 0%nat) false (tt, mkGlob t false 1 (replicate 100 0) cons0).

Lemma demo_in_call num idx t : in_call 0 (demo_call num idx t).
Proof. split; [done|]. split; [split; [done|simpl; lia]|done]. Qed.

(** The 101st [getpid], after a burst of 5 ticks: the next burst goes to place 6. *)
Lemma syscall_burst_witness :
  wp (syscall (λ _, 0)) (λ r s', r = Ret 7 ∧ burst_idx (procs s' 0) = 6 ∧ burstarr (procs s' 0) = no_bursts)
    (demo_call 11 100 5).
Proof.
  destruct (syscall_burst (λ _, 0) 0 (demo_call 11 100 5) (demo_in_call _ _ _)) as (s1 & (Ep & _ & _ & Hs1) & H & _).
  - split; vm_compute; reflexivity.
  - split; vm_compute; discriminate.
  - destruct (H 7 s1) as (s' & E & _ & Hr).
    + change (syscalls (λ _, 0) (s32 (tf_eax (tf (procs (demo_call 11 100 5) 0))))) with (sys_getpid (R:=unit)). unfold sys_getpid.
      rewrite (bind_ok _ _ _ _ _ (my_run 0 s1 (proj1 Hs1))), Ep. reflexivity.
    + exact Hs1.
    + apply wp_ok. exists (Ret 7), s'. split; [exact E|]. destruct (Hr eq_refl eq_refl) as [H1 H2]. by rewrite H1, H2.
Defined.

(** A burst of 200 ticks is stored outside of the array of 100. *)
Lemma end_burst_escapes_witness : syscall (λ _, 0) (demo_call 23 100 200) = Fault "burstarr".
Proof. apply (end_burst_escapes (λ _, 0) 0 (demo_call 23 100 200) (demo_in_call _ _ _)); vm_compute; reflexivity. Defined.

Lemma arguments_checked_witness :
  argptr 0 56 (demo_call 11 0 0) = Ok (Some 8) (demo_call 11 0 0) ∧
  wp (argstr 0) (λ r s', s' = demo_call 11 0 0 ∧ r.2 = Some 8 ∧ demo_mem (8 + r.1) = 0) (demo_call 11 0 0).
Proof.
  destruct (arguments_checked demo_mem 0 (demo_call 11 0 0)) with (n := 0) (size := 56) as [H1 H2].
  - intros a. unfold demo_mem, is_byte. repeat case_match; lia.
  - done.
  - done.
  - cbn. lia.
  - lia.
  - split; [exact H1|]. eapply wp_mono; [exact H2|]. intros r s' [-> H]. split; [done|].
    destruct H as [Hp [[_ Hno]|(_ & _ & Hz & _)]]; [|by split].
    exfalso. apply (Hno 10); vm_compute; [split; [discriminate|reflexivity]|reflexivity].
Defined.
