(* ===== verification/Umalloc.v ===== *)
(** * The allocator of user programs (umalloc.c)

    Kernighan and Ritchie's allocator: free blocks in a circular list in order
    of their addresses, which starts at [base]; [malloc] takes the first block
    large enough, from the place it stopped last, and asks the kernel for more
    when there is none; [free] puts a block back and joins it with its
    neighbours.

    The theorem: under any sequence of calls, with the program writing into the
    blocks it was given, blocks in use never overlap each other or a free block,
    each is as large as asked for, and every call returns. *)

From stdpp Require Import base numbers list strings sorting fin_maps gmap.
From Stdlib Require Import ZArith Lia.
From S2P Require Import Prelude.

#[local] Open Scope Z_scope.

(** [Header]: [s.ptr] and [s.size] -- src/umalloc.c:11-19 *)
Definition header : Type := Z * Z.
(** [sizeof(Header)] *)
Abbreviation HSZ := 8.

(** The headers in memory by their address, [freep], and the end of the
    program's memory -- src/umalloc.c:21-22 *)
Record ust := mkUst {
  hp : Z → header;
  freep : Z;
  brk : Z;
}.

Definition hset (a : Z) (v : header) (h : Z → header) : Z → header := λ x, if x =? a then v else h x.
Definition set_hp v s := mkUst v (freep s) (brk s).
Definition set_freep v s := mkUst (hp s) v (brk s).
Definition set_brk v s := mkUst (hp s) (freep s) v.

(** [p->s.ptr], [p->s.size], and stores to them. *)
Definition ld_ptr (p : Z) : M ust Z := gets (λ s, (hp s p).1).
Definition ld_size (p : Z) : M ust Z := gets (λ s, (hp s p).2).
Definition st_ptr (p v : Z) : M ust unit := modify (λ s, set_hp (hset p (v, (hp s p).2) (hp s)) s).
Definition st_size (p v : Z) : M ust unit := modify (λ s, set_hp (hset p ((hp s p).1, v) (hp s)) s).

Section umalloc.
(** The address of the static variable [base], and whether the kernel extends
    the program's memory at its end by a number of bytes. *)
Context (base : Z) (grants : Z → Z → bool).

(** The system call [sbrk] of an [int], as [growproc] answers it: what
    [deallocuvm] refuses to shrink stays as it is. *)
Definition sbrk (n : Z) : M ust Z :=
  b ← gets brk;
  let n := s32 n in
  if n >? 0 then
    if grants b n then modify (set_brk (b + n));; mret b else mret (-1)
  else if n <? 0 then
    let b' := w32 (b + n) in
    if b' >=? b then mret b else if b' =? 0 then mret (-1) else modify (set_brk b');; mret b
  else mret b.

(** The place of the block: after which free block it goes -- src/umalloc.c:30-32 *)
Fixpoint free_loop (fuel : nat) (bp p : Z) : M ust Z :=
  match fuel with
  | O => nofuel
  | S fuel =>
      nx ← ld_ptr p;
      if (bp >? p) && (bp <? nx) then mret p
      else if (p >=? nx) && ((bp >? p) || (bp <? nx)) then mret p
      else free_loop fuel bp nx
  end.

(** There are fewer free blocks than bytes of memory, so this is more than the
    loop over them needs. *)
Definition enough : M ust nat := gets (λ s, Z.to_nat (brk s)).

(** The end of the block -- src/umalloc.c:33-37 *)
Definition link_next (bp p : Z) : M ust unit :=
  size ← ld_size bp;
  nx ← ld_ptr p;
  if w32 (bp + HSZ * size) =? nx then
    m ← ld_size nx;
    st_size bp (w32 (size + m));;
    q ← ld_ptr nx;
    st_ptr bp q
  else st_ptr bp nx.

(** Its start -- src/umalloc.c:38-42 *)
Definition link_prev (bp p : Z) : M ust unit :=
  psize ← ld_size p;
  if w32 (p + HSZ * psize) =? bp then
    size ← ld_size bp;
    st_size p (w32 (psize + size));;
    q ← ld_ptr bp;
    st_ptr p q
  else st_ptr p bp.

(** src/umalloc.c:24-44 *)
Definition free (ap : Z) : M ust unit :=
  let bp := ap - HSZ in
  fuel ← enough;
  p ← gets freep;
  p ← free_loop fuel bp p;
  link_next bp p;;
  link_prev bp p;;
  modify (set_freep p).

(** src/umalloc.c:46-61 *)
Definition morecore (nu : Z) : M ust Z :=
  let nu := if nu <? 4096 then 4096 else nu in
  p ← sbrk (w32 (nu * HSZ));
  if p =? -1 then mret 0 else
  st_size p nu;;
  free (p + HSZ);;
  gets freep.

(** The block is taken, whole or its end -- src/umalloc.c:76-84 *)
Definition take_block (nunits prevp p : Z) : M ust Z :=
  size ← ld_size p;
  p ← (if size =? nunits then
         nx ← ld_ptr p;
         st_ptr prevp nx;;
         mret p
       else
         st_size p (w32 (size - nunits));;
         let p := w32 (p + HSZ * w32 (size - nunits)) in
         st_size p nunits;;
         mret p);
  modify (set_freep prevp);;
  mret (p + HSZ).

(** src/umalloc.c:74-89 *)
Fixpoint malloc_loop (fuel : nat) (nunits prevp p : Z) : M ust Z :=
  match fuel with
  | O => nofuel
  | S fuel =>
      size ← ld_size p;
      if size >=? nunits then take_block nunits prevp p else
      f ← gets freep;
      if p =? f then
        q ← morecore nunits;
        if q =? 0 then mret 0 else
        nx ← ld_ptr q;
        malloc_loop fuel nunits q nx
      else
        nx ← ld_ptr p;
        malloc_loop fuel nunits p nx
  end.

(** [nunits] -- src/umalloc.c:69-69 *)
Definition units (nbytes : Z) : Z := w32 (nbytes + HSZ - 1) / HSZ + 1.

(** [prevp], with the list set up on the first call -- src/umalloc.c:70-73 *)
Definition malloc_start : M ust Z :=
  prevp ← gets freep;
  if prevp =? 0 then
    modify (set_freep base);;
    st_ptr base base;;
    st_size base 0;;
    mret base
  else mret prevp.

(** src/umalloc.c:63-90 *)
Definition malloc (nbytes : Z) : M ust Z :=
  let nunits := units nbytes in
  prevp ← malloc_start;
  p ← ld_ptr prevp;
  fuel ← enough;
  malloc_loop fuel nunits prevp p.
End umalloc.

(** ** The circular list *)

(** The first address of a list, or [d]. *)
Definition hd_addr (d : Z) (l : list (Z * Z)) : Z := match l with [] => d | (b, _) :: _ => b end.

(** The headers of the blocks [l] are linked in order, the last one to [nx]. *)
Fixpoint lseg (h : Z → header) (l : list (Z * Z)) (nx : Z) : Prop :=
  match l with
  | [] => True
  | (a, n) :: l' => h a = (hd_addr nx l', n) ∧ lseg h l' nx
  end.

Lemma lseg_cons h a n l nx : lseg h ((a, n) :: l) nx ↔ h a = (hd_addr nx l, n) ∧ lseg h l nx.
Proof. done. Qed.

Lemma lseg_app h l1 l2 nx : lseg h (l1 ++ l2) nx ↔ lseg h l1 (hd_addr nx l2) ∧ lseg h l2 nx.
Proof.
  induction l1 as [|[a n] l1 IH]; [simpl; tauto|]. rewrite <- app_comm_cons, !lseg_cons, IH.
  destruct l1 as [|[b m] l1]; simpl; tauto.
Qed.

Lemma lseg_hset h l nx a v : a ∉ l.*1 → lseg (hset a v h) l nx ↔ lseg h l nx.
Proof.
  induction l as [|[b n] l IH]; [done|]. rewrite fmap_cons, not_elem_of_cons. intros [Hb Hl].
  rewrite !lseg_cons, IH by done. unfold hset. cbn [fst] in Hb. by rewrite (proj2 (Z.eqb_neq b a)) by done.
Qed.

(** A node's header, in the middle of a list. *)
Lemma lseg_node h l1 a n l2 nx : lseg h (l1 ++ (a, n) :: l2) nx → h a = (hd_addr nx l2, n).
Proof. rewrite lseg_app, lseg_cons. tauto. Qed.

(** A ring can be entered anywhere. *)
Lemma ring_rotate h l1 l2 x y :
  lseg h (l1 ++ l2) (hd_addr x (l1 ++ l2)) → l1 ≠ [] → l2 ≠ [] → lseg h (l2 ++ l1) (hd_addr y (l2 ++ l1)).
Proof.
  rewrite !lseg_app. destruct l1 as [|[a n] l1], l2 as [|[b m] l2]; try done. simpl. tauto.
Qed.

(** One block ends before the other starts, with a gap; and without overlap. *)
Definition before (x y : Z * Z) : Prop := x.1 + 8 * x.2 < y.1.
Definition disj (x y : Z * Z) : Prop := x.1 + 8 * x.2 ≤ y.1 ∨ y.1 + 8 * y.2 ≤ x.1.

(** The blocks in use, from address of the header to units. *)
Abbreviation blocks := (gmap Z Z).

Section invariant.
Context (base : Z) (Hbase : 8 ≤ base).

(** A block of the heap. *)
Definition in_heap (hi : Z) (x : Z * Z) : Prop := 0 < x.2 ∧ base < x.1 ∧ x.1 + 8 * x.2 ≤ hi.

(** The free blocks are [L]: linked in a ring from [base], in order, apart. *)
Record rinv (L : list (Z * Z)) (s : ust) : Prop := {
  r_ring : lseg (hp s) ((base, 0) :: L) base;
  r_sorted : StronglySorted before ((base, 0) :: L);
  r_heap : Forall (in_heap (brk s)) L;
  r_freep : freep s ∈ ((base, 0) :: L).*1;
  r_brk : base + 8 ≤ brk s ≤ 2^31;
}.

Lemma before_addr x y : 0 ≤ x.2 → before x y → x.1 < y.1.
Proof. unfold before. lia. Qed.

Lemma in_ring_size L s x : rinv L s → x ∈ (base, 0) :: L → 0 ≤ x.2 ∧ base ≤ x.1 ∧ x.1 + 8 * x.2 ≤ brk s.
Proof.
  intros H. pose proof (r_brk _ _ H). intros [->|Hx]%elem_of_cons; [cbn; lia|].
  pose proof (proj1 (Forall_forall _ _) (r_heap _ _ H) x Hx) as (? & ? & ?). lia.
Qed.

(** The order along the ring, cut anywhere. *)
Lemma sorted_cut l1 (x : Z * Z) l2 :
  StronglySorted before (l1 ++ x :: l2) → (∀ y, y ∈ l1 → before y x) ∧ (∀ y, y ∈ l2 → before x y).
Proof.
  intros H. split; intros y Hy.
  - eapply StronglySorted_app_1_elem_of; [done|done|]. apply elem_of_cons. by left.
  - apply StronglySorted_app_1_r in H. apply StronglySorted_cons in H as [H _].
    by apply (proj1 (Forall_forall _ _) H).
Qed.

(** The place of an address among the blocks. *)
Lemma split_at (bp : Z) F :
  (∀ x, x ∈ F → x.1 ≠ bp) → StronglySorted before F → (∀ x, x ∈ F → 0 ≤ x.2) →
  ∃ P Q, F = P ++ Q ∧ (∀ x, x ∈ P → x.1 < bp) ∧ (∀ x, x ∈ Q → bp < x.1).
Proof.
  intros Hne Hs Hpos. induction F as [|x F IH].
  { exists [], []. split; [done|]. split; intros y Hy; by apply elem_of_nil in Hy. }
  apply StronglySorted_cons in Hs as [Hx Hs]. rewrite Forall_forall in Hx.
  assert (Hxn : x.1 ≠ bp) by (apply Hne, elem_of_cons; by left).
  assert (Hx2 : 0 ≤ x.2) by (apply Hpos, elem_of_cons; by left).
  destruct (Z.lt_trichotomy x.1 bp) as [Hlt|[?|Hgt]]; [|done|].
  - destruct IH as (P & Q & -> & HP & HQ); [intros; apply Hne; by apply elem_of_cons; right|done|
      intros; apply Hpos; by apply elem_of_cons; right|].
    exists (x :: P), Q. split; [done|]. split; [|done]. intros y [->|Hy]%elem_of_cons; [done|by apply HP].
  - exists [], (x :: F). split; [done|]. split; [intros y Hy; by apply elem_of_nil in Hy|].
    intros y [->|Hy]%elem_of_cons; [done|]. specialize (Hx y Hy). unfold before in Hx. lia.
Qed.

(** ** The search of [free] *)

(** Along the blocks below [bp] the search goes on to the last one. *)
Lemma walk_below fuel bp s P a n Q :
  lseg (hp s) (P ++ (a, n) :: Q) base → StronglySorted before (P ++ (a, n) :: Q) →
  (∀ x, x ∈ P ++ (a, n) :: Q → 0 ≤ x.2 ∧ base ≤ x.1) →
  (∀ x, x ∈ P ++ [(a, n)] → x.1 < bp) → (∀ x, x ∈ Q → bp < x.1) → (length P < fuel)%nat →
  free_loop fuel bp (hd_addr a P) s = Ok a s.
Proof.
  revert P. induction fuel as [|fuel IH]; intros P Hseg Hs Hpos HP HQ Hf; [lia|].
  cbn [free_loop]. rewrite (bind_ok _ _ s (hp s (hd_addr a P)).1 s) by done.
  destruct P as [|[b m] P].
  - cbn [hd_addr app] in *. apply lseg_cons in Hseg as [-> _]. cbn [fst].
    assert (a < bp) by (apply (HP (a, n)); by apply elem_of_cons; left).
    destruct Q as [|[c l] Q]; cbn [hd_addr].
    + assert (0 ≤ n ∧ base ≤ a) as [_ Hb] by (apply (Hpos (a, n)); by apply elem_of_cons; left).
      rewrite (proj2 (Z.gtb_lt bp a)), (proj2 (Z.geb_le a base)) by lia. cbn [andb orb].
      by destruct (bp <? base).
    + assert (bp < c) by (apply (HQ (c, l)); by apply elem_of_cons; left).
      by rewrite (proj2 (Z.gtb_lt bp a)), (proj2 (Z.ltb_lt bp c)) by lia.
  - cbn [hd_addr app] in *. apply lseg_cons in Hseg as [-> Hseg]. cbn [fst].
    assert (Eh : hd_addr base (P ++ (a, n) :: Q) = hd_addr a P) by (by destruct P as [|[? ?] P]). rewrite Eh.
    assert (Hin : ∃ l, (hd_addr a P, l) ∈ P ++ [(a, n)]).
    { destruct P as [|[c l] P]; [exists n|exists l]; by apply elem_of_cons; left. }
    destruct Hin as [l Hl]. assert (hd_addr a P < bp) by (apply (HP (hd_addr a P, l)); apply elem_of_cons; by right).
    apply StronglySorted_cons in Hs as [Hb Hs]. rewrite Forall_forall in Hb.
    assert (0 ≤ m) by (apply (Hpos (b, m)); by apply elem_of_cons; left).
    assert (Hbl : before (b, m) (hd_addr a P, l)).
    { apply Hb. rewrite elem_of_app in Hl |- *. destruct Hl as [Hl|Hl]; [by left|].
      right. apply elem_of_cons. left. by apply list_elem_of_singleton in Hl. }
    unfold before in Hbl. cbn [fst snd] in Hbl.
    rewrite (proj2 (Z.ltb_ge bp (hd_addr a P))), andb_false_r by lia.
    destruct (Z.geb_spec b (hd_addr a P)); [lia|]. cbn [andb]. apply IH; try done.
    + intros x Hx. apply Hpos, elem_of_cons. by right.
    + intros x Hx. apply HP, elem_of_cons. by right.
    + simpl in Hf. lia.
Qed.

(** Along the blocks above [bp] it goes on to the end, and starts again at [base]. *)
Lemma walk_above fuel bp s Q a n :
  lseg (hp s) ((a, n) :: Q) base → StronglySorted before ((a, n) :: Q) →
  (∀ x, x ∈ (a, n) :: Q → 0 ≤ x.2 ∧ bp < x.1) → base < bp →
  free_loop (S (length Q) + fuel) bp a s = free_loop fuel bp base s.
Proof.
  revert a n. induction Q as [|[b m] Q IH]; intros a n Hseg Hs Hpos Hb; cbn [length Nat.add free_loop];
    apply lseg_cons in Hseg as [Ha Hseg]; rewrite (bind_ok _ _ s (hp s a).1 s), Ha by done; cbn [fst hd_addr];
    (assert (0 ≤ n ∧ bp < a) as [Hn Hbp] by (apply (Hpos (a, n)); by apply elem_of_cons; left));
    destruct (Z.gtb_spec bp a); try lia; cbn [andb orb].
  - destruct (Z.ltb_spec bp base); [lia|]. by rewrite andb_false_r.
  - apply StronglySorted_cons in Hs as [Hab Hs]. apply Forall_cons in Hab as [Hab _]. unfold before in Hab. cbn in Hab.
    destruct (Z.geb_spec a b); [lia|]. cbn [andb]. apply (IH b m); try done.
    intros x Hx. apply Hpos, elem_of_cons. by right.
Qed.
(** Every free block takes eight bytes at least. *)
Lemma sorted_room x L hi :
  StronglySorted before (x :: L) → Forall (in_heap hi) L → x.1 + 8 * x.2 ≤ hi →
  x.1 + 8 * x.2 + 8 * Z.of_nat (length L) ≤ hi.
Proof.
  revert x. induction L as [|y L IH]; intros x Hs Hh Hx; [simpl; lia|].
  apply StronglySorted_cons in Hs as [Hxy Hs]. apply Forall_cons in Hxy as [Hxy _].
  apply Forall_cons in Hh as [(Hy2 & _ & Hy) Hh]. unfold before in Hxy.
  specialize (IH y Hs Hh Hy). simpl length. lia.
Qed.

Lemma ring_length L s : rinv L s → base + 8 * Z.of_nat (length L) ≤ brk s.
Proof.
  intros H. pose proof (r_brk _ _ H).
  pose proof (sorted_room (base, 0) L (brk s) (r_sorted _ _ H) (r_heap _ _ H)). cbn [fst snd] in *. lia.
Qed.

(** What follows a node of the ring is a free block. *)
Lemma ring_sub (L A : list (Z * Z)) x C y : (base, 0) :: L = A ++ x :: C → y ∈ C → y ∈ L.
Proof.
  intros E Hy. destruct A as [|a A]; injection E as ? ->; [done|]. apply elem_of_app. right. by apply elem_of_cons; right.
Qed.

(** The search of [free] ends at the last free block below the address,
    wherever it starts. *)
Lemma free_search L s bp A p k Q :
  rinv L s → (base, 0) :: L = A ++ (p, k) :: Q → base < bp →
  (∀ x, x ∈ A ++ [(p, k)] → x.1 < bp) → (∀ x, x ∈ Q → bp < x.1) →
  free_loop (Z.to_nat (brk s)) bp (freep s) s = Ok p s.
Proof.
  intros H E Hb HP HQ. pose proof (r_ring _ _ H) as Hring. pose proof (r_sorted _ _ H) as Hs.
  assert (Hpos : ∀ x, x ∈ (base, 0) :: L → 0 ≤ x.2 ∧ base ≤ x.1) by (intros x Hx; pose proof (in_ring_size _ _ x H Hx); lia).
  pose proof (r_freep _ _ H) as Hf. pose proof (ring_length _ _ H) as Hlen.
  assert (El : (length L = length A + length Q)%nat).
  { apply (f_equal length) in E. rewrite length_app in E. simpl in E. lia. }
  assert (Hh : hd_addr p A = base) by (destruct A as [|[? ?] A]; by injection E).
  rewrite E in Hpos, Hring, Hs, Hf. rewrite fmap_app, fmap_cons, elem_of_app, elem_of_cons in Hf. cbn [fst] in Hf.
  assert (Hbelow : ∀ B C fuel, A = B ++ C → (length C < fuel)%nat → free_loop fuel bp (hd_addr p C) s = Ok p s).
  { intros B C fuel -> HC. rewrite <- app_assoc in *. apply lseg_app in Hring as [_ Hring].
    eapply walk_below; [done|by eapply StronglySorted_app_1_r| | |done|done].
    - intros x Hx. apply Hpos. apply elem_of_app. by right.
    - intros x Hx. apply HP. apply elem_of_app. by right. }
  destruct Hf as [Hf|[->|Hf]].
  - apply list_elem_of_fmap in Hf as ([f m] & -> & [B [C ->]]%list_elem_of_split).
    apply (Hbelow B ((f, m) :: C)); [done|]. rewrite length_app in El. simpl in *. lia.
  - apply (Hbelow A []); [by rewrite app_nil_r|]. simpl. lia.
  - apply list_elem_of_fmap in Hf as ([f m] & -> & [B [C ->]]%list_elem_of_split). cbn [fst].
    rewrite length_app in El. simpl in El.
    replace (Z.to_nat (brk s)) with (S (length C) + (Z.to_nat (brk s) - S (length C)))%nat by lia.
    assert (Efull : A ++ (p, k) :: B ++ (f, m) :: C = (A ++ (p, k) :: B) ++ (f, m) :: C) by (by rewrite <- app_assoc).
    rewrite Efull in Hring, Hs. apply lseg_app in Hring as [_ Hring].
    rewrite (walk_above _ bp s C f m); [|done|by eapply StronglySorted_app_1_r| |done].
    + rewrite <- Hh. apply (Hbelow [] A); [done|]. lia.
    + intros x Hx. split; [|by apply HQ, elem_of_app; right]. apply Hpos. rewrite Efull. apply elem_of_app. by right.
Qed.

(** Where a block goes: all before it end before it starts, all after it start
    after its end. *)
Lemma free_place L s bp n :
  rinv L s → in_heap (brk s) (bp, n) → (∀ y, y ∈ L → disj (bp, n) y) →
  ∃ A p k Q, (base, 0) :: L = A ++ (p, k) :: Q ∧
    (∀ x, x ∈ A ++ [(p, k)] → x.1 < bp ∧ x.1 + 8 * x.2 ≤ bp) ∧ (∀ x, x ∈ Q → bp + 8 * n ≤ x.1).
Proof.
  intros H (Hn & Hb & Hhi) Hd. cbn [fst snd] in *.
  assert (Hdis : ∀ x, x ∈ (base, 0) :: L → 0 ≤ x.2 ∧ x.1 ≠ bp ∧ (x.1 + 8 * x.2 ≤ bp ∨ bp + 8 * n ≤ x.1)).
  { intros x [->|Hx]%elem_of_cons; [cbn; lia|].
    pose proof (proj1 (Forall_forall _ _) (r_heap _ _ H) x Hx) as (? & ? & ?).
    destruct (Hd x Hx) as [E|E]; cbn in E; lia. }
  destruct (split_at bp ((base, 0) :: L)) as (P & Q & E & HP & HQ);
    [intros; by apply Hdis|by apply r_sorted with s|intros; by apply Hdis|].
  rewrite E in Hdis. destruct P as [|[p k] A _] using rev_ind.
  { exfalso. cbn in E. specialize (HQ (base, 0)). rewrite <- E in HQ. cbn in HQ. enough (bp < base) by lia.
    apply HQ, elem_of_cons. by left. }
  exists A, p, k, Q. rewrite <- app_assoc in E. split; [done|]. split.
  - intros x Hx. pose proof (HP x Hx). destruct (Hdis x) as (? & ? & ?); [by apply elem_of_app; left|]. lia.
  - intros x Hx. pose proof (HQ x Hx). destruct (Hdis x) as (? & ? & ?); [by apply elem_of_app; right|]. lia.
Qed.
(** ** Joining neighbours *)

(** The block at [bp] with the one that follows it, if there is no gap. *)
Definition joined (bp n : Z) (Q : list (Z * Z)) (n' : Z) (Q' : list (Z * Z)) : Prop :=
  (n' = n ∧ Q' = Q ∧ hd_addr base Q ≠ bp + 8 * n) ∨ (∃ m, Q = (bp + 8 * n, m) :: Q' ∧ n' = n + m).

Lemma disj_join x a n m : 0 < x.2 → 0 < n → disj x (a, n) → disj x (a + 8 * n, m) → disj x (a, n + m).
Proof. unfold disj. cbn [fst snd]. lia. Qed.

Lemma joined_facts bp n Q n' Q' hi :
  joined bp n Q n' Q' → base < bp → 0 < n → bp + 8 * n ≤ hi → StronglySorted before Q → Forall (in_heap hi) Q →
  (∀ y, y ∈ Q → bp + 8 * n ≤ y.1) →
  StronglySorted before ((bp, n') :: Q') ∧ n ≤ n' ∧ bp + 8 * n' ≤ hi ∧ Forall (in_heap hi) Q' ∧
  (∀ x, 0 < x.2 → disj x (bp, n) → (∀ y, y ∈ Q → disj x y) → ∀ y, y ∈ (bp, n') :: Q' → disj x y).
Proof.
  intros Hj Hb Hn Hhi Hs Hh Hafter. destruct Hj as [(-> & -> & Hne)|(m & -> & ->)].
  - split_and!; [|lia|done|done|].
    + apply StronglySorted_cons. split; [|done]. destruct Q as [|[b m] Q]; [done|]. cbn [hd_addr] in Hne.
      pose proof (Hafter (b, m) ltac:(by apply elem_of_cons; left)) as Hbm. cbn in Hbm.
      apply Forall_cons in Hh as [(Hm & _) _]. cbn in Hm.
      apply StronglySorted_cons in Hs as [Hs _]. apply Forall_cons. split; [unfold before; cbn; lia|].
      eapply Forall_impl; [exact Hs|]. unfold before. cbn. intros y. lia.
    + intros x Hx Hd HQ y [->|Hy]%elem_of_cons; [done|by apply HQ].
  - apply Forall_cons in Hh as [(Hm & _ & Hmhi) Hh]. cbn [fst snd] in *. apply StronglySorted_cons in Hs as [Hs1 Hs].
    split_and!; [|lia..|done|].
    + apply StronglySorted_cons. split; [|done]. eapply Forall_impl; [exact Hs1|]. unfold before. cbn. intros y. lia.
    + intros x Hx Hd HQ y [->|Hy]%elem_of_cons; [|by apply HQ, elem_of_cons; right].
      apply disj_join; [done..|]. apply HQ, elem_of_cons. by left.
Qed.

(** The headers agree except at one address. *)
Definition same_but (a : Z) (s s' : ust) : Prop :=
  (∀ x, x ≠ a → hp s' x = hp s x) ∧ freep s' = freep s ∧ brk s' = brk s.

Lemma hset_same h a v : hset a v h a = v.
Proof. unfold hset. by rewrite Z.eqb_refl. Qed.
Lemma hset_other h a v x : x ≠ a → hset a v h x = h x.
Proof. unfold hset. intros H. by rewrite (proj2 (Z.eqb_neq x a)). Qed.

Lemma st_ptr_wp a q s : wp (st_ptr a q) (λ _ s', same_but a s s' ∧ hp s' a = (q, (hp s a).2)) s.
Proof.
  unfold st_ptr. wp_run. unfold same_but. cbn [hp freep brk set_hp]. rewrite !hset_same. split; [|done].
  split; [|done]. intros x Hx. by rewrite hset_other.
Qed.
Lemma link_next_wp s bp n p k Q hi :
  hp s p = (hd_addr base Q, k) → lseg (hp s) Q base → (hp s bp).2 = n → p ≠ bp → bp ∉ Q.*1 →
  base < bp → 0 < n → bp + 8 * n ≤ hi → hi ≤ 2^31 → Forall (in_heap hi) Q →
  wp (link_next bp p) (λ _ s', ∃ n' Q', joined bp n Q n' Q' ∧ same_but bp s s' ∧ hp s' bp = (hd_addr base Q', n')) s.
Proof.
  intros Hp Hseg Hn Hpb HbQ Hb Hn0 Hhi Hmax Hh. unfold link_next, ld_size, ld_ptr.
  apply wp_bind, wp_gets, wp_bind, wp_gets. rewrite Hp, Hn, w32_small by lia. cbn [fst].
  destruct (Z.eqb_spec (bp + 8 * n) (hd_addr base Q)) as [E|E].
  - destruct Q as [|[b m] Q]; cbn [hd_addr] in E; [lia|]. subst b.
    apply lseg_cons in Hseg as [Hm _]. apply Forall_cons in Hh as [(Hm0 & _ & Hmhi) _]. cbn [fst snd] in *.
    cbn [hd_addr]. apply wp_bind, wp_gets. rewrite Hm, w32_small by (cbn; lia). cbn [snd].
    eapply (wp_mono _ (λ _ s', same_but bp s s' ∧ hp s' bp = (hd_addr base Q, n + m))).
    + unfold st_size, st_ptr. wp_run. unfold same_but. cbn [hp freep brk set_hp].
      rewrite !hset_same, (hset_other _ _ _ (bp + 8 * n)), Hm by lia. cbn [fst snd]. split; [|done]. split; [|done].
      intros x Hx. by rewrite !hset_other.
    + intros _ s' [A B]. exists (n + m), Q. split; [|done]. right. by exists m.
  - wp_use st_ptr_wp. intros _ s' [A B]. exists n, Q. rewrite Hn in B. split; [|done]. left. split_and!; [done|done|lia].
Qed.

Lemma link_prev_wp s bp n p k q :
  hp s bp = (q, n) → (hp s p).2 = k → p ≠ bp → 0 ≤ k → 0 ≤ n → 0 ≤ p → p + 8 * k ≤ bp → bp + 8 * n ≤ 2^31 →
  wp (link_prev bp p) (λ _ s', same_but p s s' ∧
    hp s' p = if p + 8 * k =? bp then (q, k + n) else (bp, k)) s.
Proof.
  intros Hbp Hk Hne Hk0 Hn0 Hp0 Hle Hmax. unfold link_prev, ld_size, ld_ptr.
  apply wp_bind, wp_gets. rewrite Hk, w32_small by lia. destruct (Z.eqb_spec (p + 8 * k) bp) as [E|E].
  - apply wp_bind, wp_gets. rewrite Hbp. cbn [snd]. rewrite w32_small by lia.
    unfold st_size, st_ptr. wp_run. unfold same_but. cbn [hp freep brk set_hp].
    rewrite !hset_same, (hset_other _ _ _ bp), Hbp by lia. cbn [fst snd]. split; [|done]. split; [|done].
    intros x Hx. by rewrite !hset_other.
  - wp_use st_ptr_wp. intros _ s' [A B]. by rewrite Hk in B.
Qed.
Lemma lseg_same s s' a l nx : same_but a s s' → a ∉ l.*1 → lseg (hp s) l nx → lseg (hp s') l nx.
Proof.
  intros [H _]. induction l as [|[b m] l IH]; [done|]. rewrite fmap_cons, not_elem_of_cons, !lseg_cons. cbn [fst].
  intros [Hb Hl] [E Hs]. rewrite H by congruence. split; [done|by apply IH].
Qed.

(** The block behind [(p, k)], joined to it or not. *)
Definition behind (p k bp n : Z) (Q : list (Z * Z)) : list (Z * Z) :=
  if p + 8 * k =? bp then (p, k + n) :: Q else (p, k) :: (bp, n) :: Q.

Lemma behind_sorted A p k bp n Q Q0 :
  StronglySorted before (A ++ (p, k) :: Q0) → StronglySorted before ((bp, n) :: Q) →
  0 ≤ k → 0 < n → p + 8 * k ≤ bp → StronglySorted before (A ++ behind p k bp n Q).
Proof.
  intros H1 H2 Hk Hn Hle. apply StronglySorted_app in H1 as (HAp & HA & _).
  pose proof H2 as (Hb & HQ)%StronglySorted_cons. rewrite Forall_forall in Hb.
  assert (HAp' : ∀ x, x ∈ A → before x (p, k)) by (intros x Hx; apply HAp; [done|by apply elem_of_cons; left]).
  unfold before in *. cbn [fst snd] in *. unfold behind. destruct (Z.eqb_spec (p + 8 * k) bp) as [E|E].
  - apply StronglySorted_app_2; [|done|apply StronglySorted_cons; split; [|done]].
    + intros x y Hx [->|Hy]%elem_of_cons; [by apply HAp'|]. specialize (HAp' x Hx). specialize (Hb y Hy). lia.
    + apply Forall_forall. intros y Hy. specialize (Hb y Hy). cbn. lia.
  - apply StronglySorted_app_2; [|done|apply StronglySorted_cons; split; [|done]].
    + intros x y Hx [->|[->|Hy]%elem_of_cons]%elem_of_cons; [by apply HAp'|..]; specialize (HAp' x Hx); cbn; [lia|].
      specialize (Hb y Hy). lia.
    + apply Forall_cons. cbn. split; [lia|]. apply Forall_forall. intros y Hy. specialize (Hb y Hy). lia.
Qed.

Lemma behind_lseg s A p k bp n Q :
  lseg (hp s) A p → lseg (hp s) Q base → hp s p = (if p + 8 * k =? bp then (hd_addr base Q, k + n) else (bp, k)) →
  hp s bp = (hd_addr base Q, n) → lseg (hp s) (A ++ behind p k bp n Q) base.
Proof.
  intros HA HQ Hp Hbp. unfold behind. apply lseg_app. destruct (p + 8 * k =? bp); rewrite !lseg_cons; cbn [hd_addr];
    by split_and!.
Qed.

(** The new ring starts at [base] too, and where its blocks come from. *)
Lemma behind_ring L A p k Q bp n Q' :
  (base, 0) :: L = A ++ (p, k) :: Q → base < bp → (length Q' ≤ length Q)%nat →
  ∃ L', A ++ behind p k bp n Q' = (base, 0) :: L' ∧ (length L' ≤ S (length L))%nat ∧
    (∃ y, y ∈ L' ∧ (y = (bp, n) ∨ y = (p, k + n))) ∧
    (∀ y, y ∈ L' → y ∈ L ∨ y ∈ (bp, n) :: Q' ∨ ((p, k) ∈ L ∧ p + 8 * k = bp ∧ y = (p, k + n))).
Proof.
  intros E Hb HQ. destruct A as [|a A].
  - injection E as <- <- <-. unfold behind. rewrite Z.mul_0_r, Z.add_0_r, (proj2 (Z.eqb_neq base bp)) by lia.
    exists ((bp, n) :: Q'). split; [done|]. split; [simpl; lia|]. split.
    + exists (bp, n). split; [by apply elem_of_cons; left|by left].
    + intros y Hy. by right; left.
  - injection E as <- ->. exists (A ++ behind p k bp n Q'). split; [done|].
    assert (Hpk : (p, k) ∈ A ++ (p, k) :: Q) by (apply elem_of_app; right; by apply elem_of_cons; left).
    unfold behind. destruct (Z.eqb_spec (p + 8 * k) bp) as [E|E].
    + split; [rewrite !length_app; simpl; lia|]. split.
      * exists (p, k + n). split; [apply elem_of_app; right; by apply elem_of_cons; left|by right].
      * intros y [Hy|[->|Hy]%elem_of_cons]%elem_of_app.
        -- left. apply elem_of_app. by left.
        -- by right; right.
        -- right; left. apply elem_of_cons. by right.
    + split; [rewrite !length_app; simpl; lia|]. split.
      * exists (bp, n). split; [|by left]. apply elem_of_app; right. apply elem_of_cons. right. by apply elem_of_cons; left.
      * intros y [Hy|[->|Hy]%elem_of_cons]%elem_of_app; [left; apply elem_of_app; by left|by left|by right; left].
Qed.

(** What [free] of the block [(bp, n)] leaves. *)
Definition freed (L : list (Z * Z)) (bp n : Z) (s s' : ust) (L' : list (Z * Z)) : Prop :=
  rinv L' s' ∧ brk s' = brk s ∧ (length L' ≤ S (length L))%nat ∧ (∃ y, y ∈ L' ∧ n ≤ y.2) ∧
  (∀ a, a ∉ ((base, 0) :: L).*1 → a ≠ bp → hp s' a = hp s a) ∧
  (∀ x, 0 < x.2 → disj x (bp, n) → (∀ y, y ∈ L → disj x y) → ∀ y, y ∈ L' → disj x y).

(** A block of the ring cannot start at an address that is beside the others. *)
Lemma not_addr (a : Z) (l : list (Z * Z)) : (∀ x, x ∈ l → x.1 ≠ a) → a ∉ l.*1.
Proof. intros H (x & -> & Hx)%list_elem_of_fmap. by apply (H x). Qed.

Lemma joined_tail bp n Q n' Q' s : joined bp n Q n' Q' → lseg (hp s) Q base → lseg (hp s) Q' base ∧ (length Q' ≤ length Q)%nat.
Proof.
  intros [(-> & -> & _)|(m & -> & ->)]; [done|]. rewrite lseg_cons. intros [_ ?]. simpl. split; [done|lia].
Qed.

Lemma free_result_ring L s bp n A p k Q n' Q' s1 s2 :
  rinv L s → (base, 0) :: L = A ++ (p, k) :: Q →
  (∀ x, x ∈ A ++ [(p, k)] → x.1 < bp ∧ x.1 + 8 * x.2 ≤ bp) →
  joined bp n Q n' Q' → same_but bp s s1 → hp s1 bp = (hd_addr base Q', n') → 0 < n' →
  StronglySorted before ((bp, n') :: Q') →
  same_but p s1 s2 → hp s2 p = (if p + 8 * k =? bp then (hd_addr base Q', k + n') else (bp, k)) →
  lseg (hp s2) (A ++ behind p k bp n' Q') base ∧ StronglySorted before (A ++ behind p k bp n' Q').
Proof.
  intros H E HP Hj Hs1 Hbp Hn' HsQ Hs2 Hp.
  pose proof (r_ring _ _ H) as Hring. pose proof (r_sorted _ _ H) as Hso. rewrite E in Hring, Hso.
  apply lseg_app in Hring as [HrA HrQ]. apply lseg_cons in HrQ as [_ HrQ].
  destruct (joined_tail _ _ _ _ _ s Hj HrQ) as [HrQ' _].
  destruct (HP (p, k)) as [Hlt Hle]; [by apply elem_of_app; right; apply elem_of_cons; left|]. cbn [fst snd] in *.
  assert (Hk : 0 ≤ k).
  { destruct (in_ring_size L s (p, k) H) as (? & ? & ?); [|done]. rewrite E. apply elem_of_app; right; by apply elem_of_cons; left. }
  assert (HA : ∀ x, x ∈ A → x.1 < p).
  { intros x Hx. destruct (in_ring_size L s x H) as (? & ? & ?); [rewrite E; by apply elem_of_app; left|].
    pose proof (proj1 (sorted_cut _ _ _ Hso) x Hx). unfold before in *. cbn in *. lia. }
  assert (HQ : ∀ x, x ∈ Q' → bp < x.1).
  { intros x Hx. apply StronglySorted_cons in HsQ as [HsQ _]. pose proof (proj1 (Forall_forall _ _) HsQ x Hx).
    unfold before in *. cbn in *. lia. }
  split; [|by eapply behind_sorted].
  apply behind_lseg; [| |done|].
  - eapply lseg_same; [done|apply not_addr; intros x Hx; specialize (HA x Hx); lia|].
    eapply lseg_same; [done|apply not_addr; intros x Hx; specialize (HA x Hx); lia|done].
  - eapply lseg_same; [done|apply not_addr; intros x Hx; specialize (HQ x Hx); lia|].
    eapply lseg_same; [done|apply not_addr; intros x Hx; specialize (HQ x Hx); lia|done].
  - destruct Hs2 as [Hs2 _]. rewrite Hs2 by lia. done.
Qed.

Lemma free_result L s bp n A p k Q n' Q' s1 s2 :
  rinv L s → (base, 0) :: L = A ++ (p, k) :: Q → in_heap (brk s) (bp, n) →
  (∀ x, x ∈ A ++ [(p, k)] → x.1 < bp ∧ x.1 + 8 * x.2 ≤ bp) → (∀ x, x ∈ Q → bp + 8 * n ≤ x.1) →
  joined bp n Q n' Q' → same_but bp s s1 → hp s1 bp = (hd_addr base Q', n') →
  same_but p s1 s2 → hp s2 p = (if p + 8 * k =? bp then (hd_addr base Q', k + n') else (bp, k)) →
  ∃ L', freed L bp n s (set_freep p s2) L'.
Proof.
  intros H E (Hn & Hb & Hhi) HP HQ Hj Hs1 Hbp Hs2 Hp. cbn [fst snd] in *.
  assert (HQL : ∀ x, x ∈ Q → x ∈ L) by (intros x; by eapply ring_sub).
  assert (HhQ : Forall (in_heap (brk s)) Q).
  { apply Forall_forall. intros x Hx. apply (proj1 (Forall_forall _ _) (r_heap _ _ H)). by apply HQL. }
  pose proof (r_ring _ _ H) as Hring. pose proof (r_sorted _ _ H) as Hso. rewrite E in Hring, Hso.
  apply lseg_app in Hring as [_ HrQ]. apply lseg_cons in HrQ as [_ HrQ].
  destruct (joined_tail _ _ _ _ _ s Hj HrQ) as [_ Hlen].
  apply StronglySorted_app in Hso as (_ & _ & Hso). apply StronglySorted_cons in Hso as [_ Hso].
  destruct (joined_facts bp n Q n' Q' (brk s) Hj Hb Hn Hhi Hso HhQ HQ) as (HsQ & Hnn & Hnhi & HhQ' & HdQ).
  destruct (free_result_ring L s bp n A p k Q n' Q' s1 s2 H E HP Hj Hs1 Hbp ltac:(lia) HsQ Hs2 Hp) as [Hr' Hs'].
  destruct (behind_ring L A p k Q bp n' Q' E Hb Hlen) as (L' & EL & HlL & (y & Hy & Hyy) & Hfrom).
  rewrite EL in Hr', Hs'. destruct Hs1 as (F1 & _ & B1), Hs2 as (F2 & _ & B2).
  assert (HpF : (p, k) ∈ (base, 0) :: L) by (rewrite E; apply elem_of_app; right; by apply elem_of_cons; left).
  assert (Hk : 0 ≤ k) by (by destruct (in_ring_size L s (p, k) H HpF)).
  exists L'. split; [split|split_and!]; cbn [hp freep brk set_freep]; try congruence || done.
  - apply Forall_forall. intros x Hx. rewrite B2, B1. destruct (Hfrom x Hx) as [HL|[[->|HL]%elem_of_cons|(HL & Ep & ->)]].
    + by apply (proj1 (Forall_forall _ _) (r_heap _ _ H)).
    + split_and!; cbn; lia.
    + by apply (proj1 (Forall_forall _ _) HhQ').
    + destruct (proj1 (Forall_forall _ _) (r_heap _ _ H) _ HL) as (? & ? & ?). split_and!; cbn in *; lia.
  - rewrite <- EL. unfold behind. rewrite fmap_app. apply elem_of_app. right.
    destruct (p + 8 * k =? bp); rewrite fmap_cons; by apply elem_of_cons; left.
  - rewrite B2, B1. by apply r_brk with L.
  - exists y. split; [done|]. destruct Hyy as [->| ->]; cbn; lia.
  - intros a Ha Hab. rewrite F2, F1; [done|done|]. intros ->. apply Ha, list_elem_of_fmap. by exists (p, k).
  - intros x Hx Hd HL z Hz. destruct (Hfrom z Hz) as [?|[?|(Hpk & <- & ->)]]; [by apply HL|by apply HdQ; auto|].
    destruct (proj1 (Forall_forall _ _) (r_heap _ _ H) _ Hpk) as (Hk0 & _). cbn in Hk0.
    apply disj_join; [done..|by apply HL|]. apply HdQ; [done..|by intros; apply HL, HQL|by apply elem_of_cons; left].
Qed.

Lemma free_wp L s bp n :
  rinv L s → in_heap (brk s) (bp, n) → (∀ y, y ∈ L → disj (bp, n) y) → (hp s bp).2 = n →
  wp (free (bp + 8)) (λ _ s', ∃ L', freed L bp n s s' L') s.
Proof.
  intros H Hheap Hd Hsize. destruct (free_place L s bp n H Hheap Hd) as (A & p & k & Q & E & HP & HQ).
  pose proof Hheap as (Hn & Hb & Hhi). cbn [fst snd] in *. pose proof (r_brk _ _ H) as Hbrk.
  assert (HpF : (p, k) ∈ (base, 0) :: L) by (rewrite E; apply elem_of_app; right; by apply elem_of_cons; left).
  destruct (in_ring_size L s (p, k) H HpF) as (Hk & Hpb & _). cbn [fst snd] in *.
  destruct (HP (p, k)) as [Hlt Hle]; [by apply elem_of_app; right; apply elem_of_cons; left|]. cbn [fst snd] in *.
  assert (Hsearch : free_loop (Z.to_nat (brk s)) bp (freep s) s = Ok p s).
  { eapply (free_search L s bp A p k Q); [done|done|done|intros x Hx; by apply HP|intros x Hx; specialize (HQ x Hx); lia]. }
  assert (HhQ : Forall (in_heap (brk s)) Q).
  { apply Forall_forall. intros x Hx. apply (proj1 (Forall_forall _ _) (r_heap _ _ H)). by eapply ring_sub. }
  pose proof (r_ring _ _ H) as Hring. rewrite E in Hring. apply lseg_app in Hring as [_ Hring]. apply lseg_cons in Hring as [Hpe HrQ].
  unfold free, enough. cbv zeta. replace (bp + 8 - 8) with bp by lia. apply wp_bind, wp_gets, wp_bind, wp_gets, wp_bind.
  unfold wp at 1. rewrite Hsearch. apply wp_bind. wp_use (link_next_wp s bp n p k Q (brk s)); try done; [lia| |lia|].
  { apply not_addr. intros x Hx. specialize (HQ x Hx). lia. }
  intros _ s1 (n' & Q' & Hj & Hs1 & Hbp). apply wp_bind.
  assert (Hso : StronglySorted before Q).
  { pose proof (r_sorted _ _ H) as Hso. rewrite E in Hso. apply StronglySorted_app in Hso as (_ & _ & Hso).
    by apply StronglySorted_cons in Hso as [_ Hso]. }
  destruct (joined_facts bp n Q n' Q' (brk s) Hj Hb Hn Hhi Hso HhQ HQ) as (_ & Hnn & Hnhi & _).
  eapply wp_mono; [apply (link_prev_wp s1 bp n' p k (hd_addr base Q')); [done| |lia..]|].
  { destruct Hs1 as [-> _]; [by rewrite Hpe|lia]. }
  intros _ s2 [Hs2 Hp2]. apply wp_modify. by eapply free_result.
Qed.
(** ** Taking a block *)

(** Apart from free blocks [L], of a positive size. *)
Definition apart (L : list (Z * Z)) (x : Z * Z) : Prop := 0 < x.2 ∧ ∀ y, y ∈ L → disj x y.

Lemma ring_header L s x : rinv L s → x ∈ (base, 0) :: L → (hp s x.1).2 = x.2.
Proof.
  intros H (A & B & E)%list_elem_of_split. pose proof (r_ring _ _ H) as Hr. rewrite E in Hr. destruct x as [a n]. cbn [fst snd].
  by rewrite (lseg_node _ _ _ _ _ _ Hr).
Qed.

(** The block whose header points to [p] is the one before it. *)
Lemma ring_pred L s prev p k :
  rinv L s → prev ∈ ((base, 0) :: L).*1 → (hp s prev).1 = p → (p, k) ∈ L →
  ∃ A kp B, (base, 0) :: L = A ++ (prev, kp) :: (p, k) :: B.
Proof.
  intros H Hprev Hp Hpk. apply list_elem_of_fmap in Hprev as ([a kp] & -> & (A & B & E)%list_elem_of_split).
  cbn [fst] in *. pose proof (r_ring _ _ H) as Hr. rewrite E in Hr.
  rewrite (lseg_node _ _ _ _ _ _ Hr) in Hp. cbn [fst] in Hp.
  destruct (proj1 (Forall_forall _ _) (r_heap _ _ H) _ Hpk) as (_ & Hb & _). cbn [fst] in Hb.
  destruct B as [|[b m] B]; cbn [hd_addr] in Hp; [lia|]. subst b. exists A, kp, B.
  pose proof (ring_header L s (p, k) H ltac:(by apply elem_of_cons; right)) as E1.
  pose proof (ring_header L s (p, m) H ltac:(rewrite E; apply elem_of_app; right; apply elem_of_cons; right; by apply elem_of_cons; left)) as E2.
  cbn [fst snd] in *. by rewrite E, <- E1, <- E2.
Qed.

(** What taking [nunits] out of the free blocks leaves; [r] is the address of
    the block taken. *)
Definition taken (L : list (Z * Z)) (nunits : Z) (s : ust) (r : Z) (s' : ust) (L' : list (Z * Z)) : Prop :=
  rinv L' s' ∧ brk s' = brk s ∧ in_heap (brk s) (r, nunits) ∧ (hp s' r).2 = nunits ∧ apart L' (r, nunits) ∧
  (∀ x, apart L x → apart L' x ∧ disj x (r, nunits)) ∧
  (∀ a, a ∉ ((base, 0) :: L).*1 → a ≠ r → hp s' a = hp s a).

(** The list without the block, or with its rest. *)
Lemma cut_sorted A x p k k' B :
  StronglySorted before (A ++ x :: (p, k) :: B) → 0 ≤ k' ≤ k →
  StronglySorted before (A ++ x :: B) ∧ StronglySorted before (A ++ x :: (p, k') :: B).
Proof.
  intros (HAx & HA & Hx)%StronglySorted_app Hk.
  apply StronglySorted_cons in Hx as [Hx HB]. apply StronglySorted_cons in HB as [Hp HB].
  apply Forall_cons in Hx as [Hxp HxB].
  split; apply StronglySorted_app_2; try done.
  - intros a b Ha [->|Hb]%elem_of_cons; apply HAx; try done; apply elem_of_cons; [by left|]. right. apply elem_of_cons. by right.
  - apply StronglySorted_cons. done.
  - intros a b Ha [->|[->|Hb]%elem_of_cons]%elem_of_cons.
    + apply HAx; [done|]. by apply elem_of_cons; left.
    + apply (HAx a (p, k)); [done|]. apply elem_of_cons. right. by apply elem_of_cons; left.
    + apply HAx; [done|]. apply elem_of_cons. right. by apply elem_of_cons; right.
  - apply StronglySorted_cons. split; [by apply Forall_cons|]. apply StronglySorted_cons. split; [|done].
    eapply Forall_impl; [exact Hp|]. unfold before. cbn. intros y. lia.
Qed.

(** Two different members of the list do not overlap. *)
Lemma ring_disj L s A x p k B :
  rinv L s → (base, 0) :: L = A ++ x :: (p, k) :: B → ∀ y, y ∈ A ++ x :: B → y.1 + 8 * y.2 < p ∨ p + 8 * k < y.1.
Proof.
  intros H E y Hy. pose proof (r_sorted _ _ H) as Hs. rewrite E in Hs.
  assert (E2 : A ++ x :: (p, k) :: B = (A ++ [x]) ++ (p, k) :: B) by (by rewrite <- app_assoc). rewrite E2 in Hs.
  destruct (sorted_cut _ _ _ Hs) as [H1 H2]. unfold before in *. cbn in *.
  rewrite elem_of_app, elem_of_cons in Hy.
  assert (y ∈ A ++ [x] ∨ y ∈ B) as [Hy'|Hy'] by (rewrite elem_of_app, list_elem_of_singleton; tauto); [left|right]; auto.
Qed.
Lemma ring_tail L A x C C' :
  (base, 0) :: L = A ++ x :: C →
  ∃ L', A ++ x :: C' = (base, 0) :: L' ∧ (∀ y, y ∈ L' → (y ∈ L ∧ y ∈ A ++ [x]) ∨ y ∈ C').
Proof.
  intros E. destruct A as [|a A]; injection E as <- ->.
  - exists C'. split; [done|]. by right.
  - exists (A ++ x :: C'). split; [done|]. intros y. rewrite <- app_comm_cons, !elem_of_cons, !elem_of_app, !elem_of_cons. tauto.
Qed.

Lemma ring_addr L s A x p k B :
  rinv L s → (base, 0) :: L = A ++ x :: (p, k) :: B →
  0 < k ∧ base < p ∧ p + 8 * k ≤ brk s ∧ (p, k) ∈ L ∧
  (∀ a, p ≤ a ≤ p + 8 * k → a ∉ A.*1 ∧ a ≠ x.1 ∧ a ∉ B.*1) ∧ x.1 ∉ A.*1 ∧ x.1 ∉ B.*1.
Proof.
  intros H E. assert (Hpk : (p, k) ∈ L) by (eapply ring_sub; [exact E|]; by apply elem_of_cons; left).
  destruct (proj1 (Forall_forall _ _) (r_heap _ _ H) _ Hpk) as (Hk & Hb & Hhi). cbn in Hk, Hb, Hhi.
  assert (Hpos : ∀ y, y ∈ A ++ x :: (p, k) :: B → 0 ≤ y.2) by (intros y Hy; rewrite <- E in Hy; by apply (in_ring_size L s y)).
  pose proof (ring_disj L s A x p k B H E) as Hd. pose proof (r_sorted _ _ H) as Hs. rewrite E in Hs.
  destruct (sorted_cut _ _ _ Hs) as [H1 H2].
  split_and!; try done.
  - intros a Ha. split_and!.
    + apply not_addr. intros y Hy. pose proof (Hd y ltac:(apply elem_of_app; by left)).
      pose proof (Hpos y ltac:(apply elem_of_app; by left)). lia.
    + pose proof (Hd x ltac:(apply elem_of_app; right; by apply elem_of_cons; left)).
      pose proof (Hpos x ltac:(apply elem_of_app; right; by apply elem_of_cons; left)). lia.
    + apply not_addr. intros y Hy. pose proof (Hd y ltac:(apply elem_of_app; right; by apply elem_of_cons; right)).
      pose proof (Hpos y ltac:(apply elem_of_app; right; apply elem_of_cons; right; by apply elem_of_cons; right)). lia.
  - apply not_addr. intros y Hy. pose proof (H1 y Hy). pose proof (Hpos y ltac:(apply elem_of_app; by left)). unfold before in *. lia.
  - apply not_addr. intros y Hy. pose proof (H2 y ltac:(by apply elem_of_cons; right)).
    pose proof (Hpos x ltac:(apply elem_of_app; right; by apply elem_of_cons; left)). unfold before in *. lia.
Qed.

(** The whole block is taken. *)
Lemma take_whole L s prev kp p k A B s' :
  rinv L s → (base, 0) :: L = A ++ (prev, kp) :: (p, k) :: B →
  same_but prev s s' → hp s' prev = (hd_addr base B, kp) → ∃ L', taken L k s p (set_freep prev s') L'.
Proof.
  intros H E Hs' Hprev. destruct (ring_addr _ _ _ _ _ _ _ H E) as (Hk & Hb & Hhi & Hpk & Haddr & HA & HB).
  cbn [fst] in *. pose proof (ring_disj _ _ _ _ _ _ _ H E) as Hd.
  destruct (ring_tail L A (prev, kp) ((p, k) :: B) B E) as (L' & EL & Hfrom).
  assert (HLL : ∀ y, y ∈ L' → y ∈ L ∧ y ∈ A ++ (prev, kp) :: B).
  { intros y Hy. assert (y ∈ A ++ (prev, kp) :: B) by (rewrite EL; by apply elem_of_cons; right). split; [|done].
    destruct (Hfrom y Hy) as [[? _]|HyB]; [done|]. eapply ring_sub; [exact E|]. by apply elem_of_cons; right. }
  pose proof (r_ring _ _ H) as Hr. rewrite E in Hr. apply lseg_app in Hr as [HrA Hr].
  rewrite !lseg_cons in Hr. destruct Hr as (_ & _ & HrB).
  pose proof (r_sorted _ _ H) as Hs. rewrite E in Hs. apply (cut_sorted A (prev, kp) p k k B) in Hs as [Hs _]; [|lia].
  exists L'. split; [split|]; cbn [hp freep brk set_freep].
  - rewrite <- EL. apply lseg_app. cbn [hd_addr]. rewrite lseg_cons. split; [by eapply lseg_same|]. split; [done|by eapply lseg_same].
  - by rewrite <- EL.
  - destruct Hs' as (_ & _ & ->). apply Forall_forall. intros y Hy.
    apply (proj1 (Forall_forall _ _) (r_heap _ _ H)). by apply HLL.
  - rewrite <- EL, fmap_app, fmap_cons. apply elem_of_app. right. by apply elem_of_cons; left.
  - destruct Hs' as (_ & _ & ->). by apply r_brk with L.
  - destruct Hs' as (Hs' & _ & Hbr). split_and!; [done|done| |..].
    + destruct (Haddr p ltac:(lia)) as (_ & Hne & _). rewrite Hs' by done.
      apply (ring_header L s (p, k) H). by apply elem_of_cons; right.
    + split; [done|]. intros y Hy. destruct (Hd y (proj2 (HLL y Hy))); unfold disj; cbn; lia.
    + intros x [Hx Hxd]. split; [|by apply Hxd]. split; [done|]. intros y Hy. apply Hxd. by apply HLL.
    + intros a Ha _. apply Hs'. intros ->. apply Ha. rewrite E, fmap_app, fmap_cons. apply elem_of_app. right.
      by apply elem_of_cons; left.
Qed.
Lemma lseg_ext h h' l nx : (∀ a, a ∈ l.*1 → h' a = h a) → lseg h l nx → lseg h' l nx.
Proof.
  induction l as [|[b m] l IH]; [done|]. rewrite !lseg_cons, fmap_cons. cbn [fst]. intros He [E Hs].
  rewrite He by (by apply elem_of_cons; left). split; [done|]. apply IH; [|done]. intros a Ha. apply He. by apply elem_of_cons; right.
Qed.

(** The end of the block is taken, the rest stays. *)
Lemma take_rest L s prev kp p k n A B s' :
  rinv L s → (base, 0) :: L = A ++ (prev, kp) :: (p, k) :: B → 0 < n < k →
  let r := p + 8 * (k - n) in
  (∀ x, x ≠ p → x ≠ r → hp s' x = hp s x) → hp s' p = ((hp s p).1, k - n) → (hp s' r).2 = n → brk s' = brk s →
  ∃ L', taken L n s r (set_freep prev s') L'.
Proof.
  intros H E Hn r. assert (Er : r = p + 8 * (k - n)) by done. clearbody r. intros Hs' Hp Hr Hbrk. destruct (ring_addr _ _ _ _ _ _ _ H E) as (Hk & Hb & Hhi & Hpk & Haddr & _ & _).
  cbn [fst] in *. pose proof (ring_disj _ _ _ _ _ _ _ H E) as Hd.
  destruct (Haddr p ltac:(lia)) as (HpA & Hpx & HpB). destruct (Haddr r ltac:(lia)) as (HrA & Hrx & HrB).
  destruct (ring_tail L A (prev, kp) ((p, k) :: B) ((p, k - n) :: B) E) as (L' & EL & Hfrom).
  assert (HLL : ∀ y, y ∈ L' → y = (p, k - n) ∨ (y ∈ L ∧ y ∈ A ++ (prev, kp) :: B)).
  { intros y Hy. destruct (Hfrom y Hy) as [[? Hin]|[->|HyB]%elem_of_cons]; [right|by left|right]; (split; [try done|]).
    - rewrite elem_of_app, elem_of_cons in *. rewrite elem_of_nil in Hin. tauto.
    - eapply ring_sub; [exact E|]. by apply elem_of_cons; right.
    - apply elem_of_app. right. by apply elem_of_cons; right. }
  pose proof (r_ring _ _ H) as Hring. rewrite E in Hring. apply lseg_app in Hring as [HlA Hring].
  rewrite !lseg_cons in Hring. destruct Hring as (Ex & Ep & HlB). rewrite Ep in Hp. cbn [fst hd_addr] in *.
  pose proof (r_sorted _ _ H) as Hs. rewrite E in Hs. apply (cut_sorted A (prev, kp) p k (k - n) B) in Hs as [_ Hs]; [|lia].
  exists L'. split; [split|]; cbn [hp freep brk set_freep].
  - rewrite <- EL. apply lseg_app. rewrite !lseg_cons. cbn [hd_addr]. split_and!.
    + eapply lseg_ext; [|exact HlA]. intros a Ha. apply Hs'; intros Ea; by rewrite Ea in Ha.
    + rewrite Hs' by congruence. done.
    + done.
    + eapply lseg_ext; [|exact HlB]. intros a Ha. apply Hs'; intros Ea; by rewrite Ea in Ha.
  - by rewrite <- EL.
  - rewrite Hbrk. apply Forall_forall. intros y Hy. destruct (HLL y Hy) as [Ey|[HyL _]].
    + rewrite Ey. split_and!; cbn; lia.
    + by apply (proj1 (Forall_forall _ _) (r_heap _ _ H)).
  - rewrite <- EL, fmap_app, fmap_cons. apply elem_of_app. right. by apply elem_of_cons; left.
  - rewrite Hbrk. by apply r_brk with L.
  - split_and!; [done|split_and!; cbn; lia|done|..].
    + split; [cbn; lia|]. intros y Hy. destruct (HLL y Hy) as [Ey|[_ HyA]]; [rewrite Ey; unfold disj; cbn; lia|].
      destruct (Hd y HyA); unfold disj; cbn; lia.
    + intros x [Hx Hxd]. pose proof (Hxd (p, k) Hpk) as Hxp. unfold disj in Hxp. cbn in Hxp.
      split; [split; [done|]|unfold disj; cbn; lia]. intros y Hy.
      destruct (HLL y Hy) as [Ey|[HyL _]]; [rewrite Ey; unfold disj; cbn; lia|by apply Hxd].
    + intros a Ha Har. apply Hs'; [|done]. intros ->. apply Ha. apply list_elem_of_fmap. exists (p, k).
      split; [done|]. by apply elem_of_cons; right.
Qed.

Lemma take_block_wp L s nunits prev p k :
  rinv L s → prev ∈ ((base, 0) :: L).*1 → (hp s prev).1 = p → (p, k) ∈ L → 0 < nunits ≤ k →
  wp (take_block nunits prev p) (λ r s', ∃ L', taken L nunits s (r - 8) s' L') s.
Proof.
  intros H Hprev Hp Hpk Hn. destruct (ring_pred _ _ _ _ _ H Hprev Hp Hpk) as (A & kp & B & E).
  destruct (ring_addr _ _ _ _ _ _ _ H E) as (_ & Hb & Hhi & _). pose proof (r_brk _ _ H) as Hbrk.
  pose proof (r_ring _ _ H) as Hr. rewrite E in Hr. apply lseg_app in Hr as [_ Hr].
  rewrite !lseg_cons in Hr. destruct Hr as (Ex & Ep & _). cbn [hd_addr] in Ex.
  unfold take_block, ld_size, ld_ptr. apply wp_bind, wp_gets. rewrite Ep. cbn [snd].
  destruct (Z.eqb_spec k nunits) as [->|Hne]; apply wp_bind.
  - apply wp_bind, wp_gets. rewrite Ep. cbn [fst]. apply wp_bind. wp_use st_ptr_wp. intros _ s' [Hs' E'].
    apply wp_ret, wp_bind, wp_modify, wp_ret. replace (p + 8 - 8) with p by lia. rewrite Ex in E'.
    by eapply take_whole.
  - rewrite !(w32_small (k - nunits)) by lia. rewrite w32_small by lia. unfold st_size.
    wp_run. replace (p + 8 * (k - nunits) + 8 - 8) with (p + 8 * (k - nunits)) by lia.
    eapply take_rest; [done|exact E|lia|..]; cbn [hp set_hp brk].
    + intros x Hxp Hxr. by rewrite !hset_other.
    + rewrite hset_other, hset_same by lia. done.
    + by rewrite hset_same.
    + done.
Qed.
(** ** More memory *)

(** The kernel's half is never given to a program. *)
Context (grants : Z → Z → bool) (Hgrants : ∀ b n, grants b n = true → b + n ≤ 2^31).

(** What more memory leaves: a block of [nu] units at least, and everything that
    was below the old end as before. *)
Definition grown (L : list (Z * Z)) (nu : Z) (s s' : ust) (L' : list (Z * Z)) : Prop :=
  rinv L' s' ∧ brk s ≤ brk s' ∧ (length L' ≤ S (length L))%nat ∧ (∃ y, y ∈ L' ∧ nu ≤ y.2) ∧
  (∀ a, a < brk s → a ∉ ((base, 0) :: L).*1 → hp s' a = hp s a) ∧
  (∀ x, x.1 + 8 * x.2 ≤ brk s → apart L x → apart L' x).

Lemma sbrk_wp n s :
  0 < n < 2^31 → wp (sbrk grants n) (λ p s', (p = -1 ∧ s' = s) ∨
    (p = brk s ∧ s' = set_brk (brk s + n) s ∧ brk s + n ≤ 2^31)) s.
Proof.
  intros Hn. unfold sbrk. apply wp_bind, wp_gets. rewrite s32_small by lia. cbv zeta.
  rewrite (proj2 (Z.gtb_lt n 0)) by lia. destruct (grants (brk s) n) eqn:E; wp_run; [right|by left].
  split; [done|]. split; [done|]. by apply Hgrants.
Qed.

Lemma ring_below L s x : rinv L s → x ∈ (base, 0) :: L → x.1 < brk s.
Proof.
  intros H. pose proof (r_brk _ _ H). intros [->|Hx]%elem_of_cons; [cbn; lia|].
  destruct (proj1 (Forall_forall _ _) (r_heap _ _ H) _ Hx) as (? & ? & ?). lia.
Qed.

Lemma morecore_wp L s nu :
  rinv L s → 0 < nu ≤ 2^27 →
  wp (morecore grants nu) (λ q s', (q = 0 ∧ s' = s) ∨ (q = freep s' ∧ q ≠ 0 ∧ ∃ L', grown L nu s s' L')) s.
Proof.
  intros H Hnu. unfold morecore. cbv zeta.
  set (n := if nu <? 4096 then 4096 else nu).
  assert (Hn : nu ≤ n ∧ 4096 ≤ n ≤ 2^27) by (subst n; destruct (Z.ltb_spec nu 4096); lia). clearbody n.
  pose proof (r_brk _ _ H) as Hbrk.
  apply wp_bind. rewrite w32_small by lia. wp_use sbrk_wp; [lia|].
  intros p s1 [[-> ->]|(-> & -> & Hmax)].
  { change (-1 =? -1) with true. apply wp_ret. by left. }
  rewrite (proj2 (Z.eqb_neq (brk s) (-1))) by lia. apply wp_bind. unfold st_size. apply wp_modify. cbn beta.
  set (s2 := set_hp _ _).
  assert (H2 : rinv L s2).
  { subst s2. split; cbn [hp freep brk set_hp set_brk].
    - apply lseg_hset; [|by apply r_ring with (s := s)]. apply not_addr. intros x Hx. pose proof (ring_below _ _ _ H Hx). lia.
    - by apply r_sorted with s.
    - eapply Forall_impl; [apply (r_heap _ _ H)|]. unfold in_heap. intros x. lia.
    - by apply r_freep.
    - lia. }
  assert (Hd2 : ∀ x, x.1 + 8 * x.2 ≤ brk s → disj x (brk s, n)) by (intros x Hx; unfold disj; cbn; lia).
  apply wp_bind. wp_use (free_wp L s2 (brk s) n); [done|split_and!; cbn; lia| |by cbn; rewrite hset_same|].
  { intros y Hy. destruct (proj1 (Forall_forall _ _) (r_heap _ _ H) _ Hy) as (? & ? & ?). unfold disj. cbn. lia. }
  intros _ s3 (L' & H3 & Hb3 & Hlen & (y & Hy & Hyn) & Hhp & Hdis). apply wp_gets. right. split; [done|].
  split.
  { pose proof (r_freep _ _ H3) as Hf. apply list_elem_of_fmap in Hf as (x & Ex & Hx).
    destruct (in_ring_size _ _ _ H3 Hx) as (? & ? & ?). lia. }
  exists L'. split_and!; [done|rewrite Hb3; cbn; lia|done|exists y; split; [done|lia]| |].
  - intros a Ha HaF. rewrite Hhp by (done || lia). cbn. apply hset_other. lia.
  - intros x Hx [Hx0 HxL]. split; [done|]. apply Hdis; [done|by apply Hd2|done].
Qed.

(** ** The search of [malloc] *)

Lemma bind_gets {S A B} (f : S → A) (k : A → M S B) s : (gets f ≫= k) s = k (f s) s.
Proof. done. Qed.

(** Along [V], which ends at [freep]: a block that is large enough, with the one
    before it, or more memory is asked for. *)
Lemma malloc_walk nunits s V f kf prev fuel nx :
  f = freep s → NoDup (V ++ [(f, kf)]).*1 → lseg (hp s) (V ++ [(f, kf)]) nx →
  (hp s prev).1 = hd_addr f V → (length V < fuel)%nat →
  (∃ prev' p k, (p, k) ∈ V ++ [(f, kf)] ∧ nunits ≤ k ∧ (hp s prev').1 = p ∧ (prev' = prev ∨ prev' ∈ V.*1) ∧
     malloc_loop grants fuel nunits prev (hd_addr f V) s = take_block nunits prev' p s) ∨
  ((∀ x, x ∈ V ++ [(f, kf)] → x.2 < nunits) ∧
   malloc_loop grants fuel nunits prev (hd_addr f V) s =
     (q ← morecore grants nunits;
      if q =? 0 then mret 0 else
      nx ← ld_ptr q;
      malloc_loop grants (fuel - S (length V)) nunits q nx) s).
Proof.
  intros Hf. revert V prev. induction fuel as [|fuel IH]; intros V prev Hnd Hseg Hprev Hfuel; [lia|].
  cbn [malloc_loop]. destruct V as [|[p k] V]; cbn [hd_addr app] in *; rewrite lseg_cons in Hseg; destruct Hseg as [Ep Hseg];
    unfold ld_size; rewrite bind_gets; rewrite Ep; cbn [snd].
  - destruct (Z.geb_spec kf nunits) as [Hge|Hlt].
    + left. exists prev, f, kf. split_and!; [by apply elem_of_cons; left|done|done|by left|done].
    + right. split; [intros x Hx%list_elem_of_singleton; by subst x|].
      rewrite bind_gets, <- Hf, Z.eqb_refl. cbn [length]. by rewrite Nat.sub_1_r.
  - destruct (Z.geb_spec k nunits) as [Hge|Hlt].
    + left. exists prev, p, k. split_and!; [by apply elem_of_cons; left|done|done|by left|done].
    + rewrite fmap_cons in Hnd. apply NoDup_cons in Hnd as [Hp Hnd]. cbn [fst] in Hp.
      assert (p ≠ f).
      { intros ->. apply Hp. rewrite fmap_app. apply elem_of_app. right. by apply elem_of_cons; left. }
      unfold ld_ptr. rewrite bind_gets, <- Hf, (proj2 (Z.eqb_neq p f)), bind_gets, Ep by done. cbn [fst].
      assert (Eh : hd_addr nx (V ++ [(f, kf)]) = hd_addr f V) by (by destruct V as [|[? ?] ?]). rewrite Eh.
      destruct (IH V p Hnd Hseg) as [(prev' & p' & k' & Hin & Hk & Hpp & Hpr & El)|[Hall El]];
        [by rewrite Ep, Eh|simpl in Hfuel; lia|left|right].
      * exists prev', p', k'. split_and!; [by apply elem_of_cons; right|done|done| |done].
        right. destruct Hpr as [->|?]; [by apply elem_of_cons; left|by apply elem_of_cons; right].
      * split; [|exact El]. intros x [->|Hx]%elem_of_cons; [done|by apply Hall].
Qed.
Lemma sorted_nodup l : StronglySorted before l → (∀ x, x ∈ l → 0 ≤ x.2) → NoDup l.*1.
Proof.
  induction l as [|x l IH]; intros Hs Hpos; [constructor|]. apply StronglySorted_cons in Hs as [Hx Hs].
  rewrite fmap_cons. apply NoDup_cons. split; [|apply IH; [done|intros y Hy; apply Hpos; by apply elem_of_cons; right]].
  apply not_addr. intros y Hy. pose proof (proj1 (Forall_forall _ _) Hx y Hy) as Hb. unfold before in Hb.
  pose proof (Hpos x ltac:(by apply elem_of_cons; left)). lia.
Qed.

(** One round over all free blocks, from behind [freep]. *)
Lemma malloc_round L s nunits fuel :
  rinv L s → 0 < nunits → (length L < fuel)%nat →
  (∃ prev p k, (p, k) ∈ L ∧ nunits ≤ k ∧ (hp s prev).1 = p ∧ prev ∈ ((base, 0) :: L).*1 ∧
     malloc_loop grants fuel nunits (freep s) (hp s (freep s)).1 s = take_block nunits prev p s) ∨
  ((∀ x, x ∈ L → x.2 < nunits) ∧
   malloc_loop grants fuel nunits (freep s) (hp s (freep s)).1 s =
     (q ← morecore grants nunits;
      if q =? 0 then mret 0 else
      nx ← ld_ptr q;
      malloc_loop grants (fuel - S (length L)) nunits q nx) s).
Proof.
  intros H Hn Hfuel. pose proof (r_freep _ _ H) as Hf.
  apply list_elem_of_fmap in Hf as ([f kf] & Ef & (X & Y & E)%list_elem_of_split). cbn [fst] in Ef.
  pose proof (r_ring _ _ H) as Hr. rewrite E in Hr. pose proof (lseg_node _ _ _ _ _ _ Hr) as Hhd.
  assert (HXb : hd_addr f X = base) by (destruct X as [|[? ?] X]; by injection E).
  assert (Hnd : NoDup ((Y ++ X) ++ [(f, kf)]).*1).
  { eapply (NoDup_Permutation_proper _ ((base, 0) :: L).*1).
    - apply fmap_Permutation. rewrite E, <- app_assoc. rewrite (Permutation_app_comm Y). rewrite <- app_assoc. done.
    - apply sorted_nodup; [by apply r_sorted with s|]. intros x Hx. by apply (in_ring_size L s x). }
  assert (Hseg : ∃ nx, lseg (hp s) ((Y ++ X) ++ [(f, kf)]) nx).
  { rewrite <- app_assoc. destruct Y as [|y Y]; [exists base; by rewrite app_nil_l|].
    assert (E2 : X ++ (f, kf) :: y :: Y = (X ++ [(f, kf)]) ++ y :: Y) by (by rewrite <- app_assoc). rewrite E2 in Hr.
    eexists. apply (ring_rotate (hp s) (X ++ [(f, kf)]) (y :: Y) base 0); [|by destruct X|done].
    replace (hd_addr base ((X ++ [(f, kf)]) ++ y :: Y)) with base; [done|]. rewrite <- HXb at 1. by destruct X as [|[? ?] ?]. }
  destruct Hseg as [nx Hseg].
  assert (Hst : (hp s f).1 = hd_addr f (Y ++ X)) by (rewrite Hhd; cbn [fst]; by destruct Y as [|[? ?] ?]).
  assert (Hlen : length (Y ++ X) = length L).
  { apply (f_equal length) in E. rewrite length_app in *. simpl in E. lia. }
  assert (Hmem : ∀ x, x ∈ (Y ++ X) ++ [(f, kf)] ↔ x ∈ (base, 0) :: L).
  { intros x. rewrite E, !elem_of_app, !elem_of_cons, !elem_of_nil. tauto. }
  rewrite Ef. destruct (malloc_walk nunits s (Y ++ X) f kf f fuel nx) as [(prev & p & k & Hin & Hk & Hpp & Hpr & El)|[Hall El]];
    [done|done|done|done|lia|left|right].
  - exists prev, p, k. rewrite Hst. split_and!; try done.
    + apply Hmem, elem_of_cons in Hin as [E1|?]; [|done]. injection E1 as -> ->. lia.
    + rewrite E, fmap_app, fmap_cons, elem_of_app, elem_of_cons. rewrite fmap_app, elem_of_app in Hpr. cbn [fst]. tauto.
  - rewrite Hst. rewrite Hlen in El. split; [|exact El]. intros x Hx. apply Hall, Hmem. by apply elem_of_cons; right.
Qed.

(** The block is found, now or after more memory was obtained. *)
Lemma malloc_loop_wp L s nunits fuel :
  rinv L s → 0 < nunits ≤ 2^27 → (2 * length L + 3 ≤ fuel)%nat →
  wp (malloc_loop grants fuel nunits (freep s) (hp s (freep s)).1)
    (λ r s', (r = 0 ∧ s' = s) ∨
       ∃ s0 L0 L', (s0 = s ∧ L0 = L ∨ grown L nunits s s0 L0) ∧ taken L0 nunits s0 (r - 8) s' L') s.
Proof.
  intros H Hn Hfuel.
  destruct (malloc_round L s nunits fuel H) as [(prev & p & k & Hin & Hk & Hpp & Hpr & El)|[Hall El]]; [lia..| |];
    unfold wp at 1; rewrite El.
  - change (wp (take_block nunits prev p) (λ r s', (r = 0 ∧ s' = s) ∨
       ∃ s0 L0 L', (s0 = s ∧ L0 = L ∨ grown L nunits s s0 L0) ∧ taken L0 nunits s0 (r - 8) s' L') s).
    wp_use take_block_wp; [done..|lia|]. intros r s' [L' HT]. right. exists s, L, L'. split; [by left|done].
  - change (wp (q ← morecore grants nunits; if q =? 0 then mret 0 else nx ← ld_ptr q;
       malloc_loop grants (fuel - S (length L)) nunits q nx) (λ r s', (r = 0 ∧ s' = s) ∨
       ∃ s0 L0 L', (s0 = s ∧ L0 = L ∨ grown L nunits s s0 L0) ∧ taken L0 nunits s0 (r - 8) s' L') s).
    apply wp_bind. wp_use morecore_wp; [done..|]. intros q s1 [[-> ->]|(Eq & Hq & L1 & HG)].
    { apply wp_ret. by left. }
    rewrite (proj2 (Z.eqb_neq q 0)) by done. apply wp_bind, wp_gets. subst q.
    pose proof HG as (H1 & _ & Hlen & (y & Hy & Hyn) & _).
    destruct (malloc_round L1 s1 nunits (fuel - S (length L)) H1) as [(prev & p & k & Hin & Hk & Hpp & Hpr & El1)|[Hall1 _]];
      [lia..| |specialize (Hall1 y Hy); lia].
    unfold wp at 1. rewrite El1. apply (wp_mono (take_block nunits prev p) (λ r s', ∃ L', taken L1 nunits s1 (r - 8) s' L')).
    + eapply take_block_wp; [done..|lia].
    + intros r s' [L' HT]. right. exists s1, L1, L'. split; [by right|done].
Qed.
(** ** Blocks in use *)

Definition used_ok (L : list (Z * Z)) (U : blocks) (s : ust) : Prop :=
  (∀ a n, U !! a = Some n → in_heap (brk s) (a, n) ∧ (hp s a).2 = n ∧ apart L (a, n)) ∧
  (∀ a n b m, U !! a = Some n → U !! b = Some m → a ≠ b → disj (a, n) (b, m)).

(** The allocator was not called yet, or its ring and the blocks in use are
    well formed. *)
Definition uinv (U : blocks) (s : ust) : Prop :=
  (freep s = 0 ∧ U = ∅ ∧ base + 8 ≤ brk s ≤ 2^31) ∨ (∃ L, rinv L s ∧ used_ok L U s).

Lemma used_not_ring L s a n : rinv L s → base < a → apart L (a, n) → a ∉ ((base, 0) :: L).*1.
Proof.
  intros H Hb [Hn Hd]. apply not_addr. intros y [->|Hy]%elem_of_cons; [cbn; lia|]. intros <-.
  destruct (proj1 (Forall_forall _ _) (r_heap _ _ H) _ Hy) as (? & _). pose proof (Hd y Hy) as Hdy. unfold disj in Hdy. cbn in *. lia.
Qed.

Lemma used_grown L L' U nu s s' : rinv L s → used_ok L U s → grown L nu s s' L' → used_ok L' U s'.
Proof.
  intros H [HU Hp] (_ & Hbrk & _ & _ & Hhp & Hap). split; [|done]. intros a n Ha.
  destruct (HU a n Ha) as ((Hn & Hb & Hhi) & Hs & Hd). cbn [fst snd] in *. split_and!.
  - split_and!; cbn; lia.
  - rewrite Hhp; [done|lia|]. by eapply used_not_ring.
  - by apply Hap.
Qed.

Lemma used_taken L L' U nunits s r s' :
  rinv L s → used_ok L U s → taken L nunits s r s' L' → U !! r = None ∧ used_ok L' (<[r := nunits]> U) s'.
Proof.
  intros H [HU Hp] (_ & Hbrk & Hheap & Hr & Hrap & Hap & Hhp). pose proof Hheap as (Hn & _). cbn [snd] in Hn.
  assert (Hdr : ∀ a n, U !! a = Some n → disj (a, n) (r, nunits)) by (intros a n Ha; by apply Hap, HU).
  assert (Hnone : U !! r = None).
  { destruct (U !! r) as [n|] eqn:E; [|done]. pose proof (Hdr r n E) as Hd. destruct (HU r n E) as ((Hn0 & _) & _).
    unfold disj in Hd. cbn in *. lia. }
  split; [done|]. split.
  - intros a n. rewrite lookup_insert_Some. intros [[<- <-]|[Hne Ha]]; [by rewrite Hbrk|].
    destruct (HU a n Ha) as (Hh & Hs & Hd). rewrite Hbrk. split_and!; [done| |by apply Hap].
    rewrite Hhp; [done| |done]. eapply used_not_ring; [done|by apply Hh|done].
  - intros a n b m. rewrite !lookup_insert_Some. intros [[<- <-]|[Hne Ha]] [[<- <-]|[Hne' Hb]] Hab; try done.
    + destruct (Hdr b m Hb); [by right|by left].
    + by apply Hdr.
    + by apply Hp.
Qed.

Lemma malloc_start_wp U s :
  uinv U s →
  wp (malloc_start base)
    (λ f s', f = freep s' ∧ brk s' = brk s ∧ ∃ L, rinv L s' ∧ used_ok L U s') s.
Proof.
  intros [(Hf & -> & Hbrk)|(L & H & HU)]; apply wp_bind, wp_gets.
  - rewrite Hf. cbn [Z.eqb]. unfold st_ptr, st_size. wp_run. split; [done|]. split; [done|]. exists []. split.
    + split; cbn [hp freep brk set_hp set_freep]; [| |constructor|by apply elem_of_cons; left|done].
      * rewrite lseg_cons, !hset_same. done.
      * repeat constructor.
    + split; [intros a n; by rewrite lookup_empty|intros a n b m; by rewrite lookup_empty].
  - pose proof (r_freep _ _ H) as Hf. apply list_elem_of_fmap in Hf as (x & Ex & Hx).
    destruct (in_ring_size _ _ _ H Hx) as (? & ? & ?). rewrite (proj2 (Z.eqb_neq (freep s) 0)) by lia.
    apply wp_ret. split; [done|]. split; [done|]. by exists L.
Qed.

(** The units hold the bytes asked for behind the header. *)
Lemma units_bound nbytes : 0 ≤ nbytes ≤ 2^29 → 0 < units nbytes ≤ 2^27 ∧ nbytes ≤ 8 * (units nbytes - 1).
Proof.
  intros Hn. unfold units. rewrite w32_small by lia. pose proof (Z.div_mod (nbytes + 8 - 1) 8 ltac:(lia)).
  pose proof (Z.mod_pos_bound (nbytes + 8 - 1) 8 ltac:(lia)). lia.
Qed.

Lemma malloc_wp U s nbytes :
  uinv U s → 0 ≤ nbytes ≤ 2^29 →
  wp (malloc base grants nbytes) (λ r s', (r = 0 ∧ uinv U s') ∨
    (r ≠ 0 ∧ U !! (r - 8) = None ∧ uinv (<[r - 8 := units nbytes]> U) s')) s.
Proof.
  intros HU Hn. destruct (units_bound nbytes Hn) as [Hu _]. unfold malloc. cbv zeta. apply wp_bind.
  wp_use malloc_start_wp; [done|]. intros f s1 (-> & _ & L & H & HU1). apply wp_bind, wp_gets, wp_bind, wp_gets.
  pose proof (ring_length _ _ H) as Hlen.
  wp_use malloc_loop_wp; [done|done|lia|]. intros r s' [[-> ->]|(s0 & L0 & L' & H0 & HT)].
  { left. split; [done|]. right. by exists L. }
  assert (HU0 : rinv L0 s0 ∧ used_ok L0 U s0).
  { destruct H0 as [[-> ->]|HG]; [done|]. split; [by apply HG|by eapply used_grown]. }
  destruct HU0 as [H0' HU0]. destruct (used_taken _ _ _ _ _ _ _ H0' HU0 HT) as [Hnone HU'].
  right. destruct HT as (Hr' & _ & (_ & Hb & _) & _). cbn [fst] in Hb. split; [lia|]. split; [done|]. right. by exists L'.
Qed.

Lemma free_used_wp U s a n :
  uinv U s → U !! a = Some n → wp (free (a + 8)) (λ _ s', uinv (delete a U) s') s.
Proof.
  intros [(_ & -> & _)|(L & H & HU & Hp)] Ha; [by rewrite lookup_empty in Ha|].
  destruct (HU a n Ha) as (Hh & Hs & Hn & Hd). wp_use free_wp; [done|done|done|done|].
  intros _ s' (L' & H' & Hbrk & _ & _ & Hhp & Hdis). right. exists L'. split; [done|]. split.
  - intros b m. rewrite lookup_delete_Some. intros [Hne Hb]. destruct (HU b m Hb) as (Hbh & Hbs & Hbn & Hbd).
    rewrite Hbrk. split_and!; [done| |split; [done|]].
    + rewrite Hhp; [done| |done]. eapply used_not_ring; [done|by apply Hbh|done].
    + apply Hdis; [done|by apply Hp|done].
  - intros b m c l. rewrite !lookup_delete_Some. intros [? ?] [? ?]. by apply Hp.
Qed.

(** The program stores into a block behind its header. *)
Lemma write_ok U s a n x v :
  uinv U s → U !! a = Some n → a < x < a + 8 * n → uinv U (set_hp (hset x v (hp s)) s).
Proof.
  intros [(_ & -> & _)|(L & H & HU & Hp)] Ha Hx; [by rewrite lookup_empty in Ha|].
  destruct (HU a n Ha) as ((Hn & Hb & Hhi) & _ & _ & Hd). cbn [fst snd] in *.
  right. exists L. split; [split|split]; cbn [hp freep brk set_hp]; try by apply H.
  - apply lseg_hset; [|by apply r_ring with (s := s)]. apply not_addr. intros y [->|Hy]%elem_of_cons; [cbn; lia|].
    pose proof (Hd y Hy) as Hdy. destruct (proj1 (Forall_forall _ _) (r_heap _ _ H) _ Hy) as (? & _). unfold disj in Hdy. cbn in Hdy. lia.
  - intros b m Hbm. destruct (HU b m Hbm) as (Hbh & Hbs & Hbd). split_and!; [done| |done].
    destruct Hbh as (Hm & _). cbn in Hm. rewrite hset_other; [done|]. destruct (Z.eq_dec a b) as [<-|Hne]; [lia|].
    pose proof (Hp a n b m Ha Hbm Hne) as Hdb. unfold disj in Hdb. cbn in Hdb. lia.
  - done.
Qed.

Lemma more_brk_ok U s n : uinv U s → 0 < n → brk s + n ≤ 2^31 → uinv U (set_brk (brk s + n) s).
Proof.
  intros [(Hf & -> & Hb)|(L & H & HU & Hp)] Hn Hmax; [left; cbn; split_and!; [done|done|lia|lia]|].
  right. exists L. pose proof (r_brk _ _ H). split; [split|split]; cbn [hp freep brk set_brk]; try by apply H.
  - eapply Forall_impl; [apply (r_heap _ _ H)|]. unfold in_heap. intros x. lia.
  - lia.
  - intros b m Hbm. destruct (HU b m Hbm) as ((? & ? & ?) & Hbs & Hbd). split_and!; [split_and!; cbn in *; lia|done|done].
  - done.
Qed.
End invariant.

(** ** Programs *)

Section programs.
Context (base : Z) (Hbase : 8 ≤ base).
Context (grants : Z → Z → bool) (Hgrants : ∀ b n, grants b n = true → b + n ≤ 2^31).

(** What a program does with its heap: calls of [malloc] and [free], stores into
    the blocks it has, and memory it obtains on its own. *)
Inductive ustep : ust * blocks → ust * blocks → Prop :=
  | ust_malloc s U nbytes r s' :
      0 ≤ nbytes ≤ 2^29 → malloc base grants nbytes s = Ok r s' → r ≠ 0 →
      ustep (s, U) (s', <[r - 8 := units nbytes]> U)
  | ust_malloc_fails s U nbytes s' :
      0 ≤ nbytes ≤ 2^29 → malloc base grants nbytes s = Ok 0 s' → ustep (s, U) (s', U)
  | ust_free s U a n s' :
      U !! a = Some n → free (a + 8) s = Ok tt s' → ustep (s, U) (s', delete a U)
  | ust_write s U a n x v :
      U !! a = Some n → a < x < a + 8 * n → ustep (s, U) (set_hp (hset x v (hp s)) s, U)
  | ust_sbrk s U n :
      0 < n → brk s + n ≤ 2^31 → ustep (s, U) (set_brk (brk s + n) s, U).

Definition heap_reachable (c : ust * blocks) : Prop :=
  ∃ s0, freep s0 = 0 ∧ base + 8 ≤ brk s0 ≤ 2^31 ∧ rtc ustep (s0, ∅) c.

Lemma ustep_ok c c' : uinv base c.2 c.1 → ustep c c' → uinv base c'.2 c'.1.
Proof.
  intros HU Hst. destruct Hst as [s U nb r s' Hn E Hr|s U nb s' Hn E|s U a n s' Ha E|s U a n x v Ha Hx|s U n Hn Hmax]; cbn [fst snd] in *.
  - pose proof (malloc_wp base Hbase grants Hgrants U s nb HU Hn) as H. unfold wp in H. rewrite E in H. naive_solver.
  - pose proof (malloc_wp base Hbase grants Hgrants U s nb HU Hn) as H. unfold wp in H. rewrite E in H. naive_solver.
  - pose proof (free_used_wp base Hbase U s a n HU Ha) as H. unfold wp in H. by rewrite E in H.
  - by eapply write_ok.
  - by apply more_brk_ok.
Qed.
Lemma reachable_ok s U : heap_reachable (s, U) → uinv base U s.
Proof.
  intros (s0 & Hf & Hb & Hsteps). change (uinv base (s, U).2 (s, U).1).
  assert (H0 : uinv base (s0, ∅ : blocks).2 (s0, ∅ : blocks).1) by (by left).
  revert H0 Hsteps. generalize (s0, ∅ : blocks) (s, U). intros c c' H0 Hsteps.
  induction Hsteps as [c|c c1 c2 Hst _ IH]; [done|]. apply IH. by eapply ustep_ok.
Qed.

Lemma uinv_blocks s U :
  uinv base U s →
  (∀ a n b m, U !! a = Some n → U !! b = Some m → a ≠ b → a + 8 * n ≤ b ∨ b + 8 * m ≤ a) ∧
  (∀ a n, U !! a = Some n → base < a ∧ a + 8 * n ≤ brk s).
Proof.
  intros [(_ & -> & _)|(L & H & HU & Hp)]; (split; [intros a n b m Ha Hb' Hab|intros a n Ha]).
  1, 2: by rewrite lookup_empty in Ha.
  - exact (Hp a n b m Ha Hb' Hab).
  - by destruct (HU a n Ha) as ((? & ? & ?) & _).
Qed.

(** C36: Whatever a program does with its heap, blocks in use never overlap and
    lie between the static data and the end of memory; [malloc] of up to 2^29
    bytes returns the null pointer or a block of that many bytes apart from all
    blocks in use (headers included), and [free] of a block in use returns. *)
Theorem malloc_no_overlap s U :
  heap_reachable (s, U) →
  (∀ a n b m, U !! a = Some n → U !! b = Some m → a ≠ b → a + 8 * n ≤ b ∨ b + 8 * m ≤ a) ∧
  (∀ a n, U !! a = Some n → base < a ∧ a + 8 * n ≤ brk s) ∧
  (∀ nbytes, 0 ≤ nbytes ≤ 2^29 → wp (malloc base grants nbytes) (λ r s', r = 0 ∨
    (base < r - 8 ∧ r + nbytes ≤ brk s' ∧ ∀ a n, U !! a = Some n → r + nbytes ≤ a ∨ a + 8 * n ≤ r - 8)) s) ∧
  (∀ a n, U !! a = Some n → wp (free (a + 8)) (λ _ _, True) s).
Proof.
  intros HU%reachable_ok. destruct (uinv_blocks s U HU) as [H1 H2]. split_and!; [done|done| |].
  - intros nb Hnb. destruct (units_bound nb Hnb) as [Hu Hsize]. wp_use malloc_wp; [done..|].
    intros r s' [[-> _]|(Hr & Hnone & HU')]; [by left|right].
    destruct (uinv_blocks s' _ HU') as [H1' H2']. destruct (H2' (r - 8) (units nb)) as [Hb He]; [by apply lookup_insert_eq|].
    split_and!; [done|lia|]. intros a n Ha.
    assert (Hne : r - 8 ≠ a) by (intros <-; by rewrite Hnone in Ha).
    destruct (H1' (r - 8) (units nb) a n) as [?|?]; [by apply lookup_insert_eq|by rewrite lookup_insert_ne|done|left; lia|by right].
  - intros a n Ha. wp_use free_used_wp; [done..|]. done.
Qed.
End programs.

(** Two blocks, and a third in the place of the first; the kernel grants memory
    up to 64 KB. *)
Definition demo_grants (b n : Z) : bool := b + n <=? 0x10000.
Definition demo_heap : ust := mkUst (λ _, (0, 0)) 0 0x1000.
Definition demo_one : ust := after (malloc 0x800 demo_grants 100) demo_heap.
Definition demo_two : ust := after (malloc 0x800 demo_grants 50) demo_one.
Definition demo_freed : ust := after (free 36760) demo_two.

Lemma demo_reachable : heap_reachable 0x800 demo_grants (demo_freed, delete 36752 (<[36688 := 8]> (<[36752 := 14]> ∅))).
Proof.
  exists demo_heap. split; [done|]. split; [cbn; lia|].
  eapply rtc_l; [apply (ust_malloc 0x800 demo_grants demo_heap ∅ 100 36760 demo_one); [lia|refine (after_ok _ _ _ _); vm_compute; reflexivity|done]|].
  eapply rtc_l; [apply (ust_malloc 0x800 demo_grants demo_one _ 50 36696 demo_two); [lia|refine (after_ok _ _ _ _); vm_compute; reflexivity|done]|].
  eapply rtc_l; [apply (ust_free 0x800 demo_grants demo_two _ 36752 14 demo_freed); [done|refine (after_ok _ _ _ _); vm_compute; reflexivity]|].
  apply rtc_refl.
Qed.

Lemma malloc_no_overlap_witness :
  wp (malloc 0x800 demo_grants 90) (λ r _, r = 0 ∨ r + 90 ≤ 36688 ∨ 36688 + 8 * 8 ≤ r - 8) demo_freed.
Proof.
  destruct (malloc_no_overlap 0x800 ltac:(lia) demo_grants) with (2 := demo_reachable) as (_ & _ & H & _).
  { intros b n. unfold demo_grants. rewrite Z.leb_le. lia. }
  eapply wp_mono; [apply (H 90); lia|]. intros r s' [->|(_ & _ & Hr)]; [by left|right]. by apply (Hr 36688 8).
Defined.
