(* ===== verification/File.v ===== *)
(** * Open files (file.c, and pipealloc of pipe.c)

    The table of open files: allocation, reference counts, and reads and writes
    that go to a pipe or to an inode.  A pointer to a [struct file] is its index
    in the table.  Pipes live in pages of the page allocator, which is reached
    through the class [Pages]; the console and other devices are reached through
    [devsw], a parameter as in the model of fs.c. *)

From stdpp Require Import base numbers list strings gmap.
From Stdlib Require Import ZArith Lia.
From S2P Require Import Prelude CString Blocks Log Spinlock Pipe Fs.

#[local] Open Scope Z_scope.

(** src/param.h:5-5 *)
Definition NFILE : nat := 100.

(** src/file.h:2-2 *)
Inductive ftype := FD_NONE | FD_PIPE | FD_INODE.

#[export] Instance ftype_eq_dec : EqDecision ftype.
Proof. solve_decision. Defined.

(** src/file.h:1-9 *)
Record file := mkFile {
  fl_type : ftype;
  fl_ref : Z;
  fl_readable : bool;
  fl_writable : bool;
  fl_pipe : Z;
  fl_ip : option nat;
  fl_off : Z;
}.

Definition set_fl_type v x := mkFile v (fl_ref x) (fl_readable x) (fl_writable x) (fl_pipe x) (fl_ip x) (fl_off x).
Definition set_fl_ref v x := mkFile (fl_type x) v (fl_readable x) (fl_writable x) (fl_pipe x) (fl_ip x) (fl_off x).
Definition set_fl_mode r w x := mkFile (fl_type x) (fl_ref x) r w (fl_pipe x) (fl_ip x) (fl_off x).
Definition set_fl_pipe v x := mkFile (fl_type x) (fl_ref x) (fl_readable x) (fl_writable x) v (fl_ip x) (fl_off x).
Definition set_fl_ip v x := mkFile (fl_type x) (fl_ref x) (fl_readable x) (fl_writable x) (fl_pipe x) v (fl_off x).
Definition set_fl_off v x := mkFile (fl_type x) (fl_ref x) (fl_readable x) (fl_writable x) (fl_pipe x) (fl_ip x) v.

(** The page allocator, as its users call it. *)
Class Pages (X : Type) := {
  pg_alloc : M X Z;
  pg_free : Z → M X unit;
}.

(** The file system below, [ftable], the pipes by the address of their page, and
    the memory -- src/file.c:12-16 *)
Record fstate (S X : Type) := mkFst {
  f_fs : fs S;
  ft_lock : bool;
  ftab : nat → file;
  f_pipes : Z → pipe;
  f_mem : X;
}.
Arguments mkFst {S X} _ _ _ _ _.
Arguments f_fs {S X} _.
Arguments ft_lock {S X} _.
Arguments ftab {S X} _.
Arguments f_pipes {S X} _.
Arguments f_mem {S X} _.

(** How a read or write ends: with a result (and the bytes read), or asleep in a
    pipe with bytes left. *)
Inductive ioret :=
  | IoDone (r : Z) (bs : list Z)
  | IoSleep (rest : list Z).

Section file.
Context {S X : Type} {BO : BufOps S} {PG : Pages X}.
Context (dev_read : Z → option (nat → Z → M (fs S) (Z * list Z))).
Context (dev_write : Z → option (nat → list Z → M (fs S) Z)).
Implicit Types (s : fstate S X).

Definition put_fs (v : fs S) s := mkFst v (ft_lock s) (ftab s) (f_pipes s) (f_mem s).
Definition put_ft_lock v s := mkFst (f_fs s) v (ftab s) (f_pipes s) (f_mem s).
Definition put_ftab v s := mkFst (f_fs s) (ft_lock s) v (f_pipes s) (f_mem s).
Definition put_pipes v s := mkFst (f_fs s) (ft_lock s) (ftab s) v (f_mem s).
Definition put_mem (v : X) s := mkFst (f_fs s) (ft_lock s) (ftab s) (f_pipes s) v.

Definition in_fs {A} (m : M (fs S) A) : M (fstate S X) A := zoom f_fs put_fs m.
Definition in_mem {A} (m : M X A) : M (fstate S X) A := zoom f_mem put_mem m.
Definition the_file (f : nat) : M (fstate S X) file := gets (λ s, ftab s f).
Definition upd_file (f : nat) (g : file → file) : M (fstate S X) unit :=
  modify (λ s, put_ftab (upd (ftab s) f (g (ftab s f))) s).
Definition the_pipe (p : Z) : M (fstate S X) pipe := gets (λ s, f_pipes s p).
Definition set_pipe (p : Z) (v : pipe) : M (fstate S X) unit :=
  modify (λ s, put_pipes (λ x, if x =? p then v else f_pipes s x) s).
Definition ft_acquire : M (fstate S X) unit := acquire ft_lock put_ft_lock.
Definition ft_release : M (fstate S X) unit := release ft_lock put_ft_lock.

(** src/file.c:18-22 *)
Definition fileinit : M (fstate S X) unit := modify (put_ft_lock false).

(** The first file without references -- src/file.c:31-37 *)
Definition free_file (t : nat → file) : option nat := List.find (λ f, fl_ref (t f) =? 0) (seq 0 NFILE).

(** src/file.c:24-40 *)
Definition filealloc : M (fstate S X) (option nat) :=
  ft_acquire;;
  t ← gets ftab;
  match free_file t with
  | Some f =>
      upd_file f (set_fl_ref 1);;
      ft_release;;
      mret (Some f)
  | None => ft_release;; mret None
  end.

(** src/file.c:42-52 *)
Definition filedup (f : nat) : M (fstate S X) nat :=
  ft_acquire;;
  x ← the_file f;
  if fl_ref x <? 1 then panic "filedup" else
  upd_file f (set_fl_ref (s32 (fl_ref x + 1)));;
  ft_release;;
  mret f.

(** [pipeclose] with the page given back -- src/pipe.c:58-74 *)
Definition close_pipe (p : Z) (writable : bool) : M (fstate S X) unit :=
  x ← the_pipe p;
  let '(unused, x) := pipeclose writable x in
  set_pipe p x;;
  if (unused : bool) then in_mem (pg_free p) else mret tt.

(** src/file.c:54-79 *)
Definition fileclose (f : nat) : M (fstate S X) unit :=
  ft_acquire;;
  x ← the_file f;
  if fl_ref x <? 1 then panic "fileclose" else
  upd_file f (set_fl_ref (fl_ref x - 1));;
  if fl_ref x - 1 >? 0 then ft_release else
  ff ← the_file f;
  upd_file f (set_fl_ref 0);;
  upd_file f (set_fl_type FD_NONE);;
  ft_release;;
  match fl_type ff with
  | FD_PIPE => close_pipe (fl_pipe ff) (fl_writable ff)
  | FD_INODE =>
      in_fs (below begin_trans);;
      match fl_ip ff with
      | Some ip => in_fs (iput ip)
      | None => fault "null inode"
      end;;
      in_fs (below commit_trans)
  | FD_NONE => mret tt
  end.

(** The result and the structure filled in -- src/file.c:81-92 *)
Definition filestat (f : nat) : M (fstate S X) (Z * option stat) :=
  x ← the_file f;
  match fl_type x, fl_ip x with
  | FD_INODE, Some ip =>
      in_fs (ilock (Some ip));;
      st ← in_fs (stati ip);
      in_fs (iunlock (Some ip));;
      mret (0, Some st)
  | FD_INODE, None => panic "ilock"
  | _, _ => mret (-1, None)
  end.

(** src/file.c:94-112 *)
Definition fileread (killed : bool) (f : nat) (n : Z) : M (fstate S X) ioret :=
  x ← the_file f;
  if negb (fl_readable x) then mret (IoDone (-1) []) else
  match fl_type x, fl_ip x with
  | FD_PIPE, _ =>
      p ← the_pipe (fl_pipe x);
      let '(r, p) := piperead killed (Z.to_nat n) p in
      set_pipe (fl_pipe x) p;;
      mret (match r with
            | RGot bs => IoDone (Z.of_nat (length bs)) bs
            | RFail => IoDone (-1) []
            | RSleep => IoSleep []
            end)
  | FD_INODE, Some ip =>
      in_fs (ilock (Some ip));;
      r ← in_fs (readi dev_read ip (fl_off x) (w32 n));
      let '(r, bs) := r in
      (if r >? 0 then upd_file f (λ y, set_fl_off (w32 (fl_off y + r)) y) else mret tt);;
      in_fs (iunlock (Some ip));;
      mret (IoDone r bs)
  | FD_INODE, None => panic "ilock"
  | FD_NONE, _ => panic "fileread"
  end.

(** [max] -- src/file.c:132-132 *)
Definition chunk_max : Z := ((Z.of_nat LOGSIZE - 1 - 1 - 2) / 2) * 512.

(** [while(i < n)] over the bytes that are left; the result is [i], which the
    loop leaves early when a write fails -- src/file.c:133-151 *)
Fixpoint filewrite_loop (fuel : nat) (f ip : nat) (i : Z) (src : list Z) : M (fstate S X) Z :=
  match src with
  | [] => mret i
  | _ =>
      match fuel with
      | O => nofuel
      | Datatypes.S fuel =>
          let n1 := Z.min (Z.of_nat (length src)) chunk_max in
          in_fs (below begin_trans);;
          in_fs (ilock (Some ip));;
          x ← the_file f;
          r ← in_fs (writei dev_write ip (take (Z.to_nat n1) src) (fl_off x));
          (if r >? 0 then upd_file f (λ y, set_fl_off (w32 (fl_off y + r)) y) else mret tt);;
          in_fs (iunlock (Some ip));;
          in_fs (below commit_trans);;
          if r <? 0 then mret i else
          if negb (r =? n1) then panic "short filewrite" else
          filewrite_loop fuel f ip (i + r) (drop (Z.to_nat n1) src)
      end
  end.

(** [src] are the [n] bytes at [addr], none if [n] is negative
    -- src/file.c:114-155 *)
Definition filewrite (killed : bool) (f : nat) (src : list Z) (n : Z) : M (fstate S X) ioret :=
  x ← the_file f;
  if negb (fl_writable x) then mret (IoDone (-1) []) else
  match fl_type x, fl_ip x with
  | FD_PIPE, _ =>
      p ← the_pipe (fl_pipe x);
      let '(r, p) := pipewrite killed src p in
      set_pipe (fl_pipe x) p;;
      mret (match r with
            | WDone => IoDone n []
            | WFail => IoDone (-1) []
            | WSleep rest => IoSleep rest
            end)
  | FD_INODE, Some ip =>
      i ← filewrite_loop (length src) f ip 0 src;
      mret (IoDone (if i =? n then n else -1) [])
  | FD_INODE, None => panic "ilock"
  | FD_NONE, _ => panic "filewrite"
  end.

(** The error exit of [pipealloc] -- src/pipe.c:48-55 *)
Definition pipealloc_bad (p : Z) (f0 f1 : option nat) : M (fstate S X) (option (nat * nat)) :=
  (if negb (p =? 0) then in_mem (pg_free p) else mret tt);;
  match f0 with Some f => fileclose f | None => mret tt end;;
  match f1 with Some f => fileclose f | None => mret tt end;;
  mret None.

(** The two files, or the error; [junk] is what the page held
    -- src/pipe.c:21-56 *)
Definition pipealloc (junk : list Z) : M (fstate S X) (option (nat * nat)) :=
  o0 ← filealloc;
  match o0 with
  | None => pipealloc_bad 0 None None
  | Some f0 =>
      o1 ← filealloc;
      match o1 with
      | None => pipealloc_bad 0 (Some f0) None
      | Some f1 =>
          p ← in_mem pg_alloc;
          if p =? 0 then pipealloc_bad 0 (Some f0) (Some f1) else
          set_pipe p (pipe_init junk);;
          upd_file f0 (λ x, set_fl_pipe p (set_fl_mode true false (set_fl_type FD_PIPE x)));;
          upd_file f1 (λ x, set_fl_pipe p (set_fl_mode false true (set_fl_type FD_PIPE x)));;
          mret (Some (f0, f1))
      end
  end.
End file.
