(* ===== verification/Exec.v ===== *)
(** * Running a program (exec.c)

    The kernel's state put together: processes (Proc.v), open files (File.v), the
    file system (Fs.v), the clock, mutexes and console (Syscall.v), and the
    machine's memory behind the class [Machine], which names what proc.c, exec.c
    and sysfile.c ask of vm.c and kalloc.c (ExecVm.v implements it with them).
    [exec] replaces the image of a process.  The theorem: it does so completely or
    not at all, and destroys the address space that is not used any more.  The
    lemmas about the stack are used in ExecVm.v. *)

From stdpp Require Import base numbers list strings gmap.
From Stdlib Require Import ZArith Lia.
From S2P Require Import Prelude CString User Printf Console Blocks Log Spinlock Pipe Fs File Proc Syscall.

#[local] Open Scope Z_scope.

(** Pages, page tables and memory accesses. *)
Class Machine (X : Type) := {
  m_pages :: Pages X;
  m_store : Z → Z → M X unit;                (** a 32-bit store through a pointer *)
  m_load : Z → nat → M X (list Z);           (** bytes read through a pointer *)
  m_store_bytes : Z → list Z → M X unit;     (** bytes stored through a pointer *)
  m_setupkvm : M X Z;
  m_inituvm : Z → M X unit;
  m_copyuvm : Z → Z → M X Z;
  m_freevm : Z → M X unit;
  m_allocuvm : Z → Z → Z → M X Z;
  m_deallocuvm : Z → Z → Z → M X Z;
  m_switchuvm : Z → M X unit;
  m_switchkvm : M X unit;
  m_copyout : Z → Z → list Z → M X Z;
  m_clearpteu : Z → Z → M X unit;
  m_load_page : Z → Z → list Z → M X unit;   (** bytes to the page at a user address *)
  m_trapret : Z;
  m_forkret : Z;
}.

(** Pointers to files and inodes in a process: index + 1, 0 is null. *)
Definition ptr_of (i : nat) : Z := Z.of_nat i + 1.
Definition index_of (p : Z) : nat := Z.to_nat (p - 1).

Section kernel.
Context {S X : Type} {BO : BufOps S} {MA : Machine X}.
Context (dev_read : Z → option (nat → Z → M (fs S) (Z * list Z))).
(** What an uninitialized [name[DIRSIZ]] holds. *)
Context (jname : list Z).
Abbreviation G := (fstate S X * sysglob)%type.
Abbreviation K := (pst G).

Definition on_files {A} (m : M (fstate S X) A) : M G A := zoom fst (λ f g, (f, g.2)) m.
Definition on_mem {A} (m : M X A) : M G A := on_files (in_mem m).
Definition on_fs {A} (m : M (fs S) A) : M G A := on_files (in_fs m).

(** The services of proc.c, by the components that provide them. *)
#[export] Instance kernel_services : Services G := {|
  sv_kalloc := on_mem pg_alloc;
  sv_kfree := λ a, on_mem (pg_free a);
  sv_store := λ a v, on_mem (m_store a v);
  sv_load := λ a n, on_mem (m_load a n);
  sv_setupkvm := on_mem m_setupkvm;
  sv_inituvm := λ d, on_mem (m_inituvm d);
  sv_copyuvm := λ d n, on_mem (m_copyuvm d n);
  sv_freevm := λ d, on_mem (m_freevm d);
  sv_allocuvm := λ d o n, on_mem (m_allocuvm d o n);
  sv_deallocuvm := λ d o n, on_mem (m_deallocuvm d o n);
  sv_switchuvm := λ d, on_mem (m_switchuvm d);
  sv_switchkvm := on_mem m_switchkvm;
  sv_copyout := λ d a bs, on_mem (m_copyout d a bs);
  sv_filedup := λ f, on_files (filedup (index_of f));; mret f;
  sv_fileclose := λ f, on_files (fileclose (index_of f));
  sv_idup := λ i, on_fs (idup (index_of i));; mret i;
  sv_iput := λ i, on_fs (iput (index_of i));
  sv_namei_root := o ← on_fs (namei dev_read 0 [47] jname); mret (match o with Some i => ptr_of i | None => 0 end);
  sv_uptime := gets (λ g, ticks g.2);
  sv_initlog := on_fs (below initlog);
  sv_trapret := m_trapret;
  sv_forkret := m_forkret;
|}.

Definition kmem {A} (m : M X A) : M K A := res (on_mem m).
Definition kfs {A} (m : M (fs S) A) : M K A := res (on_fs m).
Definition kfiles {A} (m : M (fstate S X) A) : M K A := res (on_files m).

(** ** ELF files *)

(** src/elf.h:3-3 *)
Definition ELF_MAGIC : Z := 0x464C457F.
(** src/elf.h:37-37 *)
Definition ELF_PROG_LOAD : Z := 1.
(** src/param.h:10-10 *)
Definition MAXARG : nat := 32.

(** The fields of the header that are used, in its 52 bytes -- src/elf.h:6-22 *)
Record elfhdr := mkElf { e_magic : Z; e_entry : Z; e_phoff : Z; e_phnum : Z }.
Definition get_elf (bs : list Z) : elfhdr :=
  mkElf (get_u32 0 bs) (get_u32 24 bs) (get_u32 28 bs) (get_u16 44 bs).

(** And of a program header, in its 32 bytes -- src/elf.h:25-34 *)
Record proghdr := mkPh { ph_type : Z; ph_off : Z; ph_vaddr : Z; ph_filesz : Z; ph_memsz : Z }.
Definition get_ph (bs : list Z) : proghdr :=
  mkPh (get_u32 0 bs) (get_u32 4 bs) (get_u32 8 bs) (get_u32 16 bs) (get_u32 20 bs).

(** [loaduvm] of vm.c (see Vm.v for the access to the page), page by page from
    the inode; [k] is more than the number of pages. *)
Fixpoint load_pages (k : nat) (pgdir va : Z) (ip : nat) (off sz : Z) : M K Z :=
  if sz <=? 0 then mret 0 else
  match k with
  | O => nofuel
  | Datatypes.S k =>
      let n := Z.min sz 4096 in
      r ← kfs (readi dev_read ip off n);
      let '(c, bs) := r in
      kmem (m_load_page pgdir va bs);;
      if negb (w32 c =? n) then mret (-1) else
      load_pages k pgdir (va + 4096) ip (w32 (off + 4096)) (sz - 4096)
  end.

(** The loop over the program headers; the new size, or the error
    -- src/exec.c:36-48 *)
Fixpoint load_segments (n : nat) (pgdir : Z) (ip : nat) (off sz : Z) : M K (option Z) :=
  match n with
  | O => mret (Some sz)
  | Datatypes.S n =>
      r ← kfs (readi dev_read ip (w32 off) 32);
      let '(c, bs) := r in
      if negb (w32 c =? 32) then mret None else
      let ph := get_ph bs in
      if negb (ph_type ph =? ELF_PROG_LOAD) then load_segments n pgdir ip (off + 32) sz else
      if ph_memsz ph <? ph_filesz ph then mret None else
      sz ← kmem (m_allocuvm pgdir sz (w32 (ph_vaddr ph + ph_memsz ph)));
      if sz =? 0 then mret None else
      if negb (ph_vaddr ph `mod` 4096 =? 0) then panic "loaduvm: addr must be page aligned" else
      r ← load_pages (Datatypes.S (Z.to_nat (ph_filesz ph))) pgdir (ph_vaddr ph) ip (ph_off ph) (ph_filesz ph);
      if r <? 0 then mret None else load_segments n pgdir ip (off + 32) sz
  end.

(** ** The stack *)

(** The argument strings, without their NULs; the pointers in order and the new
    [sp], or the error -- src/exec.c:61-68 *)
Fixpoint push_args (pgdir sp : Z) (argc : nat) (argv : list (list Z)) (ptrs : list Z) : M X (option (Z * list Z)) :=
  match argv with
  | [] => mret (Some (sp, ptrs))
  | a :: argv =>
      if (MAXARG <=? argc)%nat then mret None else
      let sp := Z.land (w32 (sp - (Z.of_nat (length a) + 1))) (w32 (Z.lnot 3)) in
      r ← m_copyout pgdir sp (a ++ [0]);
      if r <? 0 then mret None else push_args pgdir sp (Datatypes.S argc) argv (ptrs ++ [sp])
  end.

(** The strings, and [ustack] below them; the new [sp] -- src/exec.c:60-77 *)
Definition build_stack (pgdir sz : Z) (argv : list (list Z)) : M X (option Z) :=
  o ← push_args pgdir sz 0 argv [];
  match o with
  | None => mret None
  | Some (sp, ptrs) =>
      let argc := Z.of_nat (length argv) in
      let ustack := [0xffffffff; argc; w32 (sp - (argc + 1) * 4)] ++ ptrs ++ [0] in
      let sp := w32 (sp - (3 + argc + 1) * 4) in
      r ← m_copyout pgdir sp (ustack ≫= le_bytes 4);
      mret (if r <? 0 then None else Some sp)
  end.

(** Two more pages, the lower one inaccessible, and the stack in the upper one;
    the new size and [sp] -- src/exec.c:52-77 *)
Definition user_stack (pgdir sz : Z) (argv : list (list Z)) : M X (option (Z * Z)) :=
  let sz := Z.land (w32 (sz + 4095)) (w32 (Z.lnot 4095)) in
  sz ← m_allocuvm pgdir sz (w32 (sz + 2 * 4096));
  if sz =? 0 then mret None else
  m_clearpteu pgdir (w32 (sz - 2 * 4096));;
  o ← build_stack pgdir sz argv;
  mret (match o with Some sp => Some (sz, sp) | None => None end).

(** The part of the path after its last slash -- src/exec.c:79-82 *)
Fixpoint last_elem (path last : list Z) : list Z :=
  match path with
  | [] => last
  | c :: path => last_elem path (if c =? 47 then path else last)
  end.

(** [bad:] -- src/exec.c:95-100 *)
Definition exec_bad (pgdir : Z) (ip : option nat) : M K Z :=
  (if negb (pgdir =? 0) then kmem (m_freevm pgdir) else mret tt);;
  match ip with Some i => kfs (iunlockput i) | None => mret tt end;;
  mret (-1).

(** Replace the image of the process -- src/exec.c:79-93 *)
Definition exec_commit (path : list Z) (pgdir sz entry sp : Z) : M K Z :=
  upd_my (λ p, set_name (copy_name (last_elem path path) (name p)) p);;
  p ← my;
  let oldpgdir := Proc.pgdir p in
  upd_my (set_pgdir pgdir);;
  upd_my (set_sz sz);;
  upd_my (λ x, set_tf (set_tf_eip entry (tf x)) x);;
  upd_my (λ x, set_tf (set_tf_esp sp (tf x)) x);;
  kmem (m_switchuvm pgdir);;
  kmem (m_freevm oldpgdir);;
  mret 0.

(** From the loaded image on: the stack, and the new image -- src/exec.c:52-93 *)
Definition exec_stack (path : list Z) (argv : list (list Z)) (pgdir sz entry : Z) : M K Z :=
  o ← kmem (user_stack pgdir sz argv);
  match o with
  | None => exec_bad pgdir None
  | Some (sz, sp) => exec_commit path pgdir sz entry sp
  end.

(** [jelf] is what [elf] holds before it is read; the comparison of the count
    with [sizeof(elf)] is unsigned -- src/exec.c:10-101 *)
Definition exec (jelf path : list Z) (argv : list (list Z)) : M K Z :=
  p ← my;
  o ← kfs (namei dev_read (index_of (cwd p)) path jname);
  match o with
  | None => mret (-1)
  | Some ip =>
      kfs (ilock (Some ip));;
      r ← kfs (readi dev_read ip 0 52);
      let '(c, bs) := r in
      let elf := get_elf (splice 0 bs jelf) in
      if w32 c <? 52 then exec_bad 0 (Some ip) else
      if negb (e_magic elf =? ELF_MAGIC) then exec_bad 0 (Some ip) else
      pgdir ← kmem m_setupkvm;
      if pgdir =? 0 then exec_bad 0 (Some ip) else
      o ← load_segments (Z.to_nat (e_phnum elf)) pgdir ip (e_phoff elf) 0;
      match o with
      | None => exec_bad pgdir (Some ip)
      | Some sz =>
          kfs (iunlockput ip);;
          exec_stack path argv pgdir sz (e_entry elf)
      end
  end.
End kernel.

(** ** The stack of the new program *)

(** A memory after [bs] were stored at [va]. *)
Definition stored (m : Z → Z) (va : Z) (bs : list Z) (a : Z) : Z :=
  if decide (va ≤ a < va + Z.of_nat (length bs)) then nth (Z.to_nat (a - va)) bs 0 else m a.

(** A C string in memory. *)
Definition str_at (m : Z → Z) (a : Z) (s : list Z) : Prop :=
  ∀ i c, (s ++ [0]) !! i = Some c → m (a + Z.of_nat i) = c.

Lemma str_at_stored m va s : str_at (stored m va (s ++ [0])) va s.
Proof.
  intros i c Hi. pose proof (lookup_lt_Some _ _ _ Hi). unfold stored. rewrite decide_True by lia.
  replace (Z.to_nat (va + Z.of_nat i - va)) with i by lia. by rewrite nth_lookup, Hi.
Qed.

Lemma str_at_ext m m' a s :
  str_at m a s → (∀ b, a ≤ b < a + Z.of_nat (length s) + 1 → m' b = m b) → str_at m' a s.
Proof.
  intros H He i c Hi. pose proof (lookup_lt_Some _ _ _ Hi) as Hl. rewrite length_app in Hl. simpl in Hl.
  rewrite He by lia. by apply H.
Qed.

Lemma words_stored m va ws i w :
  ws !! i = Some w → 0 ≤ w < 2^32 → word_at (stored m va (ws ≫= le_bytes 4)) (va + 4 * Z.of_nat i) = w.
Proof.
  intros Hi Hw. pose proof (lookup_lt_Some _ _ _ Hi). unfold word_at.
  transitivity (le_val (le_bytes 4 w)); [|by rewrite le_val_bytes, Z.mod_small].
  f_equal. rewrite <- (slice_words ws i w Hi). apply list_eq. intros j.
  destruct (decide (j < 4)%nat) as [Hj|Hj].
  - rewrite list_lookup_fmap, lookup_seqZ_lt by lia. rewrite lookup_slice, decide_True by done. cbn [fmap option_fmap option_map].
    unfold stored. rewrite length_words, decide_True by lia.
    replace (Z.to_nat (va + 4 * Z.of_nat i + Z.of_nat j - va)) with (4 * i + j)%nat by lia.
    destruct (lookup_lt_is_Some_2 (ws ≫= le_bytes 4) (4 * i + j)) as [c Hc]; [rewrite length_words; lia|].
    by rewrite nth_lookup, Hc.
  - rewrite !lookup_ge_None_2; [done|rewrite length_slice; [lia|rewrite length_words; lia]|].
    rewrite length_fmap, length_seqZ. lia.
Qed.

Section stack.
Context {X : Type} {MA : Machine X}.
(** An address space: what its stack page, from [lo] to [hi], holds, with an
    invariant under which [copyout] stores inside of that page and fails for the
    page below. *)
Context (pgdir lo hi : Z) (I : X → Prop) (V : X → Z → Z).
Context (Hcopy : ∀ x va bs, I x → lo ≤ va → va + Z.of_nat (length bs) ≤ hi →
  ∃ x', m_copyout pgdir va bs x = Ok 0 x' ∧ I x' ∧ ∀ a, lo ≤ a < hi → V x' a = stored (V x) va bs a).
Context (Hguard : ∀ x va bs, I x → lo - 4096 ≤ va < lo → bs ≠ [] → m_copyout pgdir va bs x = Ok (-1) x).
Context (Hlo : 4096 ≤ lo) (Hhi : hi ≤ 2^31).

(** What the strings take on the stack at most. *)
Definition need (argv : list (list Z)) : Z := foldr (λ a n, Z.of_nat (length a) + 4 + n) 0 argv.

Lemma need_nonneg argv : 0 ≤ need argv.
Proof. induction argv as [|a argv IH]; simpl; lia. Qed.

Lemma align4 z : 0 ≤ z < 2^32 → Z.land z (w32 (Z.lnot 3)) = z / 4 * 4.
Proof. intros Hz. change (w32 (Z.lnot 3)) with (Z.ldiff (Z.ones 32) (Z.ones 2)). by apply land_high. Qed.

(** The next place on the stack: below, aligned; or, when the stack is
    exhausted, in the kernel's half. *)
Lemma next_sp sp n :
  0 ≤ sp ≤ 2^31 → 0 < n ≤ 2^31 →
  let sp' := Z.land (w32 (sp - n)) (w32 (Z.lnot 3)) in
  0 ≤ sp' ∧ sp' `mod` 4 = 0 ∧ (n ≤ sp → sp - n - 3 ≤ sp' ≤ sp - n) ∧ (sp < n → 2^31 ≤ sp').
Proof.
  intros Hsp Hn sp'. subst sp'. rewrite align4 by apply w32_bound. rewrite Z.mod_mul by lia.
  pose proof (w32_bound (sp - n)). pose proof (Z.div_mod (w32 (sp - n)) 4 ltac:(lia)).
  pose proof (Z.mod_pos_bound (w32 (sp - n)) 4 ltac:(lia)).
  split; [lia|]. split; [done|]. split; intros Hc.
  - rewrite w32_small in * by lia. lia.
  - assert (E : w32 (sp - n) = sp - n + 2^32) by (unfold w32; rewrite <- (Z.mod_add _ 1), Z.mod_small by lia; lia).
    rewrite E in *. assert (2^31 / 4 ≤ (sp - n + 2^32) / 4) by (apply Z.div_le_mono; lia). change (2^31 / 4) with (2^29) in *. lia.
Qed.

(** The strings [argv] are at [qs], between [sp'] and [sp]. *)
Definition pushed (m : Z → Z) (sp' sp : Z) (argv : list (list Z)) (qs : list Z) : Prop :=
  length qs = length argv ∧
  ∀ i s q, argv !! i = Some s → qs !! i = Some q → sp' ≤ q ∧ q + Z.of_nat (length s) + 1 ≤ sp ∧ str_at m q s.

Lemma push_args_wp argv sp argc ptrs x :
  I x → lo ≤ sp ≤ hi → Forall (λ a : list Z, Z.of_nat (length a) ≤ 4092) argv →
  wp (push_args pgdir sp argc argv ptrs) (λ o x', I x' ∧
    (∀ sp' ps, o = Some (sp', ps) → ∃ qs, ps = ptrs ++ qs ∧ lo ≤ sp' ≤ sp ∧ pushed (V x') sp' sp argv qs ∧
       (sp `mod` 4 = 0 → sp' `mod` 4 = 0) ∧ ∀ a, lo ≤ a < hi → ¬ sp' ≤ a < sp → V x' a = V x a) ∧
    ((argc + length argv ≤ MAXARG)%nat → lo + need argv ≤ sp → ∃ sp' ps, o = Some (sp', ps) ∧ sp - need argv ≤ sp') ∧
    ((argc ≤ MAXARG < argc + length argv)%nat → o = None)) x.
Proof.
  revert sp argc ptrs x. induction argv as [|a argv IH]; intros sp argc ptrs x Hx Hsp Hlen; cbn [push_args].
  - apply wp_ret. split; [done|]. split; [|split].
    + intros sp' ps [= <- <-]. exists []. rewrite app_nil_r. split; [done|]. split; [lia|]. split; [by split|]. done.
    + intros _ _. eexists _, _. split; [done|]. simpl. lia.
    + simpl. lia.
  - apply Forall_cons in Hlen as [Ha Hlen]. destruct (Nat.leb_spec MAXARG argc) as [Hmax|Hmax].
    { apply wp_ret. split; [done|]. split; [done|]. split; [cbn [length]; lia|done]. }
    cbv zeta. destruct (next_sp sp (Z.of_nat (length a) + 1)) as (H0 & Hal & Hfit & _); [lia|lia|].
    set (sp1 := Z.land _ _) in *. clearbody sp1. specialize (Hfit ltac:(lia)). pose proof (need_nonneg argv) as Hnn.
    destruct (Z.lt_ge_cases sp1 lo) as [Hout|Hin1].
    { apply wp_bind. unfold wp at 1. rewrite (Hguard x sp1 (a ++ [0]) Hx) by (lia || by destruct a). apply wp_ret.
      split; [done|]. split; [done|]. split; [|done]. intros _ Hl. cbn [need foldr] in Hl. fold (need argv) in Hl. lia. }
    destruct (Hcopy x sp1 (a ++ [0]) Hx) as (x1 & E & Hx1 & HV); [lia|rewrite length_app; cbn [length]; lia|].
    apply wp_bind. unfold wp at 1. rewrite E. cbn [Z.ltb Z.compare]. eapply wp_mono; [apply IH; [done|lia|done]|].
    cbn beta. intros o x' (Hx' & Hsome & Hroom & Hmany). split; [done|]. split; [|split].
    + intros sp' ps Ho. destruct (Hsome sp' ps Ho) as (qs & -> & Hsp' & (Hlq & Hq) & Hal' & Hsame).
      exists (sp1 :: qs). rewrite <- app_assoc. split; [done|]. split; [lia|]. split; [|split].
      * split; [simpl; by rewrite Hlq|]. intros [|i] s q; simpl.
        -- intros [= <-] [= <-]. split; [lia|]. split; [lia|]. eapply str_at_ext; [apply (str_at_stored (V x) sp1)|].
           intros b Hb. rewrite Hsame, HV by lia. done.
        -- intros Hs Hqi. destruct (Hq i s q Hs Hqi) as (? & ? & ?). split; [done|]. split; [lia|done].
      * auto.
      * intros b Hr Hb. rewrite Hsame, HV by lia. unfold stored. rewrite length_app, decide_False; [done|]. cbn [length]. lia.
    + intros Hc Hl. cbn [need foldr] in *. fold (need argv) in *. destruct Hroom as (sp' & ps & -> & Hsp'); [simpl in Hc; lia|lia|].
      exists sp', ps. split; [done|]. lia.
    + cbn [length]. intros Hm. apply Hmany. lia.
Qed.

(** What [main(argc, argv)] finds: a false return address, [argc], [argv], and
    there the pointers to the strings and a null pointer. *)
Definition main_stack (m : Z → Z) (sp : Z) (argv : list (list Z)) : Prop :=
  let argc := Z.of_nat (length argv) in
  word_at m sp = 0xffffffff ∧ word_at m (sp + 4) = argc ∧ word_at m (sp + 8) = sp + 12 ∧
  word_at m (sp + 12 + 4 * argc) = 0 ∧
  ∀ i s, argv !! i = Some s → str_at m (word_at m (sp + 12 + 4 * Z.of_nat i)) s.

Lemma word_at_ext m m' a : (∀ b, a ≤ b < a + 4 → m' b = m b) → word_at m' a = word_at m a.
Proof. intros H. unfold word_at. f_equal. apply map_ext_in. intros b Hb%list_elem_of_In%elem_of_seqZ. apply H. lia. Qed.

Lemma main_stack_intro x1 x' sp2 sp argv qs :
  sp = sp2 + 4 * (Z.of_nat (length argv) + 4) → lo ≤ sp2 → sp ≤ hi → pushed (V x1) sp hi argv qs →
  (∀ a, lo ≤ a < hi → V x' a = stored (V x1) sp2 (([0xffffffff; Z.of_nat (length argv); sp2 + 12] ++ qs ++ [0]) ≫= le_bytes 4) a) →
  main_stack (V x') sp2 argv.
Proof.
  intros Esp H0 Hsp [Hlq Hq] HV.
  set (ws := [0xffffffff; Z.of_nat (length argv); sp2 + 12] ++ qs ++ [0]) in HV.
  assert (Hlw : length ws = (length argv + 4)%nat) by (unfold ws; rewrite !length_app, Hlq; simpl; lia).
  assert (Hw : ∀ i w, ws !! i = Some w → 0 ≤ w < 2^32 → word_at (V x') (sp2 + 4 * Z.of_nat i) = w).
  { intros i w Hi Hw. pose proof (lookup_lt_Some _ _ _ Hi). rewrite <- (words_stored (V x1) sp2 ws i w Hi Hw).
    apply word_at_ext. intros b Hb. apply HV. lia. }
  assert (Hqs : ∀ i q, qs !! i = Some q → 0 ≤ q < 2^32 → word_at (V x') (sp2 + 12 + 4 * Z.of_nat i) = q).
  { intros i q Hi Hb. replace (sp2 + 12 + 4 * Z.of_nat i) with (sp2 + 4 * Z.of_nat (3 + i)) by lia.
    apply Hw; [|done]. change (ws !! (3 + i)%nat) with ((qs ++ [0]) !! i). by apply lookup_app_l_Some. }
  split; [|split; [|split; [|split]]].
  - rewrite <- (Hw 0%nat 0xffffffff); [f_equal; lia|done|lia].
  - rewrite <- (Hw 1%nat (Z.of_nat (length argv))); [f_equal; lia|done|lia].
  - rewrite <- (Hw 2%nat (sp2 + 12)); [f_equal; lia|done|lia].
  - rewrite <- (Hw (3 + length argv)%nat 0); [f_equal; lia| |lia].
    change (ws !! (3 + length argv)%nat) with ((qs ++ [0]) !! length argv). rewrite lookup_app_r by lia. by rewrite Hlq, Nat.sub_diag.
  - intros i s Hs. destruct (lookup_lt_is_Some_2 qs i) as [q Hqi]; [rewrite Hlq; by eapply lookup_lt_Some|].
    destruct (Hq i s q Hs Hqi) as (Hge & Hle & Hstr). rewrite (Hqs i q) by (done || lia).
    eapply str_at_ext; [done|]. intros b Hb. rewrite HV by lia. unfold stored. rewrite length_words, decide_False; [done|]. lia.
Qed.

(** The stack is built, or does not fit into its page. *)
Lemma build_stack_wp argv x :
  I x → lo ≤ hi → hi `mod` 4 = 0 → Forall (λ a : list Z, Z.of_nat (length a) ≤ 4092) argv →
  wp (build_stack pgdir hi argv) (λ o x', I x' ∧
    (∀ sp, o = Some sp → sp `mod` 4 = 0 ∧ lo ≤ sp < hi ∧ main_stack (V x') sp argv) ∧
    ((length argv ≤ MAXARG)%nat → lo + need argv + 4 * (Z.of_nat (length argv) + 4) ≤ hi → o ≠ None) ∧
    ((MAXARG < length argv)%nat → o = None)) x.
Proof.
  intros Hx Hlh Hal Hlen. unfold build_stack. apply wp_bind.
  eapply wp_mono; [apply push_args_wp; [done|lia|done]|]. cbn beta. intros o x1 (Hx1 & Hsome & Hroom & Hmany). cbn [Nat.add] in *.
  destruct (decide (MAXARG < length argv)%nat) as [Hgt|Hle].
  { rewrite Hmany by lia. apply wp_ret. split; [done|]. split; [done|]. split; [lia|done]. }
  destruct o as [[sp ps]|].
  2: { apply wp_ret. split; [done|]. split; [done|]. split; [|done]. intros Hc Hl. destruct Hroom as (? & ? & ? & ?); [done|lia..|done]. }
  destruct (Hsome sp ps eq_refl) as (qs & -> & Hsp & (Hlq & Hq) & Hal' & Hsame). clear Hsome. rewrite app_nil_l in *.
  specialize (Hal' Hal). cbv zeta. set (argc := Z.of_nat (length argv)) in *.
  assert (Hargc : 0 ≤ argc ≤ 32 ∧ argc = Z.of_nat (length argv)) by (unfold argc, MAXARG in *; lia).
  set (sp2 := sp - (3 + argc + 1) * 4). rewrite (w32_small sp2), (w32_small (sp - (argc + 1) * 4)) by lia.
  replace (sp - (argc + 1) * 4) with (sp2 + 12) by lia. set (ws := [0xffffffff; argc; sp2 + 12] ++ qs ++ [0]).
  assert (Hws : length (ws ≫= le_bytes 4) = (4 * (length argv + 4))%nat).
  { rewrite length_words. unfold ws. rewrite !length_app, Hlq. simpl. lia. }
  apply wp_bind. unfold wp at 1. destruct (Z.lt_ge_cases sp2 lo) as [Hout|Hin2].
  - rewrite (Hguard x1 sp2 (ws ≫= le_bytes 4) Hx1); [|lia|intros E; rewrite E in Hws; simpl in Hws; lia]. cbn [Z.ltb Z.compare]. apply wp_ret.
    split; [done|]. split; [done|]. split; [|done]. intros Hc Hl. destruct Hroom as (sp' & ps & [= <- <-] & Hge); [done|lia|lia].
  - destruct (Hcopy x1 sp2 (ws ≫= le_bytes 4) Hx1 Hin2) as (x' & E & Hx' & HV); [rewrite Hws; lia|]. rewrite E. apply wp_ret.
    split; [done|]. split; [|split; [done|lia]]. intros sp3 Ho. injection Ho as <-. split; [|split; [lia|]].
    + unfold sp2. rewrite Zminus_mod, Hal', Z.mod_mul by lia. done.
    + apply (main_stack_intro x1 x' sp2 sp argv qs); [unfold sp2; fold argc; lia|lia|lia|by split|exact HV].
Qed.
End stack.

(** ** All or nothing *)

(** What happens to address spaces: one is made, destroyed, or the machine
    switches to it. *)
Inductive space_event := Made (d : Z) | Destroyed (d : Z) | Entered (d : Z).

Section logged.
Context {X : Type} {MA : Machine X}.
Abbreviation LX := (X * list space_event)%type.

Definition quietly {A} (m : M X A) : M LX A := zoom fst (λ x p, (x, p.2)) m.
Definition note (e : space_event) : M LX unit := modify (λ p, (p.1, p.2 ++ [e])).

(** A machine that keeps a record of [setupkvm], [freevm] and [switchuvm]. *)
Definition logged_machine : Machine LX := {|
  m_pages := {| pg_alloc := quietly pg_alloc; pg_free := λ a, quietly (pg_free a) |};
  m_store := λ a v, quietly (m_store a v);
  m_load := λ a n, quietly (m_load a n);
  m_store_bytes := λ a bs, quietly (m_store_bytes a bs);
  m_setupkvm := d ← quietly m_setupkvm; note (Made d);; mret d;
  m_inituvm := λ d, quietly (m_inituvm d);
  m_copyuvm := λ d n, quietly (m_copyuvm d n);
  m_freevm := λ d, quietly (m_freevm d);; note (Destroyed d);
  m_allocuvm := λ d o n, quietly (m_allocuvm d o n);
  m_deallocuvm := λ d o n, quietly (m_deallocuvm d o n);
  m_switchuvm := λ d, quietly (m_switchuvm d);; note (Entered d);
  m_switchkvm := quietly m_switchkvm;
  m_copyout := λ d a bs, quietly (m_copyout d a bs);
  m_clearpteu := λ d a, quietly (m_clearpteu d a);
  m_load_page := λ d a bs, quietly (m_load_page d a bs);
  m_trapret := m_trapret;
  m_forkret := m_forkret;
|}.
End logged.

(** A computation that does not sleep. *)
Definition awake {T A} (m : M T A) : Prop := ∀ s c s', m s ≠ Sleep c s'.

Create HintDb awake.

Lemma awake_ret {T A} (a : A) : awake (mret a : M T A).
Proof. done. Qed.
Lemma awake_gets {T A} (f : T → A) : awake (gets f).
Proof. done. Qed.
Lemma awake_modify {T} (f : T → T) : awake (modify f).
Proof. done. Qed.
Lemma awake_panic {T A} msg : awake (panic msg : M T A).
Proof. done. Qed.
Lemma awake_nofuel {T A} : awake (nofuel : M T A).
Proof. done. Qed.
Lemma awake_if {T A} (b : bool) (m1 m2 : M T A) : awake m1 → awake m2 → awake (if b then m1 else m2).
Proof. by destruct b. Qed.
Lemma awake_bind {T A B} (m : M T A) (f : A → M T B) : awake m → (∀ a, awake (f a)) → awake (m ≫= f).
Proof. intros Hm Hf s c s'. unfold mbind, M_bind. specialize (Hm s). destruct (m s) as [a s1| | |c1 s1|]; try done; [apply Hf|by destruct (Hm c1 s1)]. Qed.
Lemma awake_acquire {T} rd (wr : bool → T → T) : awake (acquire rd wr).
Proof. intros s c s'. unfold acquire. by destruct (rd s). Qed.
Lemma awake_release {T} rd (wr : bool → T → T) : awake (release rd wr).
Proof. intros s c s'. unfold release. by destruct (rd s). Qed.
Lemma awake_zoom {T U A} (rd : T → U) wr (m : M U A) : awake m → awake (zoom rd wr m).
Proof. intros Hm x c x'. unfold zoom. specialize (Hm (rd x)). destruct (m (rd x)) as [| | |c' k|]; try done. by destruct (Hm c' k). Qed.
Lemma awake_for_each {T A} (l : list A) (f : A → M T unit) : (∀ a, awake (f a)) → awake (for_each l f).
Proof. intros Hf. induction l as [|a l IH]; [done|]. by apply awake_bind. Qed.

#[export] Hint Resolve awake_ret awake_gets awake_modify awake_panic awake_nofuel awake_if awake_bind : awake.
#[export] Hint Resolve awake_acquire awake_release awake_zoom awake_for_each : awake.

(** Pages are allocated and freed, and address spaces entered and destroyed,
    without sleeping. *)
Class Awake (X : Type) {MA : Machine X} : Prop := {
  awake_alloc : awake pg_alloc;
  awake_page_free a : awake (pg_free a);
  awake_switch d : awake (m_switchuvm d);
  awake_free d : awake (m_freevm d);
}.

(** What holds when a computation is over, and what holds while it sleeps. *)
Definition ends {T A} (m : M T A) (Q : A → T → Prop) (R : T → Prop) (s : T) : Prop :=
  match m s with Ok a s' => Q a s' | Sleep _ s' => R s' | _ => True end.

Section ends_rules.
Context {T A B : Type}.
Implicit Types (s : T) (R : T → Prop).

Lemma ends_ret (a : A) Q R s : Q a s → ends (mret a) Q R s.
Proof. done. Qed.

Lemma ends_gets (f : T → A) Q R s : Q (f s) s → ends (gets f) Q R s.
Proof. done. Qed.

Lemma ends_modify (f : T → T) Q R s : Q tt (f s) → ends (modify f) Q R s.
Proof. done. Qed.

(** What follows may use how the first part ended. *)
Lemma ends_seq (m : M T A) (f : A → M T B) Q R s :
  ends m (λ a s', m s = Ok a s' → ends (f a) Q R s') R s → ends (m ≫= f) Q R s.
Proof. unfold ends, mbind, M_bind. destruct (m s); try done. intros H. exact (H eq_refl). Qed.

Lemma ends_bind (m : M T A) (f : A → M T B) Q R s :
  ends m (λ a s', ends (f a) Q R s') R s → ends (m ≫= f) Q R s.
Proof. unfold ends, mbind, M_bind. by destruct (m s). Qed.

Lemma ends_mono (m : M T A) (Q P : A → T → Prop) R s :
  ends m Q R s → (∀ a s', Q a s' → P a s') → ends m P R s.
Proof. unfold ends. destruct (m s); auto. Qed.

Lemma ends_weaken (m : M T A) (Q P : A → T → Prop) R R' s :
  ends m Q R s → (∀ a s', Q a s' → P a s') → (∀ s', R s' → R' s') → ends m P R' s.
Proof. unfold ends. destruct (m s); auto. Qed.

Lemma ends_acquire (rd : T → bool) wr (Q : unit → T → Prop) R s : Q tt (wr true s) → ends (acquire rd wr) Q R s.
Proof. unfold ends, acquire. by destruct (rd s). Qed.

Lemma ends_release (rd : T → bool) wr (Q : unit → T → Prop) R s : Q tt (wr false s) → ends (release rd wr) Q R s.
Proof. unfold ends, release. by destruct (rd s). Qed.

Lemma ends_zoom {U} (rd : T → U) (wr : U → T → T) (m : M U A) Q R s :
  ends m (λ a t, Q a (wr t s)) (λ t, R (wr t s)) (rd s) → ends (zoom rd wr m) Q R s.
Proof. unfold ends, zoom. by destruct (m (rd s)). Qed.

Lemma ends_awake (m : M T A) Q R s : awake m → ends m Q (λ _, True) s → ends m Q R s.
Proof. unfold ends. intros Hm. specialize (Hm s). destruct (m s) as [| | |c s'|]; try done. by destruct (Hm c s'). Qed.
End ends_rules.

Lemma ends_for_each {T A} (l : list A) (f : A → M T unit) (I : list A → T → Prop) (Q : unit → T → Prop) (R : T → Prop) s :
  I l s → (∀ x l' s', I (x :: l') s' → ends (f x) (λ _ s'', I l' s'') R s') → (∀ s', I [] s' → Q tt s') → ends (for_each l f) Q R s.
Proof.
  intros HI Hstep Hend. revert s HI. induction l as [|x l IH]; intros s HI; simpl.
  - apply ends_ret. by apply Hend.
  - apply ends_bind. eapply ends_mono; [by apply Hstep|]. intros [] s' HI'. by apply IH.
Qed.

Create HintDb adds.

Section commit.
Context {S X : Type} {BO : BufOps S} {MA : Machine X}.
Context (dev_read : Z → option (nat → Z → M (fs S) (Z * list Z))) (jname : list Z).
#[local] Existing Instance logged_machine.
Abbreviation LX := (X * list space_event)%type.
Abbreviation K := (pst (fstate S LX * sysglob)).
Implicit Types (s : K) (es : list space_event).

(** The record of the machine. *)
Definition spaces s : list space_event := (f_mem (p_res s).1).2.

(** The processes and the open files are as before, and [es] happened. *)
Definition quiet es s s' : Prop :=
  procs s' = procs s ∧ curproc s' = curproc s ∧ ftab (p_res s').1 = ftab (p_res s).1 ∧ spaces s' = spaces s ++ es.

Lemma quiet_refl s : quiet [] s s.
Proof. unfold quiet. by rewrite app_nil_r. Qed.

Lemma quiet_trans es es' s s1 s2 : quiet es s s1 → quiet es' s1 s2 → quiet (es ++ es') s s2.
Proof. intros (A & B & C' & D) (A' & B' & C'' & D'). unfold quiet. rewrite app_assoc. split_and!; congruence. Qed.

(** What runs on the file system is quiet. *)
Lemma ends_kfs {A} (m : M (fs S) A) es s0 s (Q : A → K → Prop) (R : K → Prop) :
  quiet es s0 s → (∀ a s', quiet es s0 s' → Q a s') → (∀ s', quiet es s0 s' → R s') → ends (kfs m) Q R s.
Proof.
  intros Hq HQ HR. assert (H : ∀ s', quiet [] s s' → quiet es s0 s').
  { intros s' H'. pose proof (quiet_trans _ _ _ _ _ Hq H') as H. by rewrite app_nil_r in H. }
  unfold ends, kfs, res, on_fs, on_files, in_fs, zoom. destruct (m (f_fs (p_res s).1)); try done; first [apply HQ|apply HR];
    apply H; unfold quiet, spaces; cbn; by rewrite app_nil_r.
Qed.

(** So is what runs on the memory, but for the record [es']. *)
Definition adds {A} es' (m : M LX A) : Prop := ∀ x, match m x with Ok _ x' => x'.2 = x.2 ++ es' | Sleep _ x' => x'.2 = x.2 | _ => True end.

Lemma ends_kmem {A} (m : M LX A) es es' s0 s (Q : A → K → Prop) (R : K → Prop) :
  adds es' m → quiet es s0 s → (∀ a s', quiet (es ++ es') s0 s' → Q a s') → (∀ s', quiet es s0 s' → R s') → ends (kmem m) Q R s.
Proof.
  intros Hm Hq HQ HR. specialize (Hm (f_mem (p_res s).1)).
  unfold ends, kmem, res, on_mem, on_files, in_mem, zoom. destruct (m (f_mem (p_res s).1)); try done.
  - apply HQ. eapply quiet_trans; [exact Hq|]. by unfold quiet, spaces.
  - apply HR. rewrite <- (app_nil_r es). eapply quiet_trans; [exact Hq|]. unfold quiet, spaces. cbn. by rewrite app_nil_r.
Qed.

Lemma ends_setupkvm es s0 s (Q : Z → K → Prop) (R : K → Prop) :
  quiet es s0 s → (∀ d s', quiet (es ++ [Made d]) s0 s' → Q d s') → (∀ s', quiet es s0 s' → R s') → ends (kmem m_setupkvm) Q R s.
Proof.
  intros Hq HQ HR. unfold ends, kmem, res, on_mem, on_files, in_mem, zoom, m_setupkvm, logged_machine, quietly, note, zoom, mbind, M_bind, modify.
  cbn. destruct (Exec.m_setupkvm (f_mem (p_res s).1).1); try done.
  - apply HQ. eapply quiet_trans; [exact Hq|]. by unfold quiet, spaces.
  - apply HR. rewrite <- (app_nil_r es). eapply quiet_trans; [exact Hq|]. unfold quiet, spaces. cbn. by rewrite app_nil_r.
Qed.

Lemma kmem_ok_run {A} (m : M LX A) a s s' : kmem m s = Ok a s' → ∃ x', m (f_mem (p_res s).1) = Ok a x'.
Proof.
  unfold kmem, res, on_mem, on_files, in_mem, zoom. destruct (m (f_mem (p_res s).1)) as [a' x'| | | |]; try done. intros [= <- _]. by exists x'.
Qed.

Lemma adds_quietly {A} (m : M X A) : adds [] (quietly m).
Proof. intros [x l]. unfold quietly, zoom. cbn. destruct (m x); cbn; by rewrite ?app_nil_r. Qed.

Lemma adds_ret {A} (a : A) : adds [] (mret a : M LX A).
Proof. intros x. cbn. by rewrite app_nil_r. Qed.

Lemma adds_bind {A B} (m : M LX A) (f : A → M LX B) : adds [] m → (∀ a, adds [] (f a)) → adds [] (m ≫= f).
Proof.
  intros Hm Hf x. specialize (Hm x). unfold mbind, M_bind. destruct (m x) as [a x'| | |c x'|]; try done.
  specialize (Hf a x'). rewrite app_nil_r in *. destruct (f a x'); try done; cbn in *; by rewrite Hf.
Qed.

#[local] Hint Resolve adds_quietly adds_ret adds_bind : adds.

Lemma push_args_adds d sp n argv ps : adds [] (push_args d sp n argv ps : M LX _).
Proof.
  revert sp n ps. induction argv as [|a argv IH]; intros sp n ps; cbn [push_args]; [auto with adds|].
  destruct (_ <=? _)%nat; [auto with adds|]. cbv zeta. apply adds_bind; [apply (adds_quietly (m_copyout _ _ _))|].
  intros r. destruct (r <? 0); auto with adds.
Qed.

Lemma user_stack_adds d sz argv : adds [] (user_stack d sz argv : M LX _).
Proof.
  unfold user_stack. cbv zeta. apply adds_bind; [apply (adds_quietly (m_allocuvm _ _ _))|]. intros sz'. destruct (sz' =? 0); [auto with adds|].
  apply adds_bind; [apply (adds_quietly (m_clearpteu _ _))|]. intros _. apply adds_bind; [|auto with adds]. unfold build_stack.
  apply adds_bind; [apply push_args_adds|]. intros [[sp ps]|]; [|auto with adds]. cbv zeta.
  apply adds_bind; [apply (adds_quietly (m_copyout _ _ _))|auto with adds].
Qed.

(** While [exec] waits for the disk nothing has changed for the process. *)
Definition asleep s0 s' : Prop := ∃ es, quiet es s0 s'.

Lemma load_pages_quiet k d va ip off sz es s0 s (Q : Z → K → Prop) :
  quiet es s0 s → (∀ r s', quiet es s0 s' → Q r s') → ends (load_pages dev_read k d va ip off sz) Q (asleep s0) s.
Proof.
  intros Hs HQ. assert (HR : ∀ s', quiet es s0 s' → asleep s0 s') by (by exists es).
  revert va off sz s Hs. induction k as [|k IH]; intros va off sz s Hs; cbn [load_pages];
    (destruct (sz <=? 0); [by apply ends_ret, HQ|]); [done|].
  apply ends_seq. eapply ends_kfs; [done| |done]. intros [c bs] s1 H1 _. apply ends_seq.
  eapply ends_kmem; [apply (adds_quietly (m_load_page _ _ _))|done| |done].
  rewrite app_nil_r. intros _ s2 H2 _. destruct (negb _); [by apply ends_ret, HQ|]. by apply IH.
Qed.

Lemma load_segments_quiet n d ip off sz es s0 s (Q : option Z → K → Prop) :
  quiet es s0 s → (∀ r s', quiet es s0 s' → Q r s') → ends (load_segments dev_read n d ip off sz) Q (asleep s0) s.
Proof.
  intros Hs HQ. assert (HR : ∀ s', quiet es s0 s' → asleep s0 s') by (by exists es).
  revert off sz s Hs. induction n as [|n IH]; intros off sz s Hs; cbn [load_segments]; [by apply ends_ret, HQ|].
  apply ends_seq. eapply ends_kfs; [done| |done]. intros [c bs] s1 H1 _.
  destruct (negb (w32 c =? 32)); [by apply ends_ret, HQ|]. cbv zeta.
  destruct (negb (ph_type _ =? _)); [by apply IH|]. destruct (ph_memsz _ <? _); [by apply ends_ret, HQ|].
  apply ends_seq. eapply ends_kmem; [apply (adds_quietly (m_allocuvm _ _ _))|done| |done]. rewrite app_nil_r. intros sz' s2 H2 _.
  destruct (sz' =? 0); [by apply ends_ret, HQ|]. destruct (negb _); [done|].
  apply ends_seq. eapply load_pages_quiet; [done|]. intros r s3 H3 _.
  destruct (r <? 0); [by apply ends_ret, HQ|]. by apply IH.
Qed.

(** [bad:] destroys the new address space, if there is one. *)
Lemma exec_bad_quiet d o es s0 s :
  quiet es s0 s → ends (exec_bad d o) (λ r s', r = -1 ∧ quiet (es ++ if d =? 0 then [] else [Destroyed d]) s0 s') (asleep s0) s.
Proof.
  intros Hs. unfold exec_bad. set (es' := es ++ _). apply ends_seq.
  assert (H : ∀ s1, quiet es' s0 s1 → ends (match o with Some i => kfs (iunlockput i) | None => mret tt end;; mret (-1))
    (λ r s', r = -1 ∧ quiet es' s0 s') (asleep s0) s1).
  { intros s1 H1. apply ends_seq. destruct o as [i|]; [|by apply ends_ret].
    eapply ends_kfs; [exact H1|by intros _ s2 H2 _|by exists es']. }
  destruct (d =? 0); cbn [negb]; [apply ends_ret; intros _; apply H; unfold es'; by rewrite app_nil_r|].
  eapply ends_kmem; [|exact Hs|intros _ s' H' _; by apply H|by exists es].
  intros [x l]. unfold m_freevm, logged_machine, quietly, note, zoom, mbind, M_bind, modify. cbn. by destruct (Exec.m_freevm d x).
Qed.

(** The image of a process replaced: name, page directory, size, entry point and
    stack pointer. *)
Definition replaced (path : list Z) (pgdir sz entry sp : Z) (p : proc) : proc :=
  let p := set_name (copy_name (last_elem path path) (name p)) p in
  let p := set_sz sz (set_pgdir pgdir p) in
  set_tf (set_tf_esp sp (set_tf_eip entry (tf p))) p.

(** [elf] is the header of the file [path] names, [d] an address space made for
    it, into which its segments are loaded, up to [sz0], and the arguments put on
    top. *)
Definition image_made (me : nat) (jelf path : list Z) (argv : list (list Z)) s (d sz sp : Z) (elf : elfhdr) : Prop :=
  ∃ ip c bs sz0 s1 s2 s3 s4 s5 s6 x', kfs (namei dev_read (index_of (cwd (procs s me))) path jname) s = Ok (Some ip) s1 ∧
    kfs (ilock (Some ip)) s1 = Ok tt s2 ∧ kfs (readi dev_read ip 0 52) s2 = Ok (c, bs) s3 ∧
    52 ≤ w32 c ∧ elf = get_elf (splice 0 bs jelf) ∧ e_magic elf = ELF_MAGIC ∧ kmem m_setupkvm s3 = Ok d s4 ∧
    load_segments dev_read (Z.to_nat (e_phnum elf)) d ip (e_phoff elf) 0 s4 = Ok (Some sz0) s5 ∧
    kfs (iunlockput ip) s5 = Ok tt s6 ∧ user_stack d sz0 argv (f_mem (p_res s6).1) = Ok (Some (sz, sp)) x'.

(** How [exec] ends for the process [me]. *)
Definition exec_failed s s' : Prop :=
  ∃ es, quiet es s s' ∧ (es = [] ∨ es = [Made 0] ∨ ∃ d, d ≠ 0 ∧ es = [Made d; Destroyed d]).
Definition exec_done (me : nat) (jelf path : list Z) (argv : list (list Z)) s s' : Prop :=
  curproc s' = Some me ∧ ftab (p_res s').1 = ftab (p_res s).1 ∧ (∀ j, j ≠ me → procs s' j = procs s j) ∧
  ∃ d sz sp elf, d ≠ 0 ∧ image_made me jelf path argv s d sz sp elf ∧
    procs s' me = replaced path d sz (e_entry elf) sp (procs s me) ∧
    spaces s' = spaces s ++ [Made d; Entered d; Destroyed (pgdir (procs s me))].

(** Process [me] is [p] now, all else is as in [s], and [es] happened. *)
Definition now (me : nat) (p : proc) es s s' : Prop :=
  curproc s' = Some me ∧ ftab (p_res s').1 = ftab (p_res s).1 ∧ procs s' me = p ∧
  (∀ j, j ≠ me → procs s' j = procs s j) ∧ spaces s' = spaces s ++ es.

Lemma ends_upd_my me f p es s0 s (Q : unit → K → Prop) R :
  now me p es s0 s → (∀ s', now me (f p) es s0 s' → Q tt s') → ends (upd_my f) Q R s.
Proof.
  intros (Hc & Hf & Hp & Hj & He) HQ. unfold upd_my, cur, upd_proc, ends, mbind, M_bind, gets. rewrite Hc. cbn [mret M_ret].
  unfold mret, M_ret, modify. apply HQ. unfold now. cbn [curproc p_res procs put_procs]. unfold Spinlock.upd.
  split_and!; [done|done|by rewrite Nat.eqb_refl, Hp| |done]. intros j Hne. rewrite (proj2 (Nat.eqb_neq j me)) by done. by apply Hj.
Qed.

Lemma now_quiet me p es es' s0 s s' : now me p es s0 s → quiet es' s s' → now me p (es ++ es') s0 s'.
Proof.
  intros (Hc & Hf & Hp & Hj & He) (A & B & C' & D). unfold now. rewrite A, app_assoc. split_and!; [congruence|congruence|done|done|congruence].
Qed.

Context {AW : Awake X}.

Lemma ends_kmem_awake {A} (m : M LX A) es s (Q : A → K → Prop) R :
  adds es m → awake m → (∀ a s', quiet es s s' → Q a s') → ends (kmem m) Q R s.
Proof.
  intros Hm Hno HQ. specialize (Hm (f_mem (p_res s).1)). specialize (Hno (f_mem (p_res s).1)).
  unfold ends, kmem, res, on_mem, on_files, in_mem, zoom. destruct (m (f_mem (p_res s).1)) as [| | |c x'|]; try done.
  - apply HQ. by unfold quiet, spaces.
  - by destruct (Hno c x').
Qed.

Lemma noted_adds (m : M X unit) e : awake m → adds [e] (quietly m;; note e) ∧ awake (quietly m;; note e).
Proof.
  intros Hno. split.
  - intros [x l]. unfold quietly, note, zoom, mbind, M_bind, modify. cbn. by destruct (m x).
  - intros [x l] c x'. unfold quietly, note, zoom, mbind, M_bind, modify. cbn. specialize (Hno x). destruct (m x) as [| | |c' y|]; try done.
    by destruct (Hno c' y).
Qed.

Lemma exec_commit_ends me path d sz entry sp es s0 s :
  curproc s0 = Some me → quiet es s0 s →
  ends (exec_commit path d sz entry sp) (λ r s', r = 0 ∧
    now me (replaced path d sz entry sp (procs s0 me)) (es ++ [Entered d; Destroyed (pgdir (procs s0 me))]) s0 s') (asleep s0) s.
Proof using AW.
  intros Hm (A & B & C' & D). assert (Hn : now me (procs s0 me) es s0 s) by (unfold now; rewrite A; split_and!; congruence || done).
  unfold exec_commit. apply ends_seq. eapply ends_upd_my; [exact Hn|]. intros s1 H1 _.
  apply ends_seq. unfold ends at 1. rewrite (my_run me s1) by apply H1. intros _. cbv zeta.
  replace (pgdir (procs s1 me)) with (pgdir (procs s0 me)) by (destruct H1 as (_ & _ & -> & _); done).
  apply ends_seq. eapply ends_upd_my; [exact H1|]. intros s2 H2 _. apply ends_seq. eapply ends_upd_my; [exact H2|]. intros s3 H3 _.
  apply ends_seq. eapply ends_upd_my; [exact H3|]. intros s4 H4 _. apply ends_seq. eapply ends_upd_my; [exact H4|]. intros s5 H5 _.
  destruct (noted_adds (m_switchuvm d) (Entered d) (awake_switch d)) as [E1 E2].
  apply ends_seq. eapply ends_kmem_awake; [exact E1|exact E2|]. intros _ s6 H6 _.
  destruct (noted_adds (m_freevm (pgdir (procs s0 me))) (Destroyed (pgdir (procs s0 me))) (awake_free _)) as [F1 F2].
  apply ends_seq. eapply ends_kmem_awake; [exact F1|exact F2|]. intros _ s7 H7 _. apply ends_ret. split; [done|].
  pose proof (now_quiet _ _ _ _ _ _ _ H5 (quiet_trans _ _ _ _ _ H6 H7)) as H. exact H.
Qed.

(** C31: [exec] replaces the image of the process completely or not at all, and
    destroys the address space that is not used any more, and no other.  When it
    returns -1, the process is as it was, and the address space it had made, if
    any, is destroyed again.  When it returns 0, the process has the address space
    into which the file's segments were loaded, its size with the stack, the entry
    point of the file's header, the stack pointer that the arguments left, and its
    new name; the rest of it (pid, parent, open files, directory) is kept; and the
    machine has entered the new address space before the old one was destroyed.
    While [exec] sleeps (it waits for the disk) the process is as it was.  Other
    processes and the table of open files are untouched in all cases. *)
Theorem exec_all_or_nothing jelf path argv me s :
  curproc s = Some me →
  ends (exec dev_read jname jelf path argv)
    (λ r s', (r = -1 ∧ exec_failed s s') ∨ (r = 0 ∧ exec_done me jelf path argv s s')) (asleep s) s.
Proof using AW.
  intros Hm. set (P := λ (r : Z) s', _ ∨ _).
  assert (Hfail : ∀ es s1, quiet es s s1 → (es = [] ∨ es = [Made 0] ∨ ∃ d, d ≠ 0 ∧ es = [Made d; Destroyed d]) → P (-1) s1).
  { intros es s1 H1 He. left. split; [done|]. by exists es. }
  assert (HR : ∀ es s', quiet es s s' → asleep s s') by (by intros es; exists es).
  assert (Hbad0 : ∀ es o s1, quiet es s s1 → es = [] ∨ es = [Made 0] → ends (exec_bad 0 o) P (asleep s) s1).
  { intros es o s1 H1 He. eapply ends_mono; [by apply exec_bad_quiet|]. intros r s' [-> H']. eapply Hfail; [exact H'|].
    cbn [Z.eqb]. rewrite app_nil_r. tauto. }
  unfold exec. apply ends_seq. unfold ends at 1. rewrite (my_run me s Hm). intros _. apply ends_seq.
  eapply ends_kfs; [apply (quiet_refl s)| |apply HR]. intros [ip|] s1 H1 E1; [|apply ends_ret; eapply Hfail; [exact H1|auto]].
  apply ends_seq. eapply ends_kfs; [exact H1| |apply HR]. intros [] s2 H2 E2. apply ends_seq. eapply ends_kfs; [exact H2| |apply HR].
  intros [c bs] s3 H3 E3. cbv zeta. destruct (Z.ltb_spec (w32 c) 52) as [|Hc]; [eapply Hbad0; [exact H3|auto]|].
  destruct (Z.eqb_spec (e_magic (get_elf (splice 0 bs jelf))) ELF_MAGIC) as [Hmag|]; cbn [negb]; [|eapply Hbad0; [exact H3|auto]].
  apply ends_seq. eapply ends_setupkvm; [exact H3| |apply HR]. intros d s4 H4 E4. cbn [app] in H4.
  destruct (Z.eqb_spec d 0) as [->|Hd]; [eapply Hbad0; [exact H4|auto]|].
  assert (Hbad : ∀ o s1, quiet [Made d] s s1 → ends (exec_bad d o) P (asleep s) s1).
  { intros o s5 H5. eapply ends_mono; [by apply exec_bad_quiet|]. intros r s' [-> H']. eapply Hfail; [exact H'|].
    rewrite (proj2 (Z.eqb_neq d 0) Hd). eauto. }
  apply ends_seq. eapply load_segments_quiet; [exact H4|]. intros [sz0|] s5 H5 E5; [|by apply Hbad].
  apply ends_seq. eapply ends_kfs; [exact H5| |apply HR]. intros [] s6 H6 E6. unfold exec_stack.
  apply ends_seq. eapply ends_kmem; [apply user_stack_adds|exact H6| |apply HR]. rewrite app_nil_r.
  intros [[sz sp]|] s7 H7 E7; [|by apply Hbad]. apply kmem_ok_run in E7 as (x' & E7).
  eapply ends_mono; [by apply exec_commit_ends|]. intros r s' [-> (Gc & Gf & Gp & Gj & Gs)]. right. split; [done|].
  split_and!; try done. exists d, sz, sp, (get_elf (splice 0 bs jelf)). split_and!; [done| |done|done].
  exists ip, c, bs, sz0, s1, s2, s3, s4, s5, s6, x'. by split_and!.
Qed.
End commit.
