(* ===== verification/ExecVm.v ===== *)
(** * [exec] on the page tables of vm.c

    The class [Machine] of Exec.v implemented by kalloc.c and vm.c (Kalloc.v,
    Vm.v): memory, its free pages, and the register that names the current page
    directory; an access through a pointer goes through the page tables.

    The theorems: the stack page that [exec] maps and fills is what the new
    program's [main] finds through its page tables, above a page it cannot
    touch; and [exec] on this machine replaces the image of the process and
    destroys its address space, or neither. *)

From stdpp Require Import base numbers list strings.
From Stdlib Require Import ZArith Lia.
From S2P Require Import Prelude CString Blocks Spinlock Fs File Proc Syscall Exec Kalloc Vm VmMap.

#[local] Open Scope Z_scope.

(** ** The machine *)

(** Memory with its allocator, and the register cr3. *)
Record vmx := mkVmx { x_mem : Kalloc.kmem; cr3 : Z }.

Definition in_vm {A} (m : M Kalloc.kmem A) : M vmx A := zoom x_mem (λ k x, mkVmx k (cr3 x)) m.

(** The byte an address of the program names in an address space. *)
Definition user_at (m : mem) (pgdir a : Z) : Z := p2v (PTE_ADDR (look m pgdir (a / 4096))) + a `mod` 4096.
Definition user_view (m : mem) (pgdir a : Z) : Z := m (user_at m pgdir a).

(** Where a pointer of the running kernel leads: the kernel's half is mapped to
    itself, below are the pages of the process. *)
Definition translate (x : vmx) (a : Z) : option Z :=
  if a >=? KERNBASE then Some a else
  if has (look (k_mem (x_mem x)) (p2v (cr3 x)) (a / 4096)) PTE_P
  then Some (user_at (k_mem (x_mem x)) (p2v (cr3 x)) a) else None.

Definition vm_load (a : Z) (n : nat) : M vmx (list Z) := λ x,
  match mapM (translate x) (seqZ a (Z.of_nat n)) with
  | Some l => Ok (map (k_mem (x_mem x)) l) x
  | None => Fault "page fault"
  end.

Fixpoint vm_store (a : Z) (bs : list Z) : M vmx unit :=
  match bs with
  | [] => mret tt
  | b :: bs =>
      o ← gets (λ x, translate x a);
      match o with
      | Some p => in_vm (modify (λ k, set_mem (CString.upd (k_mem k) p b) k));; vm_store (a + 1) bs
      | None => fault "page fault"
      end
  end.

Section machine.
(** The end of the kernel, its read-only part, the code of the first process,
    the kernel's own page directory, and two addresses of its text. *)
Context (kend data init initsz kpgdir trapret forkret : Z).

(** [lcr3] and the test before it; the task segment is in Seg.v -- src/vm.c:173-175 *)
Definition switchuvm (d : Z) : M vmx unit :=
  if d =? 0 then panic "switchuvm: no pgdir" else modify (λ x, mkVmx (x_mem x) (v2p d)).

(** src/vm.c:157-161 *)
Definition switchkvm : M vmx unit := modify (λ x, mkVmx (x_mem x) (v2p kpgdir)).

(** The page [loaduvm] reads a block of the file into -- src/vm.c:205-212 *)
Definition load_page (d va : Z) (bs : list Z) : M Kalloc.kmem unit :=
  pte ← walkpgdir d va false;
  if pte =? 0 then panic "loaduvm: address should exist" else
  e ← ld pte;
  modify (λ k, set_mem (put_bytes (k_mem k) (p2v (PTE_ADDR e)) bs) k).

(** [copyout] takes a byte at least in every round. *)
#[export] Instance vm_machine : Machine vmx := {|
  m_pages := {| pg_alloc := in_vm kalloc; pg_free := λ a, in_vm (kfree kend a) |};
  m_store := λ a v, vm_store a (le_bytes 4 v);
  m_load := vm_load;
  m_store_bytes := vm_store;
  m_setupkvm := in_vm (setupkvm data);
  m_inituvm := λ d, in_vm (inituvm d init initsz);
  m_copyuvm := λ d n, in_vm (copyuvm kend data d n);
  m_freevm := λ d, in_vm (freevm kend d);
  m_allocuvm := λ d o n, in_vm (allocuvm kend d o n);
  m_deallocuvm := λ d o n, in_vm (deallocuvm kend d o n);
  m_switchuvm := switchuvm;
  m_switchkvm := switchkvm;
  m_copyout := λ d va bs, in_vm (copyout (S (length bs)) d va bs);
  m_clearpteu := λ d a, in_vm (clearpteu d a);
  m_load_page := λ d va bs, in_vm (load_page d va bs);
  m_trapret := trapret;
  m_forkret := forkret;
|}.
End machine.

(** ** The stack page *)

Lemma wp_in_vm {A} (m : M Kalloc.kmem A) (Q : A → vmx → Prop) x :
  wp m (λ a k, Q a (mkVmx k (cr3 x))) (x_mem x) → wp (in_vm m) Q x.
Proof. apply (wp_zoom x_mem (λ k x, mkVmx k (cr3 x))). Qed.

Lemma vm_put_bytes bs : ∀ m a y, 0 ≤ a → a + Z.of_nat (length bs) < 2^32 → put_bytes m a bs y = stored m a bs y.
Proof.
  unfold stored. induction bs as [|b bs IH]; intros m a y Ha Hl; cbn [put_bytes length] in *; [by rewrite decide_False by lia|].
  rewrite w32_small, IH by lia. unfold CString.upd. destruct (Z.eqb_spec y a) as [->|Hne].
  - rewrite decide_False, decide_True by lia. by rewrite Z.sub_diag.
  - repeat case_decide; try lia; try done. replace (Z.to_nat (y - a)) with (S (Z.to_nat (y - (a + 1)))) by lia. done.
Qed.

Section stack_page.
Context (kend : Z) (Hend : KERNBASE < kend ≤ KERNBASE + PHYSTOP).
#[local] Abbreviation is_page := (is_page kend).
#[local] Abbreviation kmem_ok := (kmem_ok kend).
#[local] Abbreviation pt_ok := (pt_ok kend).

(** The entry for a page that the program cannot touch. *)
Definition guard_entry (p : Z) : Z := Z.land (user_entry p) (w32 (Z.lnot PTE_U)).

Lemma user_entry_u p : has (user_entry p) PTE_U = true.
Proof.
  unfold has, user_entry, PTE_U, PTE_W, PTE_P. apply negb_true_iff, Z.eqb_neq. intros E. apply (f_equal (λ x, Z.testbit x 2)) in E.
  rewrite Z.land_spec, !Z.lor_spec, Z.bits_0 in E. cbn in E. by rewrite orb_true_r in E.
Qed.

Lemma guard_entry_parts p :
  is_page p → has (guard_entry p) PTE_P = true ∧ has (guard_entry p) PTE_U = false ∧ 0 ≤ guard_entry p < 2^32.
Proof.
  intros Hp. destruct (v2p_page kend Hend p Hp) as (H1 & H2 & _). unfold guard_entry.
  assert (Hu : 0 ≤ user_entry p < 2^32) by (unfold user_entry; apply map_entry; [done|done|vm_compute; split; [discriminate|reflexivity]]).
  assert (Hb : ∀ k, 0 ≤ k → Z.testbit (Z.land (user_entry p) (w32 (Z.lnot PTE_U))) k = Z.testbit (user_entry p) k && Z.testbit 0xFFFFFFFB k)
    by (intros k Hk; apply Z.land_spec).
  split_and!.
  - unfold has. apply negb_true_iff, Z.eqb_neq. intros E. apply (f_equal (λ x, Z.testbit x 0)) in E.
    rewrite Z.land_spec, Hb, Z.bits_0 in E by lia. unfold user_entry in E. rewrite Z.lor_spec in E.
    change (Z.testbit PTE_P 0) with true in E. by rewrite orb_true_r in E.
  - unfold has. apply negb_false_iff, Z.eqb_eq. rewrite <- Z.land_assoc.
    change (Z.land (w32 (Z.lnot PTE_U)) PTE_U) with 0. apply Z.land_0_r.
  - apply Z.land_nonneg. lia.
  - destruct (decide (Z.land (user_entry p) (w32 (Z.lnot PTE_U)) = 0)) as [->|Hne]; [lia|].
    assert (0 ≤ Z.land (user_entry p) (w32 (Z.lnot PTE_U))) by (apply Z.land_nonneg; lia).
    apply Z.log2_lt_pow2; [lia|]. eapply Z.le_lt_trans; [apply Z.log2_land; [lia|vm_compute; discriminate]|].
    apply Z.min_lt_iff. right. reflexivity.
Qed.

Context (pgdir n p0 p1 : Z) (l : list Z) (m0 : mem) (c0 : Z).
Context (Hn : 0 ≤ n) (Hn2 : n + 2 ≤ 2^19) (P : pt_ok m0 pgdir l).
Context (Hp0 : is_page p0) (Hp1 : is_page p1) (Hl1 : p1 ∉ l) (Hnt : ¬ is_tab m0 pgdir p1).
Context (Hg : look m0 pgdir n = guard_entry p0) (Hs : look m0 pgdir (n + 1) = user_entry p1).

(** Only the stack page has been written since [m0]. *)
Definition only_stack (x : vmx) : Prop :=
  kmem_ok (x_mem x) l ∧ cr3 x = c0 ∧ ∀ a, ¬ (p1 ≤ a < p1 + 4096) → k_mem (x_mem x) a = m0 a.

Lemma only_stack_tables x : only_stack x →
  pt_ok (k_mem (x_mem x)) pgdir l ∧ ∀ i, 0 ≤ i < 2^20 → look (k_mem (x_mem x)) pgdir i = look m0 pgdir i.
Proof using Hend Hnt Hp1 P.
  intros (_ & _ & Hout). destruct (page_written kend Hend m0 pgdir l p1 (k_mem (x_mem x)) P Hp1 Hnt Hout) as (H1 & _ & H2). done.
Qed.

(** [uva2ka] finds the entry of a page. *)
Lemma uva2ka_run k i e (Q : Z → Kalloc.kmem → Prop) :
  pt_ok (k_mem k) pgdir l → 0 ≤ i < 2^19 → look (k_mem k) pgdir i = e → has e PTE_P = true →
  Q (if has e PTE_U then p2v (PTE_ADDR e) else 0) k → wp (uva2ka pgdir (4096 * i)) Q k.
Proof using Hend.
  intros Pk Hi E Hpr HQ. unfold uva2ka. unfold look in E. destruct (tab (k_mem k) pgdir (i / 1024)) as [t|] eqn:Et; [|by rewrite <- E in Hpr].
  destruct (page_index i) as (Hd & Hj & _); [lia|]. destruct (pt_tab _ _ _ _ Pk _ t Hd Et) as (Hpt & _).
  pose proof (page_range kend Hend t Hpt) as Rt. unfold KERNBASE, PHYSTOP in Rt.
  apply wp_bind. eapply (walk_present kend Hend); [exact Pk|lia|exact Et|]. rewrite (proj2 (Z.eqb_neq (t + _) 0)) by lia.
  apply wp_bind, wp_gets. rewrite E, Hpr. cbn [negb]. destruct (has e PTE_U); cbn [negb]; by apply wp_ret.
Qed.

Lemma stack_bounds va i : 4096 * i ≤ va < 4096 * (i + 1) → 0 ≤ i < 2^19 → PGROUNDDOWN va = 4096 * i ∧ va / 4096 = i.
Proof.
  intros Hv Hi. assert (E : va / 4096 = i) by (symmetry; apply (Z.div_unique_pos _ _ _ (va - 4096 * i)); lia).
  split; [|done]. rewrite PGROUNDDOWN_spec by lia. rewrite E. lia.
Qed.

(** What the program sees of its stack page. *)
Lemma stack_view x a : only_stack x → 4096 * (n + 1) ≤ a < 4096 * (n + 2) →
  user_view (k_mem (x_mem x)) pgdir a = k_mem (x_mem x) (p1 + (a - 4096 * (n + 1))).
Proof using Hend Hn Hn2 Hnt Hp1 Hs P.
  intros Hx Ha. destruct (only_stack_tables x Hx) as [_ Hlook]. unfold user_view, user_at.
  destruct (stack_bounds a (n + 1)) as [_ E]; [lia|lia|]. rewrite E, Hlook, Hs by lia.
  destruct (user_entry_parts kend Hend p1 Hp1) as (_ & -> & -> & _). f_equal. rewrite Z.mod_eq, E by lia. done.
Qed.

Lemma copyout_stack fuel x va bs :
  only_stack x → 4096 * (n + 1) ≤ va → va + Z.of_nat (length bs) ≤ 4096 * (n + 2) → (length bs < fuel)%nat →
  ∃ x', in_vm (copyout fuel pgdir va bs) x = Ok 0 x' ∧ only_stack x' ∧
    ∀ a, 4096 * (n + 1) ≤ a < 4096 * (n + 2) → user_view (k_mem (x_mem x')) pgdir a = stored (user_view (k_mem (x_mem x)) pgdir) va bs a.
Proof using Hend Hn Hn2 Hnt Hp1 Hs P Hl1.
  intros Hx Hlo Hhi Hf. destruct (only_stack_tables x Hx) as [Pk Hlook]. pose proof Hx as (Hk & Hc & Hout).
  pose proof (page_range kend Hend p1 Hp1) as R1. unfold KERNBASE, PHYSTOP in R1.
  enough (H : wp (in_vm (copyout fuel pgdir va bs)) (λ r x', r = 0 ∧ only_stack x' ∧
    ∀ a, 4096 * (n + 1) ≤ a < 4096 * (n + 2) → user_view (k_mem (x_mem x')) pgdir a = stored (user_view (k_mem (x_mem x)) pgdir) va bs a) x).
  { apply wp_ok in H as (r & x' & E & -> & H). by exists x'. }
  apply wp_in_vm. destruct fuel as [|fuel]; [lia|]. cbn [copyout].
  destruct (Nat.eqb_spec (length bs) 0) as [E0|E0].
  { apply wp_ret. replace (mkVmx (x_mem x) (cr3 x)) with x by (by destruct x). split; [done|]. split; [done|]. intros a _.
    unfold stored. rewrite decide_False; [done|]. lia. }
  destruct (stack_bounds va (n + 1)) as [-> _]; [lia|lia|]. apply wp_bind.
  destruct (user_entry_parts kend Hend p1 Hp1) as (U1 & U2 & U3 & _).
  eapply uva2ka_run; [exact Pk|lia|rewrite Hlook by lia; exact Hs|done|]. rewrite user_entry_u, U2, U3.
  rewrite (proj2 (Z.eqb_neq p1 0)) by lia. rewrite Z.min_r by (unfold PGSIZE; lia). rewrite Nat2Z.id, firstn_all, drop_all.
  apply wp_bind, wp_modify. rewrite (w32_small (p1 + _)) by lia. destruct fuel as [|fuel]; [lia|]. cbn [copyout length Nat.eqb]. apply wp_ret.
  set (m' := put_bytes _ _ _). assert (Hm' : ∀ y, m' y = stored (k_mem (x_mem x)) (p1 + (va - 4096 * (n + 1))) bs y)
    by (intros y; apply vm_put_bytes; lia).
  assert (Hx' : only_stack (mkVmx (set_mem m' (x_mem x)) (cr3 x))).
  { split; [|split; [done|]]; cbn [x_mem k_mem set_mem].
    - apply (kmem_ok_write kend Hend); [done|]. intros q a Hq Ha. rewrite Hm'. unfold stored. rewrite decide_False; [done|].
      destruct Hk as (_ & _ & Hall & _). rewrite Forall_forall in Hall.
      destruct (page_apart kend q p1); [by apply Hall|done|by intros ->|..]; unfold PGSIZE in *; lia.
    - intros a Ha. rewrite Hm'. unfold stored. rewrite decide_False; [by apply Hout|lia]. }
  split; [done|]. split; [exact Hx'|]. intros a Ha. rewrite (stack_view _ a Hx' Ha). cbn [x_mem k_mem set_mem]. rewrite Hm'.
  unfold stored. repeat case_decide; try lia; [f_equal; lia|]. by rewrite stack_view.
Qed.

Lemma copyout_guard fuel x va bs :
  only_stack x → 4096 * (n + 1) - 4096 ≤ va < 4096 * (n + 1) → bs ≠ [] → (0 < fuel)%nat →
  in_vm (copyout fuel pgdir va bs) x = Ok (-1) x.
Proof using Hend Hg Hn Hn2 Hnt Hp0 Hp1 P.
  intros Hx Hva Hbs Hf. destruct (only_stack_tables x Hx) as [Pk Hlook].
  enough (H : wp (in_vm (copyout fuel pgdir va bs)) (λ r x', r = -1 ∧ x' = x) x) by (apply wp_ok in H as (r & x' & E & -> & ->); done).
  apply wp_in_vm. destruct fuel as [|fuel]; [lia|]. cbn [copyout]. destruct (Nat.eqb_spec (length bs) 0) as [E0|E0]; [by destruct bs|].
  destruct (stack_bounds va n) as [-> _]; [lia|lia|]. apply wp_bind. destruct (guard_entry_parts p0 Hp0) as (G1 & G2 & _).
  eapply uva2ka_run; [exact Pk|lia|rewrite Hlook by lia; exact Hg|done|]. rewrite G2. cbn [Z.eqb]. apply wp_ret. split; [done|]. by destruct x.
Qed.
End stack_page.

(** ** The two pages under the stack pointer *)

Section user_stack.
Context (kend : Z) (Hend : KERNBASE < kend ≤ KERNBASE + PHYSTOP).
#[local] Abbreviation is_page := (is_page kend).
#[local] Abbreviation kmem_ok := (kmem_ok kend).
#[local] Abbreviation pt_ok := (pt_ok kend).
#[local] Abbreviation vm_ext := (vm_ext kend).

(** Page [n] is a page of memory the program cannot touch, page [n + 1] one it can
    read and write; both were free before.  The rest of the address space is as
    it was, and so is every page that was in use, page tables apart. *)
Record stack_pages pgdir m l m' l' (n p0 p1 : Z) : Prop := {
  st_ext : vm_ext pgdir m l m' l';
  st_free p : p = p0 ∨ p = p1 → p ∈ l ∧ p ∉ l' ∧ ¬ is_tab m' pgdir p;
  st_apart : p0 ≠ p1;
  st_guard : look m' pgdir n = guard_entry p0;
  st_stack : look m' pgdir (n + 1) = user_entry p1;
  st_other i : 0 ≤ i < 2^20 → i ≠ n → i ≠ n + 1 → look m' pgdir i = look m pgdir i;
}.

Lemma clearpteu_wp k l pgdir n p (Q : unit → Kalloc.kmem → Prop) :
  kmem_ok k l → pt_ok (k_mem k) pgdir l → 0 ≤ n < 2^20 → is_page p → look (k_mem k) pgdir n = user_entry p →
  (∀ m', kmem_ok (set_mem m' k) l → vm_ext pgdir (k_mem k) l m' l → (∀ q, is_tab m' pgdir q → is_tab (k_mem k) pgdir q) →
    (∀ i, 0 ≤ i < 2^20 → look m' pgdir i = if decide (i = n) then guard_entry p else look (k_mem k) pgdir i) → Q tt (set_mem m' k)) →
  wp (clearpteu pgdir (4096 * n)) Q k.
Proof using Hend.
  intros Hk P Hn Hp E HQ. unfold clearpteu. destruct (page_index n Hn) as (Hd & Hj & En).
  destruct (user_entry_parts kend Hend p Hp) as (U1 & _). pose proof E as E0. unfold look in E0.
  destruct (tab (k_mem k) pgdir (n / 1024)) as [t|] eqn:Et; [|by rewrite <- E0 in U1].
  destruct (pt_tab _ _ _ _ P _ t Hd Et) as (Hpt & Htl & _). pose proof (page_range kend Hend t Hpt) as Rt. unfold KERNBASE, PHYSTOP in Rt.
  destruct (guard_entry_parts kend Hend p Hp) as (_ & _ & Hv).
  apply wp_bind. eapply (walk_present kend Hend); [exact P|done|exact Et|]. rewrite (proj2 (Z.eqb_neq (t + _) 0)) by lia.
  apply wp_bind, wp_gets. rewrite E0. apply wp_modify.
  destruct (store_entry kend Hend _ pgdir l _ t _ (guard_entry p) P Hd Hj Et Hv) as (_ & T1 & T2 & T3).
  apply HQ.
  - apply (kmem_ok_write kend Hend); [done|]. intros q a Hq Ha. apply T3.
    destruct Hk as (_ & _ & Hall & _). rewrite Forall_forall in Hall.
    destruct (page_apart kend q t); [by apply Hall|done|by intros ->|..]; unfold PGSIZE in *; lia.
  - exact (vm_ext_store kend Hend _ _ _ _ _ _ _ P Hd Hj Et Hv).
  - intros q [->|(d & Hd' & Ed)]; [by left|right]. exists d. by rewrite <- T1.
  - intros i Hi. rewrite T2 by done. by rewrite <- En.
Qed.

(** Writing to the stack page changes nothing of this. *)
Lemma stack_pages_write pgdir m l m1 l1 n p0 p1 m' :
  stack_pages pgdir m l m1 l1 n p0 p1 → Forall is_page l → 0 ≤ n → n + 2 ≤ 2^20 →
  (∀ a, ¬ (p1 ≤ a < p1 + 4096) → m' a = m1 a) → stack_pages pgdir m l m' l1 n p0 p1.
Proof using Hend.
  intros S Hall Hn Hn2 Hout. destruct (st_free _ _ _ _ _ _ _ _ S p1) as (F1 & F2 & F3); [by right|].
  rewrite Forall_forall in Hall. pose proof (Hall p1 F1) as Hp1.
  destruct (page_written kend Hend m1 pgdir l1 p1 m' (ve_ok _ _ _ _ _ _ (st_ext _ _ _ _ _ _ _ _ S)) Hp1 F3 Hout) as (P' & T & L).
  assert (Ht : ∀ q, is_tab m' pgdir q → is_tab m1 pgdir q).
  { intros q [->|(d & Hd & Ed)]; [by left|right]. exists d. by rewrite <- T. }
  split.
  - destruct S as [[V1 V2 V3 V4 V5] _ _ _ _ _]. split; [done|done| | |].
    + intros d t Hd E. rewrite T by done. by apply V3.
    + intros q Hq. by apply V4, Ht.
    + intros q Hq Hql Hqt a Ha. rewrite Hout; [by apply (V5 q)|].
      destruct (page_apart kend q p1); [done|done|by intros ->|..]; unfold PGSIZE in *; lia.
  - intros p Hp. destruct (st_free _ _ _ _ _ _ _ _ S p Hp) as (G1 & G2 & G3). split_and!; [done|done|]. by intros H%Ht.
  - apply S.
  - rewrite L by lia. apply S.
  - rewrite L by lia. apply S.
  - intros i Hi H0 H1. rewrite L by done. by apply (st_other _ _ _ _ _ _ _ _ S).
Qed.

Context (data init initsz kpgdir trapret forkret : Z).
#[local] Instance machine : Machine vmx := vm_machine kend data init initsz kpgdir trapret forkret.

Lemma round_up sz : 0 ≤ sz → 4096 * (pages_up sz + 2) < KERNBASE →
  Z.land (w32 (sz + 4095)) (w32 (Z.lnot 4095)) = 4096 * pages_up sz ∧ 0 ≤ pages_up sz ∧
  pages_up (4096 * pages_up sz) = pages_up sz ∧ pages_up (4096 * (pages_up sz + 2)) = pages_up sz + 2.
Proof.
  unfold KERNBASE. intros Hsz Hlt. assert (Hn : 0 ≤ pages_up sz) by (apply Z.div_pos; lia).
  assert (Hup : ∀ i, pages_up (4096 * i) = i) by (intros i; unfold pages_up; symmetry; apply (Z.div_unique_pos _ _ _ 4095); lia).
  rewrite !Hup. split_and!; [|done|done|done].
  assert (sz + 4095 < 2^32) by (unfold pages_up in *; pose proof (Z.div_mod (sz + 4095) 4096); pose proof (Z.mod_pos_bound (sz + 4095) 4096); lia).
  rewrite w32_small by lia. change 4095 with 0xFFF at 2. rewrite land_mask by lia. unfold pages_up. lia.
Qed.

(** The two pages are mapped and the lower one is closed to the program. *)
Lemma stack_pages_made k l pgdir n :
  kmem_ok k l → pt_ok (k_mem k) pgdir l → 0 ≤ n → 4096 * (n + 2) < KERNBASE →
  (∀ i, n ≤ i < n + 2 → has (look (k_mem k) pgdir i) PTE_P = false) →
  (2 + missing (k_mem k) pgdir n 2 ≤ length l)%nat →
  wp (allocuvm kend pgdir (4096 * n) (4096 * (n + 2))) (λ r k1, r = 4096 * (n + 2) ∧
    wp (clearpteu pgdir (4096 * n)) (λ _ k2, ∃ l' p0 p1, kmem_ok k2 l' ∧
      stack_pages pgdir (k_mem k) l (k_mem k2) l' n p0 p1) k1) k.
Proof using Hend.
  intros Hk P Hn Hlt Hun Hl. pose proof Hlt as Hlt'. unfold KERNBASE in Hlt'.
  assert (Hup : ∀ i, pages_up (4096 * i) = i) by (intros i; unfold pages_up; symmetry; apply (Z.div_unique_pos _ _ _ 4095); lia).
  pose proof (allocuvm_success kend Hend k l pgdir (4096 * n) (4096 * (n + 2)) Hk P ltac:(lia) Hlt) as H. cbv zeta in H. rewrite !Hup in H.
  replace (Z.to_nat (n + 2 - n)) with 2%nat in H by lia. specialize (H Hun Hl). eapply wp_mono; [exact H|]. cbn beta.
  intros r k1 (-> & l' & pgs & Hk1 & Hpgs & [N1 N2 N3 N4 N5 N6]). split; [done|].
  destruct pgs as [|p0 [|p1 [|? ?]]]; try done. destruct Hk as (_ & _ & Hall & _). rewrite Forall_forall in Hall.
  assert (Hp0 : is_page p0) by (apply Hall, (N3 p0), list_elem_of_here).
  eapply clearpteu_wp; [done|apply N1|lia|exact Hp0|rewrite <- (Z.add_0_r n); by apply (N4 0%nat)|].
  intros m' Hk' Hext Htab Hlook. exists l', p0, p1. split; [done|]. split.
  - by eapply (vm_ext_trans kend).
  - intros p Hp. destruct (N3 p) as (G1 & G2 & G3); [rewrite !elem_of_cons; tauto|]. split_and!; [done|done|]. by intros G%Htab.
  - apply NoDup_cons in N2 as [N2 _]. intros ->. apply N2, list_elem_of_here.
  - rewrite Hlook by lia. by rewrite decide_True.
  - rewrite Hlook by lia. rewrite decide_False by lia. by apply (N4 1%nat).
  - intros i Hi H0 H1. rewrite Hlook, decide_False by done. apply N6; [done|cbn [length]; lia].
Qed.

(** C30: the stack of a new program (the [user_stack] part of [exec]), on the
    kernel's page tables.  Let the image end below page [n] of a well-formed
    address space in which pages [n] and [n + 1] are not mapped, with free memory
    for them.  Then two pages that were free are mapped there, the lower one
    closed to the program and the upper one open; no other page of the address
    space and no page of memory that was in use changes (page tables apart).
    When a stack pointer is returned, it is aligned, it points into the upper
    page, and what the program sees there through its page tables is what [main]
    expects: a return address, argc, a pointer to argv, the array with one
    pointer for each argument and a null pointer after them, and at each of the
    pointers the argument with its terminating 0.  It is returned whenever the
    arguments fit on the page; more than 32 arguments are refused.
    (Stated for arguments shorter than a page: the copy of a longer one starts
    below the closed page.) *)
Theorem exec_stack_layout x l pgdir sz argv :
  let n := pages_up sz in
  kmem_ok (x_mem x) l → pt_ok (k_mem (x_mem x)) pgdir l → 0 ≤ sz → 4096 * (n + 2) < KERNBASE →
  (∀ i, n ≤ i < n + 2 → has (look (k_mem (x_mem x)) pgdir i) PTE_P = false) →
  (2 + missing (k_mem (x_mem x)) pgdir n 2 ≤ length l)%nat →
  Forall (λ a : list Z, Z.of_nat (length a) ≤ 4092) argv →
  wp (user_stack pgdir sz argv) (λ o x', cr3 x' = cr3 x ∧
    (∃ l' p0 p1, kmem_ok (x_mem x') l' ∧ stack_pages pgdir (k_mem (x_mem x)) l (k_mem (x_mem x')) l' n p0 p1) ∧
    (∀ sz' sp, o = Some (sz', sp) → sz' = 4096 * (n + 2) ∧ sp `mod` 4 = 0 ∧ 4096 * (n + 1) ≤ sp < sz' ∧
      main_stack (user_view (k_mem (x_mem x')) pgdir) sp argv) ∧
    ((length argv ≤ MAXARG)%nat → need argv + 4 * (Z.of_nat (length argv) + 4) ≤ 4096 → o ≠ None) ∧
    ((MAXARG < length argv)%nat → o = None)) x.
Proof using Hend.
  intros n Hk P Hsz Hlt Hun Hl Hargs. pose proof Hlt as Hlt'. unfold KERNBASE in Hlt'. destruct (round_up sz Hsz Hlt) as (E1 & Hn & _). fold n in E1, Hn.
  unfold user_stack. rewrite E1. cbv zeta. rewrite (w32_small (4096 * n + _)) by lia. replace (4096 * n + 2 * 4096) with (4096 * (n + 2)) by lia.
  apply wp_bind, wp_in_vm. eapply wp_mono; [by apply (stack_pages_made _ l)|]. cbn beta. intros r k1 (-> & H2).
  rewrite (proj2 (Z.eqb_neq _ 0)) by lia. rewrite w32_small by lia. replace (4096 * (n + 2) - 2 * 4096) with (4096 * n) by lia.
  apply wp_bind, wp_in_vm. eapply wp_mono; [exact H2|]. cbn beta. intros _ k2 (l' & p0 & p1 & Hk2 & S).
  assert (Hall : Forall is_page l) by apply Hk. pose proof Hall as Hall'. rewrite Forall_forall in Hall'.
  destruct (st_free _ _ _ _ _ _ _ _ S p0 ltac:(by left)) as (A0 & _). destruct (st_free _ _ _ _ _ _ _ _ S p1 ltac:(by right)) as (A1 & B1 & C1).
  pose proof (Hall' p0 A0) as Hp0. pose proof (Hall' p1 A1) as Hp1. pose proof (ve_ok _ _ _ _ _ _ (st_ext _ _ _ _ _ _ _ _ S)) as P2.
  apply wp_bind. eapply wp_mono; [eapply (build_stack_wp pgdir (4096 * (n + 1)) (4096 * (n + 2)) (only_stack kend p1 l' (k_mem k2) (cr3 x))
    (λ x, user_view (k_mem (x_mem x)) pgdir))|].
  - intros y va bs Hy H3 H4. by eapply (copyout_stack kend Hend pgdir n p1 l' (k_mem k2) (cr3 x)); try done; try lia; try apply S.
  - intros y va bs Hy H3 H4. eapply (copyout_guard kend Hend pgdir n p0 p1 l' (k_mem k2) (cr3 x)); try done; try lia; apply S.
  - lia.
  - lia.
  - split_and!; done.
  - lia.
  - replace (4096 * (n + 2)) with (0 + (1024 * (n + 2)) * 4) by lia. by rewrite Z.mod_add.
  - done.
  - cbn beta. intros o x' ((Hk' & Hc & Hout) & R1 & R2 & R3). apply wp_ret. split; [done|]. split_and!.
    + exists l', p0, p1. split; [done|]. eapply stack_pages_write; [done|done|lia|lia|done].
    + intros sz' sp Ho. destruct o as [sp'|]; [|done]. injection Ho as <- <-. destruct (R1 sp' eq_refl) as (? & ? & ?). done.
    + intros H3 H4. destruct o; [done|]. exfalso. apply R2; [done|lia|done].
    + intros H3. by rewrite R3.
Qed.
End user_stack.

(** ** Switching and freeing do not sleep *)

Lemma awake_in_vm {A} (m : M Kalloc.kmem A) : awake m → awake (in_vm m).
Proof. apply awake_zoom. Qed.
#[local] Hint Resolve awake_in_vm : awake.

Lemma kfree_awake kend a : awake (kfree kend a).
Proof. unfold kfree, k_acquire, k_release. auto 12 with awake. Qed.
Lemma kalloc_awake : awake kalloc.
Proof. unfold kalloc, k_acquire, k_release. auto 12 with awake. Qed.
#[local] Hint Resolve kfree_awake kalloc_awake : awake.

Lemma walkpgdir_awake d va b : awake (walkpgdir d va b).
Proof. unfold walkpgdir, ld, st, fill0. cbv zeta. auto 12 with awake. Qed.
#[local] Hint Resolve walkpgdir_awake : awake.

Lemma dealloc_loop_awake kend fuel : ∀ d a o, awake (dealloc_loop kend fuel d a o).
Proof. induction fuel as [|fuel IH]; intros d a o; cbn [dealloc_loop]; unfold ld, st; cbv zeta; auto 12 with awake. Qed.
#[local] Hint Resolve dealloc_loop_awake : awake.

Lemma freevm_awake kend d : awake (freevm kend d).
Proof.
  unfold freevm, deallocuvm. apply awake_if; [auto with awake|]. apply awake_bind; [|unfold ld; auto 12 with awake].
  apply awake_if; [auto with awake|]. apply awake_bind; [apply dealloc_loop_awake|auto with awake].
Qed.

#[export] Instance vm_awake kend data init initsz kpgdir trapret forkret : Awake vmx (MA:=vm_machine kend data init initsz kpgdir trapret forkret).
Proof.
  split; [|intros a; apply awake_in_vm, kfree_awake| |intros d; apply awake_in_vm, freevm_awake].
  - apply awake_in_vm, kalloc_awake.
  - intros d. unfold m_switchuvm, vm_machine, switchuvm. auto with awake.
Qed.

(** ** A sample *)

(** Two arguments on the pages at 0 and 4096 of an empty address space. *)
Lemma exec_stack_layout_witness :
  ∃ k, wp (user_stack (MA:=vm_machine sample_end 0 0 0 0 0 0) vm_dir 0 [[108; 115]; [45; 97]])
    (λ o x', ∃ sp, o = Some (8192, sp) ∧ 4096 ≤ sp < 8192 ∧ main_stack (user_view (k_mem (x_mem x')) vm_dir) sp [[108; 115]; [45; 97]])
    (mkVmx k 0).
Proof.
  destruct vm_sample as (k & Hk & P & Htab). exists k.
  eapply wp_mono; [apply (exec_stack_layout sample_end sample_end_ok 0 0 0 0 0 0 (mkVmx k 0) vm_free vm_dir 0)|].
  - exact Hk.
  - exact P.
  - lia.
  - done.
  - intros i Hi. change (pages_up 0) with 0 in Hi. unfold look. rewrite Htab; [done|].
    split; [apply Z.div_pos; lia|apply Z.div_lt_upper_bound; lia].
  - change (pages_up 0) with 0. unfold missing. change (seqZ _ _) with [0]. cbn [List.filter x_mem].
    rewrite (no_tab_none _ _ _ (Htab 0 ltac:(lia))). vm_compute. lia.
  - by repeat constructor.
  - cbn beta. intros o x' (_ & _ & H1 & H2 & _). destruct o as [[sz sp]|].
    + exists sp. destruct (H1 sz sp eq_refl) as (-> & _ & H). split; [done|exact H].
    + exfalso. apply H2; [unfold MAXARG; simpl; lia|vm_compute; discriminate|done].
Defined.
