(* ===== verification/Sysfile.v ===== *)
(** * System calls on files (sysfile.c)

    The calls that work on descriptors, paths and pipes, over open files
    (File.v), the file system (Fs.v) and the argument checks of syscall.c.  They
    are the instance of [FileCalls] that the dispatcher uses.  Their theorem is
    in Refs.v. *)

From stdpp Require Import base numbers list strings gmap.
From Stdlib Require Import ZArith Lia.
From S2P Require Import Prelude CString User Printf Console Blocks Log Spinlock Pipe Fs File Proc Syscall Exec.

#[local] Open Scope Z_scope.

(** What uninitialized variables of these functions hold. *)
Record junk := mkJunk {
  j_name : list Z;
  j_dirent : dirent;
  j_page : list Z;
  j_elf : list Z;
}.

Section sysfile.
Context {S X : Type} {BO : BufOps S} {MA : Machine X}.
Context (dev_read : Z → option (nat → Z → M (fs S) (Z * list Z))).
Context (dev_write : Z → option (nat → list Z → M (fs S) Z)).
Context (J : junk).
Abbreviation G := (fstate S X * sysglob)%type.
Abbreviation K := (pst G).
#[local] Existing Instance kernel_services.
#[local] Instance ks : Services G := kernel_services dev_read (j_name J).

Definition begin_op : M K unit := kfs (below begin_trans).
Definition end_op : M K unit := kfs (below commit_trans).

(** [ofile[fd]], and a store to it. *)
Definition set_fd (fd : nat) (v : Z) : M K unit := upd_my (λ p, set_ofile (<[fd := v]> (ofile p)) p).

(** The descriptor and the file -- src/sysfile.c:17-34 *)
Definition argfd (n : Z) : M K (option (nat * nat)) :=
  o ← argint n;
  match o with
  | None => mret None
  | Some fd =>
      if (fd <? 0) || (fd >=? Z.of_nat NOFILE) then mret None else
      p ← my;
      let f := nth (Z.to_nat fd) (ofile p) 0 in
      if f =? 0 then mret None else mret (Some (Z.to_nat fd, index_of f))
  end.

(** src/sysfile.c:36-50 *)
Definition fdalloc (f : nat) : M K (option nat) :=
  p ← my;
  match List.find (λ fd, nth fd (ofile p) 0 =? 0) (seq 0 NOFILE) with
  | Some fd => set_fd fd (ptr_of f);; mret (Some fd)
  | None => mret None
  end.

(** src/sysfile.c:52-64 *)
Definition sys_dup : M K callres :=
  o ← argfd 0;
  match o with
  | None => mret (Ret (-1))
  | Some (_, f) =>
      o ← fdalloc f;
      match o with
      | None => mret (Ret (-1))
      | Some fd => kfiles (filedup f);; mret (Ret (Z.of_nat fd))
      end
  end.

(** A read with checked arguments, also when it is woken up -- src/sysfile.c:75-75 *)
Definition read_file (f : nat) (p n : Z) : M K callres :=
  me ← my;
  r ← kfiles (fileread dev_read (killed me) f n);
  match r with
  | IoDone v bs => kmem (m_store_bytes p bs);; mret (Ret v)
  | IoSleep _ => mret (InRead f p n)
  end.

(** src/sysfile.c:66-76 *)
Definition sys_read : M K callres :=
  o ← argfd 0;
  match o with
  | None => mret (Ret (-1))
  | Some (_, f) =>
      o ← argint 2;
      match o with
      | None => mret (Ret (-1))
      | Some n =>
          o ← argptr 1 n;
          match o with
          | None => mret (Ret (-1))
          | Some p => read_file f p n
          end
      end
  end.

(** The bytes that are left to write -- src/sysfile.c:87-87 *)
Definition write_file (f : nat) (src : list Z) (n : Z) : M K callres :=
  me ← my;
  r ← kfiles (filewrite dev_write (killed me) f src n);
  match r with
  | IoDone v _ => mret (Ret v)
  | IoSleep rest => mret (InWrite f rest n)
  end.

(** src/sysfile.c:78-88 *)
Definition sys_write : M K callres :=
  o ← argfd 0;
  match o with
  | None => mret (Ret (-1))
  | Some (_, f) =>
      o ← argint 2;
      match o with
      | None => mret (Ret (-1))
      | Some n =>
          o ← argptr 1 n;
          match o with
          | None => mret (Ret (-1))
          | Some p => src ← kmem (m_load p (Z.to_nat n)); write_file f src n
          end
      end
  end.

(** src/sysfile.c:90-101 *)
Definition sys_close : M K callres :=
  o ← argfd 0;
  match o with
  | None => mret (Ret (-1))
  | Some (fd, f) =>
      set_fd fd 0;;
      kfiles (fileclose f);;
      mret (Ret 0)
  end.

(** The fields [stati] assigns; the padding between them keeps its bytes
    -- src/stat.h:5-11 *)
Definition store_stat (p : Z) (st : stat) : M K unit :=
  kmem (m_store_bytes p (le_bytes 2 (st_type st)));;
  kmem (m_store_bytes (p + 4) (le_bytes 4 (st_dev st)));;
  kmem (m_store_bytes (p + 8) (le_bytes 4 (st_ino st)));;
  kmem (m_store_bytes (p + 12) (le_bytes 2 (st_nlink st)));;
  kmem (m_store_bytes (p + 16) (le_bytes 4 (st_size st))).

(** src/sysfile.c:103-112 *)
Definition sys_fstat : M K callres :=
  o ← argfd 0;
  match o with
  | None => mret (Ret (-1))
  | Some (_, f) =>
      o ← argptr 1 20;
      match o with
      | None => mret (Ret (-1))
      | Some p =>
          r ← kfiles (filestat f);
          match r with
          | (v, Some st) => store_stat p st;; mret (Ret v)
          | (v, None) => mret (Ret v)
          end
      end
  end.

(** ** Paths *)

(** The string [argstr] found; [None] for an error. *)
Definition argpath (n : Z) : M K (option (list Z)) :=
  r ← argstr n;
  match r with
  | (len, Some p) => if len <? 0 then mret None else s ← kmem (m_load p (Z.to_nat len)); mret (Some s)
  | (_, None) => mret None
  end.

Definition my_cwd : M K nat := p ← my; mret (index_of (cwd p)).
Definition knamei (path : list Z) : M K (option nat) :=
  c ← my_cwd; kfs (namei dev_read c path (j_name J)).
Definition knameiparent (path : list Z) : M K (option (nat * list Z)) :=
  c ← my_cwd; kfs (nameiparent dev_read c path (j_name J)).
Definition klink (dp : nat) (nm : list Z) (inum : Z) : M K Z :=
  kfs (dirlink dev_read dev_write (j_dirent J) dp nm inum).

(** [bad:] -- src/sysfile.c:153-159 *)
Definition link_bad (ip : nat) : M K callres :=
  kfs (ilock (Some ip));;
  kfs (upd_inode ip (λ x, set_i_nlink (s16 (i_nlink x - 1)) x));;
  kfs (iupdate ip);;
  kfs (iunlockput ip);;
  end_op;;
  mret (Ret (-1)).

(** src/sysfile.c:114-160 *)
Definition sys_link : M K callres :=
  o ← argpath 0;
  match o with
  | None => mret (Ret (-1))
  | Some old =>
      o ← argpath 1;
      match o with
      | None => mret (Ret (-1))
      | Some new =>
          o ← knamei old;
          match o with
          | None => mret (Ret (-1))
          | Some ip =>
              begin_op;;
              kfs (ilock (Some ip));;
              x ← kfs (the_inode ip);
              if i_type x =? T_DIR then kfs (iunlockput ip);; end_op;; mret (Ret (-1)) else
              kfs (upd_inode ip (λ x, set_i_nlink (s16 (i_nlink x + 1)) x));;
              kfs (iupdate ip);;
              kfs (iunlock (Some ip));;
              o ← knameiparent new;
              match o with
              | None => link_bad ip
              | Some (dp, nm) =>
                  kfs (ilock (Some dp));;
                  d ← kfs (the_inode dp);
                  x ← kfs (the_inode ip);
                  r ← (if negb (i_dev d =? i_dev x) then mret (-1) else klink dp nm (i_inum x));
                  if r <? 0 then kfs (iunlockput dp);; link_bad ip else
                  kfs (iunlockput dp);;
                  kfs (iput ip);;
                  end_op;;
                  mret (Ret 0)
              end
          end
      end
  end.

(** The entries after "." and ".."; every round reads 16 bytes
    -- src/sysfile.c:169-175 *)
Fixpoint dir_entries (k : nat) (dp : nat) (off : Z) : M (fs S) bool :=
  x ← the_inode dp;
  if off <? i_size x then
    match k with
    | O => nofuel
    | Datatypes.S k =>
        r ← readi dev_read dp off 16;
        let '(n, bs) := r in
        if negb (n =? 16) then panic "isdirempty: readi" else
        if negb (de_inum (get_dirent bs) =? 0) then mret false else dir_entries k dp (off + 16)
    end
  else mret true.

(** src/sysfile.c:162-176 *)
Definition isdirempty (dp : nat) : M (fs S) bool :=
  x ← the_inode dp; dir_entries (Datatypes.S (Z.to_nat (i_size x))) dp 32.

(** [bad:] -- src/sysfile.c:228-231 *)
Definition unlink_bad (dp : nat) : M K callres := kfs (iunlockput dp);; end_op;; mret (Ret (-1)).

(** With the directory and the inode locked -- src/sysfile.c:204-226 *)
Definition unlink_entry (dp ip : nat) (off : Z) : M K callres :=
  x ← kfs (the_inode ip);
  if i_nlink x <? 1 then panic "unlink: nlink < 1" else
  e ← (if i_type x =? T_DIR then kfs (isdirempty ip) else mret true);
  if negb e then kfs (iunlockput ip);; unlink_bad dp else
  n ← kfs (writei dev_write dp (replicate 16 0) off);
  if negb (n =? 16) then panic "unlink: writei" else
  x ← kfs (the_inode ip);
  (if i_type x =? T_DIR then
     kfs (upd_inode dp (λ x, set_i_nlink (s16 (i_nlink x - 1)) x));;
     kfs (iupdate dp)
   else mret tt);;
  kfs (iunlockput dp);;
  kfs (upd_inode ip (λ x, set_i_nlink (s16 (i_nlink x - 1)) x));;
  kfs (iupdate ip);;
  kfs (iunlockput ip);;
  end_op;;
  mret (Ret 0).

(** src/sysfile.c:178-232 *)
Definition sys_unlink : M K callres :=
  o ← argpath 0;
  match o with
  | None => mret (Ret (-1))
  | Some path =>
      o ← knameiparent path;
      match o with
      | None => mret (Ret (-1))
      | Some (dp, nm) =>
          begin_op;;
          kfs (ilock (Some dp));;
          if (namecmp nm [46; 0] =? 0) || (namecmp nm [46; 46; 0] =? 0) then unlink_bad dp else
          r ← kfs (dirlookup dev_read dp nm);
          match r with
          | None => unlink_bad dp
          | Some (ip, off) => kfs (ilock (Some ip));; unlink_entry dp ip off
          end
      end
  end.
(** The new inode, with its entries if it is a directory -- src/sysfile.c:254-276 *)
Definition create_new (dp : nat) (nm : list Z) (ty major minor : Z) : M K (option nat) :=
  d ← kfs (the_inode dp);
  ip ← kfs (ialloc (i_dev d) ty);
  kfs (ilock (Some ip));;
  kfs (upd_inode ip (λ x, set_i_nlink 1 (set_i_minor minor (set_i_major major x))));;
  kfs (iupdate ip);;
  x ← kfs (the_inode ip);
  (if ty =? T_DIR then
     kfs (upd_inode dp (λ x, set_i_nlink (s16 (i_nlink x + 1)) x));;
     kfs (iupdate dp);;
     r ← klink ip [46; 0] (i_inum x);
     r ← (if r <? 0 then mret r else klink ip [46; 46; 0] (i_inum d));
     if r <? 0 then panic "create dots" else mret tt
   else mret tt);;
  r ← klink dp nm (i_inum x);
  if r <? 0 then panic "create: dirlink" else
  kfs (iunlockput dp);;
  mret (Some ip).

(** The inode is returned locked -- src/sysfile.c:234-277 *)
Definition create (path : list Z) (ty major minor : Z) : M K (option nat) :=
  o ← knameiparent path;
  match o with
  | None => mret None
  | Some (dp, nm) =>
      kfs (ilock (Some dp));;
      r ← kfs (dirlookup dev_read dp nm);
      match r with
      | Some (ip, _) =>
          kfs (iunlockput dp);;
          kfs (ilock (Some ip));;
          x ← kfs (the_inode ip);
          if (ty =? T_FILE) && (i_type x =? T_FILE) then mret (Some ip)
          else kfs (iunlockput ip);; mret None
      | None => create_new dp nm ty major minor
      end
  end.

(** The inode a path opens, locked -- src/sysfile.c:289-303 *)
Definition open_inode (path : list Z) (omode : Z) : M K (option nat) :=
  if negb (Z.land omode O_CREATE =? 0) then
    begin_op;;
    ip ← create path T_FILE 0 0;
    end_op;;
    mret ip
  else
    o ← knamei path;
    match o with
    | None => mret None
    | Some ip =>
        kfs (ilock (Some ip));;
        x ← kfs (the_inode ip);
        if (i_type x =? T_DIR) && negb (omode =? 0) then kfs (iunlockput ip);; mret None
        else mret (Some ip)
    end.

(** src/sysfile.c:279-319 *)
Definition sys_open : M K callres :=
  o ← argpath 0;
  match o with
  | None => mret (Ret (-1))
  | Some path =>
      o ← argint 1;
      match o with
      | None => mret (Ret (-1))
      | Some omode =>
          o ← open_inode path omode;
          match o with
          | None => mret (Ret (-1))
          | Some ip =>
              o ← kfiles filealloc;
              match o with
              | None => kfs (iunlockput ip);; mret (Ret (-1))
              | Some f =>
                  o ← fdalloc f;
                  match o with
                  | None => kfiles (fileclose f);; kfs (iunlockput ip);; mret (Ret (-1))
                  | Some fd =>
                      kfs (iunlock (Some ip));;
                      let w := negb (Z.land omode O_WRONLY =? 0) in
                      kfiles (upd_file f (λ x, set_fl_mode (negb w) (w || negb (Z.land omode O_RDWR =? 0))
                        (set_fl_off 0 (set_fl_ip (Some ip) (set_fl_type FD_INODE x)))));;
                      mret (Ret (Z.of_nat fd))
                  end
              end
          end
      end
  end.

(** [create] for a path, and its result closed again -- src/sysfile.c:328-334 *)
Definition make_node (o : option (list Z)) (ty major minor : Z) : M K callres :=
  ip ← (match o with None => mret None | Some path => create path ty major minor end);
  match ip with
  | None => end_op;; mret (Ret (-1))
  | Some ip => kfs (iunlockput ip);; end_op;; mret (Ret 0)
  end.

(** src/sysfile.c:321-335 *)
Definition sys_mkdir : M K callres :=
  begin_op;;
  o ← argpath 0;
  make_node o T_DIR 0 0.

(** The device numbers become [short]s -- src/sysfile.c:337-356 *)
Definition sys_mknod : M K callres :=
  begin_op;;
  o ← argpath 0;
  match o with
  | None => make_node None T_DEV 0 0
  | Some path =>
      o1 ← argint 1;
      match o1 with
      | None => make_node None T_DEV 0 0
      | Some major =>
          o2 ← argint 2;
          match o2 with
          | None => make_node None T_DEV 0 0
          | Some minor => make_node o T_DEV (s16 major) (s16 minor)
          end
      end
  end.

(** src/sysfile.c:358-375 *)
Definition sys_chdir : M K callres :=
  o ← argpath 0;
  match o with
  | None => mret (Ret (-1))
  | Some path =>
      o ← knamei path;
      match o with
      | None => mret (Ret (-1))
      | Some ip =>
          kfs (ilock (Some ip));;
          x ← kfs (the_inode ip);
          if negb (i_type x =? T_DIR) then kfs (iunlockput ip);; mret (Ret (-1)) else
          kfs (iunlock (Some ip));;
          c ← my_cwd;
          kfs (iput c);;
          upd_my (set_cwd (ptr_of ip));;
          mret (Ret 0)
      end
  end.

(** The loop over [argv]: [n] places are left -- src/sysfile.c:388-399 *)
Fixpoint fetch_args (n : nat) (uargv : Z) (argv : list (list Z)) : M K (option (list (list Z))) :=
  match n with
  | O => mret None
  | Datatypes.S n =>
      o ← fetchint (w32 uargv);
      match o with
      | None => mret None
      | Some uarg =>
          if w32 uarg =? 0 then mret (Some argv) else
          r ← fetchstr (w32 uarg);
          match r with
          | (len, Some p) =>
              if len <? 0 then mret None else
              s ← kmem (m_load p (Z.to_nat len));
              fetch_args n (uargv + 4) (argv ++ [s])
          | (_, None) => mret None
          end
      end
  end.

(** src/sysfile.c:377-401 *)
Definition sys_exec : M K callres :=
  o ← argpath 0;
  match o with
  | None => mret (Ret (-1))
  | Some path =>
      o ← argint 1;
      match o with
      | None => mret (Ret (-1))
      | Some uargv =>
          o ← fetch_args MAXARG (w32 uargv) [];
          match o with
          | None => mret (Ret (-1))
          | Some argv => r ← exec dev_read (j_name J) (j_elf J) path argv; mret (Ret r)
          end
      end
  end.

(** src/sysfile.c:403-425 *)
Definition sys_pipe : M K callres :=
  o ← argptr 0 8;
  match o with
  | None => mret (Ret (-1))
  | Some fd =>
      o ← kfiles (pipealloc (j_page J));
      match o with
      | None => mret (Ret (-1))
      | Some (rf, wf) =>
          o0 ← fdalloc rf;
          match o0 with
          | None =>
              kfiles (fileclose rf);; kfiles (fileclose wf);; mret (Ret (-1))
          | Some fd0 =>
              o1 ← fdalloc wf;
              match o1 with
              | None =>
                  set_fd fd0 0;;
                  kfiles (fileclose rf);; kfiles (fileclose wf);; mret (Ret (-1))
              | Some fd1 =>
                  kmem (m_store fd (Z.of_nat fd0));;
                  kmem (m_store (fd + 4) (Z.of_nat fd1));;
                  mret (Ret 0)
              end
          end
      end
  end.

(** The entries of the table that are calls of this file -- src/syscall.c:110-140 *)
#[export] Instance sysfile_calls : FileCalls K := {|
  file_call := λ num,
    match num with
    | 4 => sys_pipe
    | 5 => sys_read
    | 7 => sys_exec
    | 8 => sys_fstat
    | 9 => sys_chdir
    | 10 => sys_dup
    | 15 => sys_open
    | 16 => sys_write
    | 17 => sys_mknod
    | 18 => sys_unlink
    | 19 => sys_link
    | 20 => sys_mkdir
    | 21 => sys_close
    | _ => mret (Ret (-1))
    end
|}.
End sysfile.
