(* ===== verification/Refs.v ===== *)
(** * Descriptors and reference counts

    Whatever calls on files a process makes (sysfile.c), and across [fork] and
    [exit] (proc.c), the reference count of every open file (file.c) is the
    number of descriptors that refer to it: a file in use is never closed or
    given out again, and one without descriptors is free.  Calls may sleep in the
    file system and others run meanwhile; then the exception is a process that
    sleeps in [exit] between counting a file down and clearing its descriptor.

    Most of the kernel does not matter for this: [Calm m] says that [m] changes
    neither descriptors, nor counts, nor the states of processes, where it
    returns and where it sleeps; a hint database closes it under the monad. *)

From stdpp Require Import base numbers list strings gmap.
From Stdlib Require Import ZArith Lia.
From S2P Require Import Prelude CString User Printf Console Blocks Log Spinlock Pipe Fs File Proc Syscall Exec Sysfile.

#[local] Open Scope Z_scope.

(** ** Counting *)

(** How often [v] is in a list. *)
Definition occurs (v : Z) (l : list Z) : Z := Z.of_nat (length (filter (λ x, x = v) l)).
Definition one (b : bool) : Z := if b then 1 else 0.

Lemma occurs_cons v x l : occurs v (x :: l) = one (x =? v) + occurs v l.
Proof.
  unfold occurs, one. rewrite filter_cons. destruct (Z.eqb_spec x v); [rewrite decide_True by done|rewrite decide_False by done]; simpl length; lia.
Qed.

Lemma occurs_insert v l k w :
  (k < length l)%nat → occurs v (<[k := w]> l) = occurs v l - one (nth k l 0 =? v) + one (w =? v).
Proof.
  revert k. induction l as [|x l IH]; intros k Hk; [simpl in Hk; lia|].
  destruct k as [|k]; simpl in *.
  - rewrite !occurs_cons. lia.
  - rewrite !occurs_cons, IH by lia. lia.
Qed.

Lemma occurs_bound v l : 0 ≤ occurs v l ≤ Z.of_nat (length l).
Proof. unfold occurs. pose proof (length_filter (λ x, x = v) l). lia. Qed.

Lemma occurs_zero v l : v ≠ 0 → Forall (λ x, x = 0) l → occurs v l = 0.
Proof.
  intros Hv. induction 1 as [|x l -> _ IH]; [done|]. rewrite occurs_cons, IH. by rewrite (proj2 (Z.eqb_neq 0 v)).
Qed.

Lemma zeros_nth l : Forall (λ x, x = 0) l ↔ ∀ k, nth k l 0 = 0.
Proof.
  split.
  - induction 1 as [|x l -> _ IH]; intros [|k]; simpl; auto.
  - intros H. apply Forall_lookup. intros k x Hx. specialize (H k). by rewrite nth_lookup, Hx in H.
Qed.

Lemma occurs_pos v l k : nth k l 0 = v → v ≠ 0 → 1 ≤ occurs v l.
Proof.
  revert k. induction l as [|x l IH]; intros k Hk Hv; [by destruct k|]. rewrite occurs_cons. pose proof (occurs_bound v l).
  destruct k as [|k]; simpl in Hk; [rewrite (proj2 (Z.eqb_eq x v) Hk); simpl; lia|]. pose proof (IH k Hk Hv). destruct (x =? v); simpl; lia.
Qed.

Lemma occurs_two v l k k' : k ≠ k' → nth k l 0 = v → nth k' l 0 = v → v ≠ 0 → 2 ≤ occurs v l.
Proof.
  intros Hne H1 H2 Hv. destruct (decide (k < length l)%nat) as [Hl|Hl]; [|rewrite nth_overflow in H1 by lia; congruence].
  pose proof (occurs_insert v l k 0 Hl) as E. rewrite H1, Z.eqb_refl, (proj2 (Z.eqb_neq 0 v)) in E by done. unfold one in E.
  assert (1 ≤ occurs v (<[k := 0]> l)); [|lia]. apply (occurs_pos v _ k'); [|done].
  by rewrite nth_lookup, list_lookup_insert_ne, <- nth_lookup.
Qed.

(** A sum over the process table. *)
Definition total (f : nat → Z) : Z := foldr (λ j n, f j + n) 0 table.

Lemma foldr_sum_upd (f g : nat → Z) i l :
  NoDup l → i ∈ l → (∀ j, j ≠ i → g j = f j) →
  foldr (λ j n, g j + n) 0 l = foldr (λ j n, f j + n) 0 l - f i + g i.
Proof.
  induction 1 as [|x l Hx Hnd IH]; [by intros ?%elem_of_nil|]. intros Hi Hfg. simpl.
  assert (Hout : i ∉ l → foldr (λ j n, g j + n) 0 l = foldr (λ j n, f j + n) 0 l).
  { clear -Hfg. induction l as [|y l IH]; [done|]. intros [Hy Hl]%not_elem_of_cons. simpl. rewrite IH, Hfg by done. done. }
  destruct (decide (x = i)) as [->|Hne].
  - rewrite Hout by done. lia.
  - apply elem_of_cons in Hi as [->|Hi]; [done|]. rewrite IH, (Hfg x) by done. lia.
Qed.

Lemma total_upd f g i : (i < NPROC)%nat → (∀ j, j ≠ i → g j = f j) → total g = total f - f i + g i.
Proof.
  intros Hi. apply foldr_sum_upd; [apply NoDup_seq|]. apply elem_of_seq. unfold NPROC in *. lia.
Qed.

Lemma total_ext f g : (∀ j, g j = f j) → total g = total f.
Proof. intros H. unfold total. induction table as [|x l IH]; [done|]. simpl. by rewrite H, IH. Qed.

Lemma total_bound f b : (∀ j, 0 ≤ f j ≤ b) → 0 ≤ total f ≤ 64 * b.
Proof.
  intros H. unfold total. assert (Hl : 0 ≤ foldr (λ j n, f j + n) 0 table ≤ Z.of_nat (length table) * b).
  { induction table as [|x l IH]; simpl length; cbn [foldr]; [lia|]. pose proof (H x). lia. }
  unfold table in Hl at 3. rewrite length_seq in Hl. unfold NPROC in Hl. lia.
Qed.

Lemma total_ge f i : (i < NPROC)%nat → (∀ j, 0 ≤ f j) → f i ≤ total f.
Proof.
  intros Hi Hf. unfold total. assert (Hin : i ∈ table) by (by apply table_elem). revert Hin.
  assert (H0 : ∀ l, 0 ≤ foldr (λ j n, f j + n) 0 l) by (induction l as [|x l IH]; simpl; [lia|pose proof (Hf x); lia]).
  induction table as [|x l IH]; [by intros ?%elem_of_nil|]. simpl. pose proof (Hf x). pose proof (H0 l). intros [->|Hin]%elem_of_cons; [lia|].
  specialize (IH Hin). lia.
Qed.

Lemma total_sub f g : total (λ j, f j - g j) = total f - total g.
Proof. unfold total. induction table as [|x l IH]; simpl; [done|]. rewrite IH. lia. Qed.

(** ** What does not matter *)

(** The states in which a process has no open files. *)
Definition bare (st : procstate) : bool :=
  match st with UNUSED | EMBRYO | ZOMBIE => true | _ => false end.

Section calm.
Context {S X : Type} {BO : BufOps S} {MA : Machine X}.
Context (dev_read : Z → option (nat → Z → M (fs S) (Z * list Z))).
Context (dev_write : Z → option (nat → list Z → M (fs S) Z)).
Context (J : junk).
Abbreviation F := (fstate S X).
Abbreviation G := (fstate S X * sysglob)%type.
Abbreviation K := (pst G).
#[local] Instance services : Services G := kernel_services dev_read (j_name J).

Definition refs (f : F) (i : nat) : Z := fl_ref (ftab f i).

(** An entry that is free has no type, as [fileclose] leaves it. *)
Definition blank (f : F) : Prop := ∀ i, refs f i = 0 → fl_type (ftab f i) = FD_NONE.

(** The counts are the same. *)
Definition fsame (f f' : F) : Prop := (∀ i, refs f' i = refs f i) ∧ (blank f → blank f').

Lemma fsame_trans f f1 f2 : fsame f f1 → fsame f1 f2 → fsame f f2.
Proof. intros [A B] [A' B']. split; [intros i; congruence|auto]. Qed.

Definition FCalm {A} (m : M F A) : Prop := ∀ f, ends m (λ _ f', fsame f f') (fsame f) f.

Lemma fcalm_ret {A} (a : A) : FCalm (mret a).
Proof. intros f. by apply ends_ret. Qed.
Lemma fcalm_bind {A B} (m : M F A) (k : A → M F B) : FCalm m → (∀ a, FCalm (k a)) → FCalm (m ≫= k).
Proof.
  intros Hm Hk f. apply ends_bind. eapply ends_mono; [apply Hm|]. cbn beta. intros a f1 H1.
  eapply ends_weaken; [apply Hk|..]; cbn beta; intros; by eapply fsame_trans.
Qed.
Lemma fcalm_gets {A} (g : F → A) : FCalm (gets g).
Proof. intros f. by apply ends_gets. Qed.
Lemma fcalm_panic {A} msg : FCalm (panic (A:=A) msg).
Proof. done. Qed.
Lemma fcalm_fault {A} msg : FCalm (fault (A:=A) msg).
Proof. done. Qed.
Lemma fcalm_nofuel {A} : FCalm (nofuel (A:=A)).
Proof. done. Qed.
Lemma fcalm_fs {A} (m : M (fs S) A) : FCalm (in_fs m).
Proof. intros f. apply ends_zoom. unfold ends. by destruct (m (f_fs f)). Qed.
Lemma fcalm_mem {A} (m : M X A) : FCalm (in_mem m).
Proof. intros f. apply ends_zoom. unfold ends. by destruct (m (f_mem f)). Qed.
Lemma fcalm_pipe p v : FCalm (set_pipe p v).
Proof. intros f. by apply ends_modify. Qed.

(** An entry is changed, but not its count. *)
Lemma ends_upd_file n g (Q : unit → F → Prop) R f :
  fl_ref (g (ftab f n)) = refs f n → fl_type (g (ftab f n)) = fl_type (ftab f n) ∨ refs f n ≠ 0 →
  (∀ f', fsame f f' → ftab f' n = g (ftab f n) → (∀ i, i ≠ n → ftab f' i = ftab f i) → Q tt f') → ends (upd_file n g) Q R f.
Proof.
  intros Hr Ht HQ. apply ends_modify. set (f' := put_ftab _ f).
  assert (E : ftab f' n = g (ftab f n)) by (cbn; unfold upd; by rewrite Nat.eqb_refl).
  assert (Ei : ∀ i, i ≠ n → ftab f' i = ftab f i) by (intros i Hi; cbn; unfold upd; by rewrite (proj2 (Nat.eqb_neq i n))).
  clearbody f'. apply HQ; [|done|done]. split.
  - intros i. destruct (decide (i = n)) as [->|Hi]; unfold refs; [by rewrite E|by rewrite Ei].
  - intros Hb i. destruct (decide (i = n)) as [->|Hi]; [|unfold refs; rewrite Ei by done; apply Hb].
    unfold refs at 1. rewrite E, Hr. intros Hz. destruct Ht as [->|]; [by apply Hb|done].
Qed.
Lemma fcalm_upd n g : (∀ x, fl_ref (g x) = fl_ref x ∧ fl_type (g x) = fl_type x) → FCalm (upd_file n g).
Proof. intros Hg f. apply ends_upd_file; [apply Hg|left; apply Hg|done]. Qed.

(** Processes: who runs, the descriptors, and whether a slot has any. *)
Definition same_procs (s s' : K) : Prop :=
  curproc s' = curproc s ∧
  ∀ j, ofile (procs s' j) = ofile (procs s j) ∧ bare (state (procs s' j)) = bare (state (procs s j)).

Definition rsame (s s' : K) : Prop := same_procs s s' ∧ fsame (p_res s).1 (p_res s').1.

Lemma rsame_refl s : rsame s s.
Proof. done. Qed.

Lemma rsame_trans s s1 s2 : rsame s s1 → rsame s1 s2 → rsame s s2.
Proof.
  intros [[A B] C'] [[A' B'] C'']. split; [split; [congruence|]|by eapply fsame_trans].
  intros j. destruct (B j), (B' j). split; congruence.
Qed.

(** What such changes keep true. *)
Definition stable (R : K → Prop) : Prop := ∀ s s', rsame s s' → R s → R s'.

(** [m] does not matter, whether it returns or sleeps. *)
Definition Calm {A} (m : M K A) : Prop := ∀ R s, stable R → R s → ends m (λ _ s', rsame s s') R s.

Lemma ends_calm {A} (m : M K A) s0 s R : Calm m → stable R → R s0 → rsame s0 s → ends m (λ _ s', rsame s0 s') R s.
Proof. intros Hm HR Hs H0. eapply ends_mono; [apply Hm; [done|by eapply HR]|]. cbn beta. intros _ s' H. by eapply rsame_trans. Qed.

Lemma calm_ret {A} (a : A) : Calm (mret a).
Proof. intros R s _ _. by apply ends_ret. Qed.
Lemma calm_bind {A B} (m : M K A) (k : A → M K B) : Calm m → (∀ a, Calm (k a)) → Calm (m ≫= k).
Proof.
  intros Hm Hk R s HR Hs. apply ends_bind. eapply ends_mono; [by apply Hm|]. cbn beta. intros a s1 H1. by apply ends_calm.
Qed.
Lemma calm_gets {A} (g : K → A) : Calm (gets g).
Proof. intros R s _ _. by apply ends_gets. Qed.
Lemma calm_panic {A} msg : Calm (panic (A:=A) msg).
Proof. done. Qed.
Lemma calm_fault {A} msg : Calm (fault (A:=A) msg).
Proof. done. Qed.
Lemma calm_nofuel {A} : Calm (nofuel (A:=A)).
Proof. done. Qed.
Lemma calm_files {A} (m : M F A) : FCalm m → Calm (kfiles m).
Proof.
  intros Hm R s HR Hs. unfold ends, kfiles, res, on_files, zoom. specialize (Hm (p_res s).1). unfold ends in Hm.
  destruct (m (p_res s).1); try done. eapply HR; [|exact Hs]. by split.
Qed.
Lemma calm_fs {A} (m : M (fs S) A) : Calm (kfs m).
Proof. apply (calm_files (in_fs m)), fcalm_fs. Qed.
Lemma calm_mem {A} (m : M X A) : Calm (kmem m).
Proof. apply (calm_files (in_mem m)), fcalm_mem. Qed.
Lemma ends_upd_bare i f (Q : unit → K → Prop) R s :
  ofile (f (procs s i)) = ofile (procs s i) → bare (state (f (procs s i))) = bare (state (procs s i)) →
  (∀ s', rsame s s' → procs s' i = f (procs s i) → Q tt s') → ends (upd_proc i f) Q R s.
Proof.
  intros Ho Hb HQ. apply ends_modify, HQ; cbn [procs put_procs]; unfold upd; [|by rewrite Nat.eqb_refl].
  split; [split; [done|]|done]. intros j. cbn [procs put_procs]. unfold upd. by destruct (Nat.eqb_spec j i) as [->|].
Qed.
Lemma calm_upd_proc i f : (∀ p, ofile (f p) = ofile p ∧ state (f p) = state p) → Calm (upd_proc i f).
Proof. intros Hf R s _ _. destruct (Hf (procs s i)) as [H1 H2]. apply ends_upd_bare; [done|by rewrite H2|done]. Qed.
Lemma calm_cur : Calm cur.
Proof. unfold cur. apply calm_bind; [apply calm_gets|]. intros [i|]; [apply calm_ret|apply calm_fault]. Qed.
Lemma calm_my : Calm my.
Proof. unfold my. apply calm_bind; [apply calm_cur|]. intros i. apply calm_gets. Qed.
Lemma calm_upd_my f : (∀ p, ofile (f p) = ofile p ∧ state (f p) = state p) → Calm (upd_my f).
Proof. intros Hf. unfold upd_my. apply calm_bind; [apply calm_cur|]. intros i. by apply calm_upd_proc. Qed.
Lemma calm_the_proc i : Calm (the_proc i).
Proof. apply calm_gets. Qed.
Lemma calm_glob {A} (m : M sysglob A) : Calm (glob m).
Proof. intros R s HR Hs. unfold ends, glob, res, zoom. destruct (m (p_res s).2); try done. by apply (HR s). Qed.
Lemma calm_read {A} (g : G → A) : Calm (res (gets g)).
Proof. intros R s _ _. by unfold ends, res, zoom, gets. Qed.
Lemma calm_cpu {A} (m : M cpu A) : Calm (zoom p_cpu put_cpu m).
Proof. intros R s HR Hs. unfold ends, zoom. destruct (m (p_cpu s)); try done. by apply (HR s). Qed.
Lemma calm_acquire : Calm (acquire p_lock put_lock).
Proof. intros R s _ _. by apply ends_acquire. Qed.
Lemma calm_release : Calm (release p_lock put_lock).
Proof. intros R s _ _. by apply ends_release. Qed.
Lemma calm_for_each {A} (l : list A) (k : A → M K unit) : (∀ a, Calm (k a)) → Calm (for_each l k).
Proof.
  intros Hk R s HR Hs. apply (ends_for_each l k (λ _ s', rsame s s')); [done| |done]. intros a l' s1 H1. by apply ends_calm.
Qed.

(** The same for a process that runs and has files. *)
Definition active (s : K) : Prop :=
  ∃ me, curproc s = Some me ∧ (me < NPROC)%nat ∧ bare (state (procs s me)) = false.

Lemma active_same s s' : rsame s s' → active s → active s'.
Proof. intros [[Hc Hp] _] (me & ? & ? & ?). exists me. rewrite Hc. split_and!; [done..|]. by rewrite (proj2 (Hp me)). Qed.

Definition Tame {A} (m : M K A) : Prop := ∀ R s, stable R → R s → active s → ends m (λ _ s', rsame s s') R s.

Lemma tame_calm {A} (m : M K A) : Calm m → Tame m.
Proof. intros Hm R s HR Hs _. by apply Hm. Qed.
Lemma tame_bind {A B} (m : M K A) (k : A → M K B) : Tame m → (∀ a, Tame (k a)) → Tame (m ≫= k).
Proof.
  intros Hm Hk R s HR Hs Ha. apply ends_bind. eapply ends_mono; [by apply Hm|]. cbn beta. intros a s1 H1.
  eapply ends_mono; [apply Hk; [done|by eapply HR|by eapply active_same]|]. cbn beta. intros b s2 H2. by eapply rsame_trans.
Qed.
End calm.

Create HintDb calm.
#[export] Hint Resolve fcalm_ret fcalm_gets fcalm_panic fcalm_fault fcalm_nofuel fcalm_fs fcalm_mem fcalm_pipe : calm.
#[export] Hint Resolve calm_ret calm_gets calm_panic calm_fault calm_nofuel calm_fs calm_mem calm_cur calm_my : calm.
#[export] Hint Resolve calm_the_proc calm_glob calm_read calm_cpu calm_acquire calm_release : calm.

(** Follow the code of a routine that is calm. *)
Ltac calm :=
  repeat lazymatch goal with
  | |- Calm (mbind _ _) => apply calm_bind; [|intros]
  | |- FCalm (mbind _ _) => apply fcalm_bind; [|intros]
  | |- Tame (mbind _ _) => apply tame_bind; [|intros]
  | |- Calm (kfiles _) => apply calm_files
  | |- Calm (for_each _ _) => apply calm_for_each; intros
  | |- FCalm (upd_file _ _) => by apply fcalm_upd
  | |- Calm (upd_my _) => by apply calm_upd_my
  | |- Calm (upd_proc _ _) => by apply calm_upd_proc
  | |- Calm (res _) => solve [auto with calm | apply calm_mem | apply calm_fs | apply calm_read]
  | |- Calm (match ?x with _ => _ end) => destruct x
  | |- FCalm (match ?x with _ => _ end) => destruct x
  | |- Tame (match ?x with _ => _ end) => destruct x
  | |- Calm (let _ := _ in _) => cbv zeta
  | |- FCalm (let _ := _ in _) => cbv zeta
  | |- Tame (let _ := _ in _) => cbv zeta
  | |- Tame _ => first [solve [auto with calm] | apply tame_calm]
  | |- _ => solve [auto with calm]
  end.

Section routines.
Context {S X : Type} {BO : BufOps S} {MA : Machine X}.
Context (dev_read : Z → option (nat → Z → M (fs S) (Z * list Z))).
Context (dev_write : Z → option (nat → list Z → M (fs S) Z)).
Context (J : junk).
Abbreviation F := (fstate S X).
Abbreviation G := (fstate S X * sysglob)%type.
Abbreviation K := (pst G).
#[local] Instance sv : Services G := kernel_services dev_read (j_name J).

(** ** file.c *)

Lemma filestat_calm f : FCalm (X:=X) (filestat f).
Proof. unfold filestat, the_file. calm. Qed.

Lemma fileread_calm k f n : FCalm (X:=X) (fileread dev_read k f n).
Proof. unfold fileread, the_file, the_pipe. calm. Qed.

Lemma filewrite_loop_calm n f ip i src : FCalm (X:=X) (filewrite_loop dev_write n f ip i src).
Proof.
  revert i src. induction n as [|n IH]; intros i src; cbn [filewrite_loop]; unfold the_file; calm.
Qed.

Lemma filewrite_calm k f src n : FCalm (X:=X) (filewrite dev_write k f src n).
Proof. unfold filewrite, the_file, the_pipe. calm. apply filewrite_loop_calm. Qed.

(** ** syscall.c, proc.c *)

Lemma pt_acquire_calm : Calm (S:=S) (X:=X) pt_acquire.
Proof. unfold pt_acquire. calm. Qed.
Lemma pt_release_calm : Calm (S:=S) (X:=X) pt_release.
Proof. unfold pt_release. calm. Qed.
#[local] Hint Resolve filestat_calm fileread_calm filewrite_calm pt_acquire_calm pt_release_calm : calm.

Lemma fetchint_calm a : Calm (fetchint (SV:=sv) a).
Proof. unfold fetchint. calm. Qed.
#[local] Hint Resolve fetchint_calm : calm.
Lemma find_nul_calm n pp s : Calm (find_nul (SV:=sv) n pp s).
Proof. revert s. induction n; intros s; cbn [find_nul]; calm. Qed.
#[local] Hint Resolve find_nul_calm : calm.
Lemma fetchstr_calm a : Calm (fetchstr (SV:=sv) a).
Proof. unfold fetchstr. calm. Qed.
#[local] Hint Resolve fetchstr_calm : calm.
Lemma argint_calm n : Calm (argint (SV:=sv) n).
Proof. unfold argint. calm. Qed.
#[local] Hint Resolve argint_calm : calm.
Lemma argptr_calm n z : Calm (argptr (SV:=sv) n z).
Proof. unfold argptr. calm. Qed.
Lemma argstr_calm n : Calm (argstr (SV:=sv) n).
Proof. unfold argstr. calm. Qed.
#[local] Hint Resolve argptr_calm argstr_calm : calm.
Lemma argpath_calm n : Calm (argpath dev_read J n).
Proof. unfold argpath. calm. Qed.
#[local] Hint Resolve argpath_calm : calm.

(** ** exec.c and the calls without descriptors *)

Lemma load_pages_calm k d va ip off n : Calm (X:=X) (load_pages dev_read k d va ip off n).
Proof. revert va off n. induction k; intros; cbn [load_pages]; calm. Qed.
#[local] Hint Resolve load_pages_calm : calm.
Lemma load_segments_calm n d ip off z : Calm (X:=X) (load_segments dev_read n d ip off z).
Proof. revert off z. induction n; intros; cbn [load_segments]; calm. Qed.
#[local] Hint Resolve load_segments_calm : calm.
Lemma exec_bad_calm d o : Calm (S:=S) (X:=X) (exec_bad d o).
Proof. unfold exec_bad. calm. Qed.
#[local] Hint Resolve exec_bad_calm : calm.
Lemma exec_calm nm e path argv : Calm (X:=X) (exec dev_read nm e path argv).
Proof. unfold exec, exec_stack, exec_commit. calm. Qed.
#[local] Hint Resolve exec_calm : calm.
Lemma fetch_args_calm n a l : Calm (fetch_args dev_read J n a l).
Proof. revert a l. induction n; intros; cbn [fetch_args]; calm. Qed.
#[local] Hint Resolve fetch_args_calm : calm.

Lemma sys_exec_calm : Calm (sys_exec dev_read J).
Proof. unfold sys_exec. calm. Qed.
Lemma sys_link_calm : Calm (sys_link dev_read dev_write J).
Proof. unfold sys_link, link_bad, begin_op, end_op, knamei, knameiparent, my_cwd, klink. calm. Qed.
Lemma sys_unlink_calm : Calm (sys_unlink dev_read dev_write J).
Proof. unfold sys_unlink, unlink_bad, unlink_entry, unlink_bad, begin_op, end_op, knameiparent, my_cwd. calm. Qed.
Lemma create_calm path ty ma mi : Calm (X:=X) (create dev_read dev_write J path ty ma mi).
Proof. unfold create, create_new, knameiparent, my_cwd, klink. calm. Qed.
#[local] Hint Resolve create_calm : calm.
Lemma open_inode_calm path m : Calm (X:=X) (open_inode dev_read dev_write J path m).
Proof. unfold open_inode, begin_op, end_op, knamei, my_cwd. calm. Qed.
Lemma make_node_calm o ty ma mi : Calm (X:=X) (make_node dev_read dev_write J o ty ma mi).
Proof. unfold make_node, end_op. calm. Qed.
#[local] Hint Resolve open_inode_calm make_node_calm : calm.
Lemma sys_mkdir_calm : Calm (sys_mkdir dev_read dev_write J).
Proof. unfold sys_mkdir, begin_op. calm. Qed.
Lemma sys_mknod_calm : Calm (sys_mknod dev_read dev_write J).
Proof. unfold sys_mknod, begin_op. calm. Qed.
Lemma sys_chdir_calm : Calm (sys_chdir dev_read J).
Proof. unfold sys_chdir, knamei, my_cwd. calm. Qed.
Lemma argfd_calm n : Calm (argfd dev_read J n).
Proof. unfold argfd. calm. Qed.
#[local] Hint Resolve argfd_calm : calm.
Lemma read_file_calm f p n : Calm (read_file dev_read f p n).
Proof. unfold read_file. calm. Qed.
Lemma write_file_calm f src n : Calm (X:=X) (write_file dev_write f src n).
Proof. unfold write_file. calm. Qed.
#[local] Hint Resolve read_file_calm write_file_calm : calm.
Lemma sys_read_calm : Calm (sys_read dev_read J).
Proof. unfold sys_read. calm. Qed.
Lemma sys_write_calm : Calm (sys_write dev_read dev_write J).
Proof. unfold sys_write. calm. Qed.
Lemma sys_fstat_calm : Calm (sys_fstat dev_read J).
Proof. unfold sys_fstat, store_stat. calm. Qed.
#[local] Hint Resolve sys_exec_calm sys_link_calm sys_unlink_calm sys_mkdir_calm sys_mknod_calm sys_chdir_calm : calm.
#[local] Hint Resolve sys_read_calm sys_write_calm sys_fstat_calm : calm.

(** ** proc.c *)

Lemma wake_calm i (b : proc → bool) :
  Calm (S:=S) (X:=X) (p ← the_proc i; if bool_decide (state p = SLEEPING) && b p then upd_proc i (set_state RUNNABLE) else mret tt).
Proof.
  intros R s _ _. apply ends_bind, ends_gets. case_bool_decide as Hs; [|by apply ends_ret]. destruct (b _); [|by apply ends_ret].
  apply ends_upd_bare; [done| |done]. by rewrite Hs.
Qed.
Lemma wakeup1_calm c : Calm (S:=S) (X:=X) (wakeup1 c).
Proof. apply calm_for_each. intros i. apply (wake_calm _ (λ p, bool_decide (p_chan p = c))). Qed.
#[local] Hint Resolve wakeup1_calm : calm.
Lemma wakeup_calm c : Calm (S:=S) (X:=X) (wakeup c).
Proof. unfold wakeup. calm. Qed.
Lemma reparent_calm me : Calm (S:=S) (X:=X) (reparent me).
Proof. unfold reparent. calm. Qed.
Lemma sched_enter_calm : Calm (S:=S) (X:=X) sched_enter.
Proof. unfold sched_enter. calm. Qed.
Lemma sched_exit_calm e : Calm (S:=S) (X:=X) (sched_exit e).
Proof. intros R s _ _. by apply ends_modify. Qed.
Lemma growproc_calm n : Calm (growproc (SV:=sv) n).
Proof. unfold growproc. calm. Qed.
#[local] Hint Resolve wakeup_calm reparent_calm sched_enter_calm sched_exit_calm growproc_calm : calm.

Lemma kill_calm pd : Calm (S:=S) (X:=X) (kill pd).
Proof.
  intros R s HR Hs. unfold kill. apply ends_bind. eapply ends_mono; [by apply pt_acquire_calm|]. cbn beta. intros _ s1 H1.
  apply ends_bind, ends_gets. cbn beta. destruct (List.find (λ i, pid (procs s1 i) =? pd) table) as [i|].
  2: { apply ends_calm; [calm|done..]. }
  apply ends_bind, ends_upd_bare; [done..|]. intros s2 H2 E2. apply ends_bind.
  apply (ends_mono _ (λ _ s', rsame s s')).
  - case_bool_decide as Hst; [|apply ends_ret; by eapply rsame_trans].
    apply ends_upd_bare; [done|by rewrite E2; cbn; rewrite Hst|]. intros s3 H3 _. eauto using rsame_trans.
  - intros _ s3 H3. apply ends_calm; [calm|done..].
Qed.

(** A process that waits keeps its files. *)
Lemma ends_to_state me v (s : K) R :
  bare v = false → bare (state (procs s me)) = false → ends (upd_proc me (set_state v)) (λ _ s', rsame s s') R s.
Proof. intros Hv Hs. apply ends_upd_bare; [done|by rewrite Hs|done]. Qed.

Lemma sleep_enter_tame c rel : (∀ r, rel = Some r → Calm r) → Tame (S:=S) (X:=X) (sleep_enter c rel).
Proof.
  intros Hrel R s HR Hs (me & Hm & Hlt & Hb). unfold sleep_enter. apply ends_bind, ends_gets. rewrite Hm. apply ends_bind.
  apply (ends_mono _ (λ _ s', rsame s s')).
  { destruct rel as [r|]; [|by apply ends_ret]. apply calm_bind; [apply pt_acquire_calm|intros; by apply Hrel|done|done]. }
  intros _ s1 H1. apply ends_bind, ends_upd_bare; [done..|]. intros s2 H2 _.
  assert (H02 : rsame s s2) by (by eapply rsame_trans). apply ends_bind. eapply ends_mono.
  { apply ends_to_state; [done|]. by rewrite (proj2 (proj2 (proj1 H02) me)). }
  cbn beta. intros _ s3 H3. apply ends_calm; [apply sched_enter_calm|done|done|]. eauto using rsame_trans.
Qed.

Lemma sleep_exit_calm e acq : (∀ a, acq = Some a → Calm a) → Calm (S:=S) (X:=X) (sleep_exit e acq).
Proof. intros Ha. unfold sleep_exit. calm. Qed.

Lemma sleep_none_tame c : Tame (S:=S) (X:=X) (sleep_enter c None).
Proof. by apply sleep_enter_tame. Qed.
Lemma sleep_some_tame c r : Calm r → Tame (S:=S) (X:=X) (sleep_enter c (Some r)).
Proof. intros Hr. apply sleep_enter_tame. by intros ? [= <-]. Qed.
Lemma wake_none_calm e : Calm (S:=S) (X:=X) (sleep_exit e None).
Proof. by apply sleep_exit_calm. Qed.
Lemma wake_some_calm e a : Calm a → Calm (S:=S) (X:=X) (sleep_exit e (Some a)).
Proof. intros Ha. apply sleep_exit_calm. by intros ? [= <-]. Qed.
#[local] Hint Resolve sleep_none_tame sleep_some_tame wake_none_calm wake_some_calm : calm.

Lemma yield_enter_tame : Tame (S:=S) (X:=X) yield_enter.
Proof.
  intros R s HR Hs Ha. unfold yield_enter. apply ends_bind. eapply ends_mono; [by apply pt_acquire_calm|]. cbn beta. intros _ s1 H1.
  destruct (active_same _ _ H1 Ha) as (me & Hm & Hlt & Hb). unfold cur. apply ends_bind, ends_bind, ends_gets. rewrite Hm.
  apply ends_ret. apply ends_bind. eapply ends_mono; [by apply ends_to_state|]. cbn beta. intros _ s2 H2.
  apply ends_calm; [calm|done|done|by eapply rsame_trans].
Qed.

(** The slot of a process that is reaped had no files. *)
Lemma reap_same i (s : K) (Q : unit → K → Prop) R :
  bare (state (procs s i)) = true → (∀ s', rsame s s' → Q tt s') → ends (upd_proc i reset_slot) Q R s.
Proof. intros Hs HQ. apply ends_upd_bare; [done|by rewrite Hs|auto]. Qed.

Lemma wait_scan_tame : Tame (wait_scan (SV:=sv)).
Proof.
  intros R s HR Hs Ha. unfold wait_scan. pose proof Ha as (me & Hm & _). unfold cur. apply ends_bind, ends_bind, ends_gets. rewrite Hm.
  apply ends_ret, ends_bind, ends_gets. cbv zeta. destruct (List.find _ table) as [i|] eqn:Hf.
  - apply find_table in Hf as [_ [_ Hz]%andb_true_iff]. apply bool_decide_eq_true in Hz. pose proof (rsame_refl s).
    do 3 (apply ends_bind; eapply ends_mono; [apply (ends_calm _ s); [calm|done|done|eassumption]|]; cbn beta; intros ? ? ?).
    match goal with H : rsame s ?z |- ends _ _ _ ?z => rename H into H' end.
    apply ends_bind, reap_same; [by rewrite (proj2 (proj2 (proj1 H') i)), Hz|].
    intros s4 H4. apply ends_calm; [calm|done|done|by eapply rsame_trans].
  - destruct (_ || _); [apply ends_calm; [calm|done..]|].
    apply (tame_bind (sleep_enter _ None)); [calm|intros; calm|done..].
Qed.

Lemma join_scan_tame st : Tame (join_scan (SV:=sv) st).
Proof.
  intros R s HR Hs Ha. unfold join_scan. pose proof Ha as (me & Hm & _). unfold cur. apply ends_bind, ends_bind, ends_gets. rewrite Hm.
  apply ends_ret, ends_bind, ends_gets. cbv zeta. destruct (List.find _ table) as [i|] eqn:Hf.
  - apply find_table in Hf as [_ [_ Hz]%andb_true_iff]. apply bool_decide_eq_true in Hz. pose proof (rsame_refl s).
    do 2 (apply ends_bind; eapply ends_mono; [apply (ends_calm _ s); [calm|done|done|eassumption]|]; cbn beta; intros ? ? ?).
    match goal with H : rsame s ?z |- ends _ _ _ ?z => rename H into H' end.
    apply ends_bind, reap_same; [by rewrite (proj2 (proj2 (proj1 H') i)), Hz|].
    intros s3 H3. apply ends_calm; [calm|done|done|by eapply rsame_trans].
  - destruct (_ || _); [apply ends_calm; [calm|done..]|].
    apply (tame_bind (sleep_enter _ None)); [calm|intros; calm|done..].
Qed.
#[local] Hint Resolve wait_scan_tame join_scan_tame yield_enter_tame : calm.

Lemma tk_acquire_calm : Calm (S:=S) (X:=X) tk_acquire.
Proof. unfold tk_acquire. calm. Qed.
Lemma tk_release_calm : Calm (S:=S) (X:=X) tk_release.
Proof. unfold tk_release. calm. Qed.
#[local] Hint Resolve tk_acquire_calm tk_release_calm kill_calm : calm.

(** ** sysproc.c *)

Lemma sleep_ticks_tame t n : Tame (S:=S) (X:=X) (sleep_ticks t n).
Proof. unfold sleep_ticks. calm. Qed.
#[local] Hint Resolve sleep_ticks_tame : calm.
Lemma sleep_resume_tame e t n : Tame (S:=S) (X:=X) (sleep_resume e t n).
Proof. unfold sleep_resume. calm. Qed.
Lemma wait_resume_tame e : Tame (wait_resume (SV:=sv) e).
Proof. unfold wait_resume. calm. Qed.
Lemma join_resume_tame e st : Tame (join_resume (SV:=sv) e st).
Proof. unfold join_resume. calm. Qed.
Lemma sys_uptime_calm : Calm (S:=S) (X:=X) sys_uptime.
Proof. unfold sys_uptime. calm. Qed.
#[local] Hint Resolve sys_uptime_calm : calm.
Lemma sys_start_burst_calm : Calm (S:=S) (X:=X) sys_start_burst.
Proof. unfold sys_start_burst. calm. apply calm_upd_my. intros p. by destruct (_ >? 100). Qed.

Lemma store_burst_same i v p p' : store_burst i v p = Some p' → ofile p' = ofile p ∧ state p' = state p.
Proof. unfold store_burst. destruct (i <? 100); [by intros [= <-]|]. destruct (i =? 100); [by intros [= <-]|done]. Qed.

Lemma sys_end_burst_calm : Calm (S:=S) (X:=X) sys_end_burst.
Proof.
  unfold sys_end_burst. apply calm_bind; [calm|]. intros t R s _ _. unfold my, cur. do 3 apply ends_bind. apply ends_gets.
  destruct (curproc s) as [me|] eqn:Hm; [|done]. apply ends_ret. apply ends_gets. cbv zeta.
  destruct (store_burst _ _ _) as [p'|] eqn:Hp; [|done]. apply store_burst_same in Hp as [Ho Hs].
  unfold upd_my, cur. do 3 apply ends_bind. apply ends_gets. rewrite Hm. apply ends_ret.
  apply ends_upd_bare; [done|by rewrite Hs|]. intros s' H' _. by apply ends_ret.
Qed.
#[local] Hint Resolve sys_start_burst_calm sys_end_burst_calm : calm.
Lemma syscall_return_calm v : Calm (S:=S) (X:=X) (syscall_return v).
Proof. unfold syscall_return. calm. Qed.
Lemma xchg_lock_calm i v : Calm (S:=S) (X:=X) (xchg_lock i v).
Proof. unfold xchg_lock. calm. Qed.
#[local] Hint Resolve xchg_lock_calm syscall_return_calm : calm.
Lemma mtx_try_calm i : Calm (S:=S) (X:=X) (mtx_try i).
Proof. unfold mtx_try. calm. Qed.
#[local] Hint Resolve mtx_try_calm : calm.

Lemma sys_wait_tame : Tame (sys_wait (SV:=sv)).
Proof. unfold sys_wait, wait. calm. Qed.
Lemma sys_kill_calm : Calm (sys_kill (SV:=sv)).
Proof. unfold sys_kill. calm. Qed.
Lemma sys_getpid_calm : Calm (S:=S) (X:=X) sys_getpid.
Proof. unfold sys_getpid. calm. Qed.
Lemma sys_sbrk_calm : Calm (sys_sbrk (SV:=sv)).
Proof. unfold sys_sbrk. calm. Qed.
Lemma sys_sleep_tame : Tame (sys_sleep (SV:=sv)).
Proof. unfold sys_sleep. calm. Qed.
Lemma sys_print_bursts_calm : Calm (S:=S) (X:=X) sys_print_bursts.
Proof. unfold sys_print_bursts, printk. calm. Qed.
Lemma sys_thread_join_tame : Tame (sys_thread_join (SV:=sv)).
Proof. unfold sys_thread_join, thread_join. calm. Qed.
Lemma sys_mtx_create_calm junk : Calm (sys_mtx_create (SV:=sv) junk).
Proof. unfold sys_mtx_create. calm. Qed.
Lemma sys_mtx_lock_calm junk : Calm (sys_mtx_lock (SV:=sv) junk).
Proof. unfold sys_mtx_lock. calm. Qed.
Lemma sys_mtx_unlock_calm junk : Calm (sys_mtx_unlock (SV:=sv) junk).
Proof. unfold sys_mtx_unlock. calm. Qed.
#[local] Hint Resolve sys_wait_tame sys_kill_calm sys_getpid_calm sys_sbrk_calm sys_sleep_tame sys_print_bursts_calm : calm.
#[local] Hint Resolve sys_thread_join_tame sys_mtx_create_calm sys_mtx_lock_calm sys_mtx_unlock_calm : calm.

(** The calls that do not touch descriptors. *)
Definition plain (num : Z) : bool := forallb (λ n, negb (num =? n)) [1; 2; 25; 4; 10; 15; 21].

Lemma syscalls_tame junk num : plain num = true → Tame (syscalls (SV:=sv) (FC:=sysfile_calls dev_read dev_write J) junk num).
Proof.
  intros Hn. unfold syscalls. cbn [file_call sysfile_calls].
  repeat (case_match; try discriminate Hn); calm.
Qed.
End routines.

(** ** Who holds a file *)

Definition well_fd (v : Z) : Prop := v = 0 ∨ ∃ i, (i < NFILE)%nat ∧ v = ptr_of i.

(** One at [n], 0 elsewhere. *)
Definition at_ (n i : nat) : Z := one (i =? n)%nat.

(** The processes on their way out.  [Some (fd, None)]: the process is in [exit]
    and comes to descriptor [fd] next; [Some (fd, Some n)]: it sleeps inside
    [fileclose] for descriptor [fd], which still names file [n], though [n] is
    already counted down. *)
Definition leaving : Type := nat → option (nat * option nat).

(** How many descriptors of file [i] are counted down already. *)
Definition dropped (D : leaving) (i : nat) : Z :=
  total (λ j, match D j with Some (_, Some n) => at_ n i | _ => 0 end).

Section owners.
Context {S X : Type} {BO : BufOps S} {MA : Machine X}.
Abbreviation F := (fstate S X).
Abbreviation G := (fstate S X * sysglob)%type.
Abbreviation K := (pst G).
Implicit Types (s : K) (e : nat → Z) (D : leaving).

(** The descriptors of all processes that refer to file [i]. *)
Definition holders s (i : nat) : Z := total (λ j, occurs (ptr_of i) (ofile (procs s j))).

(** A process that leaves has closed the descriptors below. *)
Record left_at s (j fd : nat) (o : option nat) : Prop := {
  la_slot : (j < NPROC)%nat;
  la_bare : bare (state (procs s j)) = false;
  la_done k : (k < fd)%nat → nth k (ofile (procs s j)) 0 = 0;
  la_file n : o = Some n → (fd < NOFILE)%nat ∧ (n < NFILE)%nat ∧ nth fd (ofile (procs s j)) 0 = ptr_of n;
}.

(** The counts are the numbers of descriptors, but for the processes that leave
    and for [e], the references that the kernel itself holds in the middle of a
    call; [x] is a process that is being made. *)
Record owned_but D (x : option nat) (e : nat → Z) s : Prop := {
  o_refs : ∀ i, (i < NFILE)%nat → refs (p_res s).1 i = holders s i + e i - dropped D i;
  o_blank : blank (p_res s).1;
  o_len : ∀ j, length (ofile (procs s j)) = NOFILE;
  o_fd : ∀ j, Forall well_fd (ofile (procs s j));
  o_bare : ∀ j, x ≠ Some j → bare (state (procs s j)) = true → Forall (λ v, v = 0) (ofile (procs s j));
  o_exit : ∀ j fd o, D j = Some (fd, o) → left_at s j fd o;
}.

Lemma left_same s s' j fd o : same_procs s s' → left_at s j fd o → left_at s' j fd o.
Proof. intros [_ Hp] [L1 L2 L3 L4]. destruct (Hp j) as [E1 E2]. split; [done|by rewrite E2| |]; intros k; rewrite E1; auto. Qed.

Lemma owned_same D x e s s' : rsame s s' → owned_but D x e s → owned_but D x e s'.
Proof.
  intros [Hsp [Hr Hbl]] [H1 H2 H3 H4 H5 H6]. pose proof Hsp as [_ Hp]. split.
  - intros i Hi. rewrite Hr, H1 by done. do 2 f_equal. symmetry. apply total_ext. intros j. by rewrite (proj1 (Hp j)).
  - auto.
  - intros j. by rewrite (proj1 (Hp j)).
  - intros j. by rewrite (proj1 (Hp j)).
  - intros j. rewrite (proj1 (Hp j)), (proj2 (Hp j)). apply H5.
  - intros j fd o Hj. eapply left_same; eauto.
Qed.

Lemma owned_ext D x e e' s : (∀ i, (i < NFILE)%nat → e' i = e i) → owned_but D x e s → owned_but D x e' s.
Proof. intros He [H1 H2 H3 H4 H5 H6]. split; [|done..]. intros i Hi. by rewrite He, H1. Qed.

Lemma holders_bound s i : (∀ j, length (ofile (procs s j)) = NOFILE) → 0 ≤ holders s i ≤ 1024.
Proof. intros Hl. apply (total_bound _ 16). intros j. pose proof (occurs_bound (ptr_of i) (ofile (procs s j))) as Hb. rewrite Hl in Hb. unfold NOFILE in Hb. lia. Qed.

Lemma dropped_bound D i : 0 ≤ dropped D i.
Proof. apply (total_bound _ 1). intros j. unfold at_, one. destruct (D j) as [[? [?|]]|]; try lia. destruct (_ =? _)%nat; lia. Qed.

(** A descriptor that is not counted down yet is counted. *)
Lemma holder_counts D x e s j fd n :
  owned_but D x e s → (j < NPROC)%nat → nth fd (ofile (procs s j)) 0 = ptr_of n → D j ≠ Some (fd, Some n) →
  1 ≤ holders s n - dropped D n.
Proof.
  intros Ho Hj Hfd HD. assert (Hp : ptr_of n ≠ 0) by (unfold ptr_of; lia). unfold holders, dropped. rewrite <- total_sub.
  set (g := λ j, _ - _). assert (Hg : ∀ j, 0 ≤ g j ∧ (nth fd (ofile (procs s j)) 0 = ptr_of n → D j ≠ Some (fd, Some n) → 1 ≤ g j)).
  { intros j'. unfold g. pose proof (occurs_bound (ptr_of n) (ofile (procs s j'))) as Hb.
    assert (H1 : nth fd (ofile (procs s j')) 0 = ptr_of n → 1 ≤ occurs (ptr_of n) (ofile (procs s j'))) by (intros E; by eapply occurs_pos).
    destruct (D j') as [[k [n'|]]|] eqn:ED; [|split; intros; [lia|specialize (H1 ltac:(done)); lia]..].
    destruct (la_file _ _ _ _ (o_exit _ _ _ _ Ho j' k _ ED) n' eq_refl) as (_ & _ & Ek). unfold at_.
    destruct (Nat.eqb_spec n n') as [<-|Hne]; simpl; [|split; intros; [lia|specialize (H1 ltac:(done)); lia]].
    split; [pose proof (occurs_pos _ _ _ Ek Hp); lia|]. intros E Hk. assert (Hfk : fd ≠ k) by congruence.
    pose proof (occurs_two _ _ _ _ Hfk E Ek Hp). lia. }
  etrans; [apply (proj2 (Hg j)); done|]. apply total_ge; [done|]. intros j'. apply Hg.
Qed.

(** The references of the files changed by [d]. *)
Definition bumped (f0 : F) (d : nat → Z) (f : F) : Prop := (∀ i, refs f i = refs f0 i + d i) ∧ (blank f0 → blank f).

Lemma owned_bumped D x e s d f g :
  owned_but D x e s → bumped (p_res s).1 d f → owned_but D x (λ i, e i + d i) (put_res (f, g) s).
Proof.
  intros [H1 H2 H3 H4 H5 H6] [Hd Hbl]. split; [|auto..|].
  - intros i Hi. cbn [put_res p_res fst]. rewrite Hd, H1 by done. change (holders (put_res _ s) i) with (holders s i). lia.
  - intros j fd o Hj. by eapply (left_same s), H6.
Qed.

Lemma ends_kfiles {A} (m : M F A) (P : A → (nat → Z) → F → Prop) D x e s R :
  owned_but D x e s →
  ends m (λ a f', ∃ d, P a d f' ∧ bumped (p_res s).1 d f') (λ f', ∀ g, R (put_res (f', g) s)) (p_res s).1 →
  ends (kfiles m) (λ a s', ∃ d, P a d (p_res s').1 ∧ owned_but D x (λ i, e i + d i) s' ∧ same_procs s s') R s.
Proof.
  intros Ho. unfold ends, kfiles, res, on_files, zoom. destruct (m (p_res s).1) as [a f'| | |c f'|]; try done.
  intros (d & HP & Hd). exists d. split; [done|]. split; [by apply owned_bumped|by split].
Qed.

(** A descriptor of process [me] is set from a file (or null) to another. *)
Lemma owned_set D x e s me fd v s' :
  (me < NPROC)%nat → (fd < NOFILE)%nat → x = Some me ∨ bare (state (procs s' me)) = false → D me = None →
  well_fd v → owned_but D x e s → fsame (p_res s).1 (p_res s').1 →
  ofile (procs s' me) = <[fd := v]> (ofile (procs s me)) →
  (∀ j, j ≠ me → ofile (procs s' j) = ofile (procs s j) ∧ bare (state (procs s' j)) = bare (state (procs s j))) →
  owned_but D x (λ i, e i + one (nth fd (ofile (procs s me)) 0 =? ptr_of i) - one (v =? ptr_of i)) s'.
Proof.
  intros Hme Hfd Hb HD Hv [H1 H2 H3 H4 H5 H6] [Hr Hbl] Ho Hj. split.
  - intros i Hi. rewrite Hr, H1 by done. unfold holders.
    rewrite (total_upd (λ j, occurs (ptr_of i) (ofile (procs s j))) (λ j, occurs (ptr_of i) (ofile (procs s' j))) me) by (done || intros j Hne; by rewrite (proj1 (Hj j Hne))).
    rewrite Ho, occurs_insert by (rewrite H3; done). lia.
  - auto.
  - intros j. destruct (decide (j = me)) as [->|Hne]; [by rewrite Ho, length_insert|by rewrite (proj1 (Hj j Hne))].
  - intros j. destruct (decide (j = me)) as [->|Hne]; [rewrite Ho; by apply Forall_insert|by rewrite (proj1 (Hj j Hne))].
  - intros j Hx Hbj. destruct (decide (j = me)) as [->|Hne]; [destruct Hb; congruence|].
    destruct (Hj j Hne) as [-> E]. rewrite E in Hbj. by apply H5.
  - intros j k o Ej. assert (Hne : j ≠ me) by congruence. destruct (H6 j k o Ej) as [L1 L2 L3 L4]. destruct (Hj j Hne) as [E1 E2].
    split; [done|by rewrite E2| |]; intros y; rewrite E1; auto.
Qed.

Lemma ptr_of_inj i j : (ptr_of i =? ptr_of j) = (j =? i)%nat.
Proof. unfold ptr_of. destruct (Nat.eqb_spec j i) as [->|]; [apply Z.eqb_refl|]. apply Z.eqb_neq. lia. Qed.

Lemma ptr_of_nonzero i : (0 =? ptr_of i) = false ∧ (ptr_of i =? 0) = false.
Proof. unfold ptr_of. split; apply Z.eqb_neq; lia. Qed.

Lemma index_ptr i : index_of (ptr_of i) = i.
Proof. unfold index_of, ptr_of. lia. Qed.
End owners.

(** ** file.c changes one count *)

Section counts.
Context {S X : Type} {BO : BufOps S} {MA : Machine X} {AW : Awake X}.
Abbreviation F := (fstate S X).
Implicit Types (f : F).

Lemma bumped_same f0 d f f' : bumped f0 d f → fsame f f' → bumped f0 d f'.
Proof. intros [A B] [A' B']. split; [intros i; by rewrite A', A|auto]. Qed.

Lemma bumped_tab f0 d f f' : bumped f0 d f → ftab f' = ftab f → bumped f0 d f'.
Proof. intros H E. eapply bumped_same; [done|]. unfold fsame, blank, refs. by rewrite E. Qed.

Lemma bumped_ext f0 d d' f : (∀ i, d' i = d i) → bumped f0 d f → bumped f0 d' f.
Proof. intros Hd [A B]. split; [intros i; by rewrite Hd|done]. Qed.

Lemma bumped_trans f0 d d' f f' : bumped f0 d f → bumped f d' f' → bumped f0 (λ i, d i + d' i) f'.
Proof. intros [A B] [A' B']. split; [intros i; rewrite A', A; lia|auto]. Qed.

Lemma ends_upd_tab n g (Q : unit → F → Prop) R f :
  (∀ f', ftab f' = upd (ftab f) n (g (ftab f n)) → Q tt f') → ends (upd_file n g) Q R f.
Proof. intros HQ. apply ends_modify. by apply HQ. Qed.

(** What leaves the table alone. *)
Definition Still {A} (m : M F A) : Prop := ∀ f, ends m (λ _ f', ftab f' = ftab f) (λ f', ftab f' = ftab f) f.

Lemma still_ret {A} (a : A) : Still (mret a).
Proof. done. Qed.
Lemma still_gets {A} (g : F → A) : Still (gets g).
Proof. done. Qed.
Lemma still_fault {A} msg : Still (fault (A:=A) msg).
Proof. done. Qed.
Lemma still_fs {A} (m : M (fs S) A) : Still (in_fs m).
Proof. intros f. apply ends_zoom. unfold ends. by destruct (m (f_fs f)). Qed.
Lemma still_mem {A} (m : M X A) : Still (in_mem m).
Proof. intros f. apply ends_zoom. unfold ends. by destruct (m (f_mem f)). Qed.
Lemma still_pipe p v : Still (set_pipe p v).
Proof. done. Qed.
Lemma still_acquire : Still ft_acquire.
Proof. intros f. by apply ends_acquire. Qed.
Lemma still_release : Still ft_release.
Proof. intros f. by apply ends_release. Qed.
Lemma still_bind {A B} (m : M F A) (k : A → M F B) : Still m → (∀ a, Still (k a)) → Still (m ≫= k).
Proof.
  intros Hm Hk f. apply ends_bind. eapply ends_mono; [apply Hm|]. cbn beta. intros a f1 <-. apply Hk.
Qed.
Lemma close_pipe_still p w : Still (close_pipe p w).
Proof.
  unfold close_pipe. apply still_bind; [apply still_gets|]. intros x. destruct (pipeclose w x) as [[|] x'].
  all: apply (still_bind (set_pipe _ _)); [apply still_pipe|]; intros _; first [apply still_mem|apply still_ret].
Qed.
Lemma close_pipe_awake p w : awake (close_pipe p w : M F unit).
Proof.
  unfold close_pipe, the_pipe, set_pipe. apply awake_bind; [auto with awake|]. intros x. destruct (pipeclose w x) as [[|] x'].
  all: apply awake_bind; [auto with awake|]; intros _; first [apply awake_zoom, awake_page_free|apply awake_ret].
Qed.

Lemma ends_still {A} (m : M F A) Q R f :
  Still m → (∀ a f', ftab f' = ftab f → Q a f') → (∀ f', ftab f' = ftab f → R f') → ends m Q R f.
Proof. intros Hm HQ HR. by eapply ends_weaken; [apply Hm|apply HQ|apply HR]. Qed.

(** A free entry is taken. *)
Lemma filealloc_bumped f R :
  ends filealloc (λ o f', ∃ d, match o with
    | Some n => (n < NFILE)%nat ∧ refs f n = 0 ∧ d = at_ n
    | None => d = (λ _, 0) end ∧ (∀ i, fl_type (ftab f' i) = fl_type (ftab f i)) ∧ bumped f d f') R f.
Proof.
  unfold filealloc. apply ends_bind, ends_acquire, ends_bind, ends_gets. cbn [ftab put_ft_lock].
  destruct (free_file (ftab f)) as [n|] eqn:Hf.
  2: { apply ends_bind, ends_release, ends_ret. exists (λ _, 0). split; [done|]. split; [done|]. split; [intros i; unfold refs; simpl; lia|done]. }
  apply List.find_some in Hf as [Hin Hz]. apply in_seq in Hin. apply Z.eqb_eq in Hz.
  apply ends_bind, ends_upd_tab. intros f2 E2. apply ends_bind, ends_release, ends_ret. exists (at_ n). cbn [ftab put_ft_lock] in *.
  split; [split_and!; [lia|done|done]|split; [|split]].
  - intros i. rewrite E2. unfold upd. by destruct (Nat.eqb_spec i n) as [->|].
  - intros i. unfold refs, at_. cbn [ftab put_ft_lock]. rewrite E2. unfold upd. destruct (Nat.eqb_spec i n) as [->|]; simpl; lia.
  - intros Hb i. unfold refs. cbn [ftab put_ft_lock]. rewrite E2. unfold upd. destruct (Nat.eqb_spec i n) as [->|]; [done|apply Hb].
Qed.

Lemma filedup_bumped n f R :
  refs f n < 2^31 - 1 → ends (filedup n) (λ r f', r = n ∧ bumped f (at_ n) f') R f.
Proof.
  intros Hb. unfold filedup, the_file. apply ends_bind, ends_acquire, ends_bind, ends_gets. cbn [ftab put_ft_lock].
  unfold refs in Hb. destruct (Z.ltb_spec (fl_ref (ftab f n)) 1) as [|Hge]; [done|].
  apply ends_bind, ends_upd_tab. intros f2 E2. apply ends_bind, ends_release, ends_ret. cbn [ftab put_ft_lock] in *.
  rewrite s32_small in E2 by lia. split; [done|]. split.
  - intros i. unfold refs, at_. cbn [ftab put_ft_lock]. rewrite E2. unfold upd. destruct (Nat.eqb_spec i n) as [->|]; simpl; lia.
  - intros Hbl i. unfold refs. cbn [ftab put_ft_lock]. rewrite E2. unfold upd. destruct (Nat.eqb_spec i n) as [->|]; [simpl; lia|apply Hbl].
Qed.

(** The last reference to an inode is given up before [fileclose] sleeps. *)
Lemma fileclose_bumped n f R :
  (fl_type (ftab f n) = FD_INODE → ∀ f', bumped f (λ i, - at_ n i) f' → R f') →
  ends (fileclose n) (λ _ f', bumped f (λ i, - at_ n i) f' ∧ ∀ i, i ≠ n → ftab f' i = ftab f i) R f.
Proof.
  intros HR. unfold fileclose, the_file. apply ends_bind, ends_acquire, ends_bind, ends_gets. cbn [ftab put_ft_lock].
  destruct (Z.ltb_spec (fl_ref (ftab f n)) 1) as [|Hge]; [done|]. apply ends_bind, ends_upd_tab. intros f2 E2. cbn [ftab put_ft_lock] in E2.
  destruct (Z.gtb_spec (fl_ref (ftab f n) - 1) 0) as [Hmore|Hone].
  { apply ends_release. cbn [ftab put_ft_lock]. split; [split|].
    - intros i. unfold refs, at_. cbn [ftab put_ft_lock]. rewrite E2. unfold upd. destruct (Nat.eqb_spec i n) as [->|]; simpl; lia.
    - intros Hb i. unfold refs. cbn [ftab put_ft_lock]. rewrite E2. unfold upd. destruct (Nat.eqb_spec i n) as [->|]; [simpl; lia|apply Hb].
    - intros i Hi. rewrite E2. unfold upd. by rewrite (proj2 (Nat.eqb_neq i n)). }
  apply ends_bind, ends_gets, ends_bind, ends_upd_tab. intros f3 E3. apply ends_bind, ends_upd_tab. intros f4 E4. apply ends_bind, ends_release.
  assert (Ei : ∀ i, ftab f4 i = if (i =? n)%nat then set_fl_type FD_NONE (set_fl_ref 0 (ftab f2 n)) else ftab f i).
  { intros i. rewrite E4, E3. unfold upd. rewrite E2. unfold upd. rewrite !Nat.eqb_refl. by destruct (i =? n)%nat. }
  assert (Hty : fl_type (ftab f2 n) = fl_type (ftab f n)) by (rewrite E2; unfold upd; by rewrite Nat.eqb_refl). clear E2 E3 E4.
  assert (Hb : bumped f (λ i, - at_ n i) f4 ∧ ∀ i, i ≠ n → ftab f4 i = ftab f i).
  { split; [split|].
    - intros i. unfold refs, at_. rewrite Ei. destruct (Nat.eqb_spec i n) as [->|]; simpl; lia.
    - intros Hb i. unfold refs. rewrite Ei. destruct (Nat.eqb_spec i n) as [->|]; [done|apply Hb].
    - intros i Hi. by rewrite Ei, (proj2 (Nat.eqb_neq i n)). }
  assert (HQ : ∀ A (m : M F A) g, Still m → awake m ∨ fl_type (ftab f n) = FD_INODE → ftab g = ftab f4 →
    ends m (λ _ f', bumped f (λ i, - at_ n i) f' ∧ ∀ i, i ≠ n → ftab f' i = ftab f i) R g).
  { intros A m g Hm Ha Eg. destruct Ha as [Ha|Ha].
    - apply ends_awake; [done|]. apply ends_still; [done| |done]. intros a f' E. rewrite Eg in E. rewrite E. split; [by eapply bumped_tab; [apply Hb|]|apply Hb].
    - apply ends_still; [done|..].
      + intros a f' E. rewrite Eg in E. rewrite E. split; [by eapply bumped_tab; [apply Hb|]|apply Hb].
      + intros f' E. rewrite Eg in E. apply HR; [done|]. by eapply bumped_tab; [apply Hb|]. }
  rewrite Hty. destruct (fl_type (ftab f n)) eqn:Et.
  - apply HQ; [apply still_ret|left; apply awake_ret|done].
  - apply HQ; [apply close_pipe_still|left; apply close_pipe_awake|done].
  - apply HQ; [|by right|done]. apply still_bind; [apply still_fs|]. intros _. apply still_bind; [|intros _; apply still_fs].
    destruct (fl_ip _); [apply still_fs|apply still_fault].
Qed.

(** Files that are not inodes are closed without sleeping. *)
Lemma close_opt_bumped (o : option nat) f R :
  (∀ n, o = Some n → fl_type (ftab f n) ≠ FD_INODE) →
  ends (match o with Some n => fileclose n | None => mret tt end)
    (λ _ f', bumped f (λ i, - from_option (λ n, at_ n i) 0 o) f' ∧ ∀ i, o ≠ Some i → ftab f' i = ftab f i) R f.
Proof.
  intros Hn. destruct o as [n|]; simpl.
  - eapply ends_mono; [apply fileclose_bumped; intros E; by destruct (Hn n)|]. cbn beta. intros _ f' [H1 H2]. split; [done|].
    intros i Hi. apply H2. congruence.
  - apply ends_ret. split; [|done]. split; [intros i; lia|done].
Qed.

(** The two files of a new pipe, or nothing. *)
Definition piped (o : option (nat * nat)) (d : nat → Z) f : Prop :=
  match o with
  | Some (a, b) => (a < NFILE)%nat ∧ (b < NFILE)%nat ∧ a ≠ b ∧ (∀ i, d i = at_ a i + at_ b i) ∧
      fl_type (ftab f a) = FD_PIPE ∧ fl_type (ftab f b) = FD_PIPE
  | None => ∀ i, d i = 0
  end.

Lemma pipealloc_bad_bumped p n0 n1 f f0 R :
  bumped f0 (λ i, from_option (λ n, at_ n i) 0 n0 + from_option (λ n, at_ n i) 0 n1) f →
  (∀ n, n0 = Some n ∨ n1 = Some n → fl_type (ftab f n) ≠ FD_INODE) → (∀ n, n0 = Some n → n1 ≠ Some n) →
  ends (pipealloc_bad p n0 n1) (λ o f', ∃ d, piped o d f' ∧ bumped f0 d f') R f.
Proof.
  intros H Hty Hne. unfold pipealloc_bad. apply ends_bind.
  apply (ends_mono _ (λ _ f', ftab f' = ftab f)).
  { destruct (negb (p =? 0)); [|done]. apply ends_awake; [apply awake_zoom, awake_page_free|]. by apply ends_still; [apply still_mem|..]. }
  intros _ f1 E1. apply (bumped_tab _ _ _ f1) in H; [|done]. apply ends_bind.
  eapply ends_mono; [apply close_opt_bumped; intros n ->; rewrite E1; auto|]. cbn beta. intros _ f2 [H2 F2].
  apply ends_bind. eapply ends_mono; [apply close_opt_bumped; intros n ->|].
  { rewrite F2 by (intros Hn; by destruct (Hne n)). rewrite E1. auto. }
  cbn beta. intros _ f3 [H3 _]. apply ends_ret. exists (λ _, 0). split; [done|].
  eapply bumped_ext; [|eapply bumped_trans; [exact H|eapply bumped_trans; [exact H2|exact H3]]]. intros i. cbn beta. destruct n0, n1; simpl; lia.
Qed.

Lemma pipealloc_bumped junk f R :
  blank f → ends (pipealloc junk) (λ o f', ∃ d, piped o d f' ∧ bumped f d f') R f.
Proof.
  intros Hbl. unfold pipealloc. apply ends_bind. eapply ends_mono; [apply filealloc_bumped|]. cbn beta.
  intros [a|] f1 (d1 & Hd1 & T1 & H1).
  2: { apply pipealloc_bad_bumped; [|by intros n [|]|done]. eapply bumped_ext; [|exact H1]. intros i. by rewrite Hd1. }
  destruct Hd1 as (Ha & Hza & ->). apply ends_bind. eapply ends_mono; [apply filealloc_bumped|]. cbn beta.
  assert (Hna : ∀ g : F, (∀ i, fl_type (ftab g i) = fl_type (ftab f1 i)) → fl_type (ftab g a) = FD_NONE) by (intros g Eg; rewrite Eg, T1; by apply Hbl).
  intros [b|] f2 (d2 & Hd2 & T2 & H2).
  2: { apply pipealloc_bad_bumped; [eapply bumped_ext; [|eapply bumped_trans; [exact H1|exact H2]]; intros i; by rewrite Hd2| |done].
       intros n [[= <-]|]; [|done]. by rewrite Hna. }
  destruct Hd2 as (Hb & Hzb & ->). pose proof (bumped_trans _ _ _ _ _ H1 H2) as H12.
  assert (Hab : a ≠ b) by (intros ->; rewrite (proj1 H1), Hza in Hzb; unfold at_ in Hzb; by rewrite Nat.eqb_refl in Hzb).
  assert (Hnb : fl_type (ftab f2 b) = FD_NONE) by (rewrite T2; by apply (proj2 H1)).
  apply ends_bind, ends_awake; [apply awake_zoom, awake_alloc|]. eapply ends_still; [apply still_mem| |done]. intros p f3 E3.
  destruct (p =? 0).
  { apply pipealloc_bad_bumped; [by eapply bumped_tab| |by intros n [= <-] [=]].
    intros n [[= <-]|[= <-]]; rewrite E3; [by rewrite Hna|by rewrite Hnb]. }
  apply (ends_bind (set_pipe _ _)), ends_modify. apply ends_bind, ends_upd_tab. intros f4 E4. apply ends_bind, ends_upd_tab. intros f5 E5. apply ends_ret.
  cbn [ftab put_pipes] in E4. rewrite E3 in E4. exists (λ i, at_ a i + at_ b i).
  assert (Ei : ∀ i, ftab f5 i = if (i =? b)%nat then set_fl_pipe p (set_fl_mode false true (set_fl_type FD_PIPE (ftab f2 b)))
    else if (i =? a)%nat then set_fl_pipe p (set_fl_mode true false (set_fl_type FD_PIPE (ftab f2 a))) else ftab f2 i).
  { intros i. rewrite E5. unfold upd. rewrite E4. unfold upd. by rewrite (proj2 (Nat.eqb_neq b a)) by done. }
  split; [split_and!; [done..|by rewrite Ei, Nat.eqb_refl; destruct (a =? b)%nat|by rewrite Ei, Nat.eqb_refl]|].
  eapply bumped_same; [exact H12|]. split.
  - intros i. unfold refs. rewrite Ei. by repeat case_match; simplify_eq/=; rewrite ?Nat.eqb_eq in *; subst.
  - intros _ i. unfold refs. rewrite Ei. pose proof (proj2 H12 Hbl i) as Hbi. unfold refs in Hbi.
    assert (Hra : fl_ref (ftab f2 a) ≠ 0 ∧ fl_ref (ftab f2 b) ≠ 0).
    { pose proof (proj1 H2 a) as Ra. pose proof (proj1 H2 b) as Rb. pose proof (proj1 H1 a) as Ra1. unfold at_ in *.
      rewrite Nat.eqb_refl in *. rewrite (proj2 (Nat.eqb_neq a b)) in Ra by done. unfold refs in *. simpl in *. lia. }
    destruct (Nat.eqb_spec i b) as [->|]; [simpl; tauto|]. destruct (Nat.eqb_spec i a) as [->|]; simpl; tauto.
Qed.
End counts.

(** ** Calls with descriptors *)

Definition plus (e : nat → Z) (n : nat) : nat → Z := λ i, e i + at_ n i.
Definition minus (e : nat → Z) (n : nat) : nat → Z := λ i, e i - at_ n i.
Definition none : nat → Z := λ _, 0.

Section calls.
Context {S X : Type} {BO : BufOps S} {MA : Machine X} {AW : Awake X}.
Context (dev_read : Z → option (nat → Z → M (fs S) (Z * list Z))).
Context (dev_write : Z → option (nat → list Z → M (fs S) Z)).
Context (J : junk) (D : leaving).
Abbreviation G := (fstate S X * sysglob)%type.
Abbreviation K := (pst G).
Abbreviation owned := (owned_but D None).
#[local] Instance sv' : Services G := kernel_services dev_read (j_name J).
Implicit Types (s : K) (e : nat → Z) (R : K → Prop).

(** The process that runs has files and is not on its way out. *)
Definition mine s : Prop :=
  ∃ me, curproc s = Some me ∧ (me < NPROC)%nat ∧ bare (state (procs s me)) = false ∧ D me = None.

Lemma mine_active s : mine s → active s.
Proof. intros (me & ? & ? & ? & _). by exists me. Qed.

Lemma mine_procs s s' : same_procs s s' → mine s → mine s'.
Proof. intros [Hc Hp] (me & ? & ? & ? & ?). exists me. rewrite Hc. split_and!; [done..| |done]. by rewrite (proj2 (Hp me)). Qed.

Lemma mine_same s s' : rsame s s' → mine s → mine s'.
Proof. intros [H _]. by apply mine_procs. Qed.

Lemma ends_filealloc e s R :
  owned e s → ends (kfiles filealloc) (λ o s', same_procs s s' ∧
    match o with Some n => (n < NFILE)%nat ∧ owned (plus e n) s' | None => owned e s' end) R s.
Proof.
  intros Ho. eapply ends_mono.
  - apply (ends_kfiles _ (λ o d _, match o with Some n => (n < NFILE)%nat ∧ d = at_ n | None => d = λ _, 0 end) D None e s R Ho).
    eapply ends_mono; [apply filealloc_bumped|]. cbn beta. intros o f (d & Hd & _ & H). exists d. destruct o; naive_solver.
  - cbn beta. intros [n|] s' (d & Hd & Ho' & Hs); (split; [done|]).
    + destruct Hd as [Hn ->]. by split.
    + subst d. eapply owned_ext; [|done]. intros i _. cbn beta. lia.
Qed.

Lemma ends_filedup n x e s R :
  (n < NFILE)%nat → e n ≤ 1024 → owned_but D x e s →
  ends (kfiles (filedup n)) (λ r s', r = n ∧ same_procs s s' ∧ owned_but D x (plus e n) s') R s.
Proof.
  intros Hn He Ho. eapply ends_mono; [apply (ends_kfiles _ (λ r d _, r = n ∧ d = at_ n) D x e s R Ho)|].
  - eapply ends_mono; [apply filedup_bumped|].
    + rewrite (o_refs _ _ _ _ Ho) by done. pose proof (holders_bound s n (o_len _ _ _ _ Ho)). pose proof (dropped_bound D n). lia.
    + cbn beta. intros r f' [-> H]. by exists (at_ n).
  - cbn beta. intros r s' (d & [-> ->] & Ho' & Hs). done.
Qed.

(** [fileclose] sleeps, if at all, when the reference is given up. *)
Lemma ends_fileclose n e s R :
  owned e s → (fl_type (ftab (p_res s).1 n) = FD_INODE → ∀ s', same_procs s s' → owned (minus e n) s' → R s') →
  ends (kfiles (fileclose n)) (λ _ s', same_procs s s' ∧ owned (minus e n) s' ∧
    ∀ i, i ≠ n → ftab (p_res s').1 i = ftab (p_res s).1 i) R s.
Proof.
  intros Ho HR. assert (Hm : ∀ s', owned (λ i, e i + - at_ n i) s' → owned (minus e n) s').
  { intros s'. apply owned_ext. intros i _. unfold minus. lia. }
  eapply ends_mono; [apply (ends_kfiles _ (λ _ d f', d = (λ i, - at_ n i) ∧ ∀ i, i ≠ n → ftab f' i = ftab (p_res s).1 i) D None e s R Ho)|].
  - eapply ends_mono; [apply fileclose_bumped|].
    + intros Et f' H g. apply HR; [done|by split|]. by apply Hm, owned_bumped.
    + cbn beta. intros r f' [H1 H2]. by eexists.
  - cbn beta. intros r s' (d & [-> Hf] & Ho' & Hs). auto.
Qed.

(** What a descriptor of the running process is. *)
Definition fd_is s (fd : nat) (v : Z) : Prop :=
  ∃ me, curproc s = Some me ∧ nth fd (ofile (procs s me)) 0 = v.

Lemma fd_is_procs s s' fd v : same_procs s s' → fd_is s fd v → fd_is s' fd v.
Proof. intros [Hc Hp] (me & Hm & Hv). exists me. by rewrite Hc, (proj1 (Hp me)). Qed.

Lemma ends_set_fd fd v w e s R :
  (fd < NOFILE)%nat → well_fd v → mine s → owned e s → fd_is s fd w →
  ends (set_fd fd v) (λ _ s', mine s' ∧ fd_is s' fd v ∧ p_res s' = p_res s ∧
    owned (λ i, e i + one (w =? ptr_of i) - one (v =? ptr_of i)) s') R s.
Proof.
  intros Hfd Hv (me & Hm & Hlt & Hb & HD) Ho (me' & Hm' & <-). rewrite Hm in Hm'. injection Hm' as <-.
  unfold set_fd, upd_my, cur. do 2 apply ends_bind. apply ends_gets. rewrite Hm. apply ends_ret, ends_modify.
  set (s' := put_procs _ s).
  assert (Eo : procs s' me = set_ofile (<[fd := v]> (ofile (procs s me))) (procs s me)) by (cbn; unfold upd; by rewrite Nat.eqb_refl).
  split; [|split; [|split; [done|]]].
  - exists me. split_and!; [done..| |done]. by rewrite Eo.
  - exists me. split; [done|]. rewrite Eo. cbn [ofile set_ofile]. rewrite nth_lookup, list_lookup_insert_eq; [done|]. by rewrite (o_len _ _ _ _ Ho).
  - apply (owned_set D None e s me fd v s'); try done.
    + right. by rewrite Eo.
    + by rewrite Eo.
    + intros j Hne. cbn. unfold upd. by rewrite (proj2 (Nat.eqb_neq j me)).
Qed.

Lemma fdalloc_spec n e s R :
  (n < NFILE)%nat → mine s → owned e s →
  ends (fdalloc n) (λ o s', match o with
    | Some fd => (fd < NOFILE)%nat ∧ mine s' ∧ fd_is s' fd (ptr_of n) ∧ p_res s' = p_res s ∧ owned (minus e n) s'
    | None => s' = s end) R s.
Proof.
  intros Hn Ha Ho. pose proof Ha as (me & Hm & _). unfold fdalloc. apply ends_bind. unfold ends at 1. rewrite (my_run me s Hm).
  destruct (List.find _ _) as [fd|] eqn:Hf; [|by apply ends_ret].
  apply List.find_some in Hf as [Hin Hz]. apply in_seq in Hin. apply Z.eqb_eq in Hz. assert (Hfd : (fd < NOFILE)%nat) by lia.
  apply ends_bind. eapply ends_mono; [apply (ends_set_fd fd (ptr_of n) 0 e s); [done|right; by exists n|done|done|by exists me]|].
  cbn beta. intros _ s' (Ha' & Hf & Er & Ho'). apply ends_ret. split_and!; [done..|]. eapply owned_ext; [|done].
  intros i _. unfold minus, at_. rewrite (proj1 (ptr_of_nonzero i)), ptr_of_inj. simpl. lia.
Qed.

(** A descriptor that is in use names a file. *)
Lemma fd_file e s me fd :
  owned e s → (fd < NOFILE)%nat → nth fd (ofile (procs s me)) 0 ≠ 0 → ∃ n, (n < NFILE)%nat ∧ nth fd (ofile (procs s me)) 0 = ptr_of n.
Proof.
  intros Ho Hfd Hz. destruct (proj1 (Forall_nth well_fd 0 (ofile (procs s me))) (o_fd _ _ _ _ Ho me) fd) as [E|(n & Hn & E)]; [|done|by exists n].
  by rewrite (o_len _ _ _ _ Ho).
Qed.

(** Between two calls: every reference is a descriptor. *)
Definition fine s : Prop := mine s ∧ owned none s.

Lemma fine_stable : stable fine.
Proof. intros s s' H [Ha Ho]. split; [by eapply mine_same|by eapply owned_same]. Qed.

Lemma fine_calm {A} (m : M K A) s : Calm m → fine s → ends m (λ _ s', fine s') fine s.
Proof. intros Hm Hs. eapply ends_mono; [apply (Hm fine); [apply fine_stable|done]|]. cbn beta. intros _ s' H. by eapply fine_stable. Qed.

Lemma fine_tame {A} (m : M K A) s : Tame m → fine s → ends m (λ _ s', fine s') fine s.
Proof.
  intros Hm Hs. eapply ends_mono; [apply (Hm fine); [apply fine_stable|done|apply mine_active, Hs]|]. cbn beta. intros _ s' H. by eapply fine_stable.
Qed.

Lemma argfd_spec k s :
  fine s → ends (argfd dev_read J k) (λ o s', fine s' ∧
    match o with Some (fd, n) => (fd < NOFILE)%nat ∧ (n < NFILE)%nat ∧ fd_is s' fd (ptr_of n) | None => True end) fine s.
Proof.
  intros Hs. unfold argfd. apply ends_bind. eapply ends_mono; [apply fine_calm; [apply argint_calm|done]|]. cbn beta. intros [fd|] s1 H1; [|by apply ends_ret].
  destruct (_ || _) eqn:Hfd; [by apply ends_ret|]. apply orb_false_iff in Hfd as [Hlo Hhi].
  pose proof H1 as [(me & Hm & _) Ho]. apply ends_bind. unfold ends at 1. rewrite (my_run me s1 Hm). cbv zeta.
  destruct (_ =? 0) eqn:Hz; [by apply ends_ret|]. apply ends_ret. split; [done|].
  assert (Hl : (Z.to_nat fd < NOFILE)%nat) by lia. split; [done|]. apply Z.eqb_neq in Hz.
  destruct (fd_file none s1 me (Z.to_nat fd) Ho Hl Hz) as (n & Hn & E). rewrite E, index_ptr. split; [done|]. by exists me.
Qed.

Lemma owned_none e s : (∀ i, e i = 0) → owned e s → owned none s.
Proof. intros He. apply owned_ext. intros i _. by rewrite He. Qed.

Lemma fileclose_fine n e s :
  (∀ i, e i = at_ n i) → mine s → owned e s → ends (kfiles (fileclose n)) (λ _ s', fine s') fine s.
Proof.
  intros He Ha Ho. assert (H : ∀ s', same_procs s s' → owned (minus e n) s' → fine s').
  { intros s' Hs Ho'. split; [by eapply mine_procs|]. eapply owned_none; [|done]. intros i. unfold minus. rewrite He. lia. }
  eapply ends_mono; [apply (ends_fileclose n e s _ Ho); auto|]. cbn beta. intros _ s' (Hs & Ho' & _). auto.
Qed.

(** An end of a pipe is closed without sleeping. *)
Lemma fileclose_pipe n e s R :
  fl_type (ftab (p_res s).1 n) = FD_PIPE → mine s → owned e s →
  ends (kfiles (fileclose n)) (λ _ s', mine s' ∧ owned (minus e n) s' ∧ ∀ i, i ≠ n → ftab (p_res s').1 i = ftab (p_res s).1 i) R s.
Proof.
  intros Ht Ha Ho. eapply ends_mono; [apply (ends_fileclose n e s _ Ho); by rewrite Ht|]. cbn beta. intros _ s' (Hs & Ho' & Hf).
  split; [by eapply mine_procs|done].
Qed.

Lemma sys_dup_fine s : fine s → ends (sys_dup dev_read J) (λ _ s', fine s') fine s.
Proof.
  intros Hs. unfold sys_dup. apply ends_bind. eapply ends_mono; [by apply argfd_spec|]. cbn beta.
  intros [[fd n]|] s1 [[Ha1 Ho1] Hfd]; [|by apply ends_ret].
  destruct Hfd as (_ & Hn & _). apply ends_bind. eapply ends_mono; [by apply (fdalloc_spec n none s1)|]. cbn beta.
  intros [fd2|] s2 H2; [|subst; by apply ends_ret]. destruct H2 as (_ & Ha2 & _ & _ & Ho2).
  apply ends_bind. eapply ends_mono; [apply (ends_filedup n None (minus none n) s2)|]; [done| |done|].
  { unfold minus, none, at_. rewrite Nat.eqb_refl. simpl. lia. }
  cbn beta. intros _ s3 (_ & Hs3 & Ho3). apply ends_ret. split; [by eapply mine_procs|].
  eapply owned_none; [|done]. intros i. unfold plus, minus, none. lia.
Qed.

Lemma sys_close_fine s : fine s → ends (sys_close dev_read J) (λ _ s', fine s') fine s.
Proof.
  intros Hs. unfold sys_close. apply ends_bind. eapply ends_mono; [by apply argfd_spec|]. cbn beta.
  intros [[fd n]|] s1 [[Ha1 Ho1] Hfd]; [|by apply ends_ret].
  destruct Hfd as (Hfd & Hn & Hi). apply ends_bind. eapply ends_mono; [apply (ends_set_fd fd 0 (ptr_of n) none s1); [done|by left|done..]|].
  cbn beta. intros _ s2 (Ha2 & _ & _ & Ho2). apply ends_bind. eapply ends_mono; [eapply (fileclose_fine n); [|done..]|].
  { intros i. cbn beta. rewrite ptr_of_inj, (proj1 (ptr_of_nonzero i)). unfold none, at_. simpl. lia. }
  cbn beta. intros _ s3 H3. by apply ends_ret.
Qed.

(** [sys_open] when the inode is there -- src/sysfile.c:305-318 *)
Definition open_file (ip : nat) (omode : Z) : M K callres :=
  o ← kfiles filealloc;
  match o with
  | None => kfs (iunlockput ip);; mret (Ret (-1))
  | Some f =>
      o ← fdalloc f;
      match o with
      | None => kfiles (fileclose f);; kfs (iunlockput ip);; mret (Ret (-1))
      | Some fd =>
          kfs (iunlock (Some ip));;
          let w := negb (Z.land omode O_WRONLY =? 0) in
          kfiles (upd_file f (λ x, set_fl_mode (negb w) (w || negb (Z.land omode O_RDWR =? 0))
            (set_fl_off 0 (set_fl_ip (Some ip) (set_fl_type FD_INODE x)))));;
          mret (Ret (Z.of_nat fd))
      end
  end.

(** A file with a descriptor of the running process is in use. *)
Lemma fine_ref s fd n : fine s → fd_is s fd (ptr_of n) → (n < NFILE)%nat → refs (p_res s).1 n ≠ 0.
Proof.
  intros [(me & Hm & Hlt & _ & HD) Ho] (me' & Hm' & Hfd) Hn. rewrite Hm in Hm'. injection Hm' as <-.
  pose proof (holder_counts D None none s me fd n Ho Hlt Hfd ltac:(by rewrite HD)) as H.
  rewrite (o_refs _ _ _ _ Ho) by done. unfold none. lia.
Qed.

Lemma open_file_fine ip om s : fine s → ends (open_file ip om) (λ _ s', fine s') fine s.
Proof.
  intros [Ha Ho]. unfold open_file. apply ends_bind. eapply ends_mono; [by apply (ends_filealloc none s)|]. cbn beta.
  intros [n|] s4 [Hs4 H4]; pose proof (mine_procs _ _ Hs4 Ha) as Ha4; [|apply fine_calm; [calm|done]].
  destruct H4 as [Hn Ho4]. apply ends_bind. eapply ends_mono; [by apply (fdalloc_spec n (plus none n) s4)|]. cbn beta.
  intros [fd|] s5 H5.
  - destruct H5 as (_ & Ha5 & Hfd & _ & Ho5). assert (Hf5 : fine s5) by (split; [done|]; eapply owned_none; [|done]; intros i; unfold minus, plus, none; lia).
    apply ends_bind. eapply ends_mono; [apply (calm_fs _ fine); [apply fine_stable|done]|]. cbn beta. intros _ s6 H6.
    assert (Hf6 : fine s6) by (by eapply fine_stable). pose proof (fine_ref s6 fd n Hf6 (fd_is_procs _ _ _ _ (proj1 H6) Hfd) Hn) as Hr.
    cbv zeta. apply ends_bind, ends_zoom, ends_zoom, ends_upd_file; [done|by right|]. intros f' Hf' _ _. apply ends_ret.
    eapply fine_stable; [|exact Hf6]. by split.
  - subst. apply ends_bind. eapply ends_mono; [apply (fileclose_fine n (plus none n)); done|]. cbn beta.
    intros _ s6 H6. apply fine_calm; [calm|done].
Qed.

Lemma sys_open_fine s : fine s → ends (sys_open dev_read dev_write J) (λ _ s', fine s') fine s.
Proof.
  intros Hs. unfold sys_open. apply ends_bind. eapply ends_mono; [apply fine_calm; [apply argpath_calm|done]|]. cbn beta.
  intros [path|] s1 H1; [|by apply ends_ret]. apply ends_bind. eapply ends_mono; [apply fine_calm; [apply argint_calm|done]|]. cbn beta.
  intros [om|] s2 H2; [|by apply ends_ret]. apply ends_bind. eapply ends_mono; [apply fine_calm; [apply open_inode_calm|done]|]. cbn beta.
  intros [ip|] s3 H3; [|by apply ends_ret]. by apply (open_file_fine ip om).
Qed.

Lemma sys_pipe_fine s : fine s → ends (sys_pipe dev_read J) (λ _ s', fine s') fine s.
Proof.
  intros Hs. unfold sys_pipe. apply ends_bind. eapply ends_mono; [apply fine_calm; [apply argptr_calm|done]|]. cbn beta.
  intros [fd|] s1 [Ha1 Ho1]; [|by apply ends_ret]. apply ends_bind.
  eapply ends_mono; [apply (ends_kfiles _ piped D None none s1 _ Ho1), pipealloc_bumped, (o_blank _ _ _ _ Ho1)|]. cbn beta. intros o s2 (d & Hd & Ho2 & Hs2).
  pose proof (mine_procs _ _ Hs2 Ha1) as Ha2. destruct o as [[a b]|].
  2: { apply ends_ret. split; [done|]. by eapply owned_none. }
  destruct Hd as (Ha & Hb & Hab & Hd & Ta & Tb). assert (Ho2' : owned (plus (plus none a) b) s2).
  { eapply owned_ext; [|done]. intros i _. cbn beta. rewrite Hd. unfold plus. lia. } clear Ho2.
  apply ends_bind. eapply ends_mono; [by apply (fdalloc_spec a (plus (plus none a) b) s2)|]. cbn beta. intros [fd0|] s3 H3.
  2: { subst. apply ends_bind. eapply ends_mono; [by apply fileclose_pipe|]. cbn beta. intros _ s4 (Ha4 & Ho4 & _).
       apply ends_bind. eapply ends_mono; [eapply (fileclose_fine b); [|exact Ha4|exact Ho4]|].
       - intros i. unfold minus, plus, none. lia.
       - cbn beta. intros _ s5 H5. by apply ends_ret. }
  destruct H3 as (Hfd0 & Ha3 & Hi3 & E3 & Ho3). apply ends_bind. eapply ends_mono; [by eapply (fdalloc_spec b _ s3)|]. cbn beta.
  intros [fd1|] s4 H4.
  - destruct H4 as (_ & Ha4 & _ & _ & Ho4). apply fine_calm; [calm|]. split; [done|]. eapply owned_none; [|done].
    intros i. unfold minus, plus, none. lia.
  - subst. apply ends_bind. eapply ends_mono; [eapply (ends_set_fd fd0 0 (ptr_of a) _ s3); [done|by left|done..]|].
    cbn beta. intros _ s5 (Ha5 & _ & E5 & Ho5). apply ends_bind. eapply ends_mono; [apply fileclose_pipe; [by rewrite E5, E3|done|exact Ho5]|]. cbn beta.
    intros _ s6 (Ha6 & Ho6 & _). apply ends_bind. eapply ends_mono; [eapply (fileclose_fine b); [|exact Ha6|exact Ho6]|].
    + intros i. unfold minus, plus, none, at_. rewrite ptr_of_inj, (proj1 (ptr_of_nonzero i)). simpl. lia.
    + cbn beta. intros _ s7 H7. by apply ends_ret.
Qed.

(** ** New processes *)

(** A slot is taken that has no files. *)
Lemma allocproc_spec s R :
  stable R → R s → ends (allocproc (SV:=sv')) (λ o s', rsame s s' ∧
    match o with Some np => (np < NPROC)%nat ∧ bare (state (procs s' np)) = true | None => True end) R s.
Proof.
  intros HR Hs. unfold allocproc. apply ends_bind. eapply ends_mono; [by apply pt_acquire_calm|]. cbn beta. intros _ s1 H1.
  apply ends_bind, ends_gets. destruct (List.find _ table) as [i|] eqn:Hf.
  2: { apply ends_bind. eapply ends_mono; [apply (ends_calm _ s); [apply pt_release_calm|done..]|]. cbn beta. intros _ s2 H2. by apply ends_ret. }
  apply find_table in Hf as [Hi Hst]. apply bool_decide_eq_true in Hst.
  assert (Hb1 : bare (state (procs s1 i)) = true) by (by rewrite Hst).
  apply ends_bind, ends_upd_bare; [done|by rewrite Hst|]. intros s2 H2 _. apply ends_bind, ends_gets.
  apply ends_bind, ends_upd_bare; [done..|]. intros s3 H3 _. apply ends_bind, ends_modify. set (s4 := put_nextpid _ s3).
  assert (H4 : rsame s s4) by (apply (rsame_trans s s3 s4); [eauto using rsame_trans|done]).
  apply ends_bind. eapply ends_mono; [apply (ends_calm _ s); [apply pt_release_calm|done..]|]. cbn beta. intros _ s5 H5.
  apply ends_bind. eapply ends_mono; [apply (ends_calm _ s); [apply calm_mem|done..]|]. cbn beta. intros k s6 H6.
  apply ends_bind, ends_upd_bare; [done..|]. intros s7 H7 _.
  assert (H07 : rsame s s7) by eauto using rsame_trans. clear H2 H3 H5 H6 H7.
  assert (Hb0 : ∀ s', rsame s s' → bare (state (procs s' i)) = true).
  { intros s' H'. rewrite (proj2 (proj2 (proj1 H') i)), <- Hb1. symmetry. apply (proj2 (proj1 H1) i). }
  destruct (k =? 0).
  - apply ends_bind, ends_upd_bare; [done|by rewrite Hb0|]. intros s8 H8 _. apply ends_ret. split; [|done]. by eapply rsame_trans.
  - cbv zeta. do 7 (apply ends_bind; eapply ends_mono; [apply (ends_calm _ s); [calm|done|done|eassumption]|]; cbn beta; intros ? ? ?).
    apply ends_ret. split; [done|]. split; [done|]. by apply Hb0.
Qed.

Lemma calm_fs_map {A B} (m : M (fs S) A) (g : A → B) : Calm (X:=X) (res (a ← on_fs m; mret (g a))).
Proof.
  intros R s HR Hs. pose proof (calm_fs (X:=X) m R s HR Hs) as H. revert H.
  unfold ends, kfs, res, zoom, mbind, M_bind, mret, M_ret. by destruct (on_fs m (p_res s)).
Qed.

Lemma idup_calm i : Calm (res (sv_idup (Services:=sv') i)).
Proof. apply (calm_fs_map (idup (index_of i)) (λ _, i)). Qed.

(** It does not sleep. *)
Lemma ends_idup i Q R s : (∀ s', rsame s s' → Q i s') → ends (res (sv_idup (Services:=sv') i)) Q R s.
Proof.
  intros HQ. apply ends_zoom, ends_bind, ends_zoom, ends_zoom. unfold idup.
  apply ends_bind, ends_acquire, ends_bind, ends_modify, ends_bind, ends_release, ends_ret, ends_ret. by apply HQ.
Qed.

Lemma root_calm : Calm (res (sv_namei_root (Services:=sv'))).
Proof. apply (calm_fs_map (namei dev_read 0 [47] (j_name J)) (from_option ptr_of 0)). Qed.

(** Who runs, and which slots have files, is as before. *)
Definition same_states s s' : Prop :=
  curproc s' = curproc s ∧ ∀ j, bare (state (procs s' j)) = bare (state (procs s j)).

Lemma same_states_trans s s1 s2 : same_states s s1 → same_states s1 s2 → same_states s s2.
Proof. intros [A B] [A' B']. split; [congruence|]. intros j. by rewrite B', B. Qed.

Lemma mine_states s s' : same_states s s' → mine s → mine s'.
Proof. intros [Hc Hp] (me & ? & ? & ? & ?). exists me. rewrite Hc. split_and!; [done..| |done]. by rewrite Hp. Qed.

Lemma procs_states s s' : same_procs s s' → same_states s s'.
Proof. intros [Hc Hp]. split; [done|]. intros j. apply Hp. Qed.

Lemma ends_sv_filedup v (Q : Z → K → Prop) R s :
  ends (kfiles (filedup (index_of v))) (λ _ s', Q v s') R s → ends (res (sv_filedup (Services:=sv') v)) Q R s.
Proof.
  unfold ends, kfiles, res, zoom. cbn [sv_filedup sv' kernel_services]. unfold mbind, M_bind, mret, M_ret.
  by destruct (on_files _ (p_res s)).
Qed.

(** A slot of the child is filled in. *)
Lemma ends_give np fd v x e s R :
  (np < NPROC)%nat → (fd < NOFILE)%nat → well_fd v → x = Some np ∨ bare (state (procs s np)) = false → D np = None → owned_but D x e s →
  ends (upd_proc np (λ p, set_ofile (<[fd := v]> (ofile p)) p)) (λ _ s', same_states s s' ∧
    ofile (procs s' np) = <[fd := v]> (ofile (procs s np)) ∧
    owned_but D x (λ i, e i + one (nth fd (ofile (procs s np)) 0 =? ptr_of i) - one (v =? ptr_of i)) s') R s.
Proof.
  intros Hnp Hfd Hv Hx HD Ho. apply ends_modify. set (s' := put_procs _ s).
  assert (E : procs s' np = set_ofile (<[fd := v]> (ofile (procs s np))) (procs s np)) by (cbn; unfold upd; by rewrite Nat.eqb_refl).
  assert (Ej : ∀ j, j ≠ np → procs s' j = procs s j) by (intros j Hj; cbn; unfold upd; by rewrite (proj2 (Nat.eqb_neq j np))).
  split_and!; [split; [done|]|by rewrite E|].
  - intros j. destruct (decide (j = np)) as [->|Hj]; [by rewrite E|by rewrite Ej].
  - apply (owned_set D x e s np fd v s'); try done.
    + by rewrite E.
    + by rewrite E.
    + intros j Hj. by rewrite Ej.
Qed.

Lemma dup_files_spec me np s R :
  (np < NPROC)%nat → me ≠ np → D np = None → owned_but D (Some np) none s → Forall (λ v, v = 0) (ofile (procs s np)) →
  ends (dup_files (SV:=sv') me np) (λ _ s', same_states s s' ∧ owned_but D (Some np) none s') R s.
Proof.
  intros Hnp Hne HD Ho Hz. unfold dup_files.
  apply (ends_for_each _ _ (λ l s1, ∃ k, l = seq k (NOFILE - k) ∧ same_states s s1 ∧ owned_but D (Some np) none s1 ∧
    ∀ fd, (k ≤ fd)%nat → nth fd (ofile (procs s1 np)) 0 = 0)).
  - exists 0%nat. split_and!; [done..|]. intros fd _. by apply zeros_nth.
  - intros fd l' s1 (k & El & Hs1 & Ho1 & Hk). destruct (NOFILE - k)%nat as [|m] eqn:Em; [done|]. injection El as -> ->.
    assert (Hl : (k < NOFILE)%nat) by lia. replace m with (NOFILE - Datatypes.S k)%nat by lia.
    apply ends_bind, ends_gets. cbv zeta. destruct (_ =? 0) eqn:Hv; cbn [negb].
    { apply ends_ret. exists (Datatypes.S k). split_and!; [done..|]. intros fd Hfd. apply Hk. lia. }
    destruct (proj1 (Forall_nth well_fd 0 (ofile (procs s1 me))) (o_fd _ _ _ _ Ho1 me) k) as [E|(n & Hn & E)].
    { by rewrite (o_len _ _ _ _ Ho1). }
    { by rewrite E in Hv. }
    rewrite E. apply ends_bind, ends_sv_filedup. rewrite index_ptr.
    eapply ends_mono; [apply (ends_filedup n (Some np) none s1); [done|done|done]|]. cbn beta.
    intros _ s2 (_ & Hs2 & Ho2). eapply ends_mono; [apply (ends_give np k (ptr_of n) (Some np) (plus none n) s2); [done|done|right; by exists n|by left|done|done]|].
    cbn beta. intros _ s3 (Hs3 & E3 & Ho3). exists (Datatypes.S k). split; [done|]. split; [|split].
    + eauto using same_states_trans, procs_states.
    + eapply owned_ext; [|done]. intros i _. rewrite (proj1 (proj2 Hs2 np)), Hk by lia.
      rewrite (proj1 (ptr_of_nonzero i)), ptr_of_inj. unfold plus, none, at_. simpl. lia.
    + intros fd Hfd. rewrite E3, nth_lookup, list_lookup_insert_ne by lia. rewrite <- nth_lookup, (proj1 (proj2 Hs2 np)). apply Hk. lia.
  - intros s' (k & _ & Hs' & Ho' & _). done.
Qed.

(** The child starts to run. *)
Lemma ends_start np v e s (Q : unit → K → Prop) R :
  bare v = false → owned_but D (Some np) e s → (∀ s', (mine s → mine s') → owned e s' → Q tt s') → ends (upd_proc np (set_state v)) Q R s.
Proof.
  intros Hv [H1 H2 H3 H4 H5 H6] HQ. apply ends_modify. set (s' := put_procs _ s).
  assert (Ho : ∀ j, ofile (procs s' j) = ofile (procs s j)) by (intros j; cbn; unfold upd; by destruct (Nat.eqb_spec j np) as [->|]).
  assert (Hnp : bare (state (procs s' np)) = false) by (cbn; unfold upd; by rewrite Nat.eqb_refl).
  assert (Hj : ∀ j, j ≠ np → procs s' j = procs s j) by (intros j Hj; cbn; unfold upd; by rewrite (proj2 (Nat.eqb_neq j np))).
  assert (Hbj : ∀ j, bare (state (procs s j)) = false → bare (state (procs s' j)) = false).
  { intros j Hb. destruct (decide (j = np)) as [->|Hne]; [done|by rewrite Hj]. }
  apply HQ.
  - intros (me & Hm & Hlt & Hb & HD). exists me. split_and!; auto.
  - split; [|done|..].
    + intros i Hi. change (p_res s') with (p_res s). rewrite H1 by done. do 2 f_equal. apply total_ext. intros j. by rewrite Ho.
    + intros j. by rewrite Ho.
    + intros j. by rewrite Ho.
    + intros j _. destruct (decide (j = np)) as [->|Hne]; [by rewrite Hnp|]. rewrite Hj by done. apply H5. congruence.
    + intros j fd o Ej. destruct (H6 j fd o Ej) as [L1 L2 L3 L4]. split; [done|by apply Hbj| |]; intros k; rewrite Ho; auto.
Qed.

(** A process that leaves is not in a slot without files. *)
Lemma bare_stays e x s np : owned_but D x e s → bare (state (procs s np)) = true → D np = None.
Proof. intros Ho Hb. destruct (D np) as [[fd o]|] eqn:E; [|done]. destruct (o_exit _ _ _ _ Ho np fd o E) as [_ Hn _ _]. congruence. Qed.

(** The end of [fork] and [thread_create]. *)
Lemma start_child_fine me np s :
  curproc s = Some me → (np < NPROC)%nat → bare (state (procs s np)) = true → fine s →
  ends (dup_files (SV:=sv') me np;;
       p ← the_proc me;
       c ← res (sv_idup (cwd p));
       upd_proc np (set_cwd c);;
       q ← the_proc np;
       upd_proc np (set_state RUNNABLE);;
       upd_proc np (λ x, set_name (copy_name (name p) (name x)) x);;
       mret (pid q)) (λ _ s', fine s') fine s.
Proof.
  intros Hm Hnp Hb [Ha Ho]. assert (Hne : me ≠ np).
  { destruct Ha as (me' & Hm' & _ & Hb' & _). rewrite Hm in Hm'. injection Hm' as <-. congruence. }
  apply ends_bind. eapply ends_mono; [apply dup_files_spec; [done|done|by eapply bare_stays| |]|].
  - destruct Ho as [H1 H2 H3 H4 H5 H6]. split; [done..| |done]. intros j _. by apply H5.
  - by apply (o_bare _ _ _ _ Ho).
  - cbn beta. intros _ s1 [Hs1 Ho1]. pose proof (mine_states _ _ Hs1 Ha) as Ha1. apply ends_bind, ends_gets.
    apply ends_bind, ends_idup. intros s2 H2.
    apply ends_bind, ends_upd_bare; [done..|]. intros s3 H3 _. apply ends_bind, ends_gets. apply ends_bind.
    assert (H13 : rsame s1 s3) by eauto using rsame_trans.
    apply (ends_start np _ none); [done|by eapply owned_same|]. intros s4 Ha4 Ho4. apply fine_calm; [calm|].
    split; [|done]. apply Ha4. by eapply mine_same.
Qed.

Lemma fork_fine s : fine s → ends (fork (SV:=sv')) (λ _ s', fine s') fine s.
Proof.
  intros Hs. pose proof Hs as [(me & Hm & _) _]. unfold fork, cur. do 2 apply ends_bind. apply ends_gets. rewrite Hm. apply ends_ret.
  apply ends_bind. eapply ends_mono; [apply allocproc_spec; [apply fine_stable|done]|]. cbn beta.
  intros [np|] s1 [H1 Hnp]; [|apply ends_ret; by eapply fine_stable]. pose proof (fine_stable _ _ H1 Hs) as Hf1.
  destruct Hnp as [Hnp Hb]. apply ends_bind, ends_gets. apply ends_bind. eapply ends_mono; [apply (calm_mem _ fine); [apply fine_stable|done]|].
  cbn beta. intros d s2 H2. apply ends_bind, ends_upd_bare; [done..|]. intros s3 H3 _. assert (H13 : rsame s1 s3) by eauto using rsame_trans.
  assert (Hb3 : ∀ s', rsame s1 s' → bare (state (procs s' np)) = true) by (intros s' [[_ H'] _]; by rewrite (proj2 (H' np))).
  destruct (d =? 0).
  - apply ends_bind, ends_gets. apply ends_bind. eapply ends_mono; [apply (ends_calm _ s1); [apply calm_mem|apply fine_stable|done..]|].
    cbn beta. intros _ s4 H4. apply ends_bind, ends_upd_bare; [done..|]. intros s5 H5 _. assert (H15 : rsame s1 s5) by eauto using rsame_trans.
    apply ends_bind, ends_upd_bare; [done|by rewrite Hb3|]. intros s6 H6 _. apply ends_ret. apply (fine_stable s1); [|done].
    eauto using rsame_trans.
  - do 5 (apply ends_bind; eapply ends_mono; [apply (ends_calm _ s1); [calm|apply fine_stable|done|eassumption]|]; cbn beta; intros ? ? ?).
    match goal with H : rsame s1 ?z |- ends _ _ _ ?z => rename H into H' end.
    apply start_child_fine; [|done|by apply Hb3|by apply (fine_stable s1)].
    rewrite (proj1 (proj1 H')), (proj1 (proj1 H1)). done.
Qed.

Lemma thread_stack_init_calm st a : Calm (thread_stack_init (SV:=sv') st a).
Proof. unfold thread_stack_init. calm. Qed.
#[local] Hint Resolve thread_stack_init_calm : calm.

Lemma thread_create_fine tm st a s : fine s → ends (thread_create (SV:=sv') tm st a) (λ _ s', fine s') fine s.
Proof.
  intros Hs. pose proof Hs as [(me & Hm & _) _]. unfold thread_create, cur. do 2 apply ends_bind. apply ends_gets. rewrite Hm. apply ends_ret.
  apply ends_bind. eapply ends_mono; [apply allocproc_spec; [apply fine_stable|done]|]. cbn beta.
  intros [np|] s1 [H1 Hnp]; [|apply ends_ret; by eapply fine_stable]. pose proof (fine_stable _ _ H1 Hs) as Hf1.
  destruct Hnp as [Hnp Hb]. apply ends_bind, ends_gets. pose proof (rsame_refl s1).
  do 7 (apply ends_bind; eapply ends_mono; [apply (ends_calm _ s1); [calm|apply fine_stable|done|eassumption]|]; cbn beta; intros ? ? ?).
  match goal with H : rsame s1 ?z |- ends _ _ _ ?z => rename H into H' end.
  apply start_child_fine; [|done| |by apply (fine_stable s1)].
  - rewrite (proj1 (proj1 H')), (proj1 (proj1 H1)). done.
  - by rewrite (proj2 (proj2 (proj1 H') np)).
Qed.

End calls.

(** ** The end of a process *)

Section exits.
Context {S X : Type} {BO : BufOps S} {MA : Machine X} {AW : Awake X}.
Context (dev_read : Z → option (nat → Z → M (fs S) (Z * list Z))).
Context (J : junk).
Abbreviation G := (fstate S X * sysglob)%type.
Abbreviation K := (pst G).
#[local] Instance sv_exit : Services G := kernel_services dev_read (j_name J).
Implicit Types (s : K) (D : leaving) (R : K → Prop).

(** What is left of a round of the loop of [exit] after the call of [fileclose]
    -- src/proc.c:197-197 *)
Definition clear_fd (me fd : nat) : M K unit := upd_proc me (λ x, set_ofile (<[fd := 0]> (ofile x)) x).

(** A round of the loop -- src/proc.c:195-198 *)
Definition close_file (me fd : nat) : M K unit :=
  p ← the_proc me;
  let f := nth fd (ofile p) 0 in
  if negb (f =? 0) then res (sv_fileclose f);; clear_fd me fd else mret tt.

(** The rest of [exit]: the directory is given up -- src/proc.c:201-202 *)
Definition exit_cwd (me : nat) : M K unit :=
  p ← the_proc me;
  res (sv_iput (cwd p));;
  upd_proc me (set_cwd 0).

(** ... and the process becomes a zombie -- src/proc.c:204-221 *)
Definition exit_end (me : nat) : M K bool :=
  pt_acquire;;
  p ← the_proc me;
  wakeup1 (proc_chan (parent p));;
  reparent me;;
  upd_proc me (set_state ZOMBIE);;
  sched_enter.

Lemma exit_parts :
  exit (SV:=sv_exit) = (me ← cur; o ← gets initproc;
    if bool_decide (o = Some me) then panic "init exiting" else
    for_each (seq 0 NOFILE) (close_file me);;
    p ← the_proc me; res (sv_iput (cwd p));; upd_proc me (set_cwd 0);; exit_end me).
Proof. reflexivity. Qed.

(** What a process on its way out has counted down. *)
Definition down (v : option (nat * option nat)) (i : nat) : Z := match v with Some (_, Some n) => at_ n i | _ => 0 end.

(** A process goes on its way. *)
Lemma owned_leaving D D' me x e e' s :
  (me < NPROC)%nat → (∀ j, j ≠ me → D' j = D j) → (∀ fd o, D' me = Some (fd, o) → left_at s me fd o) →
  (∀ i, e' i = e i + down (D' me) i - down (D me) i) → owned_but D x e s → owned_but D' x e' s.
Proof.
  intros Hme Hj Hl He [H1 H2 H3 H4 H5 H6]. split; [|done..|].
  - intros i Hi. rewrite H1, He by done. unfold dropped.
    rewrite (total_upd (λ j, match D j with Some (_, Some n) => at_ n i | _ => 0 end) (λ j, match D' j with Some (_, Some n) => at_ n i | _ => 0 end) me);
      [|done|intros j Hne; by rewrite Hj]. unfold down. lia.
  - intros j fd o E. destruct (decide (j = me)) as [->|Hne]; [by apply Hl|]. rewrite Hj in E by done. by apply H6.
Qed.

Lemma upd_me {A} (D : nat → A) me v : upd D me v me = v.
Proof. unfold upd. by rewrite Nat.eqb_refl. Qed.

Lemma upd_other {A} (D : nat → A) me v j : j ≠ me → upd D me v j = D j.
Proof. intros Hj. unfold upd. by rewrite (proj2 (Nat.eqb_neq j me)). Qed.

Lemma owned_move D me v e' s :
  (me < NPROC)%nat → (∀ fd o, v = Some (fd, o) → left_at s me fd o) → (∀ i, e' i = down v i - down (D me) i) →
  owned_but D None none s → owned_but (upd D me v) None e' s.
Proof.
  intros Hme Hl He. apply (owned_leaving D (upd D me v) me); [done|by intros; apply upd_other|rewrite upd_me; done|].
  intros i. rewrite upd_me, He. unfold none. lia.
Qed.

(** The descriptor is cleared. *)
Lemma clear_fd_step D me fd n s R :
  D me = Some (fd, Some n) → owned_but D None none s →
  ends (clear_fd me fd) (λ _ s', same_states s s' ∧ owned_but (upd D me (Some (Datatypes.S fd, None))) None none s') R s.
Proof.
  intros ED Ho. pose proof (o_exit _ _ _ _ Ho me fd _ ED) as [Hme Hb Hdone Hfile]. destruct (Hfile n eq_refl) as (Hfd & Hn & E).
  assert (Ho1 : owned_but (upd D me None) None (minus none n) s).
  { apply owned_move; [done|done| |done]. intros i. rewrite ED. unfold minus, none. simpl. lia. }
  eapply ends_mono; [apply (ends_give (upd D me None) me fd 0 None (minus none n) s); [done|done|by left|by right|apply upd_me|done]|].
  cbn beta. intros _ s' (Hs & Eo & Ho'). split; [done|].
  apply (owned_leaving (upd D me None) _ me None (λ i, minus none n i + one (nth fd (ofile (procs s me)) 0 =? ptr_of i) - one (0 =? ptr_of i)));
    [done|intros j Hj; by rewrite !upd_other|rewrite upd_me|rewrite !upd_me|done].
  - intros k o [= <- <-]. split; [done|by rewrite (proj2 Hs)| |done]. intros k Hk. rewrite Eo, nth_lookup. destruct (decide (k = fd)) as [->|Hne].
    + rewrite list_lookup_insert_eq; [done|]. by rewrite (o_len _ _ _ _ Ho).
    + rewrite list_lookup_insert_ne by done. rewrite <- nth_lookup. apply Hdone. lia.
  - intros i. rewrite E, ptr_of_inj, (proj1 (ptr_of_nonzero i)). unfold minus, none, at_. simpl. lia.
Qed.

(** One round of the loop: done, or asleep in [fileclose]. *)
Lemma close_file_step D me fd s :
  D me = Some (fd, None) → (fd < NOFILE)%nat → owned_but D None none s →
  ends (close_file me fd) (λ _ s', same_states s s' ∧ owned_but (upd D me (Some (Datatypes.S fd, None))) None none s')
    (λ s', ∃ n, nth fd (ofile (procs s me)) 0 = ptr_of n ∧ same_procs s s' ∧ owned_but (upd D me (Some (fd, Some n))) None none s') s.
Proof.
  intros ED Hfd Ho. pose proof (o_exit _ _ _ _ Ho me fd _ ED) as [Hme Hb Hdone _]. unfold close_file. apply ends_bind, ends_gets. cbv zeta.
  destruct (Z.eqb_spec (nth fd (ofile (procs s me)) 0) 0) as [Hz|Hz]; cbn [negb].
  { apply ends_ret. split; [done|]. apply owned_move; [done| |by intros i; rewrite ED|done]. intros k o [= <- <-]. split; [done..| |done].
    intros k Hk. destruct (decide (k = fd)) as [->|]; [done|]. apply Hdone. lia. }
  destruct (fd_file D none s me fd Ho Hfd Hz) as (n & Hn & E). rewrite E.
  assert (Hs' : ∀ s', same_procs s s' → owned_but D None (minus none n) s' → owned_but (upd D me (Some (fd, Some n))) None none s').
  { intros s' Hs Ho'. apply (owned_leaving D _ me None (minus none n)); [done|intros; by apply upd_other|rewrite upd_me|rewrite upd_me, ED|done].
    - intros k o [= <- <-]. apply (left_same s); [done|]. split; [done..|]. intros k [= <-]. done.
    - intros i. unfold minus, none. simpl. lia. }
  apply ends_bind. unfold sv_fileclose, sv_exit, kernel_services. rewrite index_ptr.
  eapply ends_mono; [apply (ends_fileclose D n none s _ Ho)|].
  - intros _ s' Hs Ho'. exists n. auto.
  - cbn beta. intros _ s1 (Hs1 & Ho1 & _). eapply ends_mono; [apply (clear_fd_step (upd D me (Some (fd, Some n))) me fd n); [apply upd_me|auto]|].
    cbn beta. intros _ s2 [Hs2 Ho2]. split; [eauto using same_states_trans, procs_states|].
    eapply (owned_leaving _ _ me); [done| |rewrite upd_me| |exact Ho2].
    + intros j Hj. by rewrite !upd_other.
    + intros k o Ek. apply (o_exit _ _ _ _ Ho2). by rewrite upd_me.
    + intros i. rewrite !upd_me. lia.
Qed.

(** A process without files becomes a zombie. *)
Lemma exit_end_step D me s :
  D me = Some (NOFILE, None) → owned_but D None none s →
  ends (exit_end me) (λ _ s', owned_but (upd D me None) None none s') (λ _, True) s.
Proof.
  intros ED Ho. pose proof (rsame_refl s). unfold exit_end.
  pose proof (pt_acquire_calm (S:=S) (X:=X)). pose proof (wakeup1_calm (S:=S) (X:=X)). pose proof (reparent_calm (S:=S) (X:=X)).
  do 4 (apply ends_bind; eapply ends_mono; [apply (ends_calm _ s); [calm|done|done|eassumption]|]; cbn beta; intros ? ? ?).
  match goal with H : rsame s ?z |- ends _ _ _ ?z => apply (owned_same _ _ _ _ _ H) in Ho; revert Ho; generalize z end.
  clear - ED. intros s1 Ho. pose proof (o_exit _ _ _ _ Ho me _ _ ED) as [Hme Hb Hdone _].
  assert (Hz : Forall (λ v, v = 0) (ofile (procs s1 me))).
  { apply zeros_nth. intros k. destruct (decide (k < NOFILE)%nat) as [Hk|Hk]; [by apply Hdone|]. apply nth_overflow. rewrite (o_len _ _ _ _ Ho). lia. }
  apply ends_bind, ends_modify. set (s2 := put_procs _ s1).
  assert (E : ∀ j, ofile (procs s2 j) = ofile (procs s1 j)) by (intros j; cbn; unfold upd; by destruct (Nat.eqb_spec j me) as [->|]).
  assert (Hst : ∀ j, j ≠ me → procs s2 j = procs s1 j) by (intros j Hj; cbn; by apply upd_other).
  assert (Ho2 : owned_but (upd D me None) None none s2).
  { apply (owned_move D me None none) in Ho as [H1 H2 H3 H4 H5 H6]; [|done|done|by intros i; rewrite ED]. split; [|done|..].
    - intros i Hi. change (p_res s2) with (p_res s1). rewrite H1 by done. do 2 f_equal. apply total_ext. intros j. by rewrite E.
    - intros j. by rewrite E.
    - intros j. by rewrite E.
    - intros j _ Hbj. rewrite E. destruct (decide (j = me)) as [->|Hne]; [done|]. rewrite Hst in Hbj by done. by apply H5.
    - intros j fd o Ej. assert (Hne : j ≠ me) by (intros ->; by rewrite upd_me in Ej). destruct (H6 j fd o Ej) as [L1 L2 L3 L4].
      split; [done|by rewrite Hst|..]; intros k; rewrite E; auto. }
  eapply ends_mono; [by apply (ends_calm _ s2); [apply sched_enter_calm|..]|]. cbn beta. intros _ s3 H3. by eapply owned_same.
Qed.

(** [exit] from its beginning to its end. *)
Lemma exit_owned D s : fine D s → ends (exit (SV:=sv_exit)) (λ _ s', owned_but D None none s') (λ _, True) s.
Proof.
  intros [(me & Hm & Hme & Hb & HD) Ho]. rewrite exit_parts. unfold cur. do 2 apply ends_bind. apply ends_gets. rewrite Hm. apply ends_ret.
  apply ends_bind, ends_gets. destruct (bool_decide _); [done|]. apply ends_bind.
  apply (ends_for_each _ _ (λ l s1, ∃ k, l = seq k (NOFILE - k) ∧ (k ≤ NOFILE)%nat ∧ owned_but (upd D me (Some (k, None))) None none s1)).
  - exists 0%nat. split_and!; [done|unfold NOFILE; lia|]. apply owned_move; [done| |by intros i; rewrite HD|done].
    intros k o [= <- <-]. split; [done|done|lia|done].
  - intros fd l' s1 (k & El & Hk & Ho1). destruct (NOFILE - k)%nat as [|m] eqn:Em; [done|]. injection El as -> ->.
    eapply ends_weaken; [apply (close_file_step (upd D me (Some (k, None))) me k s1); [apply upd_me|lia|done]| |done]. cbn beta.
    intros _ s2 [_ Ho2]. exists (Datatypes.S k). split; [f_equal; lia|]. split; [lia|].
    eapply (owned_leaving _ _ me); [done| | | |exact Ho2].
    + intros j Hj. by rewrite !upd_other.
    + intros k' o Ek. apply (o_exit _ _ _ _ Ho2). by rewrite upd_me in *.
    + intros i. rewrite !upd_me. lia.
  - intros s1 (k & El & Hk & Ho1). assert (k = NOFILE) as -> by (destruct (NOFILE - k)%nat eqn:?; [lia|done]).
    apply ends_bind, ends_gets. pose proof (rsame_refl s1).
    do 2 (apply ends_bind; eapply ends_mono; [apply (ends_calm _ s1); [calm|done|done|eassumption]|]; cbn beta; intros ? ? ?).
    match goal with H : rsame s1 ?z |- ends _ _ _ ?z => apply (owned_same _ _ _ _ _ H) in Ho1 end.
    eapply ends_mono; [apply (exit_end_step (upd D me (Some (NOFILE, None))) me); [apply upd_me|done]|]. cbn beta. intros _ s4 Ho4.
    eapply (owned_leaving _ _ me); [done| |by rewrite HD| |exact Ho4].
    + intros j Hj. by rewrite !upd_other.
    + intros i. rewrite !upd_me, HD. simpl. lia.
Qed.
End exits.

(** ** The whole system *)

Section system.
Context {S X : Type} {BO : BufOps S} {MA : Machine X} {AW : Awake X}.
Context (dev_read : Z → option (nat → Z → M (fs S) (Z * list Z))).
Context (dev_write : Z → option (nat → list Z → M (fs S) Z)).
Context (J : junk).
Abbreviation G := (fstate S X * sysglob)%type.
Abbreviation K := (pst G).
#[local] Instance sv_sys : Services G := kernel_services dev_read (j_name J).
#[local] Instance fc : FileCalls K := sysfile_calls dev_read dev_write J.
Implicit Types (s : K) (D : leaving).

Definition kept D (r : callres) s' : Prop := owned_but D None none s' ∧ (r ≠ Exited → fine D s').

Lemma kept_fine D (m : M K callres) s R : ends m (λ _ s', fine D s') R s → ends m (kept D) R s.
Proof. intros H. eapply ends_mono; [exact H|]. intros r s' [Ha Ho]. split; [done|]. by split. Qed.

Lemma special_call num : plain num = false → num = 1 ∨ num = 2 ∨ num = 25 ∨ num = 4 ∨ num = 10 ∨ num = 15 ∨ num = 21.
Proof. unfold plain. cbn [forallb]. rewrite !andb_false_iff, !negb_false_iff, !Z.eqb_eq. intuition congruence. Qed.

(** A call that sleeps leaves the counts right, unless it is [exit]. *)
Lemma syscalls_kept D junk num s :
  fine D s → ends (syscalls (SV:=sv_sys) junk num) (kept D) (λ s', num = 2 ∨ fine D s') s.
Proof.
  intros Hs. assert (Hw : ∀ m : M K callres, ends m (kept D) (fine D) s → ends m (kept D) (λ s', num = 2 ∨ fine D s') s).
  { intros m H. eapply ends_weaken; [exact H|done|auto]. }
  destruct (plain num) eqn:Hp; [apply Hw, kept_fine, fine_tame; [by apply syscalls_tame|done]|].
  apply special_call in Hp as [->|[->|[->|[->|[->|[->| ->]]]]]]; cbn [syscalls file_call fc sysfile_calls].
  - apply Hw, kept_fine, ends_bind. eapply ends_mono; [by apply fork_fine|]. cbn beta. intros r s1 H1. by apply ends_ret.
  - apply ends_bind. eapply ends_weaken; [by apply exit_owned| |by left]. cbn beta. intros _ s1 H1. by apply ends_ret.
  - apply Hw, kept_fine. unfold sys_thread_create. pose proof (argptr_calm dev_read J) as Hp. pose proof (argstr_calm dev_read J) as Hst.
    do 3 (apply ends_bind; eapply ends_mono; [apply fine_calm; [calm|done]|]; cbn beta; clear Hs; intros ? ? Hs).
    apply ends_bind. eapply ends_mono; [by apply thread_create_fine|]. cbn beta. intros r s1 H1. by apply ends_ret.
  - by apply Hw, kept_fine, sys_pipe_fine.
  - by apply Hw, kept_fine, sys_dup_fine.
  - by apply Hw, kept_fine, sys_open_fine.
  - by apply Hw, kept_fine, sys_close_fine.
Qed.

Lemma syscall_kept D junk me s :
  curproc s = Some me → fine D s →
  ends (syscall (SV:=sv_sys) junk) (kept D) (λ s', s32 (tf_eax (tf (procs s me))) = 2 ∨ fine D s') s.
Proof.
  intros Hm Hs. unfold syscall. apply ends_bind. unfold ends at 1. rewrite (my_run me s Hm).
  cbv zeta. set (num := s32 (tf_eax _)). assert (Hw : ∀ A (m : M K A) Q s1, ends m Q (fine D) s1 → ends m Q (λ s', num = 2 ∨ fine D s') s1).
  { intros A m Q s1 H. eapply ends_weaken; [exact H|done|auto]. }
  destruct (_ && _); [|apply Hw, kept_fine, fine_calm; [unfold printk; calm|done]].
  apply ends_bind, Hw. eapply ends_mono; [apply fine_calm; [apply sys_end_burst_calm|done]|]. cbn beta. intros _ s2 H2.
  apply ends_bind. eapply ends_mono; [by apply syscalls_kept|]. intros r s3 [Ho3 Hf3].
  apply ends_bind. destruct r; try (apply ends_ret; by apply ends_ret).
  apply Hw. eapply ends_mono; [apply fine_calm; [apply syscall_return_calm|by apply Hf3]|]. cbn beta. intros _ s4 H4.
  apply ends_ret. by split; [apply H4|].
Qed.

(** What the kernel does for the process that runs: a call, the rest of one that
    slept, giving up the CPU; [t] are the registers with which the program traps.
    The rest of a call that slept in the file system is anything that touches
    neither descriptors nor counts, for all calls but [sys_open], which goes on
    with [open_file], and [exit], which has steps of its own. *)
Inductive process_op : ∀ {A}, M K A → Prop :=
  | op_user t : process_op (upd_my (set_tf t))
  | op_syscall junk : process_op (syscall (SV:=sv_sys) junk)
  | op_rest A (m : M K A) : Calm m → process_op m
  | op_open ip omode : process_op (open_file ip omode)
  | op_sleep (e : bool) t n : process_op (sleep_resume e t n)
  | op_wait (e : bool) : process_op (wait_resume (SV:=sv_sys) e)
  | op_join (e : bool) st : process_op (join_resume (SV:=sv_sys) e st)
  | op_read f p n : process_op (read_file dev_read f p n)
  | op_write f rest n : process_op (write_file dev_write f rest n)
  | op_mutex i : process_op (mtx_try i)
  | op_return v : process_op (syscall_return v)
  | op_yield : process_op yield_enter
  | op_yield_exit (e : bool) : process_op (yield_exit e)
  | op_forkret : process_op (forkret (SV:=sv_sys))
  | op_exit : process_op (exit (SV:=sv_sys)).

(** What it does for no process. *)
Inductive cpu_op : ∀ {A}, M K A → Prop :=
  | op_userinit : cpu_op (userinit (SV:=sv_sys))
  | op_scheduler : cpu_op (scheduler_enter (SV:=sv_sys))
  | op_switched i : cpu_op (scheduler_back (SV:=sv_sys) i)
  | op_wakeup c : cpu_op (wakeup c).

(** [exit], called by the program or by the kernel. *)
Inductive exits (me : nat) s : ∀ {A}, M K A → Prop :=
  | exits_call junk : s32 (tf_eax (tf (procs s me))) = 2 → exits me s (syscall (SV:=sv_sys) junk)
  | exits_now : exits me s (exit (SV:=sv_sys)).

Definition running me s : Prop := curproc s = Some me ∧ (me < NPROC)%nat ∧ state (procs s me) = RUNNING.

(** The process of a computation that sleeps is put to sleep; the lock is
    released already. *)
Definition dozes {A} (m : M K A) s s' : Prop :=
  ∃ c s1 b, m s = Sleep c s1 ∧ sleep_enter (Some c) (Some (mret tt)) s1 = Ok b s'.

(** The steps.  [by_process] and [by_sleep]: an operation of the process that
    runs is carried out, or as much of it as there is before it sleeps.  The other
    rules are [exit], which may sleep in its loop and when it gives up the
    directory. *)
Inductive sys_step : K * leaving → K * leaving → Prop :=
  | by_process me A (m : M K A) a s s' D : running me s → D me = None → process_op m → m s = Ok a s' → sys_step (s, D) (s', D)
  | by_sleep me A (m : M K A) s s' D : running me s → D me = None → process_op m → ¬ exits me s m → dozes m s s' → sys_step (s, D) (s', D)
  | by_cpu A (m : M K A) a s s' D : cpu_op m → m s = Ok a s' → sys_step (s, D) (s', D)
  | exit_starts me s D : running me s → D me = None → initproc s ≠ Some me → sys_step (s, D) (s, upd D me (Some (0%nat, None)))
  | exit_closes me fd s s' D : running me s → D me = Some (fd, None) → (fd < NOFILE)%nat → close_file dev_read J me fd s = Ok tt s' →
      sys_step (s, D) (s', upd D me (Some (Datatypes.S fd, None)))
  | exit_sleeps me fd n s s' D : running me s → D me = Some (fd, None) → (fd < NOFILE)%nat → nth fd (ofile (procs s me)) 0 = ptr_of n →
      dozes (close_file dev_read J me fd) s s' → sys_step (s, D) (s', upd D me (Some (fd, Some n)))
  | exit_rests me A (m : M K A) s s' D : running me s → D me ≠ None → Calm m → (∃ a, m s = Ok a s') ∨ dozes m s s' → sys_step (s, D) (s', D)
  | exit_clears me fd n s s' D : running me s → D me = Some (fd, Some n) → clear_fd me fd s = Ok tt s' →
      sys_step (s, D) (s', upd D me (Some (Datatypes.S fd, None)))
  | exit_ends me b s s' D : running me s → D me = Some (NOFILE, None) → exit_end me s = Ok b s' → sys_step (s, D) (s', upd D me None).

(** The steps of [exit], one after the other, are [exit]. *)
Lemma close_file_runs me fd s : running me s → ends (close_file dev_read J me fd) (λ _ s', running me s') (λ _, True) s.
Proof.
  intros (Hm & Hlt & Hr). unfold close_file. apply ends_bind, ends_gets. cbv zeta. destruct (negb _); [|by apply ends_ret].
  apply ends_bind, ends_zoom. unfold ends at 1. destruct (sv_fileclose _ _) as [[] g| | | |]; try done. apply ends_modify.
  split_and!; [done..|]. cbn [procs put_procs]. by rewrite upd_me.
Qed.

Lemma exit_cwd_runs me s : running me s → ends (exit_cwd dev_read J me) (λ _ s', running me s') (λ _, True) s.
Proof.
  intros (Hm & Hlt & Hr). unfold exit_cwd. apply ends_bind, ends_gets.
  apply ends_bind, ends_zoom. unfold ends at 1. destruct (sv_iput _ _) as [[] g| | | |]; try done. apply ends_modify.
  split_and!; [done..|]. cbn [procs put_procs]. by rewrite upd_me.
Qed.

Lemma exit_is_steps me D b s s' :
  running me s → D me = None → exit (SV:=sv_sys) s = Ok b s' →
  ∃ D', (∀ j, D' j = D j) ∧ rtc sys_step (s, D) (s', D').
Proof.
  intros Hr HD E. assert (H : ends (exit (SV:=sv_sys)) (λ _ s', ∃ D', (∀ j, D' j = D j) ∧ rtc sys_step (s, D) (s', D')) (λ _, True) s); [|by unfold ends in H; rewrite E in H].
  rewrite (exit_parts dev_read J : exit (SV:=sv_sys) = _). unfold cur. do 2 apply ends_bind. apply ends_gets. rewrite (proj1 Hr). apply ends_ret, ends_bind, ends_gets.
  case_bool_decide as Hi; [done|]. apply ends_bind.
  apply (ends_for_each _ _ (λ l s1, ∃ k D1, l = seq k (NOFILE - k) ∧ (k ≤ NOFILE)%nat ∧ running me s1 ∧ D1 me = Some (k, None) ∧
    (∀ j, j ≠ me → D1 j = D j) ∧ rtc sys_step (s, D) (s1, D1))).
  - exists 0%nat, (upd D me (Some (0%nat, None))). split_and!; [done|unfold NOFILE; lia|done|apply upd_me|intros; by apply upd_other|].
    apply rtc_once. by constructor.
  - intros fd l' s1 (k & D1 & El & Hk & Hr1 & HD1 & Hj & Hrtc). destruct (NOFILE - k)%nat as [|m] eqn:Em; [done|]. injection El as -> ->.
    pose proof (close_file_runs me k s1 Hr1) as H. unfold ends in *. destruct (close_file dev_read J me k s1) as [[] s2| | | |] eqn:Ec; try done.
    exists (Datatypes.S k), (upd D1 me (Some (Datatypes.S k, None))). split_and!; [f_equal; lia|lia|done|apply upd_me| |].
    + intros j Hne. by rewrite upd_other, Hj.
    + eapply rtc_r; [done|]. by apply exit_closes; [..|lia|].
  - intros s1 (k & D1 & El & Hk & Hr1 & HD1 & Hj & Hrtc). assert (k = NOFILE) as -> by (destruct (NOFILE - k)%nat eqn:?; [lia|done]).
    pose proof (exit_cwd_runs me s1 Hr1) as H. unfold exit_cwd in H. apply ends_bind, ends_gets. 
    unfold ends, mbind, M_bind, the_proc, gets in *. destruct (res (sv_iput _) s1) as [[] s2| | | |] eqn:E2; try done.
    destruct (upd_proc me (set_cwd 0) s2) as [[] s3| | | |] eqn:E3; try done. destruct (exit_end me s3) as [b' s4| | | |] eqn:E4; try done.
    exists (upd D1 me None). split.
    + intros j. destruct (decide (j = me)) as [->|Hne]; [by rewrite upd_me|by rewrite upd_other, Hj].
    + eapply rtc_r; [|by eapply exit_ends]. eapply rtc_r; [done|]. eapply (exit_rests me _ (exit_cwd dev_read J me)); [done|by rewrite HD1| |left; exists tt].
      * unfold exit_cwd. calm.
      * unfold exit_cwd, mbind, M_bind, the_proc, gets. by rewrite E2.
Qed.

(** After the kernel is loaded: no process, no open file. *)
Definition fresh s : Prop := (∀ j, procs s j = bss_proc) ∧ ∀ i, refs (p_res s).1 i = 0 ∧ fl_type (ftab (p_res s).1 i) = FD_NONE.

Definition nobody : leaving := λ _, None.

Lemma fresh_owned s : fresh s → owned_but nobody None none s.
Proof.
  intros [Hp Hr]. assert (Hz : ∀ j, Forall (λ v, v = 0) (ofile (procs s j))).
  { intros j. rewrite Hp. apply Forall_forall. intros v Hv. by apply elem_of_replicate in Hv as [-> _]. }
  split; [|by intros i _; apply Hr|..|done].
  - intros i _. rewrite (proj1 (Hr i)). unfold none. pose proof (total_ext (λ _, 0) (λ j, occurs (ptr_of i) (ofile (procs s j)))) as E.
    unfold holders. rewrite E; [done|]. intros j. apply occurs_zero; [unfold ptr_of; lia|done].
  - intros j. by rewrite Hp.
  - intros j. eapply Forall_impl; [apply Hz|]. by left.
  - intros j _ _. apply Hz.
Qed.

Lemma running_fine D me s : running me s → D me = None → owned_but D None none s → fine D s.
Proof. intros (Hm & Hlt & Hr) HD Ho. split; [|done]. exists me. by rewrite Hr. Qed.

Lemma process_op_owned {A} D me (m : M K A) s :
  process_op m → curproc s = Some me → fine D s →
  ends m (λ _ s', owned_but D None none s') (λ s', exits me s m ∨ fine D s') s.
Proof.
  intros Hop Hm Hs. assert (Hf : ∀ B (n : M K B), Tame n → ends n (λ _ s', owned_but D None none s') (λ s', exits me s n ∨ fine D s') s).
  { intros B n Hn. eapply ends_weaken; [by apply fine_tame|by intros _ s' [_ H]|by right]. }
  destruct Hop.
  15: { eapply ends_weaken; [by apply exit_owned|done|]. intros s' _. left. constructor. }
  4: { eapply ends_weaken; [by apply (open_file_fine D)|by intros _ s' [_ H]|by right]. }
  2: { eapply ends_weaken; [by apply (syscall_kept D junk me)|by intros _ s' [H _]|]. intros s' [H|H]; [left; by constructor|by right]. }
  all: apply Hf; first [apply sleep_resume_tame | apply wait_resume_tame | apply join_resume_tame | apply yield_enter_tame | apply tame_calm].
  - calm.
  - done.
  - apply read_file_calm.
  - apply write_file_calm.
  - apply mtx_try_calm.
  - apply syscall_return_calm.
  - unfold yield_exit. apply calm_bind; [apply sched_exit_calm|intros; apply pt_release_calm].
  - unfold forkret. apply calm_bind; [apply pt_release_calm|]. intros _. apply calm_bind; [calm|].
    intros [|]; [|calm]. apply calm_bind; [|intros; apply calm_fs]. intros R s1 _ _. by apply ends_modify.
Qed.

(** Putting the process to sleep keeps what is stable. *)
Lemma sleep_enter_keeps c b me (R : K → Prop) s s' :
  stable R → R s → curproc s = Some me → (me < NPROC)%nat → bare (state (procs s me)) = false →
  sleep_enter (Some c) (Some (mret tt)) s = Ok b s' → R s'.
Proof.
  intros HR Hs Hm Hlt Hb E. pose proof (sleep_some_tame (Some c) (mret tt) (calm_ret tt) R s HR Hs) as H.
  specialize (H ltac:(by exists me)). unfold ends in H. rewrite E in H. by eapply HR.
Qed.

Lemma owned_stable D : stable (λ s, owned_but D None none s).
Proof. intros s s' H. by apply owned_same. Qed.

Lemma owned_weaken D np e s : owned_but D None e s → owned_but D (Some np) e s.
Proof. intros [H1 H2 H3 H4 H5 H6]. split; [done..| |done]. intros j _. by apply H5. Qed.

Lemma owned_calm {A} D (m : M K A) s :
  Calm m → owned_but D None none s → ends m (λ _ s', owned_but D None none s') (λ _, True) s.
Proof. intros Hm Ho. eapply ends_mono; [by apply Hm|]. cbn beta. intros _ s' H. by eapply owned_same. Qed.

Lemma sched_pick_owned D i s :
  owned_but D None none s → ends (sched_pick (SV:=sv_sys) i) (λ _ s', owned_but D None none s') (λ _, True) s.
Proof.
  intros Ho. unfold sched_pick. apply ends_bind, ends_gets. destruct (List.find _ _) as [p|].
  2: { apply owned_calm; [|done]. apply calm_bind; [apply pt_release_calm|intros; calm]. }
  apply ends_bind, ends_modify. apply ends_bind. eapply ends_mono; [apply owned_calm; [apply calm_mem|]|].
  - destruct Ho as [H1 H2 H3 H4 H5 H6]. split; [done..|]. intros j fd o E. by destruct (H6 j fd o E).
  - cbn beta. intros _ s1 H1. apply ends_bind, (ends_start D p _ none); [done|by apply owned_weaken|]. intros s2 _ H2. by apply ends_ret.
Qed.

Lemma userinit_owned D s :
  owned_but D None none s → ends (userinit (SV:=sv_sys)) (λ _ s', owned_but D None none s') (λ _, True) s.
Proof.
  intros Ho. unfold userinit. apply ends_bind. eapply ends_mono; [by apply allocproc_spec|]. cbn beta. intros o s1 [H1 _].
  apply (owned_same _ _ _ _ _ H1) in Ho. apply ends_bind, ends_modify. set (s2 := put_init o s1).
  assert (Ho2 : owned_but D None none s2).
  { destruct Ho as [A B C' E F G']. split; [done..|]. intros j fd p Ej. by destruct (G' j fd p Ej). }
  clearbody s2. destruct o as [np|]; [|done]. pose proof (root_calm dev_read J) as Hroot.
  apply ends_bind. eapply ends_mono; [apply owned_calm; [calm|done]|]. cbn beta. intros d s3 H3.
  apply ends_bind. eapply ends_mono; [apply owned_calm; [calm|done]|]. cbn beta. intros _ s4 H4. destruct (d =? 0); [done|]. cbv zeta.
  do 6 (apply ends_bind; eapply ends_mono; [apply owned_calm; [calm|eassumption]|]; cbn beta; intros ? ? ?).
  apply (ends_start D np _ none); [done|by apply owned_weaken|]. done.
Qed.

Lemma cpu_op_owned {A} D (m : M K A) s :
  cpu_op m → owned_but D None none s → ends m (λ _ s', owned_but D None none s') (λ _, True) s.
Proof.
  intros Hop Ho. assert (Hc : ∀ c s1, owned_but D None none s1 → owned_but D None none (put_cur c s1)).
  { intros c s1 [H1 H2 H3 H4 H5 H6]. split; [done..|]. intros j fd o E. by destruct (H6 j fd o E). }
  destruct Hop.
  - by apply userinit_owned.
  - apply ends_bind, ends_modify. apply ends_bind. eapply ends_mono; [apply owned_calm; [apply pt_acquire_calm|]|].
    + destruct Ho as [H1 H2 H3 H4 H5 H6]. split; [done..|]. intros j fd o E. by destruct (H6 j fd o E).
    + cbn beta. intros _ s1 H1. by apply sched_pick_owned.
  - apply ends_bind. eapply ends_mono; [apply owned_calm; [apply calm_mem|done]|]. cbn beta. intros _ s1 H1.
    apply ends_bind, ends_modify. apply sched_pick_owned. by apply Hc.
  - apply owned_calm; [apply wakeup_calm|done].
Qed.

(** While a process that leaves sleeps. *)
Lemma leaver_sleeps c b me D fd o s s' :
  D me = Some (fd, o) → curproc s = Some me → owned_but D None none s →
  sleep_enter (Some c) (Some (mret tt)) s = Ok b s' → owned_but D None none s'.
Proof.
  intros HD Hm Ho. destruct (o_exit _ _ _ _ Ho me fd o HD) as [Hlt Hb _ _].
  by apply (sleep_enter_keeps c b me (λ s, owned_but D None none s)); [apply owned_stable|..].
Qed.

Lemma sys_step_owned p p' : sys_step p p' → owned_but p.2 None none p.1 → owned_but p'.2 None none p'.1.
Proof.
  intros Hstep. destruct Hstep as
    [me A m a s s' D Hr HD Hop E|me A m s s' D Hr HD Hop Hne (c & s1 & b & E & Es)|A m a s s' D Hop E|me s D (Hm & Hlt & Hst) HD _
    |me fd s s' D Hr HD Hfd E|me fd n s s' D (Hm & _) HD Hfd En (c & s1 & b & E & Es)|me A m s s' D (Hm & Hlt & Hst) HD Hc E
    |me fd n s s' D Hr HD E|me b s s' D Hr HD E]; cbn [fst snd]; intros Ho.
  - pose proof (process_op_owned D me m s Hop (proj1 Hr) (running_fine D me s Hr HD Ho)) as H. unfold ends in H. by rewrite E in H.
  - pose proof (process_op_owned D me m s Hop (proj1 Hr) (running_fine D me s Hr HD Ho)) as H. unfold ends in H. rewrite E in H.
    destruct H as [H|H]; [done|]. pose proof H as [(me' & Hm' & Hlt' & Hb' & _) _].
    by destruct (sleep_enter_keeps c b me' (fine D) s1 s' (fine_stable D) H Hm' Hlt' Hb' Es) as [_ ?].
  - pose proof (cpu_op_owned D m s Hop Ho) as H. unfold ends in H. by rewrite E in H.
  - apply owned_move; [done| |by intros i; rewrite HD|done]. intros k o [= <- <-]. split; [done|by rewrite Hst|lia|done].
  - pose proof (close_file_step dev_read J D me fd s HD Hfd Ho) as H. unfold ends in H. rewrite E in H. apply H.
  - pose proof (close_file_step dev_read J D me fd s HD Hfd Ho) as H. unfold ends in H. rewrite E in H. destruct H as (n' & En' & Hs1 & Ho1).
    assert (n' = n) as -> by (rewrite En' in En; unfold ptr_of in En; lia).
    eapply leaver_sleeps; [apply upd_me| |exact Ho1|exact Es]. by rewrite (proj1 Hs1).
  - destruct (D me) as [[fd o]|] eqn:ED; [|done]. pose proof (Hc (λ s, owned_but D None none s ∧ curproc s = Some me) s) as H.
    unfold ends in H. destruct E as [(a & E)|(c & s1 & b & E & Es)]; rewrite E in H.
    + eapply owned_same; [apply H|done]; [|done]. intros x y Hxy [H1 H2]. split; [by eapply owned_same|]. by rewrite (proj1 (proj1 Hxy)).
    + destruct H as [Ho1 Hm1]; [intros x y Hxy [H1 H2]; split; [by eapply owned_same|]; by rewrite (proj1 (proj1 Hxy))|done|].
      by eapply leaver_sleeps.
  - pose proof (clear_fd_step D me fd n s (λ _, True) HD Ho) as H. unfold ends in H. rewrite E in H. apply H.
  - pose proof (exit_end_step D me s HD Ho) as H. unfold ends in H. by rewrite E in H.
Qed.

(** C8: open files and descriptors, on one CPU.  In every state that the kernel
    reaches from its start, whatever system calls the processes make (errors
    included), however they are scheduled between calls and while calls sleep,
    and through [fork], [thread_create], [exec] and [exit]: the reference count of
    an open file is the number of descriptors that refer to it, less those that
    an exiting process has counted down and not cleared yet because it sleeps in
    [fileclose]; and every other descriptor in use refers to a file of the table
    whose count is positive, so that the file is not given out again.  In
    particular count and descriptors agree when no process is inside [exit].
    (The kernel is not preempted by the timer in the middle of a call here, so
    the references that a call holds in its variables are not seen.) *)
Theorem file_refs s s' D :
  fresh s → rtc sys_step (s, nobody) (s', D) →
  (∀ i, (i < NFILE)%nat → refs (p_res s').1 i = holders s' i - dropped D i) ∧
  (∀ j fd, (j < NPROC)%nat → nth fd (ofile (procs s' j)) 0 ≠ 0 →
    ∃ i, (i < NFILE)%nat ∧ nth fd (ofile (procs s' j)) 0 = ptr_of i ∧ (1 ≤ refs (p_res s').1 i ∨ D j = Some (fd, Some i))) ∧
  ((∀ j, D j = None) → ∀ i, (i < NFILE)%nat → refs (p_res s').1 i = holders s' i).
Proof.
  intros Hf Hr. apply fresh_owned in Hf. assert (Ho : owned_but D None none s').
  { change (owned_but (s', D).2 None none (s', D).1). change (owned_but (s, nobody).2 None none (s, nobody).1) in Hf. revert Hf Hr.
    generalize (s, nobody) (s', D). intros p p' Hf Hr. induction Hr as [|p0 p1 p2 Hstep _ IH]; [done|]. apply IH. by eapply sys_step_owned. }
  clear Hf Hr. assert (H1 : ∀ i, (i < NFILE)%nat → refs (p_res s').1 i = holders s' i - dropped D i).
  { intros i Hi. rewrite (o_refs _ _ _ _ Ho) by done. unfold none. lia. }
  split; [done|]. split.
  - intros j fd Hj Hfd. destruct (decide (fd < NOFILE)%nat) as [Hl|Hl].
    2: { exfalso. apply Hfd, nth_overflow. rewrite (o_len _ _ _ _ Ho). lia. }
    destruct (fd_file D none s' j fd Ho Hl Hfd) as (i & Hi & E). exists i. split_and!; [done..|].
    destruct (decide (D j = Some (fd, Some i))) as [HD|HD]; [by right|left]. rewrite H1 by done. by eapply holder_counts.
  - intros HD i Hi. rewrite H1 by done. unfold dropped. pose proof (total_ext (λ _, 0) (λ j, match D j with Some (_, Some n) => at_ n i | _ => 0 end)) as E.
    rewrite E; [change (total (λ _, 0)) with 0; lia|]. intros j. by rewrite HD.
Qed.
End system.
