(* ===== verification/KernelSample.v ===== *)
(** * A small kernel

    The kernel put together on a flat memory and a small disk, run from its start:
    the theorems about exec.c and about reference counts applied to it. *)

From stdpp Require Import base numbers list strings gmap relations.
From Stdlib Require Import ZArith Lia.
From S2P Require Import Prelude CString User Printf Console Blocks Bio Log Crash Spinlock Pipe Fs FsSample File Proc Syscall Exec Sysfile Refs.

#[local] Open Scope Z_scope.

(** One address space without protection; pages are never reused. *)
Record flat := mkFlat { fl_mem : Z → Z; fl_next : Z }.

Definition flat_page : M flat Z := λ x, Ok (fl_next x) (mkFlat (fl_mem x) (fl_next x + 4096)).
Definition flat_store (a : Z) (bs : list Z) : M flat unit := modify (λ x, mkFlat (stored (fl_mem x) a bs) (fl_next x)).
Definition flat_copyout (a : Z) (bs : list Z) : M flat Z :=
  if (0 <=? a) && (a + Z.of_nat (length bs) <=? 12288) then flat_store a bs;; mret 0 else mret (-1).

#[export] Instance flat_pages : Pages flat := {| pg_alloc := flat_page; pg_free := λ _, mret tt |}.
#[export] Instance flat_machine : Machine flat := {|
  m_store := λ a v, flat_store a (le_bytes 4 v);
  m_load := λ a n, gets (λ x, fl_mem x <$> seqZ a (Z.of_nat n));
  m_store_bytes := flat_store;
  m_setupkvm := flat_page;
  m_inituvm := λ _, mret tt;
  m_copyuvm := λ _ _, flat_page;
  m_freevm := λ _, mret tt;
  m_allocuvm := λ _ _ n, mret n;
  m_deallocuvm := λ _ _ n, mret n;
  m_switchuvm := λ _, mret tt;
  m_switchkvm := mret tt;
  m_copyout := λ _, flat_copyout;
  m_clearpteu := λ _ _, mret tt;
  m_load_page := λ _, flat_store;
  m_trapret := 0x80105000;
  m_forkret := 0x80104000;
|}.

(** The disk with an executable of no segments as its file. *)
Definition elf_image : list Z :=
  le_bytes 4 ELF_MAGIC ++ replicate 20 0 ++ le_bytes 4 0x40 ++ le_bytes 4 52 ++ replicate 20 0.
Definition elf_inode : dinode := mkDinode T_FILE 0 0 1 52 (7 :: replicate 12 0).
Definition elf_disk : Z → block :=
  disk_upd (disk_upd tiny_disk 2 (put_dinode 1 tiny_root (put_dinode 2 elf_inode zero_block)))
    7 (splice 0 elf_image zero_block).

(** The first process finds at 200 a path, and at 104 the arguments of a call. *)
Definition first_mem : Z → Z :=
  stored (stored (λ _, 0) 200 [47; 97; 0]) 104 (le_bytes 4 200 ++ le_bytes 4 0).

Definition zero_file : file := mkFile FD_NONE 0 false false 0 None 0.
Definition zero_pipe : pipe := mkPipe [] 0 0 false false [].
Definition junk0 : junk := mkJunk (replicate 14 0) (mkDirent 0 (replicate 14 0)) (replicate 4096 0) (replicate 52 0).

Abbreviation kern := (pst (fstate bio flat * sysglob)).

Definition k0 : kern :=
  mkPst false boot_cpu None (λ _, bss_proc) 1 None true
    (mkFst (mkFs (after boot (machine 100 elf_disk)) false (λ _, bss_inode) []) false (λ _, zero_file) (λ _, zero_pipe)
       (mkFlat first_mem 0x80400000),
     mkGlob 0 false 0 (replicate 100 0) cons0).

Definition kuserinit : M kern unit := userinit (SV:=kernel_services no_read (j_name junk0)).
Definition kschedule : M kern (option nat) := scheduler_enter (SV:=kernel_services no_read (j_name junk0)).
Definition kforkret : M kern unit := forkret (SV:=kernel_services no_read (j_name junk0)).
Definition ksyscall : M kern callres :=
  syscall (SV:=kernel_services no_read (j_name junk0)) (FC:=sysfile_calls no_read no_write junk0) (λ _, 0).
Definition kregs (eax esp : Z) : M kern unit := upd_my (set_tf (set_tf_esp esp (set_tf_eax eax zero_tf))).

Definition k1 : kern := after kforkret (after kschedule (after kuserinit k0)).
Definition k2 : kern := after ksyscall (after (kregs 15 100) k1).
Definition k3 : kern := after ksyscall (after (kregs 1 100) k2).

Definition is_ok {A} (o : outcome kern A) : bool := match o with Ok _ _ => true | _ => false end.

Lemma is_ok_after {A} (m : M kern A) s : is_ok (m s) = true → ∃ a, m s = Ok a (after m s).
Proof. unfold after. destruct (m s) as [a s'| | | |]; [by exists a|done..]. Qed.

#[export] Instance flat_awake : Awake flat.
Proof. by split. Qed.

Lemma cpu_step {A} (m : M kern A) s s' :
  cpu_op no_read junk0 m → is_ok (m s) = true → rtc (sys_step no_read no_write junk0) s' (s, nobody) →
  rtc (sys_step no_read no_write junk0) s' (after m s, nobody).
Proof. intros Hm [a E]%is_ok_after Hr. eapply rtc_r; [done|]. by eapply by_cpu. Qed.

Lemma process_step {A} (m : M kern A) s s' :
  process_op no_read no_write junk0 m → curproc s = Some 0%nat → state (procs s 0) = RUNNING → is_ok (m s) = true →
  rtc (sys_step no_read no_write junk0) s' (s, nobody) → rtc (sys_step no_read no_write junk0) s' (after m s, nobody).
Proof.
  intros Hm Hc Hs [a E]%is_ok_after Hr. eapply rtc_r; [done|]. eapply (by_process _ _ _ 0); [|done|done|done].
  split_and!; [done|unfold NPROC; lia|done].
Qed.

(** The first process runs; it opens the file, and forks. *)
Lemma k3_reached : rtc (sys_step no_read no_write junk0) (k0, nobody) (k3, nobody).
Proof.
  unfold k3. apply process_step; [apply op_syscall|vm_compute; reflexivity..|].
  apply process_step; [apply op_user|vm_compute; reflexivity..|].
  unfold k2. apply process_step; [apply op_syscall|vm_compute; reflexivity..|].
  apply process_step; [apply op_user|vm_compute; reflexivity..|].
  unfold k1. apply process_step; [apply op_forkret|vm_compute; reflexivity..|].
  apply cpu_step; [constructor|vm_compute; reflexivity|]. apply cpu_step; [constructor|vm_compute; reflexivity|]. done.
Qed.

(** Parent and child have the file open: two references. *)
Lemma file_refs_witness : refs (p_res k3).1 0 = 2 ∧ holders k3 0 = 2.
Proof.
  destruct (file_refs no_read no_write junk0 k0 k3 nobody) as (_ & _ & H).
  - split; [done|]. by intros i.
  - exact k3_reached.
  - rewrite <- (H (λ _, eq_refl) 0%nat) by (unfold NFILE; lia). split; vm_compute; reflexivity.
Defined.

(** The first process, on a machine that keeps a record of its address spaces. *)
Definition k1_logged : pst (fstate bio (flat * list space_event) * sysglob) :=
  let F := (p_res k1).1 in
  mkPst (p_lock k1) (p_cpu k1) (curproc k1) (procs k1) (nextpid k1) (initproc k1) (first k1)
    (mkFst (f_fs F) (ft_lock F) (ftab F) (f_pipes F) (f_mem F, []), (p_res k1).2).

(** It executes the file: a new address space is made, entered, and the old one
    is destroyed. *)
Lemma exec_all_or_nothing_witness :
  ends (exec (MA:=logged_machine) no_read (j_name junk0) (j_elf junk0) [47; 97] [[97]])
    (λ r s', r = 0 ∧ exec_done no_read (j_name junk0) 0 (j_elf junk0) [47; 97] [[97]] k1_logged s') (λ _, False) k1_logged.
Proof.
  pose proof (exec_all_or_nothing no_read (j_name junk0) (j_elf junk0) [47; 97] [[97]] 0 k1_logged ltac:(vm_compute; reflexivity)) as H.
  assert (Hrun : match exec (MA:=logged_machine) no_read (j_name junk0) (j_elf junk0) [47; 97] [[97]] k1_logged with
    Ok r _ => r =? 0 | _ => false end = true) by (vm_compute; reflexivity).
  revert H Hrun. unfold ends. destruct (exec _ _ _ _ _ k1_logged) as [r s'| | | |]; try done.
  intros [[-> _]|H] Hr; [done|exact H].
Defined.
