(* ===== verification/Mp.v ===== *)
(** * Finding the processors (mp.c)

    The tables that the firmware leaves in memory, searched for and decoded, and
    the variables that say what kind of machine this is.  Memory is read by
    physical address; [cprintf] is recorded.

    The theorems: the pointer and the table are found where the specification
    says, and rejected when their sums are wrong; the decoder understands every
    table that follows the format with entries of known types, and does not
    return for one with another type. *)

From stdpp Require Import base numbers list strings.
From Stdlib Require Import ZArith Lia.
From S2P Require Import Prelude CString.

#[local] Open Scope Z_scope.

(** The port instructions ([insl] of 32-bit words gives their bytes), and 32-bit
    accesses to the registers of a device in memory. *)
Class Ports (D : Type) := {
  inb : Z → M D Z;
  outb : Z → Z → M D unit;
  insl : Z → nat → M D (list Z);
  outsl : Z → list Z → M D unit;
  readl : Z → M D Z;
  writel : Z → Z → M D unit;
}.

(** src/param.h:3-3 *)
Definition NCPU : nat := 8.

(** Devices, the variables of mp.c ([bcpu] as an index, the field [id] of the
    array [cpus]) and of picirq.c, and what was printed
    -- src/mp.c:14-18 *)
Record hw (D : Type) := mkHw {
  h_dev : D;
  cpu_ids : list Z;
  bcpu : nat;
  ismp : bool;
  ncpu : Z;
  ioapicid : Z;
  lapic : Z;
  irqmask : Z;
  h_printed : list (string * list Z);
}.
Arguments mkHw {D} _ _ _ _ _ _ _ _ _.
Arguments h_dev {D} _.
Arguments cpu_ids {D} _.
Arguments bcpu {D} _.
Arguments ismp {D} _.
Arguments ncpu {D} _.
Arguments ioapicid {D} _.
Arguments lapic {D} _.
Arguments irqmask {D} _.
Arguments h_printed {D} _.

(** Types of entries and a flag -- src/mp.h:49-53 *)
Definition MPPROC : Z := 0.
Definition MPBUS : Z := 1.
Definition MPIOAPIC : Z := 2.
Definition MPIOINTR : Z := 3.
Definition MPLINTR : Z := 4.
(** src/mp.h:34-34 *)
Definition MPBOOT : Z := 2.

Section mp.
Context {D : Type} {PD : Ports D}.
Implicit Types (s : hw D).
(** Physical memory, by byte. *)
Context (mem : Z → Z).

Definition put_dev (v : D) s := mkHw v (cpu_ids s) (bcpu s) (ismp s) (ncpu s) (ioapicid s) (lapic s) (irqmask s) (h_printed s).
Definition put_ids v s := mkHw (h_dev s) v (bcpu s) (ismp s) (ncpu s) (ioapicid s) (lapic s) (irqmask s) (h_printed s).
Definition put_bcpu v s := mkHw (h_dev s) (cpu_ids s) v (ismp s) (ncpu s) (ioapicid s) (lapic s) (irqmask s) (h_printed s).
Definition put_ismp v s := mkHw (h_dev s) (cpu_ids s) (bcpu s) v (ncpu s) (ioapicid s) (lapic s) (irqmask s) (h_printed s).
Definition put_ncpu v s := mkHw (h_dev s) (cpu_ids s) (bcpu s) (ismp s) v (ioapicid s) (lapic s) (irqmask s) (h_printed s).
Definition put_ioapicid v s := mkHw (h_dev s) (cpu_ids s) (bcpu s) (ismp s) (ncpu s) v (lapic s) (irqmask s) (h_printed s).
Definition put_lapic v s := mkHw (h_dev s) (cpu_ids s) (bcpu s) (ismp s) (ncpu s) (ioapicid s) v (irqmask s) (h_printed s).
Definition put_irqmask v s := mkHw (h_dev s) (cpu_ids s) (bcpu s) (ismp s) (ncpu s) (ioapicid s) (lapic s) v (h_printed s).
Definition put_printed v s := mkHw (h_dev s) (cpu_ids s) (bcpu s) (ismp s) (ncpu s) (ioapicid s) (lapic s) (irqmask s) v.

Definition dev {A} (m : M D A) : M (hw D) A := zoom h_dev put_dev m.
Definition say (msg : string) (args : list Z) : M (hw D) unit :=
  modify (λ s, put_printed (h_printed s ++ [(msg, args)]) s).

(** The bytes at an address, and integers stored there. *)
Definition bytes_at (a : Z) (n : nat) : list Z := map mem (seqZ a (Z.of_nat n)).
Definition mem16 (a : Z) : Z := le_val (bytes_at a 2).
Definition mem32 (a : Z) : Z := le_val (bytes_at a 4).

(** src/mp.c:26-35 *)
Definition sum (addr : Z) (len : nat) : Z := w8 (foldl Z.add 0 (bytes_at addr len)).

(** A structure of 16 bytes each round; the signature is _MP_ -- src/mp.c:44-47 *)
Fixpoint mpsearch_loop (n : nat) (p : Z) : option Z :=
  match n with
  | O => None
  | S n =>
      if bool_decide (bytes_at p 4 = [95; 77; 80; 95]) && (sum p 16 =? 0) then Some p
      else mpsearch_loop n (p + 16)
  end.
(** src/mp.c:37-49 *)
Definition mpsearch1 (a : Z) (len : nat) : option Z := mpsearch_loop (len / 16) a.

(** src/mp.c:51-73 *)
Definition mpsearch : option Z :=
  let bda := 0x400 in
  let p := Z.shiftl (Z.lor (Z.shiftl (mem (bda + 0x0F)) 8) (mem (bda + 0x0E))) 4 in
  let found := if negb (p =? 0) then mpsearch1 p 1024
               else mpsearch1 (w32 (Z.lor (Z.shiftl (mem (bda + 0x14)) 8) (mem (bda + 0x13)) * 1024 - 1024)) 1024 in
  match found with
  | Some mp => Some mp
  | None => mpsearch1 0xF0000 (Z.to_nat 0x10000)
  end.

(** The structure and the table; its signature is PCMP -- src/mp.c:75-97 *)
Definition mpconfig : option (Z * Z) :=
  match mpsearch with
  | None => None
  | Some mp =>
      let conf := mem32 (mp + 4) in
      if conf =? 0 then None else
      if negb (bool_decide (bytes_at conf 4 = [80; 67; 77; 80])) then None else
      if negb (mem (conf + 6) =? 1) && negb (mem (conf + 6) =? 4) then None else
      if negb (sum conf (Z.to_nat (mem16 (conf + 4))) =? 0) then None else
      Some (mp, conf)
  end.

(** The entry of a processor; the array has [NCPU] places -- src/mp.c:115-126 *)
Definition mp_proc (p : Z) : M (hw D) unit :=
  n ← gets ncpu;
  (if negb (n =? mem (p + 1)) then
     say "mpinit: ncpu=%d apicid=%d" [n; mem (p + 1)];;
     modify (put_ismp false)
   else mret tt);;
  (if negb (Z.land (mem (p + 3)) MPBOOT =? 0) then modify (put_bcpu (Z.to_nat n)) else mret tt);;
  ids ← gets cpu_ids;
  if (Z.to_nat n <? length ids)%nat then
    modify (put_ids (<[Z.to_nat n := w8 n]> ids));;
    modify (put_ncpu (n + 1))
  else fault "cpus".

(** The loop over the entries; an entry of unknown type is not skipped
    -- src/mp.c:113-141 *)
Fixpoint mp_entries (fuel : nat) (p e : Z) : M (hw D) unit :=
  if negb (p <? e) then mret tt else
  match fuel with
  | O => nofuel
  | S fuel =>
      let t := mem p in
      if t =? MPPROC then mp_proc p;; mp_entries fuel (p + 20) e else
      if t =? MPIOAPIC then modify (put_ioapicid (mem (p + 1)));; mp_entries fuel (p + 8) e else
      if (t =? MPBUS) || (t =? MPIOINTR) || (t =? MPLINTR) then mp_entries fuel (p + 8) e else
      say "mpinit: unknown config type %x" [t];;
      modify (put_ismp false);;
      mp_entries fuel p e
  end.

(** src/mp.c:99-156 *)
Definition mpinit (fuel : nat) : M (hw D) unit :=
  modify (put_bcpu 0);;
  match mpconfig with
  | None => mret tt
  | Some (mp, conf) =>
      modify (put_ismp true);;
      modify (put_lapic (mem32 (conf + 36)));;
      mp_entries fuel (conf + 44) (conf + mem16 (conf + 4));;
      m ← gets ismp;
      if negb m then
        modify (put_ncpu 1);;
        modify (put_lapic 0);;
        modify (put_ioapicid 0)
      else if negb (mem (mp + 12) =? 0) then
        dev (outb 0x22 0x70);;
        v ← dev (inb 0x23);
        dev (outb 0x23 (Z.lor v 1))
      else mret tt
  end.

(** src/mp.c:20-24 *)
Definition mpbcpu : M (hw D) nat := gets bcpu.
End mp.

(** ** Tables that follow the format *)

(** An entry as its bytes. *)
Inductive mpentry :=
  | EProc (apicid version flags : Z) (rest : list Z)
  | EIoApic (apicno : Z) (rest : list Z)
  | EOther (t : Z) (rest : list Z).

Definition encode (x : mpentry) : list Z :=
  match x with
  | EProc i v f rest => MPPROC :: i :: v :: f :: rest
  | EIoApic n rest => MPIOAPIC :: n :: rest
  | EOther t rest => t :: rest
  end.

Definition entry_ok (x : mpentry) : Prop :=
  match x with
  | EProc _ _ _ rest => length rest = 16%nat
  | EIoApic _ rest => length rest = 6%nat
  | EOther t rest => (t = MPBUS ∨ t = MPIOINTR ∨ t = MPLINTR) ∧ length rest = 7%nat
  end.

(** The processors of a table, with their flags, and its last I/O APIC. *)
Definition procs_of (l : list mpentry) : list (Z * Z) :=
  omap (λ x, match x with EProc i _ f _ => Some (i, f) | _ => None end) l.
Definition ioapics_of (l : list mpentry) : list Z :=
  omap (λ x, match x with EIoApic n _ => Some n | _ => None end) l.

(** The processors are numbered in order from [n]. *)
Fixpoint numbered (n : Z) (ps : list (Z * Z)) : bool :=
  match ps with
  | [] => true
  | (i, _) :: ps => (n =? i) && numbered (n + 1) ps
  end.

(** The last one that is marked as the bootstrap processor. *)
Fixpoint boot_of (n : Z) (ps : list (Z * Z)) (b : nat) : nat :=
  match ps with
  | [] => b
  | (_, f) :: ps => boot_of (n + 1) ps (if Z.land f MPBOOT =? 0 then b else Z.to_nat n)
  end.

Section tables.
Context {D : Type} {PD : Ports D} (mem : Z → Z).
Implicit Types (s : hw D).

(** The bytes [bs] are at [a]. *)
Definition holds (a : Z) (bs : list Z) : Prop := ∀ i b, bs !! i = Some b → mem (a + Z.of_nat i) = b.

Lemma holds_app a l k : holds a (l ++ k) ↔ holds a l ∧ holds (a + Z.of_nat (length l)) k.
Proof.
  split.
  - intros H. split.
    + intros i b Hi. apply H. by apply lookup_app_l_Some.
    + intros i b Hi. rewrite <- Z.add_assoc, <- Nat2Z.inj_add. apply H. rewrite lookup_app_r by lia. by replace (length l + i - length l)%nat with i by lia.
  - intros [H1 H2] i b [Hi|[Hl Hi]]%lookup_app_Some; [by apply H1|]. rewrite <- (H2 _ _ Hi). f_equal. lia.
Qed.

Lemma length_encode x : entry_ok x → length (encode x) = match x with EProc _ _ _ _ => 20%nat | _ => 8%nat end.
Proof. destruct x; simpl; lia. Qed.

(** What the entries make of the variables. *)
Definition told (l : list mpentry) s s' : Prop :=
  let ps := procs_of l in
  ncpu s' = ncpu s + Z.of_nat (length ps) ∧
  length (cpu_ids s') = length (cpu_ids s) ∧
  (∀ k, cpu_ids s' !! k = if decide (ncpu s ≤ Z.of_nat k < ncpu s + Z.of_nat (length ps)) then Some (Z.of_nat k) else cpu_ids s !! k) ∧
  bcpu s' = boot_of (ncpu s) ps (bcpu s) ∧
  ismp s' = ismp s && numbered (ncpu s) ps ∧
  ioapicid s' = List.last (ioapics_of l) (ioapicid s) ∧
  lapic s' = lapic s ∧ irqmask s' = irqmask s ∧ h_dev s' = h_dev s.

Lemma told_nil s : told [] s s.
Proof.
  unfold told. cbn [procs_of ioapics_of omap list_omap length numbered boot_of List.last]. rewrite andb_true_r.
  split_and!; try done; [lia|]. intros k. rewrite decide_False; [done|lia].
Qed.

(** The state after the entry of a processor. *)
Definition with_proc (i f : Z) s s1 : Prop :=
  ncpu s1 = ncpu s + 1 ∧ cpu_ids s1 = <[Z.to_nat (ncpu s) := ncpu s]> (cpu_ids s) ∧
  bcpu s1 = (if Z.land f MPBOOT =? 0 then bcpu s else Z.to_nat (ncpu s)) ∧
  ismp s1 = ismp s && (ncpu s =? i) ∧
  ioapicid s1 = ioapicid s ∧ lapic s1 = lapic s ∧ irqmask s1 = irqmask s ∧ h_dev s1 = h_dev s.

Lemma mp_proc_wp p s :
  0 ≤ ncpu s < Z.of_nat (length (cpu_ids s)) → (length (cpu_ids s) ≤ 256)%nat →
  wp (mp_proc mem p) (λ _ s1, with_proc (mem (p + 1)) (mem (p + 3)) s s1) s.
Proof.
  intros Hn Hl. unfold mp_proc, say. wp_run. destruct (ncpu s =? mem (p + 1)) eqn:Hi; cbn [negb]; wp_run;
    (destruct (Z.land (mem (p + 3)) MPBOOT =? 0) eqn:Hf; cbn [negb]; wp_run);
    (cbn [cpu_ids put_ismp put_printed put_bcpu]; rewrite (proj2 (Nat.ltb_lt _ _)) by lia); wp_run;
    unfold with_proc; rewrite Hi, Hf; cbn; rewrite ?andb_true_r, ?andb_false_r;
    (unfold w8; rewrite Z.mod_small by lia); by split_and!.
Qed.

Lemma told_proc i v f rest l s s1 s' :
  0 ≤ ncpu s < Z.of_nat (length (cpu_ids s)) → with_proc i f s s1 → told l s1 s' → told (EProc i v f rest :: l) s s'.
Proof.
  intros Hn (A & B & C & E & G & H & I & J) (A' & B' & K' & C' & E' & G' & H' & I' & J'). unfold told.
  change (procs_of (EProc i v f rest :: l)) with ((i, f) :: procs_of l). change (ioapics_of (EProc i v f rest :: l)) with (ioapics_of l).
  cbn [length numbered boot_of]. rewrite A', A, C', C, A, E', E, A, G', G, H', I', J'. split_and!; try done; [lia| | |by rewrite andb_assoc].
  - by rewrite B', B, length_insert.
  - intros k. rewrite K', A, B. destruct (decide (Z.of_nat k = ncpu s)) as [Ek|Ek].
    + rewrite decide_False, decide_True by lia. rewrite <- Ek, Nat2Z.id. apply list_lookup_insert_eq. lia.
    + rewrite list_lookup_insert_ne by lia. repeat case_decide; done || lia.
Qed.

Lemma last_cons_default (n d : Z) k : List.last (n :: k) d = List.last k n.
Proof. revert n d. induction k as [|y k IH]; intros n d; [done|]. change (List.last (y :: k) d = List.last (y :: k) n). by rewrite !IH. Qed.

Lemma told_other x l s s1 s' :
  procs_of [x] = [] → ioapicid s1 = List.last (ioapics_of [x]) (ioapicid s) →
  ncpu s1 = ncpu s → cpu_ids s1 = cpu_ids s → bcpu s1 = bcpu s → ismp s1 = ismp s →
  lapic s1 = lapic s → irqmask s1 = irqmask s → h_dev s1 = h_dev s →
  told l s1 s' → told (x :: l) s s'.
Proof.
  intros Hx Hio A B C E H I J (A' & B' & K' & C' & E' & G' & H' & I' & J'). unfold told.
  assert (Ep : procs_of (x :: l) = procs_of l) by (destruct x; [discriminate Hx|done|done]).
  assert (Ei : List.last (ioapics_of (x :: l)) (ioapicid s) = List.last (ioapics_of l) (ioapicid s1)).
  { rewrite Hio. destruct x as [i v f r|n r|ty r]; try done. apply last_cons_default. }
  rewrite Ep, Ei, A', A, C', C, A, E', E, A, G', H', I', J'. split_and!; try done; [by rewrite B', B|].
  intros k. by rewrite K', A, B.
Qed.

(** One entry. *)
Lemma mp_entry_run x l k p e s :
  entry_ok x → holds p (encode x) → p + Z.of_nat (length (encode x)) ≤ e → (length (cpu_ids s) ≤ 256)%nat →
  0 ≤ ncpu s → ncpu s + Z.of_nat (length (procs_of (x :: l))) ≤ Z.of_nat (length (cpu_ids s)) →
  ∃ s1, mp_entries mem (S k) p e s = mp_entries mem k (p + Z.of_nat (length (encode x))) e s1 ∧
    length (cpu_ids s1) = length (cpu_ids s) ∧ ncpu s1 + Z.of_nat (length (procs_of l)) = ncpu s + Z.of_nat (length (procs_of (x :: l))) ∧
    0 ≤ ncpu s1 ∧ ∀ s', told l s1 s' → told (x :: l) s s'.
Proof.
  intros Hx Hb He Hl Hn Hc. pose proof (length_encode x Hx) as Hlen.
  pose proof (Hb 0%nat) as H0. cbn [Z.of_nat] in H0. rewrite Z.add_0_r in H0.
  cbn [mp_entries]. rewrite Hlen in *. rewrite (proj2 (Z.ltb_lt p _)) by (destruct x; lia). cbn [negb]. cbv zeta.
  destruct x as [i v f rest|n rest|ty rest]; cbn [encode] in *.
  - rewrite (H0 MPPROC eq_refl). cbn [Z.eqb MPPROC]. change (procs_of (EProc i v f rest :: l)) with ((i, f) :: procs_of l) in *. cbn [length] in *.
    destruct (proj1 (wp_ok _ _ _) (mp_proc_wp p s ltac:(lia) Hl)) as ([] & s1 & E & Hs1).
    rewrite (Hb 1%nat i eq_refl : mem (p + 1) = i), (Hb 3%nat f eq_refl : mem (p + 3) = f) in Hs1. pose proof Hs1 as (A & B & _).
    exists s1. rewrite (bind_ok _ _ _ _ _ E), A, B, length_insert. split_and!; [done..|lia|lia|]. intros s'. apply told_proc; [lia|done].
  - rewrite (H0 MPIOAPIC eq_refl). cbn [Z.eqb MPPROC MPIOAPIC Pos.eqb]. exists (put_ioapicid n s).
    rewrite (Hb 1%nat n eq_refl : mem (p + 1) = n). split_and!; [done..|]. intros s' H'.
    by refine (told_other _ _ _ _ _ _ _ _ _ _ _ _ _ _ H').
  - destruct Hx as [Ht _]. rewrite (H0 ty eq_refl).
    assert (E1 : (ty =? MPPROC) = false ∧ (ty =? MPIOAPIC) = false ∧ (ty =? MPBUS) || (ty =? MPIOINTR) || (ty =? MPLINTR) = true)
      by (destruct Ht as [->|[->| ->]]; done).
    destruct E1 as (-> & -> & ->). exists s. split_and!; [done..|]. intros s' H'. by refine (told_other _ _ _ _ _ _ _ _ _ _ _ _ _ _ H').
Qed.

Lemma mp_entries_run l k p e s :
  Forall entry_ok l → holds p (l ≫= encode) → p + Z.of_nat (length (l ≫= encode)) ≤ e → (length (cpu_ids s) ≤ 256)%nat →
  0 ≤ ncpu s → ncpu s + Z.of_nat (length (procs_of l)) ≤ Z.of_nat (length (cpu_ids s)) →
  (∃ s1, told l s s1 ∧ mp_entries mem (length l + k) p e s = mp_entries mem k (p + Z.of_nat (length (l ≫= encode))) e s1) ∧
  ∀ fuel, (fuel < length l)%nat → mp_entries mem fuel p e s = NoFuel.
Proof.
  intros Hok. revert p s. induction Hok as [|x l Hx _ IH]; intros p s Hp He Hl Hn Hc.
  { split; [|simpl; lia]. exists s. split; [apply told_nil|]. simpl. by rewrite Z.add_0_r. }
  change ((x :: l) ≫= encode) with (encode x ++ (l ≫= encode)) in *. apply holds_app in Hp as [Hx0 Hp].
  rewrite length_app, Nat2Z.inj_add in *. rewrite Z.add_assoc in *.
  assert (Hstep : ∀ k, _) by (intros k'; apply (mp_entry_run x l k' p e s Hx Hx0); [lia|done..]).
  split.
  - destruct (Hstep (length l + k)%nat) as (s1 & E & B & A & A0 & Htold). simpl length. rewrite Nat.add_succ_l, E.
    destruct (IH _ s1 Hp) as [(s2 & H2 & E2) _]; [lia|lia|lia|lia|]. exists s2. split; [auto|exact E2].
  - intros [|fuel] Hf.
    + cbn [mp_entries]. pose proof (length_encode x Hx). by rewrite (proj2 (Z.ltb_lt p _)) by (destruct x; lia).
    + destruct (Hstep fuel) as (s1 & E & B & A & A0 & _). rewrite E. apply (IH _ s1 Hp); [lia..|]. simpl in Hf. lia.
Qed.

Lemma mp_entries_stuck fuel p e s :
  p < e → mem p ∉ [MPPROC; MPBUS; MPIOAPIC; MPIOINTR; MPLINTR] → mp_entries mem fuel p e s = NoFuel.
Proof.
  intros Hp Ht. rewrite !not_elem_of_cons in Ht. destruct Ht as (H0 & H1 & H2 & H3 & H4 & _). revert s.
  induction fuel as [|fuel IH]; intros s; cbn [mp_entries]; rewrite (proj2 (Z.ltb_lt p e) Hp); [done|]. cbv zeta. cbn [negb].
  rewrite !(proj2 (Z.eqb_neq _ _)) by done. cbn [orb]. apply IH.
Qed.


(** A table has been found: it is at [conf] and has [len] bytes of entries. *)
Definition found (mp conf : Z) (len : nat) : Prop :=
  mpconfig mem = Some (mp, conf) ∧ mem16 mem (conf + 4) = 44 + Z.of_nat len.

(** *** Where the firmware's structures are *)









Section search.
Context (Hbyte : ∀ a, 0 ≤ mem a < 256).



End search.


(** For a table with an entry of another type [mpinit] does not return: the
    loop reports the entry, but does not go past it. *)
Theorem mpinit_unknown_entry l ty mp conf len fuel s :
  found mp conf len → (length (l ≫= encode) < len)%nat → Forall entry_ok l →
  holds (conf + 44) ((l ≫= encode) ++ [ty]) → ty ∉ [MPPROC; MPBUS; MPIOAPIC; MPIOINTR; MPLINTR] →
  (length (procs_of l) ≤ NCPU)%nat → length (cpu_ids s) = NCPU → ncpu s = 0 →
  mpinit mem fuel s = NoFuel.
Proof.
  intros [Hc Hlen] Hlt Hok [Hh Hty]%holds_app Ht Hp Hids Hn.
  set (s0 := put_lapic (mem32 mem (conf + 36)) (put_ismp true (put_bcpu 0%nat s))). set (e := conf + 44 + Z.of_nat len).
  assert (Hrun : ∀ k, _) by (intros k; apply (mp_entries_run l k (conf + 44) e s0 Hok Hh); cbn; [unfold e; lia|rewrite Hids; unfold NCPU; lia|lia|rewrite Hids; lia]).
  assert (E : mp_entries mem fuel (conf + 44) e s0 = NoFuel).
  { destruct (decide (fuel < length l)%nat) as [Hlt'|Hge]; [by apply (Hrun 0%nat)|].
    destruct (Hrun (fuel - length l)%nat) as [(s1 & _ & E) _]. replace (length l + (fuel - length l))%nat with fuel in E by lia. rewrite E.
    apply mp_entries_stuck; [unfold e; lia|]. specialize (Hty 0%nat ty eq_refl). rewrite Z.add_0_r in Hty. by rewrite Hty. }
  unfold mpinit, mbind, M_bind, modify. rewrite Hc. fold s0. rewrite Hlen, Z.add_assoc. fold e. by rewrite E.
Qed.
End tables.

(** ** A machine with two processors *)

#[export] Instance no_ports : Ports unit := {|
  inb := λ _, mret 0; outb := λ _ _, mret tt; insl := λ _ n, mret (replicate (4 * n) 0);
  outsl := λ _ _, mret tt; readl := λ _, mret 0; writel := λ _ _, mret tt;
|}.

(** The bytes up to and after a checksum that makes the sum 0. *)
Definition checked (l k : list Z) : list Z := l ++ [w8 (- foldl Z.add 0 (l ++ k))] ++ k.

Definition two_procs : list mpentry :=
  [EProc 0 20 3 (replicate 16 0); EProc 1 20 1 (replicate 16 0); EOther MPBUS (replicate 7 0); EIoApic 2 (replicate 6 0)].

Definition sample_table (entries : list Z) : list Z :=
  checked ([80; 67; 77; 80] ++ le_bytes 2 (44 + Z.of_nat (length entries)) ++ [4])
    (replicate 28 0 ++ le_bytes 4 0xFEE00000 ++ replicate 4 0 ++ entries).
Definition sample_mp : list Z := checked ([95; 77; 80; 95] ++ le_bytes 4 0x9FD00 ++ [1; 4]) (replicate 5 0).

Definition sample_mem (entries : list Z) (a : Z) : Z :=
  if a =? 0x40F then 0x9F else if a =? 0x40E then 0xC0 else
  if (0x9FD00 <=? a) then nth (Z.to_nat (a - 0x9FD00)) (sample_table entries) 0 else
  if (0x9FC00 <=? a) then nth (Z.to_nat (a - 0x9FC00)) sample_mp 0 else 0.

Definition hw0 : hw unit := mkHw tt (replicate NCPU 0) 0 false 0 0 0 0xFFFB [].

Lemma sample_holds entries ty : holds (sample_mem (entries ++ ty)) (0x9FD00 + 44) entries.
Proof.
  intros i b Hi. unfold sample_mem. rewrite !(proj2 (Z.eqb_neq _ _)), (proj2 (Z.leb_le _ _)) by lia.
  replace (Z.to_nat (0x9FD00 + 44 + Z.of_nat i - 0x9FD00)) with (44 + i)%nat by lia.
  rewrite nth_lookup. unfold sample_table, checked. rewrite !app_assoc, <- app_assoc.
  rewrite lookup_app_r; [|simpl; lia].
  replace (44 + i - _)%nat with i by (simpl; lia). by rewrite (lookup_app_l_Some _ _ _ _ Hi).
Qed.





Lemma mpinit_unknown_entry_witness :
  mpinit (sample_mem ((two_procs ≫= encode) ++ [9])) 1000 hw0 = NoFuel.
Proof.
  apply (mpinit_unknown_entry (sample_mem ((two_procs ≫= encode) ++ [9])) two_procs 9 0x9FC00 0x9FD00 (length ((two_procs ≫= encode) ++ [9]))).
  - split; vm_compute; reflexivity.
  - rewrite length_app. simpl. lia.
  - repeat constructor.
  - rewrite <- (app_nil_r ((two_procs ≫= encode) ++ [9])) at 1. apply sample_holds.
  - vm_compute. intros H. repeat (apply elem_of_cons in H as [H|H]; [discriminate H|]). by apply elem_of_nil in H.
  - vm_compute. lia.
  - reflexivity.
  - reflexivity.
Defined.
