(* ===== verification/Irq.v ===== *)
(** * Interrupt controllers (picirq.c, ioapic.c, lapic.c, timer.c)

    The programs that set up the two 8259A controllers, the I/O APIC, the local
    APIC and the interval timer, as sequences of accesses to their registers, and
    the mask of interrupt lines.  The theorem: once set up, the lines that pass
    are those that were enabled. *)

From stdpp Require Import base numbers list strings sets.
From Stdlib Require Import ZArith Lia.
From S2P Require Import Prelude CString Mp.

#[local] Open Scope Z_scope.

(** src/traps.h:30-30 *)
Definition T_IRQ0 : Z := 32.
(** src/traps.h:32-37 *)
Definition IRQ_TIMER : Z := 0.
Definition IRQ_KBD : Z := 1.
Definition IRQ_COM1 : Z := 4.
Definition IRQ_IDE : Z := 14.
Definition IRQ_ERROR : Z := 19.
Definition IRQ_SPURIOUS : Z := 31.

(** src/picirq.c:8-11 *)
Definition IO_PIC1 : Z := 0x20.
Definition IO_PIC2 : Z := 0xA0.
Definition IRQ_SLAVE : Z := 2.

(** The initial value of [irqmask] -- src/picirq.c:15-15 *)
Definition irqmask0 : Z := Z.land 0xFFFF (Z.lnot (Z.shiftl 1 IRQ_SLAVE)).

Section irq.
Context {D : Type} {PD : Ports D}.

Definition port (p v : Z) : M (hw D) unit := dev (outb p (w8 v)).

(** src/picirq.c:17-23 *)
Definition picsetmask (mask : Z) : M (hw D) unit :=
  modify (put_irqmask mask);;
  port (IO_PIC1 + 1) mask;;
  port (IO_PIC2 + 1) (Z.shiftr mask 8).

(** src/picirq.c:25-29 *)
Definition picenable (irq : Z) : M (hw D) unit :=
  m ← gets irqmask;
  picsetmask (w16 (Z.land m (Z.lnot (Z.shiftl 1 irq)))).

(** src/picirq.c:31-84 *)
Definition picinit : M (hw D) unit :=
  port (IO_PIC1 + 1) 0xFF;;
  port (IO_PIC2 + 1) 0xFF;;
  port IO_PIC1 0x11;;
  port (IO_PIC1 + 1) T_IRQ0;;
  port (IO_PIC1 + 1) (Z.shiftl 1 IRQ_SLAVE);;
  port (IO_PIC1 + 1) 0x3;;
  port IO_PIC2 0x11;;
  port (IO_PIC2 + 1) (T_IRQ0 + 8);;
  port (IO_PIC2 + 1) IRQ_SLAVE;;
  port (IO_PIC2 + 1) 0x3;;
  port IO_PIC1 0x68;;
  port IO_PIC1 0x0a;;
  port IO_PIC2 0x68;;
  port IO_PIC2 0x0a;;
  m ← gets irqmask;
  if negb (m =? 0xFFFF) then picsetmask m else mret tt.

(** ** ioapic.c *)

(** src/ioapic.c:9-13 *)
Definition IOAPIC : Z := 0xFEC00000.
Definition REG_ID : Z := 0.
Definition REG_VER : Z := 1.
Definition REG_TABLE : Z := 0x10.
(** src/ioapic.c:20-20 *)
Definition INT_DISABLED : Z := 0x10000.

(** The register is selected at offset 0, its data is at offset 16
    -- src/ioapic.c:34-39 *)
Definition ioapicread (reg : Z) : M (hw D) Z :=
  dev (writel IOAPIC reg);; dev (readl (IOAPIC + 16)).

(** src/ioapic.c:41-46 *)
Definition ioapicwrite (reg data : Z) : M (hw D) unit :=
  dev (writel IOAPIC reg);; dev (writel (IOAPIC + 16) data).

(** src/ioapic.c:48-68 *)
Definition ioapicinit : M (hw D) unit :=
  m ← gets ismp;
  if negb m then mret tt else
  v ← ioapicread REG_VER;
  let maxintr := Z.land (Z.shiftr v 16) 0xFF in
  v ← ioapicread REG_ID;
  want ← gets ioapicid;
  (if negb (Z.shiftr v 24 =? want) then say "ioapicinit: id isn't equal to ioapicid; not a MP" [] else mret tt);;
  for_each (seqZ 0 (maxintr + 1)) (λ i,
    ioapicwrite (REG_TABLE + 2 * i) (Z.lor INT_DISABLED (T_IRQ0 + i));;
    ioapicwrite (REG_TABLE + 2 * i + 1) 0).

(** src/ioapic.c:70-81 *)
Definition ioapicenable (irq cpunum : Z) : M (hw D) unit :=
  m ← gets ismp;
  if negb m then mret tt else
  ioapicwrite (REG_TABLE + 2 * irq) (T_IRQ0 + irq);;
  ioapicwrite (REG_TABLE + 2 * irq + 1) (w32 (Z.shiftl cpunum 24)).

(** ** lapic.c *)

(** Registers, by word -- src/lapic.c:12-40 *)
Definition L_ID : Z := 0x20 / 4.
Definition L_VER : Z := 0x30 / 4.
Definition L_TPR : Z := 0x80 / 4.
Definition L_EOI : Z := 0xB0 / 4.
Definition L_SVR : Z := 0xF0 / 4.
Definition L_ENABLE : Z := 0x100.
Definition L_ESR : Z := 0x280 / 4.
Definition L_ICRLO : Z := 0x300 / 4.
Definition L_INIT : Z := 0x500.
Definition L_DELIVS : Z := 0x1000.
Definition L_LEVEL : Z := 0x8000.
Definition L_BCAST : Z := 0x80000.
Definition L_ICRHI : Z := 0x310 / 4.
Definition L_TIMER : Z := 0x320 / 4.
Definition L_X1 : Z := 0xB.
Definition L_PERIODIC : Z := 0x20000.
Definition L_PCINT : Z := 0x340 / 4.
Definition L_LINT0 : Z := 0x350 / 4.
Definition L_LINT1 : Z := 0x360 / 4.
Definition L_ERROR : Z := 0x370 / 4.
Definition L_MASKED : Z := 0x10000.
Definition L_TICR : Z := 0x380 / 4.
Definition L_TDCR : Z := 0x3E0 / 4.

Definition lapicr (index : Z) : M (hw D) Z := l ← gets lapic; dev (readl (l + 4 * index)).

(** src/lapic.c:44-49 *)
Definition lapicw (index value : Z) : M (hw D) unit :=
  l ← gets lapic;
  dev (writel (l + 4 * index) value);;
  lapicr L_ID;;
  mret tt.

(** [while(lapic[ICRLO] & DELIVS)], with at most [fuel] reads -- src/lapic.c:91-92 *)
Fixpoint lapic_wait (fuel : nat) : M (hw D) unit :=
  match fuel with
  | O => nofuel
  | S fuel =>
      v ← lapicr L_ICRLO;
      if negb (Z.land v L_DELIVS =? 0) then lapic_wait fuel else mret tt
  end.

(** src/lapic.c:52-96 *)
Definition lapicinit (fuel : nat) : M (hw D) unit :=
  l ← gets lapic;
  if l =? 0 then mret tt else
  lapicw L_SVR (Z.lor L_ENABLE (T_IRQ0 + IRQ_SPURIOUS));;
  lapicw L_TDCR L_X1;;
  lapicw L_TIMER (Z.lor L_PERIODIC (T_IRQ0 + IRQ_TIMER));;
  lapicw L_TICR 10000000;;
  lapicw L_LINT0 L_MASKED;;
  lapicw L_LINT1 L_MASKED;;
  v ← lapicr L_VER;
  (if Z.land (Z.shiftr v 16) 0xFF >=? 4 then lapicw L_PCINT L_MASKED else mret tt);;
  lapicw L_ERROR (T_IRQ0 + IRQ_ERROR);;
  lapicw L_ESR 0;;
  lapicw L_ESR 0;;
  lapicw L_EOI 0;;
  lapicw L_ICRHI 0;;
  lapicw L_ICRLO (Z.lor (Z.lor L_BCAST L_INIT) L_LEVEL);;
  lapic_wait fuel;;
  lapicw L_TPR 0.

(** src/lapic.c:118-124 *)
Definition lapiceoi : M (hw D) unit :=
  l ← gets lapic;
  if negb (l =? 0) then lapicw L_EOI 0 else mret tt.

(** ** timer.c *)

(** [TIMER_DIV(x)] -- src/timer.c:16-17 *)
Definition TIMER_DIV (x : Z) : Z := (1193182 + x / 2) / x.

(** The ports are IO_TIMER1 and, for the mode, three above it
    -- src/timer.c:24-32 *)
Definition timerinit : M (hw D) unit :=
  port 0x43 (Z.lor (Z.lor 0x00 0x04) 0x30);;
  port 0x40 (TIMER_DIV 100 `mod` 256);;
  port 0x40 (TIMER_DIV 100 / 256);;
  picenable IRQ_TIMER.
End irq.

(** ** The lines that pass *)

(** What the 8259A does with a byte: command words of the initialization follow
    its first one at the data port, after them the data port is the mask. *)
Record pic := mkPic { imr : Z; icw_left : nat; vector : Z }.

Definition pic_command (v : Z) (c : pic) : pic := if Z.testbit v 4 then mkPic 0 3 (vector c) else c.
Definition pic_data (v : Z) (c : pic) : pic :=
  match icw_left c with
  | O => mkPic v 0 (vector c)
  | 3%nat => mkPic (imr c) 2 v
  | S n => mkPic (imr c) n (vector c)
  end.

(** The two controllers behind their ports. *)
Class PicPair (D : Type) {PD : Ports D} := {
  pic1 : D → pic;
  pic2 : D → pic;
  pic_out : ∀ p v d, p ∈ [0x20; 0x21; 0xA0; 0xA1] → ∃ d', outb p v d = Ok tt d' ∧
    pic1 d' = (if p =? 0x20 then pic_command v (pic1 d) else if p =? 0x21 then pic_data v (pic1 d) else pic1 d) ∧
    pic2 d' = (if p =? 0xA0 then pic_command v (pic2 d) else if p =? 0xA1 then pic_data v (pic2 d) else pic2 d);
}.

Section lines.
Context {D : Type} {PD : Ports D} {PP : PicPair D}.
Implicit Types (s : hw D).

(** The controllers, and the mask in the variable. *)
Definition pics (c1 c2 : pic) (m : Z) s : Prop := pic1 (h_dev s) = c1 ∧ pic2 (h_dev s) = c2 ∧ irqmask s = m.

Lemma wp_port p v (Q : unit → hw D → Prop) c1 c2 m s :
  p ∈ [0x20; 0x21; 0xA0; 0xA1] → pics c1 c2 m s →
  (∀ s', pics (if p =? 0x20 then pic_command (w8 v) c1 else if p =? 0x21 then pic_data (w8 v) c1 else c1)
           (if p =? 0xA0 then pic_command (w8 v) c2 else if p =? 0xA1 then pic_data (w8 v) c2 else c2) m s' → Q tt s') →
  wp (port p v) Q s.
Proof.
  intros Hp (<- & <- & <-) HQ. destruct (pic_out p (w8 v) (h_dev s) Hp) as (d' & E & H1 & H2).
  unfold port, dev, wp, zoom. rewrite E. apply HQ. by split_and!.
Qed.

(** The controllers are set up, with the mask of the variable. *)
Definition masked (m : Z) s : Prop := 0 ≤ m < 2^16 ∧ pics (mkPic (m `mod` 256) 0 32) (mkPic (m / 256) 0 40) m s.

Lemma picsetmask_wp m m0 i j s :
  0 ≤ m < 2^16 → pics (mkPic i 0 32) (mkPic j 0 40) m0 s → wp (picsetmask m) (λ _ s', masked m s') s.
Proof.
  intros Hm (A & B & _). assert (Hs : pics (mkPic i 0 32) (mkPic j 0 40) m (put_irqmask m s)) by (by split_and!).
  unfold picsetmask. wp_run. eapply wp_port; [set_solver|exact Hs|]. intros s1 H1.
  eapply wp_port; [set_solver|exact H1|]. intros s2 H2. split; [done|].
  assert (Hq : w8 (Z.shiftr m 8) = m / 256).
  { rewrite Z.shiftr_div_pow2 by lia. change (2^8) with 256. unfold w8. apply Z.mod_small. split; [apply Z.div_pos; lia|apply Z.div_lt_upper_bound; lia]. }
  rewrite Hq in H2. exact H2.
Qed.

Lemma picinit_wp s : irqmask s = irqmask0 → wp picinit (λ _ s', masked irqmask0 s') s.
Proof.
  intros Hm. assert (Hs : pics (pic1 (h_dev s)) (pic2 (h_dev s)) irqmask0 s) by done. unfold picinit.
  do 14 (apply wp_bind; eapply wp_port; [set_solver|exact Hs|]; clear Hs; cbv [IO_PIC1 IO_PIC2]; cbn [Z.add Pos.add Pos.succ Z.eqb Pos.eqb]; intros ? Hs).
  apply wp_bind, wp_gets. rewrite (proj2 (proj2 Hs)). change (negb (irqmask0 =? 0xFFFF)) with true. cbn iota.
  eapply picsetmask_wp; [vm_compute; by split|]. exact Hs.
Qed.

(** The line [i] is not masked by the controllers. *)
Definition passes s (i : Z) : bool :=
  negb (if i <? 8 then Z.testbit (imr (pic1 (h_dev s))) i else Z.testbit (imr (pic2 (h_dev s))) (i - 8)).

Lemma passes_mask m s i : masked m s → 0 ≤ i < 16 → passes s i = negb (Z.testbit m i).
Proof.
  intros (Hm & E1 & E2 & _) Hi. unfold passes. rewrite E1, E2. cbn [imr]. f_equal. destruct (Z.ltb_spec i 8).
  - change 256 with (2^8). by rewrite Z.mod_pow2_bits_low by lia.
  - change 256 with (2^8). rewrite Z.div_pow2_bits by lia. f_equal. lia.
Qed.

Lemma picenable_wp irq m s :
  masked m s → 0 ≤ irq < 16 → wp (picenable irq) (λ _ s', masked (Z.land m (Z.lnot (Z.shiftl 1 irq))) s') s.
Proof.
  intros (Hm & Hs) Hi. unfold picenable. wp_run. rewrite (proj2 (proj2 Hs)).
  assert (Ew : w16 (Z.land m (Z.lnot (Z.shiftl 1 irq))) = Z.land m (Z.lnot (Z.shiftl 1 irq))).
  { unfold w16. rewrite <- Z.land_ones, <- (Z.mod_small m (2^16)), <- Z.land_ones by lia.
    apply Z.bits_inj'. intros n Hn. rewrite !Z.land_spec. by destruct (Z.testbit m n), (Z.testbit (Z.ones 16) n), (Z.testbit (Z.lnot _) n). }
  rewrite Ew. eapply picsetmask_wp; [rewrite <- Ew; by apply Z.mod_pos_bound|exact Hs].
Qed.

(** After [picinit] and any sequence of [picenable], the interrupt lines that
    the two controllers let pass are the cascade line and those that were
    enabled, and their vectors start at 32 and 40. *)
Theorem lines_enabled irqs s :
  irqmask s = irqmask0 → Forall (λ i, 0 ≤ i < 16) irqs →
  wp (picinit;; for_each irqs picenable) (λ _ s',
    (∀ i, 0 ≤ i < 16 → passes s' i = bool_decide (i = IRQ_SLAVE ∨ i ∈ irqs)) ∧
    vector (pic1 (h_dev s')) = T_IRQ0 ∧ vector (pic2 (h_dev s')) = T_IRQ0 + 8) s.
Proof.
  intros Hm Hirqs. apply wp_bind. wp_use picinit_wp; [done|]. intros _ s1 H1.
  assert (H0 : ∀ i, 0 ≤ i < 16 → negb (Z.testbit irqmask0 i) = bool_decide (i = IRQ_SLAVE)).
  { intros i Hi. assert (Hin : i ∈ seqZ 0 16) by (apply elem_of_seqZ; lia).
    clear Hi. revert i Hin. apply Forall_forall. vm_compute. repeat constructor. }
  enough (Hgen : ∀ m (pass : Z → bool) s, masked m s → (∀ i, 0 ≤ i < 16 → negb (Z.testbit m i) = pass i) →
    wp (for_each irqs picenable) (λ _ s', ∃ m', masked m' s' ∧ ∀ i, 0 ≤ i < 16 → negb (Z.testbit m' i) = pass i || bool_decide (i ∈ irqs)) s).
  { wp_use (Hgen irqmask0 (λ i, bool_decide (i = IRQ_SLAVE))); [done..|]. intros _ s2 (m' & H2 & Hp). split.
    - intros i Hi. rewrite (passes_mask m') by done. by rewrite Hp, bool_decide_or.
    - destruct H2 as (_ & E1 & E2 & _). rewrite E1, E2. done. }
  clear -Hirqs PP. induction Hirqs as [|q irqs Hq _ IH]; intros m pass s Hs Hm; cbn [for_each].
  - apply wp_ret. exists m. split; [done|]. intros i Hi. rewrite Hm by done. rewrite bool_decide_false by (by apply not_elem_of_nil). by rewrite orb_false_r.
  - apply wp_bind. wp_use picenable_wp; [done..|]. intros _ s2 H2. wp_use (IH (Z.land m (Z.lnot (Z.shiftl 1 q))) (λ i, pass i || bool_decide (i = q))); [done| |].
    + intros i Hi. rewrite Z.land_spec, Z.lnot_spec, Z.shiftl_spec by lia. rewrite negb_andb, negb_involutive, Hm by done. f_equal.
      destruct (decide (i = q)) as [->|Hne]; [by rewrite Z.sub_diag, bool_decide_true|]. rewrite bool_decide_false by done.
      destruct (Z.lt_ge_cases (i - q) 0); [by apply Z.testbit_neg_r|]. by apply Z.bits_above_log2; [lia|simpl; lia].
    + intros _ s3 (m' & H3 & Hp). exists m'. split; [done|]. intros i Hi. rewrite Hp by done. rewrite <- orb_assoc, <- bool_decide_or. f_equal.
      apply bool_decide_ext. by rewrite elem_of_cons.
Qed.
End lines.

(** ** Two controllers as a machine *)

Record pics_machine := mkPics { m_pic1 : pic; m_pic2 : pic }.

Definition pics_out (p v : Z) : M pics_machine unit := modify (λ d, mkPics
  (if p =? 0x20 then pic_command v (m_pic1 d) else if p =? 0x21 then pic_data v (m_pic1 d) else m_pic1 d)
  (if p =? 0xA0 then pic_command v (m_pic2 d) else if p =? 0xA1 then pic_data v (m_pic2 d) else m_pic2 d)).

#[export] Instance pics_ports : Ports pics_machine := {|
  inb := λ _, mret 0; outb := pics_out; insl := λ _ n, mret (replicate (4 * n) 0);
  outsl := λ _ _, mret tt; readl := λ _, mret 0; writel := λ _ _, mret tt;
|}.

#[export] Instance pics_pair : PicPair pics_machine.
Proof. refine {| pic1 := m_pic1; pic2 := m_pic2 |}. intros p v d _. by eexists. Defined.

Lemma lines_enabled_witness :
  wp (picinit;; for_each [IRQ_KBD; IRQ_COM1; IRQ_IDE] picenable) (λ _ s', passes s' IRQ_IDE = true ∧ passes s' IRQ_TIMER = false)
    (mkHw (mkPics (mkPic 0 0 0) (mkPic 0 0 0)) [] 0 false 1 0 0 irqmask0 []).
Proof.
  eapply wp_mono; [apply (lines_enabled [IRQ_KBD; IRQ_COM1; IRQ_IDE])|].
  - reflexivity.
  - repeat constructor; vm_compute; discriminate.
  - cbn beta. intros _ s' [H _]. rewrite !H by (vm_compute; split; discriminate || reflexivity). split; reflexivity.
Defined.
