(* ===== verification/Ide.v ===== *)
(** * The disk driver (ide.c)

    The queue of requests, a linked list through the buffers, and the programmed
    input and output of a sector.  The device is behind the ports (class [Ports] of
    Mp.v); the class [IdeDisk] states what the driver relies on of an ATA disk, the
    registers of a command and what its completion does.

    The theorem: driver and device together implement a disk server that takes
    requests at one end of a queue and serves them at the other, in order, each
    one exactly once.  [iderw] is split where it sleeps. *)

From stdpp Require Import base numbers list strings relations.
From Stdlib Require Import ZArith Lia.
From S2P Require Import Prelude Blocks Bio Mp Irq.

#[local] Open Scope Z_scope.

(** src/ide.c:14-17 *)
Definition IDE_BSY : Z := 0x80.
Definition IDE_DRDY : Z := 0x40.
Definition IDE_DF : Z := 0x20.
Definition IDE_ERR : Z := 0x01.
(** src/ide.c:19-20 *)
Definition IDE_CMD_READ : Z := 0x20.
Definition IDE_CMD_WRITE : Z := 0x30.

(** The variables of the driver, the buffers with their [qnext], the device, and
    the buffers whose sleepers were woken -- src/ide.c:26-29 *)
Record ide (D : Type) := mkIde {
  idelock : bool;
  idequeue : option nat;
  havedisk1 : bool;
  i_buf : nat → buf;
  qnext : nat → option nat;
  i_hw : hw D;
  i_woken : list nat;
}.
Arguments mkIde {D} _ _ _ _ _ _ _.
Arguments idelock {D} _.
Arguments idequeue {D} _.
Arguments havedisk1 {D} _.
Arguments i_buf {D} _.
Arguments qnext {D} _.
Arguments i_hw {D} _.
Arguments i_woken {D} _.

Section driver.
Context {D : Type} {PD : Ports D}.
Implicit Types (s : ide D).

Definition put_idelock v s := mkIde v (idequeue s) (havedisk1 s) (i_buf s) (qnext s) (i_hw s) (i_woken s).
Definition put_idequeue v s := mkIde (idelock s) v (havedisk1 s) (i_buf s) (qnext s) (i_hw s) (i_woken s).
Definition put_havedisk1 v s := mkIde (idelock s) (idequeue s) v (i_buf s) (qnext s) (i_hw s) (i_woken s).
Definition put_buf i v s :=
  mkIde (idelock s) (idequeue s) (havedisk1 s) (λ j, if (j =? i)%nat then v else i_buf s j) (qnext s) (i_hw s) (i_woken s).
Definition put_qnext i v s :=
  mkIde (idelock s) (idequeue s) (havedisk1 s) (i_buf s) (λ j, if (j =? i)%nat then v else qnext s j) (i_hw s) (i_woken s).
Definition put_hw (v : hw D) s := mkIde (idelock s) (idequeue s) (havedisk1 s) (i_buf s) (qnext s) v (i_woken s).
Definition put_woken v s := mkIde (idelock s) (idequeue s) (havedisk1 s) (i_buf s) (qnext s) (i_hw s) v.

Definition device {A} (m : M D A) : M (ide D) A := zoom i_hw put_hw (dev m).
Definition ide_acquire : M (ide D) unit := acquire idelock put_idelock.
Definition ide_release : M (ide D) unit := release idelock put_idelock.
Definition ide_buf (b : nat) : M (ide D) buf := gets (λ s, i_buf s b).
Definition upd_buf (b : nat) (f : buf → buf) : M (ide D) unit := modify (λ s, put_buf b (f (i_buf s b)) s).

(** The loop polls at most [fuel] times -- src/ide.c:32-43 *)
Fixpoint idewait (fuel : nat) (checkerr : bool) : M D Z :=
  match fuel with
  | O => nofuel
  | Datatypes.S fuel =>
      r ← inb 0x1f7;
      if negb (Z.land r (Z.lor IDE_BSY IDE_DRDY) =? IDE_DRDY) then idewait fuel checkerr else
      mret (if checkerr && negb (Z.land r (Z.lor IDE_DF IDE_ERR) =? 0) then -1 else 0)
  end.

(** [for(i=0; i<1000; i++)]: whether disk 1 answers -- src/ide.c:57-62 *)
Fixpoint probe (n : nat) : M D bool :=
  match n with
  | O => mret false
  | Datatypes.S n =>
      r ← inb 0x1f7;
      if negb (r =? 0) then mret true else probe n
  end.

(** src/ide.c:45-66 *)
Definition ideinit (fuel : nat) : M (ide D) unit :=
  modify (put_idelock false);;
  zoom i_hw put_hw (picenable IRQ_IDE);;
  n ← gets (λ s, ncpu (i_hw s));
  zoom i_hw put_hw (ioapicenable IRQ_IDE (n - 1));;
  device (idewait fuel false);;
  device (outb 0x1f6 (Z.lor 0xe0 (Z.shiftl 1 4)));;
  p ← device (probe 1000);
  (if (p : bool) then modify (put_havedisk1 true) else mret tt);;
  device (outb 0x1f6 (Z.lor 0xe0 (Z.shiftl 0 4))).

(** src/ide.c:68-88 *)
Definition idestart (fuel : nat) (b : option nat) : M (ide D) unit :=
  match b with
  | None => panic "idestart"
  | Some b =>
      device (idewait fuel false);;
      x ← ide_buf b;
      device (outb 0x3f6 0);;
      device (outb 0x1f2 1);;
      device (outb 0x1f3 (Z.land (b_sector x) 0xff));;
      device (outb 0x1f4 (Z.land (Z.shiftr (b_sector x) 8) 0xff));;
      device (outb 0x1f5 (Z.land (Z.shiftr (b_sector x) 16) 0xff));;
      device (outb 0x1f6 (Z.lor (Z.lor 0xe0 (Z.shiftl (Z.land (b_dev x) 1) 4)) (Z.land (Z.shiftr (b_sector x) 24) 0x0f)));;
      if has B_DIRTY (b_flags x) then
        device (outb 0x1f7 IDE_CMD_WRITE);;
        device (outsl 0x1f0 (b_bytes x))
      else device (outb 0x1f7 IDE_CMD_READ)
  end.

(** src/ide.c:90-119 *)
Definition ideintr (fuel : nat) : M (ide D) unit :=
  ide_acquire;;
  q ← gets idequeue;
  match q with
  | None => ide_release
  | Some b =>
      n ← gets (λ s, qnext s b);
      modify (put_idequeue n);;
      x ← ide_buf b;
      (if negb (has B_DIRTY (b_flags x)) then
         r ← device (idewait fuel true);
         if r >=? 0 then bs ← device (insl 0x1f0 128); upd_buf b (with_bytes bs) else mret tt
       else mret tt);;
      upd_buf b (or_flags B_VALID);;
      upd_buf b (clr_flags B_DIRTY);;
      modify (λ s, put_woken (i_woken s ++ [b]) s);;
      q ← gets idequeue;
      (if bool_decide (q = None) then mret tt else idestart fuel q);;
      ide_release
  end.

(** [for(pp=&idequeue; *pp; pp=&( *pp)->qnext)]: a place is the head of the queue
    ([None]) or the link of a buffer -- src/ide.c:141-142 *)
Fixpoint queue_end (n : nat) (pp : option nat) : M (ide D) (option nat) :=
  v ← gets (λ s, match pp with None => idequeue s | Some i => qnext s i end);
  match v, n with
  | None, _ => mret pp
  | Some _, O => nofuel
  | Some i, Datatypes.S n => queue_end n (Some i)
  end.

(** The loop around [sleep] -- src/ide.c:149-154 *)
Definition iderw_wait (b : nat) : M (ide D) unit :=
  x ← ide_buf b;
  if negb (Z.land (b_flags x) (Z.lor B_VALID B_DIRTY) =? B_VALID) then park (ChBuf b) (put_idelock false)
  else ide_release.

(** There are [NBUF] buffers that can be in the queue -- src/ide.c:121-155 *)
Definition iderw (fuel : nat) (b : nat) : M (ide D) unit :=
  x ← ide_buf b;
  if negb (has B_BUSY (b_flags x)) then panic "iderw: buf not busy" else
  if Z.land (b_flags x) (Z.lor B_VALID B_DIRTY) =? B_VALID then panic "iderw: nothing to do" else
  h ← gets havedisk1;
  if negb (b_dev x =? 0) && negb h then panic "iderw: ide disk 1 not present" else
  ide_acquire;;
  modify (put_qnext b None);;
  pp ← queue_end NBUF None;
  modify (match pp with None => put_idequeue (Some b) | Some i => put_qnext i (Some b) end);;
  q ← gets idequeue;
  (if bool_decide (q = Some b) then idestart fuel q else mret tt);;
  iderw_wait b.

(** Woken up: [sleep] takes the lock again. *)
Definition iderw_resume (b : nat) : M (ide D) unit := ide_acquire;; iderw_wait b.
End driver.

(** ** The disk *)

(** A command the disk works on. *)
Inductive job :=
  | Rd (unit sector : Z)
  | WrData (unit sector : Z)
  | Wr (unit sector : Z) (bs : block).

(** What the command registers name: 28 bits of address, and the unit. *)
Definition lba (r : Z → Z) : Z := r 0x1f3 + 2^8 * r 0x1f4 + 2^16 * r 0x1f5 + 2^24 * (r 0x1f6 `mod` 16).
Definition unit_of (r : Z → Z) : Z := (r 0x1f6 / 16) `mod` 2.

Definition sector_upd (f : Z → Z → block) (u n : Z) (bs : block) : Z → Z → block :=
  λ u' n', if (u' =? u) && (n' =? n) then bs else f u' n'.

(** Polls of the status register until the disk is ready. *)
Inductive settles {D} `{Ports D} : nat → D → Z → D → Prop :=
  | settles_now r d d' :
      inb 0x1f7 d = Ok r d' → Z.land r (Z.lor IDE_BSY IDE_DRDY) = IDE_DRDY → settles 1 d r d'
  | settles_later n r0 d d1 r d' :
      inb 0x1f7 d = Ok r0 d1 → Z.land r0 (Z.lor IDE_BSY IDE_DRDY) ≠ IDE_DRDY → settles n d1 r d' → settles (Datatypes.S n) d r d'.

(** An ATA disk without errors: its registers, the contents of its units, the
    command it works on, and the sector it offers after a read.  [complete] is
    what it does by itself before it interrupts. *)
Class IdeDisk (D : Type) `{Ports D} := {
  regs : D → Z → Z;
  sectors : D → Z → Z → block;
  working : D → option job;
  offered : D → option block;
  complete : D → D;
  patience : nat;
  ata_poll d : working d = None → ∃ n r d', (n ≤ patience)%nat ∧ settles n d r d' ∧ Z.land r (Z.lor IDE_DF IDE_ERR) = 0 ∧
    regs d' = regs d ∧ sectors d' = sectors d ∧ working d' = None ∧ offered d' = offered d;
  ata_reg p v d : p ∈ [0x3f6; 0x1f2; 0x1f3; 0x1f4; 0x1f5; 0x1f6] → working d = None → ∃ d', outb p v d = Ok tt d' ∧
    (∀ q, regs d' q = if q =? p then v else regs d q) ∧ sectors d' = sectors d ∧ working d' = None;
  ata_read d : working d = None → regs d 0x3f6 = 0 → regs d 0x1f2 = 1 → ∃ d', outb 0x1f7 IDE_CMD_READ d = Ok tt d' ∧
    sectors d' = sectors d ∧ working d' = Some (Rd (unit_of (regs d)) (lba (regs d)));
  ata_write d : working d = None → regs d 0x3f6 = 0 → regs d 0x1f2 = 1 → ∃ d', outb 0x1f7 IDE_CMD_WRITE d = Ok tt d' ∧
    sectors d' = sectors d ∧ working d' = Some (WrData (unit_of (regs d)) (lba (regs d)));
  ata_data u n bs d : working d = Some (WrData u n) → is_block bs → ∃ d', outsl 0x1f0 bs d = Ok tt d' ∧
    sectors d' = sectors d ∧ working d' = Some (Wr u n bs);
  ata_read_done u n d : working d = Some (Rd u n) →
    sectors (complete d) = sectors d ∧ working (complete d) = None ∧ offered (complete d) = Some (sectors d u n);
  ata_write_done u n bs d : working d = Some (Wr u n bs) →
    sectors (complete d) = sector_upd (sectors d) u n bs ∧ working (complete d) = None;
  ata_take bs d : offered d = Some bs → working d = None → ∃ d', insl 0x1f0 128 d = Ok bs d' ∧
    sectors d' = sectors d ∧ working d' = None;
}.

Section server.
Context {D : Type} {PD : Ports D} {ID : IdeDisk D}.
Implicit Types (s : ide D) (d : D).

Definition dsk s : D := h_dev (i_hw s).
Definition put_dsk d s : ide D := put_hw (put_dev d (i_hw s)) s.

Lemma put_dsk_dsk d s : dsk (put_dsk d s) = d.
Proof. done. Qed.
Lemma put_dsk_twice d d' s : put_dsk d (put_dsk d' s) = put_dsk d s.
Proof. done. Qed.

Lemma wp_device {A} (m : M D A) a d' s (Q : A → ide D → Prop) :
  m (dsk s) = Ok a d' → Q a (put_dsk d' s) → wp (device m) Q s.
Proof. unfold wp, device, dev, zoom, dsk. by intros ->. Qed.

Lemma idewait_settles n d r d' fuel chk :
  settles n d r d' → (n ≤ fuel)%nat → Z.land r (Z.lor IDE_DF IDE_ERR) = 0 → idewait fuel chk d = Ok 0 d'.
Proof.
  intros H. revert fuel. induction H as [r d d' E Hr|n r0 d d1 r d' E Hr _ IH]; intros fuel Hf Herr; (destruct fuel as [|fuel]; [lia|]); cbn [idewait].
  - rewrite (bind_ok _ _ _ _ _ E), Hr. cbn. rewrite Herr. by destruct chk.
  - rewrite (bind_ok _ _ _ _ _ E), (proj2 (Z.eqb_neq _ _) Hr). cbn [negb]. apply IH; [lia|done].
Qed.

Lemma idewait_ready chk d fuel :
  working d = None → (patience ≤ fuel)%nat → ∃ d', idewait fuel chk d = Ok 0 d' ∧
    regs d' = regs d ∧ sectors d' = sectors d ∧ working d' = None ∧ offered d' = offered d.
Proof.
  intros Hw Hf. destruct (ata_poll d Hw) as (n & r & d' & Hn & Hs & Herr & Hsame). exists d'. split; [|done].
  eapply idewait_settles; [done|lia|done].
Qed.

(** *** The registers of a command *)

Definition drive (u hi : Z) : Z := Z.lor (Z.lor 0xe0 (Z.shiftl u 4)) hi.

Lemma drive_bits u hi : 0 ≤ u < 2 → 0 ≤ hi < 16 → drive u hi `mod` 16 = hi ∧ (drive u hi / 16) `mod` 2 = u.
Proof.
  intros Hu Hh. assert (H : Forall (λ u, Forall (λ hi, drive u hi `mod` 16 = hi ∧ (drive u hi / 16) `mod` 2 = u) (seqZ 0 16)) (seqZ 0 2)).
  { vm_compute. repeat constructor. }
  rewrite Forall_forall in H. specialize (H u ltac:(apply elem_of_seqZ; lia)). rewrite Forall_forall in H. apply H, elem_of_seqZ. lia.
Qed.

Lemma low_bits z k : 0 ≤ k → Z.land z (Z.ones k) = z `mod` 2^k.
Proof. intros. by apply Z.land_ones. Qed.

Lemma sector_parts n :
  0 ≤ n < 2^28 →
  Z.land n 0xff + 2^8 * Z.land (Z.shiftr n 8) 0xff + 2^16 * Z.land (Z.shiftr n 16) 0xff + 2^24 * Z.land (Z.shiftr n 24) 0x0f = n ∧
  0 ≤ Z.land (Z.shiftr n 24) 0x0f < 16.
Proof.
  intros Hn. change 0xff with (Z.ones 8). change 0x0f with (Z.ones 4). rewrite !low_bits, !Z.shiftr_div_pow2 by lia.
  pose proof (Z.div_mod n (2^8) ltac:(lia)) as E0. pose proof (Z.div_mod (n / 2^8) (2^8) ltac:(lia)) as E1.
  pose proof (Z.div_mod (n / 2^16) (2^8) ltac:(lia)) as E2.
  assert (F1 : n / 2^8 / 2^8 = n / 2^16) by (rewrite Z.div_div by lia; done).
  assert (F2 : n / 2^16 / 2^8 = n / 2^24) by (rewrite Z.div_div by lia; done).
  assert (F3 : (n / 2^24) `mod` 2^4 = n / 2^24).
  { apply Z.mod_small. split; [apply Z.div_pos; lia|apply Z.div_lt_upper_bound; lia]. }
  split; [|apply Z.mod_pos_bound; lia]. rewrite F1 in E1. rewrite F2 in E2. lia.
Qed.

(** What the buffer asks of the disk. *)
Definition request (x : buf) : job :=
  if has B_DIRTY (b_flags x) then Wr (b_dev x `mod` 2) (b_sector x) (b_bytes x) else Rd (b_dev x `mod` 2) (b_sector x).

Definition sane (x : buf) : Prop := 0 ≤ b_sector x < 2^28 ∧ is_block (b_bytes x).

(** One register. *)
Lemma wp_reg p v (Q : unit → ide D → Prop) s :
  p ∈ [0x3f6; 0x1f2; 0x1f3; 0x1f4; 0x1f5; 0x1f6] → working (dsk s) = None →
  (∀ d', (∀ q, regs d' q = if q =? p then v else regs (dsk s) q) → sectors d' = sectors (dsk s) → working d' = None → Q tt (put_dsk d' s)) →
  wp (device (outb p v)) Q s.
Proof. intros Hp Hw HQ. destruct (ata_reg p v (dsk s) Hp Hw) as (d' & E & H1 & H2 & H3). eapply wp_device; [exact E|]. by apply HQ. Qed.

Lemma idestart_wp fuel b s :
  (patience ≤ fuel)%nat → working (dsk s) = None → sane (i_buf s b) →
  wp (idestart fuel (Some b)) (λ _ s', ∃ d', s' = put_dsk d' s ∧ sectors d' = sectors (dsk s) ∧ working d' = Some (request (i_buf s b))) s.
Proof.
  intros Hf Hw [Hn Hb]. unfold idestart. destruct (idewait_ready false (dsk s) fuel Hw Hf) as (d0 & E0 & R0 & S0 & W0 & _).
  apply wp_bind. eapply wp_device; [exact E0|]. apply wp_bind, wp_gets.
  change (i_buf (put_dsk d0 s) b) with (i_buf s b). set (x := i_buf s b) in *.
  destruct (sector_parts (b_sector x) Hn) as [Hparts Hhi]. set (hi := Z.land (Z.shiftr (b_sector x) 24) 0x0f) in *.
  assert (Hu : Z.land (b_dev x) 1 = b_dev x `mod` 2) by (change 1 with (Z.ones 1); by rewrite Z.land_ones).
  rewrite Hu. destruct (drive_bits (b_dev x `mod` 2) hi) as [Dlo Dhi]; [apply Z.mod_pos_bound; lia|done|]. fold (drive (b_dev x `mod` 2) hi).
  do 6 (apply wp_bind, wp_reg; [set_solver|done|]; rewrite ?put_dsk_twice, ?put_dsk_dsk; intros ? ? ? ?).
  rewrite ?put_dsk_twice.
  match goal with H : working ?d = None |- wp _ _ (put_dsk ?d s) => rename d into d6, H into W6 end.
  assert (Hr : regs d6 0x3f6 = 0 ∧ regs d6 0x1f2 = 1 ∧ lba (regs d6) = b_sector x ∧ unit_of (regs d6) = b_dev x `mod` 2 ∧ sectors d6 = sectors (dsk s)).
  { unfold lba, unit_of. repeat match goal with H : ∀ q, regs ?d q = _ |- _ => rewrite !H; clear H end. cbn [Z.eqb Pos.eqb].
    split_and!; [done..|by rewrite Dlo|done|congruence]. }
  destruct Hr as (R1 & R2 & R3 & R4 & R5). unfold request. destruct (has B_DIRTY (b_flags x)).
  - destruct (ata_write d6 W6 R1 R2) as (d7 & E7 & S7 & W7). apply wp_bind. eapply wp_device; [exact E7|].
    destruct (ata_data _ _ (b_bytes x) d7 W7 Hb) as (d8 & E8 & S8 & W8). eapply wp_device; [exact E8|].
    exists d8. rewrite !put_dsk_twice, W8, R3, R4. split_and!; [done|congruence|done].
  - destruct (ata_read d6 W6 R1 R2) as (d7 & E7 & S7 & W7). eapply wp_device; [exact E7|].
    exists d7. rewrite put_dsk_twice, W7, R3, R4. split_and!; [done|congruence|done].
Qed.

(** *** The queue *)

(** The list that starts at [h] is [q]. *)
Fixpoint chain (f : nat → option nat) (h : option nat) (q : list nat) : Prop :=
  match q with
  | [] => h = None
  | b :: q => h = Some b ∧ chain f (f b) q
  end.

Definition upd_link (f : nat → option nat) (i : nat) (v : option nat) : nat → option nat := λ j, if (j =? i)%nat then v else f j.

Lemma queue_chain_ext f g h q : (∀ b, b ∈ q → g b = f b) → chain f h q → chain g h q.
Proof.
  revert h. induction q as [|b q IH]; intros h He; [done|]. intros [-> Hc]. split; [done|]. rewrite (He b) by (by left).
  apply IH; [|done]. intros b' Hb'. apply He. by right.
Qed.

Lemma chain_snoc f h q i b :
  NoDup q → b ∉ q → f b = None → last q = Some i → chain f h q → chain (upd_link f i (Some b)) h (q ++ [b]).
Proof.
  intros Hnd Hb Hf. revert h. induction Hnd as [|x q Hx Hnd IH]; intros h Hl Hc; [done|].
  destruct Hc as [-> Hc]. apply not_elem_of_cons in Hb as [Hbx Hb]. split; [done|]. destruct q as [|y q].
  - injection Hl as ->. cbn. unfold upd_link. rewrite Nat.eqb_refl, (proj2 (Nat.eqb_neq b i)) by done. by split.
  - assert (Hxi : x ≠ i). { intros ->. apply Hx. rewrite last_cons in Hl. destruct (last (y :: q)) eqn:E; [|by apply last_None in E]. injection Hl as ->. by apply last_Some_elem_of. }
    unfold upd_link at 2. rewrite (proj2 (Nat.eqb_neq x i)) by done. apply IH; [done| |done].
    rewrite last_cons in Hl. destruct (last (y :: q)) eqn:E; [done|by apply last_None in E].
Qed.

Definition link_of s (pp : option nat) : option nat := match pp with None => idequeue s | Some i => qnext s i end.

Lemma queue_end_run n pp q s :
  chain (qnext s) (link_of s pp) q → (length q ≤ n)%nat →
  queue_end n pp s = Ok (match last q with Some i => Some i | None => pp end) s.
Proof.
  revert n pp. induction q as [|b q IH]; intros n pp.
  - cbn [chain]. intros Hl _. unfold queue_end. destruct n; unfold mbind, M_bind, gets; fold (link_of s pp); by rewrite Hl.
  - intros [Hl Hc] Hn. destruct n as [|n]; [simpl in Hn; lia|]. cbn [queue_end]. unfold mbind, M_bind, gets. fold (link_of s pp). rewrite Hl.
    rewrite (IH n (Some b)) by (done || simpl in Hn; lia). rewrite last_cons. by destruct (last q).
Qed.

(** A buffer that waits for the disk. *)
Definition asks (x : buf) : Prop :=
  has B_BUSY (b_flags x) = true ∧ (Z.land (b_flags x) (Z.lor B_VALID B_DIRTY) =? B_VALID) = false ∧ sane x.

Record served (q : list nat) s : Prop := {
  q_lock : idelock s = false;
  q_chain : chain (qnext s) (idequeue s) q;
  q_nodup : NoDup q;
  q_bufs : ∀ b, b ∈ q → (b < NBUF)%nat ∧ asks (i_buf s b);
  q_job : working (dsk s) = match q with [] => None | b :: _ => Some (request (i_buf s b)) end;
}.

Lemma served_length q s : served q s → (length q ≤ NBUF)%nat.
Proof.
  intros Hs. assert (H : (length q ≤ length (seq 0 NBUF))%nat); [|by rewrite length_seq in H].
  apply submseteq_length, NoDup_submseteq; [apply Hs|]. intros b Hb. apply elem_of_seq. pose proof (proj1 (q_bufs _ _ Hs b Hb)). lia.
Qed.

(** [iderw] puts the request at the end, starts it if it is alone, and sleeps. *)
Lemma iderw_asks fuel b q s :
  (patience ≤ fuel)%nat → served q s → b ∉ q → (b < NBUF)%nat → asks (i_buf s b) → b_dev (i_buf s b) = 0 ∨ havedisk1 s = true →
  ∃ s', iderw fuel b s = Sleep (ChBuf b) s' ∧ served (q ++ [b]) s' ∧
    (∀ j, i_buf s' j = i_buf s j) ∧ sectors (dsk s') = sectors (dsk s) ∧ havedisk1 s' = havedisk1 s ∧ i_woken s' = i_woken s.
Proof.
  intros Hf Hs Hb Hlt (Hbusy & Hwork & Hsane) Hdev. pose proof Hs as [Hl Hc Hnd Hbufs Hjob].
  unfold iderw. unfold mbind at 1, M_bind at 1. cbn [ide_buf gets]. rewrite Hbusy, Hwork. cbn [negb].
  unfold mbind at 1, M_bind at 1. cbn [gets].
  assert (Hd : negb (b_dev (i_buf s b) =? 0) && negb (havedisk1 s) = false).
  { destruct Hdev as [-> | ->]; [done|by rewrite andb_false_r]. }
  rewrite Hd. unfold mbind at 1, M_bind at 1. unfold ide_acquire, acquire. rewrite Hl.
  unfold mbind at 1, M_bind at 1. cbn [modify]. set (s1 := put_qnext b None (put_idelock true s)).
  assert (Hc1 : chain (qnext s1) (link_of s1 None) q).
  { apply (queue_chain_ext (qnext s)); [|done]. intros j Hj. cbn. by rewrite (proj2 (Nat.eqb_neq j b)) by (intros ->; done). }
  assert (Hb1 : qnext s1 b = None) by (cbn; by rewrite Nat.eqb_refl).
  rewrite (bind_ok _ _ _ _ _ (queue_end_run NBUF None q s1 Hc1 (served_length _ _ Hs))).
  assert (Hend : ∀ s2, idelock s2 = true → (∀ j, i_buf s2 j = i_buf s j) → iderw_wait b s2 = Sleep (ChBuf b) (put_idelock false s2)).
  { intros s2 _ E2. unfold iderw_wait, mbind, M_bind. cbn [ide_buf gets]. by rewrite E2, Hwork. }
  destruct q as [|b0 q].
  - cbn [last]. unfold mbind at 1, M_bind at 1. cbn [modify]. unfold mbind at 1, M_bind at 1. cbn [gets idequeue put_idequeue].
    rewrite bool_decide_true by done. set (s2 := put_idequeue (Some b) s1).
    destruct (proj1 (wp_ok _ _ _) (idestart_wp fuel b s2 Hf Hjob Hsane)) as ([] & s3 & E3 & d' & -> & Hsec & Hw).
    rewrite (bind_ok _ _ _ _ _ E3), Hend by done. eexists. split; [done|]. split; [|by split_and!]. split; cbn [app].
    + done.
    + cbn. by rewrite Nat.eqb_refl.
    + apply NoDup_singleton.
    + intros j ->%list_elem_of_singleton. done.
    + exact Hw.
  - destruct (last (b0 :: q)) as [i|] eqn:El; [|by apply last_None in El].
    unfold mbind at 1, M_bind at 1. cbn [modify]. unfold mbind at 1, M_bind at 1. cbn [gets]. set (s2 := put_qnext i (Some b) s1).
    assert (Hq2 : idequeue s2 = Some b0) by (by destruct Hc1). rewrite Hq2. rewrite bool_decide_false.
    2: { intros [= ->]. apply Hb. by left. }
    unfold mbind at 1, M_bind at 1. cbn [mret M_ret]. unfold mret, M_ret. rewrite Hend by done. eexists. split; [done|]. split; [|by split_and!]. split.
    + done.
    + apply (chain_snoc (qnext s1) (idequeue s1) (b0 :: q) i b); done.
    + apply NoDup_app. split_and!; [done| |apply NoDup_singleton]. intros j Hj ->%list_elem_of_singleton. done.
    + intros j [Hj| ->%list_elem_of_singleton]%elem_of_app; [by apply Hbufs|done].
    + exact Hjob.
Qed.

(** What serving a request does to the buffer and to the disk. *)
Definition finished (f : Z → Z → block) (x : buf) : buf :=
  clr_flags B_DIRTY (or_flags B_VALID
    (if has B_DIRTY (b_flags x) then x else with_bytes (f (b_dev x `mod` 2) (b_sector x)) x)).
Definition stored_by (x : buf) (f : Z → Z → block) : Z → Z → block :=
  if has B_DIRTY (b_flags x) then sector_upd f (b_dev x `mod` 2) (b_sector x) (b_bytes x) else f.

Lemma finished_flags f x : Z.land (b_flags (finished f x)) (Z.lor B_VALID B_DIRTY) = B_VALID.
Proof.
  unfold finished, clr_flags, or_flags. cbn [b_flags with_flags]. generalize (b_flags (if has B_DIRTY (b_flags x) then x else with_bytes (f (b_dev x `mod` 2) (b_sector x)) x)).
  intros v. rewrite <- Z.land_assoc. change (Z.land (Z.lnot B_DIRTY) (Z.lor B_VALID B_DIRTY)) with B_VALID.
  apply Z.bits_inj'. intros n Hn. rewrite Z.land_spec, Z.lor_spec. by destruct (Z.testbit v n), (Z.testbit B_VALID n).
Qed.

(** Only the buffer [b] changed (to [x]), and the device. *)
Definition moved (b : nat) (x : buf) s s' : Prop :=
  idelock s' = idelock s ∧ idequeue s' = idequeue s ∧ havedisk1 s' = havedisk1 s ∧ qnext s' = qnext s ∧ i_woken s' = i_woken s ∧
  i_buf s' b = x ∧ ∀ j, j ≠ b → i_buf s' j = i_buf s j.

Lemma put_buf_other b x s j : j ≠ b → i_buf (put_buf b x s) j = i_buf s j.
Proof. intros Hj. cbn. by rewrite (proj2 (Nat.eqb_neq j b)). Qed.
Lemma put_buf_same b x s : i_buf (put_buf b x s) b = x.
Proof. cbn. by rewrite Nat.eqb_refl. Qed.

Lemma wp_upd_buf b f x0 s0 s (Q : unit → ide D → Prop) :
  moved b x0 s0 s → (∀ s', moved b (f x0) s0 s' → dsk s' = dsk s → Q tt s') → wp (upd_buf b f) Q s.
Proof.
  intros (A & B & C & E & G & H & I) HQ. apply wp_modify, HQ; [|done]. split_and!; try done.
  - by rewrite put_buf_same, H.
  - intros j Hj. rewrite put_buf_other by done. by apply I.
Qed.

(** The disk is done with the request; its data are read if needed. *)
Lemma take_data fuel b s :
  (patience ≤ fuel)%nat → working (dsk s) = Some (request (i_buf s b)) →
  wp (if negb (has B_DIRTY (b_flags (i_buf s b))) then
        r ← device (idewait fuel true);
        if r >=? 0 then bs ← device (insl 0x1f0 128); upd_buf b (with_bytes bs) else mret tt
      else mret tt)
    (λ _ s', moved b (if has B_DIRTY (b_flags (i_buf s b)) then i_buf s b
                      else with_bytes (sectors (dsk s) (b_dev (i_buf s b) `mod` 2) (b_sector (i_buf s b))) (i_buf s b)) s s' ∧
       working (dsk s') = None ∧ sectors (dsk s') = stored_by (i_buf s b) (sectors (dsk s)))
    (put_dsk (complete (dsk s)) s).
Proof.
  intros Hf Hw. unfold request, stored_by in *. set (x := i_buf s b) in *. destruct (has B_DIRTY (b_flags x)) eqn:Hd; cbn [negb].
  - destruct (ata_write_done _ _ _ _ Hw) as [Hs Hn]. apply wp_ret. by split_and!.
  - destruct (ata_read_done _ _ _ Hw) as (Hs & Hn & Ho). destruct (idewait_ready true (complete (dsk s)) fuel Hn Hf) as (d1 & E1 & _ & S1 & W1 & O1).
    apply wp_bind. eapply wp_device; [exact E1|]. cbn [Z.geb Z.compare]. rewrite Ho in O1.
    destruct (ata_take _ d1 O1 W1) as (d2 & E2 & S2 & W2). apply wp_bind. eapply wp_device; [exact E2|].
    eapply (wp_upd_buf b _ x s); [by split_and!|]. intros s' Hm Ed. split; [exact Hm|]. rewrite Ed. cbn. split; [done|congruence].
Qed.

Lemma ideintr_serves fuel b q s :
  (patience ≤ fuel)%nat → served (b :: q) s →
  wp (ideintr fuel) (λ _ s', served q s' ∧ i_woken s' = i_woken s ++ [b] ∧
    i_buf s' b = finished (sectors (dsk s)) (i_buf s b) ∧ (∀ j, j ≠ b → i_buf s' j = i_buf s j) ∧
    sectors (dsk s') = stored_by (i_buf s b) (sectors (dsk s)) ∧ havedisk1 s' = havedisk1 s)
    (put_dsk (complete (dsk s)) s).
Proof.
  intros Hf [Hl [Hq Hc] Hnd Hbufs Hjob]. apply NoDup_cons in Hnd as [Hb Hnd]. unfold ideintr.
  apply wp_bind, wp_acquire; [done|]. apply wp_bind, wp_gets. cbn [idequeue put_idelock put_dsk put_hw]. rewrite Hq.
  apply wp_bind, wp_gets. apply wp_bind, wp_modify. apply wp_bind, wp_gets.
  set (s2 := put_idequeue (qnext s b) (put_idelock true s)). apply wp_bind.
  eapply wp_mono; [apply (take_data fuel b s2 Hf Hjob)|]. cbn beta. intros _ s3 (H3 & W3 & S3).
  apply wp_bind. eapply wp_upd_buf; [exact H3|]. intros s4 H4 D4. apply wp_bind. eapply wp_upd_buf; [exact H4|]. intros s5 H5 D5.
  apply wp_bind, wp_modify. apply wp_bind, wp_gets. cbn [idequeue put_woken].
  destruct H5 as (L5 & Q5 & V5 & N5 & K5 & B5 & O5). rewrite Q5. cbn [s2 put_idequeue idequeue].
  assert (Hd5 : working (dsk s5) = None ∧ sectors (dsk s5) = stored_by (i_buf s b) (sectors (dsk s))) by (by rewrite D5, D4).
  assert (Hbufs' : ∀ j, j ∈ q → (j < NBUF)%nat ∧ asks (i_buf s5 j)).
  { intros j Hj. rewrite O5 by (intros ->; done). apply Hbufs. by right. }
  set (s6 := put_woken _ s5). apply wp_bind.
  enough (Hend : wp (if bool_decide (qnext s b = None) then mret tt else idestart fuel (qnext s b)) (λ _ s7, ∃ d', s7 = put_dsk d' s6 ∧
    sectors d' = stored_by (i_buf s b) (sectors (dsk s)) ∧
    working d' = match q with [] => None | c :: _ => Some (request (i_buf s5 c)) end) s6).
  { eapply wp_mono; [exact Hend|]. cbn beta. intros _ s7 (d' & -> & Hsec & Hw). apply wp_release; [exact L5|].
    split; [|split_and!; [cbn; by rewrite K5|exact B5|exact O5|exact Hsec|exact V5]]. split; [done| |done|exact Hbufs'|exact Hw].
    cbn. rewrite N5, Q5. exact Hc. }
  destruct q as [|c q]; cbn [chain] in Hc.
  - rewrite Hc. rewrite bool_decide_true by done. apply wp_ret. exists (dsk s6). split_and!; [by destruct s5 as [? ? ? ? ? []]|apply Hd5..].
  - destruct Hc as [-> Hc]. rewrite bool_decide_false by done. destruct (Hbufs' c) as (_ & _ & _ & Hsane); [by left|].
    eapply wp_mono; [apply (idestart_wp fuel c s6 Hf); [apply Hd5|exact Hsane]|]. cbn beta. intros _ s7 (d' & -> & Hsec & Hw).
    exists d'. split_and!; [done| |done]. rewrite Hsec. apply Hd5.
Qed.

(** *** A server with a queue *)

(** What clients see: who waits, the disk, the buffers, and whose sleepers were
    woken. *)
Record server := mkServer { a_queue : list nat; a_disk : Z → Z → block; a_buf : nat → buf; a_two : bool; a_woken : list nat }.

(** A call of [iderw]; an interrupt after the disk is done, or for nothing; the
    owner of a buffer that does not wait changes it. *)
Inductive event := Ask (b : nat) | Irq | Spurious | Own (b : nat) (x : buf).

Definition enqueue (b : nat) (a : server) : server := mkServer (a_queue a ++ [b]) (a_disk a) (a_buf a) (a_two a) (a_woken a).
Definition serve (b : nat) (q : list nat) (a : server) : server :=
  mkServer q (stored_by (a_buf a b) (a_disk a))
    (λ j, if (j =? b)%nat then finished (a_disk a) (a_buf a b) else a_buf a j) (a_two a) (a_woken a ++ [b]).

Inductive server_step : event → server → server → Prop :=
  | step_ask b a :
      b ∉ a_queue a → (b < NBUF)%nat → asks (a_buf a b) → b_dev (a_buf a b) = 0 ∨ a_two a = true →
      server_step (Ask b) a (enqueue b a)
  | step_irq b q a : a_queue a = b :: q → server_step Irq a (serve b q a)
  | step_spurious a : a_queue a = [] → server_step Spurious a a
  | step_own b x a :
      b ∉ a_queue a → server_step (Own b x) a (mkServer (a_queue a) (a_disk a) (λ j, if (j =? b)%nat then x else a_buf a j) (a_two a) (a_woken a)).

(** The code that runs. *)
Inductive driver_step (fuel : nat) : event → ide D → ide D → Prop :=
  | run_ask b s s' : iderw fuel b s = Sleep (ChBuf b) s' → driver_step fuel (Ask b) s s'
  | run_irq s s' : ideintr fuel (put_dsk (complete (dsk s)) s) = Ok tt s' → driver_step fuel Irq s s'
  | run_spurious s s' : ideintr fuel s = Ok tt s' → driver_step fuel Spurious s s'
  | run_own b x s : driver_step fuel (Own b x) s (put_buf b x s).

Inductive run {T} (step : event → T → T → Prop) : list event → T → T → Prop :=
  | run_nil x : run step [] x x
  | run_cons e es x y z : step e x y → run step es y z → run step (e :: es) x z.

Definition implements s a : Prop :=
  served (a_queue a) s ∧ sectors (dsk s) = a_disk a ∧ (∀ b, i_buf s b = a_buf a b) ∧ havedisk1 s = a_two a ∧ i_woken s = a_woken a.

(** The requests of a sequence of events. *)
Definition asked (es : list event) : list nat := flat_map (λ e, match e with Ask b => [b] | _ => [] end) es.

Lemma put_buf_served b x q s : b ∉ q → served q s → served q (put_buf b x s).
Proof.
  intros Hb [Hl Hc Hnd Hbufs Hjob]. assert (E : ∀ j, j ∈ q → i_buf (put_buf b x s) j = i_buf s j).
  { intros j Hj. apply put_buf_other. by intros ->. }
  split; [done..| |].
  - intros j Hj. rewrite E by done. by apply Hbufs.
  - destruct q as [|c q]; [done|]. rewrite E by (by left). done.
Qed.

Lemma implements_step fuel e a a' s :
  (patience ≤ fuel)%nat → implements s a → server_step e a a' → ∃ s', driver_step fuel e s s' ∧ implements s' a'.
Proof.
  intros Hf (Hs & Hd & Hb & Ht & Hk) Hstep. destruct Hstep as [b a Hq Hlt Ha Hdev|b q a Hq|a Hq|b x a Hq].
  - rewrite <- Hb in Ha, Hdev. rewrite <- Ht in Hdev. destruct (iderw_asks fuel b _ s Hf Hs Hq Hlt Ha Hdev) as (s' & E & Hs' & Hb' & Hd' & Ht' & Hk').
    exists s'. split; [by constructor|]. split_and!; [done|cbn; congruence|intros j; cbn; by rewrite Hb'|cbn; congruence|cbn; congruence].
  - rewrite Hq in Hs. destruct (proj1 (wp_ok _ _ _) (ideintr_serves fuel b q s Hf Hs)) as ([] & s' & E & Hs' & Hk' & Hx & Ho & Hd' & Ht').
    exists s'. split; [by constructor|]. split_and!; [done|cbn; by rewrite Hd', Hb, Hd| |cbn; congruence|cbn; congruence].
    intros j. cbn. destruct (Nat.eqb_spec j b) as [->|Hj]; [by rewrite Hx, Hb, Hd|by rewrite Ho].
  - rewrite Hq in Hs. pose proof Hs as [Hl Hc _ _ _]. exists (put_idelock false (put_idelock true s)). split.
    + constructor. unfold ideintr, mbind, M_bind, ide_acquire, acquire, gets, ide_release, release. rewrite Hl. cbn. cbn in Hc. by rewrite Hc.
    + split_and!; [|done..]. rewrite Hq. destruct Hs as [Hl' Hc' Hnd Hbufs Hjob]. by split.
  - exists (put_buf b x s). split; [constructor|]. split_and!; [by apply put_buf_served|done| |done|done].
    intros j. cbn. destruct (j =? b)%nat; [done|apply Hb].
Qed.

(** Requests leave the server in the order they came in, and each one that
    leaves is woken. *)
Lemma server_fifo es a a' :
  run server_step es a a' → ∃ w, a_woken a' = a_woken a ++ w ∧ a_queue a ++ asked es = w ++ a_queue a'.
Proof.
  induction 1 as [a|e es a a1 a2 Hstep _ (w & Ew & Eq)]; [exists []; by rewrite !app_nil_r|].
  destruct Hstep as [b a _ _ _ _|b q a Hq|a Hq|b x a _]; cbn [a_woken a_queue enqueue serve] in *.
  - exists w. split; [done|]. by rewrite <- Eq, <- app_assoc.
  - exists (b :: w). split; [by rewrite Ew, <- app_assoc|]. rewrite Hq. cbn. f_equal. exact Eq.
  - by exists w.
  - by exists w.
Qed.

(** C23: The driver and an ATA disk together are a server with a queue: whatever
    happens, calls of [iderw] put requests at its end, the interrupts serve the
    request at its front (a read fills the buffer, a write stores it), and no
    other sector or buffer changes.  Nobody panics, and the loops end.  Every
    request that is served has its sleepers woken by [wakeup(b)], once: the
    buffers woken, followed by those that still wait, are the ones that waited
    before followed by those asked for since, in that order.  The caller of
    [iderw] returns after its request was served, and sleeps on if it is woken
    before. *)
Theorem ide_serves_in_order fuel es a a' s :
  (patience ≤ fuel)%nat → implements s a → run server_step es a a' →
  ∃ s' w, run (driver_step fuel) es s s' ∧ implements s' a' ∧
    i_woken s' = i_woken s ++ w ∧ w ++ a_queue a' = a_queue a ++ asked es ∧
    (∀ b, b ∈ a_queue a' → iderw_resume b s' = Sleep (ChBuf b) s') ∧
    ∀ b f x, a_buf a' b = finished f x → iderw_resume b s' = Ok tt s'.
Proof.
  intros Hf Hs Hrun. assert (Hgo : ∃ s', run (driver_step fuel) es s s' ∧ implements s' a').
  { revert s Hs. induction Hrun as [a|e es a a1 a2 Hstep _ IH]; intros s Hs; [exists s; split; [constructor|done]|].
    destruct (implements_step fuel e a a1 s Hf Hs Hstep) as (s1 & H1 & Hs1). destruct (IH s1 Hs1) as (s2 & H2 & Hs2).
    exists s2. split; [by econstructor|done]. }
  destruct Hgo as (s' & Hr & Hs'). destruct (server_fifo es a a' Hrun) as (w & Ew & Eq). exists s', w. split; [done|]. split; [done|].
  destruct Hs as (_ & _ & _ & _ & Hk). destruct Hs' as ([Hl Hc Hnd Hbufs Hjob] & Hd & Hb & Ht & Hk'). split; [congruence|]. split; [done|].
  assert (Hsame : put_idelock false (put_idelock true s') = s') by (destruct s' as [l ? ? ? ? ? ?]; cbn in Hl; by subst l).
  assert (Hres : ∀ b, iderw_resume b s' = if negb (Z.land (b_flags (i_buf s' b)) (Z.lor B_VALID B_DIRTY) =? B_VALID) then Sleep (ChBuf b) s' else Ok tt s').
  { intros b. unfold iderw_resume, iderw_wait, ide_acquire, acquire, mbind, M_bind. rewrite Hl. cbn [ide_buf gets i_buf put_idelock].
    destruct (negb _); unfold park, ide_release, release; cbn [idelock put_idelock]; by rewrite Hsame. }
  split.
  - intros b Hq. rewrite Hres. destruct (Hbufs b Hq) as (_ & _ & Hw & _). by rewrite Hw.
  - intros b f x Hx. by rewrite Hres, Hb, Hx, finished_flags.
Qed.
End server.

(** ** An error is not reported *)

Section errors.
Context {D : Type} {PD : Ports D}.

Lemma idewait_error n (d : D) r d' fuel :
  settles n d r d' → (n ≤ fuel)%nat → Z.land r (Z.lor IDE_DF IDE_ERR) ≠ 0 → idewait fuel true d = Ok (-1) d'.
Proof.
  intros H. revert fuel. induction H as [r d d' E Hr|n r0 d d1 r d' E Hr _ IH]; intros fuel Hf Herr; (destruct fuel as [|fuel]; [lia|]); cbn [idewait].
  - rewrite (bind_ok _ _ _ _ _ E), Hr. cbn. by rewrite (proj2 (Z.eqb_neq _ _) Herr).
  - rewrite (bind_ok _ _ _ _ _ E), (proj2 (Z.eqb_neq _ _) Hr). cbn [negb]. apply IH; [lia|done].
Qed.

(** When the disk reports an error for a read, the interrupt handler takes no data,
    but marks the buffer valid: its reader gets what the buffer held before. *)
Theorem ide_error_taken_for_data fuel n r d' b (s : ide D) :
  idelock s = false → idequeue s = Some b → qnext s b = None → has B_DIRTY (b_flags (i_buf s b)) = false →
  settles n (h_dev (i_hw s)) r d' → (n ≤ fuel)%nat → Z.land r (Z.lor IDE_DF IDE_ERR) ≠ 0 →
  wp (ideintr fuel) (λ _ s', i_buf s' b = clr_flags B_DIRTY (or_flags B_VALID (i_buf s b))) s.
Proof.
  intros Hl Hq Hn Hd Hs Hf Herr. unfold ideintr. apply wp_bind, wp_acquire; [done|]. apply wp_bind, wp_gets.
  cbn [idequeue put_idelock]. rewrite Hq. apply wp_bind, wp_gets. apply wp_bind, wp_modify. apply wp_bind, wp_gets.
  cbn [i_buf put_idequeue put_idelock qnext]. rewrite Hd, Hn. cbn [negb]. apply wp_bind, wp_bind.
  unfold device, dev. do 2 apply wp_zoom. cbn [i_hw put_idequeue put_idelock]. unfold wp at 1.
  rewrite (idewait_error n _ r d' fuel Hs Hf Herr). cbn [Z.geb Z.compare]. apply wp_ret.
  apply wp_bind, wp_modify. apply wp_bind, wp_modify. apply wp_bind, wp_modify. apply wp_bind, wp_gets.
  cbn [idequeue put_woken put_buf put_hw put_idequeue]. rewrite bool_decide_true by done. apply wp_bind, wp_ret, wp_release; [done|].
  cbn. by rewrite Nat.eqb_refl.
Qed.
End errors.

(** ** A disk *)

Record ata := mkAta { ata_regs : Z → Z; ata_sectors : Z → Z → block; ata_job : option job; ata_offer : option block }.

Definition ata_out (p v : Z) : M ata unit := modify (λ d,
  if p =? 0x1f7 then
    let u := unit_of (ata_regs d) in
    let n := lba (ata_regs d) in
    mkAta (ata_regs d) (ata_sectors d) (Some (if v =? IDE_CMD_READ then Rd u n else WrData u n)) (ata_offer d)
  else mkAta (λ q, if q =? p then v else ata_regs d q) (ata_sectors d) (ata_job d) (ata_offer d)).

Definition ata_complete (d : ata) : ata :=
  match ata_job d with
  | Some (Rd u n) => mkAta (ata_regs d) (ata_sectors d) None (Some (ata_sectors d u n))
  | Some (Wr u n bs) => mkAta (ata_regs d) (sector_upd (ata_sectors d) u n bs) None (ata_offer d)
  | _ => d
  end.

(** A status read of a busy disk is answered, and the disk gets on with its work. *)
#[export] Instance ata_ports : Ports ata := {|
  inb := λ _ d, match ata_job d with None => Ok IDE_DRDY d | Some _ => Ok IDE_BSY (ata_complete d) end;
  outb := ata_out;
  insl := λ _ _, gets (λ d, default [] (ata_offer d));
  outsl := λ _ bs, modify (λ d, mkAta (ata_regs d) (ata_sectors d)
    (match ata_job d with Some (WrData u n) => Some (Wr u n bs) | j => j end) (ata_offer d));
  readl := λ _, mret 0;
  writel := λ _ _, mret tt;
|}.

#[export] Instance ata_disk : IdeDisk ata.
Proof.
  refine {| regs := ata_regs; sectors := ata_sectors; working := ata_job; offered := ata_offer; complete := ata_complete; patience := 2 |}.
  - intros d Hw. exists 1%nat, IDE_DRDY, d. split_and!; [lia| |done..]. constructor; [|done]. cbn. by rewrite Hw.
  - intros p v d Hp Hw. assert (Hne : (p =? 0x1f7) = false).
    { apply Z.eqb_neq. intros ->. repeat (apply elem_of_cons in Hp as [Hp|Hp]; [discriminate Hp|]). by apply elem_of_nil in Hp. }
    eexists. split; [reflexivity|]. rewrite Hne. by split_and!.
  - intros d Hw _ _. eexists. split; [reflexivity|]. by split_and!.
  - intros d Hw _ _. eexists. split; [reflexivity|]. by split_and!.
  - intros u n bs d Hw _. eexists. split; [reflexivity|]. cbn. by rewrite Hw.
  - intros u n d Hw. unfold ata_complete. rewrite Hw. by split_and!.
  - intros u n bs d Hw. unfold ata_complete. rewrite Hw. by split_and!.
  - intros bs d Ho Hw. exists d. split; [|by split_and!]. cbn. unfold gets. by rewrite Ho.
Defined.

(** Two buffers: one is to be written to sector 5, the other wants sector 5. *)
Definition sevens : block := replicate BSIZE 7.
Definition two_bufs (b : nat) : buf :=
  if (b =? 0)%nat then mkBuf (Z.lor B_BUSY B_DIRTY) 0 5 0 0 sevens else mkBuf B_BUSY 0 5 0 0 zero_block.
Definition ide0 : ide ata :=
  mkIde false None false two_bufs (λ _, None)
    (mkHw (mkAta (λ _, 0) (λ _ _, zero_block) None None) [] 0 false 1 0 0 0xFFFB []) [].
Definition server0 : server := mkServer [] (λ _ _, zero_block) two_bufs false [].

Lemma two_bufs_ask b : asks (two_bufs b).
Proof.
  unfold two_bufs. destruct (b =? 0)%nat; (split; [reflexivity|]; split; [reflexivity|]; split; [|reflexivity]); cbn [b_sector]; lia.
Qed.

Definition server4 : server := serve 1 [] (serve 0 [1%nat] (enqueue 1 (enqueue 0 server0))).

Lemma server4_reached : run server_step [Ask 0; Ask 1; Irq; Irq] server0 server4.
Proof.
  eapply run_cons; [apply step_ask|].
  - by apply not_elem_of_nil.
  - vm_compute. lia.
  - apply (two_bufs_ask 0).
  - by left.
  - eapply run_cons; [apply step_ask|].
    + intros [=]%list_elem_of_singleton.
    + vm_compute. lia.
    + apply (two_bufs_ask 1).
    + by left.
    + eapply run_cons; [by apply step_irq|]. eapply run_cons; [by apply step_irq|]. apply run_nil.
Qed.

(** The second request finds what the first one wrote, and both are woken. *)
Lemma ide_serves_in_order_witness :
  ∃ s', run (driver_step 2) [Ask 0; Ask 1; Irq; Irq] ide0 s' ∧ b_bytes (i_buf s' 1) = sevens ∧
    i_woken s' = [0; 1]%nat ∧ iderw_resume 1 s' = Ok tt s'.
Proof.
  destruct (ide_serves_in_order (D:=ata) 2 [Ask 0; Ask 1; Irq; Irq] server0 server4 ide0) as (s' & w & Hr & Hs' & Hw & Hq & _ & Hres).
  - exact (le_n 2).
  - split_and!; try reflexivity. split; try reflexivity; [constructor|]. intros b Hb. by apply elem_of_nil in Hb.
  - exact server4_reached.
  - exists s'. split; [exact Hr|]. split; [|split].
    + destruct Hs' as (_ & _ & Hb & _). rewrite Hb. vm_compute. reflexivity.
    + rewrite Hw. cbn in Hq |- *. rewrite <- Hq. cbn. by rewrite app_nil_r.
    + eapply Hres. reflexivity.
Defined.
