(* ===== verification/Trap.v ===== *)
(** * Traps (trap.c)

    What the kernel does on a system call, an interrupt or an exception: the
    handler put together from the dispatcher (Syscall.v), the clock, the console
    and the keyboard (Console.v, Kbd.v) and the local APIC (Irq.v).  It is split
    where the process gives up the CPU.  The kernel is the one with the memory
    disk, whose interrupt handler does nothing.

    The theorems: a process that was killed does not return to user mode, and
    what a clock tick does. *)

From stdpp Require Import base numbers list strings.
From Stdlib Require Import ZArith Lia.
From S2P Require Import Prelude CString User Printf Console Kbd Mp Irq Spinlock Proc Syscall.

#[local] Open Scope Z_scope.

(** src/traps.h:27-27 *)
Definition T_SYSCALL : Z := 64.
(** src/mmu.h:79-79 *)
Definition DPL_USER : Z := 3.

(** src/mmu.h:100-101 *)
Definition STS_IG32 : Z := 0xE.
Definition STS_TG32 : Z := 0xF.

(** src/mmu.h:193-203 *)
Record gatedesc := mkGate {
  off_15_0 : Z;
  gd_cs : Z;
  gd_args : Z;
  gd_rsv1 : Z;
  gd_type : Z;
  gd_s : Z;
  gd_dpl : Z;
  gd_p : Z;
  off_31_16 : Z;
}.

(** src/mmu.h:213-224 *)
Definition SETGATE (istrap : bool) (sel off d : Z) : gatedesc :=
  mkGate (Z.land off 0xffff) sel 0 0 (if istrap then STS_TG32 else STS_IG32) 0 d 1 (Z.shiftr off 16).

(** The table [idt]; the kernel's code segment is number 1 -- src/trap.c:17-27 *)
Definition tvinit (vectors : list Z) : list gatedesc :=
  <[Z.to_nat T_SYSCALL := SETGATE true (Z.shiftl 1 3) (nth (Z.to_nat T_SYSCALL) vectors 0) DPL_USER]>
    (map (λ i, SETGATE false (Z.shiftl 1 3) (nth i vectors 0) 0) (seq 0 256)).

(** How [trap] ends: back to where the trap came from, gone by [exit], off the
    CPU, or in a system call that waits. *)
Inductive trapres :=
  | Back
  | Gone
  | Yielded (e : bool)
  | InCall (r : callres).

Section traps.
Context {R D : Type} {SV : Services (R * sysglob)} {FC : FileCalls (pst (R * sysglob))} {PD : Ports D}.
Abbreviation K := (pst (R * sysglob)).

(** The kernel, the keyboard driver's variable, and the devices. *)
Record machine := mkMachine { t_k : K; t_shift : Z; t_hw : hw D }.
Definition put_k v (s : machine) := mkMachine v (t_shift s) (t_hw s).
Definition put_shift v (s : machine) := mkMachine (t_k s) v (t_hw s).
Definition put_t_hw v (s : machine) := mkMachine (t_k s) (t_shift s) v.

Definition kernel {A} (m : M K A) : M machine A := zoom t_k put_k m.

(** [procdump] on the console; [mem] is the kernel's memory -- src/proc.c:538-555 *)
Definition print_procs (mem : Z → Z) (s : K) : M cstate unit :=
  for_each (procdump mem s) (λ line,
    let '(pid, st, nm, pcs) := line in
    cprintf (Some (str "%d %s %s")) [Word pid; Ptr (Some (str st)); Ptr (Some (until_nul nm))];;
    for_each pcs (λ pc, cprintf (Some (str " %p")) [Word pc]);;
    cprintf (Some [10]) []).

Definition put_console (v : cstate) (k : K) : K := put_res ((p_res k).1, set_console v (p_res k).2) k.

(** A handler of the console: the sleepers of [input.r] it wakes. *)
Definition console_irq (h : M (Z * cstate) unit) : M machine unit :=
  n0 ← gets (λ s, woken (console (globals (t_k s))));
  zoom (λ s, (t_shift s, console (globals (t_k s))))
       (λ v s, put_shift v.1 (put_k (put_console v.2 (t_k s)) s)) h;;
  n1 ← gets (λ s, woken (console (globals (t_k s))));
  for_each (seq 0 (n1 - n0)) (λ _, kernel (wakeup (Some ChInput))).

(** What the hardware has for the handler. *)
Record pending := mkPending {
  p_scancodes : list Z;
  p_serial : list Z;
  p_cr2 : Z;
  p_mem : Z → Z;
}.

(** The clock -- src/trap.c:52-55 *)
Definition tick : M machine unit :=
  kernel (
    tk_acquire;;
    glob (modify (λ g, set_ticks (w32 (ticks g + 1)) g));;
    wakeup (Some ChTicks);;
    tk_release).

Definition eoi : M machine unit := zoom t_hw put_t_hw lapiceoi.

(** The handlers of the interrupts and of exceptions -- src/trap.c:49-95 *)
Definition trap_switch (cpu_id : Z) (pd : pending) (t : trapframe) : M machine unit :=
  let no := tf_trapno t in
  if no =? T_IRQ0 + IRQ_TIMER then (if cpu_id =? 0 then tick else mret tt);; eoi
  else if no =? T_IRQ0 + IRQ_IDE then eoi
  else if no =? T_IRQ0 + IRQ_IDE + 1 then mret tt
  else if no =? T_IRQ0 + IRQ_KBD then
    k ← gets t_k;
    console_irq (kbdintr (print_procs (p_mem pd) k) (p_scancodes pd));; eoi
  else if no =? T_IRQ0 + IRQ_COM1 then
    k ← gets t_k;
    console_irq (zoom snd (λ v s, (s.1, v)) (uartintr (print_procs (p_mem pd) k) (p_serial pd)));; eoi
  else if (no =? T_IRQ0 + 7) || (no =? T_IRQ0 + IRQ_SPURIOUS) then
    kernel (printk (str "cpu%d: spurious interrupt at %x:%x" ++ [10]) [Word cpu_id; Word (tf_cs t); Word (tf_eip t)]);; eoi
  else
    o ← gets (λ s, curproc (t_k s));
    match o with
    | Some me =>
        if Z.land (tf_cs t) 3 =? 0 then
          kernel (printk (str "unexpected trap %d from cpu %d eip %x (cr2=0x%x)" ++ [10])
            [Word no; Word cpu_id; Word (tf_eip t); Word (p_cr2 pd)]);;
          panic "trap"
        else
          p ← gets (λ s, procs (t_k s) me);
          kernel (printk (str "pid %d %s: trap %d err %d on cpu %d eip 0x%x addr 0x%x--kill proc" ++ [10])
            [Word (pid p); Ptr (Some (until_nul (name p))); Word no; Word (tf_err t); Word cpu_id; Word (tf_eip t); Word (p_cr2 pd)]);;
          kernel (upd_proc me (set_killed true))
    | None =>
        kernel (printk (str "unexpected trap %d from cpu %d eip %x (cr2=0x%x)" ++ [10])
          [Word no; Word cpu_id; Word (tf_eip t); Word (p_cr2 pd)]);;
        panic "trap"
    end.

(** [if(proc && proc->killed && (tf->cs&3) == DPL_USER) exit()]. *)
Definition doomed (t : trapframe) (s : machine) : bool :=
  match curproc (t_k s) with
  | Some me => killed (procs (t_k s) me) && (Z.land (tf_cs t) 3 =? DPL_USER)
  | None => false
  end.

(** After [yield] -- src/trap.c:108-110 *)
Definition trap_resume (e : bool) (t : trapframe) : M machine trapres :=
  kernel (yield_exit e);;
  k ← gets (doomed t);
  if (k : bool) then kernel exit;; mret Gone else mret Back.

(** From the end of the [switch] on -- src/trap.c:97-111 *)
Definition trap_end (t : trapframe) : M machine trapres :=
  k ← gets (doomed t);
  if (k : bool) then kernel exit;; mret Gone else
  o ← gets (λ s, match curproc (t_k s) with Some me => Some (state (procs (t_k s) me)) | None => None end);
  if bool_decide (o = Some RUNNING) && (tf_trapno t =? T_IRQ0 + IRQ_TIMER)
  then e ← kernel yield_enter; mret (Yielded e) else
  k ← gets (doomed t);
  if (k : bool) then kernel exit;; mret Gone else mret Back.

(** The end of a system call, also of one that waited -- src/trap.c:44-46 *)
Definition trap_called : M machine trapres :=
  p ← kernel my;
  if killed p then kernel exit;; mret Gone else mret Back.

(** src/trap.c:36-111 *)
Definition trap (junk : nat → Z) (cpu_id : Z) (pd : pending) (t : trapframe) : M machine trapres :=
  if tf_trapno t =? T_SYSCALL then
    p ← kernel my;
    if killed p then kernel exit;; mret Gone else
    kernel (upd_my (set_tf t));;
    r ← kernel (syscall junk);
    match r with
    | Ret _ => trap_called
    | Exited => mret Gone
    | _ => mret (InCall r)
    end
  else trap_switch cpu_id pd t;; trap_end t.
End traps.

(** ** Killed processes *)

Section killed.
Context {R D : Type} {SV : Services (R * sysglob)} {FC : FileCalls (pst (R * sysglob))} {PD : Ports D}.
Abbreviation K := (pst (R * sysglob)).
Abbreviation T := (machine (R:=R) (D:=D)).

(** Who runs and who was killed is as before. *)
Definition same_fate (k k' : K) : Prop :=
  curproc k' = curproc k ∧ ∀ j, killed (procs k' j) = killed (procs k j).

Lemma same_fate_trans k k1 k2 : same_fate k k1 → same_fate k1 k2 → same_fate k k2.
Proof. intros [A B] [A' B']. split; [congruence|]. intros j. by rewrite B', B. Qed.

(** [m] kills nobody and does not change who runs. *)
Definition Steady {A} (m : M T A) : Prop := ∀ s, wlp m (λ _ s', same_fate (t_k s) (t_k s')) s.
Definition SteadyK {A} (m : M K A) : Prop := ∀ k, wlp m (λ _ k', same_fate k k') k.

Lemma steady_ret {A} (a : A) : Steady (mret a).
Proof. intros s. by apply wlp_ret. Qed.
Lemma steady_gets {A} (f : T → A) : Steady (gets f).
Proof. intros s. by apply wlp_gets. Qed.
Lemma steady_bind {A B} (m : M T A) (f : A → M T B) : Steady m → (∀ a, Steady (f a)) → Steady (m ≫= f).
Proof.
  intros Hm Hf s. apply wlp_bind. eapply wlp_mono; [apply Hm|]. cbn beta. intros a s1 H1.
  eapply wlp_mono; [apply Hf|]. cbn beta. intros b s2 H2. by eapply same_fate_trans.
Qed.
Lemma steady_kernel {A} (m : M K A) : SteadyK m → Steady (kernel m).
Proof. intros Hm s. unfold wlp, kernel, zoom. specialize (Hm (t_k s)). unfold wlp in Hm. by destruct (m (t_k s)). Qed.
Lemma steady_hw {A} (m : M (hw D) A) : Steady (zoom t_hw put_t_hw m).
Proof. intros s. by apply wlp_zoom. Qed.
Lemma steady_for_each {A} (l : list A) (f : A → M T unit) : (∀ a, Steady (f a)) → Steady (for_each l f).
Proof. intros Hf. induction l as [|a l IH]; cbn [for_each]; [apply steady_ret|]. by apply steady_bind. Qed.

Lemma steadyk_ret {A} (a : A) : SteadyK (mret a).
Proof. intros k. by apply wlp_ret. Qed.
Lemma steadyk_bind {A B} (m : M K A) (f : A → M K B) : SteadyK m → (∀ a, SteadyK (f a)) → SteadyK (m ≫= f).
Proof.
  intros Hm Hf k. apply wlp_bind. eapply wlp_mono; [apply Hm|]. cbn beta. intros a k1 H1.
  eapply wlp_mono; [apply Hf|]. cbn beta. intros b k2 H2. by eapply same_fate_trans.
Qed.
Lemma steadyk_gets {A} (f : K → A) : SteadyK (gets f).
Proof. intros k. by apply wlp_gets. Qed.
Lemma steadyk_glob {A} (m : M sysglob A) : SteadyK (glob m).
Proof. intros k. unfold wlp, glob, res, zoom. by destruct (m (p_res k).2). Qed.
Lemma steadyk_cpu {A} (m : M cpu A) : SteadyK (zoom p_cpu put_cpu m).
Proof. intros k. by apply wlp_zoom. Qed.
Lemma steadyk_acquire : SteadyK (acquire p_lock put_lock).
Proof. intros k. by apply wlp_acquire. Qed.
Lemma steadyk_release : SteadyK (release p_lock put_lock).
Proof. intros k. by apply wlp_release. Qed.
Lemma steadyk_upd i f : (∀ p, killed (f p) = killed p) → SteadyK (upd_proc i f).
Proof.
  intros Hf k. apply wlp_modify. split; [done|]. intros j. cbn [procs put_procs]. unfold upd.
  destruct (Nat.eqb_spec j i) as [->|]; [apply Hf|done].
Qed.
Lemma steadyk_for_each {A} (l : list A) (f : A → M K unit) : (∀ a, SteadyK (f a)) → SteadyK (for_each l f).
Proof. intros Hf. induction l as [|a l IH]; cbn [for_each]; [apply steadyk_ret|]. by apply steadyk_bind. Qed.
End killed.

Create HintDb steady.
#[export] Hint Resolve steady_ret steady_gets steady_hw : steady.
#[export] Hint Resolve steadyk_ret steadyk_gets steadyk_glob steadyk_cpu steadyk_acquire steadyk_release : steady.

(** Follow the code of a routine that kills nobody. *)
Ltac steady :=
  repeat lazymatch goal with
  | |- Steady (mbind _ _) => apply steady_bind; [|intros]
  | |- SteadyK (mbind _ _) => apply steadyk_bind; [|intros]
  | |- Steady (kernel _) => apply steady_kernel
  | |- Steady (for_each _ _) => apply steady_for_each; intros
  | |- SteadyK (for_each _ _) => apply steadyk_for_each; intros
  | |- SteadyK (upd_proc _ _) => by apply steadyk_upd
  | |- Steady (match ?x with _ => _ end) => destruct x
  | |- SteadyK (match ?x with _ => _ end) => destruct x
  | |- _ => solve [auto with steady]
  end.

Section unkilled.
Context {R D : Type} {SV : Services (R * sysglob)} {FC : FileCalls (pst (R * sysglob))} {PD : Ports D}.
Abbreviation K := (pst (R * sysglob)).
Abbreviation T := (machine (R:=R) (D:=D)).
Implicit Types (s : T).

Lemma wakeup_steady c : SteadyK (R:=R) (wakeup c).
Proof. unfold wakeup, pt_acquire, pt_release, wakeup1, the_proc. steady. Qed.
Lemma yield_exit_steady e : SteadyK (R:=R) (yield_exit e).
Proof. unfold yield_exit, pt_release. apply steadyk_bind; [|intros; steady]. intros k. by apply wlp_modify. Qed.
#[local] Hint Resolve wakeup_steady yield_exit_steady : steady.

Lemma tick_steady : Steady (R:=R) (D:=D) tick.
Proof. unfold tick, tk_acquire, tk_release. steady. Qed.
Lemma console_irq_steady h : Steady (R:=R) (D:=D) (console_irq h).
Proof. unfold console_irq. steady. intros s. by apply wlp_zoom. Qed.
Lemma eoi_steady : Steady (R:=R) (D:=D) eoi.
Proof. unfold eoi. steady. Qed.
#[local] Hint Resolve tick_steady console_irq_steady eoi_steady : steady.

(** The number is not that of a handled interrupt. *)
Definition exception (t : trapframe) : bool :=
  negb (existsb (Z.eqb (tf_trapno t))
    [T_SYSCALL; T_IRQ0 + IRQ_TIMER; T_IRQ0 + IRQ_IDE; T_IRQ0 + IRQ_IDE + 1; T_IRQ0 + IRQ_KBD; T_IRQ0 + IRQ_COM1; T_IRQ0 + 7; T_IRQ0 + IRQ_SPURIOUS]).

Definition user_mode (t : trapframe) : Prop := Z.land (tf_cs t) 3 = DPL_USER.

(** The running process, and whether it is killed. *)
Definition runs (me : nat) (b : bool) s : Prop := curproc (t_k s) = Some me ∧ killed (procs (t_k s) me) = b.

Lemma runs_same me b s s' : same_fate (t_k s) (t_k s') → runs me b s → runs me b s'.
Proof. intros [Hc Hk] [Hm <-]. split; [congruence|apply Hk]. Qed.

(** The handlers kill the process exactly for an exception. *)
Lemma trap_switch_fate me b cpu_id pd t s :
  user_mode t → tf_trapno t ≠ T_SYSCALL → runs me b s →
  wlp (trap_switch cpu_id pd t) (λ _ s', runs me (b || exception t) s') s.
Proof.
  intros Hu Hsys Hr. unfold trap_switch, exception. cbn [existsb]. rewrite (proj2 (Z.eqb_neq _ _) Hsys). cbn [orb]. cbv zeta.
  assert (Hst : ∀ (m : M T unit), Steady m → wlp m (λ _ s', runs me b s') s).
  { intros m Hm. eapply wlp_mono; [apply Hm|]. cbn beta. intros _ s' H. by eapply runs_same. }
  do 5 (destruct (tf_trapno t =? _); cbn [orb negb]; [rewrite orb_false_r; apply Hst; steady|]).
  rewrite orb_false_r. destruct (_ || _); cbn [negb]; [rewrite orb_false_r; apply Hst; unfold printk; steady|]. rewrite orb_true_r.
  apply wlp_bind, wlp_gets. rewrite (proj1 Hr). unfold user_mode in Hu. rewrite Hu. cbn [Z.eqb DPL_USER].
  apply wlp_bind, wlp_gets. apply wlp_bind. eapply wlp_mono; [apply steady_kernel; unfold printk; steady|]. cbn beta. intros _ s1 H1.
  unfold wlp, kernel, zoom, upd_proc, modify. split; [cbn; by rewrite (proj1 H1), (proj1 Hr)|].
  cbn. unfold upd. by rewrite Nat.eqb_refl.
Qed.

Lemma doomed_runs me b t s : user_mode t → runs me b s → doomed t s = b.
Proof. intros Hu [Hm Hk]. unfold doomed. rewrite Hm, Hk. unfold user_mode in Hu. by rewrite Hu, andb_true_r. Qed.

Lemma trap_end_fate me b t s :
  user_mode t → runs me b s → wlp (trap_end t) (λ r s', (r = Back → runs me false s') ∧ (b = true → r = Gone)) s.
Proof.
  intros Hu Hr. unfold trap_end. apply wlp_bind, wlp_gets. rewrite (doomed_runs me b) by done. destruct b.
  - apply wlp_bind. unfold wlp at 1. destruct (kernel exit s); try done.
  - apply wlp_bind, wlp_gets. destruct (_ && _).
    + apply wlp_bind. unfold wlp at 1. destruct (kernel yield_enter s); done.
    + apply wlp_bind, wlp_gets. rewrite (doomed_runs me false) by done. by apply wlp_ret.
Qed.

Lemma kernel_my me s : curproc (t_k s) = Some me → kernel my s = Ok (procs (t_k s) me) s.
Proof. intros Hm. unfold kernel, zoom. rewrite (my_run me) by done. by destruct s. Qed.

Lemma trap_called_fate s : wlp trap_called (λ r s', r = Back → ∃ me, runs me false s') s.
Proof.
  unfold trap_called. apply wlp_bind. destruct (curproc (t_k s)) as [me|] eqn:Hm.
  - unfold wlp at 1. rewrite (kernel_my me) by done. destruct (killed _) eqn:Hk.
    + apply wlp_bind. unfold wlp at 1. by destruct (kernel exit s).
    + apply wlp_ret. intros _. by exists me.
  - unfold wlp at 1, kernel, zoom, my, cur, mbind, M_bind, gets. by rewrite Hm.
Qed.

(** C21: A process that was killed does not get back to user mode: whenever the
    kernel returns from a trap to user mode, the running process is not killed,
    also after the process gave up the CPU in between; a trap of a process
    that was killed before, and an exception, end in [exit], before a system call
    is looked at. *)
Theorem killed_never_returns junk cpu_id pd t me b s :
  user_mode t → runs me b s →
  wlp (trap junk cpu_id pd t) (λ r s',
    (r = Back → ∃ me', runs me' false s') ∧ (b = true ∨ exception t = true → r = Gone)) s ∧
  ∀ e, wlp (trap_resume e t) (λ r s', (r = Back → runs me false s') ∧ (b = true → r = Gone)) s.
Proof.
  intros Hu Hr. split.
  - unfold trap. destruct (Z.eqb_spec (tf_trapno t) T_SYSCALL) as [Hs|Hs].
    + assert (Hex : exception t = false) by (unfold exception; rewrite Hs; done). rewrite Hex.
      apply wlp_bind. unfold wlp at 1. rewrite (kernel_my me) by apply Hr. rewrite (proj2 Hr). destruct b.
      * apply wlp_bind. unfold wlp at 1. destruct (kernel exit _); try done.
      * apply wlp_bind. unfold wlp at 1. destruct (kernel (upd_my _) _) as [[] s1| | | |]; try done.
        apply wlp_bind. unfold wlp at 1. destruct (kernel (syscall junk) s1) as [r s2| | | |]; try done.
        destruct r; try (apply wlp_ret; split; [done|naive_solver]).
        eapply wlp_mono; [apply trap_called_fate|]. cbn beta. naive_solver.
    + apply wlp_bind. eapply wlp_mono; [by apply trap_switch_fate|]. cbn beta. intros _ s1 H1.
      eapply wlp_mono; [by apply trap_end_fate|]. cbn beta. intros r s2 [HB HG]. split; [intros Hb; exists me; auto|].
      intros Hor. apply HG. destruct Hor as [->| ->]; [done|apply orb_true_r].
  - intros e. unfold trap_resume. apply wlp_bind. eapply wlp_mono; [apply steady_kernel; steady|]. cbn beta. intros _ s1 H1.
    apply (runs_same _ _ _ _ H1) in Hr. apply wlp_bind, wlp_gets. rewrite (doomed_runs me b) by done. destruct b.
    + apply wlp_bind. unfold wlp at 1. destruct (kernel exit s1); try done.
    + by apply wlp_ret.
Qed.
End unkilled.

(** ** The clock *)

Section clock.
Context {R D : Type} {SV : Services (R * sysglob)} {FC : FileCalls (pst (R * sysglob))} {PD : Ports D}.
Abbreviation K := (pst (R * sysglob)).
Abbreviation T := (machine (R:=R) (D:=D)).
Implicit Types (s : T) (k : K).

Definition sleeps_on (c : option chan) (p : proc) : bool :=
  bool_decide (state p = SLEEPING) && bool_decide (p_chan p = c).

(** The slots after [wakeup(c)]. *)
Definition woke (c : option chan) (f : nat → proc) (j : nat) : proc :=
  if bool_decide (j < NPROC)%nat && sleeps_on c (f j) then set_state RUNNABLE (f j) else f j.

Lemma wp_wakeup1 c (Q : unit → K → Prop) k :
  (∀ f, (∀ j, f j = woke c (procs k) j) → Q tt (put_procs f k)) → wp (wakeup1 c) Q k.
Proof.
  intros HQ. unfold wakeup1.
  apply (wp_for_each _ _ (λ l k', NoDup l ∧ (∀ j, j ∈ l → (j < NPROC)%nat) ∧
    ∃ f, k' = put_procs f k ∧ ∀ j, f j = if bool_decide (j ∈ l) then procs k j else woke c (procs k) j)).
  - split_and!; [apply NoDup_seq|by intros j ?%elem_of_seq; lia|]. exists (procs k). split; [by destruct k|].
    intros j. case_bool_decide as Hj; [done|]. unfold woke. rewrite bool_decide_false; [done|]. intros Hn. apply Hj, elem_of_seq. lia.
  - intros i l k' ([Hi Hnd]%NoDup_cons & Hl & f & -> & Hf). wp_run. unfold the_proc. apply wp_gets.
    assert (Hfi : f i = procs k i) by (rewrite Hf, bool_decide_true by (apply elem_of_cons; auto); done).
    assert (Hb : bool_decide (i < NPROC)%nat = true) by (apply bool_decide_true, Hl, elem_of_cons; auto).
    assert (Hw : woke c (procs k) i = if sleeps_on c (f i) then set_state RUNNABLE (f i) else f i) by (unfold woke; by rewrite Hb, Hfi).
    assert (Hrest : ∀ j, j ≠ i → f j = if bool_decide (j ∈ l) then procs k j else woke c (procs k) j).
    { intros j Hj. rewrite Hf. erewrite bool_decide_ext; [done|]. rewrite elem_of_cons. naive_solver. }
    assert (Hdone : ∀ g, g i = woke c (procs k) i → (∀ j, j ≠ i → g j = f j) →
      ∀ j, g j = if bool_decide (j ∈ l) then procs k j else woke c (procs k) j).
    { intros g Hg Hg' j. destruct (decide (j = i)) as [->|Hj]; [by rewrite bool_decide_false|]. rewrite Hg', Hrest by done. done. }
    cbn [procs put_procs]. fold (sleeps_on c (f i)). destruct (sleeps_on c (f i)).
    + apply wp_modify. split_and!; [done|intros; apply Hl, elem_of_cons; auto|]. eexists. split; [by destruct k|].
      apply Hdone; unfold upd; [by rewrite Nat.eqb_refl|]. intros j Hj. by rewrite (proj2 (Nat.eqb_neq _ _) Hj).
    + apply wp_ret. split_and!; [done|intros; apply Hl, elem_of_cons; auto|]. exists f. by split; [|apply Hdone].
  - intros k' (_ & _ & f & -> & Hf). apply HQ. intros j. by rewrite Hf, bool_decide_false by apply not_elem_of_nil.
Qed.

(** With interrupts off and no lock held, which is how the interrupt gate and
    user mode leave the CPU, locks nest as on paper. *)
Definition quiet_cpu (n : Z) (c : cpu) : Prop := ncli c = n ∧ iflag c = false ∧ (0 < n → intena c = false).

Lemma wp_pushcli n (Q : unit → K → Prop) k :
  0 ≤ n → quiet_cpu n (p_cpu k) → (∀ c, quiet_cpu (n + 1) c → Q tt (put_cpu c k)) → wp (zoom p_cpu put_cpu pushcli) Q k.
Proof.
  intros Hn (Hc & Hf & He) HQ. unfold wp, zoom. rewrite pushcli_run. apply HQ. split_and!; cbn; [lia|done|].
  intros _. destruct (Z.eqb_spec (ncli (p_cpu k)) 0); [done|]. apply He. lia.
Qed.

Lemma wp_popcli n (Q : unit → K → Prop) k :
  0 ≤ n → quiet_cpu (n + 1) (p_cpu k) → (∀ c, quiet_cpu n c → Q tt (put_cpu c k)) → wp (zoom p_cpu put_cpu popcli) Q k.
Proof.
  intros Hn (Hc & Hf & He) HQ. unfold wp, zoom. rewrite popcli_run by (unfold cpu_ok; auto with lia). apply HQ.
  rewrite (He ltac:(lia)), andb_false_r. split_and!; cbn; [lia|done..].
Qed.

Lemma wp_wakeup n c (Q : unit → K → Prop) k :
  0 ≤ n → quiet_cpu n (p_cpu k) → p_lock k = false →
  (∀ f cp, (∀ j, f j = woke c (procs k) j) → quiet_cpu n cp → Q tt (put_cpu cp (put_procs f k))) → wp (wakeup c) Q k.
Proof.
  intros Hn Hc Hl HQ. unfold wakeup, pt_acquire, pt_release. apply wp_bind, wp_bind. eapply wp_pushcli; [done..|]. intros c1 H1.
  apply wp_acquire; [done|]. apply wp_bind, wp_wakeup1. intros f Hf. apply wp_bind, wp_release; [done|].
  eapply wp_popcli; [done|exact H1|]. intros c2 H2. specialize (HQ f c2 Hf H2). destruct k; cbn in *. subst. done.
Qed.

(** A clock interrupt leaves: the clock, and the sleepers on it, on CPU 0. *)
Definition ticked (cpu_id : Z) (k k' : K) : Prop :=
  curproc k' = curproc k ∧ p_lock k' = p_lock k ∧ tickslock (globals k') = false ∧
  ticks (globals k') = (if cpu_id =? 0 then w32 (ticks (globals k) + 1) else ticks (globals k)) ∧
  ∀ j, procs k' j = if cpu_id =? 0 then woke (Some ChTicks) (procs k) j else procs k j.

Lemma wp_tick (Q : unit → T → Prop) s :
  quiet_cpu 0 (p_cpu (t_k s)) → p_lock (t_k s) = false → tickslock (globals (t_k s)) = false →
  (∀ k, quiet_cpu 0 (p_cpu k) → ticked 0 (t_k s) k → Q tt (put_k k s)) → wp tick Q s.
Proof.
  intros Hc Hl Ht HQ. unfold tick, kernel. apply wp_zoom. unfold tk_acquire, tk_release, glob.
  apply wp_bind, wp_bind. eapply wp_pushcli; [done..|]. intros c1 H1. apply wp_zoom, wp_zoom, wp_acquire; [done|].
  apply wp_bind, wp_zoom, wp_zoom, wp_modify. apply wp_bind. eapply wp_wakeup; [|exact H1|done|]; [done|]. intros f c2 Hf H2.
  apply wp_bind, wp_zoom, wp_zoom, wp_release; [done|]. eapply wp_popcli; [|exact H2|]; [done|]. intros c3 H3. apply HQ; [done|]. by split_and!.
Qed.

(** Accesses to the registers of the local APIC return. *)
Context (lapic_write : ∀ a v d, wp (writel (D:=D) a v) (λ _ _, True) d).
Context (lapic_read : ∀ a d, wp (readl (D:=D) a) (λ _ _, True) d).

Lemma wp_eoi (Q : unit → T → Prop) s : (∀ h, Q tt (put_t_hw h s)) → wp eoi Q s.
Proof using lapic_write lapic_read.
  intros HQ. unfold eoi. apply wp_zoom. unfold lapiceoi. apply wp_bind, wp_gets. destruct (negb _); [|apply wp_ret, HQ].
  unfold lapicw, lapicr, dev. apply wp_bind, wp_gets, wp_bind, wp_zoom. eapply wp_mono; [apply lapic_write|]. intros _ d1 _. cbn beta.
  apply wp_bind, wp_bind, wp_gets, wp_zoom. eapply wp_mono; [apply lapic_read|]. intros v d2 _. cbn beta. apply wp_ret, HQ.
Qed.

Lemma wp_yield_enter me (Q : bool → K → Prop) k :
  quiet_cpu 0 (p_cpu k) → p_lock k = false → curproc k = Some me →
  (∀ c, quiet_cpu 1 c → Q false (put_procs (upd (procs k) me (set_state RUNNABLE (procs k me))) (put_lock true (put_cpu c k)))) →
  wp yield_enter Q k.
Proof.
  intros Hc Hl Hm HQ. unfold yield_enter, pt_acquire. apply wp_bind, wp_bind. eapply wp_pushcli; [done..|]. intros c1 H1.
  apply wp_acquire; [done|]. unfold cur. apply wp_bind, wp_bind, wp_gets. cbn [curproc put_lock put_cpu]. rewrite Hm. apply wp_ret.
  apply wp_bind, wp_modify. specialize (HQ c1 H1). destruct H1 as (Hn & Hi & He). unfold sched_enter, cur. apply wp_bind, wp_bind, wp_gets.
  cbn [curproc put_lock put_cpu put_procs]. rewrite Hm. apply wp_ret. apply wp_bind, wp_gets. cbn [p_lock put_lock put_procs negb].
  apply wp_bind, wp_gets. cbn [p_cpu put_lock put_procs put_cpu]. rewrite Hn. cbn [Z.add Z.eqb Pos.add Pos.eqb negb].
  unfold the_proc. apply wp_bind, wp_gets. rewrite bool_decide_false by (cbn; unfold upd; by rewrite Nat.eqb_refl).
  rewrite Hi. apply wp_ret. rewrite (He ltac:(lia)). exact HQ.
Qed.

(** How a clock interrupt of [me] ends. *)
Definition preempted (cpu_id : Z) (me : nat) (k : K) (r : trapres) (k' : K) : Prop :=
  r = Yielded false ∧ p_lock k' = true ∧ curproc k' = Some me ∧
  ticks (globals k') = (if cpu_id =? 0 then w32 (ticks (globals k) + 1) else ticks (globals k)) ∧
  procs k' me = set_state RUNNABLE (procs k me) ∧
  ∀ j, j ≠ me → procs k' j = if cpu_id =? 0 then woke (Some ChTicks) (procs k) j else procs k j.

(** A clock interrupt while [me] runs. *)
Record clock_irq (t : trapframe) (me : nat) (k : K) : Prop := {
  irq_no : tf_trapno t = T_IRQ0 + IRQ_TIMER;
  irq_proc : curproc k = Some me;
  irq_running : state (procs k me) = RUNNING;
  irq_alive : killed (procs k me) = false;
  irq_cpu : quiet_cpu 0 (p_cpu k);
  irq_ptable : p_lock k = false;
  irq_ticks : tickslock (globals k) = false;
}.

Lemma wp_clock_end cpu_id t me k s :
  clock_irq t me k → quiet_cpu 0 (p_cpu (t_k s)) → ticked cpu_id k (t_k s) →
  wp eoi (λ _ s1, wp (trap_end t) (λ r s', preempted cpu_id me k r (t_k s')) s1) s.
Proof.
  intros [Hno Hm Hr Hk _ Hl _] Hc (Hm1 & Hl1 & _ & Ht1 & Hp1). apply wp_eoi. intros h. cbn beta.
  assert (Hp : procs (t_k s) me = procs k me).
  { rewrite Hp1. unfold woke, sleeps_on. rewrite Hr. by destruct (cpu_id =? 0), (bool_decide (me < NPROC)%nat). }
  unfold trap_end. apply wp_bind, wp_gets. unfold doomed. cbn [t_k put_t_hw]. rewrite Hm1, Hm, Hp, Hk. cbn [andb].
  apply wp_bind, wp_gets. cbn [t_k put_t_hw]. rewrite Hm1, Hm, Hp, Hr, Hno, bool_decide_true by done.
  change (T_IRQ0 + IRQ_TIMER =? T_IRQ0 + IRQ_TIMER) with true. cbn [andb].
  apply wp_bind. unfold kernel. apply wp_zoom. eapply (wp_yield_enter me); [done|cbn; congruence|cbn; congruence|].
  intros c2 _. apply wp_ret. split_and!; [done..|cbn; congruence|exact Ht1|cbn; unfold upd; by rewrite Nat.eqb_refl, Hp|].
  intros j Hj. cbn. unfold upd. rewrite (proj2 (Nat.eqb_neq _ _) Hj). apply Hp1.
Qed.

(** C22: A clock interrupt of a running process that was not killed ends with
    the process off the CPU, able to run, and the lock of the process table held
    for the scheduler.  On CPU 0 the clock advances by one, modulo 2^32, and of
    the other processes exactly those that sleep on the clock can run
    again; on the other CPUs nothing else happens. *)
Theorem clock_interrupt junk cpu_id pd t me s :
  clock_irq t me (t_k s) →
  wp (trap junk cpu_id pd t) (λ r s', preempted cpu_id me (t_k s) r (t_k s')) s.
Proof.
  intros Hi. unfold trap, trap_switch. rewrite (irq_no _ _ _ Hi). cbv zeta.
  change (T_IRQ0 + IRQ_TIMER =? T_SYSCALL) with false. change (T_IRQ0 + IRQ_TIMER =? T_IRQ0 + IRQ_TIMER) with true. cbv iota.
  apply wp_bind, wp_bind. destruct (cpu_id =? 0) eqn:Hcpu.
  - rewrite (proj1 (Z.eqb_eq _ _) Hcpu). eapply wp_tick; [apply Hi..|]. intros k Hc Ht. by apply wp_clock_end.
  - apply wp_ret. apply wp_clock_end; [done|apply Hi|]. unfold ticked. rewrite Hcpu. by split_and!; [..|apply Hi| |].
Qed.
End clock.

(** ** A process that runs while two others sleep *)

#[local] Existing Instance demo.
#[local] Existing Instance demo_files.

Definition demo_slot (j : nat) : proc :=
  set_pid (Z.of_nat j + 1) (match j with
  | 0%nat => set_state SLEEPING (set_p_chan (Some ChTicks) bss_proc)
  | 1%nat => set_parent (Some 0%nat) (set_state RUNNING bss_proc)
  | 2%nat => set_parent (Some 0%nat) (set_state SLEEPING (set_p_chan (Some ChInput) bss_proc))
  | _ => bss_proc
  end).

Definition demo_machine : machine (R:=unit) (D:=unit) :=
  mkMachine
    (mkPst false (mkCpu 0 false false) (Some 1%nat) demo_slot 4 (Some 0%nat) false
       (tt, mkGlob 0xFFFFFFFF false 1 (replicate 100 0) cons0))
    0 (mkHw tt [] 0 false 1 0 0xFEE00000 irqmask0 []).

(** Out of user mode, with trap number [no]. *)
Definition demo_trap (no : Z) : trapframe := mkTf 0 0 0 0 0 0 0 0 0 0 0 0 no 0 0x10 0x23 0x200 0x1000 0x2B.
Definition demo_pending : pending := mkPending [] [] 0 (λ _, 0).

Definition ended {S A} (o : outcome S A) : bool := match o with Ok _ _ => true | _ => false end.

Lemma wlp_ended {S A} (m : M S A) Q s : wlp m Q s → ended (m s) = true → wp m Q s.
Proof. unfold wlp, wp. by destruct (m s). Qed.

(** A page fault is the end of the process. *)
Lemma killed_never_returns_witness :
  wp (trap (λ _, 0) 0 demo_pending (demo_trap 14)) (λ r _, r = Gone) demo_machine.
Proof.
  assert (Hr : runs 1 false demo_machine) by (split; reflexivity).
  eapply wp_mono.
  - apply wlp_ended; [|vm_compute; reflexivity].
    exact (proj1 (killed_never_returns (λ _, 0) 0 demo_pending (demo_trap 14) 1 false demo_machine eq_refl Hr)).
  - cbn beta. intros r s' [_ H]. apply H. right. reflexivity.
Defined.

(** The clock wraps around; process 0, asleep on it, can run, process 2 cannot. *)
Lemma clock_interrupt_witness :
  wp (trap (λ _, 0) 0 demo_pending (demo_trap 32)) (λ r s', r = Yielded false ∧ ticks (globals (t_k s')) = 0 ∧
    map (λ j, state (procs (t_k s') j)) [0%nat; 1%nat; 2%nat] = [RUNNABLE; RUNNABLE; SLEEPING]) demo_machine.
Proof.
  eapply wp_mono; [apply (clock_interrupt (PD:=no_ports) (λ _ _ _, I) (λ _ _, I) (λ _, 0) 0 demo_pending (demo_trap 32) 1)|].
  - split; try reflexivity. split_and!; reflexivity.
  - cbn beta. intros r s' (-> & _ & _ & Ht & Hme & Hj). split; [reflexivity|]. split; [exact Ht|].
    cbn [map]. rewrite Hme, !Hj by done. reflexivity.
Defined.
