(* ===== verification/Boot.v ===== *)
(** * The boot loader (bootmain.c)

    The boot sector's C code: it reads the kernel, an ELF file that starts at
    sector 1 of the disk, with the disk's command registers and polling, and
    copies its segments to the physical addresses they ask for.  The device is
    behind the ports; [PollDisk] adds to the laws of Ide.v that a disk that is
    asked for its status gets done with a read.

    The theorem: if the segments do not get into each other's way, the kernel is in
    memory, its uninitialized data zeroed, when its entry point is called. *)

From stdpp Require Import base numbers list strings sets.
From Stdlib Require Import ZArith Lia.
From S2P Require Import Prelude Mp CString Blocks Ide Exec.

#[local] Open Scope Z_scope.

(** src/bootmain.c:13-13 *)
Definition SECTSIZE : Z := 512.

(** Memory and the disk. *)
Record bst (D : Type) := mkBst { bs_mem : mem; bs_dev : D }.
Arguments mkBst {D} _ _.
Arguments bs_mem {D} _.
Arguments bs_dev {D} _.

(** What [bootmain] uses of a program header, in its 32 bytes -- src/elf.h:25-34 *)
Record bootph := mkBootph { bp_off : Z; bp_paddr : Z; bp_filesz : Z; bp_memsz : Z }.
Definition get_bootph (bs : list Z) : bootph :=
  mkBootph (get_u32 4 bs) (get_u32 12 bs) (get_u32 16 bs) (get_u32 20 bs).

Section loader.
Context {D : Type} {PD : Ports D}.
Implicit Types (s : bst D).

Definition bdev {A} (m : M D A) : M (bst D) A := zoom bs_dev (λ d s, mkBst (bs_mem s) d) m.
Definition bmem (f : mem → mem) : M (bst D) unit := modify (λ s, mkBst (f (bs_mem s)) (bs_dev s)).

(** The loop polls at most [fuel] times -- src/bootmain.c:50-56 *)
Fixpoint waitdisk (fuel : nat) : M D unit :=
  match fuel with
  | O => nofuel
  | Datatypes.S fuel =>
      r ← inb 0x1F7;
      if negb (Z.land r 0xC0 =? 0x40) then waitdisk fuel else mret tt
  end.

(** Bytes from the data port to memory. *)
Fixpoint put_bytes (m : mem) (a : Z) (bs : list Z) : mem :=
  match bs with
  | [] => m
  | b :: bs => put_bytes (upd m a b) (w32 (a + 1)) bs
  end.

(** src/bootmain.c:58-74 *)
Definition readsect (fuel : nat) (dst offset : Z) : M (bst D) unit :=
  bdev (waitdisk fuel);;
  bdev (outb 0x1F2 1);;
  bdev (outb 0x1F3 (w8 offset));;
  bdev (outb 0x1F4 (w8 (Z.shiftr offset 8)));;
  bdev (outb 0x1F5 (w8 (Z.shiftr offset 16)));;
  bdev (outb 0x1F6 (w8 (Z.lor (Z.shiftr offset 24) 0xE0)));;
  bdev (outb 0x1F7 0x20);;
  bdev (waitdisk fuel);;
  bs ← bdev (insl 0x1F0 (Z.to_nat (SECTSIZE / 4)));
  bmem (λ m, put_bytes m dst bs).

(** [for(; pa < epa; pa += SECTSIZE, offset++)], at most [n] times
    -- src/bootmain.c:91-95 *)
Fixpoint readseg_loop (fuel n : nat) (pa epa offset : Z) : M (bst D) unit :=
  if negb (pa <? epa) then mret tt else
  match n with
  | O => nofuel
  | Datatypes.S n =>
      readsect fuel pa offset;;
      readseg_loop fuel n (w32 (pa + SECTSIZE)) epa (w32 (offset + 1))
  end.

(** src/bootmain.c:76-96 *)
Definition readseg (fuel : nat) (pa count offset : Z) : M (bst D) unit :=
  let epa := w32 (pa + count) in
  let pa := w32 (pa - offset `mod` SECTSIZE) in
  let offset := offset / SECTSIZE + 1 in
  readseg_loop fuel (Z.to_nat ((epa - pa + SECTSIZE - 1) / SECTSIZE)) pa epa offset.

(** [for(; ph < eph; ph++)], at most [n] times -- src/bootmain.c:37-42 *)
Fixpoint load_loop (fuel n : nat) (ph eph : Z) : M (bst D) unit :=
  if negb (ph <? eph) then mret tt else
  match n with
  | O => nofuel
  | Datatypes.S n =>
      m ← gets bs_mem;
      let p := get_bootph (bytes_at m ph 32) in
      let pa := bp_paddr p in
      readseg fuel pa (bp_filesz p) (bp_off p);;
      m ← gets bs_mem;
      let p := get_bootph (bytes_at m ph 32) in
      (if bp_memsz p >? bp_filesz p
       then bmem (λ m, stosb m (w32 (pa + bp_filesz p)) 0 (Z.to_nat (bp_memsz p - bp_filesz p)))
       else mret tt);;
      load_loop fuel n (w32 (ph + 32)) eph
  end.

(** The entry point that is called, or [None] if it returns -- src/bootmain.c:17-48 *)
Definition bootmain (fuel : nat) : M (bst D) (option Z) :=
  let elf := 0x10000 in
  readseg fuel elf 4096 0;;
  m ← gets bs_mem;
  let h := get_elf (bytes_at m elf 52) in
  if negb (e_magic h =? ELF_MAGIC) then mret None else
  let ph := w32 (elf + e_phoff h) in
  load_loop fuel (Z.to_nat (e_phnum h)) ph (w32 (ph + 32 * e_phnum h));;
  m ← gets bs_mem;
  mret (Some (e_entry (get_elf (bytes_at m elf 52)))).
End loader.

(** ** One sector *)

(** A disk that, asked for its status, gets done with a read. *)
Class PollDisk (D : Type) `{IdeDisk D} := {
  ata_poll_read u n d : working d = Some (Rd u n) → ∃ k r d', (k ≤ patience)%nat ∧ settles k d r d' ∧
    regs d' = regs d ∧ sectors d' = sectors d ∧ working d' = None ∧ offered d' = Some (sectors d u n);
  ata_read_reg d d' : outb 0x1f7 IDE_CMD_READ d = Ok tt d' → regs d' 0x3f6 = regs d 0x3f6;
  ata_take_reg bs d d' : insl 0x1f0 128 d = Ok bs d' → regs d' 0x3f6 = regs d 0x3f6;
}.

Lemma put_bytes_spec bs : ∀ m a x, 0 ≤ a → a + Z.of_nat (length bs) < 2^32 →
  put_bytes m a bs x = if decide (a ≤ x < a + Z.of_nat (length bs)) then nth (Z.to_nat (x - a)) bs 0 else m x.
Proof.
  induction bs as [|b bs IH]; intros m a x Ha Hl; cbn [put_bytes length] in *; [by rewrite decide_False by lia|].
  rewrite w32_small, IH by lia. unfold upd. destruct (Z.eqb_spec x a) as [->|Hne].
  - rewrite decide_False, decide_True by lia. by rewrite Z.sub_diag.
  - repeat case_decide; try lia; try done. replace (Z.to_nat (x - a)) with (Datatypes.S (Z.to_nat (x - (a + 1)))) by lia. done.
Qed.

Section reading.
Context {D : Type} {PD : Ports D} {ID : IdeDisk D} {PL : PollDisk D}.
Implicit Types (d : D).

(** The disk is idle, as the firmware leaves it. *)
Definition idle_disk d : Prop := working d = None ∧ regs d 0x3f6 = 0.

Lemma waitdisk_settles n d r d' k : settles n d r d' → (n ≤ k)%nat → waitdisk k d = Ok tt d'.
Proof.
  intros H. revert k. induction H as [r d d' E Hr|n r0 d d1 r d' E Hr _ IH]; intros k Hk; (destruct k as [|k]; [lia|]); cbn [waitdisk].
  - rewrite (bind_ok _ _ _ _ _ E). change 0xC0 with (Z.lor IDE_BSY IDE_DRDY). change 0x40 with IDE_DRDY. by rewrite Hr.
  - rewrite (bind_ok _ _ _ _ _ E). change 0xC0 with (Z.lor IDE_BSY IDE_DRDY). change 0x40 with IDE_DRDY.
    rewrite (proj2 (Z.eqb_neq _ _) Hr). cbn [negb]. apply IH. lia.
Qed.

Lemma wp_bdev {A} (m : M D A) a d' (s : bst D) (Q : A → bst D → Prop) :
  m (bs_dev s) = Ok a d' → Q a (mkBst (bs_mem s) d') → wp (bdev m) Q s.
Proof. unfold wp, bdev, zoom. by intros ->. Qed.

Lemma wp_breg p v (s : bst D) (Q : unit → bst D → Prop) :
  p ∈ [0x3f6; 0x1f2; 0x1f3; 0x1f4; 0x1f5; 0x1f6] → working (bs_dev s) = None →
  (∀ d', (∀ q, regs d' q = if q =? p then v else regs (bs_dev s) q) → sectors d' = sectors (bs_dev s) → working d' = None →
     Q tt (mkBst (bs_mem s) d')) →
  wp (bdev (outb p v)) Q s.
Proof.
  intros Hp Hw HQ. destruct (ata_reg p v (bs_dev s) Hp Hw) as (d' & E & H1 & H2 & H3). eapply wp_bdev; [exact E|]. by apply HQ.
Qed.

(** The register of drive and high bits. *)
Lemma boot_drive hi : 0 ≤ hi < 16 → w8 (Z.lor hi 0xE0) `mod` 16 = hi ∧ (w8 (Z.lor hi 0xE0) / 16) `mod` 2 = 0.
Proof.
  intros Hh. assert (H : Forall (λ hi, w8 (Z.lor hi 0xE0) `mod` 16 = hi ∧ (w8 (Z.lor hi 0xE0) / 16) `mod` 2 = 0) (seqZ 0 16)) by (vm_compute; repeat constructor).
  rewrite Forall_forall in H. apply H, elem_of_seqZ. lia.
Qed.

Context (fuel : nat) (Hfuel : (patience ≤ fuel)%nat).

Lemma readsect_run dst offset (s : bst D) (Q : unit → bst D → Prop) :
  idle_disk (bs_dev s) → 0 ≤ offset < 2^28 →
  (∀ d', idle_disk d' → sectors d' = sectors (bs_dev s) →
     Q tt (mkBst (put_bytes (bs_mem s) dst (sectors (bs_dev s) 0 offset)) d')) →
  wp (readsect fuel dst offset) Q s.
Proof.
  intros [Hw H3] Hn HQ. unfold readsect. destruct (ata_poll (bs_dev s) Hw) as (k & r & d0 & Hk & Hs & _ & R0 & S0 & W0 & _).
  apply wp_bind. eapply wp_bdev; [eapply waitdisk_settles; [exact Hs|lia]|].
  assert (Hp : w8 offset + 2^8 * w8 (Z.shiftr offset 8) + 2^16 * w8 (Z.shiftr offset 16) + 2^24 * Z.shiftr offset 24 = offset ∧ 0 ≤ Z.shiftr offset 24 < 16).
  { destruct (sector_parts offset Hn) as [E Hr]. revert E Hr. change 0xff with (Z.ones 8). change 0x0f with (Z.ones 4).
    rewrite !low_bits by lia. assert (F : Z.shiftr offset 24 `mod` 2^4 = Z.shiftr offset 24).
    { rewrite Z.shiftr_div_pow2 by lia. apply Z.mod_small. split; [apply Z.div_pos; lia|apply Z.div_lt_upper_bound; lia]. }
    rewrite F. by split. }
  destruct Hp as [Hparts Hhi]. destruct (boot_drive _ Hhi) as [Dlo Dhi].
  do 5 (apply wp_bind, wp_breg; [set_solver|done|]; cbn [bs_mem bs_dev]; intros ? ? ? ?).
  match goal with H : working ?d = None |- wp _ _ (mkBst _ ?d) => rename d into d6, H into W6 end.
  assert (Hr : regs d6 0x3f6 = 0 ∧ regs d6 0x1f2 = 1 ∧ lba (regs d6) = offset ∧ unit_of (regs d6) = 0 ∧ sectors d6 = sectors (bs_dev s)).
  { unfold lba, unit_of. repeat match goal with H : ∀ q, regs ?d q = _ |- _ => rewrite !H; clear H end. cbn [Z.eqb Pos.eqb]. rewrite R0.
    split_and!; [done|done|by rewrite Dlo|done|congruence]. }
  destruct Hr as (R1 & R2 & R3 & R4 & R5). destruct (ata_read d6 W6 R1 R2) as (d7 & E7 & S7 & W7). pose proof (ata_read_reg _ _ E7) as G7.
  apply wp_bind. eapply wp_bdev; [exact E7|]. cbn [bs_mem]. rewrite R3, R4 in W7.
  destruct (ata_poll_read _ _ _ W7) as (k8 & r8 & d8 & Hk8 & Hs8 & G8 & S8 & W8 & O8).
  apply wp_bind. eapply wp_bdev; [eapply waitdisk_settles; [exact Hs8|lia]|]. cbn [bs_mem].
  destruct (ata_take _ _ O8 W8) as (d9 & E9 & S9 & W9). pose proof (ata_take_reg _ _ _ E9) as G9.
  apply wp_bind. eapply wp_bdev; [exact E9|]. cbn [bs_mem]. apply wp_modify. cbn [bs_mem bs_dev].
  replace (sectors d7 0 offset) with (sectors (bs_dev s) 0 offset) by congruence. apply HQ; [split; congruence|congruence].
Qed.

(** ** Segments *)

Context (S0 : Z → Z → block) (Hblk : ∀ n, is_block (S0 0 n)).

(** Byte [o] of the kernel's file, which starts at sector 1. *)
Definition img (o : Z) : Z := nth (Z.to_nat (o `mod` 512)) (S0 0 (o / 512 + 1)) 0.

Definition on_disk (s : bst D) : Prop := idle_disk (bs_dev s) ∧ sectors (bs_dev s) = S0.

Lemma readseg_loop_run n : ∀ pa epa k (s : bst D) (Q : unit → bst D → Prop),
  on_disk s → 0 ≤ pa → epa ≤ pa + 512 * Z.of_nat n → epa + 512 < 2^32 → 0 ≤ k → k + Z.of_nat n + 1 < 2^28 →
  (∀ s', on_disk s' → (∀ x, pa ≤ x < epa → bs_mem s' x = img (512 * k + (x - pa))) →
     (∀ x, x < pa ∨ epa + 511 ≤ x → bs_mem s' x = bs_mem s x) → Q tt s') →
  wp (readseg_loop fuel n pa epa (k + 1)) Q s.
Proof.
  induction n as [|n IH]; intros pa epa k s Q Hd Hpa Hepa Hmax Hk Hkn HQ; cbn [readseg_loop].
  { rewrite (proj2 (Z.ltb_ge _ _)) by lia. apply wp_ret, HQ; [done|intros; lia|done]. }
  destruct (Z.ltb_spec pa epa) as [Hlt|Hge]; cbn [negb]; [|apply wp_ret, HQ; [done|intros; lia|done]].
  destruct Hd as [Hidle Hsec]. apply wp_bind, readsect_run; [done|lia|]. intros d' Hi' Hs'. rewrite Hsec.
  unfold SECTSIZE. rewrite !w32_small by lia. pose proof (Hblk (k + 1)) as Hb. unfold is_block in Hb. change BSIZE with 512%nat in Hb.
  apply IH; [split; [done|cbn; congruence]|lia|lia|lia|lia|lia|]. cbn [bs_mem]. intros s2 Hd2 Hin Hout. apply HQ; [done| |].
  - intros x Hx. destruct (decide (x < pa + 512)) as [Hx1|Hx1]; [|rewrite Hin by lia; f_equal; lia].
    rewrite Hout by lia. rewrite put_bytes_spec, decide_True by (rewrite ?Hb; lia). unfold img.
    replace ((512 * k + (x - pa)) / 512) with k by (apply (Z.div_unique _ _ _ (x - pa)); lia).
    replace ((512 * k + (x - pa)) `mod` 512) with (x - pa) by (apply (Z.mod_unique _ _ k); lia). done.
  - intros x Hx. rewrite Hout by lia. rewrite put_bytes_spec, decide_False by (rewrite ?Hb; lia). done.
Qed.

Lemma readseg_run pa count off (s : bst D) (Q : unit → bst D → Prop) :
  on_disk s → 0 ≤ off → 0 ≤ count → 0 ≤ pa - off `mod` 512 → pa + count + 512 < 2^32 → off + count < 2^36 →
  (∀ s', on_disk s' → (∀ k, 0 ≤ k < count → bs_mem s' (pa + k) = img (off + k)) →
     (∀ x, x < pa - off `mod` 512 ∨ pa + count + 511 ≤ x → bs_mem s' x = bs_mem s x) → Q tt s') →
  wp (readseg fuel pa count off) Q s.
Proof.
  intros Hd Hoff Hc Hpa Hmax Hend HQ. pose proof (Z.div_mod off 512 ltac:(lia)) as Hdm. pose proof (Z.mod_pos_bound off 512 ltac:(lia)) as Hmb.
  unfold readseg, SECTSIZE. rewrite !w32_small by lia. set (pa0 := pa - off `mod` 512) in *.
  pose proof (Z.div_mod (pa + count - pa0 + 512 - 1) 512 ltac:(lia)) as Hq. pose proof (Z.mod_pos_bound (pa + count - pa0 + 512 - 1) 512 ltac:(lia)).
  set (q := (pa + count - pa0 + 512 - 1) / 512) in *. assert (0 ≤ q) by (apply Z.div_pos; lia).
  apply readseg_loop_run; [done|lia|lia|lia|lia|lia|]. intros s' Hd' Hin Hout. apply HQ; [done| |done].
  intros k Hk. rewrite Hin by lia. f_equal. lia.
Qed.

(** ** The kernel *)

Definition img_bytes (o : Z) (n : nat) : list Z := map (λ k, img (o + Z.of_nat k)) (seq 0 n).

Lemma bytes_at_img n : ∀ m a o, (∀ k, 0 ≤ k < Z.of_nat n → m (a + k) = img (o + k)) → bytes_at m a n = img_bytes o n.
Proof.
  induction n as [|n IH]; intros m a o Hm; [done|]. cbn [bytes_at]. unfold img_bytes. cbn [seq map]. f_equal.
  - rewrite <- (Z.add_0_r a). exact (Hm 0 ltac:(lia)).
  - rewrite (IH m (a + 1) (o + 1)).
    + unfold img_bytes. rewrite <- seq_shift, map_map. apply map_ext. intros k. f_equal. lia.
    + intros k Hk. rewrite <- Z.add_assoc, (Hm (1 + k)) by lia. f_equal. lia.
Qed.

(** The header of the file, and its program headers. *)
Definition kernel_elf : elfhdr := get_elf (img_bytes 0 52).
Definition kernel_ph (i : nat) : bootph := get_bootph (img_bytes (e_phoff kernel_elf + 32 * Z.of_nat i) 32).
Definition kernel_phs : list bootph := map kernel_ph (seq 0 (Z.to_nat (e_phnum kernel_elf))).

(** The addresses that loading a segment may store to. *)
Definition span_lo (p : bootph) : Z := bp_paddr p - bp_off p `mod` 512.
Definition span_hi (p : bootph) : Z := bp_paddr p + Z.max (bp_filesz p) (bp_memsz p) + 512.

Definition seg_ok (p : bootph) : Prop :=
  0 ≤ bp_off p ∧ 0 ≤ bp_filesz p ≤ bp_memsz p ∧ 0 ≤ span_lo p ∧ span_hi p < 2^32 ∧ bp_off p + bp_filesz p < 2^36 ∧
  (span_hi p ≤ 0x10000 ∨ 0x11000 ≤ span_lo p).

(** The later segment's sectors do not hit the earlier one. *)
Definition apart (p q : bootph) : Prop := span_hi q ≤ bp_paddr p ∨ bp_paddr p + bp_memsz p ≤ span_lo q.

Definition loaded (m : mem) (p : bootph) : Prop :=
  (∀ k, 0 ≤ k < bp_filesz p → m (bp_paddr p + k) = img (bp_off p + k)) ∧
  (∀ k, bp_filesz p ≤ k < bp_memsz p → m (bp_paddr p + k) = 0).

(** The page at 0x10000 holds the start of the file. *)
Definition header_there (m : mem) : Prop := ∀ o, 0 ≤ o < 4096 → m (0x10000 + o) = img o.

Lemma header_bytes m a o n : header_there m → a = 0x10000 + o → 0 ≤ o → o + Z.of_nat n ≤ 4096 → bytes_at m a n = img_bytes o n.
Proof. intros Hh -> Ho Hn. apply bytes_at_img. intros k Hk. rewrite <- Z.add_assoc. apply Hh. lia. Qed.

Definition outside_spans (ps : list bootph) (x : Z) : Prop := Forall (λ p, x < span_lo p ∨ span_hi p ≤ x) ps.

(** One segment. *)
Lemma load_one p a (k : M (bst D) unit) (s : bst D) (Q : unit → bst D → Prop) :
  let ph := 0x10000 + a in
  on_disk s → header_there (bs_mem s) → 0 ≤ a → a + 32 ≤ 4096 → p = get_bootph (img_bytes a 32) → seg_ok p →
  (∀ s', on_disk s' → header_there (bs_mem s') → loaded (bs_mem s') p →
     (∀ x, x < span_lo p ∨ span_hi p ≤ x → bs_mem s' x = bs_mem s x) → wp k Q s') →
  wp (m ← gets bs_mem;
      let p := get_bootph (bytes_at m ph 32) in
      let pa := bp_paddr p in
      readseg fuel pa (bp_filesz p) (bp_off p);;
      m ← gets bs_mem;
      let p := get_bootph (bytes_at m ph 32) in
      (if bp_memsz p >? bp_filesz p
       then bmem (λ m, stosb m (w32 (pa + bp_filesz p)) 0 (Z.to_nat (bp_memsz p - bp_filesz p)))
       else mret tt);; k) Q s.
Proof.
  intros ph Hd Hh Ha Ha2 Ep (Ho & Hf & Hlo & Hhi & Hend & Hsep) HQ. unfold ph. apply wp_bind, wp_gets. pose proof (Z.mod_pos_bound (bp_off p) 512 ltac:(lia)).
  rewrite (header_bytes _ _ a 32 Hh eq_refl Ha ltac:(lia)), <- Ep. cbv zeta. unfold span_lo, span_hi in *.
  apply wp_bind, readseg_run; [done|lia|lia|lia|lia|lia|]. intros s1 Hd1 Hin Hout.
  assert (Hh1 : header_there (bs_mem s1)) by (intros o Hoo; rewrite Hout by lia; by apply Hh).
  apply wp_bind, wp_gets. rewrite (header_bytes _ _ a 32 Hh1 eq_refl Ha ltac:(lia)), <- Ep.
  apply wp_bind. rewrite Z.gtb_ltb. destruct (Z.ltb_spec (bp_filesz p) (bp_memsz p)) as [Hlt|Hge].
  - apply wp_modify. rewrite w32_small by lia. set (m2 := stosb _ _ _ _).
    assert (Hm2 : ∀ x, m2 x = if decide (bp_paddr p + bp_filesz p ≤ x < bp_paddr p + bp_memsz p) then 0 else bs_mem s1 x).
    { intros x. unfold m2. rewrite stosb_spec by lia. rewrite Z2Nat.id by lia. repeat case_decide; (lia || done). }
    apply HQ; cbn [bs_mem]; [exact Hd1| |split|].
    + intros o Hoo. rewrite Hm2, decide_False by lia. by apply Hh1.
    + intros o Hk. rewrite Hm2, decide_False by lia. by apply Hin.
    + intros o Hk. by rewrite Hm2, decide_True by lia.
    + intros x Hx. rewrite Hm2, decide_False by lia. apply Hout. lia.
  - apply wp_ret, HQ; [done|done|split; [done|intros; lia]|]. intros x Hx. apply Hout. lia.
Qed.

Lemma load_loop_run ps : ∀ a (s : bst D) (Q : unit → bst D → Prop),
  on_disk s → header_there (bs_mem s) → 0 ≤ a → a + 32 * Z.of_nat (length ps) ≤ 4096 →
  (∀ i p, ps !! i = Some p → p = get_bootph (img_bytes (a + 32 * Z.of_nat i) 32)) → Forall seg_ok ps → ForallOrdPairs apart ps →
  (∀ s', on_disk s' → header_there (bs_mem s') → Forall (loaded (bs_mem s')) ps →
     (∀ x, outside_spans ps x → bs_mem s' x = bs_mem s x) → Q tt s') →
  wp (load_loop fuel (length ps) (0x10000 + a) (0x10000 + a + 32 * Z.of_nat (length ps))) Q s.
Proof.
  induction ps as [|p ps IH]; intros a s Q Hd Hh Ha Hn Hps Hok Hap HQ; cbn [load_loop length] in *.
  { rewrite Z.mul_0_r, Z.add_0_r, (proj2 (Z.ltb_ge _ _)) by lia. apply wp_ret, HQ; [done|done|constructor|done]. }
  rewrite (proj2 (Z.ltb_lt _ _)) by lia. cbn [negb]. apply Forall_cons in Hok as [Hp Hok]. inversion Hap as [|? ? Hpq Hap']; subst.
  assert (Ep : p = get_bootph (img_bytes a 32)) by (rewrite (Hps 0%nat p eq_refl); do 2 f_equal; lia).
  eapply (load_one p a); [done|done|lia|lia|done|done|]. intros s1 Hd1 Hh1 Hl1 Ho1. rewrite w32_small by lia.
  replace (0x10000 + a + 32) with (0x10000 + (a + 32)) by lia.
  replace (0x10000 + a + 32 * Z.of_nat (Datatypes.S (length ps))) with (0x10000 + (a + 32) + 32 * Z.of_nat (length ps)) by lia.
  apply IH; [done|done|lia|lia| |done|done|].
  - intros i q Hq. rewrite (Hps (Datatypes.S i) q Hq). do 2 f_equal. lia.
  - intros s2 Hd2 Hh2 Hl2 Ho2. destruct Hp as (_ & Hf & _). apply HQ; [done|done| |].
    + constructor; [|done]. assert (Hsame : ∀ x, bp_paddr p ≤ x < bp_paddr p + bp_memsz p → bs_mem s2 x = bs_mem s1 x).
      { intros x Hx. apply Ho2. eapply Forall_impl; [exact Hpq|]. intros q [?|?]; lia. }
      destruct Hl1 as [L1 L2]. split; intros k Hk; rewrite Hsame by lia; auto.
    + intros x [Hx1 Hx2]%Forall_cons. rewrite Ho2, Ho1 by done. done.
Qed.

(** C29: If the kernel's file is on the disk from sector 1 on, its headers lie in
    its first page, and no segment, rounded to sectors, is loaded over the headers
    or over an earlier segment, then the boot loader calls the kernel's entry
    point with each segment at its physical address, the rest of its memory
    zeroed, and nothing else of the memory changed besides the scratch area at
    0x10000 (a page and less than a sector); without the magic number it returns. *)
Theorem bootmain_loads s :
  on_disk s → Forall seg_ok kernel_phs → ForallOrdPairs apart kernel_phs →
  0 ≤ e_phoff kernel_elf → 0 ≤ e_phnum kernel_elf → e_phoff kernel_elf + 32 * e_phnum kernel_elf ≤ 4096 →
  wp (bootmain fuel) (λ r s',
    if e_magic kernel_elf =? ELF_MAGIC then
      r = Some (e_entry kernel_elf) ∧ Forall (loaded (bs_mem s')) kernel_phs ∧
      ∀ x, x < 0x10000 ∨ 0x111FF ≤ x → outside_spans kernel_phs x → bs_mem s' x = bs_mem s x
    else r = None) s.
Proof.
  intros Hd Hok Hap Hpo Hpn Hfit. unfold bootmain. apply wp_bind, readseg_run; [done|lia|lia|done|lia|lia|].
  intros s1 Hd1 Hin Hout. change (0 `mod` 512) with 0 in Hout.
  assert (Hh1 : header_there (bs_mem s1)) by (intros o Ho; by apply (Hin o)).
  apply wp_bind, wp_gets. rewrite (header_bytes _ _ 0 52 Hh1) by lia. fold kernel_elf. cbv zeta.
  destruct (e_magic kernel_elf =? ELF_MAGIC); cbn [negb]; [|by apply wp_ret].
  rewrite !w32_small by lia. assert (Hlen : length kernel_phs = Z.to_nat (e_phnum kernel_elf)) by (unfold kernel_phs; by rewrite length_map, length_seq).
  rewrite <- Hlen. replace (e_phnum kernel_elf) with (Z.of_nat (length kernel_phs)) by lia.
  apply wp_bind, load_loop_run; [done|done|lia|lia| |done|done|].
  - intros i p Hi. unfold kernel_phs in Hi. rewrite list_lookup_fmap in Hi. apply fmap_Some in Hi as (k & [-> _]%lookup_seq & ->). done.
  - intros s2 Hd2 Hh2 Hl2 Ho2. apply wp_bind, wp_gets, wp_ret. rewrite (header_bytes _ _ 0 52 Hh2) by lia.
    split_and!; [done|done|]. intros x Hx Hs. rewrite Ho2 by done. apply Hout. lia.
Qed.
End reading.

(** ** A kernel of one segment *)

#[export] Instance ata_polls : PollDisk ata.
Proof.
  split.
  - intros u n d Hw. exists 2%nat, IDE_DRDY, (ata_complete d). unfold ata_complete. cbn in Hw. rewrite Hw. split_and!; try done.
    eapply settles_later; [cbn; rewrite Hw; reflexivity|done|]. apply settles_now; [|done]. cbn. unfold ata_complete. by rewrite Hw.
  - by intros d d' [= <-].
  - by intros bs d d' [= _ <-].
Defined.

(** Four bytes at 0x100000, followed by four zeroes; the entry point is 0x10000C. *)
Definition tiny_kernel : block :=
  put_u32 0 ELF_MAGIC (put_u32 24 0x10000C (put_u32 28 52 (put_u32 44 1
    (put_u32 56 100 (put_u32 64 0x100000 (put_u32 68 4 (put_u32 72 8 (put_u32 100 0x12345678 zero_block)))))))).
Definition tiny_sectors (_ n : Z) : block := if n =? 1 then tiny_kernel else zero_block.
Definition boot0 : bst ata := mkBst (λ _, 0xFF) (mkAta (λ _, 0) tiny_sectors None None).

Lemma tiny_elf : kernel_elf tiny_sectors = mkElf ELF_MAGIC 0x10000C 52 1.
Proof. vm_compute. reflexivity. Qed.
Lemma tiny_phs : kernel_phs tiny_sectors = [mkBootph 100 0x100000 4 8].
Proof. vm_compute. reflexivity. Qed.

Lemma bootmain_loads_witness :
  wp (bootmain 2) (λ r s', r = Some 0x10000C ∧ map (bs_mem s') (seqZ 0x100000 8) = [0x78; 0x56; 0x34; 0x12; 0; 0; 0; 0]) boot0.
Proof.
  eapply wp_mono; [apply (bootmain_loads (PL:=ata_polls) 2 (le_n 2) tiny_sectors)|]; rewrite ?tiny_elf, ?tiny_phs; cbn [e_magic e_entry e_phoff e_phnum].
  - intros n. unfold tiny_sectors. destruct (n =? 1); reflexivity.
  - split; [split; reflexivity|reflexivity].
  - constructor; [|constructor]. unfold seg_ok, span_lo, span_hi. cbn [bp_paddr bp_off bp_filesz bp_memsz]. change (100 `mod` 512) with 100. lia.
  - constructor; [constructor|constructor].
  - lia.
  - lia.
  - lia.
  - intros r s' (-> & Hl & _). split; [reflexivity|]. apply Forall_cons in Hl as [[L1 L2] _]. cbn [bp_paddr bp_off bp_filesz bp_memsz] in L1, L2.
    change (seqZ 0x100000 8) with (map (λ k, 0x100000 + k) [0; 1; 2; 3; 4; 5; 6; 7]). cbn [map]. rewrite !L1 by lia. rewrite !L2 by lia. vm_compute. reflexivity.
Defined.
