(* ===== verification/Seg.v ===== *)
(** * Segments and address spaces (the rest of vm.c)

    [seginit], which gives a CPU its segment descriptors, [kvmalloc] and
    [switchkvm], and [switchuvm], which makes a process the one whose kernel stack
    and page table the CPU uses.  The state is the part of [struct cpu] and of the
    CPU's registers these routines store to, with what the instructions that load
    the registers do by the processor's manual: a selector is looked up in the table
    the table register names, and loading the task register wants an available task
    state segment, which it marks busy.

    The theorem: however often the CPU changes processes, each switch leaves the
    processor on the kernel stack and in the address space of the process, with the
    flat segments of [seginit] and interrupts as they were. *)

From stdpp Require Import base numbers list strings.
From Stdlib Require Import ZArith Lia.
From S2P Require Import Prelude CString Spinlock Kalloc Vm Proc Syscall Trap.

#[local] Open Scope Z_scope.

(** src/mmu.h:42-47 *)
Definition SEG_KCODE : nat := 1.
Definition SEG_KDATA : nat := 2.
Definition SEG_KCPU : nat := 3.
Definition SEG_UCODE : nat := 4.
Definition SEG_UDATA : nat := 5.
Definition SEG_TSS : nat := 6.
(** src/proc.h:2-2 *)
Definition NSEGS : nat := 7.

(** mmu.h, line 82. *)
Definition STA_X : Z := 0x8.
(** mmu.h, line 85. *)
Definition STA_W : Z := 0x2.
(** mmu.h, line 86. *)
Definition STA_R : Z := 0x2.
(** mmu.h, line 97. *)
Definition STS_T32A : Z := 0x9.

(** src/mmu.h:51-66 *)
Record segdesc := mkSeg {
  lim_15_0 : Z;
  base_15_0 : Z;
  base_23_16 : Z;
  sd_type : Z;
  sd_s : Z;
  sd_dpl : Z;
  sd_p : Z;
  lim_19_16 : Z;
  sd_avl : Z;
  sd_rsv1 : Z;
  sd_db : Z;
  sd_g : Z;
  base_31_24 : Z;
}.

(** src/mmu.h:68-72 *)
Definition SEG (type base lim d : Z) : segdesc :=
  mkSeg (Z.land (Z.shiftr lim 12) 0xffff) (Z.land (w32 base) 0xffff) (Z.land (Z.shiftr (w32 base) 16) 0xff)
    type 1 d 1 (Z.shiftr (w32 lim) 28) 0 0 1 1 (Z.shiftr (w32 base) 24).

(** src/mmu.h:73-76 *)
Definition SEG16 (type base lim d : Z) : segdesc :=
  mkSeg (Z.land lim 0xffff) (Z.land (w32 base) 0xffff) (Z.land (Z.shiftr (w32 base) 16) 0xff)
    type 1 d 1 (Z.shiftr (w32 lim) 16) 0 0 1 0 (Z.shiftr (w32 base) 24).

Definition set_sd_type (v : Z) (d : segdesc) : segdesc :=
  mkSeg (lim_15_0 d) (base_15_0 d) (base_23_16 d) v (sd_s d) (sd_dpl d) (sd_p d) (lim_19_16 d) (sd_avl d) (sd_rsv1 d)
    (sd_db d) (sd_g d) (base_31_24 d).
Definition set_sd_s (v : Z) (d : segdesc) : segdesc :=
  mkSeg (lim_15_0 d) (base_15_0 d) (base_23_16 d) (sd_type d) v (sd_dpl d) (sd_p d) (lim_19_16 d) (sd_avl d) (sd_rsv1 d)
    (sd_db d) (sd_g d) (base_31_24 d).

(** The sizes of the fields, in bytes -- src/mmu.h:150-189 *)
Definition taskstate_fields : list Z :=
  [4; 4; 2; 2; 4; 2; 2; 4; 2; 2; 4; 4; 4; 4; 4; 4; 4; 4; 4; 4; 4; 2; 2; 2; 2; 2; 2; 2; 2; 2; 2; 2; 2; 2; 2; 2; 2].
Definition sizeof_taskstate : Z := foldr Z.add 0 taskstate_fields.

(** Where in [struct cpu], behind [id] and [scheduler], fields lie -- src/proc.h:5-17 *)
Definition off_ts : Z := 8.
Definition off_gdt : Z := off_ts + sizeof_taskstate.
Definition off_cpu : Z := off_gdt + 8 * Z.of_nat NSEGS + 12.

(** The tables and registers of a CPU whose [struct cpu] is at [sg_self].  [gs] and
    the task register keep the descriptor they were loaded from; [sg_gdtr] is the
    address and the limit.  [sg_cpu] and [sg_proc] are the variables [cpu] and
    [proc], of which the kernel stack is used here. *)
Record segs := mkSegs {
  sg_self : Z;
  sg_gdt : list segdesc;
  sg_ss0 : Z;
  sg_esp0 : Z;
  sg_gdtr : Z * Z;
  sg_gs : option segdesc;
  sg_tr : option segdesc;
  sg_cr3 : Z;
  sg_cli : cpu;
  sg_cpu : Z;
  sg_proc : option Z;
}.
Definition put_gdt v s := mkSegs (sg_self s) v (sg_ss0 s) (sg_esp0 s) (sg_gdtr s) (sg_gs s) (sg_tr s) (sg_cr3 s) (sg_cli s) (sg_cpu s) (sg_proc s).
Definition put_ts ss0 esp0 s := mkSegs (sg_self s) (sg_gdt s) ss0 esp0 (sg_gdtr s) (sg_gs s) (sg_tr s) (sg_cr3 s) (sg_cli s) (sg_cpu s) (sg_proc s).
Definition put_gdtr v s := mkSegs (sg_self s) (sg_gdt s) (sg_ss0 s) (sg_esp0 s) v (sg_gs s) (sg_tr s) (sg_cr3 s) (sg_cli s) (sg_cpu s) (sg_proc s).
Definition put_gs v s := mkSegs (sg_self s) (sg_gdt s) (sg_ss0 s) (sg_esp0 s) (sg_gdtr s) (Some v) (sg_tr s) (sg_cr3 s) (sg_cli s) (sg_cpu s) (sg_proc s).
Definition put_tr v s := mkSegs (sg_self s) (sg_gdt s) (sg_ss0 s) (sg_esp0 s) (sg_gdtr s) (sg_gs s) (Some v) (sg_cr3 s) (sg_cli s) (sg_cpu s) (sg_proc s).
Definition put_cr3 v s := mkSegs (sg_self s) (sg_gdt s) (sg_ss0 s) (sg_esp0 s) (sg_gdtr s) (sg_gs s) (sg_tr s) v (sg_cli s) (sg_cpu s) (sg_proc s).
Definition put_cli v s := mkSegs (sg_self s) (sg_gdt s) (sg_ss0 s) (sg_esp0 s) (sg_gdtr s) (sg_gs s) (sg_tr s) (sg_cr3 s) v (sg_cpu s) (sg_proc s).
Definition put_cpu v s := mkSegs (sg_self s) (sg_gdt s) (sg_ss0 s) (sg_esp0 s) (sg_gdtr s) (sg_gs s) (sg_tr s) (sg_cr3 s) (sg_cli s) v (sg_proc s).
Definition put_proc v s := mkSegs (sg_self s) (sg_gdt s) (sg_ss0 s) (sg_esp0 s) (sg_gdtr s) (sg_gs s) (sg_tr s) (sg_cr3 s) (sg_cli s) (sg_cpu s) v.

(** What the processor takes from a descriptor: base and limit. *)
Definition seg_base (d : segdesc) : Z := base_15_0 d + base_23_16 d * 2 ^ 16 + base_31_24 d * 2 ^ 24.
Definition seg_limit (d : segdesc) : Z :=
  let l := lim_15_0 d + lim_19_16 d * 2 ^ 16 in if sd_g d =? 1 then l * 4096 + 4095 else l.

(** The processor's look at the descriptor a selector names: through the table
    register, within its limit; of a segment that is present. *)
Definition descriptor (sel : Z) : M segs segdesc :=
  s ← gets id;
  let i := Z.shiftr sel 3 in
  if negb ((sg_gdtr s).1 =? w32 (sg_self s + off_gdt)) then fault "gdtr" else
  if (sg_gdtr s).2 <? 8 * i + 7 then fault "#GP: selector beyond the table" else
  match sg_gdt s !! Z.to_nat i with
  | None => fault "#GP: selector beyond the table"
  | Some d => if sd_p d =? 1 then mret d else fault "#NP"
  end.

(** src/x86.h:62-72 *)
Definition lgdt (p size : Z) : M segs unit :=
  let pd0 := Z.land (size - 1) 0xffff in
  let pd1 := Z.land (w32 p) 0xffff in
  let pd2 := Z.land (Z.shiftr (w32 p) 16) 0xffff in
  modify (put_gdtr (Z.lor pd1 (Z.shiftl pd2 16), pd0)).

(** A data segment, or readable code, can be loaded -- src/x86.h:102-106 *)
Definition loadgs (v : Z) : M segs unit :=
  d ← descriptor v;
  if negb (sd_s d =? 1) then fault "#GP: not a data segment" else
  modify (put_gs d).

(** The instruction wants an available task state segment, and marks it busy
    -- src/x86.h:88-92 *)
Definition ltr (sel : Z) : M segs unit :=
  d ← descriptor sel;
  if negb ((sd_s d =? 0) && (sd_type d =? STS_T32A)) then fault "#GP: no available task state segment" else
  modify (put_tr d);;
  modify (λ s, put_gdt (<[Z.to_nat (Z.shiftr sel 3) := set_sd_type 0xB d]> (sg_gdt s)) s).

(** src/x86.h:141-145 *)
Definition lcr3 (val : Z) : M segs unit := modify (put_cr3 val).

(** An access at [%gs:off]: [cpu] is at offset 0, [proc] at 4 -- src/proc.h:31-32 *)
Definition at_gs (off : Z) : M segs unit :=
  s ← gets id;
  match sg_gs s with
  | None => fault "#GP: null selector"
  | Some d =>
      if seg_limit d <? off + 3 then fault "#GP: beyond the limit" else
      if negb (seg_base d =? w32 (sg_self s + off_cpu)) then fault "%gs is not the cpu's" else mret tt
  end.

Definition set_seg (i : nat) (d : segdesc) : M segs unit := modify (λ s, put_gdt (<[i := d]> (sg_gdt s)) s).

(** [&cpus[cpunum()]] is [sg_self]; [cpunum] is in Smp.v -- src/vm.c:16-40 *)
Definition seginit : M segs unit :=
  c ← gets sg_self;
  set_seg SEG_KCODE (SEG (Z.lor STA_X STA_R) 0 0xffffffff 0);;
  set_seg SEG_KDATA (SEG STA_W 0 0xffffffff 0);;
  set_seg SEG_UCODE (SEG (Z.lor STA_X STA_R) 0 0xffffffff DPL_USER);;
  set_seg SEG_UDATA (SEG STA_W 0 0xffffffff DPL_USER);;
  set_seg SEG_KCPU (SEG STA_W (c + off_cpu) 8 0);;
  lgdt (c + off_gdt) (8 * Z.of_nat NSEGS);;
  loadgs (Z.shiftl (Z.of_nat SEG_KCPU) 3);;
  at_gs 0;; modify (put_cpu c);;
  at_gs 4;; modify (put_proc None).

(** src/vm.c:157-161 *)
Definition switchkvm (kpgdir : Z) : M segs unit := lcr3 (v2p kpgdir).

(** The result is [kpgdir]; [data] is the linker's -- src/vm.c:148-153 *)
Definition kvmalloc (data : Z) : M (kmem * segs) Z :=
  kpgdir ← zoom fst (λ k s, (k, s.2)) (setupkvm data);
  zoom snd (λ g s, (s.1, g)) (switchkvm kpgdir);;
  mret kpgdir.

(** [pgdir] is that of the argument; the stack is that of [proc] -- src/vm.c:164-177 *)
Definition switchuvm (pgdir : Z) : M segs unit :=
  zoom sg_cli put_cli pushcli;;
  at_gs 0;;
  c ← gets sg_cpu;
  set_seg SEG_TSS (SEG16 STS_T32A (c + off_ts) (sizeof_taskstate - 1) 0);;
  modify (λ s, put_gdt (alter (set_sd_s 0) SEG_TSS (sg_gdt s)) s);;
  modify (λ s, put_ts (Z.shiftl (Z.of_nat SEG_KDATA) 3) (sg_esp0 s) s);;
  at_gs 4;;
  k ← gets sg_proc;
  match k with
  | None => fault "proc->kstack"
  | Some kstack =>
      modify (λ s, put_ts (sg_ss0 s) (w32 (kstack + KSTACKSIZE)) s);;
      ltr (Z.shiftl (Z.of_nat SEG_TSS) 3);;
      if pgdir =? 0 then panic "switchuvm: no pgdir" else
      lcr3 (v2p pgdir);;
      zoom sg_cli put_cli popcli
  end.

(** ** What the tables mean *)

(** The segment covers the 4 GB from address 0, for code or data at the privilege. *)
Definition flat (type dpl : Z) (d : segdesc) : Prop :=
  seg_base d = 0 ∧ seg_limit d = 0xffffffff ∧ sd_type d = type ∧ sd_s d = 1 ∧ sd_dpl d = dpl ∧ sd_p d = 1 ∧ sd_db d = 1.

(** The state [seginit] leaves and the switches keep. *)
Record segs_ok (s : segs) : Prop := {
  so_self : 0 ≤ sg_self s ≤ 2 ^ 32 - 188;
  so_len : length (sg_gdt s) = NSEGS;
  so_gdtr : sg_gdtr s = (sg_self s + off_gdt, 8 * Z.of_nat NSEGS - 1);
  so_flat : ∀ i ty dpl,
    (i, ty, dpl) ∈ [(SEG_KCODE, Z.lor STA_X STA_R, 0); (SEG_KDATA, STA_W, 0); (SEG_UCODE, Z.lor STA_X STA_R, DPL_USER);
                    (SEG_UDATA, STA_W, DPL_USER)] →
    ∃ d, sg_gdt s !! i = Some d ∧ flat ty dpl d;
  so_gs : ∃ d, sg_gs s = Some d ∧ seg_base d = sg_self s + off_cpu ∧ 7 ≤ seg_limit d;
  so_cpu : sg_cpu s = sg_self s;
}.

(** The CPU runs the process: the task register names the CPU's task state, all of
    it, from which an interrupt takes the top of the kernel stack; the page table
    is the process's. *)
Definition runs_on (kstack pgdir : Z) (s : segs) : Prop :=
  (∃ d, sg_tr s = Some d ∧ seg_base d = sg_self s + off_ts ∧ seg_limit d = sizeof_taskstate - 1) ∧
  sg_ss0 s = Z.shiftl (Z.of_nat SEG_KDATA) 3 ∧ sg_esp0 s = w32 (kstack + KSTACKSIZE) ∧
  sg_cr3 s = v2p pgdir.

(** ** Proofs *)

(** A 32-bit word is its low half, its third byte and its top byte. *)
Lemma word_parts (b : Z) :
  0 ≤ b < 2 ^ 32 → Z.land b 0xffff + Z.land (Z.shiftr b 16) 0xff * 2 ^ 16 + Z.shiftr b 24 * 2 ^ 24 = b.
Proof.
  intros H. change 0xffff with (Z.ones 16). change 0xff with (Z.ones 8).
  rewrite !Z.land_ones, !Z.shiftr_div_pow2 by lia.
  replace (b / 2 ^ 24) with (b / 2 ^ 16 / 2 ^ 8) by (rewrite Z.div_div; [f_equal | |]; lia).
  pose proof (Z.div_mod b (2 ^ 16)). pose proof (Z.div_mod (b / 2 ^ 16) (2 ^ 8)). lia.
Qed.

Lemma SEG_base (ty b lim d : Z) : seg_base (SEG ty b lim d) = w32 b.
Proof. apply word_parts. apply w32_bound. Qed.

Lemma SEG16_base (ty b lim d : Z) : seg_base (SEG16 ty b lim d) = w32 b.
Proof. apply word_parts. apply w32_bound. Qed.

Lemma flat_SEG (ty d : Z) : flat ty d (SEG ty 0 0xffffffff d).
Proof. repeat split. Qed.

(** The two halves [lgdt] stores are the address. *)
Lemma lgdt_spec (a n : Z) s Q :
  0 ≤ a < 2 ^ 32 → 0 < n ≤ 2 ^ 16 → Q tt (put_gdtr (a, n - 1) s) → wp (lgdt a n) Q s.
Proof.
  intros Ha Hn HQ. unfold lgdt. apply wp_modify.
  rewrite !(w32_small a) by lia. change 0xffff with (Z.ones 16).
  rewrite !Z.land_ones by lia. rewrite (Z.mod_small (n - 1)) by lia.
  rewrite (Z.mod_small (Z.shiftr a 16)).
  2: { rewrite Z.shiftr_div_pow2 by lia. split; [apply Z.div_pos; lia | apply Z.div_lt_upper_bound; lia]. }
  replace (Z.lor _ _) with a; [done |].
  rewrite <- Z.land_ones by lia. apply Z.bits_inj'. intros i Hi.
  rewrite Z.lor_spec, Z.land_spec, Z.testbit_ones_nonneg, Z.shiftl_spec by lia.
  destruct (Z.ltb_spec i 16).
  - rewrite (Z.testbit_neg_r _ (i - 16)) by lia. by rewrite andb_true_r, orb_false_r.
  - rewrite andb_false_r, Z.shiftr_spec by lia. cbn [orb]. f_equal. lia.
Qed.

Lemma descriptor_spec (i : nat) (d : segdesc) s Q :
  sg_gdtr s = (sg_self s + off_gdt, 8 * Z.of_nat NSEGS - 1) → 0 ≤ sg_self s ≤ 2 ^ 32 - 188 →
  (i < NSEGS)%nat → sg_gdt s !! i = Some d → sd_p d = 1 → Q d s →
  wp (descriptor (Z.shiftl (Z.of_nat i) 3)) Q s.
Proof.
  intros Hr Hs Hi Hd Hp HQ. unfold descriptor. apply wp_bind, wp_gets. unfold id. rewrite Hr. cbn [fst snd].
  rewrite w32_small by (change off_gdt with 112; lia). rewrite Z.eqb_refl. cbn [negb].
  rewrite Z.shiftr_shiftl_l by lia. rewrite Z.sub_diag, Z.shiftl_0_r, Nat2Z.id.
  destruct (Z.ltb_spec (8 * Z.of_nat NSEGS - 1) (8 * Z.of_nat i + 7)); [lia |].
  rewrite Hd, Hp. by apply wp_ret.
Qed.

Lemma at_gs_spec (off : Z) s Q :
  0 ≤ sg_self s ≤ 2 ^ 32 - 188 → (∃ d, sg_gs s = Some d ∧ seg_base d = sg_self s + off_cpu ∧ 7 ≤ seg_limit d) →
  off ≤ 4 → Q tt s → wp (at_gs off) Q s.
Proof.
  intros Hs (d & Hd & Hb & Hl) Ho HQ.
  unfold at_gs. apply wp_bind, wp_gets. unfold id. rewrite Hd.
  destruct (Z.ltb_spec (seg_limit d) (off + 3)); [lia |].
  rewrite Hb, w32_small by (change off_cpu with 180; lia). rewrite Z.eqb_refl. by apply wp_ret.
Qed.

(** The table [seginit] stores, of which descriptor 0 and the last are as they were. *)
Definition boot_gdt (c : Z) (null tss : segdesc) : list segdesc :=
  [null; SEG (Z.lor STA_X STA_R) 0 0xffffffff 0; SEG STA_W 0 0xffffffff 0; SEG STA_W (c + off_cpu) 8 0;
   SEG (Z.lor STA_X STA_R) 0 0xffffffff DPL_USER; SEG STA_W 0 0xffffffff DPL_USER; tss].

Lemma boot_gdt_flat c null tss i ty dpl :
  (i, ty, dpl) ∈ [(SEG_KCODE, Z.lor STA_X STA_R, 0); (SEG_KDATA, STA_W, 0); (SEG_UCODE, Z.lor STA_X STA_R, DPL_USER);
                  (SEG_UDATA, STA_W, DPL_USER)] →
  ∃ d, boot_gdt c null tss !! i = Some d ∧ flat ty dpl d.
Proof.
  rewrite !elem_of_cons, elem_of_nil.
  intros [[= -> -> ->] | [[= -> -> ->] | [[= -> -> ->] | [[= -> -> ->] | []]]]];
    (eexists; split; [reflexivity | apply flat_SEG]).
Qed.

Lemma gs_ready c : 0 ≤ c ≤ 2 ^ 32 - 188 →
  seg_base (SEG STA_W (c + off_cpu) 8 0) = c + off_cpu ∧ 7 ≤ seg_limit (SEG STA_W (c + off_cpu) 8 0).
Proof. intros H. rewrite SEG_base, w32_small by (change off_cpu with 180; lia). split; [done | by cbn]. Qed.

Lemma seginit_spec s :
  0 ≤ sg_self s ≤ 2 ^ 32 - 188 → length (sg_gdt s) = NSEGS →
  wp seginit (λ _ s', segs_ok s' ∧ sg_self s' = sg_self s ∧ sg_cli s' = sg_cli s ∧ sg_proc s' = None) s.
Proof.
  intros Hs Hl. destruct s as [c gdt ss0 esp0 gdtr gs tr cr3 cl cu pr]. cbn [sg_self sg_gdt] in Hs, Hl.
  destruct gdt as [| d0 [| d1 [| d2 [| d3 [| d4 [| d5 [| d6 [|]]]]]]]]; try discriminate Hl.
  unfold seginit, set_seg. apply wp_bind, wp_gets. do 5 (apply wp_bind, wp_modify).
  apply wp_bind, lgdt_spec; [cbn [sg_self]; change off_gdt with 112; lia | unfold NSEGS; lia |].
  set (s1 := put_gdtr _ _).
  assert (E1 : s1 = mkSegs c (boot_gdt c d0 d6) ss0 esp0 (c + off_gdt, 8 * Z.of_nat NSEGS - 1) gs tr cr3 cl cu pr)
    by reflexivity.
  rewrite E1. clear s1 E1. apply wp_bind. unfold loadgs. apply wp_bind.
  eapply descriptor_spec; [reflexivity | exact Hs | unfold SEG_KCPU, NSEGS; lia | reflexivity | reflexivity |].
  cbn [sd_s SEG]. change (negb (1 =? 1)) with false. apply wp_modify.
  pose proof (gs_ready c Hs) as [Hb Hlim].
  apply wp_bind, at_gs_spec; [exact Hs | by eexists | lia |]. apply wp_bind, wp_modify.
  apply wp_bind, at_gs_spec; [exact Hs | by eexists | lia |]. apply wp_modify.
  split_and!; [| done..]. split; try done; [apply boot_gdt_flat | by eexists].
Qed.

(** The switch up to the address space, inside [pushcli]. *)
Lemma ltr_spec s (d : segdesc) Q :
  0 ≤ sg_self s ≤ 2 ^ 32 - 188 → sg_gdtr s = (sg_self s + off_gdt, 8 * Z.of_nat NSEGS - 1) →
  sg_gdt s !! SEG_TSS = Some d → sd_p d = 1 → sd_s d = 0 → sd_type d = STS_T32A →
  Q tt (put_gdt (<[SEG_TSS := set_sd_type 0xB d]> (sg_gdt s)) (put_tr d s)) →
  wp (ltr (Z.shiftl (Z.of_nat SEG_TSS) 3)) Q s.
Proof.
  intros Hs Hr Hd Hp Hsys Hty HQ. unfold ltr. apply wp_bind.
  apply (descriptor_spec SEG_TSS d); try done; [unfold SEG_TSS, NSEGS; lia |].
  rewrite Hsys, Hty. change (negb _) with false. cbn iota. by apply wp_bind, wp_modify, wp_modify.
Qed.

(** What a switch changes in the state: the last descriptor, the task state and
    register, and the page table. *)
Definition switched (kstack pgdir : Z) (s : segs) : segs :=
  let d := set_sd_s 0 (SEG16 STS_T32A (sg_self s + off_ts) (sizeof_taskstate - 1) 0) in
  put_cr3 (v2p pgdir) (put_gdt (<[SEG_TSS := set_sd_type 0xB d]> (sg_gdt s))
    (put_tr d (put_ts (Z.shiftl (Z.of_nat SEG_KDATA) 3) (w32 (kstack + KSTACKSIZE)) s))).

Lemma alter_insert {A} (f : A → A) (i : nat) (x : A) (l : list A) : alter f i (<[i := x]> l) = <[i := f x]> l.
Proof. revert i. induction l as [| y l IH]; intros [| i]; [done.. |]. cbn. f_equal. apply IH. Qed.

(** The bracket of [pushcli] and [popcli]. *)
Definition bracketed (c : cpu) : cpu :=
  mkCpu (ncli c) (if ncli c =? 0 then iflag c else intena c) (iflag c).

Lemma bracketed_ok c : cpu_ok c → cpu_ok (bracketed c).
Proof. done. Qed.

Lemma popcli_bracket c :
  cpu_ok c → popcli (mkCpu (ncli c + 1) (if ncli c =? 0 then iflag c else intena c) false) = Ok tt (bracketed c).
Proof.
  intros [Hn Hi]. rewrite popcli_run by (unfold cpu_ok; cbn; lia || (split; [lia | done])). cbn.
  unfold bracketed. repeat f_equal; [lia |]. destruct (Z.eqb_spec (ncli c) 0) as [E | E].
  - rewrite E. done.
  - rewrite (proj2 (Z.eqb_neq _ _)) by lia. cbn. symmetry. apply Hi. lia.
Qed.

Lemma switchuvm_run s kstack pgdir :
  segs_ok s → cpu_ok (sg_cli s) → sg_proc s = Some kstack → pgdir ≠ 0 →
  wp (switchuvm pgdir) (λ _ s', s' = put_cli (bracketed (sg_cli s)) (switched kstack pgdir s)) s.
Proof.
  intros [Hs Hl Hr Hf Hg Hc] Hcl Hp Hd. unfold switchuvm.
  apply wp_bind, wp_zoom. unfold wp at 1. rewrite pushcli_run.
  apply wp_bind, at_gs_spec; [exact Hs | exact Hg | lia |]. apply wp_bind, wp_gets. cbn [put_cli sg_cpu]. rewrite Hc.
  apply wp_bind, wp_modify, wp_bind, wp_modify, wp_bind, wp_modify, wp_bind, at_gs_spec; [exact Hs | exact Hg | lia |].
  apply wp_bind, wp_gets. cbn [put_cli put_ts put_gdt sg_proc]. rewrite Hp.
  apply wp_bind, wp_modify, wp_bind.
  set (d := set_sd_s 0 (SEG16 STS_T32A (sg_self s + off_ts) (sizeof_taskstate - 1) 0)).
  apply (ltr_spec _ d); [exact Hs | exact Hr | | reflexivity.. |].
  { cbn [sg_gdt put_ts put_gdt put_cli].
    rewrite list_lookup_alter, list_lookup_insert_eq by (rewrite Hl; unfold SEG_TSS, NSEGS; lia). reflexivity. }
  rewrite (proj2 (Z.eqb_neq _ _) Hd). apply wp_bind, wp_modify, wp_zoom. unfold wp.
  cbn [sg_cli put_cr3 put_gdt put_tr put_ts put_cli]. rewrite popcli_bracket by exact Hcl.
  subst d. unfold switched.
  lazy beta zeta iota delta [put_cr3 put_gdt put_tr put_ts put_cli sg_self sg_gdt sg_ss0 sg_esp0 sg_gdtr sg_gs sg_tr
    sg_cr3 sg_cli sg_cpu sg_proc].
  rewrite alter_insert, list_insert_insert_eq. reflexivity.
Qed.

Lemma switched_ok s kstack pgdir c : segs_ok s → segs_ok (put_cli c (switched kstack pgdir s)).
Proof.
  intros [Hs Hl Hr Hf Hg Hc]. split; [exact Hs | | exact Hr | | exact Hg | exact Hc].
  - cbn [switched put_cli put_cr3 put_gdt sg_gdt]. by rewrite length_insert.
  - intros i ty dpl Hi. cbn [switched put_cli put_cr3 put_gdt sg_gdt]. rewrite list_lookup_insert_ne; [by apply Hf |].
    rewrite !elem_of_cons, elem_of_nil in Hi.
    destruct Hi as [[= -> _ _] | [[= -> _ _] | [[= -> _ _] | [[= -> _ _] | []]]]]; discriminate.
Qed.

Lemma switched_runs s kstack pgdir c :
  0 ≤ sg_self s ≤ 2 ^ 32 - 188 → runs_on kstack pgdir (put_cli c (switched kstack pgdir s)).
Proof.
  intros Hs. split_and!; [| reflexivity..]. eexists. split; [reflexivity |]. split; [| reflexivity].
  change (seg_base (SEG16 STS_T32A (sg_self s + off_ts) (sizeof_taskstate - 1) 0) = sg_self s + off_ts).
  rewrite SEG16_base. apply w32_small. change off_ts with 8. lia.
Qed.

(** A turn of a process, of which the kernel stack and the page directory are given:
    the scheduler's stores around [swtch] -- src/proc.c:299-307 *)
Definition enter (p : Z * Z) : M segs unit := at_gs 4;; modify (put_proc (Some p.1));; switchuvm p.2.
Definition leave (kpgdir : Z) : M segs unit := switchkvm kpgdir;; at_gs 4;; modify (put_proc None).

(** What holds between the turns on a CPU whose interrupt state was [c]. *)
Definition idle (self : Z) (c : cpu) (s : segs) : Prop :=
  segs_ok s ∧ sg_self s = self ∧ ncli (sg_cli s) = ncli c ∧ iflag (sg_cli s) = iflag c.

Lemma enter_spec self c p s :
  cpu_ok c → p.2 ≠ 0 → idle self c s →
  wp (enter p) (λ _ s', idle self c s' ∧ runs_on p.1 p.2 s' ∧ sg_proc s' = Some p.1) s.
Proof.
  intros Hc Hp (Hok & <- & Hn & Hi). pose proof Hok as [Hs Hl Hr Hf Hg Hcu].
  unfold enter. apply wp_bind, at_gs_spec; [exact Hs | exact Hg | lia |]. apply wp_bind, wp_modify.
  eapply wp_mono; [apply switchuvm_run with (kstack := p.1); [by split | | reflexivity | exact Hp] |].
  { unfold cpu_ok. cbn [put_proc sg_cli]. by rewrite Hn, Hi. }
  intros _ s' ->. split_and!; [| by apply switched_runs | reflexivity].
  split; [apply switched_ok; by split |]. split_and!; [reflexivity | exact Hn | exact Hi].
Qed.

Lemma leave_spec self c kpgdir s : idle self c s → wp (leave kpgdir) (λ _ s', idle self c s') s.
Proof.
  intros (Hok & <- & Hn & Hi). pose proof Hok as [Hs Hl Hr Hf Hg Hcu].
  unfold leave. apply wp_bind, wp_modify, wp_bind, at_gs_spec; [exact Hs | exact Hg | lia |].
  apply wp_modify. split; [by split |]. by split_and!.
Qed.

(** C28: A CPU that has run [seginit] can change processes any number of times.
    Whatever processes had their turn before, each followed by a return to the
    kernel's page table, a process that now gets its turn has the CPU to itself: the
    task register holds the whole of this CPU's task state (the descriptor, which the
    processor marked busy at the previous turn, is stored anew, so loading it does not
    fault), from which an interrupt in user mode takes as stack the top of the
    process's kernel stack in the kernel's data segment; the page table is the
    process's; [%gs] still leads to the CPU's own [cpu] and [proc], and [proc] is the
    process; kernel and user code and data segments are flat, at privileges 0 and 3;
    and interrupts, switched off inside, are as they were. *)
Theorem switch_any_times s (kpgdir : Z) (before : list (Z * Z)) (p : Z * Z) :
  0 ≤ sg_self s ≤ 2 ^ 32 - 188 → length (sg_gdt s) = NSEGS → cpu_ok (sg_cli s) →
  Forall (λ q, q.2 ≠ 0) (before ++ [p]) →
  wp (seginit;; for_each before (λ q, enter q;; leave kpgdir);; enter p)
    (λ _ s', idle (sg_self s) (sg_cli s) s' ∧ runs_on p.1 p.2 s' ∧ sg_proc s' = Some p.1) s.
Proof.
  intros Hs Hl Hc [Hb [Hp _]%Forall_cons]%Forall_app. apply wp_bind.
  eapply wp_mono; [by apply seginit_spec |]. intros _ s1 (Hok & Hself & Hcl & _). cbn beta.
  apply wp_bind, wp_for_each with
    (I := λ l s', Forall (λ q : Z * Z, q.2 ≠ 0) l ∧ idle (sg_self s) (sg_cli s) s').
  - split; [exact Hb |]. split; [exact Hok |]. by rewrite Hcl.
  - intros q l s2 [[Hq Hl2]%Forall_cons Hi]. apply wp_bind.
    eapply wp_mono; [by apply enter_spec |]. intros _ s3 (Hi3 & _ & _). cbn beta.
    eapply wp_mono; [by apply leave_spec |]. intros u s4 Hi4. by split.
  - intros s5 [_ Hi]. exact (enter_spec _ _ p s5 Hc Hp Hi).
Qed.

(** A CPU at reset, its [struct cpu] at the given address. *)
Definition reset_segs : segs :=
  mkSegs 0x80112780 (replicate NSEGS (mkSeg 0 0 0 0 0 0 0 0 0 0 0 0 0)) 0 0 (0, 0) None None 0 (mkCpu 0 false false) 0 None.

Lemma switch_any_times_witness :
  wp (seginit;; for_each [(0x8dfff000, 0x8dffe000); (0x8df00000, 0x8dffd000)] (λ q, enter q;; leave 0x803ff000);;
      enter (0x8dfff000, 0x8dffe000))
    (λ _ s', idle (sg_self reset_segs) (sg_cli reset_segs) s' ∧ runs_on 0x8dfff000 0x8dffe000 s' ∧
             sg_proc s' = Some 0x8dfff000) reset_segs.
Proof.
  apply (switch_any_times reset_segs 0x803ff000 [(0x8dfff000, 0x8dffe000); (0x8df00000, 0x8dffd000)]
           (0x8dfff000, 0x8dffe000)).
  - cbn. lia.
  - reflexivity.
  - split; cbn; lia.
  - repeat constructor; discriminate.
Defined.
