(* ===== verification/Smp.v ===== *)
(** * Starting the other processors (main.c, lapic.c)

    [startothers] copies the code of entryother.S to low memory and, for one
    processor after the other, leaves a stack and an entry point in front of it and
    sends the interrupts of Intel's startup algorithm ([lapicstartap]).

    The other processors are part of the state: one that has been reset waits for
    the startup interrupt, begins at the page the interrupt names, takes stack,
    entry point and page table from the words in front of it, as entryother.S does,
    and sets [started] of its own [struct cpu] after a delay of its own.

    The theorem: every other processor is started exactly once, with a stack that no
    other has. *)

From stdpp Require Import base numbers list strings sets.
From Stdlib Require Import ZArith Lia.
From S2P Require Import Prelude Mp CString Kalloc Proc Irq.

#[local] Open Scope Z_scope.

(** ** The other processors *)

Inductive ap :=
  | Halted
  | Waiting                                   (** for a startup interrupt *)
  | Booting (addr : Z) (left : nat)           (** at the address, so many polls from the end *)
  | Running (code : list Z) (esp entry cr3 : Z).

(** What the boot processor can reach of them: its local APIC ([b_id] is its own
    number, [b_icrhi] the destination of interrupts), and the clock chip's memory. *)
Record bus := mkBus {
  b_id : Z;
  b_icrhi : Z;
  b_aps : list ap;
  b_rtc : Z;
  b_cmos : Z → Z;
}.

Section machine.
(** Where the local APIC's registers are, and how long a processor takes. *)
Context (base : Z) (delay : nat → nat).

(** An interrupt command: mode 5 with the level asserted resets the destination,
    mode 6 starts it if it waits for that. *)
Definition deliver (icrhi v : Z) (aps : list ap) : list ap :=
  let dest := Z.to_nat (Z.shiftr icrhi 24) in
  let mode := Z.land (Z.shiftr v 8) 7 in
  if (mode =? 5) && Z.testbit v 14 then <[dest := Waiting]> aps
  else if mode =? 6 then
    match aps !! dest with
    | Some Waiting => <[dest := Booting (Z.shiftl (Z.land v 0xff) 12) (delay dest)]> aps
    | _ => aps
    end
  else aps.

#[export] Instance bus_ports : Ports bus := {
  inb := λ _, mret 0;
  outb := λ p v, modify (λ b,
    if p =? 0x70 then mkBus (b_id b) (b_icrhi b) (b_aps b) v (b_cmos b)
    else if p =? 0x71 then mkBus (b_id b) (b_icrhi b) (b_aps b) (b_rtc b) (λ i, if i =? b_rtc b then v else b_cmos b i)
    else b);
  insl := λ _ _, mret [];
  outsl := λ _ _, mret tt;
  readl := λ a, b ← gets id; mret (if a =? base + 0x20 then Z.shiftl (b_id b) 24 else 0);
  writel := λ a v, modify (λ b,
    if a =? base + 0x310 then mkBus (b_id b) v (b_aps b) (b_rtc b) (b_cmos b)
    else if a =? base + 0x300 then mkBus (b_id b) (b_icrhi b) (deliver (b_icrhi b) v (b_aps b)) (b_rtc b) (b_cmos b)
    else b);
}.

(** The machine: the boot processor's devices and variables, memory with the page
    allocator, the fields [started] of [cpus], the interrupt flag, and the static
    counter of [cpunum]. *)
Record smp := mkSmp {
  s_hw : hw bus;
  s_mem : kmem;
  s_started : list bool;
  s_if : bool;
  s_calls : Z;
}.
Definition put_hw v s := mkSmp v (s_mem s) (s_started s) (s_if s) (s_calls s).
Definition put_kmem v s := mkSmp (s_hw s) v (s_started s) (s_if s) (s_calls s).
Definition put_started v s := mkSmp (s_hw s) (s_mem s) v (s_if s) (s_calls s).
Definition put_calls v s := mkSmp (s_hw s) (s_mem s) (s_started s) (s_if s) v.

Definition hwm {A} (m : M (hw bus) A) : M smp A := zoom s_hw put_hw m.
Definition kmm {A} (m : M kmem A) : M smp A := zoom s_mem put_kmem m.
Definition set_bytes (f : mem → mem) : M smp unit := kmm (modify (λ k, set_mem (f (k_mem k)) k)).

(** entryother.S from its start to the call of [mpenter]: [n] bytes of code at the
    address, the words in front of it -- src/entryother.S:56-67 *)
Definition boot_code (n : nat) (m : mem) (addr : Z) : ap :=
  let a := p2v addr in
  Running (bytes_at m a n) (load32 m (a - 4)) (load32 m (a - 8)) (load32 m (a - 12)).

(** One moment in the life of processor [i], which sets [started] of its own
    [struct cpu] at the end, as [mpmain] does; what [mpenter] and [mpmain] do
    besides is not modelled. *)
Definition ap_step (n : nat) (m : mem) (p : ap) : ap * bool :=
  match p with
  | Booting a O => (boot_code n m a, true)
  | Booting a (S k) => (Booting a k, false)
  | p => (p, false)
  end.

Definition aps_step (n : nat) : M smp unit :=
  modify (λ s,
    let b := h_dev (s_hw s) in
    let r := map (ap_step n (k_mem (s_mem s))) (b_aps b) in
    put_started (zip_with orb (s_started s) r.*2)
      (put_hw (put_dev (mkBus (b_id b) (b_icrhi b) r.*1 (b_rtc b) (b_cmos b)) (s_hw s)) s)).

(** ** lapic.c *)

(** [ra] is the address of the caller -- src/lapic.c:98-116 *)
Definition cpunum (ra : Z) : M smp Z :=
  i ← gets s_if;
  (if (i : bool) then
     n ← gets s_calls;
     modify (put_calls (n + 1));;
     if n =? 0 then hwm (say "cpu called from %x with interrupts enabled" [ra]) else mret tt
   else mret tt);;
  l ← gets (λ s, lapic (s_hw s));
  if negb (l =? 0) then v ← hwm (lapicr L_ID); mret (Z.shiftr v 24) else mret 0.

(** src/lapic.c:20-23 *)
Definition L_STARTUP : Z := 0x600.
Definition L_ASSERT : Z := 0x4000.
(** lapic.c, line 133. *)
Definition IO_RTC : Z := 0x70.

(** A 16-bit store. *)
Definition store16 (m : mem) (a v : Z) : mem := upd (upd m a (w8 v)) (w32 (a + 1)) (w8 (Z.shiftr v 8)).

(** src/lapic.c:135-170 *)
Definition lapicstartap (apicid addr : Z) : M smp unit :=
  hwm (port IO_RTC 0xF);;
  hwm (port (IO_RTC + 1) 0x0A);;
  let wrv := p2v (Z.lor (Z.shiftl 0x40 4) 0x67) in
  set_bytes (λ m, store16 m wrv 0);;
  set_bytes (λ m, store16 m (w32 (wrv + 2)) (w16 (Z.shiftr addr 4)));;
  hwm (lapicw L_ICRHI (w32 (Z.shiftl apicid 24)));;
  hwm (lapicw L_ICRLO (Z.lor (Z.lor L_INIT L_LEVEL) L_ASSERT));;
  hwm (lapicw L_ICRLO (Z.lor L_INIT L_LEVEL));;
  for_each (seq 0 2) (λ _,
    hwm (lapicw L_ICRHI (w32 (Z.shiftl apicid 24)));;
    hwm (lapicw L_ICRLO (Z.lor L_STARTUP (Z.shiftr addr 12)))).

(** ** main.c *)

(** The image of entryother.S and its size, the addresses of [mpenter] and
    [entrypgdir] (set by the linker), and of the call of [cpunum]. *)
Context (image : Z) (size : nat) (mpenter entrypgdir ra : Z).

(** [while(c->started == 0)], with at most [fuel] reads -- src/main.c:96-98 *)
Fixpoint started_wait (fuel c : nat) : M smp unit :=
  match fuel with
  | O => nofuel
  | S fuel =>
      aps_step size;;
      st ← gets s_started;
      match st !! c with
      | None => fault "c->started"
      | Some false => started_wait fuel c
      | Some true => mret tt
      end
  end.

(** One round of the loop -- src/main.c:83-98 *)
Definition startone (fuel c : nat) : M smp unit :=
  let code := p2v 0x7000 in
  me ← cpunum ra;
  if Z.of_nat c =? me then mret tt else
  stack ← kmm kalloc;
  set_bytes (λ m, store32 m (w32 (code - 4)) (w32 (stack + KSTACKSIZE)));;
  set_bytes (λ m, store32 m (w32 (code - 8)) mpenter);;
  set_bytes (λ m, store32 m (w32 (code - 12)) (v2p entrypgdir));;
  ids ← gets (λ s, cpu_ids (s_hw s));
  match ids !! c with
  | None => fault "c->id"
  | Some apicid => lapicstartap apicid (v2p code);; started_wait fuel c
  end.

(** src/main.c:67-100 *)
Definition startothers (fuel : nat) : M smp unit :=
  let code := p2v 0x7000 in
  set_bytes (λ m, memmove m code image (Z.of_nat size));;
  n ← gets (λ s, ncpu (s_hw s));
  for_each (seq 0 (Z.to_nat n)) (startone fuel).

(** ** Proofs *)

(** What a step changes: the other processors, [started], the destination register
    and memory; what it does not change is the rest. *)
Record view (me n : nat) (aps : list ap) (st : list bool) (hi : Z) (k : kmem) (s : smp) : Prop := {
  vw_lapic : lapic (s_hw s) = base;
  vw_id : b_id (h_dev (s_hw s)) = Z.of_nat me;
  vw_ids : cpu_ids (s_hw s) = map Z.of_nat (seq 0 n);
  vw_n : ncpu (s_hw s) = Z.of_nat n;
  vw_aps : b_aps (h_dev (s_hw s)) = aps;
  vw_st : s_started s = st;
  vw_hi : b_icrhi (h_dev (s_hw s)) = hi;
  vw_mem : s_mem s = k;
}.

Section steps.
Context (me n : nat) (Hbase : base ≠ 0) (aps : list ap) (st : list bool) (hi : Z) (k : kmem) (s : smp).
Context (V : view me n aps st hi k s).

Lemma cpunum_run (Q : Z → smp → Prop) :
  (∀ s', view me n aps st hi k s' → Q (Z.of_nat me) s') → wp (cpunum ra) Q s.
Proof using V Hbase.
  destruct V as [H1 H2 H3 H4 H5 H6 H7 H8]. intros HQ. unfold cpunum. apply wp_bind, wp_gets, wp_bind.
  assert (Hread : ∀ s1, view me n aps st hi k s1 →
    wp (l ← gets (λ s, lapic (s_hw s)); if negb (l =? 0) then v ← hwm (lapicr L_ID); mret (Z.shiftr v 24) else mret 0) Q s1).
  { intros s1 V1. pose proof V1 as [G1 G2 _ _ _ _ _ _]. apply wp_bind, wp_gets. rewrite G1, (proj2 (Z.eqb_neq _ _) Hbase).
    cbn [negb]. apply wp_bind, wp_zoom. unfold lapicr. apply wp_bind, wp_gets, wp_zoom. cbn [readl bus_ports].
    apply wp_bind, wp_gets, wp_ret, wp_ret. unfold id. rewrite G1, G2. change (4 * L_ID) with 0x20.
    rewrite Z.eqb_refl, Z.shiftr_shiftl_l, Z.shiftl_0_r by lia. apply HQ. by destruct V1. }
  destruct (s_if s); [| by apply wp_ret, Hread; split].
  apply wp_bind, wp_gets, wp_bind, wp_modify. apply wp_if; intros _; [apply wp_zoom, wp_modify | apply wp_ret];
    apply Hread; by split.
Qed.

Lemma port_run p v (Q : unit → smp → Prop) :
  (∀ s', view me n aps st hi k s' → Q tt s') → wp (hwm (port p v)) Q s.
Proof using V.
  destruct V as [H1 H2 H3 H4 H5 H6 H7 H8]. intros HQ. apply wp_zoom, wp_zoom. cbn [outb bus_ports]. apply wp_modify.
  apply HQ. split; cbn; try done; repeat case_match; done.
Qed.

Lemma set_bytes_run f (Q : unit → smp → Prop) :
  (∀ s', view me n aps st hi (set_mem (f (k_mem k)) k) s' → Q tt s') → wp (set_bytes f) Q s.
Proof using V.
  destruct V as [H1 H2 H3 H4 H5 H6 H7 H8]. intros HQ. apply wp_zoom, wp_modify, HQ. split; cbn; by subst.
Qed.

Lemma icrhi_run v (Q : unit → smp → Prop) :
  (∀ s', view me n aps st v k s' → Q tt s') → wp (hwm (lapicw L_ICRHI v)) Q s.
Proof using V.
  destruct V as [H1 H2 H3 H4 H5 H6 H7 H8]. intros HQ. apply wp_zoom. unfold lapicw, lapicr.
  apply wp_bind, wp_gets, wp_bind, wp_zoom. cbn [writel bus_ports]. apply wp_modify.
  apply wp_bind, wp_bind, wp_gets, wp_zoom. cbn [readl bus_ports]. apply wp_bind, wp_gets, wp_ret, wp_ret.
  apply HQ. rewrite H1. change (4 * L_ICRHI) with 0x310. rewrite Z.eqb_refl. split; cbn; done.
Qed.

Lemma icrlo_run v (Q : unit → smp → Prop) :
  (∀ s', view me n (deliver hi v aps) st hi k s' → Q tt s') → wp (hwm (lapicw L_ICRLO v)) Q s.
Proof using V.
  destruct V as [H1 H2 H3 H4 H5 H6 H7 H8]. intros HQ. apply wp_zoom. unfold lapicw, lapicr.
  apply wp_bind, wp_gets, wp_bind, wp_zoom. cbn [writel bus_ports]. apply wp_modify.
  apply wp_bind, wp_bind, wp_gets, wp_zoom. cbn [readl bus_ports]. apply wp_bind, wp_gets, wp_ret, wp_ret.
  apply HQ. rewrite H1. change (4 * L_ICRLO) with 0x300. rewrite Z.eqb_refl, (proj2 (Z.eqb_neq _ _)) by lia.
  split; cbn; subst; done.
Qed.
End steps.

Lemma dest_id t : (t < 256)%nat → Z.to_nat (Z.shiftr (w32 (Z.shiftl (Z.of_nat t) 24)) 24) = t.
Proof.
  intros Ht. rewrite Z.shiftl_mul_pow2, w32_small, Z.shiftr_div_pow2, Z.div_mul by lia. lia.
Qed.

(** What the words of the startup algorithm do to a processor, in order. *)
Lemma startup_delivered t v aps :
  (t < 256)%nat → (t < length aps)%nat →
  let hi := w32 (Z.shiftl (Z.of_nat t) 24) in
  let start := Z.lor L_STARTUP (Z.shiftr v 12) in
  v = 0x7000 →
  deliver hi start (deliver hi start (deliver hi (Z.lor L_INIT L_LEVEL)
    (deliver hi (Z.lor (Z.lor L_INIT L_LEVEL) L_ASSERT) aps))) = <[t := Booting v (delay t)]> aps.
Proof.
  intros Ht Hl hi start ->.
  assert (E1 : ∀ l, deliver hi (Z.lor (Z.lor L_INIT L_LEVEL) L_ASSERT) l = <[t := Waiting]> l)
    by (intros l; unfold deliver, hi; rewrite dest_id by done; reflexivity).
  assert (E2 : ∀ l, deliver hi (Z.lor L_INIT L_LEVEL) l = l) by reflexivity.
  assert (E3 : ∀ l, deliver hi start l =
    match l !! t with Some Waiting => <[t := Booting 0x7000 (delay t)]> l | _ => l end)
    by (intros l; unfold deliver, hi; rewrite dest_id by done; reflexivity).
  rewrite E1, E2, !E3, list_lookup_insert_eq by done. rewrite list_insert_insert_eq.
  by rewrite list_lookup_insert_eq by done.
Qed.

Lemma lapicstartap_run me n aps st hi k s t (Q : unit → smp → Prop) :
  view me n aps st hi k s → (t < 256)%nat → (t < length aps)%nat →
  (∀ s' m' hi', view me n (<[t := Booting 0x7000 (delay t)]> aps) st hi' (set_mem m' k) s' →
     (∀ a, ¬ (p2v 0x467 ≤ a < p2v 0x467 + 4) → m' a = k_mem k a) → Q tt s') →
  wp (lapicstartap (Z.of_nat t) 0x7000) Q s.
Proof.
  intros V Ht Hl HQ. unfold lapicstartap.
  apply wp_bind, (port_run _ _ _ _ _ _ _ V). intros s1 V1. apply wp_bind, (port_run _ _ _ _ _ _ _ V1). intros s2 V2.
  cbv zeta. apply wp_bind, (set_bytes_run _ _ _ _ _ _ _ V2). intros s3 V3.
  apply wp_bind, (set_bytes_run _ _ _ _ _ _ _ V3). intros s4 V4.
  apply wp_bind, (icrhi_run _ _ _ _ _ _ _ V4). intros s5 V5. apply wp_bind, (icrlo_run _ _ _ _ _ _ _ V5). intros s6 V6.
  apply wp_bind, (icrlo_run _ _ _ _ _ _ _ V6). intros s7 V7. cbn [seq for_each].
  apply wp_bind, wp_bind, (icrhi_run _ _ _ _ _ _ _ V7). intros s8 V8. apply (icrlo_run _ _ _ _ _ _ _ V8). intros s9 V9.
  apply wp_bind, wp_bind, (icrhi_run _ _ _ _ _ _ _ V9). intros s10 V10. apply (icrlo_run _ _ _ _ _ _ _ V10). intros s11 V11.
  apply wp_ret. rewrite (startup_delivered t 0x7000 aps Ht Hl eq_refl) in V11.
  eapply HQ; [exact V11 |]. intros a Ha. cbn [k_mem set_mem]. unfold store16, upd.
  change (p2v (Z.lor (Z.shiftl 0x40 4) 0x67)) with 0x80000467. change (p2v 0x467) with 0x80000467 in Ha.
  change (w32 (0x80000467 + 1)) with 0x80000468. change (w32 (w32 (0x80000467 + 2) + 1)) with 0x8000046A.
  change (w32 (0x80000467 + 2)) with 0x80000469. by repeat (rewrite (proj2 (Z.eqb_neq a _)) by lia).
Qed.

(** ** Waiting for a processor *)

Definition busy (p : ap) : bool := if p is Booting _ _ then true else false.

(** A step of all processors when only [c] is on its way. *)
Lemma only_one_steps m aps st c p :
  aps !! c = Some p → length st = length aps → (∀ i q, i ≠ c → aps !! i = Some q → busy q = false) →
  let r := map (ap_step size m) aps in
  r.*1 = <[c := (ap_step size m p).1]> aps ∧
  zip_with orb st r.*2 = alter (λ b, b || (ap_step size m p).2) c st.
Proof.
  intros Hc Hl Hq. cbv zeta. split; apply list_eq; intros i.
  - rewrite list_lookup_fmap, list_lookup_fmap. destruct (decide (i = c)) as [-> | Hne].
    + rewrite Hc, list_lookup_insert_eq by (by eapply lookup_lt_Some). done.
    + rewrite list_lookup_insert_ne by done. destruct (aps !! i) as [q |] eqn:E; [| done].
      specialize (Hq i q Hne E). by destruct q.
  - rewrite lookup_zip_with, !list_lookup_fmap. destruct (decide (i = c)) as [-> | Hne].
    + rewrite list_lookup_alter_eq, Hc. by destruct (st !! c).
    + rewrite list_lookup_alter_ne by done. destruct (st !! i) as [b |] eqn:Eb; [| done]. cbn.
      destruct (aps !! i) as [q |] eqn:E; cbn.
      * specialize (Hq i q Hne E). destruct q; try done; cbn; by rewrite orb_false_r.
      * apply lookup_ge_None in E. apply lookup_lt_Some in Eb. lia.
Qed.

Lemma started_wait_run me n aps st hi k s c a d fuel (Q : unit → smp → Prop) :
  view me n aps st hi k s → length st = length aps →
  aps !! c = Some (Booting a d) → st !! c = Some false → (∀ i q, i ≠ c → aps !! i = Some q → busy q = false) →
  (d < fuel)%nat →
  (∀ s', view me n (<[c := boot_code size (k_mem k) a]> aps) (<[c := true]> st) hi k s' → Q tt s') →
  wp (started_wait fuel c) Q s.
Proof.
  revert aps st s fuel. induction d as [| d IH]; intros aps st s fuel V Hl Hc Hs Hq Hf HQ;
    (destruct fuel as [| fuel]; [lia |]); cbn [started_wait]; apply wp_bind, wp_modify; cbv zeta; apply wp_bind, wp_gets;
    destruct V as [H1 H2 H3 H4 H5 H6 H7 H8]; rewrite H5, H6, H8;
    destruct (only_one_steps (k_mem k) aps st c _ Hc Hl Hq) as [E1 E2]; rewrite E1, E2; cbn [put_started s_started];
    rewrite list_lookup_alter_eq, Hs; cbn [ap_step fst snd orb fmap option_fmap option_map].
  - apply wp_ret, HQ. split; cbn; try done. apply list_eq. intros i. destruct (decide (i = c)) as [-> | Hne].
    + by rewrite list_lookup_alter_eq, Hs, list_lookup_insert_eq by (by eapply lookup_lt_Some).
    + by rewrite list_lookup_alter_ne, list_lookup_insert_ne.
  - assert (Est : alter (λ b, b || false) c st = st).
    { apply list_alter_id. intros b. apply orb_false_r. }
    rewrite Est. eapply (IH (<[c := Booting a d]> aps) st).
    + split; cbn; done.
    + by rewrite length_insert.
    + by rewrite list_lookup_insert_eq by (by eapply lookup_lt_Some).
    + done.
    + intros i q Hne. rewrite list_lookup_insert_ne by done. by apply Hq.
    + lia.
    + intros s' V'. apply HQ. by rewrite list_insert_insert_eq in V'.
Qed.

(** ** All of them *)

Section all.
Context (kend : Z) (Hend : KERNBASE + 0x8000 ≤ kend ≤ KERNBASE + PHYSTOP).

Lemma kmem_ok_low k m' (f : list Z) :
  kmem_ok kend k f → (∀ a, kend ≤ a → m' a = k_mem k a) → kmem_ok kend (set_mem m' k) f.
Proof using Hend.
  intros (H1 & H2 & H3 & H4) Hm. split_and!; try done. cbn [k_mem set_mem freelist].
  eapply chain_ext; [| exact H3 | | exact H2]; [unfold KERNBASE in *; lia |].
  intros q a Hq Ha. symmetry. apply Hm. rewrite Forall_forall in H3. destruct (H3 q Hq). lia.
Qed.

(** The words in front of the code. *)
Lemma params_read m esp entry cr3 :
  0 ≤ esp < 2 ^ 32 → 0 ≤ entry < 2 ^ 32 → 0 ≤ cr3 < 2 ^ 32 →
  let a := p2v 0x7000 in
  let m' := store32 (store32 (store32 m (w32 (a - 4)) esp) (w32 (a - 8)) entry) (w32 (a - 12)) cr3 in
  load32 m' (a - 4) = esp ∧ load32 m' (a - 8) = entry ∧ load32 m' (a - 12) = cr3 ∧
  (∀ x, ¬ (a - 12 ≤ x < a) → m' x = m x).
Proof.
  intros H1 H2 H3. change (p2v 0x7000) with 0x80007000. cbv zeta.
  change (w32 (0x80007000 - 4)) with 0x80006FFC. change (w32 (0x80007000 - 8)) with 0x80006FF8.
  change (w32 (0x80007000 - 12)) with 0x80006FF4.
  change (0x80007000 - 4) with 0x80006FFC. change (0x80007000 - 8) with 0x80006FF8.
  change (0x80007000 - 12) with 0x80006FF4.
  assert (Hskip : ∀ m v a b, 0 ≤ a → a + 4 ≤ 2 ^ 32 → 0 ≤ b → b + 4 ≤ 2 ^ 32 → a + 4 ≤ b ∨ b + 4 ≤ a →
    load32 (store32 m b v) a = load32 m a).
  { intros m1 v a b Ha1 Ha2 Hb1 Hb2 Hab. apply load32_ext; [done | done |]. intros x Hx. apply store32_other; lia. }
  split_and!.
  - rewrite !Hskip by lia. by apply load32_store32; lia.
  - rewrite Hskip by lia. by apply load32_store32; lia.
  - by apply load32_store32; lia.
  - intros x Hx. by rewrite !store32_other by lia.
Qed.

Context (me n : nat) (Hme : (me < n ≤ NCPU)%nat).

(** How many processors were started before [i]. *)
Definition rank (i : nat) : nat := if (me <? i)%nat then (i - 1)%nat else i.

Lemma rank_S c : c ≠ me → rank (S c) = S (rank c).
Proof using Type. clear Hme. intros Hc. unfold rank. destruct (Nat.ltb_spec me c), (Nat.ltb_spec me (S c)); lia. Qed.
Lemma rank_me : rank (S me) = rank me.
Proof using Type. clear Hme. unfold rank. destruct (Nat.ltb_spec me me), (Nat.ltb_spec me (S me)); lia. Qed.
Lemma rank_lt c : (c < n)%nat → c ≠ me → (rank c < n - 1)%nat.
Proof using Hme. intros Hc Hn. unfold rank. destruct (Nat.ltb_spec me c); lia. Qed.

Context (fuel : nat) (Hbase : base ≠ 0).
Context (Hsize : (size ≤ 0x1000)%nat) (Hentry : 0 ≤ mpenter < 2 ^ 32).
Context (Hdelay : ∀ i, (i < n)%nat → (delay i < fuel)%nat).
(** The processors at first, the pages that are free, and the code. *)
Context (aps0 : list ap) (l code : list Z).

(** How processor [i] runs: in the copied code, on the page of its turn. *)
Definition up (i : nat) : ap :=
  Running code (w32 (nth (rank i) l 0 + KSTACKSIZE)) mpenter (v2p entrypgdir).

(** The first [c] processors have been dealt with. *)
Definition done_to (c : nat) (s : smp) : Prop :=
  ∃ aps st hi k, view me n aps st hi k s ∧ length aps = n ∧ length st = n ∧
    (∀ i, (i < n)%nat → i ≠ me →
       if decide (i < c)%nat then aps !! i = Some (up i) ∧ st !! i = Some true
       else aps !! i = aps0 !! i ∧ st !! i = Some false) ∧
    aps !! me = aps0 !! me ∧
    kmem_ok kend k (drop (rank c) l) ∧ bytes_at (k_mem k) (p2v 0x7000) size = code.

Lemma kalloc_view aps st hi k s f (Q : Z → smp → Prop) :
  view me n aps st hi k s → kmem_ok kend k f →
  (∀ k' s', view me n aps st hi k' s' → kmem_ok kend k' (tail f) → k_mem k' = k_mem k → Q (default 0 (head f)) s') →
  wp (kmm kalloc) Q s.
Proof using Hend.
  intros [H1 H2 H3 H4 H5 H6 H7 H8] Hk HQ. apply wp_zoom. rewrite H8. eapply kalloc_run; [| exact Hk |]; [clear Hsize Hme Hentry Hdelay; unfold KERNBASE in *; lia |].
  intros k' Hk' _ Em. apply (HQ k'); [| done | done]. by split.
Qed.

(** A started processor, and those that were not, when [c] is next. *)
Lemma quiet (aps : list ap) (st : list bool) (c i : nat) (q : ap) :
  (∀ i q, aps0 !! i = Some q → busy q = false) → length aps = n →
  (∀ i, (i < n)%nat → i ≠ me →
     if decide (i < c)%nat then aps !! i = Some (up i) ∧ st !! i = Some true
     else aps !! i = aps0 !! i ∧ st !! i = Some false) →
  aps !! me = aps0 !! me → aps !! i = Some q → busy q = false.
Proof using Type.
  intros Hq La Hi Hm E. destruct (decide (i = me)) as [-> | Hne]; [rewrite Hm in E; by eapply Hq |].
  pose proof (lookup_lt_Some _ _ _ E) as Hl. rewrite La in Hl. specialize (Hi i Hl Hne).
  destruct (decide (i < c)%nat); destruct Hi as [Ei _]; rewrite Ei in E; [by injection E as <- | by eapply Hq].
Qed.

(** What [lapicstartap] leaves of memory is what the processor starts with. *)
Lemma boot_ready (m m' : mem) (stack : Z) :
  let a := p2v 0x7000 in
  (∀ x, ¬ (p2v 0x467 ≤ x < p2v 0x467 + 4) →
     m' x = store32 (store32 (store32 m (w32 (a - 4)) (w32 (stack + KSTACKSIZE))) (w32 (a - 8)) mpenter)
              (w32 (a - 12)) (v2p entrypgdir) x) →
  bytes_at m a size = code →
  bytes_at m' a size = code ∧ (∀ x, kend ≤ x → m' x = m x) ∧
  boot_code size m' 0x7000 = Running code (w32 (stack + KSTACKSIZE)) mpenter (v2p entrypgdir).
Proof using Hend Hsize Hentry.
  clear Hme Hdelay. intros a Hm' Hcode.
  destruct (params_read m (w32 (stack + KSTACKSIZE)) mpenter (v2p entrypgdir)) as (P1 & P2 & P3 & P4);
    [apply w32_bound | done | apply w32_bound |]. cbv zeta in *.
  change (p2v 0x467) with 0x80000467 in *. unfold a in *. change (p2v 0x7000) with 0x80007000 in *.
  set (m3 := store32 _ (w32 (0x80007000 - 12)) _) in *. unfold KERNBASE in Hend.
  assert (E : bytes_at m' 0x80007000 size = code).
  { rewrite <- Hcode. apply bytes_at_ext. intros x Hx. rewrite Hm', P4 by lia. done. }
  split; [exact E |]. split; [intros x Hx; by rewrite Hm', P4 by lia |].
  unfold boot_code. change (p2v 0x7000) with 0x80007000. rewrite E.
  assert (El : ∀ y, 0x80000470 ≤ y < 0x80007000 → load32 m' y = load32 m3 y).
  { intros y Hy. apply load32_ext; [lia | lia |]. intros x Hx. apply Hm'. lia. }
  rewrite !El by lia. by rewrite P1, P2, P3.
Qed.

Lemma next_page c :
  (rank c < length l)%nat → c ≠ me →
  default 0 (head (drop (rank c) l)) = nth (rank c) l 0 ∧ tail (drop (rank c) l) = drop (rank (S c)) l.
Proof using Type.
  intros Hr Hc. destruct (lookup_lt_is_Some_2 l (rank c) Hr) as [x Ex]. rewrite (drop_S _ _ _ Ex), rank_S by done.
  split; [| done]. cbn. symmetry. by apply nth_lookup_Some.
Qed.

Lemma startone_run c s :
  (∀ i q, aps0 !! i = Some q → busy q = false) → (n - 1 ≤ length l)%nat → (c < n)%nat →
  done_to c s → wp (startone fuel c) (λ _ s', done_to (S c) s') s.
Proof using Hend Hme Hbase Hsize Hentry Hdelay.
  intros Hquiet Hpages Hcn (aps & st & hi & k & V & La & Ls & Hi & Hm & Hk & Hcode).
  unfold startone. cbv zeta. apply wp_bind, (cpunum_run me n Hbase _ _ _ _ _ V). intros s1 V1.
  destruct (decide (c = me)) as [-> | Hc].
  { rewrite Z.eqb_refl. apply wp_ret. exists aps, st, hi, k. rewrite rank_me. split_and!; try done.
    intros i Hin Hne. specialize (Hi i Hin Hne).
    destruct (decide (i < me)%nat), (decide (i < S me)%nat); try lia; done. }
  rewrite (proj2 (Z.eqb_neq _ _)) by lia. pose proof (rank_lt c Hcn Hc) as Hr.
  destruct (next_page c) as [Eh Et]; [lia | done |].
  apply wp_bind, (kalloc_view _ _ _ _ _ _ _ V1 Hk). intros k2 s2 V2 Hk2 Em2. rewrite Eh. rewrite Et in Hk2. rewrite <- Em2 in Hcode.
  apply wp_bind, (set_bytes_run _ _ _ _ _ _ _ V2). intros s3 V3. apply wp_bind, (set_bytes_run _ _ _ _ _ _ _ V3). intros s4 V4.
  apply wp_bind, (set_bytes_run _ _ _ _ _ _ _ V4). intros s5 V5. cbn [k_mem set_mem] in V5.
  apply wp_bind, wp_gets. rewrite (vw_ids _ _ _ _ _ _ _ V5), list_lookup_fmap, lookup_seq_lt by lia.
  cbn [fmap option_fmap option_map]. change (v2p (p2v 0x7000)) with 0x7000. unfold NCPU in Hme.
  apply wp_bind, (lapicstartap_run _ _ _ _ _ _ _ c _ V5); [lia | lia |]. intros s6 m' hi' V6 Hm'. cbn [k_mem set_mem] in Hm'.
  destruct (boot_ready _ _ _ Hm' Hcode) as (Ecode & Elow & Eup).
  pose proof (Hi c Hcn Hc) as Hic. rewrite decide_False in Hic by lia. destruct Hic as [_ Hst].
  eapply (started_wait_run _ _ _ _ _ _ _ c); [exact V6 | by rewrite length_insert, Ls | apply list_lookup_insert_eq; lia
    | exact Hst | | by apply Hdelay |].
  { intros i q Hne. rewrite list_lookup_insert_ne by done. by apply (quiet aps st c). }
  intros s7 V7. rewrite list_insert_insert_eq in V7. cbn [k_mem set_mem] in V7. change (0 + c)%nat with c in *. rewrite Eup in V7.
  eexists _, _, _, _. split; [exact V7 |]. split_and!; [by rewrite length_insert | by rewrite length_insert | | | | exact Ecode].
  - intros i Hin Hne. specialize (Hi i Hin Hne). destruct (decide (i = c)) as [-> | Hic].
    + rewrite decide_True by lia. by rewrite !list_lookup_insert_eq by lia.
    + rewrite !list_lookup_insert_ne by done. destruct (decide (i < c)%nat), (decide (i < S c)%nat); try lia; done.
  - by rewrite list_lookup_insert_ne.
  - exact (kmem_ok_low k2 m' _ Hk2 Elow).
Qed.

Lemma startall_run c j s :
  (∀ i q, aps0 !! i = Some q → busy q = false) → (n - 1 ≤ length l)%nat → (c + j = n)%nat →
  done_to c s → wp (for_each (seq c j) (startone fuel)) (λ _ s', done_to n s') s.
Proof using Hend Hme Hbase Hsize Hentry Hdelay.
  intros Hq Hl. revert c s. induction j as [| j IH]; intros c s Hcj Hd; cbn [seq for_each].
  { apply wp_ret. by replace n with c by lia. }
  apply wp_bind. eapply wp_mono; [apply startone_run; [done | done | lia | done] |]. intros u s' Hd'. apply IH; [lia | done].
Qed.
End all.

Lemma bytes_at_moved (m m' : mem) (a b : Z) (j : nat) :
  (∀ x, 0 ≤ x < Z.of_nat j → m' (a + x) = m (b + x)) → bytes_at m' a j = bytes_at m b j.
Proof.
  revert a b. induction j as [| j IH]; intros a b H; cbn [bytes_at]; [done |]. f_equal.
  - specialize (H 0). rewrite !Z.add_0_r in H. apply H. lia.
  - apply IH. intros x Hx. rewrite <- !Z.add_assoc. rewrite (H (1 + x)) by lia. done.
Qed.

Lemma page_at (l : list Z) i : (i < length l)%nat → l !! i = Some (nth i l 0).
Proof. intros Hi. destruct (lookup_lt_is_Some_2 l i Hi) as [x E]. by rewrite E, (nth_lookup_Some _ _ _ _ E). Qed.

Lemma rank_inj me n i j : (me < n)%nat → i ≠ me → j ≠ me → rank me i = rank me j → i = j.
Proof. unfold rank. intros. destruct (Nat.ltb_spec me i), (Nat.ltb_spec me j); lia. Qed.

(** C26: The boot processor starts all others.  If the processors are those the
    firmware's table gave ([mpinit] numbers them by their APIC ids), none of them
    runs yet, and there is a free page for each, then [startothers] returns, however
    long the processors take.  Every processor but the one that runs it
    then runs the code of entryother.S, entered with a stack that is a page of its
    own, taken off the free list, with [mpenter] as entry point and the boot page
    table, and has set its [started]; the second startup interrupt of the algorithm
    did not start it again.  The free list is intact. *)
Theorem startothers_starts (kend : Z) (me n fuel : nat) aps0 hi k l s :
  KERNBASE + 0x8000 ≤ kend ≤ KERNBASE + PHYSTOP → base ≠ 0 → (me < n ≤ NCPU)%nat →
  (size ≤ 0x1000)%nat → 0 ≤ mpenter < 2 ^ 32 → 0 ≤ image → image + Z.of_nat size < 2 ^ 32 →
  (∀ i, (i < n)%nat → (delay i < fuel)%nat) →
  view me n aps0 (replicate n false) hi k s → length aps0 = n → Forall (λ p, busy p = false) aps0 →
  kmem_ok kend k l → (n - 1 ≤ length l)%nat →
  wp (startothers fuel) (λ _ s',
    ∃ stack : nat → Z,
      (∀ i, (i < n)%nat → i ≠ me → stack i ∈ take (n - 1) l ∧ s_started s' !! i = Some true ∧
         b_aps (h_dev (s_hw s')) !! i =
           Some (Running (bytes_at (k_mem k) image size) (w32 (stack i + KSTACKSIZE)) mpenter (v2p entrypgdir))) ∧
      (∀ i j, (i < n)%nat → (j < n)%nat → i ≠ me → j ≠ me → stack i = stack j → i = j) ∧
      b_aps (h_dev (s_hw s')) !! me = aps0 !! me ∧
      kmem_ok kend (s_mem s') (drop (n - 1) l)) s.
Proof.
  intros Hend Hb Hme Hsz Hent Him1 Him2 Hdel V La Hq Hk Hl. unfold startothers. cbv zeta.
  apply wp_bind, (set_bytes_run _ _ _ _ _ _ _ V). intros s1 V1. apply wp_bind, wp_gets.
  rewrite (vw_n _ _ _ _ _ _ _ V1), Nat2Z.id. change (p2v 0x7000) with 0x80007000 in V1.
  set (m1 := memmove _ _ _ _) in V1.
  assert (Em : ∀ x, m1 x = if decide (0x80007000 ≤ x < 0x80007000 + Z.of_nat size)
                           then k_mem k (image + (x - 0x80007000)) else k_mem k x)
    by (intros x; apply memmove_spec; lia).
  eapply wp_mono; [apply (startall_run kend Hend me n Hme fuel Hb Hsz Hent Hdel aps0 l (bytes_at (k_mem k) image size)) |].
  - intros i q E. rewrite Forall_lookup in Hq. by eapply Hq.
  - done.
  - done.
  - eexists _, _, _, _. split; [exact V1 |]. rewrite length_replicate. split_and!; try done.
    + intros i Hi _. rewrite decide_False by lia. by rewrite lookup_replicate_2.
    + apply (kmem_ok_low kend Hend); [by rewrite drop_0 |]. intros a Ha. unfold KERNBASE in Hend. rewrite Em, decide_False by lia. done.
    + change (p2v 0x7000) with 0x80007000. cbn [k_mem set_mem]. apply bytes_at_moved. intros x Hx.
      rewrite Em, decide_True by lia. f_equal. lia.
  - cbv beta. intros _ s' (aps & st & hi' & k' & [_ _ _ _ Ea Es _ Ek] & _ & _ & Hi & Hm & Hk' & _). subst.
    assert (Er : rank me (length aps0) = (length aps0 - 1)%nat) by (unfold rank; destruct (Nat.ltb_spec me (length aps0)); lia).
    rewrite Er in Hk'. exists (λ i, nth (rank me i) l 0). split_and!; [| | done | done].
    + intros i Hin Hne. specialize (Hi i Hin Hne). rewrite decide_True in Hi by done. destruct Hi as [E1 E2].
      split_and!; [| done | done]. pose proof (rank_lt me _ Hme i Hin Hne). apply list_elem_of_lookup_2 with (rank me i).
      rewrite lookup_take_lt by done. apply page_at. lia.
    + intros i j Hin Hjn Hi1 Hj1 E. apply (rank_inj me (length aps0)); [lia | done | done |].
      destruct Hk as (_ & _ & _ & Hnd). pose proof (rank_lt me _ Hme i Hin Hi1). pose proof (rank_lt me _ Hme j Hjn Hj1).
      eapply NoDup_lookup; [exact Hnd | apply page_at; lia | rewrite E; apply page_at; lia].
Qed.
End machine.

(** ** A machine with three processors *)

Definition three_mem : kmem :=
  mkKmem false false 0x80400000 (store32 (store32 (λ a, if a =? 0x80108000 then 0xFA else 0) 0x80400000 0x80401000) 0x80401000 0).

(** The second one boots the machine. *)
Definition three : smp :=
  mkSmp (mkHw (mkBus 1 0 [Halted; Running [] 0 0 0; Halted] 0 (λ _, 0)) [0; 1; 2] 1 true 3 0 0xFEE00000 0 [])
    three_mem [false; false; false] false 0.

Lemma three_free : kmem_ok 0x80400000 three_mem [0x80400000; 0x80401000].
Proof.
  split_and!; [done | | |].
  - cbn [chain]. split; [reflexivity |]. split; [reflexivity | reflexivity].
  - repeat constructor; discriminate.
  - repeat constructor; set_solver.
Qed.

Lemma startothers_starts_witness :
  wp (startothers 0xFEE00000 (λ i, 5 * i)%nat 0x80108000 100 0x80102000 0x80109000 0 20) (λ _ s',
    ∃ stack : nat → Z,
      (∀ i, (i < 3)%nat → i ≠ 1%nat → stack i ∈ take (3 - 1) [0x80400000; 0x80401000] ∧ s_started s' !! i = Some true ∧
         b_aps (h_dev (s_hw s')) !! i =
           Some (Running (bytes_at (k_mem three_mem) 0x80108000 100) (w32 (stack i + KSTACKSIZE)) 0x80102000 (v2p 0x80109000))) ∧
      (∀ i j, (i < 3)%nat → (j < 3)%nat → i ≠ 1%nat → j ≠ 1%nat → stack i = stack j → i = j) ∧
      b_aps (h_dev (s_hw s')) !! 1%nat = [Halted; Running [] 0 0 0; Halted] !! 1%nat ∧
      kmem_ok 0x80400000 (s_mem s') (drop (3 - 1) [0x80400000; 0x80401000])) three.
Proof.
  apply (startothers_starts 0xFEE00000 (λ i, 5 * i)%nat 0x80108000 100 0x80102000 0x80109000 0 0x80400000 1 3 20
           [Halted; Running [] 0 0 0; Halted] 0 three_mem); unfold KERNBASE, PHYSTOP, NCPU; try lia.
  - split; reflexivity.
  - reflexivity.
  - repeat constructor.
  - exact three_free.
  - cbn [length]. lia.
Defined.
