(* ===== verification/Philosophers.v ===== *)
(** * Dining philosophers (mp3/3_philosophers.py): footman and left-handed

    Two solutions in which a philosopher is a thread that acquires and releases
    locks in a fixed order.  A thread is the list of the operations it still has to
    do; the threads interleave, one operation at a time, and an acquire of a lock
    or semaphore that has no permit left waits.  Releasing a [Lock] that is not held
    raises an exception in Python and is an error here.

    What holds of every such program: permits are conserved, and each step brings
    the end nearer.  The theorems: under every schedule no two neighbours eat at the
    same time, nothing raises an exception, and the threads do not get stuck before
    every philosopher has had all meals. *)

From stdpp Require Import base numbers list relations.
From Stdlib Require Import ZArith Lia.
From S2P Require Import Prelude.

#[local] Open Scope nat_scope.

(** ** Threads *)

(** The semaphore and the locks -- src/mp3/3_philosophers.py:96-96 *)
Inductive res :=
  | Footman
  | Fork (f : nat).

#[export] Instance res_eq_dec : EqDecision res.
Proof. solve_decision. Defined.

(** [Eat] is the call of [slow_down] between the forks. *)
Inductive instr :=
  | Acquire (r : res)
  | Release (r : res)
  | Eat.

#[export] Instance instr_eq_dec : EqDecision instr.
Proof. solve_decision. Defined.

(** Permits, and what is left to do of each thread. *)
Record dining := mkDining {
  permits : res → nat;
  threads : list (list instr);
}.

Definition put (r : res) (v : nat) (s : res → nat) : res → nat := λ x, if decide (x = r) then v else s x.

Inductive answer :=
  | Moves (s : dining)
  | Waits
  | Raises
  | Finished.

(** The next operation of thread [i]. *)
Definition run_thread (i : nat) (s : dining) : answer :=
  match threads s !! i with
  | None | Some [] => Finished
  | Some (Eat :: p) => Moves (mkDining (permits s) (<[i := p]> (threads s)))
  | Some (Acquire r :: p) =>
      match permits s r with
      | O => Waits
      | S v => Moves (mkDining (put r v (permits s)) (<[i := p]> (threads s)))
      end
  | Some (Release r :: p) =>
      match r with
      | Fork _ => if permits s r =? 0 then Moves (mkDining (put r 1 (permits s)) (<[i := p]> (threads s))) else Raises
      | Footman => Moves (mkDining (put r (S (permits s r)) (permits s)) (<[i := p]> (threads s)))
      end
  end.

Definition dstep (s s' : dining) : Prop := ∃ i, run_thread i s = Moves s'.

(** ** The solutions *)

Section solutions.
Context (NUM_PHILOSOPHERS NUM_MEALS : nat).

(** src/mp3/3_philosophers.py:38-39 *)
Definition left (i : nat) : nat := i.
(** src/mp3/3_philosophers.py:41-42 *)
Definition right (i : nat) : nat := (i + 1) `mod` NUM_PHILOSOPHERS.
(** src/mp3/3_philosophers.py:44-47 *)
Definition get_forks (i : nat) : list instr := [Acquire (Fork (right i)); Acquire (Fork (left i))].
(** src/mp3/3_philosophers.py:49-52 *)
Definition put_forks (i : nat) : list instr := [Release (Fork (right i)); Release (Fork (left i))].
(** src/mp3/3_philosophers.py:54-57 *)
Definition get_forks_left (i : nat) : list instr := [Acquire (Fork (left i)); Acquire (Fork (right i))].

(** src/mp3/3_philosophers.py:97-104 *)
Definition footman_solution (thread_id : nat) : list instr :=
  concat (replicate NUM_MEALS
    ([Acquire Footman] ++ get_forks thread_id ++ [Eat] ++ put_forks thread_id ++ [Release Footman])).

(** The state when the threads start -- src/mp3/3_philosophers.py:106-116 *)
Definition run_footman : dining :=
  mkDining (λ r, match r with Footman => NUM_PHILOSOPHERS - 1 | Fork _ => 1 end)
    (map footman_solution (seq 0 NUM_PHILOSOPHERS)).

(** src/mp3/3_philosophers.py:120-130 *)
Definition left_handed_solution (thread_id : nat) : list instr :=
  concat (replicate NUM_MEALS
    ((if thread_id =? NUM_PHILOSOPHERS - 1 then get_forks_left thread_id else get_forks thread_id)
     ++ [Eat] ++ put_forks thread_id)).

(** src/mp3/3_philosophers.py:132-142 *)
Definition run_left : dining :=
  mkDining (λ r, match r with Footman => NUM_PHILOSOPHERS - 1 | Fork _ => 1 end)
    (map left_handed_solution (seq 0 NUM_PHILOSOPHERS)).
End solutions.

(** ** What holds of all such programs *)

(** How many permits of [r] a thread holds: what it will release and not acquire. *)
Fixpoint held (r : res) (p : list instr) : Z :=
  match p with
  | [] => 0
  | Acquire x :: p => (if decide (x = r) then -1 else 0) + held r p
  | Release x :: p => (if decide (x = r) then 1 else 0) + held r p
  | Eat :: p => held r p
  end%Z.

Fixpoint total (r : res) (ts : list (list instr)) : Z :=
  match ts with [] => 0 | p :: ts => held r p + total r ts end%Z.
Fixpoint to_do (ts : list (list instr)) : nat :=
  match ts with [] => 0 | p :: ts => length p + to_do ts end.

Lemma held_app r p q : (held r (p ++ q) = held r p + held r q)%Z.
Proof. induction p as [| [x | x |] p IH]; cbn; lia. Qed.

Lemma held_rounds r body m : held r body = 0%Z → held r (concat (replicate m body)) = 0%Z.
Proof. intros H. induction m as [| m IH]; cbn; [done |]. rewrite held_app. lia. Qed.

Lemma total_insert r ts i p q : ts !! i = Some p → (total r (<[i := q]> ts) = total r ts - held r p + held r q)%Z.
Proof.
  revert i. induction ts as [| x ts IH]; intros [| i] E; simpl in *; [done | done | injection E as ->; lia |].
  rewrite (IH i E). lia.
Qed.

Lemma to_do_insert ts i x p : ts !! i = Some (x :: p) → to_do ts = S (to_do (<[i := p]> ts)).
Proof.
  revert i. induction ts as [| y ts IH]; intros [| i] E; simpl in *; [done | done | injection E as ->; done |].
  rewrite (IH i E). lia.
Qed.

Lemma held_le_total r ts i p : Forall (λ q, 0 ≤ held r q)%Z ts → ts !! i = Some p → (held r p ≤ total r ts)%Z.
Proof.
  intros H. revert i. induction H as [| x ts Hx Hts IH]; intros [| i] E; cbn in *; try done.
  - injection E as ->. assert (0 ≤ total r ts)%Z by (clear - Hts; induction Hts; cbn; lia). lia.
  - specialize (IH i E). lia.
Qed.

Lemma held_le_total2 r ts i j p q :
  Forall (λ q, 0 ≤ held r q)%Z ts → i ≠ j → ts !! i = Some p → ts !! j = Some q → (held r p + held r q ≤ total r ts)%Z.
Proof.
  intros H. revert i j. induction H as [| x ts Hx Hts IH]; intros [| i] [| j] Hij Ei Ej; cbn in *; try done.
  - injection Ei as ->. pose proof (held_le_total r ts j q Hts Ej). lia.
  - injection Ej as ->. pose proof (held_le_total r ts i p Hts Ei). lia.
  - assert (i ≠ j) by congruence. specialize (IH i j H Ei Ej). lia.
Qed.

(** A permit that is not there is somewhere. *)
Lemma total_pos r ts : (0 < total r ts)%Z → ∃ i p, ts !! i = Some p ∧ (0 < held r p)%Z.
Proof.
  induction ts as [| x ts IH]; cbn; [lia |]. intros H. destruct (decide (0 < held r x)%Z) as [Hx | Hx]; [by exists 0, x |].
  destruct IH as (i & p & E & Hp); [lia |]. by exists (S i), p.
Qed.

Lemma total_zero r ts : Forall (λ p, held r p = 0%Z) ts → total r ts = 0%Z.
Proof. induction 1; cbn; lia. Qed.

Lemma total_each r ts : Forall (λ p, held r p = 1%Z) ts → total r ts = Z.of_nat (length ts).
Proof. induction 1; cbn; lia. Qed.

(** Permits are conserved, and a step is one operation less. *)
Lemma run_thread_spec i s s' :
  run_thread i s = Moves s' →
  ∃ x p, threads s !! i = Some (x :: p) ∧ threads s' = <[i := p]> (threads s) ∧
    ∀ r, (Z.of_nat (permits s' r) + total r (threads s') = Z.of_nat (permits s r) + total r (threads s))%Z.
Proof.
  unfold run_thread. destruct (threads s !! i) as [[| x p] |] eqn:E; [done | | done]. intros H. exists x, p.
  split; [done |]. destruct x as [y | y |].
  - destruct (permits s y) as [| v] eqn:Ev; [done |]. injection H as <-. split; [done |]. intros r. cbn [threads permits].
    rewrite (total_insert _ _ _ _ _ E). unfold put. cbn [held]. repeat case_decide; subst; try done; lia.
  - destruct y as [| f].
    + injection H as <-. split; [done |]. intros r. cbn [threads permits].
      rewrite (total_insert _ _ _ _ _ E). unfold put. cbn [held]. repeat case_decide; subst; try done; lia.
    + destruct (Nat.eqb_spec (permits s (Fork f)) 0) as [Ev |]; [| done]. injection H as <-. split; [done |]. intros r. cbn [threads permits].
      rewrite (total_insert _ _ _ _ _ E). unfold put. cbn [held]. repeat case_decide; subst; try done; lia.
  - injection H as <-. split; [done |]. intros r. cbn [threads permits]. rewrite (total_insert _ _ _ _ _ E). cbn [held]. lia.
Qed.

(** ** Rounds of a body *)

(** Where a thread that repeats [body] can be: at its end, or [j] operations into a
    round, with [m] more rounds to go. *)
Definition in_round (body p : list instr) : Prop :=
  p = [] ∨ ∃ j m, j < length body ∧ p = drop j body ++ concat (replicate m body).

Lemma in_round_start body m : in_round body (concat (replicate m body)).
Proof.
  destruct m as [| m]; [by left |]. destruct body as [| x body].
  - left. by induction m.
  - right. exists 0, m. split; [cbn; lia | done].
Qed.

Lemma in_round_next body x p : in_round body (x :: p) → in_round body p.
Proof.
  intros [? | (j & m & Hj & E)]; [done |]. destruct (drop j body) as [| y q] eqn:Ed.
  - apply (f_equal length) in Ed. rewrite length_drop in Ed. cbn in Ed. lia.
  - injection E as -> ->. assert (Eq : q = drop (S j) body) by (by rewrite <- Nat.add_1_r, <- drop_drop, Ed).
    destruct (decide (S j < length body)) as [Hl | Hl].
    + right. exists (S j), m. by rewrite Eq.
    + rewrite Eq, drop_ge by lia. apply in_round_start.
Qed.

Section rounds.
Context (n rounds : nat) (body : nat → list instr) (init : res → nat).
Context (Hbal : ∀ i r, held r (body i) = 0%Z).

Definition start : dining := mkDining init (map (λ i, concat (replicate rounds (body i))) (seq 0 n)).

(** After [k] steps. *)
Record running (k : nat) (s : dining) : Prop := {
  ru_len : length (threads s) = n;
  ru_round : ∀ i p, threads s !! i = Some p → in_round (body i) p;
  ru_total : ∀ r, (Z.of_nat (permits s r) + total r (threads s) = Z.of_nat (init r))%Z;
  ru_steps : k + to_do (threads s) = to_do (threads start);
}.

Lemma running_start : running 0 start.
Proof using Hbal.
  split.
  - cbn. by rewrite length_map, length_seq.
  - intros i p E. cbn [threads start] in E. apply list_lookup_fmap_Some in E as (x & -> & Ex).
    apply lookup_seq in Ex as [-> _]. apply in_round_start.
  - intros r. cbn [permits threads start]. rewrite total_zero; [lia |]. apply Forall_map, Forall_true. intros i. by apply held_rounds.
  - done.
Qed.

Lemma running_step k s s' : running k s → dstep s s' → running (S k) s'.
Proof using Type.
  intros [Hl Hr Ht Hs] [i Hi]. destruct (run_thread_spec i s s' Hi) as (x & p & E & Ets & Hc). split.
  - by rewrite Ets, length_insert.
  - intros j q. rewrite Ets. destruct (decide (j = i)) as [-> | Hne].
    + rewrite list_lookup_insert_eq by (by eapply lookup_lt_Some). intros [= <-]. by apply (in_round_next _ x), Hr.
    + rewrite list_lookup_insert_ne by done. apply Hr.
  - intros r. by rewrite Hc.
  - rewrite Ets. rewrite (to_do_insert _ _ _ _ E) in Hs. lia.
Qed.

Lemma running_reach k s : nsteps dstep k start s → running k s.
Proof using Hbal.
  assert (H : ∀ j s0 s1, nsteps dstep j s0 s1 → ∀ k0, running k0 s0 → running (k0 + j) s1).
  { induction 1 as [s0 | j s0 s1 s2 H1 H2 IH]; intros k0 Hr; [by rewrite Nat.add_0_r |].
    replace (k0 + S j) with (S k0 + j) by lia. apply IH. by eapply running_step. }
  intros Hk. apply (H k _ _ Hk 0), running_start.
Qed.
End rounds.

(** ** The table *)

Section table.
Context (n : nat) (Hn : 2 ≤ n).

Lemma right_lt i : i < n → right n i < n.
Proof using Hn. intros Hi. unfold right. apply Nat.mod_upper_bound. lia. Qed.

Lemma right_cases i : i < n → right n i = S i ∧ S i < n ∨ right n i = 0 ∧ S i = n.
Proof using Hn.
  intros Hi. unfold right. rewrite Nat.add_1_r. destruct (decide (S i = n)) as [E | E].
  - right. rewrite E, Nat.Div0.mod_same. done.
  - left. rewrite Nat.mod_small by lia. lia.
Qed.

Lemma right_ne i : i < n → right n i ≠ i.
Proof using Hn. intros Hi. destruct (right_cases i Hi); lia. Qed.

Lemma right_inj i j : i < n → j < n → right n i = right n j → i = j.
Proof using Hn. intros Hi Hj. destruct (right_cases i Hi), (right_cases j Hj); lia. Qed.

(** What one has if one's right neighbour has it, all have. *)
Lemma around (P : nat → Prop) i : i < n → P i → (∀ j, j < n → P (right n j) → P j) → ∀ j, j < n → P j.
Proof using Hn.
  intros Hi HP Hstep.
  assert (Hdown : ∀ k, k < n → P k → ∀ j, j ≤ k → P j).
  { induction k as [| k IH]; intros Hk HPk j Hj; [by replace j with 0 by lia |].
    destruct (decide (j = S k)) as [-> | Hne]; [done |]. apply IH; [lia | | lia]. apply Hstep; [lia |].
    destruct (right_cases k ltac:(lia)) as [[-> _] | [_ ?]]; [done | lia]. }
  assert (Hlast : P (n - 1)).
  { apply Hstep; [lia |]. destruct (right_cases (n - 1) ltac:(lia)) as [[_ ?] | [-> _]]; [lia |]. apply (Hdown i); [done | done | lia]. }
  intros j Hj. apply (Hdown (n - 1)); [lia | done | lia].
Qed.
End table.

Definition eating (i : nat) (s : dining) : Prop := ∃ p, threads s !! i = Some (Eat :: p).
Definition all_done (s : dining) : Prop := Forall (λ p, p = []) (threads s).

(** What every schedule of a good solution has, for [n] philosophers whose threads
    have [k] operations in all: neighbours do not eat at the same time, no exception is
    raised, after at most [k] operations all is over, and until then some thread moves. *)
Definition dines (n k : nat) (s0 : dining) : Prop :=
  ∀ j s, nsteps dstep j s0 s →
    (∀ i, i < n → eating i s → ¬ eating (right n i) s) ∧
    (∀ i, run_thread i s ≠ Raises) ∧
    j ≤ k ∧ (if decide (j = k) then all_done s else ∃ s', dstep s s').

(** Either a thread moves or all of them wait or are at their end. *)
Definition stuck (s : dining) : Prop := ∀ i s', run_thread i s ≠ Moves s'.

Definition moves (a : answer) : bool := if a is Moves _ then true else false.

Lemma stuck_dec s : stuck s ∨ ∃ s', dstep s s'.
Proof.
  destruct (decide (Exists (λ i, moves (run_thread i s) = true) (seq 0 (length (threads s))))) as [H | H].
  - right. apply Exists_exists in H as (i & _ & Hi). destruct (run_thread i s) as [s' | | |] eqn:E; try done. exists s', i. exact E.
  - left. intros i s' E. apply H, Exists_exists. exists i. rewrite E. split; [| done]. apply elem_of_seq.
    split; [lia |]. apply Nat.nle_gt. intros Hi. unfold run_thread in E. rewrite lookup_ge_None_2 in E by lia. done.
Qed.

Lemma to_do_zero ts : to_do ts = 0 ↔ Forall (λ p, p = []) ts.
Proof.
  induction ts as [| [| x p] ts IH]; cbn; split; try done; intros H.
  - constructor; [done | by apply IH].
  - apply Forall_cons in H as [_ H]. by apply IH.
  - by apply Forall_cons in H as [? _].
Qed.

(** What remains to be shown of a solution: no neighbours eat, no exception, and
    nobody is stuck before the end. *)
Lemma dines_intro n rounds body init :
  (∀ i r, held r (body i) = 0%Z) →
  (∀ j s, running n rounds body init j s →
     (∀ i, i < n → eating i s → ¬ eating (right n i) s) ∧ (∀ i, run_thread i s ≠ Raises) ∧ (stuck s → all_done s)) →
  dines n (to_do (threads (start n rounds body init))) (start n rounds body init).
Proof.
  intros Hbal H j s Hj. apply (running_reach n rounds body init Hbal) in Hj as Hr. destruct (H j s Hr) as (H1 & H2 & H3).
  pose proof (ru_steps _ _ _ _ _ _ Hr) as Hs. split_and!; [done | done | lia |]. case_decide as Hd.
  - apply to_do_zero. lia.
  - destruct (stuck_dec s) as [Hst | ?]; [| done]. apply H3, to_do_zero in Hst. lia.
Qed.

(** Forks are exclusive: what both solutions share. *)
Section forks.
Context (n rounds : nat) (Hn : 2 ≤ n) (body : nat → list instr) (init : res → nat).
Context (Hfork : ∀ f, init (Fork f) = 1).
Context (Hpos : ∀ i p r, i < n → in_round (body i) p → (0 ≤ held r p)%Z).

Lemma nobody_owes k s r : running n rounds body init k s → Forall (λ p, 0 ≤ held r p)%Z (threads s).
Proof using Hpos.
  intros R. apply Forall_lookup. intros i p E. apply (Hpos i); [| by apply (ru_round _ _ _ _ _ _ R)].
  rewrite <- (ru_len _ _ _ _ _ _ R). by eapply lookup_lt_Some.
Qed.

Lemma neighbours_apart k s i :
  (∀ i q, i < n → in_round (body i) (Eat :: q) → held (Fork i) (Eat :: q) = 1%Z ∧ held (Fork (right n i)) (Eat :: q) = 1%Z) →
  running n rounds body init k s → i < n → eating i s → ¬ eating (right n i) s.
Proof using Hn Hfork Hpos.
  intros Heat R Hi [p Ep] [q Eq]. pose proof (right_ne n Hn i Hi) as Hne. pose proof (right_lt n Hn i Hi) as Hr.
  destruct (Heat i p Hi (ru_round _ _ _ _ _ _ R _ _ Ep)) as [_ H1]. destruct (Heat _ q Hr (ru_round _ _ _ _ _ _ R _ _ Eq)) as [H2 _].
  assert (Hne' : i ≠ right n i) by congruence.
  pose proof (held_le_total2 _ _ _ _ _ _ (nobody_owes k s (Fork (right n i)) R) Hne' Ep Eq).
  pose proof (ru_total _ _ _ _ _ _ R (Fork (right n i))) as Ht. rewrite Hfork in Ht. lia.
Qed.

Lemma no_exception k s i :
  (∀ i f q, i < n → in_round (body i) (Release (Fork f) :: q) → held (Fork f) (Release (Fork f) :: q) = 1%Z) →
  running n rounds body init k s → run_thread i s ≠ Raises.
Proof using Hfork Hpos Hn.
  intros Hput R. unfold run_thread. destruct (threads s !! i) as [[| [r | r |] p] |] eqn:E; try done.
  { by destruct (permits s r). }
  destruct r as [| f]; [done |]. destruct (Nat.eqb_spec (permits s (Fork f)) 0) as [| Hz]; [done |].
  assert (Hi : i < n) by (rewrite <- (ru_len _ _ _ _ _ _ R); by eapply lookup_lt_Some).
  pose proof (Hput i f p Hi (ru_round _ _ _ _ _ _ R _ _ E)).
  pose proof (held_le_total _ _ _ _ (nobody_owes k s (Fork f) R) E).
  pose proof (ru_total _ _ _ _ _ _ R (Fork f)) as Ht. rewrite Hfork in Ht. lia.
Qed.

(** A fork that is taken is in the hands of a philosopher. *)
Lemma holder k s f :
  running n rounds body init k s → permits s (Fork f) = 0 → ∃ i p, i < n ∧ threads s !! i = Some p ∧ (0 < held (Fork f) p)%Z.
Proof using Hfork Hn.
  intros R Hz. pose proof (ru_total _ _ _ _ _ _ R (Fork f)) as Ht. rewrite Hfork, Hz in Ht.
  destruct (total_pos (Fork f) (threads s)) as (i & p & E & Hp); [lia |]. exists i, p. split_and!; [| done | done].
  rewrite <- (ru_len _ _ _ _ _ _ R). by eapply lookup_lt_Some.
Qed.

(** In a stuck state a thread waits in front of an acquire, or is at its end. *)
Lemma stuck_waits k s i p :
  running n rounds body init k s → (∀ i, run_thread i s ≠ Raises) → stuck s → threads s !! i = Some p →
  p = [] ∨ ∃ r q, p = Acquire r :: q ∧ permits s r = 0.
Proof using Type.
  intros R Hr Hs E. specialize (Hr i). specialize (Hs i). unfold run_thread in *. rewrite E in *.
  destruct p as [| [r | r |] p]; [by left | | |].
  - right. exists r, p. split; [done |]. destruct (permits s r); [done |]. by edestruct Hs.
  - destruct r as [| f]; [by edestruct Hs |]. destruct (permits s (Fork f) =? 0); [by edestruct Hs | done].
  - by edestruct Hs.
Qed.
End forks.

(** ** The footman *)

Section footman.
Context (n : nat) (Hn : 2 ≤ n).

Definition foot_body (i : nat) : list instr :=
  [Acquire Footman] ++ get_forks n i ++ [Eat] ++ put_forks n i ++ [Release Footman].

Definition seats (r : res) : nat := match r with Footman => n - 1 | Fork _ => 1 end.

Lemma foot_bal i r : held r (foot_body i) = 0%Z.
Proof using Type. clear Hn. cbn. repeat case_decide; lia. Qed.

(** What a thread does next, and what it holds then. *)
Inductive foot_at (i : nat) : list instr → Prop :=
  | ft_end : foot_at i []
  | ft_top q : (∀ r, held r (Acquire Footman :: q) = 0%Z) → foot_at i (Acquire Footman :: q)
  | ft_seated q : held Footman (Acquire (Fork (right n i)) :: q) = 1%Z →
      (∀ f, held (Fork f) (Acquire (Fork (right n i)) :: q) = 0%Z) → foot_at i (Acquire (Fork (right n i)) :: q)
  | ft_one q : held Footman (Acquire (Fork i) :: q) = 1%Z →
      (∀ f, held (Fork f) (Acquire (Fork i) :: q) = if decide (right n i = f) then 1%Z else 0%Z) → foot_at i (Acquire (Fork i) :: q)
  | ft_eat q : held (Fork i) (Eat :: q) = 1%Z → held (Fork (right n i)) (Eat :: q) = 1%Z → foot_at i (Eat :: q)
  | ft_put f q : held (Fork f) (Release (Fork f) :: q) = 1%Z → foot_at i (Release (Fork f) :: q)
  | ft_leave q : foot_at i (Release Footman :: q).

Lemma foot_cases i p : i < n → in_round (foot_body i) p → foot_at i p ∧ ∀ r, (0 ≤ held r p)%Z.
Proof using Hn.
  intros Hi. pose proof (right_ne n Hn i Hi) as Hne. intros [-> | (j & m & Hj & ->)]; [by split; [constructor | cbn] |].
  assert (H : ∀ r, held r (concat (replicate m (foot_body i))) = 0%Z) by (intros r; apply held_rounds, foot_bal).
  revert H. generalize (concat (replicate m (foot_body i))). intros rest H.
  unfold foot_body, get_forks, put_forks, left in *. cbn [app length] in Hj |- *.
  split.
  - do 7 (destruct j as [| j]; [cbn [drop app]; first [apply ft_top | apply ft_seated | apply ft_one | apply ft_eat | apply ft_put | apply ft_leave];
      intros; cbn [held]; rewrite H; repeat case_decide; subst; congruence || lia |]). lia.
  - intros r. do 7 (destruct j as [| j]; [cbn [drop app held]; rewrite H; repeat case_decide; lia |]). lia.
Qed.

Section at_table.
Context (rounds k : nat) (s : dining) (R : running n rounds foot_body seats k s).
Context (Hr : ∀ i, run_thread i s ≠ Raises) (Hst : stuck s).

Lemma foot_thread i p : threads s !! i = Some p → i < n ∧ foot_at i p.
Proof using Hn R.
  intros E. assert (Hi : i < n) by (rewrite <- (ru_len _ _ _ _ _ _ R); by eapply lookup_lt_Some).
  split; [done |]. by apply foot_cases, (ru_round _ _ _ _ _ _ R).
Qed.

(** In a stuck state only one who waits for the left fork holds one, the right one. *)
Lemma foot_holder f : permits s (Fork f) = 0 → ∃ i q, i < n ∧ threads s !! i = Some (Acquire (Fork i) :: q) ∧ right n i = f.
Proof using Hn R Hr Hst.
  intros Hz. destruct (holder n rounds Hn foot_body seats (λ _, eq_refl) k s f R Hz) as (i & p & Hi & E & Hp).
  destruct (stuck_waits n rounds foot_body seats k s i p R Hr Hst E) as [-> | (r & q & -> & _)]; [cbn in Hp; lia |].
  destruct (foot_thread i _ E) as [_ Hat]. inversion Hat as [| q' H | q' H1 H2 | q' H1 H2 | | |]; subst.
  - rewrite H in Hp. lia.
  - rewrite H2 in Hp. lia.
  - rewrite H2 in Hp. case_decide; [| lia]. by exists i, q.
Qed.

Definition one_fork (i : nat) : Prop := ∃ q, threads s !! i = Some (Acquire (Fork i) :: q).

(** If one philosopher waits for the left fork, all do: more than the footman lets in. *)
Lemma foot_none i : i < n → ¬ one_fork i.
Proof using Hn R Hr Hst.
  intros Hi Hone.
  assert (Hall : ∀ j, j < n → one_fork j).
  { apply (around n Hn one_fork i Hi Hone). intros j Hj [q E].
    destruct (stuck_waits n rounds foot_body seats k s _ _ R Hr Hst E) as [| (r & q' & Eq & Hz)]; [done |].
    injection Eq as <- <-. destruct (foot_holder _ Hz) as (l & q2 & Hl & E2 & Er).
    apply (right_inj n Hn l j Hl Hj) in Er as ->. by exists q2. }
  assert (Hheld : Forall (λ p, held Footman p = 1%Z) (threads s)).
  { apply Forall_lookup. intros j p E. destruct (foot_thread j p E) as [Hj Hat]. destruct (Hall j Hj) as [q Eq].
    rewrite E in Eq. injection Eq as ->. inversion Hat as [| | q' H1 H2 | q' H1 H2 | | |]; subst; [| done].
    exfalso. by apply (right_ne n Hn j Hj). }
  pose proof (ru_total _ _ _ _ _ _ R Footman) as Ht. rewrite (total_each _ _ Hheld), (ru_len _ _ _ _ _ _ R) in Ht. cbn in Ht. lia.
Qed.

Lemma foot_stuck_done : all_done s.
Proof using Hn R Hr Hst.
  assert (Hno : ∀ f, permits s (Fork f) ≠ 0).
  { intros f Hz. destruct (foot_holder f Hz) as (i & q & Hi & E & _). apply (foot_none i Hi). by exists q. }
  assert (Hcase : ∀ i p, threads s !! i = Some p → p = [] ∨ (∀ r, held r p = 0%Z) ∧ permits s Footman = 0).
  { intros i p E. destruct (stuck_waits n rounds foot_body seats k s i p R Hr Hst E) as [-> | (r & q & -> & Hz)]; [by left |]. right.
    destruct (foot_thread i _ E) as [_ Hat]. inversion Hat; subst; try done; by destruct (Hno _ Hz). }
  apply Forall_lookup. intros i p E. destruct (Hcase i p E) as [| [_ Hz]]; [done |]. exfalso.
  assert (Hheld : Forall (λ p, held Footman p = 0%Z) (threads s)).
  { apply Forall_lookup. intros j q Eq. destruct (Hcase j q Eq) as [-> | [H _]]; [done | apply H]. }
  pose proof (ru_total _ _ _ _ _ _ R Footman) as Ht. rewrite (total_zero _ _ Hheld), Hz in Ht. cbn in Ht. lia.
Qed.
End at_table.
End footman.

Lemma to_do_start n rounds body init c :
  (∀ i, length (body i) = c) → to_do (threads (start n rounds body init)) = c * (n * rounds).
Proof.
  intros Hc. cbn [threads start]. assert (H : ∀ l, to_do (map (λ i, concat (replicate rounds (body i))) l) = c * (length l * rounds)).
  { induction l as [| i l IH]; cbn [map to_do length]; [lia |]. rewrite IH.
    assert (E : length (concat (replicate rounds (body i))) = c * rounds).
    { clear IH. induction rounds as [| m IHm]; cbn; [lia |]. rewrite length_app, IHm, Hc. lia. }
    rewrite E. lia. }
  by rewrite H, length_seq.
Qed.

(** C17: The footman solution, for any number of philosophers from two on, any number of
    meals and every schedule of the threads: no two neighbours eat at the same time,
    no lock is released that is not held, and there is no deadlock, so that
    after exactly seven operations for each meal of each philosopher all
    threads have come to their end. *)
Theorem footman_dines n meals : 2 ≤ n → dines n (7 * (n * meals)) (run_footman n meals).
Proof.
  intros Hn. change (run_footman n meals) with (start n meals (foot_body n) (seats n)).
  rewrite <- (to_do_start n meals (foot_body n) (seats n) 7) by done.
  apply dines_intro; [apply foot_bal |]. intros j s R.
  assert (Hpos : ∀ i p r, i < n → in_round (foot_body n i) p → (0 ≤ held r p)%Z)
    by (intros i p r Hi Hp; by apply (foot_cases n Hn i p Hi Hp)).
  assert (Hr : ∀ i, run_thread i s ≠ Raises).
  { intros i. apply (no_exception n meals Hn (foot_body n) (seats n) (λ _, eq_refl) Hpos j); [| done].
    intros l f q Hl Hq. destruct (foot_cases n Hn l _ Hl Hq) as [Hat _]. by inversion Hat. }
  split_and!; [| done | by apply (foot_stuck_done n Hn meals j)].
  intros i Hi. apply (neighbours_apart n meals Hn (foot_body n) (seats n) (λ _, eq_refl) Hpos j); [| done | done].
  intros l q Hl Hq. destruct (foot_cases n Hn l _ Hl Hq) as [Hat _]. by inversion Hat.
Qed.

Lemma footman_dines_witness : dines 5 (7 * (5 * 20)) (run_footman 5 20).
Proof. apply (footman_dines 5 20). lia. Defined.

(** ** The left-handed philosopher *)

Section left_handed.
Context (n : nat) (Hn : 2 ≤ n).

Definition lefty_body (i : nat) : list instr :=
  (if i =? n - 1 then get_forks_left n i else get_forks n i) ++ [Eat] ++ put_forks n i.

(** The fork taken first and the one taken next. *)
Definition fork1 (i : nat) : nat := if i =? n - 1 then i else right n i.
Definition fork2 (i : nat) : nat := if i =? n - 1 then right n i else i.

(** Everyone takes the fork with the higher number first. *)
Lemma fork_order i : i < n → fork2 i < fork1 i.
Proof using Hn.
  intros Hi. unfold fork1, fork2. destruct (Nat.eqb_spec i (n - 1)), (right_cases n Hn i Hi); lia.
Qed.

Lemma lefty_bal i r : held r (lefty_body i) = 0%Z.
Proof using Type. clear Hn. unfold lefty_body. destruct (i =? n - 1); cbn; repeat case_decide; lia. Qed.

Inductive lefty_at (i : nat) : list instr → Prop :=
  | lt_end : lefty_at i []
  | lt_top q : (∀ r, held r (Acquire (Fork (fork1 i)) :: q) = 0%Z) → lefty_at i (Acquire (Fork (fork1 i)) :: q)
  | lt_one q : (∀ f, held (Fork f) (Acquire (Fork (fork2 i)) :: q) = if decide (fork1 i = f) then 1%Z else 0%Z) →
      lefty_at i (Acquire (Fork (fork2 i)) :: q)
  | lt_eat q : held (Fork i) (Eat :: q) = 1%Z → held (Fork (right n i)) (Eat :: q) = 1%Z → lefty_at i (Eat :: q)
  | lt_put f q : held (Fork f) (Release (Fork f) :: q) = 1%Z → lefty_at i (Release (Fork f) :: q).

Lemma lefty_cases i p : i < n → in_round (lefty_body i) p → lefty_at i p ∧ ∀ r, (0 ≤ held r p)%Z.
Proof using Hn.
  intros Hi. pose proof (right_ne n Hn i Hi) as Hne. intros [-> | (j & m & Hj & ->)]; [by split; [constructor | cbn] |].
  assert (H : ∀ r, held r (concat (replicate m (lefty_body i))) = 0%Z) by (intros r; apply held_rounds, lefty_bal).
  revert H. generalize (concat (replicate m (lefty_body i))). intros rest H.
  assert (E : lefty_body i = [Acquire (Fork (fork1 i)); Acquire (Fork (fork2 i)); Eat; Release (Fork (right n i)); Release (Fork i)])
    by (unfold lefty_body, fork1, fork2; by destruct (i =? n - 1)).
  assert (Hf : fork1 i = i ∧ fork2 i = right n i ∨ fork1 i = right n i ∧ fork2 i = i)
    by (unfold fork1, fork2; destruct (i =? n - 1); [by left | by right]).
  rewrite E in *. cbn [length] in Hj. split.
  - do 5 (destruct j as [| j]; [cbn [drop app]; first [apply lt_eat | apply lt_put | apply lt_top | apply lt_one];
      intros; cbn [held]; rewrite H; repeat case_decide; destruct Hf as [[? ?] | [? ?]]; congruence || lia |]). lia.
  - intros r. do 5 (destruct j as [| j]; [cbn [drop app held]; rewrite H; repeat case_decide; destruct Hf as [[? ?] | [? ?]]; congruence || lia |]). lia.
Qed.

(** In a stuck state the fork somebody waits for is in the hands of one who waits
    for a fork with a lower number, and so on: there is none. *)
Lemma lefty_forks_free rounds k s f :
  running n rounds lefty_body (seats n) k s → (∀ i, run_thread i s ≠ Raises) → stuck s → permits s (Fork f) ≠ 0.
Proof using Hn.
  intros R Hr Hst. induction f as [f IH] using lt_wf_ind. intros Hz.
  destruct (holder n rounds Hn lefty_body (seats n) (λ _, eq_refl) k s f R Hz) as (i & p & Hi & E & Hp).
  destruct (stuck_waits n rounds lefty_body (seats n) k s i p R Hr Hst E) as [-> | (r & q & -> & Hz2)]; [cbn in Hp; lia |].
  destruct (lefty_cases i _ Hi (ru_round _ _ _ _ _ _ R _ _ E)) as [Hat _]. pose proof (fork_order i Hi).
  inversion Hat as [| q' H1 | q' H1 | |]; subst.
  - rewrite H1 in Hp. lia.
  - rewrite H1 in Hp. case_decide; [| lia]. apply (IH (fork2 i)); [lia | done].
Qed.

Lemma lefty_stuck_done rounds k s :
  running n rounds lefty_body (seats n) k s → (∀ i, run_thread i s ≠ Raises) → stuck s → all_done s.
Proof using Hn.
  intros R Hr Hst. apply Forall_lookup. intros i p E.
  assert (Hi : i < n) by (rewrite <- (ru_len _ _ _ _ _ _ R); by eapply lookup_lt_Some).
  destruct (stuck_waits n rounds lefty_body (seats n) k s i p R Hr Hst E) as [| (r & q & -> & Hz)]; [done |]. exfalso.
  destruct (lefty_cases i _ Hi (ru_round _ _ _ _ _ _ R _ _ E)) as [Hat _].
  inversion Hat; subst; by apply (lefty_forks_free rounds k s _ R Hr Hst) in Hz.
Qed.
End left_handed.

(** The left-handed solution, in the same way: with one philosopher who takes the left
    fork first, no schedule lets two neighbours eat at the same time, releases a
    lock that is not held, or ends in a deadlock; after exactly five operations
    for each meal of each philosopher all threads have come to their end. *)
Theorem left_handed_dines n meals : 2 ≤ n → dines n (5 * (n * meals)) (run_left n meals).
Proof.
  intros Hn. change (run_left n meals) with (start n meals (lefty_body n) (seats n)).
  rewrite <- (to_do_start n meals (lefty_body n) (seats n) 5) by (intros i; unfold lefty_body; by destruct (i =? n - 1)).
  apply dines_intro; [apply lefty_bal |]. intros j s R.
  assert (Hpos : ∀ i p r, i < n → in_round (lefty_body n i) p → (0 ≤ held r p)%Z)
    by (intros i p r Hi Hp; by apply (lefty_cases n Hn i p Hi Hp)).
  assert (Hr : ∀ i, run_thread i s ≠ Raises).
  { intros i. apply (no_exception n meals Hn (lefty_body n) (seats n) (λ _, eq_refl) Hpos j); [| done].
    intros l f q Hl Hq. destruct (lefty_cases n Hn l _ Hl Hq) as [Hat _]. by inversion Hat. }
  split_and!; [| done | by apply (lefty_stuck_done n Hn meals j)].
  intros i Hi. apply (neighbours_apart n meals Hn (lefty_body n) (seats n) (λ _, eq_refl) Hpos j); [| done | done].
  intros l q Hl Hq. destruct (lefty_cases n Hn l _ Hl Hq) as [Hat _]. by inversion Hat.
Qed.

Lemma left_handed_dines_witness : dines 5 (5 * (5 * 20)) (run_left 5 20).
Proof. apply (left_handed_dines 5 20). lia. Defined.
