(* ===== verification/Tanenbaum.v ===== *)
(** * Dining philosophers (mp3/3_philosophers.py): Tanenbaum's solution

    A hungry philosopher eats when no neighbour does, and one who has finished lets
    the neighbours try.  After [rendezvousPoint] meals everyone waits for the others
    at a barrier.  The threads interleave; the code under [mutex] does not block
    and is one step, as all accesses to [state] and [mealsEaten] are under it.  The
    barrier lets all threads go when the last one arrives.

    The theorem: under every schedule no two neighbours eat at the same time and all
    threads come to their end: neither the semaphores nor the barrier ever leave
    everybody waiting. *)

From stdpp Require Import base numbers list relations sets.
From Stdlib Require Import ZArith Lia.
From S2P Require Import Prelude.

#[local] Open Scope nat_scope.

(** src/mp3/3_philosophers.py:22-22 *)
Inductive philosopher := THINKING | HUNGRY | EATING.

#[export] Instance philosopher_eq_dec : EqDecision philosopher.
Proof. solve_decision. Defined.

(** Where a thread is, with the number of meals after the present one. *)
Inductive tpc :=
  | Top (m : nat)         (** at the head of the loop, [m] rounds to go *)
  | Arrive (m : nat)      (** in front of [eatenEnough.wait] *)
  | Wait (m : nat)        (** in it *)
  | Reset (m : nat)       (** in front of [resetMeals] *)
  | Get (m : nat)         (** in front of [tget_forks] *)
  | Sem (m : nat)         (** in front of [phil[i].acquire] *)
  | Dine (m : nat).       (** with the forks, in front of [tput_forks] *)

(** [arrived] is the number of threads in the barrier -- src/mp3/3_philosophers.py:23-31 *)
Record table := mkTable {
  state : nat → philosopher;
  mealsEaten : nat → nat;
  phil : nat → nat;
  arrived : nat;
  pc : nat → tpc;
}.

Definition set {A} (f : nat → A) (i : nat) (x : A) : nat → A := λ j, if j =? i then x else f j.
Definition put_state v t := mkTable v (mealsEaten t) (phil t) (arrived t) (pc t).
Definition put_meals v t := mkTable (state t) v (phil t) (arrived t) (pc t).
Definition put_phil v t := mkTable (state t) (mealsEaten t) v (arrived t) (pc t).
Definition put_arrived v t := mkTable (state t) (mealsEaten t) (phil t) v (pc t).
Definition put_pc v t := mkTable (state t) (mealsEaten t) (phil t) (arrived t) v.
Definition goto (i : nat) (p : tpc) (t : table) : table := put_pc (set (pc t) i p) t.

Section tanenbaum.
Context (NUM_PHILOSOPHERS NUM_MEALS : nat).

(** src/mp3/3_philosophers.py:61-62 *)
Definition tleft (i : nat) : nat := (i + (NUM_PHILOSOPHERS - 1)) `mod` NUM_PHILOSOPHERS.
(** src/mp3/3_philosophers.py:64-65 *)
Definition tright (i : nat) : nat := (i + 1) `mod` NUM_PHILOSOPHERS.

(** src/mp3/3_philosophers.py:82-88 *)
Definition test (i : nat) (t : table) : table :=
  if bool_decide (state t i = HUNGRY) && negb (bool_decide (state t (tleft i) = EATING))
     && negb (bool_decide (state t (tright i) = EATING))
  then put_phil (set (phil t) i (phil t i + 1)) (put_state (set (state t) i EATING) t)
  else t.

(** The part under [mutex]; [Sem] is what follows -- src/mp3/3_philosophers.py:67-72 *)
Definition tget_forks (i : nat) (t : table) : table := test i (put_state (set (state t) i HUNGRY) t).

(** src/mp3/3_philosophers.py:74-80 *)
Definition tput_forks (i : nat) (t : table) : table :=
  let t := put_state (set (state t) i THINKING) t in
  let t := put_meals (set (mealsEaten t) i (mealsEaten t i + 1)) t in
  test (tleft i) (test (tright i) t).

(** src/mp3/3_philosophers.py:147-149 *)
Definition resetMeals (i : nat) (t : table) : table := put_meals (set (mealsEaten t) i 0) t.

(** src/mp3/3_philosophers.py:173-177 *)
Definition rendezvousPoint : nat :=
  if NUM_PHILOSOPHERS <=? NUM_MEALS then NUM_MEALS / NUM_PHILOSOPHERS else NUM_PHILOSOPHERS / NUM_MEALS.

(** The barrier opens: who waits in it goes on. *)
Definition opened (p : tpc) : tpc := match p with Wait m => Reset m | p => p end.

(** The next step of thread [i], if it has one -- src/mp3/3_philosophers.py:151-164 *)
Definition tanenbaum_solution (i : nat) (t : table) : option table :=
  match pc t i with
  | Top 0 => None
  | Top (S m) => Some (goto i (if mealsEaten t i =? rendezvousPoint then Arrive m else Get m) t)
  | Arrive m =>
      if S (arrived t) =? NUM_PHILOSOPHERS
      then Some (put_arrived 0 (put_pc (λ j, opened (set (pc t) i (Wait m) j)) t))
      else Some (put_arrived (S (arrived t)) (goto i (Wait m) t))
  | Wait _ => None
  | Reset m => Some (goto i (Get m) (resetMeals i t))
  | Get m => Some (goto i (Sem m) (tget_forks i t))
  | Sem m =>
      match phil t i with
      | O => None
      | S v => Some (goto i (Dine m) (put_phil (set (phil t) i v) t))
      end
  | Dine m => Some (goto i (Top m) (tput_forks i t))
  end.

Definition tstep (t t' : table) : Prop := ∃ i, i < NUM_PHILOSOPHERS ∧ tanenbaum_solution i t = Some t'.

(** The state when the threads start -- src/mp3/3_philosophers.py:168-183 *)
Definition run_tanenbaum : table := mkTable (λ _, THINKING) (λ _, 0) (λ _, 0) 0 (λ _, Top NUM_MEALS).
End tanenbaum.

(** ** Around the table *)

Section proofs.
Context (n : nat) (Hn : 2 ≤ n).

Lemma tright_cases i : i < n → tright n i = S i ∧ S i < n ∨ tright n i = 0 ∧ S i = n.
Proof using Hn.
  intros Hi. unfold tright. rewrite Nat.add_1_r. destruct (decide (S i = n)) as [E | E].
  - right. rewrite E, Nat.Div0.mod_same. done.
  - left. rewrite Nat.mod_small by lia. lia.
Qed.

Lemma tleft_cases i : i < n → i = S (tleft n i) ∨ i = 0 ∧ S (tleft n i) = n.
Proof using Hn.
  intros Hi. unfold tleft. destruct i as [| i].
  - right. rewrite Nat.mod_small by lia. lia.
  - left. replace (S i + (n - 1)) with (i + 1 * n) by lia. rewrite Nat.Div0.mod_add, Nat.mod_small by lia. done.
Qed.

Lemma tleft_lt i : i < n → tleft n i < n.
Proof using Hn. intros Hi. destruct (tleft_cases i Hi); lia. Qed.
Lemma tright_lt i : i < n → tright n i < n.
Proof using Hn. intros Hi. destruct (tright_cases i Hi); lia. Qed.
Lemma tright_tleft i : i < n → tright n (tleft n i) = i.
Proof using Hn. intros Hi. destruct (tright_cases _ (tleft_lt i Hi)), (tleft_cases i Hi); lia. Qed.
Lemma tleft_tright i : i < n → tleft n (tright n i) = i.
Proof using Hn. intros Hi. destruct (tleft_cases _ (tright_lt i Hi)), (tright_cases i Hi); lia. Qed.
Lemma tright_ne i : i < n → tright n i ≠ i.
Proof using Hn. intros Hi. destruct (tright_cases i Hi); lia. Qed.
Lemma tleft_ne i : i < n → tleft n i ≠ i.
Proof using Hn. intros Hi. destruct (tleft_cases i Hi); lia. Qed.

(** ** The invariant *)

Context (meals : nat) (Hm : 1 ≤ meals).
Abbreviation r := (rendezvousPoint n meals).

Lemma r_pos : 0 < r.
Proof using Hn Hm.
  unfold rendezvousPoint. destruct (Nat.leb_spec n meals); apply Nat.div_str_pos; lia.
Qed.

(** What a philosopher's state is at each place, and how many meals are eaten, after
    [k] openings of the barrier. *)
Definition person_ok (k : nat) (t : table) (i : nat) : Prop :=
  let rest := state t i = THINKING ∧ phil t i = 0 in
  match pc t i with
  | Top m => rest ∧ mealsEaten t i ≤ r ∧ k * r + mealsEaten t i + m = meals
  | Arrive m | Wait m => rest ∧ mealsEaten t i = r ∧ k * r + r + S m = meals
  | Reset m => rest ∧ mealsEaten t i = r ∧ k * r + S m = meals
  | Get m => rest ∧ mealsEaten t i < r ∧ k * r + mealsEaten t i + S m = meals
  | Sem m => (state t i = HUNGRY ∧ phil t i = 0 ∨ state t i = EATING ∧ phil t i = 1) ∧
             mealsEaten t i < r ∧ k * r + mealsEaten t i + S m = meals
  | Dine m => (state t i = EATING ∧ phil t i = 0) ∧ mealsEaten t i < r ∧ k * r + mealsEaten t i + S m = meals
  end.

(** Neighbours do not eat at the same time; who is hungry and not among [X] has a
    neighbour who eats. *)
Definition fair (X : list nat) (t : table) : Prop :=
  (∀ i, i < n → state t i = EATING → state t (tright n i) ≠ EATING) ∧
  (∀ i, i < n → i ∉ X → state t i = HUNGRY → state t (tleft n i) = EATING ∨ state t (tright n i) = EATING).

Fixpoint sum (f : nat → nat) (j : nat) : nat := match j with O => 0 | S j => f j + sum f j end.

Definition waits (p : tpc) : nat := match p with Wait _ => 1 | _ => 0 end.

(** How many steps a thread has at most from here. *)
Definition cost (p : tpc) : nat :=
  match p with
  | Top m => 6 * m | Arrive m => 6 * m + 5 | Wait m | Reset m => 6 * m + 4 | Get m => 6 * m + 3 | Sem m => 6 * m + 2
  | Dine m => 6 * m + 1
  end.

Definition tinv (k : nat) (t : table) : Prop :=
  (∀ i, i < n → person_ok k t i) ∧ fair [] t ∧ arrived t = sum (λ i, waits (pc t i)) n ∧ arrived t < n.

Lemma set_eq {A} (f : nat → A) i x : set f i x i = x.
Proof using Type. unfold set. by rewrite Nat.eqb_refl. Qed.
Lemma set_ne {A} (f : nat → A) i j x : j ≠ i → set f i x j = f j.
Proof using Type. unfold set. intros H. by rewrite (proj2 (Nat.eqb_neq _ _) H). Qed.

Lemma sum_set {A} (f : A → nat) (g : nat → A) i p j :
  i < j → sum (λ l, f (set g i p l)) j + f (g i) = sum (λ l, f (g l)) j + f p.
Proof using Type.
  clear Hn Hm. induction j as [| j IH]; intros Hi; [lia |]. cbn [sum]. destruct (decide (i = j)) as [-> | Hne].
  - rewrite set_eq. assert (E : ∀ l, l ≤ j → sum (λ l, f (set g j p l)) l = sum (λ l, f (g l)) l).
    { induction l as [| l IHl]; intros Hl; [done |]. cbn [sum]. rewrite set_ne by lia. rewrite IHl by lia. done. }
    rewrite E by lia. lia.
  - rewrite set_ne by done. specialize (IH ltac:(lia)). lia.
Qed.

Lemma sum_le (f g : nat → nat) j : (∀ i, i < j → f i ≤ g i) → sum f j ≤ sum g j.
Proof using Type. clear Hn Hm. induction j as [| j IH]; intros H; [done |]. cbn. pose proof (H j ltac:(lia)). specialize (IH ltac:(auto)). lia. Qed.

(** All but one wait if so many do. *)
Lemma all_wait (g : nat → tpc) i j :
  i < j → waits (g i) = 0 → S (sum (λ l, waits (g l)) j) = j → ∀ l, l < j → l ≠ i → waits (g l) = 1.
Proof using Type.
  clear Hn Hm. intros Hi H0 Hs l Hl Hne. destruct (waits (g l)) as [| [|]] eqn:E; [| done | destruct (g l); discriminate].
  assert (Hb : ∀ m, sum (λ l, waits (g l)) m + (if i <? m then 1 else 0) + (if l <? m then 1 else 0) ≤ m).
  { induction m as [| m IH]; [done |]. cbn [sum]. assert (waits (g m) ≤ 1) by (destruct (g m); cbn; lia).
    destruct (Nat.ltb_spec i m), (Nat.ltb_spec l m), (Nat.ltb_spec i (S m)), (Nat.ltb_spec l (S m)); try lia;
      try (assert (m = i) by lia; subst m; lia); try (assert (m = l) by lia; subst m; lia). }
  specialize (Hb j). destruct (Nat.ltb_spec i j), (Nat.ltb_spec l j); lia.
Qed.

Lemma person_ext k t t' i :
  state t' i = state t i → phil t' i = phil t i → mealsEaten t' i = mealsEaten t i → pc t' i = pc t i →
  person_ok k t i → person_ok k t' i.
Proof using Type. unfold person_ok. by intros -> -> -> ->. Qed.

(** ** [test] *)

Lemma test_frame j t i : i ≠ j → state (test n j t) i = state t i ∧ phil (test n j t) i = phil t i.
Proof using Type. intros H. unfold test. case_match; [| done]. cbn. by rewrite !set_ne. Qed.

Lemma test_same j t : mealsEaten (test n j t) = mealsEaten t ∧ pc (test n j t) = pc t ∧ arrived (test n j t) = arrived t.
Proof using Type. unfold test. by case_match. Qed.

Lemma test_other j t i v : v ≠ HUNGRY → state t i = v → state (test n j t) i = v.
Proof using Type.
  intros Hv E. destruct (decide (i = j)) as [-> | Hne]; [| rewrite (proj1 (test_frame j t i Hne)); done].
  unfold test. rewrite E. rewrite bool_decide_false by done. done.
Qed.

Lemma goto_test i p j t : goto i p (test n j t) = test n j (goto i p t).
Proof using Type. unfold test, goto. cbn [state put_pc]. by destruct (_ && _). Qed.

(** [test] lets [j] eat or leaves it a neighbour who does. *)
Lemma test_fair X Y j t : j < n → fair X t → (∀ i, i ∈ X → i = j ∨ i ∈ Y) → fair Y (test n j t).
Proof using Hn.
  intros Hj [H1 H2] HX. pose proof (tright_ne j Hj) as Nr. pose proof (tleft_ne j Hj) as Nl.
  destruct (bool_decide (state t j = HUNGRY) && negb (bool_decide (state t (tleft n j) = EATING))
     && negb (bool_decide (state t (tright n j) = EATING))) eqn:Eb.
  - apply andb_true_iff in Eb as [Eb E3]. apply andb_true_iff in Eb as [E1 E2].
    apply bool_decide_eq_true in E1. apply negb_true_iff, bool_decide_eq_false in E2. apply negb_true_iff, bool_decide_eq_false in E3.
    assert (Es : state (test n j t) = set (state t) j EATING).
    { unfold test. rewrite E1, bool_decide_true by done. rewrite !bool_decide_false by done. done. }
    split; intros i Hi; rewrite Es.
    + destruct (decide (i = j)) as [-> | Hne]; [rewrite (set_ne _ _ (tright n j)) by done; done |].
      rewrite set_ne by done. destruct (decide (tright n i = j)) as [E | E].
      * intros Hei. exfalso. apply E2. rewrite <- E, tleft_tright by done. done.
      * rewrite set_ne by done. by apply H1.
    + intros Hy. destruct (decide (i = j)) as [-> | Hne]; [by rewrite set_eq |]. rewrite set_ne by done. intros Hh.
      destruct (H2 i Hi) as [H | H]; [intros Hx; destruct (HX i Hx); done | done | |].
      * left. destruct (decide (tleft n i = j)) as [-> |]; [apply set_eq | by rewrite set_ne].
      * right. destruct (decide (tright n i = j)) as [-> |]; [apply set_eq | by rewrite set_ne].
  - assert (Es : test n j t = t) by (unfold test; by rewrite Eb). rewrite Es. split; [done |].
    intros i Hi Hy Hh. destruct (decide (i = j)) as [-> | Hne].
    + rewrite Hh, bool_decide_true in Eb by done. cbn [andb] in Eb. apply andb_false_iff in Eb as [E | E];
        apply negb_false_iff, bool_decide_eq_true in E; [by left | by right].
    + apply H2; [done | | done]. intros Hx. destruct (HX i Hx); done.
Qed.

Lemma test_person k j t i : person_ok k t i → person_ok k (test n j t) i.
Proof using Type.
  destruct (test_same j t) as (E1 & E2 & _). destruct (decide (i = j)) as [-> | Hne].
  - unfold person_ok. rewrite E1, E2. unfold test.
    match goal with |- context [if ?b then _ else t] => destruct b eqn:Eb; [| done] end. cbn [state phil put_phil put_state]. rewrite !set_eq.
    apply andb_true_iff in Eb as [Eb _]. apply andb_true_iff in Eb as [Eb _]. apply bool_decide_eq_true in Eb. rewrite Eb.
    destruct (pc t j); [naive_solver.. | | naive_solver]. intros [[[_ ->] | [Hx _]] Hp]; [| done]. split; [by right | done].
  - destruct (test_frame j t i Hne) as [E3 E4]. apply person_ext; [done | done | by rewrite E1 | by rewrite E2].
Qed.

(** ** The steps *)

(** A step of thread [i] that leaves the others, and what eats, alone. *)
Lemma goto_inv k t t' i p :
  i < n → tinv k t → waits (pc t i) = 0 → waits p = 0 →
  pc t' = set (pc t) i p → state t' = state t → arrived t' = arrived t →
  (∀ j, j ≠ i → phil t' j = phil t j ∧ mealsEaten t' j = mealsEaten t j) →
  person_ok k t' i → tinv k t'.
Proof using Hn Hm.
  intros Hi (Hp & Hf & Ha & Hl) Hw Hw' Epc Est Ear Hoth Hpi. split_and!.
  - intros j Hj. destruct (decide (j = i)) as [-> | Hne]; [done |]. destruct (Hoth j Hne) as [E1 E2].
    apply (person_ext k t); [by rewrite Est | done | done | by rewrite Epc, set_ne | by apply Hp].
  - unfold fair in *. by rewrite Est.
  - rewrite Ear, Epc, Ha. pose proof (sum_set waits (pc t) i p n Hi). lia.
  - by rewrite Ear.
Qed.

(** The state [t'] after changes to the states of philosophers. *)
Lemma eats_inv k t t' i p :
  i < n → tinv k t → waits (pc t i) = 0 → waits p = 0 →
  pc t' = set (pc t) i p → arrived t' = arrived t → fair [] t' →
  (∀ j, j < n → person_ok k t' j) → tinv k t'.
Proof using Hn Hm.
  intros Hi (Hp & Hf & Ha & Hl) Hw Hw' Epc Ear Hf' Hp'. split_and!; [done | done | | by rewrite Ear].
  rewrite Ear, Epc, Ha. pose proof (sum_set waits (pc t) i p n Hi). lia.
Qed.

(** [tget_forks]: who gets hungry was thinking. *)
Lemma tget_inv k t i m : i < n → tinv k t → pc t i = Get m → tinv k (goto i (Sem m) (tget_forks n i t)).
Proof using Hn Hm.
  intros Hi Hinv Epc. pose proof Hinv as (Hp & Hf & Ha & Hl). pose proof (Hp i Hi) as Hpi. unfold person_ok in Hpi.
  rewrite Epc in Hpi. destruct Hpi as ((Es & Eph) & Hme & Hk). unfold tget_forks.
  set (t1 := put_pc (set (pc t) i (Sem m)) (put_state (set (state t) i HUNGRY) t)).
  assert (E : goto i (Sem m) (test n i (put_state (set (state t) i HUNGRY) t)) = test n i t1).
  { by rewrite goto_test. }
  rewrite E. destruct (test_same i t1) as (E1 & E2 & E3).
  apply (eats_inv k t _ i (Sem m)); [done | done | by rewrite Epc | done | by rewrite E2 | by rewrite E3 | |].
  - apply (test_fair [i]); [done | | set_solver]. destruct Hf as [H1 H2]. split; intros j Hj; cbn.
    + unfold set. destruct (Nat.eqb_spec j i), (Nat.eqb_spec (tright n j) i); try done. by apply H1.
    + rewrite list_elem_of_singleton. intros Hne. rewrite set_ne by done. intros Hh.
      destruct (H2 j Hj) as [H | H]; [set_solver | done | |].
      * left. rewrite set_ne; [done |]. intros E'. rewrite E', Es in H. done.
      * right. rewrite set_ne; [done |]. intros E'. rewrite E', Es in H. done.
  - intros j Hj. apply test_person. destruct (decide (j = i)) as [-> | Hne].
    + unfold person_ok, t1. cbn. rewrite !set_eq. split; [by left | done].
    + apply (person_ext k t); unfold t1; cbn; rewrite ?set_ne by done; try done. by apply Hp.
Qed.

(** [tput_forks]: the neighbours are the only ones who may now lack a reason to wait. *)
Lemma tput_inv k t i m : i < n → tinv k t → pc t i = Dine m → tinv k (goto i (Top m) (tput_forks n i t)).
Proof using Hn Hm.
  intros Hi Hinv Epc. pose proof Hinv as (Hp & Hf & Ha & Hl). pose proof (Hp i Hi) as Hpi. unfold person_ok in Hpi.
  rewrite Epc in Hpi. destruct Hpi as ((Es & Eph) & Hme & Hk). unfold tput_forks. cbv zeta.
  set (t1 := put_pc (set (pc t) i (Top m)) (put_meals (set (mealsEaten t) i (mealsEaten t i + 1)) (put_state (set (state t) i THINKING) t))).
  assert (E : goto i (Top m) (test n (tleft n i) (test n (tright n i)
    (put_meals (set (mealsEaten (put_state (set (state t) i THINKING) t)) i (mealsEaten (put_state (set (state t) i THINKING) t) i + 1))
       (put_state (set (state t) i THINKING) t)))) = test n (tleft n i) (test n (tright n i) t1)).
  { by rewrite !goto_test. }
  rewrite E. destruct (test_same (tright n i) t1) as (E1 & E2 & E3). destruct (test_same (tleft n i) (test n (tright n i) t1)) as (G1 & G2 & G3).
  apply (eats_inv k t _ i (Top m)); [done | done | by rewrite Epc | done | by rewrite G2, E2 | by rewrite G3, E3 | |].
  - apply (test_fair [tleft n i]); [by apply tleft_lt | | set_solver].
    apply (test_fair [tleft n i; tright n i]); [by apply tright_lt | | set_solver]. destruct Hf as [H1 H2]. split; intros j Hj; cbn.
    + unfold set. destruct (Nat.eqb_spec j i), (Nat.eqb_spec (tright n j) i); try done. by apply H1.
    + intros Hx. destruct (decide (j = i)) as [-> | Hne]; [by rewrite set_eq |]. rewrite set_ne by done. intros Hh.
      destruct (H2 j Hj) as [H | H]; [set_solver | done | |].
      * left. rewrite set_ne; [done |]. intros E'. apply Hx. rewrite <- E', tright_tleft by done. set_solver.
      * right. rewrite set_ne; [done |]. intros E'. apply Hx. rewrite <- E', tleft_tright by done. set_solver.
  - intros j Hj. do 2 apply test_person. destruct (decide (j = i)) as [-> | Hne].
    + unfold person_ok, t1. cbn. rewrite !set_eq. split_and!; [done | done | lia | lia].
    + apply (person_ext k t); unfold t1; cbn; rewrite ?set_ne by done; try done. by apply Hp.
Qed.

(** The last to arrive at the barrier finds all others there. *)
Lemma open_inv k t i m :
  i < n → tinv k t → pc t i = Arrive m → S (arrived t) = n →
  tinv (S k) (put_arrived 0 (put_pc (λ j, opened (set (pc t) i (Wait m) j)) t)).
Proof using Hn Hm.
  intros Hi (Hp & Hf & Ha & Hl) Epc Har. rewrite Ha in Har.
  assert (Hw : ∀ j, j < n → ∃ l, set (pc t) i (Wait m) j = Wait l ∧ (pc t j = Wait l ∨ pc t j = Arrive l)).
  { intros j Hj. destruct (decide (j = i)) as [-> | Hne]; [rewrite set_eq; eauto |]. rewrite set_ne by done.
    pose proof (all_wait (pc t) i n Hi ltac:(by rewrite Epc) Har j Hj Hne) as H. destruct (pc t j) as [| | l | | | |]; try discriminate. eauto. }
  split_and!; [| done | | cbn; lia].
  - intros j Hj. destruct (Hw j Hj) as (l & E & Eor). specialize (Hp j Hj). unfold person_ok in *.
    cbn [pc state phil mealsEaten put_arrived put_pc]. rewrite E. cbn [opened].
    destruct Eor as [E' | E']; rewrite E' in Hp; destruct Hp as ((? & ?) & ? & ?); (split_and!; [done | done | done | rewrite Nat.mul_succ_l; lia]).
  - cbn. symmetry. assert (H : ∀ l, l ≤ n → sum (λ j, waits (opened (set (pc t) i (Wait m) j))) l = 0); [| by apply H].
    induction l as [| l IH]; intros Hll; [done |]. cbn [sum]. rewrite IH by lia. destruct (Hw l) as (x & -> & _); [lia | done].
Qed.

Lemma tstep_inv k t t' : tinv k t → tstep n meals t t' → ∃ k', tinv k' t'.
Proof using Hn Hm.
  intros Hinv (i & Hi & E). pose proof Hinv as (Hp & Hf & Ha & Hl). pose proof (Hp i Hi) as Hpi. unfold person_ok in Hpi.
  unfold tanenbaum_solution in E. destruct (pc t i) as [[| m] | m | m | m | m | m | m] eqn:Epc; try done.
  - injection E as <-. exists k. destruct Hpi as (Hr & Hle & Hk). destruct (Nat.eqb_spec (mealsEaten t i) r) as [Er | Er].
    + apply (goto_inv k t _ i (Arrive m)); try done; [by rewrite Epc |]. unfold person_ok. cbn. rewrite set_eq. split_and!; try done; try apply Hr; lia.
    + apply (goto_inv k t _ i (Get m)); try done; [by rewrite Epc |]. unfold person_ok. cbn. rewrite set_eq. split_and!; try done; try apply Hr; lia.
  - destruct (Nat.eqb_spec (S (arrived t)) n) as [En | En]; injection E as <-; [exists (S k); by apply open_inv |].
    exists k. split_and!.
    + intros j Hj. destruct (decide (j = i)) as [-> | Hne].
      * unfold person_ok. cbn. rewrite set_eq. done.
      * apply (person_ext k t); cbn; rewrite ?set_ne by done; try done. by apply Hp.
    + done.
    + cbn. pose proof (sum_set waits (pc t) i (Wait m) n Hi) as H. rewrite Epc in H. cbn [waits] in H. lia.
    + cbn. lia.
  - injection E as <-. exists k. apply (goto_inv k t _ i (Get m)); try done; [by rewrite Epc | | ].
    + intros j Hne. cbn. by rewrite set_ne.
    + pose proof r_pos. unfold person_ok. cbn. rewrite !set_eq. destruct Hpi as ((? & ?) & ? & ?). split_and!; try done; lia.
  - injection E as <-. exists k. by apply tget_inv.
  - destruct (phil t i) as [| v] eqn:Ev; [done |]. injection E as <-. exists k.
    apply (goto_inv k t _ i (Dine m)); try done; [by rewrite Epc | |].
    + intros j Hne. cbn. by rewrite set_ne.
    + unfold person_ok. cbn. rewrite !set_eq. destruct Hpi as ([[_ ?] | [? Hv]] & ? & ?); [lia |]. split_and!; try done; lia.
  - injection E as <-. exists k. by apply tput_inv.
Qed.

(** ** Progress *)

Definition work (t : table) : nat := sum (λ i, cost (pc t i)) n.

Lemma goto_work t t' i p : i < n → pc t' = set (pc t) i p → cost p < cost (pc t i) → work t' < work t.
Proof using Type. clear Hn Hm. intros Hi E Hc. unfold work. rewrite E. pose proof (sum_set cost (pc t) i p n Hi). lia. Qed.

Lemma tput_pc i t : pc (tput_forks n i t) = pc t.
Proof using Type.
  unfold tput_forks. cbv zeta. by rewrite (proj1 (proj2 (test_same _ _))), (proj1 (proj2 (test_same _ _))).
Qed.

Lemma tstep_work t t' : tstep n meals t t' → work t' < work t.
Proof using Type.
  clear Hn Hm. intros (i & Hi & E). unfold tanenbaum_solution in E.
  destruct (pc t i) as [[| m] | m | m | m | m | m | m] eqn:Epc; try done.
  - injection E as <-. eapply goto_work; [done | reflexivity |]. rewrite Epc. case_match; cbn; lia.
  - case_match; injection E as <-; [| eapply goto_work; [done | reflexivity |]; rewrite Epc; cbn; lia].
    pose proof (sum_set cost (pc t) i (Wait m) n Hi) as Hsum. rewrite Epc in Hsum. cbn [cost] in Hsum. unfold work. cbn [pc put_arrived put_pc].
    assert (sum (λ j, cost (opened (set (pc t) i (Wait m) j))) n ≤ sum (λ j, cost (set (pc t) i (Wait m) j)) n); [| lia].
    apply sum_le. intros j _. by destruct (set (pc t) i (Wait m) j).
  - injection E as <-. eapply goto_work; [done | reflexivity |]. rewrite Epc. cbn. lia.
  - injection E as <-. apply (goto_work _ _ i (Sem m)); [done | | rewrite Epc; cbn; lia].
    unfold goto, tget_forks. cbn. by rewrite (proj1 (proj2 (test_same _ _))).
  - destruct (phil t i); [done |]. injection E as <-. eapply goto_work; [done | reflexivity |]. rewrite Epc. cbn. lia.
  - injection E as <-. apply (goto_work _ _ i (Top m)); [done | | rewrite Epc; cbn; lia].
    unfold goto. cbn. by rewrite tput_pc.
Qed.

(** Who cannot go on is at the end, in the barrier, or hungry. *)
Lemma blocked_cases t i :
  i < n → (∀ t', ¬ tstep n meals t t') → pc t i = Top 0 ∨ (∃ m, pc t i = Wait m) ∨ (∃ m, pc t i = Sem m ∧ phil t i = 0).
Proof using Type.
  intros Hi Hb. assert (E : tanenbaum_solution n meals i t = None).
  { destruct (tanenbaum_solution n meals i t) as [t' |] eqn:E; [| done]. exfalso. apply (Hb t'). by exists i. }
  unfold tanenbaum_solution in E. destruct (pc t i) as [[| m] | m | m | m | m | m | m]; try done; eauto.
  - by case_match.
  - destruct (phil t i) eqn:Ev; [| done]. right. right. eauto.
Qed.

Lemma progress k t : tinv k t → (∀ t', ¬ tstep n meals t t') → ∀ i, i < n → pc t i = Top 0.
Proof using Hn Hm.
  intros (Hp & [_ Hf] & Ha & Hl) Hb.
  assert (Heat : ∀ i, i < n → state t i ≠ EATING).
  { intros i Hi Hs. pose proof (Hp i Hi) as H. unfold person_ok in H. destruct (blocked_cases t i Hi Hb) as [E | [[m E] | [m [E Ev]]]];
      rewrite E in H; [destruct H as [[H _] _]; congruence.. |]. destruct H as [[[H _] | [_ H]] _]; congruence. }
  assert (Hcase : ∀ i, i < n → pc t i = Top 0 ∨ ∃ m, pc t i = Wait m).
  { intros i Hi. destruct (blocked_cases t i Hi Hb) as [| [| [m [E Ev]]]]; [by left | by right |]. exfalso.
    pose proof (Hp i Hi) as H. unfold person_ok in H. rewrite E in H. destruct H as [[[Hh _] | [Hh _]] _]; [| by apply (Heat i Hi)].
    destruct (Hf i Hi) as [He | He]; [set_solver | done | |]; revert He; apply Heat; [by apply tleft_lt | by apply tright_lt]. }
  intros i Hi. destruct (Hcase i Hi) as [| [m Ei]]; [done |]. exfalso.
  assert (Hall : ∀ j, j < n → waits (pc t j) = 1).
  { intros j Hj. destruct (Hcase j Hj) as [Ej | [l ->]]; [| done]. exfalso. pose proof (Hp i Hi) as H1. pose proof (Hp j Hj) as H2.
    unfold person_ok in H1, H2. rewrite Ei in H1. rewrite Ej in H2. lia. }
  assert (Hs : ∀ l, l ≤ n → sum (λ j, waits (pc t j)) l = l).
  { induction l as [| l IH]; intros Hll; [done |]. cbn [sum]. rewrite IH, Hall by lia. done. }
  rewrite Ha, Hs in Hl by done. lia.
Qed.

Lemma tinv_start : tinv 0 (run_tanenbaum meals).
Proof using Hn Hm.
  split_and!.
  - intros i Hi. unfold person_ok. cbn [pc state phil mealsEaten run_tanenbaum]. split_and!; try done; lia.
  - split; intros; discriminate.
  - cbn. clear. induction n; [done | done].
  - cbn. lia.
Qed.

Lemma treach_inv j t0 t : nsteps (tstep n meals) j t0 t → ∀ k, tinv k t0 → (∃ k', tinv k' t) ∧ j + work t ≤ work t0.
Proof using Hn Hm.
  induction 1 as [t | j t0 t1 t2 H1 H2 IH]; intros k Hk; [by split; [eauto |] |].
  destruct (tstep_inv k t0 t1 Hk H1) as [k1 Hk1]. destruct (IH k1 Hk1) as [Hk2 Hw]. split; [done |].
  pose proof (tstep_work t0 t1 H1). lia.
Qed.
End proofs.

Definition dining (i : nat) (t : table) : Prop := ∃ m, pc t i = Dine m.
Definition finished (n : nat) (t : table) : Prop := ∀ i, i < n → pc t i = Top 0.

(** C16: Tanenbaum's solution with the barrier, for any number of philosophers from two on,
    any positive number of meals and every schedule: no two neighbours have their
    forks at the same time; as long as a philosopher has meals left some thread can
    go on, so that neither the semaphores nor the barrier are a deadlock; and there are
    at most six steps for each meal, so that every schedule comes to the end with
    all meals eaten. *)
Theorem tanenbaum_dines n meals j t :
  2 ≤ n → 1 ≤ meals → nsteps (tstep n meals) j (run_tanenbaum meals) t →
  (∀ i, i < n → dining i t → ¬ dining (tright n i) t) ∧ j ≤ 6 * (n * meals) ∧
  (finished n t ∨ ∃ i t', i < n ∧ tanenbaum_solution n meals i t = Some t').
Proof.
  intros Hn Hm Hj. destruct (treach_inv n Hn meals Hm j _ t Hj 0 (tinv_start n Hn meals Hm)) as [[k Hk] Hw]. split_and!.
  - intros i Hi [m Em] [l El]. destruct Hk as (Hp & [Hf _] & _). pose proof (Hp i Hi) as H1. pose proof (Hp _ (tright_lt n Hn i Hi)) as H2.
    unfold person_ok in H1, H2. rewrite Em in H1. rewrite El in H2. apply (Hf i Hi); [apply H1 | apply H2].
  - assert (E : work n (run_tanenbaum meals) = 6 * (n * meals)); [| lia].
    unfold work. cbn [pc run_tanenbaum cost]. clear. induction n as [| n IH]; cbn [sum]; lia.
  - destruct (decide (Exists (λ i, tanenbaum_solution n meals i t ≠ None) (seq 0 n))) as [H | H].
    + right. apply Exists_exists in H as (i & Hi%elem_of_seq & H). destruct (tanenbaum_solution n meals i t) as [t' |] eqn:E; [| done].
      exists i, t'. split; [lia | done].
    + left. refine (progress n Hn meals Hm k t Hk _). intros t' (i & Hi & E). apply H, Exists_exists. exists i.
      split; [apply elem_of_seq; lia | by rewrite E].
Qed.

(** Two steps into the program of the file. *)
Lemma tanenbaum_dines_witness :
  ∃ t, nsteps (tstep 5 20) 2 (run_tanenbaum 20) t ∧
    (∀ i, i < 5 → dining i t → ¬ dining (tright 5 i) t) ∧ 2 ≤ 6 * (5 * 20) ∧
    (finished 5 t ∨ ∃ i t', i < 5 ∧ tanenbaum_solution 5 20 i t = Some t').
Proof.
  eexists. assert (H : nsteps (tstep 5 20) 2 (run_tanenbaum 20)
    (goto 3 (Sem 19) (tget_forks 5 3 (goto 3 (Get 19) (run_tanenbaum 20))))).
  { eapply nsteps_l; [| apply nsteps_once]; exists 3; (split; [lia | reflexivity]). }
  split; [exact H |]. apply (tanenbaum_dines 5 20 2 _); [lia | lia | exact H].
Defined.
