(* ===== verification/Frolf.v ===== *)
(** * The disc golf range (mp3/1_disc_golf_range.py)

    Players take buckets of discs from a stash and throw them onto the field; when the
    stash has too few discs a player calls the cart, which collects the field, and
    waits for it.  Locks protect the stash and the field, two semaphores connect
    player and cart.  The cart adds to the stash without its lock.

    The threads interleave; an update of a variable is a read and a write, as it is
    in Python.  The theorem: nevertheless no disc is lost or made, and the threads
    never all wait for each other. *)

From stdpp Require Import base numbers list relations.
From Stdlib Require Import ZArith Lia.
From S2P Require Import Prelude Tanenbaum.

#[local] Open Scope nat_scope.

(** Where a player is: in front of the operation. *)
Inductive fpc :=
  | Call                      (** [stashLock.acquire] *)
  | Look                      (** [if STASH < BUCKET_SIZE] *)
  | Signal                    (** [stashEmpty.release] *)
  | Await                     (** [stashFull.acquire] *)
  | Again                     (** the second [if STASH < BUCKET_SIZE] *)
  | Give                      (** [stashLock.release; continue] *)
  | Third                     (** [if STASH >= BUCKET_SIZE] *)
  | Take                      (** [STASH -= BUCKET_SIZE]: the read *)
  | Took (v : nat)            (** the write, [v] is what was read *)
  | Leave                     (** [stashLock.release] with a bucket *)
  | Throw (k : nat)           (** [fieldLock.acquire], with [k] discs left *)
  | Count (k : nat)           (** [discs_on_field += 1]: the read *)
  | Counted (k v : nat)       (** the write *)
  | Thrown (k : nat).         (** [fieldLock.release] *)

(** Where the cart is. *)
Inductive cpc :=
  | CWait                     (** [stashEmpty.acquire] *)
  | CLock                     (** [fieldLock.acquire] *)
  | CStash                    (** [STASH += discs_on_field]: the read of [STASH] *)
  | CField (v : nat)          (** the read of [discs_on_field] *)
  | CWrite (v w : nat)        (** the write *)
  | CClear                    (** [discs_on_field = 0] *)
  | CUnlock                   (** [fieldLock.release] *)
  | CSignal.                  (** [stashFull.release] *)

(** The locks are [true] when they are held -- src/mp3/1_disc_golf_range.py:7-19 *)
Record golf := mkGolf {
  STASH : nat;
  discs_on_field : nat;
  stashLock : bool;
  fieldLock : bool;
  stashEmpty : nat;
  stashFull : nat;
  cart_pc : cpc;
  frolfers : nat → fpc;
}.
Definition g_stash v g := mkGolf v (discs_on_field g) (stashLock g) (fieldLock g) (stashEmpty g) (stashFull g) (cart_pc g) (frolfers g).
Definition g_field v g := mkGolf (STASH g) v (stashLock g) (fieldLock g) (stashEmpty g) (stashFull g) (cart_pc g) (frolfers g).
Definition g_slock v g := mkGolf (STASH g) (discs_on_field g) v (fieldLock g) (stashEmpty g) (stashFull g) (cart_pc g) (frolfers g).
Definition g_flock v g := mkGolf (STASH g) (discs_on_field g) (stashLock g) v (stashEmpty g) (stashFull g) (cart_pc g) (frolfers g).
Definition g_empty v g := mkGolf (STASH g) (discs_on_field g) (stashLock g) (fieldLock g) v (stashFull g) (cart_pc g) (frolfers g).
Definition g_full v g := mkGolf (STASH g) (discs_on_field g) (stashLock g) (fieldLock g) (stashEmpty g) v (cart_pc g) (frolfers g).
Definition g_cart v g := mkGolf (STASH g) (discs_on_field g) (stashLock g) (fieldLock g) (stashEmpty g) (stashFull g) v (frolfers g).
Definition g_frolfer i p g :=
  mkGolf (STASH g) (discs_on_field g) (stashLock g) (fieldLock g) (stashEmpty g) (stashFull g) (cart_pc g) (set (frolfers g) i p).

Section golf.
Context (stash0 BUCKET_SIZE NUM_FROLFERS : nat).

(** With [k] discs in the bucket a player throws, without goes for a bucket. *)
Definition with_bucket (k : nat) : fpc := match k with O => Call | S _ => Throw k end.

(** The next step of player [i], if it has one -- src/mp3/1_disc_golf_range.py:26-58 *)
Definition frolfer (i : nat) (g : golf) : option golf :=
  match frolfers g i with
  | Call => if stashLock g then None else Some (g_slock true (g_frolfer i Look g))
  | Look => Some (g_frolfer i (if STASH g <? BUCKET_SIZE then Signal else Again) g)
  | Signal => Some (g_empty (S (stashEmpty g)) (g_frolfer i Await g))
  | Await => match stashFull g with O => None | S v => Some (g_full v (g_frolfer i Again g)) end
  | Again => Some (g_frolfer i (if STASH g <? BUCKET_SIZE then Give else Third) g)
  | Third => Some (g_frolfer i (if BUCKET_SIZE <=? STASH g then Take else Give) g)
  | Give => Some (g_slock false (g_frolfer i Call g))
  | Take => Some (g_frolfer i (Took (STASH g)) g)
  | Took v => Some (g_stash (v - BUCKET_SIZE) (g_frolfer i Leave g))
  | Leave => Some (g_slock false (g_frolfer i (with_bucket BUCKET_SIZE) g))
  | Throw k => if fieldLock g then None else Some (g_flock true (g_frolfer i (Count k) g))
  | Count k => Some (g_frolfer i (Counted k (discs_on_field g)) g)
  | Counted k v => Some (g_field (v + 1) (g_frolfer i (Thrown k) g))
  | Thrown k => Some (g_flock false (g_frolfer i (with_bucket (k - 1)) g))
  end.

(** The next step of the cart -- src/mp3/1_disc_golf_range.py:60-80 *)
Definition cart (g : golf) : option golf :=
  match cart_pc g with
  | CWait => match stashEmpty g with O => None | S v => Some (g_empty v (g_cart CLock g)) end
  | CLock => if fieldLock g then None else Some (g_flock true (g_cart CStash g))
  | CStash => Some (g_cart (CField (STASH g)) g)
  | CField v => Some (g_cart (CWrite v (discs_on_field g)) g)
  | CWrite v w => Some (g_stash (v + w) (g_cart CClear g))
  | CClear => Some (g_field 0 (g_cart CUnlock g))
  | CUnlock => Some (g_flock false (g_cart CSignal g))
  | CSignal => Some (g_full (S (stashFull g)) (g_cart CWait g))
  end.

Inductive gstep (g g' : golf) : Prop :=
  | g_player i : i < NUM_FROLFERS → frolfer i g = Some g' → gstep g g'
  | g_driver : cart g = Some g' → gstep g g'.

(** The state when the threads start -- src/mp3/1_disc_golf_range.py:82-90 *)
Definition golf_main : golf := mkGolf stash0 0 false false 0 0 CWait (λ _, Call).
End golf.

(** ** The invariant *)

Section proofs.
Context (stash0 B F : nat).

(** What a player has: the lock of the stash, that of the field, a call for the cart,
    and discs. *)
Definition has_stash (p : fpc) : nat :=
  match p with Look | Signal | Await | Again | Give | Third | Take | Took _ | Leave => 1 | _ => 0 end.
Definition has_field (p : fpc) : nat := match p with Count _ | Counted _ _ | Thrown _ => 1 | _ => 0 end.
Definition has_called (p : fpc) : nat := match p with Await => 1 | _ => 0 end.
Definition has_discs (p : fpc) : nat :=
  match p with Leave => B | Throw k | Count k | Counted k _ => k | Thrown k => k - 1 | _ => 0 end.
Definition cart_field (c : cpc) : nat := match c with CStash | CField _ | CWrite _ _ | CClear | CUnlock => 1 | _ => 0 end.
Definition cart_out (c : cpc) : nat := match c with CWait => 0 | _ => 1 end.

Definition total_of (f : fpc → nat) (g : golf) : nat := sum (λ i, f (frolfers g i)) F.

(** The discs in the field that have not been put back yet. *)
Definition lying (g : golf) : nat := match cart_pc g with CClear => 0 | _ => discs_on_field g end.

Definition b2n (b : bool) : nat := if b then 1 else 0.

(** What each thread knows. *)
Definition player_ok (g : golf) (p : fpc) : Prop :=
  match p with
  | Third | Take => B ≤ STASH g
  | Took v => v = STASH g ∧ B ≤ v
  | Throw k | Count k | Thrown k => 1 ≤ k
  | Counted k v => 1 ≤ k ∧ v = discs_on_field g
  | _ => True
  end.
Definition driver_ok (g : golf) : Prop :=
  match cart_pc g with
  | CField v => v = STASH g
  | CWrite v w => v = STASH g ∧ w = discs_on_field g
  | CUnlock => discs_on_field g = 0
  | _ => True
  end.

Record ginv (g : golf) : Prop := {
  gi_stash : total_of has_stash g = b2n (stashLock g);
  gi_field : total_of has_field g + cart_field (cart_pc g) = b2n (fieldLock g);
  gi_calls : total_of has_called g = stashEmpty g + stashFull g + cart_out (cart_pc g);
  gi_discs : STASH g + lying g + total_of has_discs g = stash0;
  gi_players : ∀ i, i < F → player_ok g (frolfers g i);
  gi_driver : driver_ok g;
}.

Lemma total_set f g i p : i < F → total_of f (g_frolfer i p g) + f (frolfers g i) = total_of f g + f p.
Proof using Type. intros Hi. exact (sum_set f (frolfers g) i p F Hi). Qed.

Lemma total_one f g i : i < F → f (frolfers g i) ≤ total_of f g.
Proof using Type.
  unfold total_of. induction F as [| m IH]; intros Hi; [lia |]. cbn [sum]. destruct (decide (i = m)) as [-> |]; [lia |].
  specialize (IH ltac:(lia)). lia.
Qed.

Lemma total_two f g i j : i < F → j < F → i ≠ j → f (frolfers g i) + f (frolfers g j) ≤ total_of f g.
Proof using Type.
  unfold total_of. induction F as [| m IH]; intros Hi Hj Hne; [lia |]. cbn [sum].
  assert (H1 : ∀ l, l < m → f (frolfers g l) ≤ sum (λ i, f (frolfers g i)) m).
  { clear. intros l Hl. induction m as [| m IH]; [lia |]. cbn [sum]. destruct (decide (l = m)) as [-> |]; [lia |]. specialize (IH ltac:(lia)). lia. }
  destruct (decide (i = m)) as [-> |]; [specialize (H1 j ltac:(lia)); lia |].
  destruct (decide (j = m)) as [-> |]; [specialize (H1 i ltac:(lia)); lia |]. specialize (IH ltac:(lia) ltac:(lia) Hne). lia.
Qed.

Lemma total_zero_all f g : (∀ i, i < F → f (frolfers g i) = 0) → total_of f g = 0.
Proof using Type. unfold total_of. induction F as [| m IH]; intros H; [done |]. cbn [sum]. rewrite IH, H by auto. done. Qed.

(** Who holds a lock holds it alone. *)
Lemma alone_stash g i j : ginv g → i < F → j < F → has_stash (frolfers g i) = 1 → j ≠ i → has_stash (frolfers g j) = 0.
Proof using Type.
  intros [H _ _ _ _ _] Hi Hj Ei Hne. pose proof (total_two has_stash g i j Hi Hj ltac:(lia)). destruct (stashLock g); cbn in H; lia.
Qed.

Lemma alone_field g i j : ginv g → i < F → j < F → has_field (frolfers g i) = 1 → j ≠ i → has_field (frolfers g j) = 0.
Proof using Type.
  intros [_ H _ _ _ _] Hi Hj Ei Hne. pose proof (total_two has_field g i j Hi Hj ltac:(lia)). destruct (fieldLock g); cbn in H; lia.
Qed.

(** A player waits for the cart while it is out; nobody else is at the stash. *)
Lemma cart_alone g i : ginv g → cart_out (cart_pc g) = 1 → i < F → has_stash (frolfers g i) = 1 → frolfers g i = Await.
Proof using Type.
  intros H Hc Hi Hs. pose proof (gi_calls g H) as Hcalls. rewrite Hc in Hcalls.
  assert (Hex : ∃ j, j < F ∧ frolfers g j = Await).
  { clear - Hcalls. unfold total_of in Hcalls. revert Hcalls. generalize (stashEmpty g + stashFull g). induction F as [| m IH]; cbn [sum]; intros c E; [lia |].
    destruct (decide (has_called (frolfers g m) = 1)) as [Em | Em].
    - exists m. split; [lia |]. by destruct (frolfers g m).
    - destruct (IH c) as (j & Hj & Ej); [destruct (frolfers g m); cbn in *; lia |]. exists j. split; [lia | done]. }
  destruct Hex as (j & Hj & Ej). destruct (decide (j = i)) as [-> | Hne]; [done |].
  pose proof (alone_stash g i j H Hi Hj Hs Hne) as H0. rewrite Ej in H0. discriminate.
Qed.

Lemma player_frame g g' q : STASH g' = STASH g → discs_on_field g' = discs_on_field g → player_ok g q → player_ok g' q.
Proof using Type. unfold player_ok. by intros -> ->. Qed.

Lemma driver_frame g g' :
  STASH g' = STASH g → discs_on_field g' = discs_on_field g → cart_pc g' = cart_pc g → driver_ok g → driver_ok g'.
Proof using Type. unfold driver_ok. by intros -> -> ->. Qed.

(** A step of player [i] to [q]: locks, calls and discs go with it. *)
Lemma player_inv g g' i q :
  ginv g → i < F → frolfers g' = set (frolfers g) i q → cart_pc g' = cart_pc g →
  has_stash q + b2n (stashLock g) = has_stash (frolfers g i) + b2n (stashLock g') →
  has_field q + b2n (fieldLock g) = has_field (frolfers g i) + b2n (fieldLock g') →
  has_called q + (stashEmpty g + stashFull g) = has_called (frolfers g i) + (stashEmpty g' + stashFull g') →
  STASH g' + lying g' + has_discs q = STASH g + lying g + has_discs (frolfers g i) →
  player_ok g' q → (∀ j, j < F → j ≠ i → player_ok g (frolfers g j) → player_ok g' (frolfers g j)) → driver_ok g' → ginv g'.
Proof using Type.
  intros [H1 H2 H3 H4 H5 H6] Hi Ef Ec E1 E2 E3 E4 Hq Hoth Hd.
  assert (Hsum : ∀ f, total_of f g' + f (frolfers g i) = total_of f g + f q)
    by (intros f; unfold total_of; rewrite Ef; exact (sum_set f (frolfers g) i q F Hi)).
  pose proof (Hsum has_stash). pose proof (Hsum has_field). pose proof (Hsum has_called). pose proof (Hsum has_discs).
  split; rewrite ?Ec; try lia; [| done].
  intros j Hj. rewrite Ef. destruct (decide (j = i)) as [-> | Hne]; [by rewrite set_eq |]. rewrite set_ne by done. by apply Hoth, H5.
Qed.

Lemma with_bucket_has k : has_stash (with_bucket k) = 0 ∧ has_field (with_bucket k) = 0 ∧ has_called (with_bucket k) = 0 ∧
  has_discs (with_bucket k) = k.
Proof using Type. by destruct k. Qed.

(** The steps that change neither stash nor field. *)
Ltac quiet g i q :=
  apply (player_inv g _ i q);
  [assumption | assumption | reflexivity | reflexivity | cbn | cbn | cbn | cbn | cbn
  | intros; apply (player_frame g); [reflexivity | reflexivity | assumption]
  | apply (driver_frame g); [reflexivity | reflexivity | reflexivity | apply gi_driver; assumption]].

(** A bucket is taken: the cart is not out. *)
Lemma took_inv g i v :
  ginv g → i < F → frolfers g i = Took v → ginv (g_stash (v - B) (g_frolfer i Leave g)).
Proof using Type.
  intros H Hi Ei. pose proof (gi_players g H i Hi) as Hp. rewrite Ei in Hp. destruct Hp as [-> HB].
  apply (player_inv g _ i Leave); try done; rewrite ?Ei; try done.
  - cbn. unfold lying. cbn. lia.
  - intros j Hj Hne Hpj. pose proof (alone_stash g i j H Hi Hj ltac:(by rewrite Ei) Hne). by destruct (frolfers g j).
  - pose proof (cart_alone g i H) as Hc. rewrite Ei in Hc. unfold driver_ok. cbn [cart_pc g_stash g_frolfer].
    destruct (cart_pc g) eqn:Ec; try done; specialize (Hc eq_refl Hi eq_refl); discriminate.
Qed.

(** A disc lies on the field: the cart is not on it. *)
Lemma counted_inv g i k v :
  ginv g → i < F → frolfers g i = Counted k v → ginv (g_field (v + 1) (g_frolfer i (Thrown k) g)).
Proof using Type.
  intros H Hi Ei. pose proof (gi_players g H i Hi) as Hp. rewrite Ei in Hp. destruct Hp as [Hk ->].
  assert (Hc : cart_field (cart_pc g) = 0).
  { pose proof (gi_field g H) as Hf. pose proof (total_one has_field g i Hi) as Hone. rewrite Ei in Hone.
    destruct (fieldLock g); cbn in *; lia. }
  apply (player_inv g _ i (Thrown k)); try done; rewrite ?Ei; try done.
  - unfold lying. cbn. destruct (cart_pc g); cbn in *; lia.
  - intros j Hj Hne Hpj. pose proof (alone_field g i j H Hi Hj ltac:(by rewrite Ei) Hne). by destruct (frolfers g j).
  - unfold driver_ok. cbn. by destruct (cart_pc g).
Qed.

Lemma frolfer_inv g g' i : ginv g → i < F → frolfer B i g = Some g' → ginv g'.
Proof using Type.
  intros H Hi E. pose proof (gi_players g H i Hi) as Hp. unfold frolfer in E.
  pose proof (total_one has_stash g i Hi) as Ts. pose proof (total_one has_field g i Hi) as Tf.
  pose proof (gi_stash g H) as Hs. pose proof (gi_field g H) as Hf.
  destruct (frolfers g i) as [| | | | | | | | v | | k | k | k v | k] eqn:Ei; cbn [player_ok] in Hp.
  - destruct (stashLock g) eqn:El; [done |]. injection E as <-. quiet g i Look; rewrite ?Ei, ?El; cbn; try done; lia.
  - destruct (STASH g <? B); injection E as <-; [quiet g i Signal | quiet g i Again]; rewrite ?Ei; cbn; try done; lia.
  - injection E as <-. quiet g i Await; rewrite ?Ei; cbn; try done; lia.
  - destruct (stashFull g) as [| v] eqn:Ef; [done |]. injection E as <-. quiet g i Again; rewrite ?Ei, ?Ef; cbn; try done; lia.
  - destruct (Nat.ltb_spec (STASH g) B); injection E as <-; [quiet g i Give | quiet g i Third]; rewrite ?Ei; cbn; try done; lia.
  - injection E as <-. destruct (stashLock g) eqn:El; cbn in *; [| lia]. quiet g i Call; rewrite ?Ei, ?El; cbn; try done; lia.
  - destruct (Nat.leb_spec B (STASH g)); injection E as <-; [quiet g i Take | quiet g i Give]; rewrite ?Ei; cbn; try done; lia.
  - injection E as <-. quiet g i (Took (STASH g)); rewrite ?Ei; cbn; try done; lia.
  - injection E as <-. by apply took_inv.
  - injection E as <-. destruct (stashLock g) eqn:El; cbn in *; [| lia]. destruct (with_bucket_has B) as (W1 & W2 & W3 & W4).
    quiet g i (with_bucket B); rewrite ?Ei, ?El, ?W1, ?W2, ?W3, ?W4; cbn; try done; try lia. destruct B; cbn; [done | lia].
  - destruct (fieldLock g) eqn:El; [done |]. injection E as <-. quiet g i (Count k); rewrite ?Ei, ?El; cbn; try done; lia.
  - injection E as <-. quiet g i (Counted k (discs_on_field g)); rewrite ?Ei; cbn; try done; lia.
  - injection E as <-. by apply counted_inv.
  - injection E as <-. destruct (fieldLock g) eqn:El; cbn in *; [| lia]. destruct (with_bucket_has (k - 1)) as (W1 & W2 & W3 & W4).
    quiet g i (with_bucket (k - 1)); rewrite ?Ei, ?El, ?W1, ?W2, ?W3, ?W4; cbn; try done; try lia. destruct (k - 1); cbn; [done | lia].
Qed.

(** ** The cart *)

(** A step of the cart. *)
Lemma driver_inv g g' :
  ginv g → frolfers g' = frolfers g →
  stashLock g' = stashLock g →
  cart_field (cart_pc g') + b2n (fieldLock g) = cart_field (cart_pc g) + b2n (fieldLock g') →
  stashEmpty g' + stashFull g' + cart_out (cart_pc g') = stashEmpty g + stashFull g + cart_out (cart_pc g) →
  STASH g' + lying g' = STASH g + lying g →
  (∀ j, j < F → player_ok g (frolfers g j) → player_ok g' (frolfers g j)) → driver_ok g' → ginv g'.
Proof using Type.
  intros [H1 H2 H3 H4 H5 H6] Ef El E2 E3 E4 Hp Hd.
  assert (Hsum : ∀ f, total_of f g' = total_of f g) by (intros f; unfold total_of; by rewrite Ef).
  split; rewrite ?Hsum, ?El; try lia; [| done]. intros j Hj. rewrite Ef. by apply Hp, H5.
Qed.

Lemma cart_inv g g' : ginv g → cart g = Some g' → ginv g'.
Proof using Type.
  intros H E. pose proof (gi_field g H) as Hf. pose proof (gi_driver g H) as Hd. unfold cart in E. unfold driver_ok in Hd.
  destruct (cart_pc g) as [| | | v | v w | | |] eqn:Ec; cbn [cart_field] in Hf.
  - destruct (stashEmpty g) as [| v] eqn:Ev; [done |]. injection E as <-.
    apply (driver_inv g); unfold lying; cbn; rewrite ?Ec, ?Ev; cbn; try done; lia.
  - destruct (fieldLock g) eqn:El; [done |]. injection E as <-. apply (driver_inv g); unfold lying; cbn; rewrite ?Ec, ?El; done.
  - injection E as <-. apply (driver_inv g); unfold lying; cbn; rewrite ?Ec; done.
  - injection E as <-. apply (driver_inv g); unfold lying; cbn; rewrite ?Ec; done.
  - injection E as <-. destruct Hd as [-> ->]. apply (driver_inv g); unfold lying; cbn; rewrite ?Ec; try done; try lia.
    intros j Hj Hp. assert (Hc := cart_alone g j H). rewrite Ec in Hc. specialize (Hc eq_refl Hj).
    destruct (frolfers g j); try done; specialize (Hc eq_refl); discriminate.
  - injection E as <-. apply (driver_inv g); unfold lying; cbn; rewrite ?Ec; try done.
    intros j Hj Hp. pose proof (total_one has_field g j Hj) as Hone.
    destruct (frolfers g j); try done. cbn in Hone. destruct (fieldLock g); cbn in Hf; lia.
  - injection E as <-. destruct (fieldLock g) eqn:El; cbn in Hf; [| lia]. apply (driver_inv g); unfold lying; cbn; rewrite ?Ec, ?El; done.
  - injection E as <-. apply (driver_inv g); unfold lying; cbn; rewrite ?Ec; cbn; try done; lia.
Qed.

Lemma golf_inv g : rtc (gstep B F) (golf_main stash0) g → ginv g.
Proof using Type.
  intros H. apply (rtc_ind_r (λ g, ginv g) (golf_main stash0)) with (z := g) in H; [done | |].
  - assert (Hz : ∀ f, f Call = 0 → total_of f (golf_main stash0) = 0) by (intros f Hf; by apply total_zero_all).
    split; rewrite ?Hz; try done. cbn. lia.
  - intros y z _ [i Hi E | E] IH; [by eapply frolfer_inv | by eapply cart_inv].
Qed.

(** ** Nobody waits for ever *)

Lemma golf_moves g : 0 < F → ginv g → ∃ g', gstep B F g g'.
Proof using Type.
  intros HF [H1 H2 H3 _ _ _].
  destruct (decide (Exists (λ i, frolfer B i g ≠ None) (seq 0 F))) as [Hex | Hno].
  { apply Exists_exists in Hex as (i & Hi%elem_of_seq & Hm). destruct (frolfer B i g) as [g' |] eqn:E; [| done].
    exists g'. apply (g_player _ _ _ _ i); [lia | done]. }
  destruct (cart g) as [g' |] eqn:Ec; [exists g'; by apply g_driver |]. exfalso.
  assert (Hstuck : ∀ i, i < F → frolfer B i g = None).
  { intros i Hi. destruct (frolfer B i g) eqn:E; [| done]. exfalso. apply Hno, Exists_exists. exists i. rewrite E. split; [apply elem_of_seq; lia | done]. }
  assert (Hplace : ∀ i, i < F → frolfers g i = Call ∧ stashLock g = true ∨ frolfers g i = Await ∧ stashFull g = 0 ∨
                                (∃ k, frolfers g i = Throw k) ∧ fieldLock g = true).
  { intros i Hi. specialize (Hstuck i Hi). unfold frolfer in Hstuck. destruct (frolfers g i); try done.
    - left. by destruct (stashLock g).
    - right. left. by destruct (stashFull g).
    - right. right. split; [eauto |]. by destruct (fieldLock g). }
  assert (Hlock : fieldLock g = false).
  { destruct (fieldLock g) eqn:El; [| done]. cbn in H2. rewrite (total_zero_all has_field) in H2.
    - unfold cart in Ec. rewrite El in Ec. destruct (cart_pc g); cbn in *; try done.
    - intros i Hi. destruct (Hplace i Hi) as [[-> _] | [[-> _] | [[k ->] _]]]; done. }
  rewrite Hlock in Hplace. unfold cart in Ec. rewrite Hlock in Ec.
  assert (Hidle : cart_pc g = CWait ∧ stashEmpty g = 0) by (destruct (cart_pc g); try done; by destruct (stashEmpty g)).
  destruct Hidle as [Ecw Ese]. rewrite Ecw, Ese in H3. cbn in H3.
  assert (Hcall : ∀ i, i < F → frolfers g i = Call ∧ stashLock g = true).
  { intros i Hi. destruct (Hplace i Hi) as [? | [[Ea Ef] | [_ ?]]]; [done | | done]. exfalso.
    pose proof (total_one has_called g i Hi) as Hone. rewrite Ea in Hone. cbn in Hone. lia. }
  rewrite (total_zero_all has_stash) in H1.
  - destruct (Hcall 0 HF) as [_ El]. rewrite El in H1. done.
  - intros i Hi. by destruct (Hcall i Hi) as [-> _].
Qed.
End proofs.

(** C18: Whatever the schedule, with any number of players: the discs in the stash, on the
    field and in the hands of players are those there were at the start (counting a bucket
    from the moment it is taken off the stash); at most one player is at the stash, and
    when the cart is out this player waits for it, so that the cart's update
    of the stash without the lock is not lost; and some thread can always go on. *)
Theorem discs_conserved stash0 BUCKET_SIZE NUM_FROLFERS g :
  0 < NUM_FROLFERS → rtc (gstep BUCKET_SIZE NUM_FROLFERS) (golf_main stash0) g →
  STASH g + lying g + total_of NUM_FROLFERS (has_discs BUCKET_SIZE) g = stash0 ∧
  (∀ i j, i < NUM_FROLFERS → j < NUM_FROLFERS → has_stash (frolfers g i) = 1 → has_stash (frolfers g j) = 1 → i = j) ∧
  (∀ i, i < NUM_FROLFERS → has_stash (frolfers g i) = 1 → cart_pc g ≠ CWait → frolfers g i = Await) ∧
  ∃ g', gstep BUCKET_SIZE NUM_FROLFERS g g'.
Proof.
  intros HF Hg. apply golf_inv in Hg as H. split_and!.
  - apply H.
  - intros i j Hi Hj Ei Ej. destruct (decide (i = j)) as [| Hne]; [done |].
    rewrite (alone_stash _ _ _ g i j H Hi Hj Ei) in Ej by done. done.
  - intros i Hi Ei Hc. apply (cart_alone _ _ _ g i H); [by destruct (cart_pc g) | done | done].
  - by eapply golf_moves.
Qed.

(** The program of the file after its first step. *)
Lemma discs_conserved_witness :
  ∃ g, rtc (gstep 5 5) (golf_main 25) g ∧
    STASH g + lying g + total_of 5 (has_discs 5) g = 25 ∧
    (∀ i j, i < 5 → j < 5 → has_stash (frolfers g i) = 1 → has_stash (frolfers g j) = 1 → i = j) ∧
    (∀ i, i < 5 → has_stash (frolfers g i) = 1 → cart_pc g ≠ CWait → frolfers g i = Await) ∧
    ∃ g', gstep 5 5 g g'.
Proof.
  assert (H : rtc (gstep 5 5) (golf_main 25) (g_slock true (g_frolfer 2 Look (golf_main 25)))).
  { apply rtc_once. apply (g_player _ _ _ _ 2); [lia | reflexivity]. }
  eexists. split; [exact H |]. apply (discs_conserved 25 5 5); [lia | exact H].
Defined.
