(* ===== verification/Dance.v ===== *)
(** * The dance mixer (mp3/2_dance_mixer.py)

    A band releases leaders from their line one at a time; each takes a follower off
    the other line, the two meet, dance, and get back in line.  The threads interleave.
    What a thread does under [followerLock] does not block and is one step;
    [leaderLock] is part of the state, because the band waits while it holds it.  Whether
    a song is over is up to the schedule.

    The theorems: a couple is complete before the next leader is let in, and
    a schedule in which a leader takes a follower off an empty line, which raises an
    exception. *)

From stdpp Require Import base numbers list relations.
From Stdlib Require Import ZArith Lia.
From S2P Require Import Prelude Tanenbaum.

#[local] Open Scope nat_scope.

(** Where a leader is: in front of the operation. *)
Inductive lpc :=
  | LInit            (** [leaders.append] at the start *)
  | LEnter           (** [leader.acquire] *)
  | LCheck           (** [len(followers) == 0] *)
  | LLook            (** [followerInLine.acquire] *)
  | LPop             (** [followers.popleft] *)
  | LTake (f : nat)  (** [follower.release] *)
  | LReady           (** [leaderReady.release] *)
  | LMeet            (** [followerReady.acquire] *)
  | LDance           (** [signal.release] *)
  | LLine.           (** getting back in line *)

Inductive fpc :=
  | FInit            (** [followers.append] at the start *)
  | FEnter           (** [follower.acquire] *)
  | FReady           (** [followerReady.release] *)
  | FMeet            (** [leaderReady.acquire] *)
  | FDance           (** [signal.acquire] *)
  | FDone            (** [ready.release] *)
  | FLine.           (** getting back in line *)

Inductive bpc :=
  | BSong            (** the head of the loop *)
  | BLock            (** [leaderLock.acquire] *)
  | BReady           (** [ready.acquire] *)
  | BPop             (** [leaders.popleft] *)
  | BLet (l : nat)   (** [leader.release] *)
  | BLeaders         (** [leaderLineFull.acquire] *)
  | BFollowers.      (** [followerLineFull.acquire] *)

(** The lines, the lock, the semaphores ([lsem] and [fsem] are those of each person),
    and the threads -- src/mp3/2_dance_mixer.py:12-30 *)
Record floor := mkFloor {
  leaders : list nat;
  followers : list nat;
  leaderLock : bool;
  leaderReady : nat;
  followerReady : nat;
  leaderLineFull : nat;
  followerLineFull : nat;
  signal : nat;
  ready : nat;
  followerInLine : nat;
  lsem : nat → nat;
  fsem : nat → nat;
  lead : nat → lpc;
  follow : nat → fpc;
  band : bpc;
}.

(** Who moves next; the band looks at the clock when it is at the head of the loop. *)
Inductive who := Leader (i : nat) | Follower (i : nat) | Band (over : bool).

Inductive moved :=
  | To (d : floor)
  | Waiting
  | IndexError.

Definition put_leaders v d := mkFloor v (followers d) (leaderLock d) (leaderReady d) (followerReady d) (leaderLineFull d) (followerLineFull d) (signal d) (ready d) (followerInLine d) (lsem d) (fsem d) (lead d) (follow d) (band d).
Definition put_followers v d := mkFloor (leaders d) v (leaderLock d) (leaderReady d) (followerReady d) (leaderLineFull d) (followerLineFull d) (signal d) (ready d) (followerInLine d) (lsem d) (fsem d) (lead d) (follow d) (band d).
Definition put_lock v d := mkFloor (leaders d) (followers d) v (leaderReady d) (followerReady d) (leaderLineFull d) (followerLineFull d) (signal d) (ready d) (followerInLine d) (lsem d) (fsem d) (lead d) (follow d) (band d).
Definition put_lready v d := mkFloor (leaders d) (followers d) (leaderLock d) v (followerReady d) (leaderLineFull d) (followerLineFull d) (signal d) (ready d) (followerInLine d) (lsem d) (fsem d) (lead d) (follow d) (band d).
Definition put_fready v d := mkFloor (leaders d) (followers d) (leaderLock d) (leaderReady d) v (leaderLineFull d) (followerLineFull d) (signal d) (ready d) (followerInLine d) (lsem d) (fsem d) (lead d) (follow d) (band d).
Definition put_lfull v d := mkFloor (leaders d) (followers d) (leaderLock d) (leaderReady d) (followerReady d) v (followerLineFull d) (signal d) (ready d) (followerInLine d) (lsem d) (fsem d) (lead d) (follow d) (band d).
Definition put_ffull v d := mkFloor (leaders d) (followers d) (leaderLock d) (leaderReady d) (followerReady d) (leaderLineFull d) v (signal d) (ready d) (followerInLine d) (lsem d) (fsem d) (lead d) (follow d) (band d).
Definition put_signal v d := mkFloor (leaders d) (followers d) (leaderLock d) (leaderReady d) (followerReady d) (leaderLineFull d) (followerLineFull d) v (ready d) (followerInLine d) (lsem d) (fsem d) (lead d) (follow d) (band d).
Definition put_ready v d := mkFloor (leaders d) (followers d) (leaderLock d) (leaderReady d) (followerReady d) (leaderLineFull d) (followerLineFull d) (signal d) v (followerInLine d) (lsem d) (fsem d) (lead d) (follow d) (band d).
Definition put_inline v d := mkFloor (leaders d) (followers d) (leaderLock d) (leaderReady d) (followerReady d) (leaderLineFull d) (followerLineFull d) (signal d) (ready d) v (lsem d) (fsem d) (lead d) (follow d) (band d).
Definition put_lsem v d := mkFloor (leaders d) (followers d) (leaderLock d) (leaderReady d) (followerReady d) (leaderLineFull d) (followerLineFull d) (signal d) (ready d) (followerInLine d) v (fsem d) (lead d) (follow d) (band d).
Definition put_fsem v d := mkFloor (leaders d) (followers d) (leaderLock d) (leaderReady d) (followerReady d) (leaderLineFull d) (followerLineFull d) (signal d) (ready d) (followerInLine d) (lsem d) v (lead d) (follow d) (band d).
Definition put_lead v d := mkFloor (leaders d) (followers d) (leaderLock d) (leaderReady d) (followerReady d) (leaderLineFull d) (followerLineFull d) (signal d) (ready d) (followerInLine d) (lsem d) (fsem d) v (follow d) (band d).
Definition put_follow v d := mkFloor (leaders d) (followers d) (leaderLock d) (leaderReady d) (followerReady d) (leaderLineFull d) (followerLineFull d) (signal d) (ready d) (followerInLine d) (lsem d) (fsem d) (lead d) v (band d).
Definition put_band v d := mkFloor (leaders d) (followers d) (leaderLock d) (leaderReady d) (followerReady d) (leaderLineFull d) (followerLineFull d) (signal d) (ready d) (followerInLine d) (lsem d) (fsem d) (lead d) (follow d) v.

Section dance.
Context (NUM_LEADERS NUM_FOLLOWERS : nat).

Definition lgo (i : nat) (p : lpc) (d : floor) : floor := put_lead (set (lead d) i p) d.
Definition fgo (i : nat) (p : fpc) (d : floor) : floor := put_follow (set (follow d) i p) d.

(** [s.acquire] of a semaphore: waits without a permit. *)
Definition acquire (v : nat) (k : nat → floor) : moved := match v with O => Waiting | S v => To (k v) end.

(** The next step of a leader -- src/mp3/2_dance_mixer.py:40-89 *)
Definition leader_thread (i : nat) (d : floor) : moved :=
  match lead d i with
  | LInit => if leaderLock d then Waiting else To (put_leaders (leaders d ++ [i]) (lgo i LEnter d))
  | LEnter => acquire (lsem d i) (λ v, put_lsem (set (lsem d) i v) (lgo i LCheck d))
  | LCheck => To (lgo i (if decide (followers d = []) then LLook else LPop) d)
  | LLook => acquire (followerInLine d) (λ v, put_inline v (lgo i LPop d))
  | LPop => match followers d with [] => IndexError | f :: fs => To (put_followers fs (lgo i (LTake f) d)) end
  | LTake f => To (put_fsem (set (fsem d) f (S (fsem d f))) (lgo i LReady d))
  | LReady => To (put_lready (S (leaderReady d)) (lgo i LMeet d))
  | LMeet => acquire (followerReady d) (λ v, put_fready v (lgo i LDance d))
  | LDance => To (put_signal (S (signal d)) (lgo i LLine d))
  | LLine =>
      if leaderLock d then Waiting else
      let d := put_leaders (leaders d ++ [i]) (lgo i LEnter d) in
      To (if length (leaders d) =? NUM_LEADERS then put_lfull (S (leaderLineFull d)) d else d)
  end.

(** The next step of a follower -- src/mp3/2_dance_mixer.py:93-129 *)
Definition follower_thread (i : nat) (d : floor) : moved :=
  match follow d i with
  | FInit => To (put_followers (followers d ++ [i]) (fgo i FEnter d))
  | FEnter => acquire (fsem d i) (λ v, put_fsem (set (fsem d) i v) (fgo i FReady d))
  | FReady => To (put_fready (S (followerReady d)) (fgo i FMeet d))
  | FMeet => acquire (leaderReady d) (λ v, put_lready v (fgo i FDance d))
  | FDance => acquire (signal d) (λ v, put_signal v (fgo i FDone d))
  | FDone => To (put_ready (S (ready d)) (fgo i FLine d))
  | FLine =>
      let d := put_followers (followers d ++ [i]) (fgo i FEnter d) in
      To (if length (followers d) =? NUM_FOLLOWERS then put_ffull (S (followerLineFull d)) d
          else if 0 <? length (followers d) then put_inline (S (followerInLine d)) d else d)
  end.

(** The next step of the band -- src/mp3/2_dance_mixer.py:134-156 *)
Definition band_thread (over : bool) (d : floor) : moved :=
  match band d with
  | BSong => To (put_band (if over then BLeaders else if 0 <? length (leaders d) then BLock else BSong) d)
  | BLock => if leaderLock d then Waiting else To (put_lock true (put_band BReady d))
  | BReady => acquire (ready d) (λ v, put_ready v (put_band BPop d))
  | BPop => match leaders d with [] => IndexError | l :: ls => To (put_leaders ls (put_lock false (put_band (BLet l) d))) end
  | BLet l => To (put_lsem (set (lsem d) l (S (lsem d l))) (put_band BSong d))
  | BLeaders => acquire (leaderLineFull d) (λ v, put_lfull v (put_band BFollowers d))
  | BFollowers => acquire (followerLineFull d) (λ v, put_ffull v (put_band BSong d))
  end.

Definition move (w : who) (d : floor) : moved :=
  match w with
  | Leader i => if i <? NUM_LEADERS then leader_thread i d else Waiting
  | Follower i => if i <? NUM_FOLLOWERS then follower_thread i d else Waiting
  | Band over => band_thread over d
  end.

(** A schedule; a thread that waits when it is its turn stays where it is. *)
Fixpoint play (ws : list who) (d : floor) : moved :=
  match ws with
  | [] => To d
  | w :: ws => match move w d with To d => play ws d | Waiting => play ws d | IndexError => IndexError end
  end.

(** The state when the threads start -- src/mp3/2_dance_mixer.py:160-173 *)
Definition dance_main : floor :=
  mkFloor [] [] false 0 0 0 0 0 1 0 (λ _, 0) (λ _, 0) (λ _, LInit) (λ _, FInit) BSong.
End dance.

(** ** A leader without a follower *)

(** A round of the band, leader [l] and follower [f], up to the lines. *)
Definition couple (l f : nat) : list who :=
  replicate 5 (Band false) ++ replicate 5 (Leader l) ++ replicate 3 (Follower f) ++ replicate 2 (Leader l) ++ replicate 2 (Follower f).

(** Two couples dance and get back in line, the first follower while the second one is
    still out, which leaves a permit in [followerInLine].  Then all followers are out at the
    same time: five with the five leaders, one with a leader who was back earlier. *)
Definition hasty : list who :=
  map Leader (seq 0 5) ++ map Follower (seq 0 6) ++
  couple 0 0 ++ couple 1 1 ++ [Follower 0; Leader 0; Leader 1; Follower 1] ++
  couple 2 2 ++ couple 3 3 ++ couple 4 4 ++ couple 0 5 ++ couple 1 0 ++
  [Leader 2] ++ couple 2 1 ++ [Leader 3] ++ replicate 5 (Band false) ++ replicate 4 (Leader 3).

(** With the numbers of the file there is a schedule in which [popleft] is called on
    the empty line of followers: [followerInLine] is released whenever a follower gets in
    line, also when no leader waits, and a leader who finds the line empty later takes
    such an old permit for a follower. *)
Theorem popleft_raises : play 5 6 hasty dance_main = IndexError.
Proof. vm_compute. reflexivity. Qed.

(** ** Couples *)

Section couples.
Context (NL NF : nat).

(** On the way between the band and the dance. *)
Definition on_way (p : lpc) : nat :=
  match p with LCheck | LLook | LPop | LTake _ | LReady | LMeet | LDance => 1 | _ => 0 end.
Definition with_follower (p : lpc) : nat := match p with LReady | LMeet | LDance => 1 | _ => 0 end.
Definition with_leader (p : fpc) : nat := match p with FReady | FMeet | FDance => 1 | _ => 0 end.
Definition announced (p : fpc) : nat := match p with FDone => 1 | _ => 0 end.
Definition letting (b : bpc) : nat := match b with BPop | BLet _ => 1 | _ => 0 end.

Definition lsum (f : lpc → nat) (d : floor) : nat := sum (λ i, f (lead d i)) NL.
Definition fsum (f : fpc → nat) (d : floor) : nat := sum (λ i, f (follow d i)) NF.

Definition choosing (b : bpc) : bool := match b with BLock | BReady | BPop => true | _ => false end.

Record paired (d : floor) : Prop := {
  pa_token : ready d + letting (band d) + sum (lsem d) NL + lsum on_way d + signal d + fsum announced d = 1;
  pa_couple : sum (fsem d) NF + fsum with_leader d = lsum with_follower d + signal d;
  pa_leaders : Forall (λ l, l < NL) (leaders d);
  pa_followers : Forall (λ f, f < NF) (followers d);
  pa_taken : ∀ i f, i < NL → lead d i = LTake f → f < NF;
  pa_let : ∀ l, band d = BLet l → l < NL;
  pa_line : choosing (band d) = true → leaders d ≠ [];
}.

Lemma sum_set_id (g : nat → nat) i v j : i < j → sum (set g i v) j + g i = sum g j + v.
Proof using Type. exact (sum_set (λ x, x) g i v j). Qed.

Lemma lsum_go f d d' i p : lead d' = set (lead d) i p → i < NL → lsum f d' + f (lead d i) = lsum f d + f p.
Proof using Type. intros E Hi. unfold lsum. rewrite E. exact (sum_set f (lead d) i p NL Hi). Qed.

Lemma fsum_go f d d' i p : follow d' = set (follow d) i p → i < NF → fsum f d' + f (follow d i) = fsum f d + f p.
Proof using Type. intros E Hi. unfold fsum. rewrite E. exact (sum_set f (follow d) i p NF Hi). Qed.

(** A step of leader [i] to [p]. *)
Lemma leader_inv d d' i p :
  paired d → i < NL → lead d' = set (lead d) i p → follow d' = follow d → band d' = band d →
  ready d' + sum (lsem d') NL + signal d' + on_way p = ready d + sum (lsem d) NL + signal d + on_way (lead d i) →
  sum (fsem d') NF + with_follower (lead d i) + signal d = sum (fsem d) NF + with_follower p + signal d' →
  Forall (λ l, l < NL) (leaders d') → Forall (λ f, f < NF) (followers d') → (∀ f, p = LTake f → f < NF) →
  (leaders d ≠ [] → leaders d' ≠ []) → paired d'.
Proof using Type.
  intros [H1 H2 H3 H4 H5 H6 H7] Hi El Ef Eb E1 E2 Hl Hf Ht Hn.
  pose proof (lsum_go on_way d d' i p El Hi). pose proof (lsum_go with_follower d d' i p El Hi).
  assert (Ef1 : ∀ f, fsum f d' = fsum f d) by (intros f; unfold fsum; by rewrite Ef).
  split; rewrite ?Eb, ?Ef1; try done; try lia.
  - intros j f Hj. rewrite El. unfold set. destruct (Nat.eqb_spec j i); [apply Ht | by apply H5].
  - intros Hc. by apply Hn, H7.
Qed.

(** A step of follower [i] to [p]. *)
Lemma follower_inv d d' i p :
  paired d → i < NF → follow d' = set (follow d) i p → lead d' = lead d → band d' = band d → lsem d' = lsem d →
  ready d' + signal d' + announced p = ready d + signal d + announced (follow d i) →
  sum (fsem d') NF + with_leader p + signal d = sum (fsem d) NF + with_leader (follow d i) + signal d' →
  leaders d' = leaders d → Forall (λ f, f < NF) (followers d') → paired d'.
Proof using Type.
  intros [H1 H2 H3 H4 H5 H6 H7] Hi Ef El Eb Es E1 E2 Ell Hf.
  pose proof (fsum_go announced d d' i p Ef Hi). pose proof (fsum_go with_leader d d' i p Ef Hi).
  assert (El1 : ∀ f, lsum f d' = lsum f d) by (intros f; unfold lsum; by rewrite El).
  split; rewrite ?Eb, ?El1, ?Es, ?Ell, ?El; try done; lia.
Qed.

Lemma leader_step d d' i : paired d → i < NL → leader_thread NL i d = To d' → paired d'.
Proof using Type.
  intros H Hi E. pose proof (pa_leaders d H) as Hl. pose proof (pa_followers d H) as Hf. unfold leader_thread in E.
  assert (Happ : Forall (λ l, l < NL) (leaders d ++ [i])) by (apply Forall_app; split; [done | by constructor]).
  assert (Hne : leaders d ≠ [] → leaders d ++ [i] ≠ []) by (intros _ Hx; by apply app_eq_nil in Hx as [_ ?]).
  destruct (lead d i) as [| | | | | f | | | |] eqn:Ei.
  - destruct (leaderLock d); [done |]. injection E as <-. apply (leader_inv d _ i LEnter); cbn; rewrite ?Ei; try done; cbn; lia.
  - unfold acquire in E. destruct (lsem d i) as [| v] eqn:Ev; [done |]. injection E as <-. pose proof (sum_set_id (lsem d) i v NL Hi).
    apply (leader_inv d _ i LCheck); cbn; rewrite ?Ei; try done; cbn; lia.
  - injection E as <-. destruct (decide (followers d = [])); [apply (leader_inv d _ i LLook) | apply (leader_inv d _ i LPop)]; cbn; rewrite ?Ei; try done; cbn; lia.
  - unfold acquire in E. destruct (followerInLine d) as [| v]; [done |]. injection E as <-. apply (leader_inv d _ i LPop); cbn; rewrite ?Ei; try done; cbn; lia.
  - destruct (followers d) as [| f fs] eqn:Eq; [done |]. injection E as <-. apply Forall_cons in Hf as [Hf1 Hf2].
    apply (leader_inv d _ i (LTake f)); cbn; rewrite ?Ei; try done; cbn; try lia. by intros ? [= <-].
  - injection E as <-. pose proof (sum_set_id (fsem d) f (S (fsem d f)) NF (pa_taken d H i f Hi Ei)).
    apply (leader_inv d _ i LReady); cbn; rewrite ?Ei; try done; cbn; lia.
  - injection E as <-. apply (leader_inv d _ i LMeet); cbn; rewrite ?Ei; try done; cbn; lia.
  - unfold acquire in E. destruct (followerReady d) as [| v]; [done |]. injection E as <-. apply (leader_inv d _ i LDance); cbn; rewrite ?Ei; try done; cbn; lia.
  - injection E as <-. apply (leader_inv d _ i LLine); cbn; rewrite ?Ei; try done; cbn; lia.
  - destruct (leaderLock d); [done |]. injection E as <-. apply (leader_inv d _ i LEnter); try (case_match; cbn); cbn; rewrite ?Ei; try done; cbn; lia.
Qed.

Lemma follower_step d d' i : paired d → i < NF → follower_thread NF i d = To d' → paired d'.
Proof using Type.
  intros H Hi E. pose proof (pa_followers d H) as Hf. unfold follower_thread in E.
  assert (Happ : Forall (λ f, f < NF) (followers d ++ [i])) by (apply Forall_app; split; [done | by constructor]).
  destruct (follow d i) eqn:Ei.
  - injection E as <-. apply (follower_inv d _ i FEnter); cbn; rewrite ?Ei; try done; cbn; lia.
  - unfold acquire in E. destruct (fsem d i) as [| v] eqn:Ev; [done |]. injection E as <-. pose proof (sum_set_id (fsem d) i v NF Hi).
    apply (follower_inv d _ i FReady); cbn; rewrite ?Ei; try done; cbn; lia.
  - injection E as <-. apply (follower_inv d _ i FMeet); cbn; rewrite ?Ei; try done; cbn; lia.
  - unfold acquire in E. destruct (leaderReady d) as [| v]; [done |]. injection E as <-. apply (follower_inv d _ i FDance); cbn; rewrite ?Ei; try done; cbn; lia.
  - unfold acquire in E. destruct (signal d) as [| v] eqn:Ev; [done |]. injection E as <-. apply (follower_inv d _ i FDone); cbn; rewrite ?Ei, ?Ev; try done; cbn; lia.
  - injection E as <-. apply (follower_inv d _ i FLine); cbn; rewrite ?Ei; try done; cbn; lia.
  - injection E as <-. apply (follower_inv d _ i FEnter); repeat (case_match; cbn); cbn; rewrite ?Ei; try done; cbn; lia.
Qed.

Lemma band_step d d' over : paired d → band_thread over d = To d' → paired d'.
Proof using Type.
  intros [H1 H2 H3 H4 H5 H6 H7] E. unfold band_thread in E. destruct (band d) as [| | | | l | |] eqn:Eb.
  - destruct over; [injection E as <-; split; cbn in *; done |].
    destruct (Nat.ltb_spec 0 (length (leaders d))) as [Hl | Hl]; injection E as <-; split; cbn in *; try done.
    intros _ Hx. rewrite Hx in Hl. cbn in Hl. lia.
  - destruct (leaderLock d); [done |]. injection E as <-. split; cbn in *; done.
  - unfold acquire in E. destruct (ready d) as [| v] eqn:Ev; [done |]. injection E as <-. split; unfold lsum, fsum in *; cbn in *; try done; lia.
  - destruct (leaders d) as [| l ls] eqn:El; [done |]. injection E as <-. apply Forall_cons in H3 as [Hl Hls].
    split; cbn in *; try done. by intros ? [= <-].
  - injection E as <-. pose proof (sum_set_id (lsem d) l (S (lsem d l)) NL (H6 l eq_refl)). split; cbn in *; try done.
    unfold lsum, fsum in *. cbn. lia.
  - unfold acquire in E. destruct (leaderLineFull d); [done |]. injection E as <-. split; cbn in *; done.
  - unfold acquire in E. destruct (followerLineFull d); [done |]. injection E as <-. split; cbn in *; done.
Qed.

Definition dance_step (d d' : floor) : Prop := ∃ w, move NL NF w d = To d'.

Lemma paired_reach d : rtc dance_step dance_main d → paired d.
Proof using Type.
  intros H. apply (rtc_ind_r paired dance_main) with (z := d) in H; [done | |].
  - assert (Hz : ∀ j, sum (λ _, 0) j = 0) by (induction j; [done | done]).
    split; cbn; unfold lsum, fsum; cbn; rewrite ?Hz; done.
  - intros y z _ [[i | i | over] E] IH; cbn [move] in E.
    + destruct (Nat.ltb_spec i NL) as [Hi |]; [exact (leader_step y z i IH Hi E) | done].
    + destruct (Nat.ltb_spec i NF) as [Hi |]; [exact (follower_step y z i IH Hi E) | done].
    + exact (band_step y z over IH E).
Qed.

Lemma sum_two (f : nat → nat) j i l : i < j → l < j → i ≠ l → f i + f l ≤ sum f j.
Proof using Type.
  assert (H1 : ∀ m k, k < m → f k ≤ sum f m).
  { induction m as [| m IH]; intros k Hk; [lia |]. cbn [sum]. destruct (decide (k = m)) as [-> |]; [lia |]. specialize (IH k ltac:(lia)). lia. }
  induction j as [| j IH]; intros Hi Hl Hne; [lia |]. cbn [sum]. destruct (decide (i = j)) as [-> |]; [specialize (H1 j l ltac:(lia)); lia |].
  destruct (decide (l = j)) as [-> |]; [specialize (H1 j i ltac:(lia)); lia |]. specialize (IH ltac:(lia) ltac:(lia) Hne). lia.
Qed.
End couples.

(** As long as no exception was raised, whatever the schedule and the numbers of people: at
    most one leader is on the way between the band and the dance; at
    most one follower has been taken by a leader and has not danced yet; and the band never
    takes a leader off an empty line. *)
Theorem one_couple_at_a_time NL NF d :
  rtc (dance_step NL NF) dance_main d →
  (∀ i j, i < NL → j < NL → on_way (lead d i) = 1 → on_way (lead d j) = 1 → i = j) ∧
  (∀ f g, f < NF → g < NF → with_leader (follow d f) = 1 → with_leader (follow d g) = 1 → f = g) ∧
  (∀ over, move NL NF (Band over) d ≠ IndexError).
Proof.
  intros H. apply paired_reach in H. pose proof (pa_token _ _ d H) as H1. pose proof (pa_couple _ _ d H) as H2. split_and!.
  - intros i j Hi Hj Ei Ej. destruct (decide (i = j)) as [| Hne]; [done |].
    pose proof (sum_two (λ i, on_way (lead d i)) NL i j Hi Hj Hne). unfold lsum in H1. cbn in *. lia.
  - intros f g Hf Hg Ef Eg. destruct (decide (f = g)) as [| Hne]; [done |].
    pose proof (sum_two (λ i, with_leader (follow d i)) NF f g Hf Hg Hne).
    assert (Hle : lsum NL with_follower d ≤ lsum NL on_way d) by (apply sum_le; intros i _; destruct (lead d i); cbn; lia).
    unfold fsum in H2. cbn in *. lia.
  - intros over. cbn. unfold band_thread, acquire. pose proof (pa_line _ _ d H) as Hl. destruct (band d); try done; try (by case_match).
    destruct (leaders d); [by destruct Hl | done].
Qed.
